(* ===== verification/_CoqProject ===== *)
-Q . S2P
Prelude.v
PyText.v
PyVal.v
Pagination.v
Repository.v
Scoped.v
Wallet.v
History.v
Marks.v
Interruption.v
HistorySync.v
Expr.v
GraphNav.v
Reach.v
GraphDef.v
Execution.v
Workflow.v
AuthStore.v
Auth.v
LidBuffer.v
AsrPool.v
Judge.v
LidGate.v
CallScreening.v
LangSwitch.v
Voicemail.v
Lifecycle.v
OutputLoop.v
ToolExec.v
Integrations.v
Vault.v
Json.v
UrlGuard.v
ToolCalls.v
Webhooks.v
Transfer.v
PromptRender.v
Turn.v
TurnRuns.v
OAuth.v
Dcr.v
Listener.v
ListenerRuns.v
Privacy.v
AgentTools.v
AgentConfig.v
AgentRuns.v
AgentCases.v
AgentCache.v
Synth.v
