(* ===== verification/Prelude.v ===== *)
(** * Verification of the voice-agent orchestration platform (src/voiceai)

    ** The program

    The platform runs phone and web calls with a voice agent and manages what
    those calls need. A call is a session of interleaved asyncio tasks: audio
    goes through a transcriber (one of a pool, one per language), a finished turn
    goes to a brain (a prompt, or a graph of nodes with routed edges), the answer
    is synthesised and its frames leave through the output loop, while the
    interruption manager, the playback marks and the conversation history keep
    track of who speaks and what was heard. Around it are services over a document
    store: authentication, wallets, tools with sealed credentials, executions,
    workflows and campaigns. Every service reads and writes through tenant-scoped
    views of one repository contract.

    ** Conventions

    A statement that raises keeps the mutations made before the raise: stateful
    code is [SE state error value] below, a state passed through and an [Ok] or
    [Err] beside it. Python strings are [string]s of the code points U+0000 to
    U+00FF (PyText), JSON-like values are [val] and dictionaries association
    lists in insertion order (PyVal). Integers are [Z]; a float is the rational it
    denotes with infinities and NaN apart and rounded where the code builds one;
    times are exact rationals, and each reading of a clock is an argument or is
    drawn from a supply. An [await] at which other tasks may act is an argument
    that says what they do to the state, an environment that answers from the
    trace so far, or a step of an interleaving.

    ** Files, in dependency order, and the code they model

    - PyText, PyVal: the [str] methods, dictionaries, numbers and [json]-like values
      that the sources use.
    - Pagination (common/pagination.py); Repository (database/base.py and
      repository.py: the protocol as the class [Repository] with [RepositoryLaws],
      and the in-memory backend as an instance); Scoped (database/scoped.py, proved
      against the laws); Wallet (modules/wallet, over any backend, then wired to
      tenant views).
    - History (helpers/conversation_history.py), Marks
      (helpers/mark_event_meta_data.py), Interruption (session/interruption.py),
      HistorySync (session/turn/history_sync.py: only what was heard is committed).
    - Expr (helpers/expression_evaluator.py), GraphNav (modules/agents/brains/graph:
      traversal, routing and the routing part of a turn), Reach (worklist
      reachability, shared by both validators), GraphDef
      (modules/automation/engine.py: validator, dry run, deploy mapping).
    - Execution (modules/executions/runner.py), Workflow (platform/workflows.py: the
      runner of a contact and the campaign driver over the store of executions).
    - AuthStore (modules/auth: models, repository, limiter), Auth (service_base,
      service, service_admin, token_service).
    - LidBuffer (lid/base.py, lid/soniox.py), AsrPool (modules/voice/asr/pool.py),
      Judge (helpers/language_switcher.py), LidGate (session/language/lid_gate.py),
      CallScreening (modules/voice/static_methods.py), LangSwitch
      (session/language/switcher.py): how the language of a call is switched.
    - Voicemail (agent_manager/voicemail_handler.py), Lifecycle
      (session/lifecycle/hangup.py with its callers: hang-up, teardown, watchdog),
      OutputLoop (session/turn/output_loop.py: the fate of each frame).
    - ToolExec (modules/tools: executor.py, auth_resolver.py, static_methods.py,
      exceptions.py, adapters/mcp/client.py; common/security.py), Integrations
      (modules/tools: integration_service.py, repository.py,
      org_policy_repository.py), Vault (modules/tools: vault.py,
      credential_repository.py).
    - Json (the JSON text, read and written as Python's json does), UrlGuard
      (helpers/function_calling_helpers.py and common/security.py: the two guards of
      outbound URLs), ToolCalls (llms/tool_call_accumulator.py and the request of a
      tool, from the streamed deltas to the HTTP call), Webhooks
      (session/webhooks.py: the ledger of requests, the pre-call webhook), Transfer
      (session/turn/function_calls.py, session/s2s_runner.py: handing a call over),
      PromptRender (helpers/utils.py: prompt variables).
    - Turn (session/turn/generation.py, function_calls.py, meta_info.py, chat.py: a
      turn of the model with the tools it calls and the turns they nest), TurnRuns
      (what holds of its runs). Turn composes History, HistorySync, Interruption,
      ToolCalls, Webhooks, Transfer and PromptRender the way execute_function_call and
      do_llm_generation call them.
    - OAuth (modules/tools/oauth_service.py: the login URL, the callback, the refresh and
      the answer page, as calls that wait between their steps), Dcr
      (modules/tools/dcr_service.py: discovery and registration of a client). OAuth
      stores through Integrations, seals with Vault and checks URLs with UrlGuard.

    - Listener (session/turn/transcript_listener: consumer.py, router.py, llm.py, regen.py,
      predicates.py, with cleanup_downstream_tasks of history_sync.py: what each message
      of the transcriber does to the turns of the call and to their tasks), ListenerRuns
      (what holds of its runs). Listener composes Turn, Interruption, History, HistorySync,
      Marks and Voicemail.
    - Privacy (modules/privacy, core/container.py _build_retention_service: consents, the
      rights of data subjects and the retention pass, over any lawful backend).
    - AgentTools (modules/tools/service.py and repository.py, modules/agents:
      service_tools.py and repository.py, core/container.py _AgentToolLinks: the shared
      tools, the references of an agent record and the cascade of an edit), AgentConfig
      (modules/agents: static_methods.py, service.py: the catalog audit, patches and every
      write of an agent), AgentRuns (what holds of them, over the requests of all tenants),
      AgentCases (concrete runs and witnesses), AgentCache (modules/agents/runtime/compiled.py:
      the cache before the agent stores, over any pair of stores and over the container's).
    - Synth (modules/voice/tts: base.py, stream.py, pool.py: the chunks of a text, the texts
      pushed to a voice and the audio that comes back, redialling, the pool of voices).

    A file has a Module with the names of the source's class or module; a record
    has the fields of the object or document, an operation the name of its
    method without leading underscores, and a part of a long method a name of its
    own. PyText, PyVal and this file hold the shared lemmas and tactics.

    ** What the theorems show

    - Storage: pages tile a listing and a walk of the pages yields every row; the
      in-memory backend meets the repository laws; a tenant view never answers
      another tenant's row and its writes to owned rows leave the others alone;
      top-ups and ledger agree.
    - Credentials of people: what authenticates is live, of its kind, and of a
      tenant that is not suspended; a consumed token or ticket never works again,
      whatever is called after; an organisation keeps an active owner through any
      sequence of requests.
    - Tools: no request leaves before the allowlist, the row, the arguments and the
      URL verdict were checked, and their number is bounded; a 401 is retried once
      with a refreshed credential; each call writes one audit row that tells its
      outcome and holds no secret-named value; arguments that pass have the
      declared types. At most one credential exists per provider, binding and
      owner through any sequence of requests; a flip to [enforce_shared] suspends
      the active private rows and nothing else; what resolution answers is
      characterised; a sealed envelope opens under its generation alone, and
      the secret given to [connect_credential] is the one in the header of a call.
    - Logins: however callbacks, refreshes and other requests interleave, a code goes
      only to the checked endpoint of its own login with that login's verifier, a state
      works for ten minutes and not after its code was posted, and the stored row
      belongs to the login that was started; an uninterrupted refresh rotates one row and
      leaves it refreshable; a registration asks only hosts that were checked; the answer page
      holds no markup of a provider.
    - Conversation: the history sent to a model pairs tool calls with results;
      history is trimmed to a prefix that was heard, and never without evidence;
      marks that were cleared never count as heard; a barge-in invalidates every
      allocated sequence; the fate of a frame is decided exactly, within bounded
      waits, and staged history follows its first frame.
    - Requests of the model: the deltas of a tool call accumulate to what was sent,
      in any interleaving; templates are filled at their markers and nowhere else;
      query strings read back; no request leaves before the URL guard cleared its
      address; the two guards agree outside stated ranges; a pre-call webhook names
      its own call and closes its own row; a call is transferred at most once,
      in any interleaving of attempts, audio and cancellations, and the record and the
      POST are of that attempt, whose own row is closed at its end; the variables
      of a prompt are those of the regular expression, and JSON in it survives.
    - Turns: a plain answer is spoken chunk by chunk and staged as their
      concatenation; no reply is asked for once the call is hung up, by the turn or by
      another task; for tool calls of the expected shape, the flag of a call in flight
      comes down and every request is accounted for, whatever the tools answer and
      wherever the turn is cancelled; a turn ends when the model stops calling tools.
    - The listener: at most one reply is generated at a time, whatever the transcriber says
      and however its tasks, the keypad's and the end of the call interleave, until a reply
      tears the call down itself; a final that is routed is dropped, owed to the settle timer or
      answered with a reply whose audio passes; the owed turn has its timer, and is
      answered when it fires; speech does not cut a tool call.
    - Agents: whatever the tenants ask of the tool and agent services, every endpoint in a
      stored agent passed the URL guard; a second resolution of a record changes nothing
      but its version stamps, after any edit that still offers its tools; a patch reads key by key, and
      sent twice is sent once. The cache answers as the stores do to requests one after the
      other, and within its time to live in any interleaving.
    - Voices: a pool speaks with one voice at a time and loses nothing of what it queued, in
      any interleaving of audio and switches; the audio of a turn carries the turn's sequence
      after a barge-in that resets; the redialling stops at three refusals in a row; the
      chunks of a text pronounce the text.
    - Privacy: the consent service refines the set of granted (subject, purpose) pairs while
      a subject has at most a hundred rows; retention erases expired rows only and counts
      them, and no row outlives as many cycles as its collection has rows.
    - Language: a switch needs an authorised verdict, and a decision that returns has
      written one record; a pool answers at most five requests to reconnect over its life,
      whatever runs while it connects; a gate is recorded once; the judge falls back as documented.
    - End of a call: one teardown in any interleaving, which waits for the goodbye,
      with a backstop when its mark is lost; voicemail checks are bounded.
    - Graphs and workflows: validators accept exactly the well-formed definitions;
      routing follows the documented precedence; chains of routers end; deployed
      graphs read back; a workflow run is a walk of its graph; the books of a
      campaign balance.

    Negative facts about the code are theorems too: the tenant-blind [insert], the
    wallet that replaces a foreign one, the one-page session sweep, the cap that
    loses the goodbye's backstop, the login that bypasses a policy, the starved
    resolution, the state that two callbacks use, the login that overwrites its own
    registration, the refresh that undoes a suspension, the cumulative final that is
    doubled, the speculative reply that nothing cancels, the unstreamed final that cuts a
    tool call, the edit of a tool that reaches only the stamps, the curated tool that a
    tenant replaces, the retired tool that stops every save, the agent that cannot be
    deleted, the retention cycle that skips pages, the consent that is not seen, the cache that a write
    overtakes, the voice that stays silent after its connection closed.

    ** Interfaces

    [Model] (what a document class offers), [Repository] and [RepositoryLaws],
    [Provider] (LidBuffer: what a detector's subclass supplies), [Aead] (Vault: what
    the cipher promises), [Interpreter] and [Registry] (UrlGuard: what differs
    between the interpreters), [Monotone] and [Settles] (TurnRuns: what the other tasks
    and the model promise), [Stable] and [Turnwise] (TurnRuns: what an invariant needs), [Ports] and [PortsLaws]
    (AgentCache: what the cache needs of the stores) and
    the [environment]s (ToolExec, ToolCalls, Turn, Listener) are what one component promises to
    another; client theorems are proved against them.

    ** Bounds and fuel

    A page walk takes the pages a caller allows, and is shown complete when they
    cover the rows. The dry run takes one unit more than its step bound, a chain of
    routers one more than the number of nodes (a router is visited once), the
    worklist one unit per pushed id ([search_complete]), the workflow walk the 50
    steps of the code. The reconnect loop of the detector has the three attempts of
    the code, the credential retries the one of [RETRY_ONCE]. The
    turns nested in tool calls take one unit each ([turns_end]), the matcher of a
    prompt one per character. Where the code
    repeats until an event arrives (a held frame, the playout wait, the watchdog),
    the tries or wake-ups are an explicit list and a theorem says when it ends.

    ** Parameters

    Code outside src/: hashing, key derivation and tokens (SHA-256, PBKDF2, JWT),
    AES-GCM, the coding of the tokens' JSON, the language models' answers (turns,
    routing, judge, voicemail), name resolution, a provider's connection, random ids and
    secrets, clocks,
    environment variables, the HTTP servers and the cache of the tool executor.
    What is assumed of them is named in the hypotheses, with instances in the
    witnesses.

    ** Not modelled

    - I/O with carriers, transcribers, synthesizers, model providers and the Mongo
      driver, HTTP routers and dependency injection: glue around third-party code.
    - Logging, telemetry and latency records, prompt texts, audio resampling.
    - Glue around the event loop: the synthesizer listener, the welcome message, followup
      tasks, the typed-chat queue, the call report and the speech-to-speech runner but for
      its transfers. They await third-party sockets between every two statements and keep
      no state of their own beyond what is modelled.
    - Services that only pass documents between a router and a repository (numbers, voices,
      knowledge bases, the catalog, chat sessions, customer webhooks, the identity program),
      tool synchronisation with third-party servers, and the batch driver and dialer, whose
      loop has the shape of the campaign driver that is modelled. *)
From stdpp Require Export base decidable option list gmap strings.
From Stdlib Require Export ZArith Lia Sorting.Permutation Sorting.Sorted.

Declare Scope voice_scope.
Delimit Scope voice_scope with voice.
Create HintDb voice.

(** ** Results and the state-and-exception monad

    A Python statement that raises keeps every mutation made before the raise,
    so the monad returns the state next to the outcome in both cases. *)
Inductive result (E A : Type) : Type :=
| Ok (a : A)
| Err (e : E).
Arguments Ok {E A} a.
Arguments Err {E A} e.

Definition SE (S E A : Type) : Type := S -> S * result E A.

Definition se_ret {S E A} (a : A) : SE S E A := fun s => (s, Ok a).
Definition se_raise {S E A} (e : E) : SE S E A := fun s => (s, Err e).
Definition se_bind {S E A B} (c : SE S E A) (k : A -> SE S E B) : SE S E B :=
  fun s => match c s with
           | (s', Ok a) => k a s'
           | (s', Err e) => (s', Err e)
           end.
Definition se_get {S E} : SE S E S := fun s => (s, Ok s).
Definition se_modify {S E} (f : S -> S) : SE S E unit := fun s => (f s, Ok tt).

Notation "x <- c ;; k" := (se_bind c (fun x => k))
  (at level 100, c at next level, right associativity) : voice_scope.
Notation "c ;;; k" := (se_bind c (fun _ => k))
  (at level 100, right associativity) : voice_scope.

Lemma se_bind_ret_l {S E A B} (a : A) (k : A -> SE S E B) s :
  se_bind (se_ret a) k s = k a s.
Proof. reflexivity. Qed.

Lemma se_bind_ret_r {S E A} (c : SE S E A) s : se_bind c se_ret s = c s.
Proof. unfold se_bind, se_ret. by destruct (c s) as [? [|]]. Qed.

Lemma se_bind_assoc {S E A B C} (c : SE S E A) (f : A -> SE S E B) (g : B -> SE S E C) s :
  se_bind (se_bind c f) g s = se_bind c (fun a => se_bind (f a) g) s.
Proof. unfold se_bind. by destruct (c s) as [? [|]]. Qed.

(** An invariant of the state kept by a computation whatever its outcome. *)
Definition preserves {S E A} (I : S -> Prop) (c : SE S E A) : Prop :=
  forall s, I s -> I (fst (c s)).

Lemma preserves_ret {S E A} (I : S -> Prop) (a : A) : preserves I (@se_ret S E A a).
Proof. by intros s. Qed.

Lemma preserves_raise {S E A} (I : S -> Prop) (e : E) : preserves I (@se_raise S E A e).
Proof. by intros s. Qed.

Lemma preserves_get {S E} (I : S -> Prop) : preserves I (@se_get S E).
Proof. by intros s. Qed.

Lemma preserves_bind {S E A B} (I : S -> Prop) (c : SE S E A) (k : A -> SE S E B) :
  preserves I c -> (forall a, preserves I (k a)) -> preserves I (se_bind c k).
Proof.
  intros Hc Hk s Hs. unfold se_bind. specialize (Hc s Hs).
  destruct (c s) as [s' [a|e]]; simpl in *; [by apply Hk|done].
Qed.

Lemma preserves_modify {S E} (I : S -> Prop) (f : S -> S) :
  (forall s, I s -> I (f s)) -> preserves I (@se_modify S E f).
Proof. intros Hf s Hs. by apply Hf. Qed.

(** The runs of a computation that returns a value. *)
Lemma se_bind_Ok {S E A B} (c : SE S E A) (k : A -> SE S E B) s s' b :
  se_bind c k s = (s', Ok b) -> exists s1 a, c s = (s1, Ok a) /\ k a s1 = (s', Ok b).
Proof. unfold se_bind. destruct (c s) as [s1 [a|e]]; [by exists s1, a|done]. Qed.

(** Split a returning run at each of its binds. *)
Ltac run_inv :=
  repeat match goal with
  | H : se_bind _ _ _ = (_, Ok _) |- _ =>
      let s := fresh "s" in let a := fresh "a" in let Hc := fresh "Hrun" in
      apply se_bind_Ok in H as (s & a & Hc & H)
  | H : se_ret _ _ = (_, _) |- _ => unfold se_ret in H
  | H : se_raise _ _ = (_, _) |- _ => unfold se_raise in H
  | H : (_, Ok _) = (_, Ok _) |- _ => injection H as; subst
  | H : (_, Err _) = (_, Ok _) |- _ => discriminate H
  end.

#[export] Hint Resolve preserves_ret preserves_raise preserves_get preserves_bind : voice.

(** ** Case analysis *)

(** Split every [match] or [if] of the goal or of a hypothesis. *)
Ltac break_goal :=
  match goal with
  | |- context [match ?x with _ => _ end] => destruct x eqn:?
  end.
Ltac break_hyp :=
  match goal with
  | H : context [match ?x with _ => _ end] |- _ => destruct x eqn:?
  end.
Ltac crush := repeat (break_goal || break_hyp); simplify_eq/=; try done.

(** ** Python dictionaries

    A [dict] keeps insertion order: assigning an existing key replaces the
    value in place, a new key goes to the end, [pop]/[del] removes the entry. *)
Section dict.
Context {K V : Type} `{EqDecision K}.

Fixpoint dget (k : K) (d : list (K * V)) : option V :=
  match d with
  | [] => None
  | (k', v) :: d' => if decide (k = k') then Some v else dget k d'
  end.

Fixpoint dset (k : K) (v : V) (d : list (K * V)) : list (K * V) :=
  match d with
  | [] => [(k, v)]
  | (k', v') :: d' => if decide (k = k') then (k', v) :: d' else (k', v') :: dset k v d'
  end.

Fixpoint ddel (k : K) (d : list (K * V)) : list (K * V) :=
  match d with
  | [] => []
  | (k', v') :: d' => if decide (k = k') then d' else (k', v') :: ddel k d'
  end.

Definition dhas (k : K) (d : list (K * V)) : bool :=
  match dget k d with Some _ => true | None => false end.
Definition dkeys (d : list (K * V)) : list K := map fst d.
Definition dvalues (d : list (K * V)) : list V := map snd d.
Definition dwf (d : list (K * V)) : Prop := NoDup (dkeys d).

(** [d.update(other)] *)
Definition dupdate (d other : list (K * V)) : list (K * V) :=
  foldl (fun acc kv => dset kv.1 kv.2 acc) d other.

Lemma dget_dset_eq k v d : dget k (dset k v d) = Some v.
Proof.
  induction d as [|[k' v'] d IH]; simpl; [by rewrite decide_True|].
  case_decide; simpl; [by rewrite decide_True|by rewrite decide_False].
Qed.

Lemma dget_dset_ne k k' v d : k <> k' -> dget k (dset k' v d) = dget k d.
Proof.
  intros Hne. induction d as [|[k1 v1] d IH]; simpl; [by rewrite decide_False|].
  destruct (decide (k' = k1)) as [->|]; simpl; repeat case_decide; congruence.
Qed.

Lemma dget_dset k k' v d :
  dget k (dset k' v d) = if decide (k = k') then Some v else dget k d.
Proof. case_decide; subst; [apply dget_dset_eq|by apply dget_dset_ne]. Qed.

Lemma dget_ddel_ne k k' d : k <> k' -> dget k (ddel k' d) = dget k d.
Proof.
  intros Hne. induction d as [|[k1 v1] d IH]; simpl; [done|].
  destruct (decide (k' = k1)) as [->|]; simpl; repeat case_decide; congruence.
Qed.

Lemma dget_None k d : dget k d = None <-> k ∉ dkeys d.
Proof.
  unfold dkeys. induction d as [|[k' v'] d IH]; simpl; [set_solver|].
  rewrite not_elem_of_cons. case_decide; naive_solver.
Qed.

Lemma dget_Some_elem k v d : dget k d = Some v -> (k, v) ∈ d.
Proof.
  induction d as [|[k' v'] d IH]; simpl; [done|].
  case_decide; intros; simplify_eq; set_solver.
Qed.

Lemma elem_dget k v d : dwf d -> (k, v) ∈ d -> dget k d = Some v.
Proof.
  unfold dwf, dkeys. induction d as [|[k' v'] d IH]; simpl; [set_solver|].
  rewrite NoDup_cons, elem_of_cons. intros [Hni Hnd] [Heq|Hin]; simplify_eq.
  - by rewrite decide_True.
  - rewrite decide_False; [by apply IH|]. intros ->. apply Hni.
    by apply (list_elem_of_fmap_2 fst) in Hin.
Qed.

Lemma dget_ddel_eq k d : dwf d -> dget k (ddel k d) = None.
Proof.
  unfold dwf. induction d as [|[k' v'] d IH]; simpl; [done|].
  rewrite NoDup_cons. intros [Hni Hnd]. case_decide; simplify_eq.
  - by apply dget_None.
  - simpl. rewrite decide_False by done. by apply IH.
Qed.

Lemma dset_keys k v d :
  dkeys (dset k v d) = if dhas k d then dkeys d else dkeys d ++ [k].
Proof.
  unfold dhas, dkeys. induction d as [|[k' v'] d IH]; simpl; [done|].
  case_decide; simplify_eq/=; [done|]. rewrite IH. by destruct (dget k d).
Qed.

Lemma dset_wf k v d : dwf d -> dwf (dset k v d).
Proof.
  unfold dwf. intros Hd. rewrite dset_keys. unfold dhas.
  destruct (dget k d) eqn:E; [done|]. apply dget_None in E.
  apply NoDup_app. split_and!; [done|set_solver|apply NoDup_singleton].
Qed.

Lemma dset_fresh k v d : dget k d = None -> dset k v d = d ++ [(k, v)].
Proof.
  induction d as [|[k' v'] d IH]; simpl; [done|]. case_decide; [done|]. intros. by rewrite IH.
Qed.

Lemma ddel_absent k d : dget k d = None -> ddel k d = d.
Proof.
  induction d as [|[k' v'] d IH]; simpl; [done|]. case_decide; [done|]. intros. by rewrite IH.
Qed.

Lemma ddel_sublist k d : sublist (dkeys (ddel k d)) (dkeys d).
Proof.
  induction d as [|[k' v'] d IH]; simpl; [done|].
  case_decide; simpl; [by apply sublist_cons|by apply sublist_skip].
Qed.

Lemma ddel_wf k d : dwf d -> dwf (ddel k d).
Proof. intros Hd. eapply sublist_NoDup; [done|apply ddel_sublist]. Qed.

Lemma dset_elem k v d kv : kv ∈ dset k v d -> kv = (k, v) \/ kv ∈ d.
Proof.
  induction d as [|[k' v'] d IH]; simpl; [set_solver|]. destruct (decide (k = k')); set_solver.
Qed.
Lemma ddel_elem k d kv : kv ∈ ddel k d -> kv ∈ d.
Proof.
  induction d as [|[k' v'] d IH]; simpl; [done|]. destruct (decide (k = k')); set_solver.
Qed.
Lemma dset_id k v d : dget k d = Some v -> dset k v d = d.
Proof.
  induction d as [|[k' v'] d IH]; simpl; [done|].
  case_decide; intros; simplify_eq; [done|]. by rewrite IH.
Qed.

Lemma dset_dset k v w d : dset k w (dset k v d) = dset k w d.
Proof.
  induction d as [|[k' v'] d IH]; simpl; [by rewrite decide_True|].
  case_decide; simpl; [by rewrite decide_True|]. by rewrite decide_False, IH.
Qed.

(** Two dictionaries that answer every lookup alike (Python's [==]). *)
Definition deq (d1 d2 : list (K * V)) : Prop := forall k, dget k d1 = dget k d2.

#[global] Instance deq_equiv : Equivalence deq.
Proof.
  split; [by intros d k|intros d1 d2 H k; by rewrite H|intros d1 d2 d3 H1 H2 k; by rewrite H1].
Qed.

#[global] Instance dget_proper k : Proper (deq ==> eq) (dget k).
Proof. intros d1 d2 Hd. apply Hd. Qed.

#[global] Instance dset_proper k v : Proper (deq ==> deq) (dset k v).
Proof. intros d1 d2 Hd k'. rewrite !dget_dset. by rewrite Hd. Qed.

Lemma dset_comm k k' v v' d :
  k <> k' -> deq (dset k v (dset k' v' d)) (dset k' v' (dset k v d)).
Proof. intros Hne k0. rewrite !dget_dset. repeat case_decide; congruence. Qed.

Lemma dupdate_get k d other :
  dwf other -> dget k (dupdate d other) = match dget k other with Some v => Some v | None => dget k d end.
Proof.
  unfold dupdate. revert d. induction other as [|[k' v] other IH]; intros d Hwf; [done|].
  apply NoDup_cons in Hwf as [Hni Hwf]. cbn [fst] in Hni. apply dget_None in Hni.
  cbn [foldl fst snd]. rewrite IH by done. rewrite dget_dset. cbn [dget]. case_decide; subst; [by rewrite Hni|done].
Qed.
End dict.

#[export] Hint Resolve dset_wf ddel_wf dget_dset_eq : voice.
#[export] Hint Rewrite @dget_dset_eq : voice.
Notation dict K V := (list (K * V)).

(** ** Lists searched from the end

    The Python loops [for i in range(len(l) - 1, -1, -1): if p(l[i]): ...]. *)
Section rfind.
Context {A : Type}.

Fixpoint rindex (p : A -> bool) (l : list A) : option nat :=
  match l with
  | [] => None
  | x :: l' => match rindex p l' with
               | Some i => Some (S i)
               | None => if p x then Some 0 else None
               end
  end.

Lemma rindex_Some p (l : list A) i :
  rindex p l = Some i ->
  exists x, l !! i = Some x /\ p x = true /\
            forall j y, i < j -> l !! j = Some y -> p y = false.
Proof.
  revert i. induction l as [|x l IH]; intros i; simpl; [done|].
  destruct (rindex p l) as [i'|] eqn:E; intros; simplify_eq.
  - destruct (IH i' eq_refl) as (y & Hy & Hp & Hlast). exists y. split_and!; [done..|].
    intros [|j] z Hj Hz; [lia|]. by eapply (Hlast j); [lia|].
  - destruct (p x) eqn:Hx; simplify_eq. exists x. split_and!; [done..|].
    intros [|j] y Hj Hy; [lia|]. simpl in Hy. clear IH Hj Hx x.
    revert j Hy. induction l as [|z l IH]; intros [|j]; simpl in *; try done;
      destruct (rindex p l) eqn:E'; simplify_eq; destruct (p z) eqn:Hz; naive_solver.
Qed.

Lemma rindex_None p (l : list A) :
  rindex p l = None <-> forall x, x ∈ l -> p x = false.
Proof.
  induction l as [|x l IH]; simpl; [set_solver|].
  destruct (rindex p l) as [i|] eqn:E.
  - split; [done|]. intros H. exfalso.
    assert (Some i = None) as [=]. apply IH. intros y Hy. apply H. set_solver.
  - destruct (p x) eqn:Hx; split; try done.
    + intros H. rewrite H in Hx by set_solver. done.
    + intros _ y [->|Hy]%elem_of_cons; [done|]. by apply IH.
Qed.

Lemma rindex_lt p (l : list A) i : rindex p l = Some i -> i < length l.
Proof. intros (x & Hx & _)%rindex_Some. by eapply lookup_lt_Some. Qed.
End rfind.

(** [list(reversed(l[-n:]))] for [n > 0]. *)
Lemma reverse_last_take {A} (n : nat) (l : list A) :
  reverse (drop (length l - n) l) = take n (reverse l).
Proof.
  rewrite <- (take_drop (length l - n) l) at 3. rewrite reverse_app.
  destruct (decide (n <= length l)).
  - rewrite take_app_le by (rewrite length_reverse, length_drop; lia).
    by rewrite take_ge by (rewrite length_reverse, length_drop; lia).
  - replace (length l - n) with 0 by lia. rewrite drop_0, take_0, app_nil_r.
    by rewrite take_ge by (rewrite length_reverse; lia).
Qed.

(** ** Stable sorting by a key

    Python's [sorted(l, key=k)] and [min(l, key=k)]; [le] compares the keys. *)
Section sorting.
Context {A : Type} (le : A -> A -> bool).

Fixpoint insert_sorted (x : A) (l : list A) : list A :=
  match l with
  | [] => [x]
  | y :: l' => if le x y then x :: l else y :: insert_sorted x l'
  end.

Definition sort_by (l : list A) : list A := foldr insert_sorted [] l.

Fixpoint min_from (x : A) (l : list A) : A :=
  match l with
  | [] => x
  | y :: l' => if le x y then min_from x l' else min_from y l'
  end.
Definition min_by (l : list A) : option A :=
  match l with [] => None | x :: l' => Some (min_from x l') end.

Lemma insert_sorted_perm x l : Permutation (insert_sorted x l) (x :: l).
Proof.
  induction l as [|y l IH]; simpl; [done|]. destruct (le x y); [done|].
  rewrite IH. constructor.
Qed.

Lemma sort_by_perm l : Permutation (sort_by l) l.
Proof. induction l as [|x l IH]; simpl; [done|]. by rewrite insert_sorted_perm, IH. Qed.

Context (le_trans : forall x y z, le x y -> le y z -> le x z).
Context (le_total : forall x y, le x y \/ le y x).

Lemma insert_sorted_sorted x l :
  StronglySorted le l -> StronglySorted le (insert_sorted x l).
Proof.
  induction 1 as [|y l Hs IH Hy]; simpl; [by repeat constructor|].
  destruct (le x y) eqn:E.
  - assert (le x y) by (by rewrite E). constructor; [by constructor|].
    constructor; [done|]. eapply Forall_impl; [done|]. intros z Hz. eauto.
  - constructor; [done|]. rewrite insert_sorted_perm. constructor; [|done].
    destruct (le_total x y) as [H|H]; [by rewrite E in H|done].
Qed.

Lemma sort_by_sorted l : StronglySorted le (sort_by l).
Proof. induction l; simpl; [constructor|by apply insert_sorted_sorted]. Qed.

(** The stability of the sort: [filter] of one equivalence class keeps its order. *)
Lemma insert_sorted_filter (p : A -> bool) x l :
  (forall a b, p a -> p b -> le a b) -> StronglySorted le l ->
  List.filter p (insert_sorted x l) = List.filter p (x :: l).
Proof.
  intros Hp. induction 1 as [|y l Hs IH Hy]; [done|]. simpl insert_sorted.
  destruct (le x y) eqn:E; [done|]. simpl. rewrite IH. simpl.
  destruct (p x) eqn:Hx, (p y) eqn:Hy'; try done.
  specialize (Hp x y). rewrite Hx, Hy', E in Hp. by destruct Hp.
Qed.

Lemma sort_by_filter (p : A -> bool) l :
  (forall a b, p a -> p b -> le a b) ->
  List.filter p (sort_by l) = List.filter p l.
Proof.
  intros Hp. induction l as [|x l IH]; [done|]. simpl sort_by.
  rewrite insert_sorted_filter by (done || apply sort_by_sorted). simpl. by rewrite IH.
Qed.

Lemma min_from_le x l : le (min_from x l) x /\ forall y, y ∈ l -> le (min_from x l) y.
Proof.
  assert (forall z, le z z) as Hr by (intros z; by destruct (le_total z z)).
  revert x. induction l as [|y l IH]; intros x; simpl; [set_solver|].
  destruct (le x y) eqn:E.
  - destruct (IH x) as [Hx Hl]. split; [done|]. intros z [->|Hz]%elem_of_cons; [|by apply Hl].
    eapply le_trans; [done|by rewrite E].
  - assert (le y x) by (destruct (le_total x y) as [H|H]; [by rewrite E in H|done]).
    destruct (IH y) as [Hy Hl]. split; [by eapply le_trans|]. set_solver.
Qed.

Lemma min_from_elem x l : min_from x l = x \/ min_from x l ∈ l.
Proof.
  revert x. induction l as [|y l IH]; intros x; simpl; [by left|].
  destruct (le x y); [destruct (IH x)|destruct (IH y)]; set_solver.
Qed.

Lemma min_by_Some l x :
  min_by l = Some x -> x ∈ l /\ forall y, y ∈ l -> le x y.
Proof.
  destruct l as [|z l]; simpl; [done|]. intros [= <-]. split.
  - destruct (min_from_elem z l) as [->|]; set_solver.
  - destruct (min_from_le z l) as [Hz Hl]. intros y [->|Hy]%elem_of_cons; auto.
Qed.

Lemma min_by_None l : min_by l = None <-> l = [].
Proof. by destruct l. Qed.
End sorting.

(** ** Filters by a boolean test *)
Lemma lfilter_id {A} (p : A -> bool) l : (forall x, x ∈ l -> p x = true) -> List.filter p l = l.
Proof.
  induction l as [|x l IH]; intros Hp; [done|]. cbn [List.filter]. rewrite Hp by (by left).
  f_equal. apply IH. intros; apply Hp; by right.
Qed.
Lemma lfilter_none {A} (p : A -> bool) l : (forall x, x ∈ l -> p x = false) -> List.filter p l = [].
Proof. induction l as [|x l IH]; intros H; [done|]. cbn. rewrite H by (by left). apply IH. intros; apply H; by right. Qed.
Lemma lfilter_lfilter {A} (p q : A -> bool) l : List.filter p (List.filter q l) = List.filter (fun x => q x && p x) l.
Proof. induction l as [|x l IH]; simpl; [done|]. destruct (q x); simpl; [destruct (p x)|]; by rewrite IH. Qed.
Lemma lfilter_NoDup {A B} (f : A -> B) p (l : list A) : NoDup (map f l) -> NoDup (map f (List.filter p l)).
Proof.
  intros Hnd. eapply sublist_NoDup; [exact Hnd|]. clear Hnd.
  induction l as [|x l IH]; simpl; [done|]. destruct (p x); simpl; by constructor.
Qed.
Lemma elem_of_lfilter {A} (p : A -> bool) (l : list A) x : x ∈ List.filter p l <-> x ∈ l /\ p x = true.
Proof. by rewrite list_elem_of_In, List.filter_In, <- list_elem_of_In. Qed.
Lemma NoDup_map_inj {A B} (f : A -> B) (l : list A) x y : NoDup (map f l) -> x ∈ l -> y ∈ l -> f x = f y -> x = y.
Proof.
  induction l as [|z l IH]; simpl; [set_solver|]. intros [Hz Hl]%NoDup_cons Hx Hy E.
  apply elem_of_cons in Hx as [->|Hx], Hy as [->|Hy]; auto; exfalso; apply Hz; apply list_elem_of_fmap; eauto.
Qed.
Lemma NoDup_map_of {A B C} (f : A -> B) (g : A -> C) (l : list A) : NoDup (map f l) ->
  (forall x y, x ∈ l -> y ∈ l -> g x = g y -> f x = f y) -> NoDup (map g l).
Proof.
  intros Hf Hg. induction l as [|x l IH]; [constructor|]. simpl in *. apply NoDup_cons in Hf as [Hx Hf].
  apply NoDup_cons. split; [|apply IH; [done|]; intros; apply Hg; try (by right); done].
  intros (y & E & Hy)%list_elem_of_fmap. apply Hx, list_elem_of_fmap. exists y. split; [|done].
  apply Hg; [by left|by right|done].
Qed.
Lemma concat_map_nil {A B} (f : A -> list B) l : concat (map f l) = [] <-> forall x, x ∈ l -> f x = [].
Proof.
  induction l as [|x l IH]; simpl; [set_solver|].
  rewrite app_nil, IH. set_solver.
Qed.
