(* ===== verification/PyText.v ===== *)
(** * Python strings

    A [str] is a [string] whose characters are the code points U+0000..U+00FF;
    the operations below are the [str] methods the sources call, on that range:
    [strip], [split], [lower], [startswith], [find], [rfind], slicing, [join]. *)
From S2P Require Import Prelude.
From Stdlib Require Strings.Ascii Strings.String.
Export (notations) Stdlib.Strings.Ascii.
Notation ascii := Stdlib.Strings.Ascii.ascii.

Notation text := (list ascii).
Definition chars (s : string) : text := Stdlib.Strings.String.list_ascii_of_string s.
Definition of_chars (l : text) : string := Stdlib.Strings.String.string_of_list_ascii l.

Lemma of_chars_chars s : of_chars (chars s) = s.
Proof. apply Stdlib.Strings.String.string_of_list_ascii_of_string. Qed.
Lemma chars_of_chars l : chars (of_chars l) = l.
Proof. apply Stdlib.Strings.String.list_ascii_of_string_of_list_ascii. Qed.
#[export] Hint Rewrite of_chars_chars chars_of_chars : voice.

#[global] Instance chars_inj : Inj (=) (=) chars.
Proof. intros s1 s2 H. by rewrite <- (of_chars_chars s1), H, of_chars_chars. Qed.

Lemma chars_app s1 s2 : chars (s1 +:+ s2) = chars s1 ++ chars s2.
Proof. induction s1 as [|c s1 IH]; simpl; [done|]. unfold chars in *. simpl. by f_equal. Qed.

Lemma chars_nil s : chars s = [] <-> s = "".
Proof. split; [|by intros ->]. intros H. apply (inj chars). by rewrite H. Qed.

Definition str_len (s : string) : nat := length (chars s).
(** [bool(s)] *)
Definition str_true (s : string) : bool := match s with EmptyString => false | _ => true end.

Lemma str_true_false s : str_true s = false <-> s = "".
Proof. by destruct s. Qed.

(** [str.isspace] on one character. *)
Definition is_space (c : ascii) : bool :=
  let n := Stdlib.Strings.Ascii.nat_of_ascii c in
  (9 <=? n) && (n <=? 13) || (28 <=? n) && (n <=? 32) || (n =? 133) || (n =? 160).

Fixpoint lstrip_chars (l : text) : text :=
  match l with
  | [] => []
  | c :: l' => if is_space c then lstrip_chars l' else l
  end.
Definition rstrip_chars (l : text) : text := reverse (lstrip_chars (reverse l)).
Definition strip_chars (l : text) : text := rstrip_chars (lstrip_chars l).
Definition strip (s : string) : string := of_chars (strip_chars (chars s)).

(** [str.split()]: the maximal runs of non-space characters. *)
Fixpoint split_chars (cur : text) (l : text) : list text :=
  match l with
  | [] => match cur with [] => [] | _ => [reverse cur] end
  | c :: l' =>
      if is_space c
      then match cur with [] => split_chars [] l' | _ => reverse cur :: split_chars [] l' end
      else split_chars (c :: cur) l'
  end.
Definition split (s : string) : list string := map of_chars (split_chars [] (chars s)).

(** [s.split(sep)] for a one-character separator. *)
Fixpoint split_on_chars (sep : ascii) (cur : text) (l : text) : list text :=
  match l with
  | [] => [reverse cur]
  | c :: l' => if bool_decide (c = sep) then reverse cur :: split_on_chars sep [] l'
               else split_on_chars sep (c :: cur) l'
  end.
Definition split_on (sep : ascii) (s : string) : list string :=
  map of_chars (split_on_chars sep [] (chars s)).

Definition lower_char (c : ascii) : ascii :=
  let n := Stdlib.Strings.Ascii.nat_of_ascii c in
  if (65 <=? n) && (n <=? 90) || (192 <=? n) && (n <=? 222) && negb (n =? 215)
  then Stdlib.Strings.Ascii.ascii_of_nat (n + 32) else c.
Definition lower (s : string) : string := of_chars (map lower_char (chars s)).

Fixpoint prefix_chars (p l : text) : bool :=
  match p, l with
  | [], _ => true
  | c :: p', d :: l' => bool_decide (c = d) && prefix_chars p' l'
  | _ :: _, [] => false
  end.
(** [s.startswith(p)] *)
Definition startswith (s p : string) : bool := prefix_chars (chars p) (chars s).

Fixpoint find_chars (p l : text) : option nat :=
  if prefix_chars p l then Some 0
  else match l with
       | [] => None
       | _ :: l' => S <$> find_chars p l'
       end.
(** [s.find(p)], with [None] for the -1 of Python. *)
Definition find (s p : string) : option nat := find_chars (chars p) (chars s).
(** [p in s] *)
Definition contains (s p : string) : bool := match find s p with Some _ => true | None => false end.

(** [s.rfind(c)] for a one-character pattern. *)
Definition rfind_char (c : ascii) (l : text) : option nat := rindex (fun d => bool_decide (c = d)) l.

(** [s[:n]] and [s[-n:]] for a natural number [n > 0]. *)
Definition str_take (n : nat) (s : string) : string := of_chars (take n (chars s)).
Definition str_tail (n : nat) (s : string) : string :=
  of_chars (drop (str_len s - n) (chars s)).

Fixpoint join (sep : string) (l : list string) : string :=
  match l with
  | [] => ""
  | [s] => s
  | s :: l' => s +:+ sep +:+ join sep l'
  end.

(** ** Prefixes *)
Definition is_prefix (p s : string) : Prop := chars p `prefix_of` chars s.

Lemma prefix_chars_spec p l : prefix_chars p l = true <-> p `prefix_of` l.
Proof.
  revert l. induction p as [|c p IH]; intros l; simpl.
  - split; [intros _; apply prefix_nil|done].
  - destruct l as [|d l].
    + split; [done|]. by intros ?%prefix_nil_not.
    + rewrite andb_true_iff, bool_decide_eq_true, IH. split.
      * intros [-> H]. by apply prefix_cons.
      * intros H. split; [by eapply prefix_cons_inv_1|by eapply prefix_cons_inv_2].
Qed.

Lemma startswith_spec s p : startswith s p = true <-> is_prefix p s.
Proof. apply prefix_chars_spec. Qed.

Lemma take_is_prefix n s : is_prefix (str_take n s) s.
Proof. unfold is_prefix, str_take. rewrite chars_of_chars. apply prefix_take. Qed.

Lemma is_prefix_nil s : is_prefix "" s.
Proof. apply prefix_nil. Qed.

Lemma is_prefix_refl s : is_prefix s s.
Proof. unfold is_prefix. done. Qed.

Lemma is_prefix_trans s1 s2 s3 : is_prefix s1 s2 -> is_prefix s2 s3 -> is_prefix s1 s3.
Proof. unfold is_prefix. intros. by etrans. Qed.

#[export] Hint Resolve take_is_prefix is_prefix_nil is_prefix_refl : voice.

(** ** Search *)
Lemma find_chars_Some p l n :
  find_chars p l = Some n -> p `prefix_of` drop n l /\ n <= length l.
Proof.
  revert n. induction l as [|c l IH]; intros n H; cbn in H.
  - destruct (prefix_chars p []) eqn:E; simplify_eq. split; [by apply prefix_chars_spec|simpl; lia].
  - destruct (prefix_chars p (c :: l)) eqn:E; simplify_eq.
    + split; [by apply prefix_chars_spec|simpl; lia].
    + destruct (find_chars p l) as [m|] eqn:E'; simplify_eq/=.
      destruct (IH m eq_refl). split; [done|lia].
Qed.

Lemma find_chars_None p l n : find_chars p l = None -> ~ p `prefix_of` drop n l.
Proof.
  revert n. induction l as [|c l IH]; intros n H; cbn in H;
    destruct (prefix_chars p _) eqn:E; simplify_eq.
  - rewrite drop_nil. intros H'%prefix_chars_spec. congruence.
  - destruct (find_chars p l) eqn:E'; simplify_eq/=.
    destruct n as [|n]; simpl; [|by apply IH].
    intros H'%prefix_chars_spec. congruence.
Qed.

Lemma find_take_suffix s p n :
  find s p = Some n -> chars (str_take (n + str_len p) s) = take n (chars s) ++ chars p.
Proof.
  intros [[k Hk] Hn]%find_chars_Some. unfold str_take, str_len. rewrite chars_of_chars.
  rewrite <- take_take_drop. f_equal. rewrite Hk. by rewrite take_app_length.
Qed.

(** ** Stripping *)
Lemma lstrip_chars_suffix l : lstrip_chars l `suffix_of` l.
Proof.
  induction l as [|c l IH]; simpl; [done|]. destruct (is_space c); [|done].
  by apply suffix_cons_r.
Qed.

Lemma lstrip_chars_all_space l : lstrip_chars l = [] <-> Forall (fun c => is_space c = true) l.
Proof.
  induction l as [|c l IH]; simpl; [done|]. rewrite Forall_cons.
  destruct (is_space c) eqn:E; [naive_solver|]. split; [done|]. intros [H _]. congruence.
Qed.

Lemma lstrip_chars_idem l : lstrip_chars (lstrip_chars l) = lstrip_chars l.
Proof.
  induction l as [|c l IH]; simpl; [done|].
  destruct (is_space c) eqn:E; [done|]. simpl. by rewrite E.
Qed.

Lemma rstrip_chars_prefix l : rstrip_chars l `prefix_of` l.
Proof.
  unfold rstrip_chars. rewrite <- (reverse_involutive l) at 2.
  destruct (lstrip_chars_suffix (reverse l)) as [k Hk]. rewrite Hk at 2.
  rewrite reverse_app. by apply prefix_app_r.
Qed.

Lemma strip_chars_nil l : strip_chars l = [] <-> Forall (fun c => is_space c = true) l.
Proof.
  unfold strip_chars, rstrip_chars. rewrite <- lstrip_chars_all_space. split; [|by intros ->].
  intros H. apply (f_equal reverse) in H. rewrite reverse_involutive in H.
  apply lstrip_chars_all_space in H. rewrite Forall_reverse in H.
  rewrite <- lstrip_chars_all_space, lstrip_chars_idem in H. done.
Qed.

(** [s.strip() == ""] exactly when [s] has only whitespace. *)
Lemma strip_empty s : strip s = "" <-> Forall (fun c => is_space c = true) (chars s).
Proof.
  unfold strip. rewrite <- strip_chars_nil. rewrite <- chars_nil, chars_of_chars. done.
Qed.

Lemma elem_of_join sep c s l : s ∈ l -> c ∈ chars s -> c ∈ chars (join sep l).
Proof.
  induction l as [|t l IH]; [set_solver|]. intros [->|Hs]%elem_of_cons Hc.
  - destruct l; simpl; [done|]. rewrite !chars_app. set_solver.
  - destruct l as [|u l]; [set_solver|]. change (join sep (t :: u :: l)) with (t +:+ sep +:+ join sep (u :: l)).
    rewrite !chars_app. set_solver.
Qed.

(** A join with a part that is not blank is not blank. *)
Lemma join_not_blank sep s l : s ∈ l -> str_true (strip s) = true -> str_true (strip (join sep l)) = true.
Proof.
  intros Hs Hb. apply not_false_iff_true. intros H%str_true_false%strip_empty.
  apply not_false_iff_true in Hb. apply Hb, str_true_false, strip_empty, Forall_forall. intros c Hc.
  by apply (proj1 (Forall_forall _ _) H), (elem_of_join _ _ s).
Qed.

Lemma join_nil_sep l : chars (join "" l) = concat (map chars l).
Proof.
  induction l as [|s [|s' l] IH]; simpl in *; [done|by rewrite app_nil_r|].
  rewrite chars_app, chars_app, IH. done.
Qed.

(** Splitting a text put together around the separator. *)
Lemma split_on_chars_app sep cur a b : sep ∉ a ->
  split_on_chars sep cur (a ++ sep :: b) = reverse (reverse a ++ cur) :: split_on_chars sep [] b.
Proof.
  revert cur. induction a as [|c a IH]; intros cur Hn; cbn [app split_on_chars].
  - by rewrite bool_decide_eq_true_2.
  - apply not_elem_of_cons in Hn as [Hc Hn]. rewrite bool_decide_eq_false_2 by congruence.
    rewrite IH by done. by rewrite reverse_cons, <- app_assoc.
Qed.
Lemma split_on_chars_last sep cur a : sep ∉ a -> split_on_chars sep cur a = [reverse (reverse a ++ cur)].
Proof.
  revert cur. induction a as [|c a IH]; intros cur Hn; cbn [split_on_chars]; [done|].
  apply not_elem_of_cons in Hn as [Hc Hn]. rewrite bool_decide_eq_false_2 by congruence.
  rewrite IH by done. by rewrite reverse_cons, <- app_assoc.
Qed.
Lemma split_on_app sep a b : sep ∉ chars a ->
  split_on sep (a +:+ of_chars [sep] +:+ b) = a :: split_on sep b.
Proof.
  intros Ha. unfold split_on. rewrite !chars_app, chars_of_chars. cbn [app]. rewrite split_on_chars_app by done.
  cbn [map]. by rewrite app_nil_r, reverse_involutive, of_chars_chars.
Qed.
Lemma split_on_last sep a : sep ∉ chars a -> split_on sep a = [a].
Proof.
  intros Ha. unfold split_on. rewrite split_on_chars_last by done. cbn [map].
  by rewrite app_nil_r, reverse_involutive, of_chars_chars.
Qed.
