(* ===== verification/PyVal.v ===== *)
(** * Python values and numbers

    [val] is a JSON-like Python value. An [int] is a [Z]; a finite [float] is the
    rational it denotes, with infinities and NaN apart; [round64] is the rounding
    of a rational to IEEE binary64, used where a [float] is built from an [int] or
    parsed from a [str]. Times and durations elsewhere are exact rationals. *)
From S2P Require Import Prelude PyText.
From Stdlib Require Import QArith.QArith Lqa.
Close Scope Q_scope.
Open Scope nat_scope.

(** ** Rationals with boolean comparisons *)
Definition Qltb (a b : Q) : bool := negb (Qle_bool b a).
Definition Qmaxq (a b : Q) : Q := if Qle_bool b a then a else b.
Definition Qminq (a b : Q) : Q := if Qle_bool a b then a else b.

Lemma Qltb_lt a b : Qltb a b = true <-> (a < b)%Q.
Proof.
  unfold Qltb. rewrite negb_true_iff, <- not_true_iff_false, Qle_bool_iff. split.
  - apply Qnot_le_lt.
  - apply Qlt_not_le.
Qed.
Lemma Qltb_ge a b : Qltb a b = false <-> (b <= a)%Q.
Proof. unfold Qltb. by rewrite negb_false_iff, Qle_bool_iff. Qed.
Lemma Qle_bool_gt a b : Qle_bool a b = false <-> (b < a)%Q.
Proof. rewrite <- Qltb_lt. unfold Qltb. by rewrite negb_true_iff. Qed.
Lemma Qmaxq_l a b : (a <= Qmaxq a b)%Q.
Proof. unfold Qmaxq. destruct (Qle_bool b a) eqn:E; [lra|]. apply Qle_bool_gt in E. lra. Qed.
Lemma Qmaxq_r a b : (b <= Qmaxq a b)%Q.
Proof. unfold Qmaxq. destruct (Qle_bool b a) eqn:E; [|lra]. by apply Qle_bool_iff. Qed.
#[export] Hint Resolve Qmaxq_l Qmaxq_r : voice.

(** Turn the boolean comparisons of the context into rational inequalities. *)
Ltac qbool :=
  repeat match goal with
  | H : Qltb _ _ = true |- _ => apply Qltb_lt in H
  | H : Qltb _ _ = false |- _ => apply Qltb_ge in H
  | H : Qle_bool _ _ = true |- _ => apply Qle_bool_iff in H
  | H : Qle_bool _ _ = false |- _ => apply Qle_bool_gt in H
  end.

(** [n / d] rounded to the nearest integer, ties to even ([d > 0]). *)
Definition div_half_even (n d : Z) : Z :=
  let q := (n / d)%Z in
  let r := (n mod d)%Z in
  if (2 * r <? d)%Z then q
  else if (d <? 2 * r)%Z then (q + 1)%Z
  else if Z.even q then q else (q + 1)%Z.

(** [round(q, k)]: [k] decimals, ties to even. *)
Definition py_round (k : nat) (q : Q) : Q :=
  let p := Z.pow 10 (Z.of_nat k) in
  Qmake (div_half_even (Qnum q * p) (Zpos (Qden q))) (Z.to_pos p).

(** [int(q)]: truncation toward zero. *)
Definition py_trunc (q : Q) : Z := Z.quot (Qnum q) (Zpos (Qden q)).

(** [math.ceil(a / b)] for integers, [b > 0]. *)
Definition ceil_div (a b : Z) : Z := (- ((- a) / b))%Z.

Inductive pyfloat : Type :=
| Fin (q : Q)
| Inf (negative : bool)
| NaN.

(** The binary64 number nearest to [a / d] ([a, d > 0]), ties to even;
    [Inf] past the largest finite one. *)
Definition round64_pos (a d : Z) : pyfloat :=
  let e0 := (Z.log2 a - Z.log2 d)%Z in
  let scale k n := if (0 <=? k)%Z then (n * 2 ^ k)%Z else n in
  let below := (scale (Z.opp e0) a <? scale e0 d)%Z in
  let e := if below then (e0 - 1)%Z else e0 in
  let sh := Z.max (e - 52) (-1074) in
  let m := div_half_even (scale (Z.opp sh) a) (scale sh d) in
  if (0 <=? sh)%Z
  then let v := (m * 2 ^ sh)%Z in
       if (2 ^ 1024 <=? v)%Z then Inf false else Fin (Qmake v 1)
  else Fin (Qred (Qmake m (Z.to_pos (2 ^ (- sh))))).

Definition neg_float (f : pyfloat) : pyfloat :=
  match f with Fin q => Fin (Qopp q) | Inf b => Inf (negb b) | NaN => NaN end.

Definition round64 (q : Q) : pyfloat :=
  match Qnum q with
  | Z0 => Fin 0
  | Zpos p => round64_pos (Zpos p) (Zpos (Qden q))
  | Zneg p => neg_float (round64_pos (Zpos p) (Zpos (Qden q)))
  end.

Inductive val : Type :=
| VNone
| VBool (b : bool)
| VInt (z : Z)
| VFloat (f : pyfloat)
| VStr (s : string)
| VList (l : list val)
| VDict (d : list (string * val)).

Inductive exn : Type := TypeError | ValueError | OverflowError.

(** [bool(v)] *)
Definition truthy (v : val) : bool :=
  match v with
  | VNone => false
  | VBool b => b
  | VInt z => negb (z =? 0)%Z
  | VFloat (Fin q) => negb (Qeq_bool q 0)
  | VFloat _ => true
  | VStr s => str_true s
  | VList l => match l with [] => false | _ => true end
  | VDict d => match d with [] => false | _ => true end
  end.

(** The number a [bool], [int] or [float] denotes. *)
Definition num_of (v : val) : option pyfloat :=
  match v with
  | VBool b => Some (Fin (inject_Z (if b then 1 else 0)%Z))
  | VInt z => Some (Fin (inject_Z z))
  | VFloat f => Some f
  | _ => None
  end.

Definition num_eqb (a b : pyfloat) : bool :=
  match a, b with
  | Fin p, Fin q => Qeq_bool p q
  | Inf s, Inf t => Bool.eqb s t
  | _, _ => false
  end.

Definition num_ltb (a b : pyfloat) : bool :=
  match a, b with
  | Fin p, Fin q => Qltb p q
  | Fin _, Inf s => negb s
  | Inf s, Fin _ => s
  | Inf s, Inf t => s && negb t
  | _, _ => false
  end.

(** [a == b] *)
Fixpoint val_eqb (a b : val) {struct a} : bool :=
  match a, b with
  | VNone, VNone => true
  | VStr s, VStr t => bool_decide (s = t)
  | VList l, VList l' =>
      (fix go (l l' : list val) : bool :=
         match l, l' with
         | [], [] => true
         | x :: l, y :: l' => val_eqb x y && go l l'
         | _, _ => false
         end) l l'
  | VDict d, VDict d' =>
      Nat.eqb (length d) (length d') &&
      (fix go (d : list (string * val)) : bool :=
         match d with
         | [] => true
         | (k, v) :: d0 =>
             match dget k d' with Some v' => val_eqb v v' | None => false end && go d0
         end) d
  | _, _ =>
      match num_of a, num_of b with
      | Some x, Some y => num_eqb x y
      | _, _ => false
      end
  end.

Inductive cmp_op : Type := OpLt | OpLe | OpGt | OpGe.

Definition num_cmp (op : cmp_op) (a b : pyfloat) : bool :=
  match op with
  | OpLt => num_ltb a b
  | OpLe => num_ltb a b || num_eqb a b
  | OpGt => num_ltb b a
  | OpGe => num_ltb b a || num_eqb a b
  end.

Definition comparison_op (op : cmp_op) (c : comparison) : bool :=
  match op, c with
  | OpLt, Lt | OpLe, Lt | OpLe, Eq | OpGt, Gt | OpGe, Gt | OpGe, Eq => true
  | _, _ => false
  end.

(** [a < b], [a <= b], [a > b], [a >= b]; [None] is a [TypeError]. *)
Fixpoint val_cmp (op : cmp_op) (a b : val) {struct a} : option bool :=
  match a, b with
  | VStr s, VStr t => Some (comparison_op op (Stdlib.Strings.String.compare s t))
  | VList l, VList l' =>
      (fix go (l l' : list val) : option bool :=
         match l, l' with
         | [], [] => Some (comparison_op op Eq)
         | [], _ => Some (comparison_op op Lt)
         | _, [] => Some (comparison_op op Gt)
         | x :: l, y :: l' => if val_eqb x y then go l l' else val_cmp op x y
         end) l l'
  | _, _ =>
      match num_of a, num_of b with
      | Some x, Some y => Some (num_cmp op x y)
      | _, _ => None
      end
  end.

(** [x in l] for a list [l]. *)
Definition val_in (x : val) (l : list val) : bool := existsb (fun y => val_eqb y x) l.

Definition is_str (v : val) : bool := match v with VStr _ => true | _ => false end.
Definition is_num_or_str (v : val) : bool :=
  match v with VStr _ | VInt _ | VFloat _ | VBool _ => true | _ => false end.

(** [type(a) is type(b)] *)
Definition same_type (a b : val) : bool :=
  match a, b with
  | VNone, VNone | VBool _, VBool _ | VInt _, VInt _ | VFloat _, VFloat _
  | VStr _, VStr _ | VList _, VList _ | VDict _, VDict _ => true
  | _, _ => false
  end.

(** ** [float(str)] *)
Definition digit_of (c : ascii) : option Z :=
  let n := Stdlib.Strings.Ascii.nat_of_ascii c in
  if (48 <=? n) && (n <=? 57) then Some (Z.of_nat n - 48)%Z else None.

(** A run of digits, single underscores allowed between two digits: the number
    read, how many digits it has and the rest. *)
Fixpoint digits_go (l : text) (acc : Z) (n : nat) : Z * nat * text :=
  match l with
  | c :: l' =>
      match digit_of c with
      | Some d => digits_go l' (acc * 10 + d)%Z (S n)
      | None =>
          if bool_decide (c = "_"%char) && (0 <? n) then
            match l' with
            | c' :: l'' => match digit_of c' with
                           | Some d => digits_go l'' (acc * 10 + d)%Z (S n)
                           | None => (acc, n, l)
                           end
            | [] => (acc, n, l)
            end
          else (acc, n, l)
      end
  | [] => (acc, n, l)
  end.

Definition pow10 (e : Z) : Q :=
  if (0 <=? e)%Z then inject_Z (10 ^ e) else (/ inject_Z (10 ^ (- e)))%Q.

Definition sign_split (l : text) : bool * text :=
  match l with
  | c :: l' => if bool_decide (c = "-"%char) then (true, l')
               else if bool_decide (c = "+"%char) then (false, l') else (false, l)
  | [] => (false, l)
  end.

(** The unsigned part: [inf], [infinity], [nan] or a decimal literal. *)
Definition parse_unsigned (l : text) : option pyfloat :=
  let w := of_chars (map lower_char l) in
  if bool_decide (w = "inf") || bool_decide (w = "infinity") then Some (Inf false)
  else if bool_decide (w = "nan") then Some NaN
  else
    let '(i, ni, r) := digits_go l 0 0 in
    let '(m, nf, r) :=
      match r with
      | c :: r' => if bool_decide (c = "."%char)
                   then let '(f, nf, r'') := digits_go r' 0 0 in
                        ((i * 10 ^ Z.of_nat nf + f)%Z, nf, r'')
                   else (i, 0, r)
      | [] => (i, 0, r)
      end in
    if (ni + nf =? 0) then None
    else match r with
         | [] => Some (round64 (inject_Z m * pow10 (- Z.of_nat nf)))
         | c :: r' =>
             if bool_decide (lower_char c = "e"%char) then
               let '(sg, r'') := sign_split r' in
               let '(e, ne, rest) := digits_go r'' 0 0 in
               match ne, rest with
               | S _, [] => Some (round64 (inject_Z m *
                              pow10 ((if sg then - e else e) - Z.of_nat nf)))
               | _, _ => None
               end
             else None
         end.

Definition parse_float (s : string) : option pyfloat :=
  let '(sg, l) := sign_split (strip_chars (chars s)) in
  if sg then neg_float <$> parse_unsigned l else parse_unsigned l.

(** [float(v)] *)
Definition to_float (v : val) : result exn pyfloat :=
  match v with
  | VBool b => Ok (Fin (if b then 1 else 0))
  | VInt z => match round64 (inject_Z z) with
              | Fin q => Ok (Fin q)
              | _ => Err OverflowError
              end
  | VFloat f => Ok f
  | VStr s => match parse_float s with Some f => Ok f | None => Err ValueError end
  | _ => Err TypeError
  end.

(** [int(s)] of a string: an optional sign and digits, surrounding blanks ignored. *)
Definition int_text (s : string) : option Z :=
  let '(sg, l) := sign_split (strip_chars (chars s)) in
  match digits_go l 0 0 with
  | (z, S _, []) => Some (if sg then - z else z)%Z
  | _ => None
  end.

(** [str(z)] *)
Fixpoint digits_of_nat (fuel : nat) (n : N) (acc : text) : text :=
  match fuel with
  | 0 => acc
  | S fuel' =>
      let acc' := Stdlib.Strings.Ascii.ascii_of_N (48 + n mod 10)%N :: acc in
      if (n <? 10)%N then acc' else digits_of_nat fuel' (n / 10)%N acc'
  end.
Definition str_of_N (n : N) : string := of_chars (digits_of_nat (S (N.to_nat (N.log2 n))) n []).
Definition str_of_Z (z : Z) : string :=
  match z with Zneg p => "-" +:+ str_of_N (Npos p) | _ => str_of_N (Z.to_N z) end.

Example float_int : to_float (VStr " 1_0.50e1 ") = Ok (Fin 105).
Proof. vm_compute. reflexivity. Qed.
Example float_bad : to_float (VStr "1.") = Ok (Fin 1) /\ to_float (VStr "1__0") = Err ValueError.
Proof. vm_compute. done. Qed.
Example str_int : str_of_Z (-1205) = "-1205" /\ str_of_Z 0 = "0".
Proof. vm_compute. done. Qed.

(** [a + b] on floats. *)
Definition fadd (a b : pyfloat) : pyfloat :=
  match a, b with
  | Fin p, Fin q => round64 (Qplus p q)
  | NaN, _ | _, NaN => NaN
  | Inf s, Inf t => if Bool.eqb s t then Inf s else NaN
  | Inf s, Fin _ => Inf s
  | Fin _, Inf t => Inf t
  end.
Definition fzero : pyfloat := Fin (0 # 1).

(** Rounding stays within integer bounds. *)
Lemma div_half_even_le n d k : (0 < d -> n <= k * d -> div_half_even n d <= k)%Z.
Proof.
  intros Hd Hn. unfold div_half_even. pose proof (Z.div_mod n d). pose proof (Z.mod_pos_bound n d Hd).
  assert (n / d <= k)%Z by nia. destruct (Z.eq_dec (n / d) k).
  - assert (n mod d = 0)%Z by nia. repeat case_match; lia.
  - repeat case_match; lia.
Qed.

Lemma div_half_even_ge n d k : (0 < d -> k * d <= n -> k <= div_half_even n d)%Z.
Proof.
  intros Hd Hn. unfold div_half_even. pose proof (Z.div_mod n d). pose proof (Z.mod_pos_bound n d Hd).
  assert (k <= n / d)%Z by nia. repeat case_match; lia.
Qed.

Lemma py_round_le j q k : (q <= inject_Z k)%Q -> (py_round j q <= inject_Z k)%Q.
Proof.
  unfold py_round, Qle, inject_Z. simpl. rewrite !Z.mul_1_r. intros H.
  assert (0 < 10 ^ Z.of_nat j)%Z by (apply Z.pow_pos_nonneg; lia).
  rewrite Z2Pos.id by done. apply div_half_even_le; [lia|]. nia.
Qed.

Lemma py_round_ge j q k : (inject_Z k <= q)%Q -> (inject_Z k <= py_round j q)%Q.
Proof.
  unfold py_round, Qle, inject_Z. simpl. rewrite !Z.mul_1_r. intros H.
  assert (0 < 10 ^ Z.of_nat j)%Z by (apply Z.pow_pos_nonneg; lia).
  rewrite Z2Pos.id by done. apply div_half_even_ge; [lia|]. nia.
Qed.

(** A percentage of a part in a whole, rounded, is between 0 and 100. *)
Lemma percentage_bounds j a b : (0 <= a)%Q -> (a <= b)%Q -> (0 < b)%Q ->
  (0 <= py_round j (Qmult (Qdiv a b) (Qmake 100 1)) <= Qmake 100 1)%Q.
Proof.
  intros Ha Hab Hb.
  assert (0 <= a / b)%Q by (apply Qle_shift_div_l; lra).
  assert (a / b <= 1)%Q by (apply Qle_shift_div_r; lra).
  split; [apply (py_round_ge j _ 0)|apply (py_round_le j _ 100)]; change (inject_Z 0) with 0%Q;
    change (inject_Z 100) with (Qmake 100 1); lra.
Qed.
