(* ===== verification/Pagination.v ===== *)
(** * Pagination (src/voiceai/common/pagination.py)

    Validated page requests, pages with their counters, and the arithmetic that
    shows the windows of consecutive pages tile a listing. [math.ceil] of a float
    quotient is taken on the exact quotient. *)
From S2P Require Import Prelude PyVal.
Open Scope Z_scope.

Definition MIN_PAGE : Z := 1.
Definition DEFAULT_PAGE : Z := 1.
Definition MIN_PAGE_SIZE : Z := 1.
Definition DEFAULT_PAGE_SIZE : Z := 20.
Definition MAX_PAGE_SIZE : Z := 100.

Record PaginationParams := mkPaginationParams { pp_page : Z; pp_page_size : Z }.

(** The constructor with its field validators; [None] is the validation error. *)
Definition pagination_params (page page_size : Z) : option PaginationParams :=
  if (MIN_PAGE <=? page) && (MIN_PAGE_SIZE <=? page_size) && (page_size <=? MAX_PAGE_SIZE)
  then Some (mkPaginationParams page page_size) else None.

Definition params_valid (p : PaginationParams) : Prop :=
  MIN_PAGE <= pp_page p /\ MIN_PAGE_SIZE <= pp_page_size p <= MAX_PAGE_SIZE.

Definition skip (p : PaginationParams) : Z := (pp_page p - MIN_PAGE) * pp_page_size p.
Definition limit (p : PaginationParams) : Z := pp_page_size p.

Record Page (A : Type) := mkPage
  { pg_items : list A; pg_total : Z; pg_page : Z; pg_page_size : Z }.
Arguments mkPage {A}. Arguments pg_items {A}. Arguments pg_total {A}.
Arguments pg_page {A}. Arguments pg_page_size {A}.

Definition pages {A} (p : Page A) : Z :=
  if pg_page_size p <=? 0 then 0 else ceil_div (pg_total p) (pg_page_size p).
Definition has_next {A} (p : Page A) : bool := pg_page p <? pages p.

Definition paginate {A} (items : list A) (total : Z) (params : PaginationParams) : Page A :=
  mkPage items total (pp_page params) (pp_page_size params).

(** [l[a:b]] for [0 <= a <= b]. *)
Definition slice {A} (a b : Z) (l : list A) : list A :=
  take (Z.to_nat b - Z.to_nat a) (drop (Z.to_nat a) l).

(** The page of a listing a backend cuts: the window and the exact total. *)
Definition cut_page {A} (l : list A) (p : PaginationParams) : Page A :=
  paginate (slice (skip p) (skip p + limit p) l) (Z.of_nat (length l)) p.

Lemma pagination_params_valid page size p :
  pagination_params page size = Some p -> params_valid p /\ pp_page p = page /\ pp_page_size p = size.
Proof.
  unfold pagination_params, params_valid. destruct (_ && _) eqn:E; [|done].
  intros [= <-]. simpl. apply andb_true_iff in E as [[??]%andb_true_iff ?]. lia.
Qed.

Lemma ceil_div_spec a b k : 0 < b -> ceil_div a b <= k <-> a <= k * b.
Proof. intros Hb. unfold ceil_div. pose proof (Z.div_mod (- a) b). pose proof (Z.mod_pos_bound (- a) b). nia. Qed.

Lemma cut_page_has_next {A} (l : list A) p :
  params_valid p ->
  has_next (cut_page l p) = true <-> pp_page p * pp_page_size p < Z.of_nat (length l).
Proof.
  intros [? [Hs ?]]. unfold has_next, pages, cut_page, paginate; simpl.
  unfold MIN_PAGE_SIZE in *. destruct (Z.leb_spec (pp_page_size p) 0); [lia|].
  rewrite Z.ltb_lt. pose proof (ceil_div_spec (Z.of_nat (length l)) (pp_page_size p) (pp_page p)).
  lia.
Qed.

Lemma slice_sublist {A} a b (l : list A) : sublist (slice a b l) l.
Proof. unfold slice. etrans; [apply sublist_take|apply sublist_drop]. Qed.

Lemma length_slice_le {A} a b (l : list A) :
  0 <= a <= b -> Z.of_nat (length (slice a b l)) <= b - a.
Proof. unfold slice. rewrite length_take. lia. Qed.

Lemma slice_nil_inv {A} a b (l : list A) :
  0 <= a < b -> slice a b l = [] -> Z.of_nat (length l) <= a.
Proof.
  intros Hab H. apply (f_equal length) in H. unfold slice in H.
  rewrite length_take, length_drop in H. simpl in H. lia.
Qed.

(** Consecutive windows tile the listing. *)
Lemma slice_drop {A} a b (l : list A) :
  0 <= a <= b -> slice a b l ++ drop (Z.to_nat b) l = drop (Z.to_nat a) l.
Proof.
  intros Hab. unfold slice. rewrite <- (take_drop (Z.to_nat b - Z.to_nat a) (drop (Z.to_nat a) l)) at 2.
  f_equal. rewrite drop_drop. f_equal. lia.
Qed.

(** ** Walking every page

    [walk_pages] of database/repository.py over any page source: it stops at the
    first page that is empty or reports no next page. *)
Section walk.
Context {A : Type} (list_where : PaginationParams -> Page A).

Fixpoint walk_from (fuel : nat) (page_number : Z) : option (list A) :=
  match fuel with
  | 0%nat => None
  | S fuel' =>
      let page := list_where (mkPaginationParams page_number MAX_PAGE_SIZE) in
      if match pg_items page with [] => true | _ => false end || negb (has_next page)
      then Some (pg_items page)
      else app (pg_items page) <$> walk_from fuel' (page_number + 1)
  end.

Context (l : list A) (Hcut : forall p, params_valid p -> list_where p = cut_page l p).

Lemma walk_from_spec fuel page_number :
  MIN_PAGE <= page_number ->
  Z.of_nat (length l) <= (page_number - 1 + Z.of_nat fuel) * MAX_PAGE_SIZE ->
  (0 < fuel)%nat ->
  walk_from fuel page_number = Some (drop (Z.to_nat ((page_number - 1) * MAX_PAGE_SIZE)) l).
Proof.
  unfold MIN_PAGE. revert page_number.
  induction fuel as [|fuel IH]; intros n Hn Hlen Hf; [lia|]. simpl.
  set (p := mkPaginationParams n MAX_PAGE_SIZE).
  assert (params_valid p) as Hp by (unfold params_valid, p, MIN_PAGE, MIN_PAGE_SIZE, MAX_PAGE_SIZE; simpl; lia).
  rewrite (Hcut p Hp). pose proof (cut_page_has_next l p Hp) as Hnext.
  pose proof (slice_drop (skip p) (skip p + limit p) l) as Htile.
  assert (skip p = (n - 1) * MAX_PAGE_SIZE) as Hskip by done.
  assert (limit p = MAX_PAGE_SIZE) as Hlim by done. unfold MAX_PAGE_SIZE in *.
  specialize (Htile ltac:(lia)). rewrite <- Hskip, <- Htile.
  destruct (has_next (cut_page l p)) eqn:E.
  - assert (n * 100 < Z.of_nat (length l)) as Hlt by (by apply Hnext).
    replace (match pg_items (cut_page l p) with [] => true | _ :: _ => false end) with false.
    + simpl. rewrite IH by lia. simpl. f_equal. f_equal. f_equal. unfold skip, limit; simpl. unfold MIN_PAGE. lia.
    + destruct (pg_items (cut_page l p)) eqn:Ei; [|done]. simpl in Ei.
      apply slice_nil_inv in Ei; lia.
  - rewrite orb_true_r. simpl. rewrite (drop_ge l (Z.to_nat _)), app_nil_r; [done|].
    assert (~ n * 100 < Z.of_nat (length l)) by (intros Hc; apply Hnext in Hc; congruence). lia.
Qed.
End walk.
