(* ===== verification/Repository.v ===== *)
(** * The repository contract and the in-memory backend
    (src/voiceai/database/base.py, src/voiceai/database/repository.py)

    [Model] is what [BaseFields] promises of a document type, [Repository] the
    [BaseRepository] protocol, [RepositoryLaws] what its docstrings promise.
    [InMemory] is the in-memory implementation, proved to satisfy the laws.
    [utc_now()] and [uuid4().hex] are arguments of the operations that call them;
    a [datetime] is a number of microseconds. *)
From S2P Require Import Prelude PyText PyVal Pagination.
Open Scope Z_scope.

Record BaseFields := mkBaseFields {
  bf_id : option string; bf_tenant_id : option string;
  created_at : Z; updated_at : Z;
  created_by : option string; updated_by : option string;
  is_active : bool; bf_meta : list (string * val) }.

Definition base_default (now : Z) (id : option string) : BaseFields :=
  mkBaseFields id None now now None None true [].

Definition set_id (i : option string) (b : BaseFields) : BaseFields :=
  mkBaseFields i (bf_tenant_id b) (created_at b) (updated_at b) (created_by b) (updated_by b) (is_active b) (bf_meta b).
Definition set_tenant (t : option string) (b : BaseFields) : BaseFields :=
  mkBaseFields (bf_id b) t (created_at b) (updated_at b) (created_by b) (updated_by b) (is_active b) (bf_meta b).
Definition set_inactive (b : BaseFields) : BaseFields :=
  mkBaseFields (bf_id b) (bf_tenant_id b) (created_at b) (updated_at b) (created_by b) (updated_by b) false (bf_meta b).

(** [BaseFields.touch] *)
Definition touch (now : Z) (user_id : option string) (b : BaseFields) : BaseFields :=
  mkBaseFields (bf_id b) (bf_tenant_id b) (created_at b) now (created_by b)
    (match user_id with Some u => Some u | None => updated_by b end) (is_active b) (bf_meta b).

Class Model (M : Type) := {
  base_of : M -> BaseFields;
  set_base : BaseFields -> M -> M;
  own_field : M -> string -> option val;
  base_of_set : forall b m, base_of (set_base b m) = b;
  set_base_of : forall m, set_base (base_of m) m = m;
  set_base_set : forall b b' m, set_base b (set_base b' m) = set_base b m;
  own_field_set : forall b m f, own_field (set_base b m) f = own_field m f;
  own_field_not_base : forall m f,
    f ∈ ["id"; "tenant_id"; "created_at"; "updated_at"; "created_by"; "updated_by"; "is_active"; "meta"] ->
    own_field m f = None
}.

Definition opt_str (o : option string) : val := match o with Some s => VStr s | None => VNone end.
(** [bool(o)] for an optional string. *)
Definition opt_truthy (o : option string) : bool := match o with Some s => str_true s | None => false end.

Inductive db_error : Type :=
| NotFoundError (item_id : option string)
| TenantNotBoundError
| ValidationError.

Section model.
Context {M : Type} `{Model M}.

Definition m_id (m : M) : option string := bf_id (base_of m).
Definition m_tenant (m : M) : option string := bf_tenant_id (base_of m).
Definition m_active (m : M) : bool := is_active (base_of m).
Definition upd_base (f : BaseFields -> BaseFields) (m : M) : M := set_base (f (base_of m)) m.

(** [getattr(model, field, None)] *)
Definition getattr (m : M) (field : string) : val :=
  let b := base_of m in
  if decide (field = "id") then opt_str (bf_id b)
  else if decide (field = "tenant_id") then opt_str (bf_tenant_id b)
  else if decide (field = "created_at") then VInt (created_at b)
  else if decide (field = "updated_at") then VInt (updated_at b)
  else if decide (field = "created_by") then opt_str (created_by b)
  else if decide (field = "updated_by") then opt_str (updated_by b)
  else if decide (field = "is_active") then VBool (is_active b)
  else if decide (field = "meta") then VDict (bf_meta b)
  else match own_field m field with Some v => v | None => VNone end.

(** [_matches] *)
Definition matches (m : M) (filters : list (string * val)) : bool :=
  forallb (fun fv => val_eqb (getattr m fv.1) fv.2) filters.

(** [_bounded] *)
Definition bounded (limit : Z) : Z := Z.max 0 (Z.min limit MAX_PAGE_SIZE).

Lemma m_id_upd f m : m_id (upd_base f m) = bf_id (f (base_of m)).
Proof. unfold m_id, upd_base. by rewrite base_of_set. Qed.
Lemma m_tenant_upd f m : m_tenant (upd_base f m) = bf_tenant_id (f (base_of m)).
Proof. unfold m_tenant, upd_base. by rewrite base_of_set. Qed.
Lemma m_active_upd f m : m_active (upd_base f m) = is_active (f (base_of m)).
Proof. unfold m_active, upd_base. by rewrite base_of_set. Qed.

Lemma matches_tenant m t : matches m [("tenant_id", VStr t)] = true <-> m_tenant m = Some t.
Proof.
  unfold matches, getattr, m_tenant; simpl. rewrite andb_true_r.
  destruct (bf_tenant_id (base_of m)) as [s|]; simpl; [|done].
  rewrite bool_decide_eq_true. split; congruence.
Qed.
End model.
#[export] Hint Rewrite @m_id_upd @m_tenant_upd @m_active_upd : voice.

(** ** The protocol *)
Class Repository (M S : Type) := {
  rp_insert : string -> M -> S -> S * M;
  rp_get : string -> S -> result db_error (option M);
  rp_list_where : list (string * val) -> PaginationParams -> S -> Page M;
  rp_update : Z -> M -> S -> S * result db_error M;
  rp_soft_delete : Z -> option string -> string -> S -> S * result db_error bool;
  rp_find_one : string -> val -> S -> option M;
  rp_find_many : string -> val -> Z -> S -> list M
}.

(** [walk_pages] with enough pages for every listing of at most [fuel] pages. *)
Definition walk_pages {M S} `{Repository M S} (fuel : nat) (filters : list (string * val)) (s : S) :
  option (list M) := walk_from (fun p => rp_list_where filters p s) fuel MIN_PAGE.

(** What the protocol's docstrings promise: reads answer from one listing of the
    active documents, writes touch one id. [rp_view] is that listing, [rp_inv] the
    backend's own consistency. *)
Class RepositoryLaws (M S : Type) `{Model M, Repository M S} := {
  rp_inv : S -> Prop;
  rp_view : S -> list M;
  rp_view_active : forall s m, rp_inv s -> m ∈ rp_view s -> m_active m = true;
  rp_get_spec : forall s i o, rp_inv s -> rp_get i s = Ok o ->
    forall m, o = Some m <-> m ∈ rp_view s /\ m_id m = Some i;
  rp_list_spec : forall s f p, rp_inv s ->
    rp_list_where f p s = cut_page (List.filter (fun m => matches m f) (rp_view s)) p;
  rp_find_one_spec : forall s f v, rp_inv s ->
    rp_find_one f v s = head (List.filter (fun m => matches m [(f, v)]) (rp_view s));
  rp_find_many_spec : forall s f v n, rp_inv s ->
    rp_find_many f v n s = take (Z.to_nat (bounded n)) (List.filter (fun m => matches m [(f, v)]) (rp_view s));
  rp_insert_inv : forall u m s, rp_inv s -> u <> "" -> rp_inv (rp_insert u m s).1;
  rp_insert_stored : forall u m s, rp_inv s ->
    (rp_insert u m s).2 = upd_base (set_id (if opt_truthy (m_id m) then m_id m else Some u)) m;
  rp_insert_view : forall u m s m', rp_inv s -> u <> "" ->
    m' ∈ rp_view (rp_insert u m s).1 <->
    (m' = (rp_insert u m s).2 /\ m_active m = true) \/
    (m' ∈ rp_view s /\ m_id m' <> m_id (rp_insert u m s).2);
  rp_update_inv : forall now m s, rp_inv s -> rp_inv (rp_update now m s).1;
  rp_update_err : forall now m s e, rp_inv s -> (rp_update now m s).2 = Err e -> (rp_update now m s).1 = s;
  rp_update_view : forall now m s m' r, rp_inv s -> (rp_update now m s).2 = Ok r ->
    m' ∈ rp_view (rp_update now m s).1 <->
    (m' = r /\ m_active m = true) \/ (m' ∈ rp_view s /\ m_id m' <> m_id m);
  rp_update_result : forall now m s r, rp_inv s -> (rp_update now m s).2 = Ok r ->
    r = upd_base (touch now None) m;
  rp_update_id : forall now m s r, rp_inv s -> (rp_update now m s).2 = Ok r -> opt_truthy (m_id m) = true;
  rp_soft_delete_inv : forall now u i s, rp_inv s -> rp_inv (rp_soft_delete now u i s).1;
  rp_soft_delete_view : forall now u i s m', rp_inv s ->
    m' ∈ rp_view (rp_soft_delete now u i s).1 <-> m' ∈ rp_view s /\ m_id m' <> Some i;
  rp_view_ids : forall s, rp_inv s -> NoDup (map m_id (rp_view s));
  rp_get_hit : forall i s m, rp_inv s -> m ∈ rp_view s -> m_id m = Some i -> rp_get i s = Ok (Some m);
  rp_soft_delete_hit : forall now u i s m, rp_inv s -> m ∈ rp_view s -> m_id m = Some i ->
    (rp_soft_delete now u i s).2 = Ok true;
  rp_soft_delete_miss : forall now u i s e, rp_inv s -> (rp_soft_delete now u i s).2 = Err e ->
    (rp_soft_delete now u i s).1 = s
}.

Section lawful.
Context {M S : Type} `{RepositoryLaws M S}.

Lemma rp_view_inj s m m' : rp_inv s -> m ∈ rp_view s -> m' ∈ rp_view s -> m_id m = m_id m' -> m = m'.
Proof. intros Hs. apply (NoDup_map_inj m_id), rp_view_ids, Hs. Qed.

(** A listing whose ids are among those of [l] is no longer than [l]. *)
Lemma rp_view_length s (p : M -> bool) (l : list (option string)) : rp_inv s ->
  (forall m, m ∈ rp_view s -> p m = true -> m_id m ∈ l) -> (length (List.filter p (rp_view s)) <= length l)%nat.
Proof.
  intros Hs Hl. rewrite <- (length_map m_id). apply submseteq_length, NoDup_submseteq.
  - apply lfilter_NoDup, rp_view_ids, Hs.
  - intros i (m & -> & [Hm Hp]%elem_of_lfilter)%list_elem_of_fmap. by apply Hl.
Qed.
End lawful.

(** ** The in-memory backend *)
Module InMemory.
(** A stored row: one that validates as the model type, or one that does not
    (a legacy shape) with its stored active flag. *)
Inductive row (M : Type) : Type :=
| Row (m : M)
| BadRow (active : bool).
Arguments Row {M}. Arguments BadRow {M}.

Section inmemory.
Context {M : Type} `{Model M}.
Implicit Types (m : M) (docs : list (string * row M)).

Definition active_row (r : row M) : option M :=
  match r with
  | Row m => if m_active m then Some m else None
  | BadRow _ => None
  end.

(** [_active_models] *)
Definition active_models (docs : list (string * row M)) : list M :=
  omap active_row (dvalues docs).

Definition insert (uuid : string) (m : M) (docs : list (string * row M)) : list (string * row M) * M :=
  let stored := if opt_truthy (m_id m) then m else upd_base (set_id (Some uuid)) m in
  let key := match m_id stored with Some i => i | None => "" end in
  (dset key (Row stored) docs, stored).

Definition get (item_id : string) (docs : list (string * row M)) : result db_error (option M) :=
  match dget item_id docs with
  | None => Ok None
  | Some (BadRow _) => Err ValidationError
  | Some (Row m) => Ok (if m_active m then Some m else None)
  end.

Definition list_where (filters : list (string * val)) (params : PaginationParams)
    (docs : list (string * row M)) : Page M :=
  let matched := List.filter (fun m => matches m filters) (active_models docs) in
  let window := slice (skip params) (skip params + limit params) matched in
  paginate window (Z.of_nat (length matched)) params.

Definition update (now : Z) (m : M) (docs : list (string * row M)) : list (string * row M) * result db_error M :=
  let not_found := (docs, Err (NotFoundError (m_id m))) in
  match m_id m with
  | None => not_found
  | Some item_id =>
      if negb (str_true item_id) then not_found
      else match dget item_id docs with
           | None => not_found
           | Some (BadRow _) => (docs, Err ValidationError)
           | Some (Row old) =>
               if negb (m_active old) then not_found
               else let stored := upd_base (touch now None) m in
                    (dset item_id (Row stored) docs, Ok stored)
           end
  end.

Definition soft_delete (now : Z) (user_id : option string) (item_id : string) (docs : list (string * row M)) :
    list (string * row M) * result db_error bool :=
  match dget item_id docs with
  | None => (docs, Ok false)
  | Some (BadRow _) => (docs, Err ValidationError)
  | Some (Row m) =>
      if negb (m_active m) then (docs, Ok false)
      else (dset item_id (Row (upd_base (fun b => touch now user_id (set_inactive b)) m)) docs, Ok true)
  end.

Definition find_one (field : string) (value : val) (docs : list (string * row M)) : option M :=
  List.find (fun m => matches m [(field, value)]) (active_models docs).

Definition find_many (field : string) (value : val) (lim : Z) (docs : list (string * row M)) : list M :=
  let matched := List.filter (fun m => matches m [(field, value)]) (active_models docs) in
  take (Z.to_nat (bounded lim)) matched.

(** [raw_documents]: the stored rows whose active flag is not false. *)
Definition raw_documents (docs : list (string * row M)) : list (row M) :=
  List.filter (fun r => match r with Row m => m_active m | BadRow a => a end) (dvalues docs).

#[export] Instance repository : Repository M (list (string * row M)) := {|
  rp_insert := insert; rp_get := get; rp_list_where := list_where; rp_update := update;
  rp_soft_delete := soft_delete; rp_find_one := find_one; rp_find_many := find_many |}.

#[local] Arguments insert : simpl never.
#[local] Arguments update : simpl never.
#[local] Arguments soft_delete : simpl never.

(** *** The backend's consistency and the laws *)
Definition store_ok (docs : list (string * row M)) : Prop :=
  dwf docs /\ forall k m, dget k docs = Some (Row m) -> m_id m = Some k.

Lemma active_models_elem docs m :
  store_ok docs ->
  m ∈ active_models docs <-> exists k, dget k docs = Some (Row m) /\ m_active m = true.
Proof.
  intros [Hwf Hid]. unfold active_models, dvalues. rewrite list_elem_of_omap. split.
  - intros (r & Hr & Ha). apply list_elem_of_fmap in Hr as ([k r'] & -> & Hin).
    destruct r' as [m'|b]; simpl in Ha; [|done]. destruct (m_active m') eqn:E; simplify_eq.
    exists k. split; [by apply elem_dget|done].
  - intros (k & Hk & Ha). exists (Row m). split.
    + apply (list_elem_of_fmap_2 snd _ (k, Row m)). by apply dget_Some_elem.
    + simpl. by rewrite Ha.
Qed.

(** Ids are unique in the listing. *)
Lemma active_models_ids docs : store_ok docs -> NoDup (map m_id (active_models docs)).
Proof.
  intros [Hwf Hid]. unfold active_models, dvalues, dwf, dkeys in *.
  assert (forall k m, (k, Row m) ∈ docs -> m_id m = Some k) as Hrow
    by (intros k m Hin; by apply Hid, elem_dget).
  clear Hid. induction docs as [|[k r] d IH]; [constructor|]. cbn [map fst] in Hwf. apply NoDup_cons in Hwf as [Hni Hwf].
  assert (NoDup (map m_id (omap active_row (map snd d)))) as Hd by (apply IH; [done|]; intros; apply Hrow; by right).
  cbn [map snd omap list_omap]. destruct r as [m|b]; simpl; [|done]. destruct (m_active m); [|done].
  simpl. apply NoDup_cons. split; [|done]. intros (m' & Em & Hm')%list_elem_of_fmap.
  apply list_elem_of_omap in Hm' as (r & Hr & Ha). apply list_elem_of_fmap in Hr as ([k' r'] & -> & Hin).
  destruct r' as [m1|]; simpl in Ha; [|done]. destruct (m_active m1); simplify_eq.
  apply Hni. apply list_elem_of_fmap. exists (k', Row m'). split; [|done]. simpl.
  rewrite (Hrow k m) in Em by (by left). rewrite (Hrow k' m') in Em by (by right). congruence.
Qed.

Lemma active_row_stored docs m i :
  store_ok docs -> m ∈ active_models docs -> m_id m = Some i -> dget i docs = Some (Row m) /\ m_active m = true.
Proof. intros Hs (k & Hk & Ha)%active_models_elem Hm; [|done]. destruct Hs as [_ Hid]. rewrite (Hid _ _ Hk) in Hm. by simplify_eq. Qed.

Lemma store_ok_dset k m docs :
  store_ok docs -> m_id m = Some k -> store_ok (dset k (Row m) docs).
Proof.
  intros [Hwf Hid] Hm. split; [by apply dset_wf|]. intros k' m'. rewrite dget_dset.
  case_decide; intros; simplify_eq; [done|]. by apply Hid.
Qed.

Lemma active_models_dset k m docs m' :
  store_ok docs -> m_id m = Some k ->
  m' ∈ active_models (dset k (Row m) docs) <->
  (m' = m /\ m_active m = true) \/ (m' ∈ active_models docs /\ m_id m' <> Some k).
Proof.
  intros Hs Hm. pose proof Hs as [_ Hid].
  rewrite !active_models_elem by (try apply store_ok_dset; done). split.
  - intros (k' & Hk' & Ha). rewrite dget_dset in Hk'. case_decide; simplify_eq; [by left|].
    right. split; [by exists k'|]. rewrite (Hid _ _ Hk'). congruence.
  - intros [[-> Ha]|[(k' & Hk' & Ha) Hne]]; [exists k|exists k'];
      rewrite dget_dset; (split; [|done]); [by rewrite decide_True|].
    rewrite decide_False; [done|]. intros ->. apply Hne. by apply Hid.
Qed.

Lemma insert_key uuid m :
  (if opt_truthy (m_id m) then m else upd_base (set_id (Some uuid)) m) =
  upd_base (set_id (if opt_truthy (m_id m) then m_id m else Some uuid)) m.
Proof.
  destruct (opt_truthy (m_id m)) eqn:E; [|done]. unfold upd_base, m_id.
  rewrite <- (set_base_of m) at 1. f_equal. by destruct (base_of m).
Qed.

Lemma insert_id uuid m docs :
  exists k, m_id (insert uuid m docs).2 = Some k /\
            (insert uuid m docs).1 = dset k (Row (insert uuid m docs).2) docs.
Proof.
  unfold insert; simpl. destruct (opt_truthy (m_id m)) eqn:E; simpl.
  - destruct (m_id m) as [i|] eqn:Ei; [|done]. by exists i.
  - rewrite m_id_upd. simpl. by exists uuid.
Qed.

Lemma insert_active uuid m docs : m_active (insert uuid m docs).2 = m_active m.
Proof. unfold insert; simpl. destruct (opt_truthy _); [done|]. by rewrite m_active_upd. Qed.

Lemma find_head_filter (p : M -> bool) (l : list M) : List.find p l = head (List.filter p l).
Proof. induction l as [|x l IH]; simpl; [done|]. by destruct (p x). Qed.

Lemma update_cases now m docs :
  store_ok docs ->
  (exists e, update now m docs = (docs, Err e)) \/
  (exists i, m_id m = Some i /\ str_true i = true /\
     update now m docs = (dset i (Row (upd_base (touch now None) m)) docs, Ok (upd_base (touch now None) m))).
Proof.
  intros _. unfold update. destruct (m_id m) as [i|] eqn:Ei; [|by left; eexists].
  destruct (str_true i) eqn:Et; simpl; [|by left; eexists].
  destruct (dget i docs) as [[old|b]|] eqn:Eg; [|by left; eexists..].
  destruct (negb (m_active old)); [by left; eexists|]. right. by exists i.
Qed.

Lemma soft_delete_cases now u i docs :
  store_ok docs ->
  (exists r, soft_delete now u i docs = (docs, r) /\ forall m, m ∈ active_models docs -> m_id m <> Some i) \/
  (exists m, m_id m = Some i /\ m_active m = false /\ (soft_delete now u i docs).1 = dset i (Row m) docs).
Proof.
  intros Hs. pose proof Hs as [_ Hid]. unfold soft_delete.
  pose proof (fun m => active_row_stored docs m i Hs) as Hact.
  destruct (dget i docs) as [[old|b]|] eqn:Eg.
  - destruct (m_active old) eqn:Ea; simpl.
    + right. exists (upd_base (fun b => touch now u (set_inactive b)) old).
      rewrite m_active_upd, m_id_upd. split_and!; [by apply Hid|done..].
    + left. eexists. split; [done|]. intros m Hm Hi. destruct (Hact m Hm Hi). congruence.
  - left. eexists. split; [done|]. intros m Hm Hi. destruct (Hact m Hm Hi). congruence.
  - left. eexists. split; [done|]. intros m Hm Hi. destruct (Hact m Hm Hi). congruence.
Qed.

#[export] Instance laws : RepositoryLaws M (list (string * row M)).
Proof.
  refine {| rp_inv := store_ok; rp_view := active_models |};
    cbn [rp_insert rp_get rp_list_where rp_update rp_soft_delete rp_find_one rp_find_many repository].
  - intros s m Hs (k & _ & Ha)%active_models_elem; done.
  - intros s i o Hs Hg m. unfold get in Hg. pose proof Hs as [_ Hid]. rewrite active_models_elem by done.
    split.
    + intros ->. destruct (dget i s) as [[m'|]|] eqn:E; simplify_eq.
      destruct (m_active m') eqn:Ea; simplify_eq. split; [by exists i|by apply Hid].
    + intros [(k & Hk & Ha) Hi]. rewrite (Hid _ _ Hk) in Hi. simplify_eq.
      rewrite Hk, Ha in Hg. by simplify_eq.
  - done.
  - intros. apply find_head_filter.
  - done.
  - intros u m s Hs Hu. destruct (insert_id u m s) as (k & Hk & ->). by apply store_ok_dset.
  - intros u m s Hs. apply insert_key.
  - intros u m s m' Hs Hu. destruct (insert_id u m s) as (k & Hk & Hd). rewrite Hd, Hk.
    rewrite active_models_dset, insert_active by done. done.
  - intros now m s Hs. destruct (update_cases now m s Hs) as [[e ->]|(i & Hi & Ht & ->)]; [done|].
    apply store_ok_dset; [done|]. by rewrite m_id_upd.
  - intros now m s e Hs. by destruct (update_cases now m s Hs) as [[e' ->]|(i & Hi & Ht & ->)].
  - intros now m s m' r Hs. destruct (update_cases now m s Hs) as [[e' ->]|(i & Hi & Ht & ->)]; [done|].
    intros [= <-]. simpl. rewrite active_models_dset, Hi by (rewrite ?m_id_upd; done).
    by rewrite m_active_upd.
  - intros now m s r Hs. destruct (update_cases now m s Hs) as [[e' ->]|(i & Hi & Ht & ->)]; [done|].
    by intros [= <-].
  - intros now m s r Hs. destruct (update_cases now m s Hs) as [[e' ->]|(i & Hi & Ht & ->)]; [done|].
    intros _. by rewrite Hi.
  - intros now u i s Hs. destruct (soft_delete_cases now u i s Hs) as [(r & -> & _)|(m & Hi & _ & ->)];
      [done|by apply store_ok_dset].
  - intros now u i s m' Hs.
    destruct (soft_delete_cases now u i s Hs) as [(r & -> & Hn)|(m & Hi & Ha & ->)]; simpl.
    + split; [|by intros [? _]]. intros Hm. split; [done|by apply Hn].
    + rewrite active_models_dset by done. split; [|by right]. intros [[-> Ha']|Hm]; [congruence|done].
  - apply active_models_ids.
  - intros i s m Hs Hm Hi. unfold get. destruct (active_row_stored s m i Hs Hm Hi) as [-> ->]. done.
  - intros now u i s m Hs Hm Hi. unfold soft_delete. destruct (active_row_stored s m i Hs Hm Hi) as [-> ->]. done.
  - intros now u i s e _. unfold soft_delete. destruct (dget i s) as [[m|b]|]; [|done..].
    by destruct (negb (m_active m)).
Defined.
End inmemory.
End InMemory.
