(* ===== verification/Scoped.v ===== *)
(** * Tenant-scoped repositories (src/voiceai/database/scoped.py)

    One view of any [Repository] pinned to a tenant. The isolation theorems are
    proved against [RepositoryLaws], so they hold for every lawful backend. Only
    [raw_documents], the untyped read of rows that need not validate, is left out. *)
From S2P Require Import Prelude PyText PyVal Pagination Repository.
Open Scope Z_scope.

Definition TENANT_ID_FIELD : string := "tenant_id".

Module Scoped.
Section scoped.
Context {M S : Type} `{HM : Model M} {inner : Repository M S}.

(** A constructed view; the constructor rejects the empty tenant. *)
Record view := mkView { tenant : string }.
Definition make (tenant_id : string) : result db_error view :=
  if negb (str_true tenant_id) then Err TenantNotBoundError else Ok (mkView tenant_id).

Implicit Types (V : view) (s : S) (m : M).

(** [tenant_id == self._tenant_id] on a stored row. *)
Definition owns V m : bool := bool_decide (m_tenant m = Some (tenant V)).
Definition stamp V m : M := upd_base (set_tenant (Some (tenant V))) m.

Definition insert V (uuid : string) m s : S * M := rp_insert uuid (stamp V m) s.

Definition get V (item_id : string) s : result db_error (option M) :=
  match rp_get item_id s with
  | Err e => Err e
  | Ok None => Ok None
  | Ok (Some m) => if owns V m then Ok (Some m) else Ok None
  end.

Definition list_where V (filters : list (string * val)) (params : PaginationParams) s : Page M :=
  let filter_value := match dget TENANT_ID_FIELD filters with Some v => v | None => VStr (tenant V) end in
  if negb (val_eqb filter_value (VStr (tenant V))) then paginate [] 0 params
  else let stamped := dset TENANT_ID_FIELD (VStr (tenant V)) filters in
       let page := rp_list_where stamped params s in
       let rows := List.filter (fun row => m_active row && owns V row) (pg_items page) in
       paginate rows (pg_total page) params.

(** [list] *)
Definition list_all V (params : PaginationParams) s : Page M := list_where V [] params s.

Definition require_same_tenant V (item_id : option string) s : result db_error unit :=
  match rp_get (match item_id with Some i => i | None => "" end) s with
  | Err e => Err e
  | Ok (Some stored) => if owns V stored then Ok tt else Err (NotFoundError item_id)
  | Ok None => Err (NotFoundError item_id)
  end.

Definition update V (now : Z) m s : S * result db_error M :=
  match require_same_tenant V (m_id m) s with
  | Err e => (s, Err e)
  | Ok _ => rp_update now (stamp V m) s
  end.

Definition soft_delete V (now : Z) (user_id : option string) (item_id : string) s : S * result db_error bool :=
  match require_same_tenant V (Some item_id) s with
  | Err e => (s, Err e)
  | Ok _ => rp_soft_delete now user_id item_id s
  end.

Definition find_one V (field : string) (value : val) s : option M :=
  if decide (field = TENANT_ID_FIELD) then
    if negb (val_eqb value (VStr (tenant V))) then None else rp_find_one field value s
  else match rp_find_one field value s with
       | Some m => if owns V m then Some m else None
       | None => None
       end.

Definition find_many V (field : string) (value : val) (lim : Z) s : list M :=
  if bool_decide (field = TENANT_ID_FIELD) && negb (val_eqb value (VStr (tenant V))) then []
  else let matched := rp_find_many field value lim s in
       let rows := List.filter (fun row => m_active row && owns V row) matched in
       take (Z.to_nat (bounded lim)) rows.

Definition repository V : Repository M S := {|
  rp_insert := insert V; rp_get := get V; rp_list_where := list_where V; rp_update := update V;
  rp_soft_delete := soft_delete V; rp_find_one := find_one V; rp_find_many := find_many V |}.

(** ** Isolation, for every lawful backend *)
Context {laws : RepositoryLaws M S}.

(** The rows of the bound tenant, in the backend's listing order. *)
Definition own_rows V s : list M := List.filter (owns V) (rp_view s).

Lemma owns_spec V m : owns V m = true <-> m_tenant m = Some (tenant V).
Proof. apply bool_decide_eq_true. Qed.

Lemma owns_stamp V m : owns V (stamp V m) = true.
Proof. apply owns_spec. unfold stamp. by rewrite m_tenant_upd. Qed.

Lemma stamp_id V m : m_id (stamp V m) = m_id m.
Proof. unfold stamp. by rewrite m_id_upd. Qed.

Lemma stamp_active V m : m_active (stamp V m) = m_active m.
Proof. unfold stamp. by rewrite m_active_upd. Qed.

(** Ids are unique in the listing of a lawful backend that can be read by id. *)
Lemma view_id_unique s i o m : rp_inv s -> rp_get i s = Ok o ->
  m ∈ rp_view s -> m_id m = Some i -> o = Some m.
Proof. intros Hs Hg Hm Hi. by apply (rp_get_spec s i o Hs Hg). Qed.

Lemma require_same_tenant_Ok V i s :
  rp_inv s -> require_same_tenant V i s = Ok tt ->
  exists m0, rp_get (match i with Some i => i | None => "" end) s = Ok (Some m0) /\ owns V m0 = true.
Proof.
  unfold require_same_tenant. intros Hs H.
  destruct (rp_get _ s) as [[m0|]|e]; try done. destruct (owns V m0) eqn:E; [|done]. by exists m0.
Qed.

Lemma forallb_dset_split (p : string * val -> bool) k v f :
  forallb p (dset k v f) = p (k, v) && forallb p (ddel k f).
Proof.
  induction f as [|[k' v'] f IH]; simpl; [done|]. case_decide; subst; simpl; [done|].
  rewrite IH. destruct (p (k', v')), (p (k, v)); done.
Qed.

(** Stamping the selector is filtering by ownership. *)
Lemma matches_stamped V f m :
  (forall v, dget TENANT_ID_FIELD f = Some v -> val_eqb v (VStr (tenant V)) = true) ->
  matches m (dset TENANT_ID_FIELD (VStr (tenant V)) f) = owns V m && matches m (ddel TENANT_ID_FIELD f).
Proof.
  intros Hf. unfold matches. rewrite forallb_dset_split. f_equal.
  apply eq_iff_eq_true. rewrite owns_spec, <- matches_tenant. unfold matches. simpl. by rewrite andb_true_r.
Qed.

Lemma filter_slice_sub (q : M -> bool) a b l :
  (forall m, m ∈ l -> q m = true) -> List.filter q (slice a b l) = slice a b l.
Proof.
  intros Hq.
  assert (forall m, m ∈ slice a b l -> q m = true) as H.
  { intros m Hm. apply Hq. by eapply elem_of_sublist, slice_sublist. }
  induction (slice a b l) as [|x k IH]; simpl; [done|].
  rewrite H by set_solver. f_equal. apply IH. set_solver.
Qed.

Lemma filter_and (p q : M -> bool) l :
  List.filter (fun m => p m && q m) l = List.filter q (List.filter p l).
Proof.
  induction l as [|x l IH]; simpl; [done|]. destruct (p x); simpl; [|done].
  destruct (q x); by rewrite IH.
Qed.

Lemma list_where_cut V f p s : rp_inv s ->
  (forall v, dget TENANT_ID_FIELD f = Some v -> val_eqb v (VStr (tenant V)) = true) ->
  let page := cut_page (List.filter (fun m => matches m (dset TENANT_ID_FIELD (VStr (tenant V)) f)) (rp_view s)) p in
  paginate (List.filter (fun row => m_active row && owns V row) (pg_items page)) (pg_total page) p =
  cut_page (List.filter (fun m => matches m (ddel TENANT_ID_FIELD f)) (own_rows V s)) p.
Proof.
  intros Hs Hf. unfold own_rows. rewrite <- filter_and.
  assert (forall l, List.filter (fun m => matches m (dset TENANT_ID_FIELD (VStr (tenant V)) f)) l =
    List.filter (fun m => owns V m && matches m (ddel TENANT_ID_FIELD f)) l) as Heq.
  { intros l. apply List.filter_ext. intros m. by apply matches_stamped. }
  cbv zeta. rewrite Heq. unfold cut_page, paginate; simpl. f_equal. apply filter_slice_sub.
  intros m [Hm Ho]%elem_of_lfilter. apply andb_true_iff in Ho as [-> _].
  by rewrite (rp_view_active s m).
Qed.

Definition names_foreign V (f : list (string * val)) : bool :=
  match dget TENANT_ID_FIELD f with Some v => negb (val_eqb v (VStr (tenant V))) | None => false end.

(** What a scoped listing answers: the page cut from the tenant's own rows. *)
Lemma list_where_own V f p s : rp_inv s ->
  list_where V f p s =
  if names_foreign V f then paginate [] 0 p
  else cut_page (List.filter (fun m => matches m (ddel TENANT_ID_FIELD f)) (own_rows V s)) p.
Proof.
  intros Hs. unfold list_where, names_foreign.
  assert (val_eqb (VStr (tenant V)) (VStr (tenant V)) = true) as Hrefl by (by apply bool_decide_eq_true).
  destruct (dget TENANT_ID_FIELD f) as [v|] eqn:E.
  - destruct (val_eqb v (VStr (tenant V))) eqn:Ev; simpl; [|done].
    rewrite rp_list_spec by done. apply list_where_cut; [done|]. intros v' Hv'. congruence.
  - rewrite Hrefl; simpl. rewrite rp_list_spec by done. apply list_where_cut; [done|]. congruence.
Qed.

Lemma find_one_own V field v s m : rp_inv s ->
  find_one V field v s = Some m -> m ∈ own_rows V s.
Proof.
  intros Hs. unfold find_one, own_rows. rewrite rp_find_one_spec by done.
  set (p := fun m => matches m [(field, v)]). intros H. apply elem_of_lfilter.
  assert (forall x, head (List.filter p (rp_view s)) = Some x -> x ∈ rp_view s /\ p x = true) as Hh.
  { intros x Hx. apply elem_of_lfilter. destruct (List.filter p (rp_view s)); simplify_eq/=. set_solver. }
  destruct (decide (field = TENANT_ID_FIELD)) as [->|Hf].
  - destruct (val_eqb v (VStr (tenant V))) eqn:Ev; simplify_eq/=.
    destruct (Hh m H) as [Hin Hp]. split; [done|]. apply owns_spec, matches_tenant.
    revert Hp. unfold p, matches, getattr. simpl. rewrite !andb_true_r.
    destruct v; try done. simpl in Ev. apply bool_decide_eq_true in Ev as ->. done.
  - destruct (head _) as [x|] eqn:Ex; [|done]. destruct (owns V x) eqn:Eo; simplify_eq.
    destruct (Hh m eq_refl). done.
Qed.

Lemma own_rows_elem V s m :
  m ∈ own_rows V s <-> m ∈ rp_view s /\ m_tenant m = Some (tenant V).
Proof. unfold own_rows. by rewrite elem_of_lfilter, owns_spec. Qed.

Lemma list_where_elem V f p s m : rp_inv s ->
  m ∈ pg_items (list_where V f p s) -> m ∈ own_rows V s.
Proof.
  intros Hs. rewrite list_where_own by done. destruct (names_foreign V f); simpl; [set_solver|].
  intros Hm. eapply elem_of_sublist in Hm; [|apply slice_sublist].
  by apply elem_of_lfilter in Hm as [? _].
Qed.

Lemma find_many_own V field v n s m : rp_inv s ->
  m ∈ find_many V field v n s -> m ∈ own_rows V s.
Proof.
  intros Hs. unfold find_many. destruct (_ && _); [set_solver|].
  rewrite rp_find_many_spec by done. intros Hm.
  eapply elem_of_sublist in Hm; [|apply sublist_take].
  apply elem_of_lfilter in Hm as [Hm [_ Ho]%andb_true_iff].
  eapply elem_of_sublist in Hm; [|apply sublist_take].
  apply elem_of_lfilter in Hm as [Hm _]. by apply elem_of_lfilter.
Qed.

(** C33: Whatever a tenant-scoped view reads (by id, by listing page, by either
    lookup) is an active stored row of the bound tenant, on every lawful backend. *)
Theorem scoped_reads_isolated V s : rp_inv s ->
  (forall i m, get V i s = Ok (Some m) -> m ∈ own_rows V s) /\
  (forall f p m, m ∈ pg_items (list_where V f p s) -> m ∈ own_rows V s) /\
  (forall f v m, find_one V f v s = Some m -> m ∈ own_rows V s) /\
  (forall f v n m, m ∈ find_many V f v n s -> m ∈ own_rows V s).
Proof.
  intros Hs. split_and!.
  - unfold get. intros i m H. destruct (rp_get i s) as [[x|]|] eqn:E; simplify_eq.
    destruct (owns V x) eqn:Eo; simplify_eq. apply own_rows_elem.
    split; [|by apply owns_spec]. by apply (proj1 (rp_get_spec s i _ Hs E m)).
  - intros. by eapply list_where_elem.
  - intros. by eapply find_one_own.
  - intros. by eapply find_many_own.
Qed.

(** Walking the pages of a scoped listing terminates and yields exactly the
    tenant's own rows that match the filters, each one once and in listing order:
    no page bound truncates the tenant and no other tenant's row appears. *)
Theorem scoped_walk_complete V f s fuel : rp_inv s ->
  names_foreign V f = false -> (0 < fuel)%nat ->
  Z.of_nat (length (own_rows V s)) <= Z.of_nat fuel * MAX_PAGE_SIZE ->
  @walk_pages M S (repository V) fuel f s =
  Some (List.filter (fun m => matches m (ddel TENANT_ID_FIELD f)) (own_rows V s)).
Proof.
  intros Hs Hf Hfuel Hlen. unfold walk_pages.
  rewrite (walk_from_spec _ (List.filter (fun m => matches m (ddel TENANT_ID_FIELD f)) (own_rows V s)));
    unfold MIN_PAGE; try done.
  - intros p _. cbn [rp_list_where repository]. by rewrite list_where_own, Hf.
  - pose proof (List.filter_length_le (fun m => matches m (ddel TENANT_ID_FIELD f)) (own_rows V s)). lia.
Qed.

(** A scoped listing (items, total and counters) is a function of the
    tenant's own rows alone: two stores that hold the same rows of the tenant answer
    every listing alike, whatever other tenants store. *)
Theorem scoped_noninterference V f p s1 s2 : rp_inv s1 -> rp_inv s2 ->
  own_rows V s1 = own_rows V s2 -> list_where V f p s1 = list_where V f p s2.
Proof. intros H1 H2 Heq. by rewrite !list_where_own, Heq. Qed.

(** A row of another tenant never has the id of a row the view may write. *)
Lemma foreign_id_differs V s i m0 m' : rp_inv s ->
  rp_get i s = Ok (Some m0) -> owns V m0 = true ->
  m_tenant m' <> Some (tenant V) -> m' ∈ rp_view s -> m_id m' <> Some i.
Proof.
  intros Hs Hg Ho Ht Hm' Hid. assert (Some m0 = Some m') as [= ->] by (by eapply view_id_unique).
  by apply owns_spec in Ho.
Qed.

Lemma update_frame V now m s m' : rp_inv s -> m_tenant m' <> Some (tenant V) ->
  m' ∈ rp_view (update V now m s).1 <-> m' ∈ rp_view s.
Proof.
  intros Hs Ht. unfold update. destruct (require_same_tenant V (m_id m) s) as [[]|] eqn:E; [|done].
  destruct (rp_update now (stamp V m) s).2 as [r|e] eqn:Er; [|by rewrite (rp_update_err _ _ _ e)].
  apply require_same_tenant_Ok in E as (m0 & Hg & Ho); [|done].
  pose proof (rp_update_id _ _ _ _ Hs Er) as Hid. rewrite stamp_id in Hid.
  destruct (m_id m) as [i|] eqn:Ei; [|done].
  rewrite (rp_update_view _ _ _ _ r), stamp_id, stamp_active, Ei by done.
  rewrite (rp_update_result _ _ _ _ Hs Er). split.
  - intros [[-> _]|[? _]]; [|done]. exfalso. apply Ht.
    rewrite m_tenant_upd. unfold stamp, upd_base. by rewrite base_of_set.
  - intros Hm'. right. split; [done|]. by eapply foreign_id_differs.
Qed.

Lemma soft_delete_frame V now u i s m' : rp_inv s -> m_tenant m' <> Some (tenant V) ->
  m' ∈ rp_view (soft_delete V now u i s).1 <-> m' ∈ rp_view s.
Proof.
  intros Hs Ht. unfold soft_delete. destruct (require_same_tenant V (Some i) s) as [[]|] eqn:E; [|done].
  apply require_same_tenant_Ok in E as (m0 & Hg & Ho); [|done].
  rewrite rp_soft_delete_view by done. split; [by intros [? _]|].
  intros Hm'. split; [done|]. by eapply foreign_id_differs.
Qed.

(** Writes of own rows, on the listing. *)
Lemma insert_own V u m s m' : rp_inv s -> u <> "" ->
  m' ∈ own_rows V (insert V u m s).1 <->
  (m' = (insert V u m s).2 /\ m_active m = true) \/ (m' ∈ own_rows V s /\ m_id m' <> m_id (insert V u m s).2).
Proof.
  intros Hs Hu. unfold insert. rewrite !own_rows_elem, rp_insert_view, stamp_active by done.
  split; [intros [[?|[? ?]] ?]; [by left|by right]|]. intros [[-> ?]|[[? ?] ?]]; (split; [by auto|]); [|done].
  rewrite rp_insert_stored, m_tenant_upd by done. apply owns_spec, owns_stamp.
Qed.

Lemma require_same_tenant_own V s m i : rp_inv s -> m ∈ own_rows V s -> m_id m = Some i ->
  require_same_tenant V (Some i) s = Ok tt.
Proof.
  intros Hs [Hm Ht]%own_rows_elem Hi. unfold require_same_tenant. rewrite (rp_get_hit i s m) by done.
  by apply owns_spec in Ht as ->.
Qed.

Lemma soft_delete_own V now u s m i : rp_inv s -> m ∈ own_rows V s -> m_id m = Some i ->
  (soft_delete V now u i s).2 = Ok true /\
  forall m', m' ∈ rp_view (soft_delete V now u i s).1 <-> m' ∈ rp_view s /\ m_id m' <> Some i.
Proof.
  intros Hs Hm Hi. unfold soft_delete. rewrite (require_same_tenant_own V s m i) by done.
  apply own_rows_elem in Hm as [Hm _]. split; [by apply (rp_soft_delete_hit now u i s m)|].
  intros m'. by apply rp_soft_delete_view.
Qed.

Lemma soft_delete_inv V now u i s : rp_inv s -> rp_inv (soft_delete V now u i s).1.
Proof. intros Hs. unfold soft_delete. destruct (require_same_tenant _ _ _); [by apply rp_soft_delete_inv|done]. Qed.

(** A lookup whose matches, of every tenant, are at most the bound, is complete. *)
Lemma find_many_complete V field v n s : rp_inv s -> field <> TENANT_ID_FIELD ->
  Z.of_nat (length (List.filter (fun m => matches m [(field, v)]) (rp_view s))) <= bounded n ->
  find_many V field v n s = List.filter (fun m => matches m [(field, v)]) (own_rows V s).
Proof.
  intros Hs Hf Hn. unfold find_many. rewrite bool_decide_eq_false_2 by done. simpl.
  rewrite rp_find_many_spec, (take_ge (List.filter _ (rp_view s))) by (done || lia).
  assert (forall m, m ∈ rp_view s -> m_active m = true) as Ha by (intros; by eapply rp_view_active).
  unfold own_rows. rewrite !lfilter_lfilter, take_ge.
  - apply List.filter_ext_in. intros m Hm%list_elem_of_In. rewrite Ha by done. apply andb_comm.
  - pose proof (List.filter_length_le (fun m => m_active m && owns V m) (List.filter (fun m => matches m [(field, v)]) (rp_view s))) as Hle.
    rewrite lfilter_lfilter in Hle. lia.
Qed.

Lemma require_same_tenant_foreign V i s o : rp_get i s = Ok o ->
  (forall m, o = Some m -> owns V m = false) ->
  require_same_tenant V (Some i) s = Err (NotFoundError (Some i)).
Proof.
  unfold require_same_tenant. intros -> Ho. destruct o as [m|]; [|done]. by rewrite Ho.
Qed.

(** [update] and [soft_delete] through a scoped view never add, change or
    remove another tenant's row; on an id whose row is missing or foreign they answer
    the one not-found error and leave the store as it was. *)
Theorem scoped_writes_frame V s : rp_inv s ->
  (forall now m m', m_tenant m' <> Some (tenant V) ->
     m' ∈ rp_view (update V now m s).1 <-> m' ∈ rp_view s) /\
  (forall now u i m', m_tenant m' <> Some (tenant V) ->
     m' ∈ rp_view (soft_delete V now u i s).1 <-> m' ∈ rp_view s) /\
  (forall i o, rp_get i s = Ok o -> (forall m, o = Some m -> owns V m = false) ->
     (forall now u, soft_delete V now u i s = (s, Err (NotFoundError (Some i)))) /\
     (forall now m, m_id m = Some i -> update V now m s = (s, Err (NotFoundError (Some i))))).
Proof.
  intros Hs. split_and!.
  - intros. by apply update_frame.
  - intros. by apply soft_delete_frame.
  - intros i o Hg Ho. pose proof (require_same_tenant_foreign V i s o Hg Ho) as Hr. split.
    + intros now u. unfold soft_delete. by rewrite Hr.
    + intros now m Hm. unfold update. by rewrite Hm, Hr.
Qed.

(** [insert] has no such guard: a model that carries the id of another
    tenant's row replaces that row, so the other tenant can no longer read it. *)
Theorem scoped_insert_replaces_foreign V uuid m s m0 i : rp_inv s -> uuid <> "" ->
  m0 ∈ rp_view s -> m_tenant m0 <> Some (tenant V) -> m_id m0 = Some i ->
  m_id m = Some i -> str_true i = true ->
  m0 ∉ rp_view (insert V uuid m s).1 /\
  forall W, m_tenant m0 = Some (tenant W) -> get W i (insert V uuid m s).1 <> Ok (Some m0).
Proof.
  intros Hs Hu Hm0 Ht Hi0 Hi Hne.
  assert (m0 ∉ rp_view (insert V uuid m s).1) as Hgone.
  { unfold insert. rewrite rp_insert_view, rp_insert_stored by done.
    rewrite stamp_id, Hi. simpl. rewrite Hne, m_id_upd. simpl. rewrite Hi0.
    intros [[-> _]|[_ ?]]; [|done]. apply Ht. rewrite m_tenant_upd. unfold stamp, upd_base. by rewrite base_of_set. }
  split; [done|]. intros W HW Hget. apply Hgone. unfold get in Hget.
  destruct (rp_get i _) as [[x|]|] eqn:E; try done. destruct (owns W x); simplify_eq.
  apply (rp_get_spec _ i _ (rp_insert_inv uuid (stamp V m) s Hs Hu) E m0). done.
Qed.
End scoped.
End Scoped.
