(* ===== verification/Wallet.v ===== *)
(** * Wallet, ledger and seed templates (src/voiceai/modules/wallet)

    The three documents as [Model]s, the repository and the service over any
    [Repository], then their behaviour on tenant-scoped views of the in-memory
    backend, the wiring of src/voiceai/core/container.py. [uuid4().hex] and
    [utc_now()] are arguments; a credit amount is a binary64 float. *)
From S2P Require Import Prelude PyText PyVal Pagination Repository Scoped.
Open Scope Z_scope.
Open Scope voice_scope.

(** [voiceai.common.ids.new_id] *)
Definition new_id (prefix uuid : string) : string := prefix +:+ "_" +:+ str_take 12 uuid.

Definition SINGLETON_WALLET_ID : string := "singleton".
Definition DEFAULT_CURRENCY : string := "credits".
Definition DEFAULT_LEDGER_LIMIT : Z := 50.
Definition ENTRY_TYPE_FIELD : string := "type".

Record Wallet := mkWallet { wl_base : BaseFields; balance_credits : pyfloat; currency : string }.

Inductive entry_type : Type := topup | debit.
Definition entry_type_str (t : entry_type) : string := match t with topup => "topup" | debit => "debit" end.
Record LedgerEntry := mkLedgerEntry {
  le_base : BaseFields; le_type : entry_type; amount_credits : pyfloat; reason : option string }.

Record StoredTemplate := mkStoredTemplate {
  tp_base : BaseFields; template_id : string; tp_name : string; industry : string;
  description : string; languages : list string; agent_payload : list (string * val) }.

Definition wallet_field (w : Wallet) (f : string) : option val :=
  if decide (f = "balance_credits") then Some (VFloat (balance_credits w))
  else if decide (f = "currency") then Some (VStr (currency w)) else None.
Definition ledger_field (e : LedgerEntry) (f : string) : option val :=
  if decide (f = ENTRY_TYPE_FIELD) then Some (VStr (entry_type_str (le_type e)))
  else if decide (f = "amount_credits") then Some (VFloat (amount_credits e))
  else if decide (f = "reason") then Some (opt_str (reason e)) else None.
Definition template_field (t : StoredTemplate) (f : string) : option val :=
  if decide (f = "template_id") then Some (VStr (template_id t))
  else if decide (f = "name") then Some (VStr (tp_name t))
  else if decide (f = "industry") then Some (VStr (industry t))
  else if decide (f = "description") then Some (VStr (description t))
  else if decide (f = "languages") then Some (VList (map VStr (languages t)))
  else if decide (f = "agent_payload") then Some (VDict (agent_payload t)) else None.

Ltac solve_model :=
  try done;
  try (by intros; match goal with m : _ |- _ => destruct m end);
  intros m f Hf; cbv [wallet_field ledger_field template_field ENTRY_TYPE_FIELD];
  repeat (apply elem_of_cons in Hf as [->|Hf]; [done|]); by apply elem_of_nil in Hf.

#[export] Instance wallet_model : Model Wallet.
Proof.
  refine {| base_of := wl_base; own_field := wallet_field;
            set_base b w := mkWallet b (balance_credits w) (currency w) |}; solve_model.
Defined.
#[export] Instance ledger_model : Model LedgerEntry.
Proof.
  refine {| base_of := le_base; own_field := ledger_field;
            set_base b e := mkLedgerEntry b (le_type e) (amount_credits e) (reason e) |}; solve_model.
Defined.
#[export] Instance template_model : Model StoredTemplate.
Proof.
  refine {| base_of := tp_base; own_field := template_field;
            set_base b t := mkStoredTemplate b (template_id t) (tp_name t) (industry t)
                              (description t) (languages t) (agent_payload t) |}; solve_model.
Defined.

(** [TopUpRequest]: the amount field is declared [gt=0]. *)
Record TopUpRequest := mkTopUpRequest { rq_amount : pyfloat; rq_reason : option string }.
Definition topup_request (amount : pyfloat) (why : option string) : option TopUpRequest :=
  if num_ltb fzero amount then Some (mkTopUpRequest amount why) else None.

(** [TemplateSummary] and [Template] *)
Record TemplateSummary := mkTemplateSummary {
  ts_template_id : string; ts_name : string; ts_industry : string;
  ts_description : string; ts_languages : list string }.
Record Template := mkTemplate { tv_summary : TemplateSummary; tv_payload : list (string * val) }.

Definition summarize_template (t : StoredTemplate) : TemplateSummary :=
  mkTemplateSummary (template_id t) (tp_name t) (industry t) (description t) (languages t).
Definition render_template (t : StoredTemplate) : Template :=
  mkTemplate (summarize_template t) (agent_payload t).
Definition import_payload (payload : list (string * val)) : list (string * val) :=
  [("agent_payload", VDict payload)].

Definition new_ledger_entry (now : Z) (uuid : string) (t : entry_type) (amount : pyfloat)
    (why : option string) : LedgerEntry :=
  mkLedgerEntry (base_default now (Some (new_id "led" uuid))) t amount why.

Inductive wallet_error : Type :=
| DbError (e : db_error)
| TemplateNotFoundError (id : string).

(** [ensure_template_found] *)
Definition ensure_template_found (stored : option StoredTemplate) (id : string) : result wallet_error StoredTemplate :=
  match stored with Some t => Ok t | None => Err (TemplateNotFoundError id) end.

Module Service.
Section service.
Context {SW SL ST : Type} {RW : Repository Wallet SW} {RL : Repository LedgerEntry SL}
        {RT : Repository StoredTemplate ST}.

Record store := mkStore { wallets : SW; ledger : SL; templates : ST }.

(** *** [MongoWalletRepository] *)
Definition get_wallet (now : Z) (uuid : string) : SE store wallet_error Wallet := fun s =>
  match rp_get SINGLETON_WALLET_ID (wallets s) with
  | Err e => (s, Err (DbError e))
  | Ok (Some wallet) => (s, Ok wallet)
  | Ok None =>
      let (ws, wallet) := rp_insert uuid
        (mkWallet (base_default now (Some SINGLETON_WALLET_ID)) fzero DEFAULT_CURRENCY) (wallets s) in
      (mkStore ws (ledger s) (templates s), Ok wallet)
  end.

(** The caller's object gets the singleton id before the insert copies it. *)
Definition save_wallet (uuid : string) (wallet : Wallet) : SE store wallet_error Wallet := fun s =>
  let wallet := upd_base (set_id (Some SINGLETON_WALLET_ID)) wallet in
  (mkStore (rp_insert uuid wallet (wallets s)).1 (ledger s) (templates s), Ok wallet).

Definition add_ledger_entry (uuid : string) (entry : LedgerEntry) : SE store wallet_error unit := fun s =>
  (mkStore (wallets s) (rp_insert uuid entry (ledger s)).1 (templates s), Ok tt).

(** [None]: [fuel] pages did not reach the end of the listing. *)
Definition list_ledger (fuel : nat) (lim : Z) (type_filter : option string) (s : store) : option (list LedgerEntry) :=
  if lim <=? 0 then Some []
  else let filters := match type_filter with
                      | Some t => if str_true t then [(ENTRY_TYPE_FIELD, VStr t)] else []
                      | None => []
                      end in
       entries ← walk_pages fuel filters (ledger s);
       Some (reverse (drop (length entries - Z.to_nat lim) entries)).

Definition stored_templates (fuel : nat) (s : store) : option (list StoredTemplate) :=
  walk_pages fuel [] (templates s).
Definition stored_template (id : string) (s : store) : result db_error (option StoredTemplate) :=
  rp_get id (templates s).

(** *** [WalletService] *)
Definition topup_wallet (now : Z) (uuid : string) (payload : TopUpRequest) : SE store wallet_error Wallet :=
  wallet <- get_wallet now uuid ;;
  let wallet := mkWallet (wl_base wallet) (fadd (balance_credits wallet) (rq_amount payload)) (currency wallet) in
  let wallet := upd_base (touch now None) wallet in
  saved <- save_wallet uuid wallet ;;
  let entry := new_ledger_entry now uuid topup (rq_amount payload) (rq_reason payload) in
  add_ledger_entry uuid entry ;;;
  se_ret saved.

Definition list_templates (fuel : nat) (s : store) : option (list TemplateSummary) :=
  map summarize_template <$> stored_templates fuel s.

Definition get_template (id : string) (s : store) : result wallet_error Template :=
  match stored_template id s with
  | Err e => Err (DbError e)
  | Ok o => match ensure_template_found o id with
            | Ok t => Ok (render_template t)
            | Err e => Err e
            end
  end.

Definition import_template (id : string) (s : store) : result wallet_error (list (string * val)) :=
  match get_template id s with
  | Ok t => Ok (import_payload (tv_payload t))
  | Err e => Err e
  end.
End service.
End Service.

(** ** On tenant-scoped views of the in-memory backend *)
Module Scoping.
Import Service.
Notation wdocs := (dict string (InMemory.row Wallet)).
Notation ldocs := (dict string (InMemory.row LedgerEntry)).
Notation tdocs := (dict string (InMemory.row StoredTemplate)).
Notation books := (@store wdocs ldocs tdocs).

Section scoping.
Context (tenant_id : string).
Definition view : Scoped.view := Scoped.mkView tenant_id.
#[local] Instance wallet_repo : Repository Wallet wdocs := Scoped.repository (inner := InMemory.repository) view.
#[local] Instance ledger_repo : Repository LedgerEntry ldocs := Scoped.repository (inner := InMemory.repository) view.
#[local] Instance template_repo : Repository StoredTemplate tdocs := Scoped.repository (inner := InMemory.repository) view.

Definition scoped_get_wallet : Z -> string -> SE books wallet_error Wallet := get_wallet.
Definition scoped_topup : Z -> string -> TopUpRequest -> SE books wallet_error Wallet := topup_wallet.
Definition scoped_list_ledger : nat -> Z -> option string -> books -> option (list LedgerEntry) := list_ledger.
Definition scoped_get_template : string -> books -> result wallet_error Template := get_template.
Definition scoped_import_template : string -> books -> result wallet_error (list (string * val)) := import_template.
Definition scoped_list_templates : nat -> books -> option (list TemplateSummary) := list_templates.

(** The entries the ledger holds for the tenant, in insertion order. *)
Definition entries (s : books) : list LedgerEntry := Scoped.own_rows (laws := InMemory.laws) view (ledger s).

(** The wallet row is absent, or the tenant's own active row with balance [b]. *)
Definition holds (b : pyfloat) (s : books) : Prop :=
  (dget SINGLETON_WALLET_ID (wallets s) = None /\ b = fzero) \/
  exists w, dget SINGLETON_WALLET_ID (wallets s) = Some (InMemory.Row w) /\
            m_active w = true /\ m_tenant w = Some tenant_id /\
            m_id w = Some SINGLETON_WALLET_ID /\ balance_credits w = b.

Lemma get_wallet_holds now uuid b s :
  holds b s ->
  exists s' w, scoped_get_wallet now uuid s = (s', Ok w) /\ ledger s' = ledger s /\
    balance_credits w = b /\ m_active w = true /\ m_tenant w = Some tenant_id /\
    m_id w = Some SINGLETON_WALLET_ID /\
    dget SINGLETON_WALLET_ID (wallets s') = Some (InMemory.Row w).
Proof.
  unfold scoped_get_wallet, get_wallet. cbn [rp_get rp_insert wallet_repo Scoped.repository].
  unfold Scoped.get, Scoped.insert. cbn [rp_get rp_insert InMemory.repository].
  unfold InMemory.get. intros [[-> ->]|(w & Hg & Ha & Ht & Hi & <-)].
  - eexists _, _. split; [done|]. cbn -[dget dset]. split_and!; try done. by rewrite dget_dset_eq.
  - rewrite Hg, Ha. unfold Scoped.owns. rewrite bool_decide_true by done.
    destruct s. eexists _, w. split; [reflexivity|]. split_and!; done.
Qed.

Lemma save_wallet_holds uuid w s :
  m_active w = true -> m_tenant w = Some tenant_id ->
  exists s' w', save_wallet uuid w s = (s', Ok w') /\ ledger s' = ledger s /\
    balance_credits w' = balance_credits w /\ holds (balance_credits w) s'.
Proof.
  intros Ha Ht. eexists _, _. split; [reflexivity|]. split_and!; [done|by destruct w|].
  right. cbn [wallets rp_insert wallet_repo Scoped.repository InMemory.repository].
  unfold Scoped.insert, InMemory.insert. cbn -[dget dset]. rewrite dget_dset_eq.
  eexists. split; [done|]. destruct w; simpl in *. done.
Qed.

Lemma own_rows_app s k e :
  dget k (ledger s) = None -> m_active e = true -> m_tenant e = Some tenant_id ->
  Scoped.own_rows (laws := InMemory.laws) view (dset k (InMemory.Row e) (ledger s)) = entries s ++ [e].
Proof.
  intros Hk Ha Ht. unfold Scoped.own_rows, entries. cbn [rp_view InMemory.laws].
  unfold InMemory.active_models, dvalues. rewrite dset_fresh by done.
  rewrite List.map_app, omap_app, List.filter_app. f_equal. simpl. rewrite Ha. simpl.
  unfold Scoped.owns. by rewrite bool_decide_true.
Qed.

Lemma new_id_true prefix uuid : str_true (new_id prefix uuid) = true.
Proof. unfold new_id. by destruct prefix. Qed.

(** One top-up: the balance moves by the amount, one entry is appended. *)
Lemma topup_step now uuid p b s :
  holds b s -> dget (new_id "led" uuid) (ledger s) = None ->
  exists s' w e, scoped_topup now uuid p s = (s', Ok w) /\
    balance_credits w = fadd b (rq_amount p) /\ holds (fadd b (rq_amount p)) s' /\
    entries s' = entries s ++ [e] /\ le_type e = topup /\ amount_credits e = rq_amount p /\
    reason e = rq_reason p /\ m_id e = Some (new_id "led" uuid) /\
    (exists r, ledger s' = dset (new_id "led" uuid) r (ledger s)).
Proof.
  intros Hb Hfresh. unfold scoped_topup, topup_wallet, se_bind.
  destruct (get_wallet_holds now uuid b s Hb) as (s1 & w & E1 & Hl1 & Hw & Ha & Ht & _).
  unfold scoped_get_wallet in E1. rewrite E1.
  set (w1 := upd_base (touch now None) _).
  destruct (save_wallet_holds uuid w1 s1) as (s2 & w2 & E2 & Hl2 & Hw2 & Hh);
    [by destruct w|by destruct w|]. rewrite E2. unfold add_ledger_entry, se_ret.
  cbn [ledger wallets templates rp_insert ledger_repo Scoped.repository InMemory.repository].
  set (e := Scoped.stamp view (new_ledger_entry now uuid topup (rq_amount p) (rq_reason p))).
  assert (InMemory.insert uuid e (ledger s2) = (dset (new_id "led" uuid) (InMemory.Row e) (ledger s2), e)) as Ei.
  { unfold InMemory.insert, e. cbn -[dget dset new_id]. by rewrite new_id_true. }
  unfold Scoped.insert. cbn [rp_insert InMemory.repository]. fold e. rewrite Ei. cbn [fst].
  rewrite Hl2, Hl1. eexists _, w2, e. split; [done|]. cbn [ledger wallets].
  assert (balance_credits w1 = fadd b (rq_amount p)) as Hb1 by (subst w1 b; by destruct w).
  rewrite Hb1 in *. split_and!; [done| |by apply own_rows_app|done..|by eexists].
  destruct Hh as [[H ->]|H]; [by left|right; exact H].
Qed.

(** A run of top-ups, each with its clock reading and its uuid. *)
Fixpoint topup_all (events : list (Z * string * TopUpRequest)) : SE books wallet_error pyfloat :=
  match events with
  | [] => fun s => (s, Ok fzero)
  | [(now, uuid, p)] => w <- scoped_topup now uuid p ;; se_ret (balance_credits w)
  | (now, uuid, p) :: rest => scoped_topup now uuid p ;;; topup_all rest
  end.

Definition event_id (ev : Z * string * TopUpRequest) : string := new_id "led" ev.1.2.
Definition event_amount (ev : Z * string * TopUpRequest) : pyfloat := rq_amount ev.2.

Lemma topup_all_holds events : forall b s,
  holds b s -> NoDup (map event_id events) ->
  (forall ev, ev ∈ events -> dget (event_id ev) (ledger s) = None) ->
  exists s' r es, topup_all events s = (s', Ok r) /\
    holds (foldl fadd b (map event_amount events)) s' /\
    (events <> [] -> r = foldl fadd b (map event_amount events)) /\
    entries s' = entries s ++ es /\ map amount_credits es = map event_amount events /\
    Forall (fun e => le_type e = topup) es.
Proof.
  induction events as [|[[now uuid] p] rest IH]; intros b s Hb Hnd Hfresh.
  - exists s, fzero, []. rewrite app_nil_r. by split_and!.
  - apply NoDup_cons in Hnd as [Hni Hnd].
    destruct (topup_step now uuid p b s Hb) as (s1 & w & e & E & Hw & Hh & He & Hty & Ham & _ & _ & r0 & Hl).
    { by apply (Hfresh (now, uuid, p)), list_elem_of_here. }
    destruct (IH (fadd b (rq_amount p)) s1 Hh Hnd) as (s2 & r & es & E2 & Hh2 & Hr & Hes & Hams & Htys).
    { intros ev Hev. rewrite Hl, dget_dset_ne.
      - apply Hfresh. by right.
      - intros Heq. apply Hni. change (event_id (now, uuid, p)) with (new_id "led" uuid). rewrite <- Heq.
        by apply list_elem_of_fmap_2. }
    destruct rest as [|ev rest].
    + exists s1, (balance_credits w), [e]. simpl in *. unfold se_bind. rewrite E. unfold event_amount. simpl.
      split_and!; try done; [by rewrite Ham|by repeat constructor].
    + exists s2, r, (e :: es). split_and!.
      * change (topup_all _) with (scoped_topup now uuid p ;;; topup_all (ev :: rest)).
        unfold se_bind. rewrite E. done.
      * done.
      * intros _. by apply Hr.
      * rewrite Hes, He. by rewrite <- app_assoc.
      * cbn [map]. rewrite Ham. by f_equal.
      * by constructor.
Qed.

(** After any run of top-ups by one tenant on an unused wallet, with distinct
    ledger ids, the stored balance is the running float sum of the requested amounts,
    and the ledger gained exactly one top-up entry per request, in order, so the
    wallet can be recomputed from its ledger. *)
Theorem topups_balance_ledger events s :
  dget SINGLETON_WALLET_ID (wallets s) = None -> events <> [] ->
  NoDup (map event_id events) ->
  (forall ev, ev ∈ events -> dget (event_id ev) (ledger s) = None) ->
  exists s' r es, topup_all events s = (s', Ok r) /\
    entries s' = entries s ++ es /\ map amount_credits es = map event_amount events /\
    Forall (fun e => le_type e = topup) es /\
    r = foldl fadd fzero (map amount_credits es) /\ holds r s'.
Proof.
  intros Hw Hne Hnd Hfresh.
  destruct (topup_all_holds events fzero s) as (s' & r & es & E & Hh & Hr & He & Ha & Ht); [by left|done..|].
  specialize (Hr Hne). subst r. eexists _, _, es. rewrite Ha. by split_and!.
Qed.

Lemma walk_ledger fuel f (s : books) :
  InMemory.store_ok (ledger s) -> dget TENANT_ID_FIELD f = None -> (0 < fuel)%nat ->
  Z.of_nat (length (entries s)) <= Z.of_nat fuel * MAX_PAGE_SIZE ->
  walk_pages fuel f (ledger s) = Some (List.filter (fun e => matches e f) (entries s)).
Proof.
  intros Hs Hf Hfuel Hlen. unfold walk_pages.
  rewrite (walk_from_spec _ (List.filter (fun e => matches e f) (entries s))); unfold MIN_PAGE; try done.
  - intros p _. cbn [rp_list_where ledger_repo Scoped.repository].
    rewrite (Scoped.list_where_own (laws := InMemory.laws)) by done. unfold Scoped.names_foreign. rewrite Hf.
    by rewrite ddel_absent.
  - pose proof (List.filter_length_le (fun e => matches e f) (entries s)). lia.
Qed.

(** [list_ledger] answers the newest [lim] entries of the tenant that have the
    asked type, newest first, whatever the ledger's length: never more than [lim], and
    nothing for a non-positive limit. *)
Theorem list_ledger_newest_first fuel lim t s :
  InMemory.store_ok (ledger s) -> (0 < fuel)%nat ->
  Z.of_nat (length (entries s)) <= Z.of_nat fuel * MAX_PAGE_SIZE ->
  let kept := match t with
              | Some ty => if str_true ty
                           then List.filter (fun e => bool_decide (entry_type_str (le_type e) = ty)) (entries s)
                           else entries s
              | None => entries s
              end in
  scoped_list_ledger fuel lim t s = Some (take (Z.to_nat lim) (reverse kept)).
Proof.
  intros Hs Hfuel Hlen kept. unfold scoped_list_ledger, list_ledger.
  destruct (Z.leb_spec lim 0) as [Hl|Hl]; [by replace (Z.to_nat lim) with 0%nat by lia|].
  assert (walk_pages fuel
    (match t with Some ty => if str_true ty then [(ENTRY_TYPE_FIELD, VStr ty)] else [] | None => [] end)
    (ledger s) = Some kept) as ->.
  { destruct t as [ty|]; [destruct (str_true ty)|]; rewrite walk_ledger by done; unfold kept; f_equal.
    - apply List.filter_ext. intros e. unfold matches, getattr. simpl. by rewrite andb_true_r.
    - apply List.filter_true.
    - apply List.filter_true. }
  simpl. by rewrite reverse_last_take.
Qed.
(** [get_template] and [import_template] answer the tenant's own active
    template with that id, payload included, and [TemplateNotFoundError] exactly when
    the tenant has none; neither reads another tenant's template. *)
Theorem get_template_own id s :
  InMemory.store_ok (templates s) ->
  (forall a, dget id (templates s) <> Some (InMemory.BadRow a)) ->
  let own := Scoped.own_rows (laws := InMemory.laws) view (templates s) in
  (forall t, t ∈ own -> m_id t = Some id ->
     scoped_get_template id s = Ok (render_template t) /\
     scoped_import_template id s = Ok [("agent_payload", VDict (agent_payload t))]) /\
  ((forall t, t ∈ own -> m_id t <> Some id) ->
     scoped_get_template id s = Err (TemplateNotFoundError id) /\
     scoped_import_template id s = Err (TemplateNotFoundError id)).
Proof.
  intros Hs Hbad own. unfold scoped_import_template, import_template, scoped_get_template, get_template, stored_template.
  cbn [rp_get template_repo Scoped.repository]. unfold Scoped.get. cbn [rp_get InMemory.repository].
  assert (forall t, t ∈ own <-> m_tenant t = Some tenant_id /\ t ∈ InMemory.active_models (templates s)) as Hown.
  { intros t. unfold own. rewrite Scoped.own_rows_elem. cbn [rp_view InMemory.laws]. naive_solver. }
  split.
  - intros t [Ht Hin]%Hown Hid.
    apply InMemory.active_models_elem in Hin as (k & Hk & Ha); [|done].
    pose proof Hs as [_ Hids]. rewrite (Hids _ _ Hk) in Hid. simplify_eq.
    unfold InMemory.get. rewrite Hk, Ha. unfold Scoped.owns. by rewrite bool_decide_true.
  - intros Hnone. unfold InMemory.get. pose proof Hs as [_ Hids].
    destruct (dget id (templates s)) as [[t|a]|] eqn:Hk; [|by destruct (Hbad a)|done].
    destruct (m_active t) eqn:Ha; [|done]. unfold Scoped.owns.
    rewrite bool_decide_false; [done|]. intros Ht. destruct (Hnone t); [|by apply Hids].
    apply Hown. split; [done|]. apply InMemory.active_models_elem; eauto.
Qed.
End scoping.

(** The wallet row has one id for every tenant and [insert] has no ownership
    guard, so one tenant's [get_wallet] replaces another tenant's wallet: the other
    tenant's next read is a new wallet with balance 0 while its ledger is unchanged. *)
Theorem get_wallet_replaces_foreign A B now uuid b s w :
  A <> B ->
  dget SINGLETON_WALLET_ID (wallets s) = Some (InMemory.Row w) ->
  m_active w = true -> m_tenant w = Some A -> m_id w = Some SINGLETON_WALLET_ID ->
  balance_credits w = b ->
  (scoped_get_wallet A now uuid s).2 = Ok w /\
  let s1 := (scoped_get_wallet B now uuid s).1 in
  holds B fzero s1 /\
  exists s2 w2, scoped_get_wallet A now uuid s1 = (s2, Ok w2) /\
    balance_credits w2 = fzero /\ entries A s2 = entries A s.
Proof.
  intros HAB Hg Ha Ht Hi Hb.
  assert (forall X v (st : books), dget SINGLETON_WALLET_ID (wallets st) = Some (InMemory.Row v) ->
    m_active v = true -> m_tenant v <> Some X ->
    exists s' w', scoped_get_wallet X now uuid st = (s', Ok w') /\ ledger s' = ledger st /\
      balance_credits w' = fzero /\
      dget SINGLETON_WALLET_ID (wallets s') = Some (InMemory.Row w') /\ m_active w' = true /\
      m_tenant w' = Some X /\ m_id w' = Some SINGLETON_WALLET_ID) as Hforeign.
  { intros X v st Hv Hva Hvt. unfold scoped_get_wallet, get_wallet.
    cbn [rp_get rp_insert wallet_repo Scoped.repository]. unfold Scoped.get, Scoped.insert.
    cbn [rp_get rp_insert InMemory.repository]. unfold InMemory.get. rewrite Hv, Hva.
    unfold Scoped.owns. rewrite bool_decide_false by done. eexists _, _. split; [reflexivity|].
    cbn -[dget dset]. by rewrite dget_dset_eq. }
  split; [|cbv zeta].
  - unfold scoped_get_wallet, get_wallet. cbn [rp_get wallet_repo Scoped.repository].
    unfold Scoped.get. cbn [rp_get InMemory.repository]. unfold InMemory.get. rewrite Hg, Ha.
    unfold Scoped.owns. by rewrite bool_decide_true.
  - destruct (Hforeign B w s Hg Ha ltac:(congruence)) as (s1 & w1 & E1 & Hl1 & Hb1 & Hg1 & Ha1 & Ht1 & Hi1).
    rewrite E1. simpl. split; [right; by exists w1|].
    destruct (Hforeign A w1 s1 Hg1 Ha1 ltac:(congruence)) as (s2 & w2 & E2 & Hl2 & Hb2 & _).
    exists s2, w2. split_and!; [done..|]. unfold entries. by rewrite Hl2, Hl1.
Qed.

(** ** Concrete runs *)
Definition empty_books : books := mkStore [] [] [].
Definition credits (z : Z) : pyfloat := Fin (QArith_base.inject_Z z).
Definition two_topups : list (Z * string * TopUpRequest) :=
  [(1, "aaaaaaaaaaaaaaaa", mkTopUpRequest (credits 5) None);
   (2, "bbbbbbbbbbbbbbbb", mkTopUpRequest (credits 7) (Some "promo"))].
Definition books_after : books := (topup_all "acme" two_topups empty_books).1.
Definition wallet_after : Wallet :=
  match dget SINGLETON_WALLET_ID (wallets books_after) with
  | Some (InMemory.Row w) => w
  | _ => mkWallet (base_default 0 None) fzero ""
  end.
Definition seed_template (tenant : string) : StoredTemplate :=
  mkStoredTemplate (set_tenant (Some tenant) (base_default 0 (Some "t1"))) "t1" "Front desk" "clinic" "" ["en"] [].
Definition seeded : books := mkStore [] [] [("t1", InMemory.Row (seed_template "acme"))].

Lemma topups_balance_ledger_witness :
  exists s' r es, topup_all "acme" two_topups empty_books = (s', Ok r) /\
    entries "acme" s' = entries "acme" empty_books ++ es /\
    map amount_credits es = map event_amount two_topups /\
    Forall (fun e => le_type e = topup) es /\
    r = foldl fadd fzero (map amount_credits es) /\ holds "acme" r s'.
Proof.
  apply (topups_balance_ledger "acme" two_topups empty_books); [done|done| |].
  - apply (bool_decide_unpack (NoDup (map event_id two_topups))). vm_compute. exact I.
  - intros ev Hev. done.
Defined.

Lemma store_ok_singleton {M} `{Model M} k m : m_id m = Some k -> InMemory.store_ok [(k, InMemory.Row m)].
Proof.
  intros Hm. split; [apply NoDup_singleton|]. intros k' m'. simpl. case_decide; intros; by simplify_eq.
Qed.

Lemma list_ledger_newest_first_witness :
  scoped_list_ledger "acme" 1 1 None empty_books = Some (take 1 (reverse (entries "acme" empty_books))).
Proof.
  apply (list_ledger_newest_first "acme" 1 1 None empty_books); [|lia|done].
  split; [by apply NoDup_nil|done].
Defined.

Lemma get_template_own_witness :
  scoped_get_template "acme" "t1" seeded = Ok (render_template (seed_template "acme")).
Proof.
  apply (get_template_own "acme" "t1" seeded).
  - by apply store_ok_singleton.
  - done.
  - by apply list_elem_of_here.
  - done.
Defined.

Lemma get_wallet_replaces_foreign_witness :
  (scoped_get_wallet "acme" 3 "u" books_after).2 = Ok wallet_after /\
  let s1 := (scoped_get_wallet "rival" 3 "u" books_after).1 in
  holds "rival" fzero s1 /\
  exists s2 w2, scoped_get_wallet "acme" 3 "u" s1 = (s2, Ok w2) /\
    balance_credits w2 = fzero /\ entries "acme" s2 = entries "acme" books_after.
Proof.
  apply (get_wallet_replaces_foreign "acme" "rival" 3 "u" (credits 12) books_after wallet_after);
    [done|vm_compute; reflexivity..].
Defined.

(** The isolation theorems of the scoped view, on the in-memory wallet collection. *)
Definition acme : Scoped.view := Scoped.mkView "acme".
Definition rival : Scoped.view := Scoped.mkView "rival".
Definition one_wallet : wdocs := [(SINGLETON_WALLET_ID, InMemory.Row wallet_after)].
#[local] Existing Instances InMemory.repository InMemory.laws.

Lemma one_wallet_ok : rp_inv one_wallet.
Proof. change (InMemory.store_ok one_wallet). by apply store_ok_singleton. Qed.

Lemma scoped_reads_isolated_witness :
  Scoped.get acme SINGLETON_WALLET_ID one_wallet = Ok (Some wallet_after) /\
  wallet_after ∈ Scoped.own_rows acme one_wallet.
Proof.
  assert (Scoped.get acme SINGLETON_WALLET_ID one_wallet = Ok (Some wallet_after)) as H by (vm_compute; reflexivity).
  split; [exact H|]. exact (proj1 (Scoped.scoped_reads_isolated acme one_wallet one_wallet_ok) _ _ H).
Defined.

Lemma scoped_walk_complete_witness :
  @walk_pages Wallet wdocs (Scoped.repository acme) 1 [] one_wallet =
  Some (List.filter (fun m => matches m []) (Scoped.own_rows acme one_wallet)).
Proof.
  apply (Scoped.scoped_walk_complete acme [] one_wallet 1); [apply one_wallet_ok|done|lia|].
  vm_compute. discriminate.
Defined.

Lemma scoped_noninterference_witness :
  Scoped.list_where rival [] (mkPaginationParams 1 20) one_wallet =
  Scoped.list_where rival [] (mkPaginationParams 1 20) [].
Proof.
  apply (Scoped.scoped_noninterference rival [] (mkPaginationParams 1 20) one_wallet []);
    [apply one_wallet_ok|split; [by apply NoDup_nil|done]|vm_compute; reflexivity].
Defined.

Lemma scoped_writes_frame_witness :
  Scoped.soft_delete rival 9 None SINGLETON_WALLET_ID one_wallet =
  (one_wallet, Err (NotFoundError (Some SINGLETON_WALLET_ID))).
Proof.
  apply (proj2 (proj2 (Scoped.scoped_writes_frame rival one_wallet one_wallet_ok))
           SINGLETON_WALLET_ID (Some wallet_after)); [vm_compute; reflexivity|].
  intros m [= <-]. vm_compute. reflexivity.
Defined.

Lemma scoped_insert_replaces_foreign_witness :
  wallet_after ∉ rp_view (Scoped.insert rival "u" wallet_after one_wallet).1.
Proof.
  apply (Scoped.scoped_insert_replaces_foreign rival "u" wallet_after one_wallet wallet_after SINGLETON_WALLET_ID);
    [apply one_wallet_ok|done| |vm_compute; discriminate|vm_compute; reflexivity..].
  apply list_elem_of_here.
Defined.
End Scoping.
