(* ===== verification/History.v ===== *)
(** * Conversation history (src/voiceai/helpers/conversation_history.py)

    A message is the Python dictionary the class stores; roles are strings or
    absent. The class deep-copies between its two lists, so they never share a row
    and are values here. [update_fn], which the session passes in, is an argument. *)
From S2P Require Import Prelude PyText PyVal.

Notation msg := (dict string val).

Inductive history_error : Type := KeyError (k : string) | AttributeError | HistoryTypeError.

(** [m.get(k)] and [m.get(k, d)] *)
Definition mget (k : string) (m : msg) : val := match dget k m with Some v => v | None => VNone end.
Definition mget_or (k : string) (d : val) (m : msg) : val := match dget k m with Some v => v | None => d end.
Definition is_none (v : val) : bool := match v with VNone => true | _ => false end.

Definition SYSTEM : string := "system".
Definition USER : string := "user".
Definition ASSISTANT : string := "assistant".
Definition TOOL : string := "tool".

Definition role_is (r : string) (m : msg) : bool := val_eqb (mget "role" m) (VStr r).
(** [role in _UNHEARD_ROLES] *)
Definition unheard (m : msg) : bool := role_is ASSISTANT m || role_is TOOL m.

(** [v.strip()]: only strings have the method. *)
Definition vstrip (v : val) : result history_error string :=
  match v with VStr s => Ok (strip s) | _ => Err AttributeError end.

Definition opt_int (o : option Z) : val := match o with Some z => VInt z | None => VNone end.
Definition opt_text (o : option string) : val := match o with Some s => VStr s | None => VNone end.

Fixpoint drop_while {A} (p : A -> bool) (l : list A) : list A :=
  match l with
  | [] => []
  | x :: l' => if p x then drop_while p l' else l
  end.
Fixpoint take_while {A} (p : A -> bool) (l : list A) : list A :=
  match l with
  | [] => []
  | x :: l' => if p x then x :: take_while p l' else []
  end.

Module History.
Record history := mkHistory { messages : list msg; interim : list msg }.

Definition create (initial_history : option (list msg)) : history :=
  let ms := match initial_history with Some l => l | None => [] end in mkHistory ms ms.

Definition on_list (is_interim : bool) (f : list msg -> list msg) (h : history) : history :=
  if is_interim then mkHistory (messages h) (f (interim h)) else mkHistory (f (messages h)) (interim h).

Definition setup_system_prompt (system_prompt : msg) (h : history) : history :=
  let ms := if truthy (mget_or "content" (VStr "") system_prompt)
            then system_prompt :: messages h else messages h in
  mkHistory ms ms.

Definition append_welcome_message (content : string) (h : history) : history :=
  let ms := if str_true content
            then messages h ++ [[("role", VStr ASSISTANT); ("content", VStr content)]] else messages h in
  mkHistory ms ms.

Definition append_user (content : string) (kwargs : dict string val) (h : history) : history :=
  mkHistory (messages h ++ [dupdate [("role", VStr USER); ("content", VStr content)] kwargs]) (interim h).

(** [(last.get("content") or "").strip()] *)
Definition stripped_content (m : msg) : result history_error string :=
  let c := mget "content" m in if truthy c then vstrip c else Ok "".

Definition replace_last_user_if_prefix (new_content : option string) (asr_turn_id : val) (h : history) :
    history * result history_error bool :=
  let new_content := strip (match new_content with Some s => s | None => "" end) in
  match str_true new_content, last (messages h) with
  | true, Some l =>
      if negb (role_is USER l) then (h, Ok false)
      else if negb (is_none asr_turn_id) && negb (val_eqb (mget "asr_turn_id" l) asr_turn_id) then (h, Ok false)
      else match stripped_content l with
           | Err e => (h, Err e)
           | Ok prev =>
               if str_true prev && startswith new_content prev && negb (bool_decide (new_content = prev))
               then (mkHistory (alter (dset "content" (VStr new_content)) (length (messages h) - 1) (messages h))
                       (interim h), Ok true)
               else (h, Ok false)
           end
  | _, _ => (h, Ok false)
  end.

Definition replace_last_user (expected_content : option string) (new_content : string) (h : history) :
    history * result history_error bool :=
  match rindex (role_is USER) (messages h) with
  | None => (h, Ok false)
  | Some i =>
      match vstrip (mget_or "content" (VStr "") (default [] (messages h !! i))) with
      | Err e => (h, Err e)
      | Ok c => if bool_decide (c = strip (match expected_content with Some s => s | None => "" end))
                then (mkHistory (alter (dset "content" (VStr new_content)) i (messages h)) (interim h), Ok true)
                else (h, Ok false)
      end
  end.

Definition same_response (content : val) (kwargs : dict string val) (l : msg) : bool :=
  role_is ASSISTANT l && val_eqb (mget "content" l) content &&
  val_eqb (mget "turn_id" l) (mget "turn_id" kwargs) &&
  val_eqb (mget "response_uid" l) (mget "response_uid" kwargs).

Definition append_assistant (content : val) (tool_calls : option val) (kwargs : dict string val)
    (h : history) : history :=
  let set_calls m := match tool_calls with Some t => dset "tool_calls" t m | None => m end in
  let fresh := set_calls (dupdate [("role", VStr ASSISTANT); ("content", content)] kwargs) in
  match last (messages h) with
  | Some l => if same_response content kwargs l
              then mkHistory (alter set_calls (length (messages h) - 1) (messages h)) (interim h)
              else mkHistory (messages h ++ [fresh]) (interim h)
  | None => mkHistory (messages h ++ [fresh]) (interim h)
  end.

Definition of_turn (turn_id : Z) (m : msg) : bool :=
  role_is ASSISTANT m && val_eqb (mget "turn_id" m) (VInt turn_id).
Definition of_response (uid : string) (m : msg) : bool :=
  role_is ASSISTANT m && val_eqb (mget "response_uid" m) (VStr uid).
Definition placeholder_of_turn (turn_id : Z) (m : msg) : bool :=
  of_turn turn_id m && is_none (mget "response_uid" m).

Definition upsert_turn (turn_id : option Z) (content : val) (msgs : list msg) : list msg :=
  match match turn_id with Some t => rindex (of_turn t) msgs | None => None end with
  | Some i => alter (dset "content" content) i msgs
  | None => msgs ++ [[("role", VStr ASSISTANT); ("content", content); ("turn_id", opt_int turn_id)]]
  end.
Definition upsert_assistant_for_turn (turn_id : option Z) (content : val) (is_interim : bool) : history -> history :=
  on_list is_interim (upsert_turn turn_id content).

Definition set_response_content (content : val) (turn_id : option Z) (m : msg) : msg :=
  let m := dset "content" content m in
  match turn_id with
  | Some t => if is_none (mget "turn_id" m) then dset "turn_id" (VInt t) m else m
  | None => m
  end.
Definition response_row (response_uid : option string) (content : val) (turn_id : option Z) : msg :=
  [("role", VStr ASSISTANT); ("content", content); ("turn_id", opt_int turn_id); ("response_uid", opt_text response_uid)].

Definition upsert_response (response_uid : option string) (content : val) (turn_id : option Z)
    (msgs : list msg) : list msg :=
  match match response_uid with Some u => rindex (of_response u) msgs | None => None end with
  | Some i => alter (set_response_content content turn_id) i msgs
  | None =>
      match match turn_id with Some t => rindex (placeholder_of_turn t) msgs | None => None end with
      | Some i => alter (fun m => dset "response_uid" (opt_text response_uid) (dset "content" content m)) i msgs
      | None => msgs ++ [response_row response_uid content turn_id]
      end
  end.
Definition upsert_assistant_for_response (response_uid : option string) (content : val) (is_interim : bool)
    (turn_id : option Z) : history -> history :=
  on_list is_interim (upsert_response response_uid content turn_id).

Definition append_tool_result (tool_call_id content : string) (h : history) : history :=
  mkHistory (messages h ++ [[("role", VStr TOOL); ("tool_call_id", VStr tool_call_id); ("content", VStr content)]])
    (interim h).

Definition attach_tool_calls_to_last_response (tool_calls : val) (h : history) : history :=
  match last (messages h) with
  | Some l => if role_is ASSISTANT l
              then mkHistory (alter (dset "tool_calls" tool_calls) (length (messages h) - 1) (messages h)) (interim h)
              else append_assistant VNone (Some tool_calls) [] h
  | None => append_assistant VNone (Some tool_calls) [] h
  end.

Definition attach_tool_calls_to_turn (turn_id : option Z) (tool_calls : val) (h : history) : history :=
  match turn_id with
  | None => attach_tool_calls_to_last_response tool_calls h
  | Some t =>
      match rindex (of_turn t) (messages h) with
      | Some i => mkHistory (alter (dset "tool_calls" tool_calls) i (messages h)) (interim h)
      | None => append_assistant VNone (Some tool_calls) [("turn_id", VInt t)] h
      end
  end.

Definition update_row (i : nat) (role : string) (content : string) (h : history) : history :=
  match messages h !! i with
  | Some m => if role_is role m
              then mkHistory (alter (dset "content" (VStr content)) i (messages h)) (interim h) else h
  | None => h
  end.
Definition update_system_prompt : string -> history -> history := update_row 0 SYSTEM.
Definition update_welcome_message : string -> history -> history := update_row 1 ASSISTANT.

(** Pops from the end; the popped rows come back last row first. *)
Definition pop_unheard_responses (h : history) : history * list msg :=
  let tail := take_while unheard (reverse (messages h)) in
  (mkHistory (take (length (messages h) - length tail) (messages h)) (interim h), tail).

Definition pop_and_merge_user (new_content : string) (h : history) : history * result history_error string :=
  match last (messages h) with
  | Some l =>
      if role_is USER l
      then let h' := mkHistory (take (length (messages h) - 1) (messages h)) (interim h) in
           match dget "content" l with
           | Some (VStr s) => (h', Ok (s +:+ " " +:+ new_content))
           | Some _ => (h', Err HistoryTypeError)
           | None => (h', Err (KeyError "content"))
           end
      else (h, Ok new_content)
  | None => (h, Ok new_content)
  end.

(** *** Trimming after an interruption *)
Section trim.
Context (update_fn : val -> option string -> string).

(** The backward scan reads [msgs[i]["role"]] of every row it passes. *)
Definition trim_index (p : msg -> bool) (msgs : list msg) : result history_error (option nat) :=
  match rindex (fun m => p m || negb (dhas "role" m)) msgs with
  | None => Ok None
  | Some i => if dhas "role" (default [] (msgs !! i)) then Ok (Some i) else Err (KeyError "role")
  end.

Definition trim_assistant_at_index (msgs : list msg) (index : nat) (response_heard : option string) :
    result history_error (list msg) :=
  let m := default [] (msgs !! index) in
  match dget "content" m with
  | None => Err (KeyError "content")
  | Some VNone => Ok msgs
  | Some original =>
      let updated := update_fn original response_heard in
      if negb (str_true updated) || negb (str_true (strip updated))
      then let run := if truthy (mget "tool_calls" m) then role_is TOOL else unheard in
           Ok (take index msgs ++ drop_while run (drop (S index) msgs))
      else Ok (alter (dset "content" (VStr updated)) index msgs)
  end.

Definition trim_where (p : msg -> bool) (response_heard : option string) (msgs : list msg) :
    result history_error (list msg) :=
  match trim_index p msgs with
  | Err e => Err e
  | Ok None => Ok msgs
  | Ok (Some i) => trim_assistant_at_index msgs i response_heard
  end.

Definition trim_last_assistant : option string -> list msg -> result history_error (list msg) :=
  trim_where (role_is ASSISTANT).
Definition trim_assistant_for_turn (turn_id : option Z) (response_heard : option string) (msgs : list msg) :
    result history_error (list msg) :=
  match turn_id with None => Ok msgs | Some t => trim_where (of_turn t) response_heard msgs end.
Definition trim_assistant_for_response (response_uid : option string) (response_heard : option string)
    (msgs : list msg) : result history_error (list msg) :=
  match response_uid with None => Ok msgs | Some u => trim_where (of_response u) response_heard msgs end.

(** The six [sync_*] entry points: which list, which row. *)
Definition sync_with (is_interim : bool) (f : list msg -> result history_error (list msg)) (h : history) :
    result history_error history :=
  match f (if is_interim then interim h else messages h) with
  | Ok l => Ok (on_list is_interim (fun _ => l) h)
  | Err e => Err e
  end.
Definition sync_after_interruption heard := sync_with false (trim_last_assistant heard).
Definition sync_interim_after_interruption heard := sync_with true (trim_last_assistant heard).
Definition sync_turn_after_interruption turn heard := sync_with false (trim_assistant_for_turn turn heard).
Definition sync_interim_turn_after_interruption turn heard := sync_with true (trim_assistant_for_turn turn heard).
Definition sync_response_after_interruption uid heard := sync_with false (trim_assistant_for_response uid heard).
Definition sync_interim_response_after_interruption uid heard := sync_with true (trim_assistant_for_response uid heard).
End trim.

(** *** Reading *)
Definition last_role (h : history) : val :=
  match last (messages h) with Some m => mget "role" m | None => VNone end.
Definition last_content (h : history) : val :=
  match last (messages h) with Some m => mget "content" m | None => VNone end.
Definition last_assistant_content (h : history) : val :=
  match rindex (fun m => role_is ASSISTANT m && truthy (mget "content" m)) (messages h) with
  | Some i => mget "content" (default [] (messages h !! i))
  | None => VNone
  end.
Definition user_turn_signature (h : history) : nat * val :=
  let users := List.filter (role_is USER) (messages h) in
  (length users, match last users with Some m => mget "content" m | None => VNone end).
Definition is_duplicate_user (content : string) (h : history) : result history_error bool :=
  match last (messages h) with
  | None => Ok false
  | Some l => if role_is USER l
              then match vstrip (mget_or "content" (VStr "") l) with
                   | Ok c => Ok (bool_decide (c = strip content))
                   | Err e => Err e
                   end
              else Ok false
  end.
Definition len (h : history) : nat := length (messages h).
Definition sync_interim (ms : option (list msg)) (h : history) : history :=
  mkHistory (messages h) (match ms with Some l => l | None => messages h end).

(** *** Repairing assistant/tool pairs *)
Definition hashable (v : val) : bool := match v with VList _ | VDict _ => false | _ => true end.
Definition tool_id (m : msg) : val := mget_or "tool_call_id" (VStr "") m.
Definition has_calls (m : msg) : bool := role_is ASSISTANT m && truthy (mget "tool_calls" m).

(** [expected_ids]; a number is not iterable, a list or dict id is not hashable. *)
Definition call_id (tc : val) : list val :=
  match tc with VDict d => if truthy (mget "id" d) then [mget "id" d] else [] | _ => [] end.
Definition expected_ids (m : msg) : result history_error (list val) :=
  match mget_or "tool_calls" (VList []) m with
  | VList tcs => let ids := concat (map call_id tcs) in
                 if forallb hashable ids then Ok ids else Err HistoryTypeError
  | VStr _ | VDict _ => Ok []
  | _ => Err HistoryTypeError
  end.

(** [matched_tools]; the ids matched so far are those of [acc]. *)
Fixpoint match_tools (expected : list val) (acc : list msg) (tools : list msg) :
    result history_error (list msg) :=
  match tools with
  | [] => Ok acc
  | t :: tools' =>
      if negb (hashable (tool_id t)) then Err HistoryTypeError
      else if val_in (tool_id t) expected && negb (val_in (tool_id t) (map tool_id acc))
      then match_tools expected (acc ++ [t]) tools'
      else match_tools expected acc tools'
  end.

Definition keeps_content (m : msg) : bool :=
  match mget "content" m with VStr s => str_true (strip s) | v => truthy v end.

(** What one assistant row with tool calls and its following tool rows become,
    with the row as the repair leaves it ([msg.pop("tool_calls", None)] is in place). *)
Definition repair_group (m : msg) (tools : list msg) : msg * result history_error (list msg) :=
  match expected_ids m with
  | Err e => (m, Err e)
  | Ok ids =>
      match match_tools ids [] tools with
      | Err e => (m, Err e)
      | Ok matched =>
          if match ids with [] => false | _ => true end && forallb (fun i => val_in i (map tool_id matched)) ids
          then (m, Ok (m :: matched))
          else let m' := ddel "tool_calls" m in (m', Ok (if keeps_content m' then [m'] else []))
      end
  end.

(** The [while i < len(msgs)] loop; every pass consumes a row. The first
    component is the rows as the loop leaves them in place when it raises. *)
Fixpoint sanitize_go (fuel : nat) (msgs : list msg) : list msg * result history_error (list msg) :=
  match fuel, msgs with
  | _, [] | 0, _ => (msgs, Ok [])
  | S fuel', m :: rest =>
      let tools := if has_calls m then take_while (role_is TOOL) rest else [] in
      let rest' := if has_calls m then drop_while (role_is TOOL) rest else rest in
      let (m', kept) := if has_calls m then repair_group m tools
                        else (m, Ok (if role_is TOOL m then [] else [m])) in
      match kept with
      | Err e => (m' :: rest, Err e)
      | Ok kept =>
          let (rows, out) := sanitize_go fuel' rest' in
          (m' :: tools ++ rows, match out with Ok out => Ok (kept ++ out) | Err e => Err e end)
      end
  end.
Definition sanitize_tool_messages (msgs : list msg) : list msg * result history_error (list msg) :=
  match sanitize_go (length msgs) msgs with
  | (_, Ok out) => (out, Ok out)
  | (rows, Err e) => (rows, Err e)
  end.

(** [get_copy] repairs the stored rows, then copies those not excluded. *)
Definition get_copy (h : history) : history * result history_error (list msg) :=
  let (ms, out) := sanitize_tool_messages (messages h) in
  (mkHistory ms (interim h),
   match out with
   | Ok ms => Ok (List.filter (fun m => negb (truthy (mget "exclude_from_llm" m))) ms)
   | Err e => Err e
   end).
End History.

(** [strip_internal_keys] of src/voiceai/llms/message_models.py *)
Definition INTERNAL_MESSAGE_KEYS : list string :=
  ["turn_id"; "response_uid"; "asr_turn_id"; "sequence_id"; "message_category"; "exclude_from_llm"].
Definition strip_internal_keys (messages : list msg) : list msg :=
  map (List.filter (fun kv => negb (bool_decide (kv.1 ∈ INTERNAL_MESSAGE_KEYS)))) messages.

(** ** Lemmas on rows *)
Lemma val_eqb_str v s : val_eqb v (VStr s) = true <-> v = VStr s.
Proof. destruct v; simpl; try done. rewrite bool_decide_eq_true. split; congruence. Qed.

Lemma role_is_dset r k v m : k <> "role" -> role_is r (dset k v m) = role_is r m.
Proof. intros Hk. unfold role_is, mget. by rewrite dget_dset_ne. Qed.
Lemma role_is_ddel r k m : k <> "role" -> role_is r (ddel k m) = role_is r m.
Proof. intros Hk. unfold role_is, mget. by rewrite dget_ddel_ne. Qed.
Lemma mget_dset_ne k k' v m : k <> k' -> mget k (dset k' v m) = mget k m.
Proof. intros Hk. unfold mget. by rewrite dget_dset_ne. Qed.
Lemma mget_dset_eq k v m : mget k (dset k v m) = v.
Proof. unfold mget. by rewrite dget_dset_eq. Qed.

Lemma role_disjoint r r' m : role_is r m = true -> r <> r' -> role_is r' m = false.
Proof.
  unfold role_is. rewrite val_eqb_str. intros -> Hne. simpl. by apply bool_decide_eq_false.
Qed.

Lemma take_drop_while {A} (p : A -> bool) l : take_while p l ++ drop_while p l = l.
Proof. induction l as [|x l IH]; simpl; [done|]. destruct (p x); simpl; congruence. Qed.
Lemma take_while_all {A} (p : A -> bool) l : Forall (fun x => p x = true) (take_while p l).
Proof. induction l as [|x l IH]; simpl; [done|]. destruct (p x) eqn:E; by constructor. Qed.
Lemma drop_while_head {A} (p : A -> bool) l x l' : drop_while p l = x :: l' -> p x = false.
Proof. induction l as [|y l IH]; simpl; [done|]. destruct (p y) eqn:E; [done|]. by intros [= -> ->]. Qed.
Lemma drop_while_length {A} (p : A -> bool) l : length (drop_while p l) <= length l.
Proof. induction l as [|x l IH]; simpl; [done|]. destruct (p x); simpl; lia. Qed.
Lemma filter_drop_while {A} (p q : A -> bool) l :
  (forall x, p x = true -> q x = false) -> List.filter q (drop_while p l) = List.filter q l.
Proof.
  intros H. induction l as [|x l IH]; simpl; [done|]. destruct (p x) eqn:E; [|done]. by rewrite IH, H.
Qed.

Lemma filter_none {A} (q : A -> bool) l : Forall (fun x => q x = false) l -> List.filter q l = [].
Proof. induction 1 as [|x l Hx]; simpl; [done|]. by rewrite Hx. Qed.

Lemma filter_alter {A} (q : A -> bool) f i (l : list A) :
  (forall x, l !! i = Some x -> q x = false /\ q (f x) = false) ->
  List.filter q (alter f i l) = List.filter q l.
Proof.
  revert i. induction l as [|x l IH]; intros [|i] H; [done..| |].
  - destruct (H x eq_refl) as [H1 H2]. simpl. by rewrite H1, H2.
  - change (alter f (S i) (x :: l)) with (x :: alter f i l). simpl. by rewrite IH by apply H.
Qed.

Lemma rindex_ext {A} (p q : A -> bool) l : (forall x, p x = q x) -> rindex p l = rindex q l.
Proof. intros H. induction l as [|x l IH]; simpl; [done|]. by rewrite IH, H. Qed.

Lemma rindex_alter_same {A} (p : A -> bool) f i l :
  (forall x, p (f x) = p x) -> rindex p (alter f i l) = rindex p l.
Proof.
  intros H. revert i. induction l as [|x l IH]; intros [|i]; [done..| |].
  - simpl. by rewrite H.
  - change (alter f (S i) (x :: l)) with (x :: alter f i l). simpl. by rewrite IH.
Qed.

Lemma rindex_alter_new {A} (p : A -> bool) f i l x :
  rindex p l = None -> l !! i = Some x -> p (f x) = true -> rindex p (alter f i l) = Some i.
Proof.
  revert i. induction l as [|y l IH]; intros [|i] Hn Hl Hp; simplify_eq/=.
  - destruct (rindex p l); [done|]. by rewrite Hp.
  - destruct (rindex p l) eqn:E; [done|]. change (alter f (S i) (y :: l)) with (y :: alter f i l). simpl.
    by rewrite (IH i).
Qed.

Lemma rindex_snoc {A} (p : A -> bool) l x : p x = true -> rindex p (l ++ [x]) = Some (length l).
Proof. intros H. induction l as [|y l IH]; simpl; [by rewrite H|by rewrite IH]. Qed.

Lemma alter_alter_eq {A} (f g h : A -> A) i (l : list A) :
  (forall x, l !! i = Some x -> g (f x) = h x) -> alter g i (alter f i l) = alter h i l.
Proof.
  intros H. apply list_eq. intros j. destruct (decide (i = j)) as [<-|Hne].
  - rewrite !list_lookup_alter_eq. destruct (l !! i) as [x|] eqn:E; simpl; [|done]. by rewrite (H x).
  - by rewrite !list_lookup_alter_ne.
Qed.

Lemma dset_past {V} (k k' : string) (v w : V) d :
  k <> k' -> dhas k d = true -> dset k v (dset k' w d) = dset k' w (dset k v d).
Proof.
  unfold dhas. intros Hne. induction d as [|[k1 v1] d IH]; simpl; [done|]. intros Hd.
  destruct (decide (k' = k1)) as [->|Hk']; simpl.
  - rewrite !decide_False by done. simpl. by rewrite decide_True.
  - destruct (decide (k = k1)) as [->|Hk]; simpl; rewrite decide_False by done; [done|]. by rewrite IH.
Qed.

Lemma dset_over {V} (k k' : string) (v v' w : V) d :
  k <> k' -> dset k v (dset k' w (dset k v' d)) = dset k' w (dset k v d).
Proof.
  intros Hne. rewrite dset_past, dset_dset; [done..|]. unfold dhas. by rewrite dget_dset_eq.
Qed.

Module HistoryFacts.
Import History.

(** ** The last write of a streamed response wins *)
Lemma of_response_content u c t m : of_response u (set_response_content c t m) = of_response u m.
Proof.
  unfold of_response, set_response_content. destruct t as [t|]; [destruct (is_none _)|];
    by rewrite ?role_is_dset, ?mget_dset_ne by done.
Qed.

Lemma set_response_content_twice c1 c2 t m :
  set_response_content c2 t (set_response_content c1 t m) = set_response_content c2 t m.
Proof.
  unfold set_response_content. destruct t as [t|]; [|by rewrite dset_dset].
  rewrite !(mget_dset_ne "turn_id" "content") by done.
  destruct (is_none (mget "turn_id" m)) eqn:E.
  - rewrite mget_dset_eq. simpl. by rewrite dset_over.
  - rewrite mget_dset_ne, E by done. by rewrite dset_dset.
Qed.

Lemma placeholder_content t m c u :
  placeholder_of_turn t m = true ->
  of_response u (dset "response_uid" (VStr u) (dset "content" c m)) = true /\
  forall c', set_response_content c' (Some t) (dset "response_uid" (VStr u) (dset "content" c m)) =
             dset "response_uid" (VStr u) (dset "content" c' m).
Proof.
  unfold placeholder_of_turn, of_turn, of_response. intros [[Hr Ht]%andb_true_iff _]%andb_true_iff.
  rewrite !role_is_dset, Hr by done. rewrite mget_dset_eq. split; [simpl; by apply bool_decide_eq_true|].
  intros c'. unfold set_response_content. rewrite !mget_dset_ne by done.
  destruct (mget "turn_id" m); try done; simpl; by rewrite dset_over.
Qed.

Lemma of_response_row u c t : of_response u (response_row (Some u) c t) = true.
Proof. unfold of_response. simpl. apply bool_decide_eq_true. done. Qed.

Lemma set_response_row u c1 c2 t :
  set_response_content c2 t (response_row (Some u) c1 t) = response_row (Some u) c2 t.
Proof. by destruct t. Qed.

(** The three ways an upsert with a response id goes. *)
Lemma upsert_response_cases u c t msgs :
  (exists i, rindex (of_response u) msgs = Some i /\
     upsert_response (Some u) c t msgs = alter (set_response_content c t) i msgs) \/
  (rindex (of_response u) msgs = None /\
   ((exists i m n, t = Some n /\ rindex (placeholder_of_turn n) msgs = Some i /\ msgs !! i = Some m /\
       placeholder_of_turn n m = true /\
       upsert_response (Some u) c t msgs =
       alter (fun m => dset "response_uid" (VStr u) (dset "content" c m)) i msgs) \/
    (match t with Some n => rindex (placeholder_of_turn n) msgs | None => None end = None /\
     upsert_response (Some u) c t msgs = msgs ++ [response_row (Some u) c t]))).
Proof.
  unfold upsert_response. destruct (rindex (of_response u) msgs) as [i|]; [left; by exists i|right].
  split; [done|]. destruct t as [n|]; [|by right].
  destruct (rindex (placeholder_of_turn n) msgs) as [i|] eqn:E; [left|by right].
  destruct (rindex_Some _ _ _ E) as (m & Hm & Hp & _). by exists i, m, n.
Qed.

Definition responses (u : string) (msgs : list msg) : nat := length (List.filter (of_response u) msgs).

Lemma responses_none u msgs : rindex (of_response u) msgs = None -> responses u msgs = 0.
Proof.
  rewrite rindex_None. intros H. unfold responses. rewrite filter_none; [done|].
  by apply Forall_forall.
Qed.

Lemma responses_alter u f i msgs x : msgs !! i = Some x ->
  responses u (alter f i msgs) + (if of_response u x then 1 else 0) =
  responses u msgs + (if of_response u (f x) then 1 else 0).
Proof.
  unfold responses. revert i. induction msgs as [|y l IH]; intros [|i]; simpl; [done..| |].
  - intros [= ->]. destruct (of_response u x), (of_response u (f x)); simpl; lia.
  - intros Hx. specialize (IH i Hx). change (list_alter f i l) with (alter f i l).
    destruct (of_response u y); simpl; lia.
Qed.

(** Streaming a response into the history is last-writer-wins: committing text
    [c1] and later [c2] under one response id leaves exactly the history of committing
    [c2] once, whichever of the three branches (known id, adopted tool-call placeholder,
    new row) the first commit took; the id names one row if it named at most one before. *)
Theorem upsert_response_last_wins u c1 c2 t msgs :
  upsert_response (Some u) c2 t (upsert_response (Some u) c1 t msgs) = upsert_response (Some u) c2 t msgs /\
  (responses u msgs <= 1 -> responses u (upsert_response (Some u) c1 t msgs) = 1).
Proof.
  destruct (upsert_response_cases u c1 t msgs) as
    [(i & Hi & ->)|[Hn [(i & m & n & -> & Hi & Hm & Hp & ->)|[Ht ->]]]].
  - split.
    + unfold upsert_response. rewrite rindex_alter_same, Hi by (intros; apply of_response_content).
      apply alter_alter_eq. intros. apply set_response_content_twice.
    + destruct (rindex_Some _ _ _ Hi) as (x & Hx & Hpx & _).
      pose proof (responses_alter u (set_response_content c1 t) i msgs x Hx) as H.
      rewrite of_response_content, Hpx in H.
      assert (0 < responses u msgs); [|lia]. unfold responses.
      assert (In x (List.filter (of_response u) msgs)) as Hin.
      { apply filter_In. split; [|done]. apply list_elem_of_In. by eapply list_elem_of_lookup_2. }
      destruct (List.filter _ _); [done|simpl; lia].
  - destruct (placeholder_content n m c1 u Hp) as [Ho Hset]. split.
    + unfold upsert_response. rewrite Hn, Hi. erewrite rindex_alter_new by done.
      apply alter_alter_eq. intros x Hx. simplify_eq. apply Hset.
    + intros _. pose proof (responses_alter u (fun m => dset "response_uid" (VStr u) (dset "content" c1 m)) i msgs m Hm) as H.
      cbv beta in H. rewrite Ho, (responses_none u msgs Hn) in H.
      assert (of_response u m = false) as Hf; [|rewrite Hf in H; lia].
      rewrite rindex_None in Hn. apply Hn. by eapply list_elem_of_lookup_2.
  - split.
    + unfold upsert_response. rewrite Hn, Ht. rewrite rindex_snoc by apply of_response_row.
      rewrite <- (set_response_row u c1 c2 t).
      apply list_eq. intros j. destruct (decide (length msgs = j)) as [<-|Hne].
      * rewrite list_lookup_alter_eq, !lookup_app_r, Nat.sub_diag by lia. done.
      * rewrite list_lookup_alter_ne by done. destruct (decide (j < length msgs)).
        -- by rewrite !lookup_app_l.
        -- rewrite !lookup_ge_None_2; [done|rewrite length_app; simpl; lia..].
    + intros _. unfold responses. rewrite List.filter_app, length_app. fold (responses u msgs).
      rewrite responses_none by done. simpl. by rewrite of_response_row.
Qed.

(** ** Trimming after an interruption *)

(** Rows an interruption may never touch: the caller's and the system's. *)
Definition spoken_to (m : msg) : bool := negb (unheard m).

(** What a trim of the newest row selected by [p] may do. *)
Definition trimmed (update_fn : val -> option string -> string) (p : msg -> bool) (heard : option string)
    (msgs msgs' : list msg) : Prop :=
  msgs' = msgs \/
  exists i m original,
    rindex p msgs = Some i /\ msgs !! i = Some m /\ dget "content" m = Some original /\
    let updated := update_fn original heard in
    (str_true (strip updated) = true /\ msgs' = alter (dset "content" (VStr updated)) i msgs) \/
    exists run rest, Forall (fun r => unheard r = true) run /\
      (truthy (mget "tool_calls" m) = true -> Forall (fun r => role_is TOOL r = true) run) /\
      msgs = take i msgs ++ m :: run ++ rest /\ msgs' = take i msgs ++ rest.

Lemma strip_empty_string : strip "" = "".
Proof. reflexivity. Qed.

Lemma unheard_tool m : role_is TOOL m = true -> unheard m = true.
Proof. unfold unheard. intros ->. by rewrite orb_true_r. Qed.

Lemma trim_where_trimmed update_fn p heard msgs msgs' :
  (forall m, p m = true -> dhas "role" m = true) ->
  trim_where update_fn p heard msgs = Ok msgs' -> trimmed update_fn p heard msgs msgs'.
Proof.
  intros Hp. unfold trim_where, trim_index.
  set (q := fun m => p m || negb (dhas "role" m)).
  destruct (rindex q msgs) as [i|] eqn:E; [|intros [= <-]; by left].
  destruct (rindex_Some _ _ _ E) as (m & Hm & Hq & Hlast). rewrite Hm. simpl.
  destruct (dhas "role" m) eqn:Hrole; [|done]. unfold q in Hq. rewrite Hrole, orb_false_r in Hq.
  assert (rindex p msgs = Some i) as Hi.
  { rewrite (rindex_ext p (fun x => p x && q x)).
    - clear -E Hm Hq Hrole. revert i E Hm. induction msgs as [|x l IH]; intros i; simpl; [done|].
      destruct (rindex q l) as [j|] eqn:Ej; intros; simplify_eq/=.
      + by rewrite (IH j).
      + assert (rindex (fun x => p x && q x) l = None) as ->.
        { apply rindex_None. intros y Hy. rewrite rindex_None in Ej. by rewrite Ej, andb_false_r. }
        destruct (q x) eqn:Eq; simplify_eq. simpl in Hm. simplify_eq. by rewrite Hq.
    - intros x. unfold q. destruct (p x); done. }
  unfold trim_assistant_at_index. rewrite Hm. simpl.
  destruct (dget "content" m) as [original|] eqn:Ec; [|done].
  destruct original as [| | | | | |] eqn:Eo; [intros [= <-]; by left|..]; rewrite <- Eo in *;
  (destruct (negb (str_true (update_fn original heard)) || negb (str_true (strip (update_fn original heard)))) eqn:Eb;
    [intros [= <-]; right; exists i, m, original; split_and!; [done..|]; right;
     set (run := if truthy (mget "tool_calls" m) then role_is TOOL else unheard);
     exists (take_while run (drop (S i) msgs)), (drop_while run (drop (S i) msgs)); split_and!;
     [ eapply Forall_impl; [apply take_while_all|]; intros r Hr; unfold run in Hr;
       destruct (truthy _); [by apply unheard_tool|done]
     | intros Ht; eapply Forall_impl; [apply take_while_all|]; intros r; unfold run; by rewrite Ht
     | rewrite take_drop_while; by rewrite <- (drop_S _ _ _ Hm), take_drop
     | done ]
    |intros [= <-]; right; exists i, m, original; split_and!; [done..|]; left; split; [|done];
     apply orb_false_iff in Eb as [_ Eb]; by apply negb_false_iff in Eb ]).
Qed.

Lemma trimmed_spoken_to update_fn p heard msgs msgs' :
  (forall m, p m = true -> role_is ASSISTANT m = true) ->
  trimmed update_fn p heard msgs msgs' ->
  List.filter spoken_to msgs' = List.filter spoken_to msgs /\ length msgs' <= length msgs.
Proof.
  intros Hp [->|(i & m & o & Hi & Hm & Ho & [[_ ->]|(run & rest & Hrun & _ & Heq & ->)])]; [done| |].
  - split; [|by rewrite length_alter]. apply filter_alter. intros x Hx. simplify_eq.
    destruct (rindex_Some _ _ _ Hi) as (y & Hy & Hpy & _). simplify_eq.
    unfold spoken_to, unheard. rewrite !role_is_dset, (Hp m) by done. done.
  - assert (role_is ASSISTANT m = true) as Hr.
    { destruct (rindex_Some _ _ _ Hi) as (y & Hy & Hpy & _). simplify_eq. by apply Hp. }
    split.
    + rewrite Heq at 2. rewrite !List.filter_app. f_equal. simpl. unfold spoken_to at 2, unheard. rewrite Hr. simpl.
      rewrite List.filter_app, (filter_none _ run); [done|]. eapply Forall_impl; [done|]. intros x. unfold spoken_to. by intros ->.
    + rewrite Heq at 2. rewrite !length_app. simpl. rewrite length_app. lia.
Qed.

Lemma assistant_has_role m : role_is ASSISTANT m = true -> dhas "role" m = true.
Proof. unfold role_is, mget, dhas. destruct (dget "role" m); [done|]. by rewrite val_eqb_str. Qed.

(** An interruption trim, by response id, by turn id or of the last assistant
    row, edits the content of the newest selected assistant row or removes that row with
    the directly following tool results (and, without tool calls, assistant rows); every
    other row keeps its place, and no user or system row is ever removed or changed. *)
Theorem trim_only_unheard update_fn heard msgs msgs' :
  (forall u, trim_assistant_for_response update_fn (Some u) heard msgs = Ok msgs' ->
     trimmed update_fn (of_response u) heard msgs msgs') /\
  (forall t, trim_assistant_for_turn update_fn (Some t) heard msgs = Ok msgs' ->
     trimmed update_fn (of_turn t) heard msgs msgs') /\
  (trim_last_assistant update_fn heard msgs = Ok msgs' ->
     trimmed update_fn (role_is ASSISTANT) heard msgs msgs') /\
  (forall o t, trim_assistant_for_response update_fn o heard msgs = Ok msgs' \/
     trim_assistant_for_turn update_fn t heard msgs = Ok msgs' \/
     trim_last_assistant update_fn heard msgs = Ok msgs' ->
     List.filter spoken_to msgs' = List.filter spoken_to msgs /\ length msgs' <= length msgs).
Proof.
  assert (forall u m, of_response u m = true -> role_is ASSISTANT m = true) as H1
    by (intros u m [? _]%andb_true_iff; done).
  assert (forall t m, of_turn t m = true -> role_is ASSISTANT m = true) as H2
    by (intros t m [? _]%andb_true_iff; done).
  assert (forall u, trim_assistant_for_response update_fn (Some u) heard msgs = Ok msgs' ->
     trimmed update_fn (of_response u) heard msgs msgs') as R1
    by (intros u; apply trim_where_trimmed; eauto using assistant_has_role).
  assert (forall t, trim_assistant_for_turn update_fn (Some t) heard msgs = Ok msgs' ->
     trimmed update_fn (of_turn t) heard msgs msgs') as R2
    by (intros t; apply trim_where_trimmed; eauto using assistant_has_role).
  assert (trim_last_assistant update_fn heard msgs = Ok msgs' ->
     trimmed update_fn (role_is ASSISTANT) heard msgs msgs') as R3
    by (apply trim_where_trimmed; eauto using assistant_has_role).
  split_and!; [done..|]. intros [u|] [t|] [H|[H|H]]; simpl in H; simplify_eq; try done;
    eauto using trimmed_spoken_to.
Qed.

(** ** Repairing assistant/tool pairs *)
Definition answered_once (ids : list val) (tools : list msg) : Prop :=
  forallb (fun i => val_in i (map tool_id tools)) ids = true /\
  forall l1 t l2, tools = l1 ++ t :: l2 ->
    hashable (tool_id t) = true /\ val_in (tool_id t) ids = true /\
    val_in (tool_id t) (map tool_id l1) = false.

(** The shape chat-completion providers require. *)
Inductive well_paired : list msg -> Prop :=
| wp_nil : well_paired []
| wp_plain m rest : has_calls m = false -> role_is TOOL m = false ->
    well_paired rest -> well_paired (m :: rest)
| wp_group m ids tools rest : has_calls m = true -> expected_ids m = Ok ids -> ids <> [] ->
    Forall (fun t => role_is TOOL t = true) tools -> answered_once ids tools ->
    well_paired rest -> well_paired (m :: tools ++ rest).

Lemma match_tools_sound e tools : forall acc out,
  match_tools e acc tools = Ok out ->
  exists added, out = acc ++ added /\ sublist added tools /\
    forall l1 t l2, added = l1 ++ t :: l2 ->
      hashable (tool_id t) = true /\ val_in (tool_id t) e = true /\
      val_in (tool_id t) (map tool_id (acc ++ l1)) = false.
Proof.
  induction tools as [|t tools IH]; intros acc out; simpl.
  - intros [= <-]. exists []. rewrite app_nil_r. split_and!; [done..|]. by intros [].
  - destruct (hashable (tool_id t)) eqn:Hh; [simpl|done].
    destruct (val_in (tool_id t) e && negb (val_in (tool_id t) (map tool_id acc))) eqn:E; intros H.
    + destruct (IH _ _ H) as (added & -> & Hsub & Hall). exists (t :: added).
      rewrite <- app_assoc. split_and!; [done|by apply sublist_skip|].
      apply andb_true_iff in E as [Ein Enot%negb_true_iff].
      intros [|x l1] t' l2; intros; simplify_eq/=; [by rewrite app_nil_r|].
      specialize (Hall l1 t' l2 eq_refl). by rewrite <- app_assoc in Hall.
    + destruct (IH _ _ H) as (added & -> & Hsub & Hall). exists added.
      split_and!; [done|by apply sublist_cons|done].
Qed.

Lemma match_tools_complete e tools : forall acc,
  (forall l1 t l2, tools = l1 ++ t :: l2 ->
     hashable (tool_id t) = true /\ val_in (tool_id t) e = true /\
     val_in (tool_id t) (map tool_id (acc ++ l1)) = false) ->
  match_tools e acc tools = Ok (acc ++ tools).
Proof.
  induction tools as [|t tools IH]; intros acc H; simpl; [by rewrite app_nil_r|].
  destruct (H [] t tools eq_refl) as (-> & -> & Hn). rewrite app_nil_r in Hn. rewrite Hn. simpl.
  rewrite IH; [by rewrite <- app_assoc|]. intros l1 t' l2 ->.
  rewrite <- app_assoc. apply (H (t :: l1) t' l2). done.
Qed.

Lemma wp_head m rest : well_paired (m :: rest) -> role_is TOOL m = false.
Proof.
  inversion 1; [done|]. apply andb_true_iff in H2 as [Ha _]. by eapply role_disjoint.
Qed.

Lemma take_drop_group tools rest :
  Forall (fun t => role_is TOOL t = true) tools -> well_paired rest ->
  take_while (role_is TOOL) (tools ++ rest) = tools /\ drop_while (role_is TOOL) (tools ++ rest) = rest.
Proof.
  intros Ht Hr. induction Ht as [|t tools Hx _ [IH1 IH2]]; simpl.
  - destruct rest as [|m rest]; [done|]. simpl. by rewrite (wp_head m rest).
  - rewrite Hx, IH1, IH2. done.
Qed.

Lemma has_calls_not_tool m : has_calls m = true -> role_is TOOL m = false.
Proof. intros [Ha _]%andb_true_iff. by eapply role_disjoint. Qed.

(** A well-paired history is left as it is. *)
Lemma sanitize_well_paired msgs : well_paired msgs ->
  forall fuel, length msgs <= fuel -> sanitize_go fuel msgs = (msgs, Ok msgs).
Proof.
  induction 1 as [|m rest Hc Ht Hr IH|m ids tools rest Hc He Hne Ht Ha Hr IH]; intros [|fuel]; try (simpl; done); try (simpl; lia); cbn [sanitize_go length].
  - intros Hf. rewrite Hc, Ht, IH by lia. done.
  - intros Hf. rewrite length_app in Hf. destruct (take_drop_group tools rest Ht Hr) as [-> ->].
    rewrite Hc. unfold repair_group. rewrite He, (match_tools_complete ids tools []) by apply Ha. simpl.
    destruct Ha as [-> _]. destruct ids; [done|]. simpl. rewrite IH by lia. done.
Qed.

Lemma ddel_no_calls m : dwf m -> has_calls (ddel "tool_calls" m) = false.
Proof.
  intros Hm. unfold has_calls, mget at 1. rewrite dget_ddel_eq by done. by rewrite andb_false_r.
Qed.

Lemma repair_group_spec m tools m' kept :
  dwf m -> has_calls m = true -> Forall (fun t => role_is TOOL t = true) tools ->
  repair_group m tools = (m', Ok kept) ->
  List.filter spoken_to kept = [] /\ forall out, well_paired out -> well_paired (kept ++ out).
Proof.
  intros Hm Hc Ht. pose proof Hc as [Ha _]%andb_true_iff. unfold repair_group.
  destruct (expected_ids m) as [ids|] eqn:Ei; [|done].
  destruct (match_tools ids [] tools) as [matched|] eqn:Em; [|done].
  destruct (match_tools_sound _ _ _ _ Em) as (added & -> & Hsub & Hall).
  assert (Forall (fun t => role_is TOOL t = true) added) as Hadd.
  { rewrite Forall_forall in Ht |- *. intros t Hin. apply Ht. by eapply elem_of_sublist. }
  destruct (_ && _) eqn:E; intros [= <- <-].
  - apply andb_true_iff in E as [E1 E2]. split.
    + simpl. unfold spoken_to at 1, unheard. rewrite Ha. simpl. apply filter_none.
      eapply Forall_impl; [done|]. intros t Htt. unfold spoken_to. by rewrite unheard_tool.
    + intros out Hout. simpl. apply (wp_group m ids); [done|done|by intros ->|done|by split|done].
  - destruct (keeps_content _); [|done]. split.
    + simpl. unfold spoken_to, unheard. rewrite !role_is_ddel, Ha by done. done.
    + intros out Hout. simpl. apply wp_plain; [by apply ddel_no_calls| |done].
      rewrite role_is_ddel by done. by apply has_calls_not_tool.
Qed.

Lemma sanitize_go_spec fuel : forall msgs rows out,
  length msgs <= fuel -> Forall dwf msgs -> sanitize_go fuel msgs = (rows, Ok out) ->
  well_paired out /\ List.filter spoken_to out = List.filter spoken_to msgs.
Proof.
  induction fuel as [|fuel IH]; intros [|m rest] rows out Hf Hd; cbn [sanitize_go length] in *; try lia;
    try (intros [= <- <-]; by split; [constructor|]).
  apply Forall_cons in Hd as [Hm Hd]. destruct (has_calls m) eqn:Hc.
  - destruct (repair_group m _) as [m' [kept|e]] eqn:Er; [|done].
    destruct (sanitize_go fuel _) as [rows' [out'|]] eqn:Es; [|done]. intros [= <- <-].
    destruct (repair_group_spec _ _ _ _ Hm Hc (take_while_all _ _) Er) as [Hk Hw].
    destruct (IH (drop_while (role_is TOOL) rest) rows' out') as [Hp Hs]; [|by rewrite <- (take_drop_while (role_is TOOL)) in Hd; apply Forall_app in Hd as [_ ?]|done|].
    { pose proof (drop_while_length (role_is TOOL) rest). lia. }
    split; [by apply Hw|]. rewrite List.filter_app, Hk, Hs. simpl.
    unfold spoken_to at 2, unheard. pose proof Hc as [-> _]%andb_true_iff. simpl.
    apply filter_drop_while. intros x Hx. unfold spoken_to. by rewrite unheard_tool.
  - destruct (sanitize_go fuel rest) as [rows' [out'|]] eqn:Es; [|done]. intros [= <- <-].
    destruct (IH rest rows' out') as [Hp Hs]; [lia|done|done|]. rewrite List.filter_app, Hs.
    destruct (role_is TOOL m) eqn:Ht; simpl.
    + split; [done|]. assert (spoken_to m = false) as ->; [|done]. unfold spoken_to. by rewrite unheard_tool.
    + split; [by apply wp_plain|]. by destruct (spoken_to m).
Qed.

(** Rows whose ids can be compared and whose tool calls are a list. *)
Definition comparable (m : msg) : Prop :=
  hashable (tool_id m) = true /\
  match dget "tool_calls" m with
  | Some (VList tcs) => forallb hashable (concat (map call_id tcs)) = true
  | Some v => truthy v = false
  | None => True
  end.

Lemma match_tools_total e tools : forall acc,
  Forall comparable tools -> exists out, match_tools e acc tools = Ok out.
Proof.
  induction tools as [|t tools IH]; intros acc Ht; simpl; [by eexists|].
  apply Forall_cons in Ht as [[-> _] Ht]. simpl. destruct (_ && _); by apply IH.
Qed.

Lemma sanitize_total fuel : forall msgs, Forall comparable msgs ->
  exists rows out, sanitize_go fuel msgs = (rows, Ok out).
Proof.
  induction fuel as [|fuel IH]; intros [|m rest] Hd; cbn [sanitize_go]; try by eexists _, _.
  apply Forall_cons in Hd as [Hm Hd]. destruct (has_calls m) eqn:Hc.
  - pose proof Hd as Hd'. rewrite <- (take_drop_while (role_is TOOL) rest) in Hd'.
    apply Forall_app in Hd' as [Ht Hr]. destruct (IH _ Hr) as (rows & out & ->). unfold repair_group.
    assert (exists ids, expected_ids m = Ok ids) as [ids ->].
    { unfold expected_ids, mget_or. apply andb_true_iff in Hc as [_ Hc]. destruct Hm as [_ Hm].
      unfold mget in Hc. destruct (dget "tool_calls" m) as [[]|]; simpl in *; try congruence.
      rewrite Hm. by eexists. }
    destruct (match_tools_total ids _ [] Ht) as [matched ->]. destruct (_ && _); by eexists _, _.
  - destruct (IH _ Hd) as (rows & out & ->). by eexists _, _.
Qed.

(** C32: Preparing a copy for the model provider repairs the stored rows into a
    well-paired history (every assistant row with tool calls is followed by exactly one
    result per call id, and no other tool row exists), keeps every user and system row in
    order, changes nothing when done again, and never raises on comparable ids. *)
Theorem get_copy_well_paired h :
  Forall dwf (messages h) ->
  (forall h' out, get_copy h = (h', Ok out) ->
     well_paired (messages h') /\
     List.filter spoken_to (messages h') = List.filter spoken_to (messages h) /\
     interim h' = interim h /\ get_copy h' = (h', Ok out)) /\
  (Forall comparable (messages h) -> exists h' out, get_copy h = (h', Ok out)).
Proof.
  intros Hd. split.
  - intros h' out. unfold get_copy, sanitize_tool_messages.
    destruct (sanitize_go _ _) as [rows [ms|]] eqn:E; [|done]. intros [= <- <-]. simpl.
    destruct (sanitize_go_spec _ _ _ _ (le_n _) Hd E) as [Hw Hs].
    split_and!; [done..|]. by rewrite sanitize_well_paired.
  - intros Hc. unfold get_copy, sanitize_tool_messages.
    destruct (sanitize_total (length (messages h)) _ Hc) as (rows & out & ->). by eexists _, _.
Qed.

(** ** The user-turn signature *)
Lemma spoken_users msgs msgs' :
  List.filter spoken_to msgs' = List.filter spoken_to msgs ->
  List.filter (role_is USER) msgs' = List.filter (role_is USER) msgs.
Proof.
  assert (forall l, List.filter (role_is USER) (List.filter spoken_to l) = List.filter (role_is USER) l) as H.
  { induction l as [|m l IH]; simpl; [done|]. destruct (role_is USER m) eqn:E.
    - assert (spoken_to m = true) as ->; [|simpl; by rewrite E, IH].
      unfold spoken_to, unheard. by rewrite !(role_disjoint USER _ m E).
    - destruct (spoken_to m); simpl; rewrite ?E; done. }
  intros Heq. by rewrite <- (H msgs'), Heq.
Qed.

Lemma signature_users h h' :
  List.filter (role_is USER) (messages h') = List.filter (role_is USER) (messages h) ->
  user_turn_signature h' = user_turn_signature h.
Proof. unfold user_turn_signature. by intros ->. Qed.

Lemma users_alter f i msgs m :
  msgs !! i = Some m -> role_is USER m = false -> (forall x, role_is USER (f x) = role_is USER x) ->
  List.filter (role_is USER) (alter f i msgs) = List.filter (role_is USER) msgs.
Proof. intros Hm Hr Hf. apply filter_alter. intros x Hx. simplify_eq. by rewrite Hf. Qed.

Lemma users_snoc msgs m : role_is USER m = false ->
  List.filter (role_is USER) (msgs ++ [m]) = List.filter (role_is USER) msgs.
Proof. intros Hm. rewrite List.filter_app. simpl. by rewrite Hm, app_nil_r. Qed.

Lemma rindex_assistant p msgs i : (forall m, p m = true -> role_is ASSISTANT m = true) ->
  rindex p msgs = Some i -> exists m, msgs !! i = Some m /\ role_is USER m = false.
Proof.
  intros Hp (m & Hm & Hpm & _)%rindex_Some. exists m. split; [done|].
  eapply role_disjoint; [by apply Hp|done].
Qed.

Lemma role_dupdate kw : forall base r, dget "role" kw = None ->
  role_is r (dupdate base kw) = role_is r base.
Proof.
  unfold dupdate. induction kw as [|[k v] kw IH]; intros base r Hk; [done|].
  simpl in *. destruct (decide ("role" = k)) as [|Hne]; [done|]. rewrite IH by done.
  by apply role_is_dset.
Qed.

Lemma users_upsert_response u c t msgs :
  List.filter (role_is USER) (upsert_response u c t msgs) = List.filter (role_is USER) msgs.
Proof.
  unfold upsert_response. destruct (match u with Some _ => _ | None => None end) as [i|] eqn:E.
  - destruct u as [u|]; [|done]. apply (rindex_assistant (of_response u)) in E as (m & Hm & Hr);
      [|intros ? [? _]%andb_true_iff; done].
    apply (users_alter _ _ _ m Hm Hr). intros x. unfold set_response_content.
    destruct t; [destruct (is_none _)|]; by rewrite !role_is_dset.
  - destruct (match t with Some _ => _ | None => None end) as [i|] eqn:E2.
    + destruct t as [n|]; [|done]. apply (rindex_assistant (placeholder_of_turn n)) in E2 as (m & Hm & Hr);
        [|intros ? [[? _]%andb_true_iff _]%andb_true_iff; done].
      apply (users_alter _ _ _ m Hm Hr). intros x. by rewrite !role_is_dset.
    + by apply users_snoc.
Qed.

Lemma users_upsert_turn t c msgs :
  List.filter (role_is USER) (upsert_turn t c msgs) = List.filter (role_is USER) msgs.
Proof.
  unfold upsert_turn. destruct (match t with Some _ => _ | None => None end) as [i|] eqn:E.
  - destruct t as [n|]; [|done]. apply (rindex_assistant (of_turn n)) in E as (m & Hm & Hr);
      [|intros ? [? _]%andb_true_iff; done].
    apply (users_alter _ _ _ m Hm Hr). intros x. by rewrite role_is_dset.
  - by apply users_snoc.
Qed.

Lemma last_lookup {A} (l : list A) x : last l = Some x -> l !! (length l - 1) = Some x.
Proof. rewrite last_lookup. by replace (Init.Nat.pred (length l)) with (length l - 1) by lia. Qed.

Lemma users_append_assistant c tc kw h : dget "role" kw = None ->
  List.filter (role_is USER) (messages (append_assistant c tc kw h)) = List.filter (role_is USER) (messages h).
Proof.
  intros Hk. unfold append_assistant.
  assert (forall base, role_is USER (match tc with Some t => dset "tool_calls" t base | None => base end)
                       = role_is USER base) as Htc by (intros; destruct tc; by rewrite ?role_is_dset).
  assert (role_is USER (match tc with Some t => dset "tool_calls" t
      (dupdate [("role", VStr ASSISTANT); ("content", c)] kw)
    | None => dupdate [("role", VStr ASSISTANT); ("content", c)] kw end) = false) as Hf
    by (rewrite Htc, role_dupdate; done).
  destruct (last (messages h)) as [l|] eqn:El; [destruct (same_response c kw l) eqn:Es|];
    cbn [messages]; [|by apply users_snoc..].
  apply (users_alter _ _ _ l); [by apply last_lookup| |done].
  unfold same_response in Es. repeat (apply andb_true_iff in Es as [Es _]). by eapply role_disjoint.
Qed.

Lemma users_attach t tc h :
  List.filter (role_is USER) (messages (attach_tool_calls_to_turn t tc h)) = List.filter (role_is USER) (messages h).
Proof.
  destruct t as [n|]; simpl.
  - destruct (rindex (of_turn n) (messages h)) as [i|] eqn:E; [|by apply users_append_assistant].
    apply (rindex_assistant (of_turn n)) in E as (m & Hm & Hr); [|intros ? [? _]%andb_true_iff; done].
    apply (users_alter _ _ _ m Hm Hr). intros x. by rewrite role_is_dset.
  - unfold attach_tool_calls_to_last_response.
    destruct (last (messages h)) as [l|] eqn:El; [destruct (role_is ASSISTANT l) eqn:Es|];
      [|by apply users_append_assistant..].
    apply (users_alter _ _ _ l); [by apply last_lookup|by eapply role_disjoint|].
    intros x. by rewrite role_is_dset.
Qed.

(** [user_turn_signature] changes when a user turn is appended and never on an
    assistant commit, a tool result, a tool-call attachment, a repair for the provider or
    an interruption trim, so an unchanged signature means that no user turn arrived. *)
Theorem signature_only_user_turns update_fn h :
  (forall u c t, user_turn_signature (upsert_assistant_for_response u c false t h) = user_turn_signature h) /\
  (forall t c, user_turn_signature (upsert_assistant_for_turn t c false h) = user_turn_signature h) /\
  (forall c tc kw, dget "role" kw = None ->
     user_turn_signature (append_assistant c tc kw h) = user_turn_signature h) /\
  (forall i c, user_turn_signature (append_tool_result i c h) = user_turn_signature h) /\
  (forall t tc, user_turn_signature (attach_tool_calls_to_turn t tc h) = user_turn_signature h) /\
  (forall heard u h', sync_response_after_interruption update_fn u heard h = Ok h' ->
     user_turn_signature h' = user_turn_signature h) /\
  (forall h' out, Forall dwf (messages h) -> get_copy h = (h', Ok out) ->
     user_turn_signature h' = user_turn_signature h) /\
  (forall c kw, dget "role" kw = None -> dget "content" kw = None ->
     user_turn_signature (append_user c kw h) = (S (user_turn_signature h).1, VStr c)).
Proof.
  split_and!.
  - intros. apply signature_users. apply users_upsert_response.
  - intros. apply signature_users. apply users_upsert_turn.
  - intros. apply signature_users. by apply users_append_assistant.
  - intros. apply signature_users. by apply users_snoc.
  - intros. apply signature_users. apply users_attach.
  - intros heard u h' H. apply signature_users, spoken_users.
    unfold sync_response_after_interruption, sync_with, trim_assistant_for_response in H.
    destruct u as [u|]; simpl in H; [|by simplify_eq].
    destruct (trim_where _ _ _ _) as [l|] eqn:E; [|done]. simplify_eq. simpl.
    assert (forall m, of_response u m = true -> role_is ASSISTANT m = true) as Hr
      by (intros m [? _]%andb_true_iff; done).
    apply trim_where_trimmed in E; [|eauto using assistant_has_role].
    by apply (trimmed_spoken_to _ _ _ _ _ Hr E).
  - intros h' out Hd H. apply signature_users, spoken_users. revert H.
    unfold get_copy, sanitize_tool_messages. destruct (sanitize_go _ _) as [rows [ms|]] eqn:E; [|done].
    intros [= <- <-]. by apply (sanitize_go_spec _ _ _ _ (le_n _) Hd E).
  - intros c kw Hr Hc. unfold user_turn_signature, append_user. cbn [messages].
    rewrite List.filter_app. simpl. rewrite role_dupdate by done.
    replace (role_is USER [("role", VStr USER); ("content", VStr c)]) with true by done.
    rewrite length_app, last_snoc. f_equal; [simpl; lia|].
    assert (forall kw base, dget "content" kw = None -> mget "content" (dupdate base kw) = mget "content" base) as Hcont.
    { clear. unfold dupdate. induction kw as [|[k v] kw IH]; intros base H; [done|]. simpl in *.
      destruct (decide ("content" = k)); [done|]. rewrite IH by done. by apply mget_dset_ne. }
    by rewrite Hcont.
Qed.

(** ** Concrete runs *)
Definition call_row (id : string) : msg :=
  [("role", VStr ASSISTANT); ("content", VNone); ("tool_calls", VList [VDict [("id", VStr id)]])].
Definition user_row (text : string) : msg := [("role", VStr USER); ("content", VStr text)].
Definition reply_row (uid text : string) : msg :=
  [("role", VStr ASSISTANT); ("content", VStr text); ("response_uid", VStr uid)].
Definition result_row (id : string) : msg :=
  [("role", VStr TOOL); ("tool_call_id", VStr id); ("content", VStr "ok")].
Definition interrupted_call : history :=
  mkHistory [user_row "hi"; call_row "c1"; result_row "c1"; call_row "c2"; result_row "c9"; reply_row "r1" "sure"] [].

Lemma upsert_response_last_wins_witness :
  responses "r1" (upsert_response (Some "r1") (VStr "sure thing") None (messages interrupted_call)) = 1.
Proof. apply (upsert_response_last_wins "r1" (VStr "sure thing") VNone None (messages interrupted_call)). vm_compute. lia. Defined.

Lemma trim_only_unheard_witness :
  List.filter spoken_to [user_row "hi"; call_row "c1"; result_row "c1"; call_row "c2"; result_row "c9"] =
  List.filter spoken_to (messages interrupted_call).
Proof.
  apply (proj2 (proj2 (proj2 (trim_only_unheard (fun _ _ => "") None (messages interrupted_call)
    [user_row "hi"; call_row "c1"; result_row "c1"; call_row "c2"; result_row "c9"]))) (Some "r1") None).
  left. vm_compute. reflexivity.
Defined.

Lemma interrupted_call_wf : Forall dwf (messages interrupted_call).
Proof.
  unfold dwf. apply (bool_decide_unpack (Forall (fun m => NoDup (dkeys m)) (messages interrupted_call))).
  vm_compute. exact I.
Qed.

Lemma get_copy_well_paired_witness :
  well_paired [user_row "hi"; call_row "c1"; result_row "c1"; reply_row "r1" "sure"].
Proof.
  apply (proj1 (get_copy_well_paired interrupted_call interrupted_call_wf)
    (mkHistory [user_row "hi"; call_row "c1"; result_row "c1"; reply_row "r1" "sure"] [])
    [user_row "hi"; call_row "c1"; result_row "c1"; reply_row "r1" "sure"]).
  vm_compute. reflexivity.
Defined.

Lemma signature_only_user_turns_witness :
  user_turn_signature (append_user "bye" [] interrupted_call) = (2, VStr "bye").
Proof. apply (signature_only_user_turns (fun _ _ => "") interrupted_call); done. Defined.
End HistoryFacts.
