(* ===== verification/Marks.v ===== *)
(** * Playback marks (src/voiceai/helpers/mark_event_meta_data.py)

    A mark dictionary is shared by [mark_event_meta_data] (pending marks) and
    [_mark_history], and mutated through the first: marks live in a store of
    objects, both maps hold references. A key that may be missing is an [option]
    field. [time.time()] is an argument; times are exact rationals in seconds. *)
From S2P Require Import Prelude PyText PyVal.
From Stdlib Require Import QArith.QArith Lqa.
Close Scope Q_scope.
Open Scope Z_scope.

Definition IS_USER_ONLINE_MESSAGE : string := "is_user_online_message".
Definition PRE_MARK : string := "pre_mark_message".
Definition HIGH_DELAY_THRESHOLD : Q := Qmake 2 1.

Module Marks.
Record mark := mkMark {
  mk_type : option string;
  mk_sequence_id : option Z;
  mk_turn_id : option Z;
  mk_response_uid : option string;
  mk_text_synthesized : option string;
  mk_is_first_chunk : option bool;
  mk_is_final_chunk : option bool;
  mk_sent_ts : option Q;
  mk_duration : option Q;
  mk_counter : option Z;
  mk_acked : option bool;
  mk_ack_ts : option Q;
  mk_cleared : bool;
  mk_cleared_on_interrupt : bool }.

Definition set_mk_type (v : option string) (m : mark) : mark :=
  mkMark v (mk_sequence_id m) (mk_turn_id m) (mk_response_uid m) (mk_text_synthesized m) (mk_is_first_chunk m)
    (mk_is_final_chunk m) (mk_sent_ts m) (mk_duration m) (mk_counter m) (mk_acked m) (mk_ack_ts m) (mk_cleared m)
    (mk_cleared_on_interrupt m).
Definition set_mk_sequence_id (v : option Z) (m : mark) : mark :=
  mkMark (mk_type m) v (mk_turn_id m) (mk_response_uid m) (mk_text_synthesized m) (mk_is_first_chunk m)
    (mk_is_final_chunk m) (mk_sent_ts m) (mk_duration m) (mk_counter m) (mk_acked m) (mk_ack_ts m) (mk_cleared m)
    (mk_cleared_on_interrupt m).
Definition set_mk_turn_id (v : option Z) (m : mark) : mark :=
  mkMark (mk_type m) (mk_sequence_id m) v (mk_response_uid m) (mk_text_synthesized m) (mk_is_first_chunk m)
    (mk_is_final_chunk m) (mk_sent_ts m) (mk_duration m) (mk_counter m) (mk_acked m) (mk_ack_ts m) (mk_cleared m)
    (mk_cleared_on_interrupt m).
Definition set_mk_response_uid (v : option string) (m : mark) : mark :=
  mkMark (mk_type m) (mk_sequence_id m) (mk_turn_id m) v (mk_text_synthesized m) (mk_is_first_chunk m)
    (mk_is_final_chunk m) (mk_sent_ts m) (mk_duration m) (mk_counter m) (mk_acked m) (mk_ack_ts m) (mk_cleared m)
    (mk_cleared_on_interrupt m).
Definition set_mk_text_synthesized (v : option string) (m : mark) : mark :=
  mkMark (mk_type m) (mk_sequence_id m) (mk_turn_id m) (mk_response_uid m) v (mk_is_first_chunk m) (mk_is_final_chunk
    m) (mk_sent_ts m) (mk_duration m) (mk_counter m) (mk_acked m) (mk_ack_ts m) (mk_cleared m)
    (mk_cleared_on_interrupt m).
Definition set_mk_is_first_chunk (v : option bool) (m : mark) : mark :=
  mkMark (mk_type m) (mk_sequence_id m) (mk_turn_id m) (mk_response_uid m) (mk_text_synthesized m) v
    (mk_is_final_chunk m) (mk_sent_ts m) (mk_duration m) (mk_counter m) (mk_acked m) (mk_ack_ts m) (mk_cleared m)
    (mk_cleared_on_interrupt m).
Definition set_mk_is_final_chunk (v : option bool) (m : mark) : mark :=
  mkMark (mk_type m) (mk_sequence_id m) (mk_turn_id m) (mk_response_uid m) (mk_text_synthesized m) (mk_is_first_chunk
    m) v (mk_sent_ts m) (mk_duration m) (mk_counter m) (mk_acked m) (mk_ack_ts m) (mk_cleared m)
    (mk_cleared_on_interrupt m).
Definition set_mk_sent_ts (v : option Q) (m : mark) : mark :=
  mkMark (mk_type m) (mk_sequence_id m) (mk_turn_id m) (mk_response_uid m) (mk_text_synthesized m) (mk_is_first_chunk
    m) (mk_is_final_chunk m) v (mk_duration m) (mk_counter m) (mk_acked m) (mk_ack_ts m) (mk_cleared m)
    (mk_cleared_on_interrupt m).
Definition set_mk_duration (v : option Q) (m : mark) : mark :=
  mkMark (mk_type m) (mk_sequence_id m) (mk_turn_id m) (mk_response_uid m) (mk_text_synthesized m) (mk_is_first_chunk
    m) (mk_is_final_chunk m) (mk_sent_ts m) v (mk_counter m) (mk_acked m) (mk_ack_ts m) (mk_cleared m)
    (mk_cleared_on_interrupt m).
Definition set_mk_counter (v : option Z) (m : mark) : mark :=
  mkMark (mk_type m) (mk_sequence_id m) (mk_turn_id m) (mk_response_uid m) (mk_text_synthesized m) (mk_is_first_chunk
    m) (mk_is_final_chunk m) (mk_sent_ts m) (mk_duration m) v (mk_acked m) (mk_ack_ts m) (mk_cleared m)
    (mk_cleared_on_interrupt m).
Definition set_mk_acked (v : option bool) (m : mark) : mark :=
  mkMark (mk_type m) (mk_sequence_id m) (mk_turn_id m) (mk_response_uid m) (mk_text_synthesized m) (mk_is_first_chunk
    m) (mk_is_final_chunk m) (mk_sent_ts m) (mk_duration m) (mk_counter m) v (mk_ack_ts m) (mk_cleared m)
    (mk_cleared_on_interrupt m).
Definition set_mk_ack_ts (v : option Q) (m : mark) : mark :=
  mkMark (mk_type m) (mk_sequence_id m) (mk_turn_id m) (mk_response_uid m) (mk_text_synthesized m) (mk_is_first_chunk
    m) (mk_is_final_chunk m) (mk_sent_ts m) (mk_duration m) (mk_counter m) (mk_acked m) v (mk_cleared m)
    (mk_cleared_on_interrupt m).
Definition set_mk_cleared (v : bool) (m : mark) : mark :=
  mkMark (mk_type m) (mk_sequence_id m) (mk_turn_id m) (mk_response_uid m) (mk_text_synthesized m) (mk_is_first_chunk
    m) (mk_is_final_chunk m) (mk_sent_ts m) (mk_duration m) (mk_counter m) (mk_acked m) (mk_ack_ts m) v
    (mk_cleared_on_interrupt m).
Definition set_mk_cleared_on_interrupt (v : bool) (m : mark) : mark :=
  mkMark (mk_type m) (mk_sequence_id m) (mk_turn_id m) (mk_response_uid m) (mk_text_synthesized m) (mk_is_first_chunk
    m) (mk_is_final_chunk m) (mk_sent_ts m) (mk_duration m) (mk_counter m) (mk_acked m) (mk_ack_ts m) (mk_cleared m)
    v.
Record SequenceStats := mkSequenceStats {
  sq_sent : Z;
  sq_acked : Z;
  sq_delays : list Q;
  sq_interrupted : bool;
  sq_first_sent_ts : option Q;
  sq_last_sent_ts : option Q;
  sq_total_audio_duration : Q;
  sq_turn_id : option Z }.

Definition set_sq_sent (v : Z) (m : SequenceStats) : SequenceStats :=
  mkSequenceStats v (sq_acked m) (sq_delays m) (sq_interrupted m) (sq_first_sent_ts m) (sq_last_sent_ts m)
    (sq_total_audio_duration m) (sq_turn_id m).
Definition set_sq_acked (v : Z) (m : SequenceStats) : SequenceStats :=
  mkSequenceStats (sq_sent m) v (sq_delays m) (sq_interrupted m) (sq_first_sent_ts m) (sq_last_sent_ts m)
    (sq_total_audio_duration m) (sq_turn_id m).
Definition set_sq_delays (v : list Q) (m : SequenceStats) : SequenceStats :=
  mkSequenceStats (sq_sent m) (sq_acked m) v (sq_interrupted m) (sq_first_sent_ts m) (sq_last_sent_ts m)
    (sq_total_audio_duration m) (sq_turn_id m).
Definition set_sq_interrupted (v : bool) (m : SequenceStats) : SequenceStats :=
  mkSequenceStats (sq_sent m) (sq_acked m) (sq_delays m) v (sq_first_sent_ts m) (sq_last_sent_ts m)
    (sq_total_audio_duration m) (sq_turn_id m).
Definition set_sq_first_sent_ts (v : option Q) (m : SequenceStats) : SequenceStats :=
  mkSequenceStats (sq_sent m) (sq_acked m) (sq_delays m) (sq_interrupted m) v (sq_last_sent_ts m)
    (sq_total_audio_duration m) (sq_turn_id m).
Definition set_sq_last_sent_ts (v : option Q) (m : SequenceStats) : SequenceStats :=
  mkSequenceStats (sq_sent m) (sq_acked m) (sq_delays m) (sq_interrupted m) (sq_first_sent_ts m) v
    (sq_total_audio_duration m) (sq_turn_id m).
Definition set_sq_total_audio_duration (v : Q) (m : SequenceStats) : SequenceStats :=
  mkSequenceStats (sq_sent m) (sq_acked m) (sq_delays m) (sq_interrupted m) (sq_first_sent_ts m) (sq_last_sent_ts m)
    v (sq_turn_id m).
Definition set_sq_turn_id (v : option Z) (m : SequenceStats) : SequenceStats :=
  mkSequenceStats (sq_sent m) (sq_acked m) (sq_delays m) (sq_interrupted m) (sq_first_sent_ts m) (sq_last_sent_ts m)
    (sq_total_audio_duration m) v.
Record MarkStats := mkMarkStats {
  total_sent : Z;
  total_acked : Z;
  delays : list Q;
  per_sequence : dict Z SequenceStats }.

Definition set_total_sent (v : Z) (m : MarkStats) : MarkStats :=
  mkMarkStats v (total_acked m) (delays m) (per_sequence m).
Definition set_total_acked (v : Z) (m : MarkStats) : MarkStats :=
  mkMarkStats (total_sent m) v (delays m) (per_sequence m).
Definition set_delays (v : list Q) (m : MarkStats) : MarkStats :=
  mkMarkStats (total_sent m) (total_acked m) v (per_sequence m).
Definition set_per_sequence (v : dict Z SequenceStats) (m : MarkStats) : MarkStats :=
  mkMarkStats (total_sent m) (total_acked m) (delays m) v.
Record state := mkState {
  objects : list mark;
  mark_event_meta_data : dict string nat;
  previous_mark_event_meta_data : dict string mark;
  mark_history : dict string nat;
  counter : Z;
  mark_stats : MarkStats;
  heard_text_by_turn : dict Z string;
  heard_text_by_response : dict string string;
  last_heard_turn_id : option Z;
  last_heard_response_uid : option string;
  audio_playing_until : Q }.

Definition set_objects (v : list mark) (m : state) : state :=
  mkState v (mark_event_meta_data m) (previous_mark_event_meta_data m) (mark_history m) (counter m) (mark_stats m)
    (heard_text_by_turn m) (heard_text_by_response m) (last_heard_turn_id m) (last_heard_response_uid m)
    (audio_playing_until m).
Definition set_mark_event_meta_data (v : dict string nat) (m : state) : state :=
  mkState (objects m) v (previous_mark_event_meta_data m) (mark_history m) (counter m) (mark_stats m)
    (heard_text_by_turn m) (heard_text_by_response m) (last_heard_turn_id m) (last_heard_response_uid m)
    (audio_playing_until m).
Definition set_previous_mark_event_meta_data (v : dict string mark) (m : state) : state :=
  mkState (objects m) (mark_event_meta_data m) v (mark_history m) (counter m) (mark_stats m) (heard_text_by_turn m)
    (heard_text_by_response m) (last_heard_turn_id m) (last_heard_response_uid m) (audio_playing_until m).
Definition set_mark_history (v : dict string nat) (m : state) : state :=
  mkState (objects m) (mark_event_meta_data m) (previous_mark_event_meta_data m) v (counter m) (mark_stats m)
    (heard_text_by_turn m) (heard_text_by_response m) (last_heard_turn_id m) (last_heard_response_uid m)
    (audio_playing_until m).
Definition set_counter (v : Z) (m : state) : state :=
  mkState (objects m) (mark_event_meta_data m) (previous_mark_event_meta_data m) (mark_history m) v (mark_stats m)
    (heard_text_by_turn m) (heard_text_by_response m) (last_heard_turn_id m) (last_heard_response_uid m)
    (audio_playing_until m).
Definition set_mark_stats (v : MarkStats) (m : state) : state :=
  mkState (objects m) (mark_event_meta_data m) (previous_mark_event_meta_data m) (mark_history m) (counter m) v
    (heard_text_by_turn m) (heard_text_by_response m) (last_heard_turn_id m) (last_heard_response_uid m)
    (audio_playing_until m).
Definition set_heard_text_by_turn (v : dict Z string) (m : state) : state :=
  mkState (objects m) (mark_event_meta_data m) (previous_mark_event_meta_data m) (mark_history m) (counter m)
    (mark_stats m) v (heard_text_by_response m) (last_heard_turn_id m) (last_heard_response_uid m)
    (audio_playing_until m).
Definition set_heard_text_by_response (v : dict string string) (m : state) : state :=
  mkState (objects m) (mark_event_meta_data m) (previous_mark_event_meta_data m) (mark_history m) (counter m)
    (mark_stats m) (heard_text_by_turn m) v (last_heard_turn_id m) (last_heard_response_uid m) (audio_playing_until
    m).
Definition set_last_heard_turn_id (v : option Z) (m : state) : state :=
  mkState (objects m) (mark_event_meta_data m) (previous_mark_event_meta_data m) (mark_history m) (counter m)
    (mark_stats m) (heard_text_by_turn m) (heard_text_by_response m) v (last_heard_response_uid m)
    (audio_playing_until m).
Definition set_last_heard_response_uid (v : option string) (m : state) : state :=
  mkState (objects m) (mark_event_meta_data m) (previous_mark_event_meta_data m) (mark_history m) (counter m)
    (mark_stats m) (heard_text_by_turn m) (heard_text_by_response m) (last_heard_turn_id m) v (audio_playing_until m).
Definition set_audio_playing_until (v : Q) (m : state) : state :=
  mkState (objects m) (mark_event_meta_data m) (previous_mark_event_meta_data m) (mark_history m) (counter m)
    (mark_stats m) (heard_text_by_turn m) (heard_text_by_response m) (last_heard_turn_id m) (last_heard_response_uid
    m) v.

Definition q0 : Q := Qmake 0 1.
Definition empty_stats : SequenceStats := mkSequenceStats 0 0 [] false None None q0 None.

(** [MarkEventMetaData.__init__] *)
Definition init : state := mkState [] [] [] [] 0 (mkMarkStats 0 0 [] []) [] [] None None q0.

Definition get_object (i : nat) (s : state) : mark :=
  default (mkMark None None None None None None None None None None None None false false) (objects s !! i).
Definition update_object (i : nat) (f : mark -> mark) (s : state) : state :=
  set_objects (alter f i (objects s)) s.

Definition has_type (ty : string) (m : mark) : bool := bool_decide (mk_type m = Some ty).
(** [value.get("duration") or 0] *)
Definition duration_of (m : mark) : Q := match mk_duration m with Some d => d | None => q0 end.

Definition note_audio_queued (now : Q) (value : mark) (duration : Q) (s : state) : state :=
  if Qle_bool duration q0 || has_type IS_USER_ONLINE_MESSAGE value then s
  else set_audio_playing_until (Qplus (Qmaxq (audio_playing_until s) now) duration) s.

Definition get_audio_playing_until (s : state) : Q := audio_playing_until s.
Definition drop_playout_estimate (s : state) : state := set_audio_playing_until q0 s.

(** [MarkStats.ensure_sequence], and the entry it makes sure exists. *)
Definition ensure_sequence (seq : Z) (ms : MarkStats) : MarkStats :=
  if dhas seq (per_sequence ms) then ms else set_per_sequence (dset seq empty_stats (per_sequence ms)) ms.
Definition update_sequence (seq : Z) (f : SequenceStats -> SequenceStats) (ms : MarkStats) : MarkStats :=
  let ms := ensure_sequence seq ms in
  let entry := match dget seq (per_sequence ms) with Some e => e | None => empty_stats end in
  set_per_sequence (dset seq (f entry) (per_sequence ms)) ms.

Definition note_sent (now duration : Q) (turn_id : option Z) (e : SequenceStats) : SequenceStats :=
  let e := set_sq_sent (sq_sent e + 1) e in
  let e := match sq_first_sent_ts e with None => set_sq_first_sent_ts (Some now) e | Some _ => e end in
  let e := set_sq_last_sent_ts (Some now) e in
  let e := if Qltb q0 duration then set_sq_total_audio_duration (Qplus (sq_total_audio_duration e) duration) e else e in
  match turn_id, sq_turn_id e with
  | Some t, None => set_sq_turn_id (Some t) e
  | _, _ => e
  end.

(** [value] is a dictionary the caller built for this mark. [now]: the reading of the
    playout estimate; [now']: the reading of the sequence statistics. *)
Definition update_data (now now' : Q) (mark_id : string) (value : mark) (s : state) : state :=
  let value := set_mk_counter (Some (counter s)) value in
  let value := match mk_acked value with None => set_mk_acked (Some false) value | Some _ => value end in
  let s := set_counter (counter s + 1) s in
  let ref := length (objects s) in
  let s := set_objects (objects s ++ [value]) s in
  let s := set_mark_event_meta_data (dset mark_id ref (mark_event_meta_data s)) s in
  let duration := duration_of value in
  if has_type PRE_MARK value then s
  else
    let s := set_mark_history (dset mark_id ref (mark_history s)) s in
    let s := note_audio_queued now value duration s in
    let s := set_mark_stats (set_total_sent (total_sent (mark_stats s) + 1) (mark_stats s)) s in
    match mk_sequence_id value with
    | Some seq => set_mark_stats (update_sequence seq (note_sent now' duration (mk_turn_id value)) (mark_stats s)) s
    | None => s
    end.

Definition record_ack (delay : Q) (sequence_id : option Z) (s : state) : state :=
  let ms := mark_stats s in
  let ms := set_total_acked (total_acked ms + 1) ms in
  let keep := Qle_bool q0 delay in
  let ms := if keep then set_delays (delays ms ++ [delay]) ms else ms in
  let ms := match sequence_id with
            | Some seq => update_sequence seq (fun e =>
                let e := set_sq_acked (sq_acked e + 1) e in
                if keep then set_sq_delays (sq_delays e ++ [delay]) e else e) ms
            | None => ms
            end in
  set_mark_stats ms s.

Definition text_of {K} `{EqDecision K} (k : K) (d : dict K string) : string :=
  match dget k d with Some t => t | None => "" end.

Definition record_heard_text (mark_data : mark) (heard_text : string) (s : state) : state :=
  if negb (str_true heard_text) then s
  else
    let s := match mk_turn_id mark_data with
             | Some t => set_heard_text_by_turn
                 (dset t (text_of t (heard_text_by_turn s) +:+ heard_text) (heard_text_by_turn s))
                 (set_last_heard_turn_id (Some t) s)
             | None => s
             end in
    match mk_response_uid mark_data with
    | Some u => set_heard_text_by_response
        (dset u (text_of u (heard_text_by_response s) +:+ heard_text) (heard_text_by_response s))
        (set_last_heard_response_uid (Some u) s)
    | None => s
    end.

Definition get_heard_text_for_turn (turn_id : option Z) (s : state) : string :=
  match (match turn_id with Some t => Some t | None => last_heard_turn_id s end) with
  | Some t => strip (text_of t (heard_text_by_turn s))
  | None => ""
  end.
Definition get_heard_text_for_response (response_uid : option string) (s : state) : string :=
  match (match response_uid with Some u => Some u | None => last_heard_response_uid s end) with
  | Some u => strip (text_of u (heard_text_by_response s))
  | None => ""
  end.

(** The mark is returned as the caller sees it afterwards; [None] is the empty dict. *)
Definition drop_data (mark_id : string) (s : state) : state * option mark :=
  match dget mark_id (mark_event_meta_data s) with
  | None => (s, None)
  | Some ref =>
      let s := set_mark_event_meta_data (ddel mark_id (mark_event_meta_data s)) s in
      let s := update_object ref (set_mk_cleared true) s in
      (s, Some (get_object ref s))
  end.

Definition fetch_data (now : Q) (mark_id : string) (s : state) : state * option mark :=
  match dget mark_id (mark_event_meta_data s) with
  | None => (s, None)
  | Some ref =>
      let s := if has_type PRE_MARK (get_object ref s) then s
               else update_object ref (fun m => set_mk_ack_ts (Some now) (set_mk_acked (Some true) m)) s in
      let s := set_mark_event_meta_data (ddel mark_id (mark_event_meta_data s)) s in
      (s, Some (get_object ref s))
  end.

(** One pass of the loop of [clear_data] over a pending mark. *)
Definition clear_mark (s : state) (ref : nat) : state :=
  let m := get_object ref s in
  if has_type PRE_MARK m then s
  else
    let s := update_object ref (set_mk_cleared_on_interrupt true) s in
    match mk_sequence_id m with
    | Some seq =>
        match dget seq (per_sequence (mark_stats s)) with
        | Some e => set_mark_stats (set_per_sequence
                      (dset seq (set_sq_interrupted true e) (per_sequence (mark_stats s))) (mark_stats s)) s
        | None => s
        end
    | None => s
    end.
Definition clear_data (s : state) : state :=
  let s := drop_playout_estimate (set_counter 0 s) in
  let s := foldl clear_mark s (dvalues (mark_event_meta_data s)) in
  let s := set_previous_mark_event_meta_data
             (map (fun kr => (kr.1, get_object kr.2 s)) (mark_event_meta_data s)) s in
  set_mark_event_meta_data [] s.

Definition fetch_cleared_mark_event_data (s : state) : dict string mark := previous_mark_event_meta_data s.

(** ** Queries *)
Definition history_marks (s : state) : list mark := map (fun r => get_object r s) (dvalues (mark_history s)).

Fixpoint qmax_from (x : Q) (l : list Q) : Q :=
  match l with [] => x | y :: l' => qmax_from (Qmaxq x y) l' end.
(** [max(l)] for a list that may be empty. *)
Definition qmax (l : list Q) : option Q := match l with [] => None | x :: l' => Some (qmax_from x l') end.

Definition get_last_ack_ts_for_turn (turn_id : option Z) (s : state) : option Q :=
  match turn_id with
  | None => None
  | Some t =>
      qmax (omap (fun m =>
        if bool_decide (mk_acked m = Some true) && bool_decide (mk_turn_id m = Some t)
        then match mk_ack_ts m with
             | Some q => if Qeq_bool q q0 then None else Some q
             | None => None
             end
        else None) (history_marks s))
  end.

(** [get_chunk_marks]: the marks of the history (with their ids), oldest send first. *)
Definition sent_key (x : string * mark) : Q := match mk_sent_ts x.2 with Some q => q | None => q0 end.
Definition sent_le (x y : string * mark) : bool := Qle_bool (sent_key x) (sent_key y).
Definition get_chunk_marks (s : state) : list (string * mark) :=
  sort_by sent_le (List.filter (fun x => negb (has_type PRE_MARK x.2))
    (map (fun kr => (kr.1, get_object kr.2 s)) (mark_history s))).

Fixpoint qsum (l : list Q) : Q := match l with [] => q0 | x :: l' => Qplus x (qsum l') end.
Definition qlen {A} (l : list A) : Q := inject_Z (Z.of_nat (length l)).

Record SequenceSummary := mkSequenceSummary {
  ss_seq : Z; ss_sent : Z; ss_acked : Z; ss_max_delay : Q; ss_avg_delay : Q; ss_interrupted : bool;
  ss_chunk_delays : list Q; ss_tts_speed_ratio : option Q; ss_audio_duration_s : Q }.
Record MarkTrackingSummary := mkSummary {
  ts_total_sent : Z; ts_total_acked : Z; ts_total_missed : Z; ts_max_delay_s : Q; ts_avg_delay_s : Q;
  ts_high_delay_count : Z; ts_per_sequence : list SequenceSummary }.

Definition max_delay (l : list Q) : Q := match qmax l with Some d => py_round 3 d | None => q0 end.
Definition avg_delay (l : list Q) : Q := match l with [] => q0 | _ => py_round 3 (Qdiv (qsum l) (qlen l)) end.

Definition sequence_summary (seq_id : Z) (e : SequenceStats) : SequenceSummary :=
  let wall_clock := match sq_first_sent_ts e, sq_last_sent_ts e with
                    | Some a, Some b => if Qeq_bool a q0 || Qeq_bool b q0 then q0 else Qminus b a
                    | _, _ => q0
                    end in
  mkSequenceSummary seq_id (sq_sent e) (sq_acked e) (max_delay (sq_delays e)) (avg_delay (sq_delays e))
    (sq_interrupted e) (map (py_round 3) (sq_delays e))
    (if Qltb q0 wall_clock then Some (py_round 2 (Qdiv (sq_total_audio_duration e) wall_clock)) else None)
    (py_round 3 (sq_total_audio_duration e)).

Definition get_mark_tracking_summary (s : state) : MarkTrackingSummary :=
  let stats := mark_stats s in
  mkSummary (total_sent stats) (total_acked stats) (total_sent stats - total_acked stats)
    (max_delay (delays stats)) (avg_delay (delays stats))
    (Z.of_nat (length (List.filter (fun d => Qltb HIGH_DELAY_THRESHOLD d) (delays stats))))
    (map (fun kv => sequence_summary kv.1 kv.2)
         (sort_by (fun a b => a.1 <=? b.1) (per_sequence stats))).

(** ** Runs *)
Inductive call : Type :=
| Update (now now' : Q) (id : string) (value : mark)
| Ack (delay : Q) (seq : option Z)
| Heard (data : mark) (text : string)
| Drop (id : string) | Fetch (now : Q) (id : string) | Clear | DropEstimate.

Definition run (s : state) (c : call) : state :=
  match c with
  | Update now now' id value => update_data now now' id value s
  | Ack delay seq => record_ack delay seq s
  | Heard data text => record_heard_text data text s
  | Drop id => (drop_data id s).1
  | Fetch now id => (fetch_data now id s).1
  | Clear => clear_data s
  | DropEstimate => drop_playout_estimate s
  end.

(** A mark as the session builds it: neither acknowledged nor cleared. *)
Definition fresh_mark (m : mark) : Prop :=
  mk_acked m <> Some true /\ mk_cleared m = false /\ mk_cleared_on_interrupt m = false.
Definition fresh_call (c : call) : Prop :=
  match c with Update _ _ _ value => fresh_mark value | _ => True end.

(** A mark that was acknowledged is not cleared. *)
Definition sound (m : mark) : Prop :=
  mk_acked m = Some true -> mk_cleared m = false /\ mk_cleared_on_interrupt m = false.

Definition marks_ok (s : state) : Prop :=
  dwf (mark_event_meta_data s) /\ NoDup (dvalues (mark_event_meta_data s)) /\
  (forall k r, dget k (mark_event_meta_data s) = Some r ->
     (r < length (objects s))%nat /\ fresh_mark (get_object r s)) /\
  Forall sound (objects s).

Lemma fresh_sound m : fresh_mark m -> sound m.
Proof. intros (H & _) ?. done. Qed.

Lemma sound_object r s : Forall sound (objects s) -> sound (get_object r s).
Proof.
  intros H. unfold get_object. destruct (objects s !! r) as [m|] eqn:E; [|done].
  by eapply Forall_lookup_1 in H.
Qed.

Lemma get_update_object r f s r' :
  get_object r' (update_object r f s) =
  if decide (r = r') then (if decide (r < length (objects s))%nat then f (get_object r s) else get_object r s)
  else get_object r' s.
Proof.
  unfold get_object, update_object. simpl. destruct (decide (r = r')) as [<-|Hne].
  - rewrite list_lookup_alter_eq. case_decide as Hl.
    + apply lookup_lt_is_Some in Hl as [m ->]. done.
    + rewrite lookup_ge_None_2 by lia. done.
  - by rewrite list_lookup_alter_ne.
Qed.

Lemma sound_update r f s : Forall sound (objects s) -> sound (f (get_object r s)) ->
  Forall sound (objects (update_object r f s)).
Proof.
  intros H Hf. unfold update_object. simpl. apply Forall_lookup_2. intros i m.
  destruct (decide (r = i)) as [<-|Hne].
  - rewrite list_lookup_alter_eq. unfold get_object in Hf. destruct (objects s !! r); simpl; [|done].
    by intros [= <-].
  - rewrite list_lookup_alter_ne by done. intros. by eapply Forall_lookup_1 in H.
Qed.

Lemma dvalues_inj {K V} `{EqDecision K} (d : dict K V) k k' v :
  NoDup (dvalues d) -> dget k d = Some v -> dget k' d = Some v -> k = k'.
Proof.
  intros Hnd Hk Hk'. apply dget_Some_elem in Hk. apply dget_Some_elem in Hk'.
  unfold dvalues in Hnd. apply list_elem_of_lookup in Hk as [i Hi]. apply list_elem_of_lookup in Hk' as [j Hj].
  assert (i = j) as ->.
  { eapply NoDup_lookup; [exact Hnd|..]; rewrite list_lookup_fmap; [by rewrite Hi|by rewrite Hj]. }
  congruence.
Qed.

Lemma ddel_values_sublist {K V} `{EqDecision K} (k : K) (d : dict K V) : sublist (dvalues (ddel k d)) (dvalues d).
Proof. induction d as [|[k' v] d IH]; simpl; [done|]. case_decide; simpl; [by apply sublist_cons|by apply sublist_skip]. Qed.

Lemma dset_values_nodup {K V} `{EqDecision K} (k : K) (v : V) (d : dict K V) :
  NoDup (dvalues d) -> v ∉ dvalues d -> NoDup (dvalues (dset k v d)).
Proof.
  unfold dvalues. induction d as [|[k' v'] d IH]; simpl; intros Hnd Hv; [by apply NoDup_singleton|].
  apply NoDup_cons in Hnd as [Hn Hnd]. apply not_elem_of_cons in Hv as [Hne Hv].
  case_decide; simpl; apply NoDup_cons; [done|]. split; [|by apply IH].
  assert (forall x, x ∈ map snd (dset k v d) -> x = v \/ x ∈ map snd d) as Hin.
  { clear. induction d as [|[k1 v1] d IH]; simpl; [set_solver|]. case_decide; simpl; set_solver. }
  intros [->|]%Hin; done.
Qed.

(** Marks that keep their objects and their pending references. *)
Lemma marks_ok_same s s' :
  objects s' = objects s -> mark_event_meta_data s' = mark_event_meta_data s -> marks_ok s -> marks_ok s'.
Proof. unfold marks_ok, get_object. intros -> ->. done. Qed.

Lemma marks_ok_update now now' id v s : fresh_mark v -> marks_ok s -> marks_ok (update_data now now' id v s).
Proof.
  intros Hv (H1 & H2 & H3 & H4).
  set (v' := let v := set_mk_counter (Some (counter s)) v in
             match mk_acked v with None => set_mk_acked (Some false) v | Some _ => v end).
  assert (fresh_mark v') as Hv'.
  { destruct Hv as (Ha & Hc & Hi). unfold v', fresh_mark. simpl. destruct (mk_acked v) eqn:E; simpl; rewrite ?E; done. }
  assert (objects (update_data now now' id v s) = objects s ++ [v'] /\
    mark_event_meta_data (update_data now now' id v s) = dset id (length (objects s)) (mark_event_meta_data s)) as [Eo Ep].
  { unfold update_data, note_audio_queued. fold v'. cbv zeta. fold v'.
    destruct (has_type PRE_MARK v'); [done|]. destruct (_ || _), (mk_sequence_id v'); done. }
  set (s' := update_data now now' id v s) in *. clearbody s'.
  split_and!.
  - rewrite Ep. by apply dset_wf.
  - rewrite Ep. apply dset_values_nodup; [done|]. unfold dvalues. intros ([k r] & Hr & Hin)%list_elem_of_fmap.
    simpl in Hr. subst r. apply elem_dget in Hin; [|done]. apply H3 in Hin as [Hlt _]. lia.
  - intros k r. rewrite Ep, dget_dset, Eo, length_app. unfold get_object. rewrite Eo. simpl. case_decide; intros Hr.
    + simplify_eq. rewrite lookup_app_r, Nat.sub_diag by lia. simpl. split; [lia|done].
    + apply H3 in Hr as [Hlt Hf]. split; [lia|]. rewrite lookup_app_l by done. done.
  - rewrite Eo. apply Forall_app. split; [done|]. constructor; [by apply fresh_sound|done].
Qed.

Lemma marks_ok_remove k r f s :
  marks_ok s -> dget k (mark_event_meta_data s) = Some r -> sound (f (get_object r s)) ->
  forall s', objects s' = objects (update_object r f s) ->
  mark_event_meta_data s' = ddel k (mark_event_meta_data s) -> marks_ok s'.
Proof.
  intros (H1 & H2 & H3 & H4) Hk Hf s' Eo Ep. split_and!.
  - rewrite Ep. by apply ddel_wf.
  - rewrite Ep. eapply sublist_NoDup; [exact H2|]. apply ddel_values_sublist.
  - intros k' r'. rewrite Ep. intros Hk'. destruct (decide (k' = k)) as [->|Hne].
    { by rewrite dget_ddel_eq in Hk'. }
    rewrite dget_ddel_ne in Hk' by done.
    assert (r <> r') by (intros ->; apply Hne; by eapply dvalues_inj).
    destruct (H3 k' r' Hk') as [Hlt Hfr]. rewrite Eo. unfold get_object. rewrite Eo.
    unfold update_object. simpl. rewrite length_alter, list_lookup_alter_ne by done. done.
  - rewrite Eo. by apply sound_update.
Qed.

Lemma clear_mark_sound s r :
  Forall sound (objects s) -> mk_acked (get_object r s) <> Some true ->
  Forall sound (objects (clear_mark s r)) /\
  forall r', mk_acked (get_object r' (clear_mark s r)) = mk_acked (get_object r' s).
Proof.
  intros Hs Ha. unfold clear_mark. destruct (has_type _ _); [done|].
  set (s1 := update_object r (set_mk_cleared_on_interrupt true) s).
  assert (Forall sound (objects s1) /\ forall r', mk_acked (get_object r' s1) = mk_acked (get_object r' s)) as H1.
  { split; [apply sound_update; [done|]; intros H; done|]. intros r'. unfold s1. rewrite get_update_object.
    repeat case_decide; by subst. }
  cbv zeta. destruct (mk_sequence_id _) as [q|]; [|done]. destruct (dget q _); done.
Qed.

Lemma clear_marks_sound refs : forall s,
  Forall sound (objects s) -> (forall r, r ∈ refs -> mk_acked (get_object r s) <> Some true) ->
  Forall sound (objects (foldl clear_mark s refs)).
Proof.
  induction refs as [|r refs IH]; intros s Hs Hr; [done|].
  destruct (clear_mark_sound s r Hs) as [H1 H2]; [apply Hr; set_solver|].
  simpl. apply IH; [done|]. intros r' Hr'. rewrite H2. apply Hr. set_solver.
Qed.

Lemma marks_ok_clear s : marks_ok s -> marks_ok (clear_data s).
Proof.
  intros (H1 & H2 & H3 & H4). unfold clear_data, drop_playout_estimate. cbv zeta.
  split_and!; [apply NoDup_nil_2|apply NoDup_nil_2|done|]. cbn [objects set_mark_event_meta_data set_previous_mark_event_meta_data].
  apply clear_marks_sound; [done|].
  unfold dvalues. intros r ([k r'] & -> & Hin)%list_elem_of_fmap. simpl in *.
  apply elem_dget in Hin; [|done]. apply H3 in Hin as [_ [Ha _]]. done.
Qed.

Lemma marks_ok_run s c : fresh_call c -> marks_ok s -> marks_ok (run s c).
Proof.
  intros Hc H. destruct c as [now now' id v|delay seq|data text|id|now id| |]; simpl in *.
  - by apply marks_ok_update.
  - by eapply marks_ok_same; [..|exact H].
  - eapply marks_ok_same; [..|exact H]; unfold record_heard_text;
      destruct (negb _), (mk_turn_id data), (mk_response_uid data); done.
  - unfold drop_data. destruct (dget id (mark_event_meta_data s)) as [r|] eqn:E; [|done]. simpl.
    pose proof H as (_ & _ & H3 & _). destruct (H3 id r E) as [_ [Ha _]].
    by eapply (marks_ok_remove id r (set_mk_cleared true) s).
  - unfold fetch_data. destruct (dget id (mark_event_meta_data s)) as [r|] eqn:E; [|done]. simpl.
    pose proof H as (_ & _ & H3 & H4). destruct (H3 id r E) as [_ (Ha & Hcl & Hci)].
    destruct (has_type PRE_MARK (get_object r s)).
    + apply (marks_ok_remove id r (fun m => m) s H E); [by apply sound_object| |done].
      unfold update_object. simpl. symmetry. by apply list_alter_id.
    + apply (marks_ok_remove id r (fun m => set_mk_ack_ts (Some now) (set_mk_acked (Some true) m)) s H E); [|done..].
      intros _. done.
  - by apply marks_ok_clear.
  - by eapply marks_ok_same; [..|exact H].
Qed.

Lemma marks_ok_runs calls : forall s, Forall fresh_call calls -> marks_ok s -> marks_ok (foldl run s calls).
Proof.
  induction calls as [|c calls IH]; intros s Hc H; [done|]. apply Forall_cons in Hc as [Hc Hcs].
  simpl. apply IH; [done|]. by apply marks_ok_run.
Qed.

Lemma marks_ok_init : marks_ok init.
Proof. split_and!; [apply NoDup_nil_2|apply NoDup_nil_2|done|done]. Qed.

(** ** Playback crediting *)
Lemma qmax_from_spec x l :
  (qmax_from x l = x \/ qmax_from x l ∈ l) /\ (x <= qmax_from x l)%Q /\ forall y, y ∈ l -> (y <= qmax_from x l)%Q.
Proof.
  revert x. induction l as [|z l IH]; intros x; simpl.
  - split_and!; [by left|apply Qle_refl|set_solver].
  - destruct (IH (Qmaxq x z)) as (H1 & H2 & H3). pose proof (Qmaxq_l x z). pose proof (Qmaxq_r x z). split_and!.
    + unfold Qmaxq in *. destruct (Qle_bool z x), H1; set_solver.
    + lra.
    + intros y [->|Hy]%elem_of_cons; [lra|by apply H3].
Qed.

Lemma qmax_Some l x : qmax l = Some x -> x ∈ l /\ forall y, y ∈ l -> (y <= x)%Q.
Proof.
  destruct l as [|z l]; [done|]. simpl. intros [= <-]. destruct (qmax_from_spec z l) as (H1 & H2 & H3).
  split; [destruct H1 as [->|]; set_solver|]. intros y [->|Hy]%elem_of_cons; auto.
Qed.

(** After any run of calls on marks that arrive neither acknowledged nor cleared,
    a mark of the history that was cleared (by an interruption or by a dropped echo) was
    never acknowledged, and the last-ack time of a turn is the largest acknowledgement
    time of marks of that turn that were acknowledged and not cleared. *)
Theorem cleared_never_heard calls : Forall fresh_call calls ->
  let s := foldl run init calls in
  (forall m, m ∈ history_marks s -> mk_cleared m = true \/ mk_cleared_on_interrupt m = true ->
     mk_acked m <> Some true) /\
  (forall t q, get_last_ack_ts_for_turn (Some t) s = Some q ->
     (exists m, m ∈ history_marks s /\ mk_acked m = Some true /\ mk_turn_id m = Some t /\ mk_ack_ts m = Some q /\
        mk_cleared m = false /\ mk_cleared_on_interrupt m = false) /\
     forall m a, m ∈ history_marks s -> mk_acked m = Some true -> mk_turn_id m = Some t -> mk_ack_ts m = Some a ->
       ~ (a == q0)%Q -> (a <= q)%Q).
Proof.
  intros Hc s. assert (marks_ok s) as (_ & _ & _ & Hs) by (apply marks_ok_runs; [done|apply marks_ok_init]).
  assert (forall m, m ∈ history_marks s -> sound m) as Hh.
  { unfold history_marks. intros m (r & -> & _)%list_elem_of_fmap. by apply sound_object. }
  split.
  - intros m Hm Hcl Ha. destruct (Hh m Hm Ha) as [E1 E2]. destruct Hcl; congruence.
  - intros t q. unfold get_last_ack_ts_for_turn. intros [Hin Hmax]%qmax_Some. split.
    + apply list_elem_of_omap in Hin as (m & Hm & Hq). exists m.
      destruct (_ && _) eqn:E; [|done]. apply andb_true_iff in E as [E1%bool_decide_eq_true E2%bool_decide_eq_true].
      destruct (mk_ack_ts m) as [a|]; [|done]. destruct (Qeq_bool a q0); simplify_eq.
      destruct (Hh m Hm E1). done.
    + intros m a Hm Hma Ht Hat Hne. apply Hmax. apply list_elem_of_omap. exists m. split; [done|].
      rewrite !bool_decide_true by done. simpl. rewrite Hat.
      destruct (Qeq_bool a q0) eqn:E; [|done]. by apply Qeq_bool_iff in E.
Qed.

(** ** Heard text *)
Definition heard_in_turn (t : Z) (l : list (mark * string)) : list string :=
  map snd (List.filter (fun p => bool_decide (mk_turn_id p.1 = Some t)) l).
Definition heard_in_response (u : string) (l : list (mark * string)) : list string :=
  map snd (List.filter (fun p => bool_decide (mk_response_uid p.1 = Some u)) l).
Definition record_all (l : list (mark * string)) (s : state) : state :=
  foldl (fun s p => record_heard_text p.1 p.2 s) s l.

Lemma text_of_dset {K} `{EqDecision K} (k k' : K) v d :
  text_of k (dset k' v d) = if decide (k = k') then v else text_of k d.
Proof. unfold text_of. rewrite dget_dset. by case_decide. Qed.

Lemma record_heard_text_lookup m txt s t u :
  text_of t (heard_text_by_turn (record_heard_text m txt s)) =
    text_of t (heard_text_by_turn s) +:+ (if bool_decide (mk_turn_id m = Some t) then txt else "") /\
  text_of u (heard_text_by_response (record_heard_text m txt s)) =
    text_of u (heard_text_by_response s) +:+ (if bool_decide (mk_response_uid m = Some u) then txt else "").
Proof.
  assert (forall x, x +:+ "" = x) as Hnil by (intros x; apply (inj chars); rewrite chars_app; apply app_nil_r).
  unfold record_heard_text. destruct (str_true txt) eqn:Et; simpl.
  - split; destruct (mk_turn_id m) as [t'|], (mk_response_uid m) as [u'|]; simpl; rewrite ?text_of_dset;
      repeat case_decide; repeat case_bool_decide; simplify_eq; rewrite ?Hnil; done.
  - apply str_true_false in Et as ->. by repeat case_bool_decide; rewrite !Hnil.
Qed.

Lemma str_app_assoc a b c : a +:+ (b +:+ c) = (a +:+ b) +:+ c.
Proof. apply (inj chars). by rewrite !chars_app, app_assoc. Qed.
Lemma str_app_nil a : a +:+ "" = a.
Proof. apply (inj chars). rewrite chars_app. apply app_nil_r. Qed.
Lemma join_empty_cons a l : join "" (a :: l) = a +:+ join "" l.
Proof. apply (inj chars). rewrite chars_app, !join_nil_sep. done. Qed.

Lemma record_all_lookup l t u : forall s,
  text_of t (heard_text_by_turn (record_all l s)) = text_of t (heard_text_by_turn s) +:+ join "" (heard_in_turn t l) /\
  text_of u (heard_text_by_response (record_all l s)) =
    text_of u (heard_text_by_response s) +:+ join "" (heard_in_response u l).
Proof.
  induction l as [|[m txt] l IH]; intros s; [by rewrite !str_app_nil|].
  change (record_all ((m, txt) :: l) s) with (record_all l (record_heard_text m txt s)).
  destruct (IH (record_heard_text m txt s)) as [-> ->].
  destruct (record_heard_text_lookup m txt s t u) as [-> ->]. unfold heard_in_turn, heard_in_response. simpl.
  split; destruct (bool_decide _); cbn [map snd]; by rewrite ?join_empty_cons, ?str_app_nil, ?str_app_assoc.
Qed.

(** The heard text of a turn (and of a response) is the concatenation, in order,
    of what was recorded for marks of that turn (that response), stripped; marks of other
    turns and empty fragments contribute nothing. *)
Theorem heard_text_concatenates l t u :
  get_heard_text_for_turn (Some t) (record_all l init) = strip (join "" (heard_in_turn t l)) /\
  get_heard_text_for_response (Some u) (record_all l init) = strip (join "" (heard_in_response u l)).
Proof.
  unfold get_heard_text_for_turn, get_heard_text_for_response.
  by destruct (record_all_lookup l t u init) as [-> ->].
Qed.

(** ** The playout estimate *)
(** Chunks sent one after the other: the reading of the clock and the mark. *)
Definition queue_all (sends : list (Q * mark)) (s : state) : state :=
  foldl (fun s p => note_audio_queued p.1 p.2 (duration_of p.2) s) s sends.
Definition agent_chunk (p : Q * mark) : Prop := (q0 < duration_of p.2)%Q /\ has_type IS_USER_ONLINE_MESSAGE p.2 = false.
Definition total_duration (sends : list (Q * mark)) : Q := qsum (map (fun p => duration_of p.2) sends).

Lemma note_agent_chunk now m s : agent_chunk (now, m) ->
  audio_playing_until (note_audio_queued now m (duration_of m) s) =
  Qplus (Qmaxq (audio_playing_until s) now) (duration_of m).
Proof.
  intros [Hd Ht]. unfold note_audio_queued. simpl in *. rewrite Ht.
  destruct (Qle_bool (duration_of m) q0) eqn:E; [|done]. apply Qle_bool_iff in E. lra.
Qed.

(** Chunks handed over faster than real time queue up: the playout estimate after
    a burst covers, from every chunk on, the time it was sent plus the audio still queued,
    and never exceeds the burst's last send (or the previous estimate) plus the total
    audio sent; chunks without audio and the online-check prompt do not move it. *)
Theorem playout_estimate_bounds sends s latest :
  Forall agent_chunk sends -> Forall (fun p => (p.1 <= latest)%Q) sends ->
  let until := audio_playing_until (queue_all sends s) in
  (forall before now m after, sends = before ++ (now, m) :: after ->
     (now + duration_of m + total_duration after <= until)%Q) /\
  (audio_playing_until s + total_duration sends <= until)%Q /\
  (until <= Qmaxq (audio_playing_until s) latest + total_duration sends)%Q /\
  (forall now m, ~ agent_chunk (now, m) -> note_audio_queued now m (duration_of m) s = s).
Proof.
  intros Hc Hl until.
  assert (audio_playing_until s + total_duration sends <= until /\
    forall before now m after, sends = before ++ (now, m) :: after ->
     now + duration_of m + total_duration after <= until)%Q as [H1 H2].
  { subst until. clear Hl latest. revert s. induction sends as [|[n x] sends IH]; intros s.
    - split; [unfold total_duration, q0; simpl; unfold q0; lra|]. intros [|] ? ? ?; done.
    - apply Forall_cons in Hc as [Hx Hc]. simpl.
      destruct (IH Hc (note_audio_queued n x (duration_of x) s)) as [I1 I2].
      rewrite note_agent_chunk in I1 by done. unfold total_duration in *. simpl.
      pose proof (Qmaxq_l (audio_playing_until s) n). pose proof (Qmaxq_r (audio_playing_until s) n).
      split; [lra|]. intros [|y before] now m after; intros; simplify_eq/=; [lra|by eapply I2]. }
  assert (until <= Qmaxq (audio_playing_until s) latest + total_duration sends)%Q as H3.
  { subst until. clear H1 H2. revert s. induction sends as [|[n x] sends IH]; intros s.
    - simpl. unfold total_duration. simpl. unfold q0. pose proof (Qmaxq_l (audio_playing_until s) latest). lra.
    - apply Forall_cons in Hc as [Hx Hc]. apply Forall_cons in Hl as [Hn Hl]. simpl in *.
      specialize (IH Hc Hl (note_audio_queued n x (duration_of x) s)). rewrite note_agent_chunk in IH by done.
      unfold total_duration in *. simpl. destruct Hx as [Hd _]. simpl in Hd.
      assert (forall a b, (a <= b)%Q -> (Qmaxq a latest <= Qmaxq b latest)%Q) as Hmono.
      { intros a b Hab. unfold Qmaxq. destruct (Qle_bool latest a) eqn:Ea, (Qle_bool latest b) eqn:Eb;
          rewrite ?Qle_bool_iff, ?Qle_bool_gt in *; try lra.
        all: apply Qle_bool_iff in Ea || apply Qle_bool_gt in Ea; apply Qle_bool_iff in Eb || apply Qle_bool_gt in Eb; lra. }
      assert (Qmaxq (Qmaxq (audio_playing_until s) n + duration_of x) latest <=
              Qmaxq (audio_playing_until s) latest + duration_of x)%Q; [|lra].
      pose proof (Qmaxq_l (audio_playing_until s) latest) as M1. pose proof (Qmaxq_r (audio_playing_until s) latest) as M2.
      assert (Qmaxq (audio_playing_until s) n <= Qmaxq (audio_playing_until s) latest)%Q as M3.
      { unfold Qmaxq at 1. destruct (Qle_bool n _); lra. }
      unfold Qmaxq at 1. unfold q0 in *. destruct (Qle_bool latest _); lra. }
  split_and!; [done..|]. intros now m Hn. unfold note_audio_queued.
  destruct (Qle_bool (duration_of m) q0) eqn:E; [done|]. simpl.
  destruct (has_type IS_USER_ONLINE_MESSAGE m) eqn:E2; [done|]. destruct Hn. split; [by apply Qle_bool_gt|done].
Qed.

(** ** Chunk marks *)
Lemma sent_le_trans x y z : sent_le x y -> sent_le y z -> sent_le x z.
Proof. unfold sent_le. rewrite !Is_true_true, !Qle_bool_iff. apply Qle_trans. Qed.
Lemma sent_le_total x y : sent_le x y \/ sent_le y x.
Proof. unfold sent_le. rewrite !Is_true_true, !Qle_bool_iff. destruct (Qlt_le_dec (sent_key x) (sent_key y)); lra. Qed.

(** The exported chunk marks are the history's marks other than pre-marks, each
    once, ordered by send time with a missing time first, and marks sent at the same time
    stay in the order of the history. *)
Theorem chunk_marks_sorted s :
  let source := List.filter (fun x => negb (has_type PRE_MARK x.2))
    (map (fun kr => (kr.1, get_object kr.2 s)) (mark_history s)) in
  Permutation (get_chunk_marks s) source /\ StronglySorted sent_le (get_chunk_marks s) /\
  forall q, List.filter (fun x => Qeq_bool (sent_key x) q) (get_chunk_marks s) =
            List.filter (fun x => Qeq_bool (sent_key x) q) source.
Proof.
  unfold get_chunk_marks. split_and!.
  - apply sort_by_perm.
  - apply sort_by_sorted; [apply sent_le_trans|apply sent_le_total].
  - intros q. apply sort_by_filter; [apply sent_le_trans|apply sent_le_total|].
    unfold sent_le. intros a b. rewrite !Is_true_true, !Qeq_bool_iff, Qle_bool_iff. intros -> ->. apply Qle_refl.
Qed.

(** ** A concrete exchange *)
Definition chunk (turn : Z) (text : string) (sent dur : Z) : mark :=
  mkMark (Some "agent") (Some 1) (Some turn) None (Some text) None None (Some (inject_Z sent)) (Some (inject_Z dur))
    None None None false false.
Definition exchange : list call :=
  [Update (inject_Z 10) (inject_Z 10) "m1" (chunk 4 "hello" 10 2);
   Update (inject_Z 10) (inject_Z 10) "m2" (chunk 4 "world" 10 3); Fetch (inject_Z 12) "m1"; Clear].

Lemma exchange_fresh : Forall fresh_call exchange.
Proof. repeat constructor; done. Qed.

Lemma cleared_never_heard_witness :
  get_last_ack_ts_for_turn (Some 4) (foldl run init exchange) = Some (inject_Z 12) /\
  exists m, m ∈ history_marks (foldl run init exchange) /\ mk_ack_ts m = Some (inject_Z 12) /\
    mk_cleared_on_interrupt m = false.
Proof.
  assert (get_last_ack_ts_for_turn (Some 4) (foldl run init exchange) = Some (inject_Z 12)) as H by (vm_compute; reflexivity).
  split; [exact H|].
  destruct (proj1 (proj2 (cleared_never_heard exchange exchange_fresh) 4 (inject_Z 12) H)) as
    (m & Hm & _ & _ & Ha & _ & Hc). exists m. split; [exact Hm|]. split; [exact Ha|exact Hc].
Defined.

Lemma playout_estimate_bounds_witness :
  (inject_Z 10 + inject_Z 2 + total_duration [(inject_Z 11, chunk 4 "b" 11 3)] <=
   audio_playing_until (queue_all [(inject_Z 10, chunk 4 "a" 10 2); (inject_Z 11, chunk 4 "b" 11 3)] init))%Q.
Proof.
  assert (Forall agent_chunk [(inject_Z 10, chunk 4 "a" 10 2); (inject_Z 11, chunk 4 "b" 11 3)]) as H1
    by (repeat constructor; done).
  assert (Forall (fun p : Q * mark => (p.1 <= inject_Z 11)%Q)
    [(inject_Z 10, chunk 4 "a" 10 2); (inject_Z 11, chunk 4 "b" 11 3)]) as H2
    by (repeat constructor; simpl; unfold Qle; simpl; lia).
  exact (proj1 (playout_estimate_bounds _ init (inject_Z 11) H1 H2) [] _ _ _ eq_refl).
Defined.
End Marks.
