(* ===== verification/Interruption.v ===== *)
(** * Turn-taking: the interruption manager
    (src/voiceai/modules/voice/session/interruption.py)

    One operation per method. [time.time()] is an argument of every method that
    reads the clock, once per reading; times are exact rationals in seconds (or
    milliseconds where the field says so). [_open_event] is the index of the event
    it aliases in [interruption_events]. *)
From S2P Require Import Prelude PyText PyVal.
From Stdlib Require Import QArith.QArith Lqa.
From stdpp Require Import gmap fin_sets.
Close Scope Q_scope.
Open Scope Z_scope.

Inductive event_type : Type := user_interrupted_agent | agent_interrupted_user.
Record event := mkEvent {
  ev_type : event_type; ev_turn_id : Z; ev_asr_turn_id : option Z;
  user_start_s : option Q; user_end_s : option Q; recovery_completed : bool }.
Definition end_event (now : Q) (e : event) : event :=
  mkEvent (ev_type e) (ev_turn_id e) (ev_asr_turn_id e) (user_start_s e) (Some now) (recovery_completed e).
Definition complete_event (e : event) : event :=
  mkEvent (ev_type e) (ev_turn_id e) (ev_asr_turn_id e) (user_start_s e) (user_end_s e) true.

Record latency := mkLatency {
  lt_sequence_id : Z; lt_user_start_s : option Q; lt_user_first_start_s : option Q;
  lt_user_end_s : option Q; lt_agent_start_s : Q; lt_latency_ms : option Q; lt_agent_end_s : option Q }.
Definition set_agent_end (ts : Q) (l : latency) : latency :=
  mkLatency (lt_sequence_id l) (lt_user_start_s l) (lt_user_first_start_s l) (lt_user_end_s l)
    (lt_agent_start_s l) (lt_latency_ms l) (Some ts).

Module Interruption.
Record manager := mkManager {
  callee_speaking : bool;
  callee_speaking_start_time : Q;
  curr_sequence_id : Z;
  sequence_ids : gset Z;
  turn_id : Z;
  let_remaining_audio_pass_through : bool;
  time_since_first_interim_result : Q;
  required_delay_before_speaking : Z;
  incremental_delay : Z;
  utterance_end_time : Q;
  last_interim_ts : Q;
  number_of_words_for_interruption : Z;
  accidental_interruption_phrases : list string;
  minimum_wait_duration : Z;
  interruption_backoff_period : Z;
  last_interruption_ts_ms : option Q;
  user_interrupted_agent_count : Z;
  agent_interrupted_user_count : Z;
  barge_in_recovery_count : Z;
  awaiting_recovery : bool;
  interruption_events : list event;
  open_event : option nat;
  interrupted_transcriber_turn_ids : list Z;
  total_user_speaking_ms : Q;
  total_agent_speaking_ms : Q;
  agent_speaking_start_time : Q;
  last_sent_sequence_id : option Z;
  longest_agent_monologue_ms : Q;
  adjusted_user_stop_ts : option Q;
  last_user_start_ts : Q;
  pending_user_start_ts : Q;
  user_bot_latencies : list latency }.

Definition set_callee_speaking (v : bool) (m : manager) : manager :=
  mkManager v (callee_speaking_start_time m) (curr_sequence_id m) (sequence_ids m) (turn_id m)
    (let_remaining_audio_pass_through m) (time_since_first_interim_result m) (required_delay_before_speaking m)
    (incremental_delay m) (utterance_end_time m) (last_interim_ts m) (number_of_words_for_interruption m)
    (accidental_interruption_phrases m) (minimum_wait_duration m) (interruption_backoff_period m)
    (last_interruption_ts_ms m) (user_interrupted_agent_count m) (agent_interrupted_user_count m)
    (barge_in_recovery_count m) (awaiting_recovery m) (interruption_events m) (open_event m)
    (interrupted_transcriber_turn_ids m) (total_user_speaking_ms m) (total_agent_speaking_ms m)
    (agent_speaking_start_time m) (last_sent_sequence_id m) (longest_agent_monologue_ms m) (adjusted_user_stop_ts m)
    (last_user_start_ts m) (pending_user_start_ts m) (user_bot_latencies m).
Definition set_callee_speaking_start_time (v : Q) (m : manager) : manager :=
  mkManager (callee_speaking m) v (curr_sequence_id m) (sequence_ids m) (turn_id m) (let_remaining_audio_pass_through
    m) (time_since_first_interim_result m) (required_delay_before_speaking m) (incremental_delay m)
    (utterance_end_time m) (last_interim_ts m) (number_of_words_for_interruption m) (accidental_interruption_phrases
    m) (minimum_wait_duration m) (interruption_backoff_period m) (last_interruption_ts_ms m)
    (user_interrupted_agent_count m) (agent_interrupted_user_count m) (barge_in_recovery_count m) (awaiting_recovery
    m) (interruption_events m) (open_event m) (interrupted_transcriber_turn_ids m) (total_user_speaking_ms m)
    (total_agent_speaking_ms m) (agent_speaking_start_time m) (last_sent_sequence_id m) (longest_agent_monologue_ms
    m) (adjusted_user_stop_ts m) (last_user_start_ts m) (pending_user_start_ts m) (user_bot_latencies m).
Definition set_curr_sequence_id (v : Z) (m : manager) : manager :=
  mkManager (callee_speaking m) (callee_speaking_start_time m) v (sequence_ids m) (turn_id m)
    (let_remaining_audio_pass_through m) (time_since_first_interim_result m) (required_delay_before_speaking m)
    (incremental_delay m) (utterance_end_time m) (last_interim_ts m) (number_of_words_for_interruption m)
    (accidental_interruption_phrases m) (minimum_wait_duration m) (interruption_backoff_period m)
    (last_interruption_ts_ms m) (user_interrupted_agent_count m) (agent_interrupted_user_count m)
    (barge_in_recovery_count m) (awaiting_recovery m) (interruption_events m) (open_event m)
    (interrupted_transcriber_turn_ids m) (total_user_speaking_ms m) (total_agent_speaking_ms m)
    (agent_speaking_start_time m) (last_sent_sequence_id m) (longest_agent_monologue_ms m) (adjusted_user_stop_ts m)
    (last_user_start_ts m) (pending_user_start_ts m) (user_bot_latencies m).
Definition set_sequence_ids (v : gset Z) (m : manager) : manager :=
  mkManager (callee_speaking m) (callee_speaking_start_time m) (curr_sequence_id m) v (turn_id m)
    (let_remaining_audio_pass_through m) (time_since_first_interim_result m) (required_delay_before_speaking m)
    (incremental_delay m) (utterance_end_time m) (last_interim_ts m) (number_of_words_for_interruption m)
    (accidental_interruption_phrases m) (minimum_wait_duration m) (interruption_backoff_period m)
    (last_interruption_ts_ms m) (user_interrupted_agent_count m) (agent_interrupted_user_count m)
    (barge_in_recovery_count m) (awaiting_recovery m) (interruption_events m) (open_event m)
    (interrupted_transcriber_turn_ids m) (total_user_speaking_ms m) (total_agent_speaking_ms m)
    (agent_speaking_start_time m) (last_sent_sequence_id m) (longest_agent_monologue_ms m) (adjusted_user_stop_ts m)
    (last_user_start_ts m) (pending_user_start_ts m) (user_bot_latencies m).
Definition set_turn_id (v : Z) (m : manager) : manager :=
  mkManager (callee_speaking m) (callee_speaking_start_time m) (curr_sequence_id m) (sequence_ids m) v
    (let_remaining_audio_pass_through m) (time_since_first_interim_result m) (required_delay_before_speaking m)
    (incremental_delay m) (utterance_end_time m) (last_interim_ts m) (number_of_words_for_interruption m)
    (accidental_interruption_phrases m) (minimum_wait_duration m) (interruption_backoff_period m)
    (last_interruption_ts_ms m) (user_interrupted_agent_count m) (agent_interrupted_user_count m)
    (barge_in_recovery_count m) (awaiting_recovery m) (interruption_events m) (open_event m)
    (interrupted_transcriber_turn_ids m) (total_user_speaking_ms m) (total_agent_speaking_ms m)
    (agent_speaking_start_time m) (last_sent_sequence_id m) (longest_agent_monologue_ms m) (adjusted_user_stop_ts m)
    (last_user_start_ts m) (pending_user_start_ts m) (user_bot_latencies m).
Definition set_let_remaining_audio_pass_through (v : bool) (m : manager) : manager :=
  mkManager (callee_speaking m) (callee_speaking_start_time m) (curr_sequence_id m) (sequence_ids m) (turn_id m) v
    (time_since_first_interim_result m) (required_delay_before_speaking m) (incremental_delay m) (utterance_end_time
    m) (last_interim_ts m) (number_of_words_for_interruption m) (accidental_interruption_phrases m)
    (minimum_wait_duration m) (interruption_backoff_period m) (last_interruption_ts_ms m)
    (user_interrupted_agent_count m) (agent_interrupted_user_count m) (barge_in_recovery_count m) (awaiting_recovery
    m) (interruption_events m) (open_event m) (interrupted_transcriber_turn_ids m) (total_user_speaking_ms m)
    (total_agent_speaking_ms m) (agent_speaking_start_time m) (last_sent_sequence_id m) (longest_agent_monologue_ms
    m) (adjusted_user_stop_ts m) (last_user_start_ts m) (pending_user_start_ts m) (user_bot_latencies m).
Definition set_time_since_first_interim_result (v : Q) (m : manager) : manager :=
  mkManager (callee_speaking m) (callee_speaking_start_time m) (curr_sequence_id m) (sequence_ids m) (turn_id m)
    (let_remaining_audio_pass_through m) v (required_delay_before_speaking m) (incremental_delay m)
    (utterance_end_time m) (last_interim_ts m) (number_of_words_for_interruption m) (accidental_interruption_phrases
    m) (minimum_wait_duration m) (interruption_backoff_period m) (last_interruption_ts_ms m)
    (user_interrupted_agent_count m) (agent_interrupted_user_count m) (barge_in_recovery_count m) (awaiting_recovery
    m) (interruption_events m) (open_event m) (interrupted_transcriber_turn_ids m) (total_user_speaking_ms m)
    (total_agent_speaking_ms m) (agent_speaking_start_time m) (last_sent_sequence_id m) (longest_agent_monologue_ms
    m) (adjusted_user_stop_ts m) (last_user_start_ts m) (pending_user_start_ts m) (user_bot_latencies m).
Definition set_required_delay_before_speaking (v : Z) (m : manager) : manager :=
  mkManager (callee_speaking m) (callee_speaking_start_time m) (curr_sequence_id m) (sequence_ids m) (turn_id m)
    (let_remaining_audio_pass_through m) (time_since_first_interim_result m) v (incremental_delay m)
    (utterance_end_time m) (last_interim_ts m) (number_of_words_for_interruption m) (accidental_interruption_phrases
    m) (minimum_wait_duration m) (interruption_backoff_period m) (last_interruption_ts_ms m)
    (user_interrupted_agent_count m) (agent_interrupted_user_count m) (barge_in_recovery_count m) (awaiting_recovery
    m) (interruption_events m) (open_event m) (interrupted_transcriber_turn_ids m) (total_user_speaking_ms m)
    (total_agent_speaking_ms m) (agent_speaking_start_time m) (last_sent_sequence_id m) (longest_agent_monologue_ms
    m) (adjusted_user_stop_ts m) (last_user_start_ts m) (pending_user_start_ts m) (user_bot_latencies m).
Definition set_incremental_delay (v : Z) (m : manager) : manager :=
  mkManager (callee_speaking m) (callee_speaking_start_time m) (curr_sequence_id m) (sequence_ids m) (turn_id m)
    (let_remaining_audio_pass_through m) (time_since_first_interim_result m) (required_delay_before_speaking m) v
    (utterance_end_time m) (last_interim_ts m) (number_of_words_for_interruption m) (accidental_interruption_phrases
    m) (minimum_wait_duration m) (interruption_backoff_period m) (last_interruption_ts_ms m)
    (user_interrupted_agent_count m) (agent_interrupted_user_count m) (barge_in_recovery_count m) (awaiting_recovery
    m) (interruption_events m) (open_event m) (interrupted_transcriber_turn_ids m) (total_user_speaking_ms m)
    (total_agent_speaking_ms m) (agent_speaking_start_time m) (last_sent_sequence_id m) (longest_agent_monologue_ms
    m) (adjusted_user_stop_ts m) (last_user_start_ts m) (pending_user_start_ts m) (user_bot_latencies m).
Definition set_utterance_end_time (v : Q) (m : manager) : manager :=
  mkManager (callee_speaking m) (callee_speaking_start_time m) (curr_sequence_id m) (sequence_ids m) (turn_id m)
    (let_remaining_audio_pass_through m) (time_since_first_interim_result m) (required_delay_before_speaking m)
    (incremental_delay m) v (last_interim_ts m) (number_of_words_for_interruption m) (accidental_interruption_phrases
    m) (minimum_wait_duration m) (interruption_backoff_period m) (last_interruption_ts_ms m)
    (user_interrupted_agent_count m) (agent_interrupted_user_count m) (barge_in_recovery_count m) (awaiting_recovery
    m) (interruption_events m) (open_event m) (interrupted_transcriber_turn_ids m) (total_user_speaking_ms m)
    (total_agent_speaking_ms m) (agent_speaking_start_time m) (last_sent_sequence_id m) (longest_agent_monologue_ms
    m) (adjusted_user_stop_ts m) (last_user_start_ts m) (pending_user_start_ts m) (user_bot_latencies m).
Definition set_last_interim_ts (v : Q) (m : manager) : manager :=
  mkManager (callee_speaking m) (callee_speaking_start_time m) (curr_sequence_id m) (sequence_ids m) (turn_id m)
    (let_remaining_audio_pass_through m) (time_since_first_interim_result m) (required_delay_before_speaking m)
    (incremental_delay m) (utterance_end_time m) v (number_of_words_for_interruption m)
    (accidental_interruption_phrases m) (minimum_wait_duration m) (interruption_backoff_period m)
    (last_interruption_ts_ms m) (user_interrupted_agent_count m) (agent_interrupted_user_count m)
    (barge_in_recovery_count m) (awaiting_recovery m) (interruption_events m) (open_event m)
    (interrupted_transcriber_turn_ids m) (total_user_speaking_ms m) (total_agent_speaking_ms m)
    (agent_speaking_start_time m) (last_sent_sequence_id m) (longest_agent_monologue_ms m) (adjusted_user_stop_ts m)
    (last_user_start_ts m) (pending_user_start_ts m) (user_bot_latencies m).
Definition set_number_of_words_for_interruption (v : Z) (m : manager) : manager :=
  mkManager (callee_speaking m) (callee_speaking_start_time m) (curr_sequence_id m) (sequence_ids m) (turn_id m)
    (let_remaining_audio_pass_through m) (time_since_first_interim_result m) (required_delay_before_speaking m)
    (incremental_delay m) (utterance_end_time m) (last_interim_ts m) v (accidental_interruption_phrases m)
    (minimum_wait_duration m) (interruption_backoff_period m) (last_interruption_ts_ms m)
    (user_interrupted_agent_count m) (agent_interrupted_user_count m) (barge_in_recovery_count m) (awaiting_recovery
    m) (interruption_events m) (open_event m) (interrupted_transcriber_turn_ids m) (total_user_speaking_ms m)
    (total_agent_speaking_ms m) (agent_speaking_start_time m) (last_sent_sequence_id m) (longest_agent_monologue_ms
    m) (adjusted_user_stop_ts m) (last_user_start_ts m) (pending_user_start_ts m) (user_bot_latencies m).
Definition set_accidental_interruption_phrases (v : list string) (m : manager) : manager :=
  mkManager (callee_speaking m) (callee_speaking_start_time m) (curr_sequence_id m) (sequence_ids m) (turn_id m)
    (let_remaining_audio_pass_through m) (time_since_first_interim_result m) (required_delay_before_speaking m)
    (incremental_delay m) (utterance_end_time m) (last_interim_ts m) (number_of_words_for_interruption m) v
    (minimum_wait_duration m) (interruption_backoff_period m) (last_interruption_ts_ms m)
    (user_interrupted_agent_count m) (agent_interrupted_user_count m) (barge_in_recovery_count m) (awaiting_recovery
    m) (interruption_events m) (open_event m) (interrupted_transcriber_turn_ids m) (total_user_speaking_ms m)
    (total_agent_speaking_ms m) (agent_speaking_start_time m) (last_sent_sequence_id m) (longest_agent_monologue_ms
    m) (adjusted_user_stop_ts m) (last_user_start_ts m) (pending_user_start_ts m) (user_bot_latencies m).
Definition set_minimum_wait_duration (v : Z) (m : manager) : manager :=
  mkManager (callee_speaking m) (callee_speaking_start_time m) (curr_sequence_id m) (sequence_ids m) (turn_id m)
    (let_remaining_audio_pass_through m) (time_since_first_interim_result m) (required_delay_before_speaking m)
    (incremental_delay m) (utterance_end_time m) (last_interim_ts m) (number_of_words_for_interruption m)
    (accidental_interruption_phrases m) v (interruption_backoff_period m) (last_interruption_ts_ms m)
    (user_interrupted_agent_count m) (agent_interrupted_user_count m) (barge_in_recovery_count m) (awaiting_recovery
    m) (interruption_events m) (open_event m) (interrupted_transcriber_turn_ids m) (total_user_speaking_ms m)
    (total_agent_speaking_ms m) (agent_speaking_start_time m) (last_sent_sequence_id m) (longest_agent_monologue_ms
    m) (adjusted_user_stop_ts m) (last_user_start_ts m) (pending_user_start_ts m) (user_bot_latencies m).
Definition set_interruption_backoff_period (v : Z) (m : manager) : manager :=
  mkManager (callee_speaking m) (callee_speaking_start_time m) (curr_sequence_id m) (sequence_ids m) (turn_id m)
    (let_remaining_audio_pass_through m) (time_since_first_interim_result m) (required_delay_before_speaking m)
    (incremental_delay m) (utterance_end_time m) (last_interim_ts m) (number_of_words_for_interruption m)
    (accidental_interruption_phrases m) (minimum_wait_duration m) v (last_interruption_ts_ms m)
    (user_interrupted_agent_count m) (agent_interrupted_user_count m) (barge_in_recovery_count m) (awaiting_recovery
    m) (interruption_events m) (open_event m) (interrupted_transcriber_turn_ids m) (total_user_speaking_ms m)
    (total_agent_speaking_ms m) (agent_speaking_start_time m) (last_sent_sequence_id m) (longest_agent_monologue_ms
    m) (adjusted_user_stop_ts m) (last_user_start_ts m) (pending_user_start_ts m) (user_bot_latencies m).
Definition set_last_interruption_ts_ms (v : option Q) (m : manager) : manager :=
  mkManager (callee_speaking m) (callee_speaking_start_time m) (curr_sequence_id m) (sequence_ids m) (turn_id m)
    (let_remaining_audio_pass_through m) (time_since_first_interim_result m) (required_delay_before_speaking m)
    (incremental_delay m) (utterance_end_time m) (last_interim_ts m) (number_of_words_for_interruption m)
    (accidental_interruption_phrases m) (minimum_wait_duration m) (interruption_backoff_period m) v
    (user_interrupted_agent_count m) (agent_interrupted_user_count m) (barge_in_recovery_count m) (awaiting_recovery
    m) (interruption_events m) (open_event m) (interrupted_transcriber_turn_ids m) (total_user_speaking_ms m)
    (total_agent_speaking_ms m) (agent_speaking_start_time m) (last_sent_sequence_id m) (longest_agent_monologue_ms
    m) (adjusted_user_stop_ts m) (last_user_start_ts m) (pending_user_start_ts m) (user_bot_latencies m).
Definition set_user_interrupted_agent_count (v : Z) (m : manager) : manager :=
  mkManager (callee_speaking m) (callee_speaking_start_time m) (curr_sequence_id m) (sequence_ids m) (turn_id m)
    (let_remaining_audio_pass_through m) (time_since_first_interim_result m) (required_delay_before_speaking m)
    (incremental_delay m) (utterance_end_time m) (last_interim_ts m) (number_of_words_for_interruption m)
    (accidental_interruption_phrases m) (minimum_wait_duration m) (interruption_backoff_period m)
    (last_interruption_ts_ms m) v (agent_interrupted_user_count m) (barge_in_recovery_count m) (awaiting_recovery m)
    (interruption_events m) (open_event m) (interrupted_transcriber_turn_ids m) (total_user_speaking_ms m)
    (total_agent_speaking_ms m) (agent_speaking_start_time m) (last_sent_sequence_id m) (longest_agent_monologue_ms
    m) (adjusted_user_stop_ts m) (last_user_start_ts m) (pending_user_start_ts m) (user_bot_latencies m).
Definition set_agent_interrupted_user_count (v : Z) (m : manager) : manager :=
  mkManager (callee_speaking m) (callee_speaking_start_time m) (curr_sequence_id m) (sequence_ids m) (turn_id m)
    (let_remaining_audio_pass_through m) (time_since_first_interim_result m) (required_delay_before_speaking m)
    (incremental_delay m) (utterance_end_time m) (last_interim_ts m) (number_of_words_for_interruption m)
    (accidental_interruption_phrases m) (minimum_wait_duration m) (interruption_backoff_period m)
    (last_interruption_ts_ms m) (user_interrupted_agent_count m) v (barge_in_recovery_count m) (awaiting_recovery m)
    (interruption_events m) (open_event m) (interrupted_transcriber_turn_ids m) (total_user_speaking_ms m)
    (total_agent_speaking_ms m) (agent_speaking_start_time m) (last_sent_sequence_id m) (longest_agent_monologue_ms
    m) (adjusted_user_stop_ts m) (last_user_start_ts m) (pending_user_start_ts m) (user_bot_latencies m).
Definition set_barge_in_recovery_count (v : Z) (m : manager) : manager :=
  mkManager (callee_speaking m) (callee_speaking_start_time m) (curr_sequence_id m) (sequence_ids m) (turn_id m)
    (let_remaining_audio_pass_through m) (time_since_first_interim_result m) (required_delay_before_speaking m)
    (incremental_delay m) (utterance_end_time m) (last_interim_ts m) (number_of_words_for_interruption m)
    (accidental_interruption_phrases m) (minimum_wait_duration m) (interruption_backoff_period m)
    (last_interruption_ts_ms m) (user_interrupted_agent_count m) (agent_interrupted_user_count m) v
    (awaiting_recovery m) (interruption_events m) (open_event m) (interrupted_transcriber_turn_ids m)
    (total_user_speaking_ms m) (total_agent_speaking_ms m) (agent_speaking_start_time m) (last_sent_sequence_id m)
    (longest_agent_monologue_ms m) (adjusted_user_stop_ts m) (last_user_start_ts m) (pending_user_start_ts m)
    (user_bot_latencies m).
Definition set_awaiting_recovery (v : bool) (m : manager) : manager :=
  mkManager (callee_speaking m) (callee_speaking_start_time m) (curr_sequence_id m) (sequence_ids m) (turn_id m)
    (let_remaining_audio_pass_through m) (time_since_first_interim_result m) (required_delay_before_speaking m)
    (incremental_delay m) (utterance_end_time m) (last_interim_ts m) (number_of_words_for_interruption m)
    (accidental_interruption_phrases m) (minimum_wait_duration m) (interruption_backoff_period m)
    (last_interruption_ts_ms m) (user_interrupted_agent_count m) (agent_interrupted_user_count m)
    (barge_in_recovery_count m) v (interruption_events m) (open_event m) (interrupted_transcriber_turn_ids m)
    (total_user_speaking_ms m) (total_agent_speaking_ms m) (agent_speaking_start_time m) (last_sent_sequence_id m)
    (longest_agent_monologue_ms m) (adjusted_user_stop_ts m) (last_user_start_ts m) (pending_user_start_ts m)
    (user_bot_latencies m).
Definition set_interruption_events (v : list event) (m : manager) : manager :=
  mkManager (callee_speaking m) (callee_speaking_start_time m) (curr_sequence_id m) (sequence_ids m) (turn_id m)
    (let_remaining_audio_pass_through m) (time_since_first_interim_result m) (required_delay_before_speaking m)
    (incremental_delay m) (utterance_end_time m) (last_interim_ts m) (number_of_words_for_interruption m)
    (accidental_interruption_phrases m) (minimum_wait_duration m) (interruption_backoff_period m)
    (last_interruption_ts_ms m) (user_interrupted_agent_count m) (agent_interrupted_user_count m)
    (barge_in_recovery_count m) (awaiting_recovery m) v (open_event m) (interrupted_transcriber_turn_ids m)
    (total_user_speaking_ms m) (total_agent_speaking_ms m) (agent_speaking_start_time m) (last_sent_sequence_id m)
    (longest_agent_monologue_ms m) (adjusted_user_stop_ts m) (last_user_start_ts m) (pending_user_start_ts m)
    (user_bot_latencies m).
Definition set_open_event (v : option nat) (m : manager) : manager :=
  mkManager (callee_speaking m) (callee_speaking_start_time m) (curr_sequence_id m) (sequence_ids m) (turn_id m)
    (let_remaining_audio_pass_through m) (time_since_first_interim_result m) (required_delay_before_speaking m)
    (incremental_delay m) (utterance_end_time m) (last_interim_ts m) (number_of_words_for_interruption m)
    (accidental_interruption_phrases m) (minimum_wait_duration m) (interruption_backoff_period m)
    (last_interruption_ts_ms m) (user_interrupted_agent_count m) (agent_interrupted_user_count m)
    (barge_in_recovery_count m) (awaiting_recovery m) (interruption_events m) v (interrupted_transcriber_turn_ids m)
    (total_user_speaking_ms m) (total_agent_speaking_ms m) (agent_speaking_start_time m) (last_sent_sequence_id m)
    (longest_agent_monologue_ms m) (adjusted_user_stop_ts m) (last_user_start_ts m) (pending_user_start_ts m)
    (user_bot_latencies m).
Definition set_interrupted_transcriber_turn_ids (v : list Z) (m : manager) : manager :=
  mkManager (callee_speaking m) (callee_speaking_start_time m) (curr_sequence_id m) (sequence_ids m) (turn_id m)
    (let_remaining_audio_pass_through m) (time_since_first_interim_result m) (required_delay_before_speaking m)
    (incremental_delay m) (utterance_end_time m) (last_interim_ts m) (number_of_words_for_interruption m)
    (accidental_interruption_phrases m) (minimum_wait_duration m) (interruption_backoff_period m)
    (last_interruption_ts_ms m) (user_interrupted_agent_count m) (agent_interrupted_user_count m)
    (barge_in_recovery_count m) (awaiting_recovery m) (interruption_events m) (open_event m) v
    (total_user_speaking_ms m) (total_agent_speaking_ms m) (agent_speaking_start_time m) (last_sent_sequence_id m)
    (longest_agent_monologue_ms m) (adjusted_user_stop_ts m) (last_user_start_ts m) (pending_user_start_ts m)
    (user_bot_latencies m).
Definition set_total_user_speaking_ms (v : Q) (m : manager) : manager :=
  mkManager (callee_speaking m) (callee_speaking_start_time m) (curr_sequence_id m) (sequence_ids m) (turn_id m)
    (let_remaining_audio_pass_through m) (time_since_first_interim_result m) (required_delay_before_speaking m)
    (incremental_delay m) (utterance_end_time m) (last_interim_ts m) (number_of_words_for_interruption m)
    (accidental_interruption_phrases m) (minimum_wait_duration m) (interruption_backoff_period m)
    (last_interruption_ts_ms m) (user_interrupted_agent_count m) (agent_interrupted_user_count m)
    (barge_in_recovery_count m) (awaiting_recovery m) (interruption_events m) (open_event m)
    (interrupted_transcriber_turn_ids m) v (total_agent_speaking_ms m) (agent_speaking_start_time m)
    (last_sent_sequence_id m) (longest_agent_monologue_ms m) (adjusted_user_stop_ts m) (last_user_start_ts m)
    (pending_user_start_ts m) (user_bot_latencies m).
Definition set_total_agent_speaking_ms (v : Q) (m : manager) : manager :=
  mkManager (callee_speaking m) (callee_speaking_start_time m) (curr_sequence_id m) (sequence_ids m) (turn_id m)
    (let_remaining_audio_pass_through m) (time_since_first_interim_result m) (required_delay_before_speaking m)
    (incremental_delay m) (utterance_end_time m) (last_interim_ts m) (number_of_words_for_interruption m)
    (accidental_interruption_phrases m) (minimum_wait_duration m) (interruption_backoff_period m)
    (last_interruption_ts_ms m) (user_interrupted_agent_count m) (agent_interrupted_user_count m)
    (barge_in_recovery_count m) (awaiting_recovery m) (interruption_events m) (open_event m)
    (interrupted_transcriber_turn_ids m) (total_user_speaking_ms m) v (agent_speaking_start_time m)
    (last_sent_sequence_id m) (longest_agent_monologue_ms m) (adjusted_user_stop_ts m) (last_user_start_ts m)
    (pending_user_start_ts m) (user_bot_latencies m).
Definition set_agent_speaking_start_time (v : Q) (m : manager) : manager :=
  mkManager (callee_speaking m) (callee_speaking_start_time m) (curr_sequence_id m) (sequence_ids m) (turn_id m)
    (let_remaining_audio_pass_through m) (time_since_first_interim_result m) (required_delay_before_speaking m)
    (incremental_delay m) (utterance_end_time m) (last_interim_ts m) (number_of_words_for_interruption m)
    (accidental_interruption_phrases m) (minimum_wait_duration m) (interruption_backoff_period m)
    (last_interruption_ts_ms m) (user_interrupted_agent_count m) (agent_interrupted_user_count m)
    (barge_in_recovery_count m) (awaiting_recovery m) (interruption_events m) (open_event m)
    (interrupted_transcriber_turn_ids m) (total_user_speaking_ms m) (total_agent_speaking_ms m) v
    (last_sent_sequence_id m) (longest_agent_monologue_ms m) (adjusted_user_stop_ts m) (last_user_start_ts m)
    (pending_user_start_ts m) (user_bot_latencies m).
Definition set_last_sent_sequence_id (v : option Z) (m : manager) : manager :=
  mkManager (callee_speaking m) (callee_speaking_start_time m) (curr_sequence_id m) (sequence_ids m) (turn_id m)
    (let_remaining_audio_pass_through m) (time_since_first_interim_result m) (required_delay_before_speaking m)
    (incremental_delay m) (utterance_end_time m) (last_interim_ts m) (number_of_words_for_interruption m)
    (accidental_interruption_phrases m) (minimum_wait_duration m) (interruption_backoff_period m)
    (last_interruption_ts_ms m) (user_interrupted_agent_count m) (agent_interrupted_user_count m)
    (barge_in_recovery_count m) (awaiting_recovery m) (interruption_events m) (open_event m)
    (interrupted_transcriber_turn_ids m) (total_user_speaking_ms m) (total_agent_speaking_ms m)
    (agent_speaking_start_time m) v (longest_agent_monologue_ms m) (adjusted_user_stop_ts m) (last_user_start_ts m)
    (pending_user_start_ts m) (user_bot_latencies m).
Definition set_longest_agent_monologue_ms (v : Q) (m : manager) : manager :=
  mkManager (callee_speaking m) (callee_speaking_start_time m) (curr_sequence_id m) (sequence_ids m) (turn_id m)
    (let_remaining_audio_pass_through m) (time_since_first_interim_result m) (required_delay_before_speaking m)
    (incremental_delay m) (utterance_end_time m) (last_interim_ts m) (number_of_words_for_interruption m)
    (accidental_interruption_phrases m) (minimum_wait_duration m) (interruption_backoff_period m)
    (last_interruption_ts_ms m) (user_interrupted_agent_count m) (agent_interrupted_user_count m)
    (barge_in_recovery_count m) (awaiting_recovery m) (interruption_events m) (open_event m)
    (interrupted_transcriber_turn_ids m) (total_user_speaking_ms m) (total_agent_speaking_ms m)
    (agent_speaking_start_time m) (last_sent_sequence_id m) v (adjusted_user_stop_ts m) (last_user_start_ts m)
    (pending_user_start_ts m) (user_bot_latencies m).
Definition set_adjusted_user_stop_ts (v : option Q) (m : manager) : manager :=
  mkManager (callee_speaking m) (callee_speaking_start_time m) (curr_sequence_id m) (sequence_ids m) (turn_id m)
    (let_remaining_audio_pass_through m) (time_since_first_interim_result m) (required_delay_before_speaking m)
    (incremental_delay m) (utterance_end_time m) (last_interim_ts m) (number_of_words_for_interruption m)
    (accidental_interruption_phrases m) (minimum_wait_duration m) (interruption_backoff_period m)
    (last_interruption_ts_ms m) (user_interrupted_agent_count m) (agent_interrupted_user_count m)
    (barge_in_recovery_count m) (awaiting_recovery m) (interruption_events m) (open_event m)
    (interrupted_transcriber_turn_ids m) (total_user_speaking_ms m) (total_agent_speaking_ms m)
    (agent_speaking_start_time m) (last_sent_sequence_id m) (longest_agent_monologue_ms m) v (last_user_start_ts m)
    (pending_user_start_ts m) (user_bot_latencies m).
Definition set_last_user_start_ts (v : Q) (m : manager) : manager :=
  mkManager (callee_speaking m) (callee_speaking_start_time m) (curr_sequence_id m) (sequence_ids m) (turn_id m)
    (let_remaining_audio_pass_through m) (time_since_first_interim_result m) (required_delay_before_speaking m)
    (incremental_delay m) (utterance_end_time m) (last_interim_ts m) (number_of_words_for_interruption m)
    (accidental_interruption_phrases m) (minimum_wait_duration m) (interruption_backoff_period m)
    (last_interruption_ts_ms m) (user_interrupted_agent_count m) (agent_interrupted_user_count m)
    (barge_in_recovery_count m) (awaiting_recovery m) (interruption_events m) (open_event m)
    (interrupted_transcriber_turn_ids m) (total_user_speaking_ms m) (total_agent_speaking_ms m)
    (agent_speaking_start_time m) (last_sent_sequence_id m) (longest_agent_monologue_ms m) (adjusted_user_stop_ts m)
    v (pending_user_start_ts m) (user_bot_latencies m).
Definition set_pending_user_start_ts (v : Q) (m : manager) : manager :=
  mkManager (callee_speaking m) (callee_speaking_start_time m) (curr_sequence_id m) (sequence_ids m) (turn_id m)
    (let_remaining_audio_pass_through m) (time_since_first_interim_result m) (required_delay_before_speaking m)
    (incremental_delay m) (utterance_end_time m) (last_interim_ts m) (number_of_words_for_interruption m)
    (accidental_interruption_phrases m) (minimum_wait_duration m) (interruption_backoff_period m)
    (last_interruption_ts_ms m) (user_interrupted_agent_count m) (agent_interrupted_user_count m)
    (barge_in_recovery_count m) (awaiting_recovery m) (interruption_events m) (open_event m)
    (interrupted_transcriber_turn_ids m) (total_user_speaking_ms m) (total_agent_speaking_ms m)
    (agent_speaking_start_time m) (last_sent_sequence_id m) (longest_agent_monologue_ms m) (adjusted_user_stop_ts m)
    (last_user_start_ts m) v (user_bot_latencies m).
Definition set_user_bot_latencies (v : list latency) (m : manager) : manager :=
  mkManager (callee_speaking m) (callee_speaking_start_time m) (curr_sequence_id m) (sequence_ids m) (turn_id m)
    (let_remaining_audio_pass_through m) (time_since_first_interim_result m) (required_delay_before_speaking m)
    (incremental_delay m) (utterance_end_time m) (last_interim_ts m) (number_of_words_for_interruption m)
    (accidental_interruption_phrases m) (minimum_wait_duration m) (interruption_backoff_period m)
    (last_interruption_ts_ms m) (user_interrupted_agent_count m) (agent_interrupted_user_count m)
    (barge_in_recovery_count m) (awaiting_recovery m) (interruption_events m) (open_event m)
    (interrupted_transcriber_turn_ids m) (total_user_speaking_ms m) (total_agent_speaking_ms m)
    (agent_speaking_start_time m) (last_sent_sequence_id m) (longest_agent_monologue_ms m) (adjusted_user_stop_ts m)
    (last_user_start_ts m) (pending_user_start_ts m) v.

Definition minus_one : Q := Qmake (-1) 1.
Definition zero : Q := Qmake 0 1.
Definition ms (q : Q) : Q := Qmult q (Qmake 1000 1).
Definition is_minus_one (q : Q) : bool := Qeq_bool q minus_one.
Definition positive (q : Q) : bool := Qltb zero q.
Definition if_positive (q : Q) : option Q := if positive q then Some q else None.

(** [InterruptionManager.__init__] *)
Definition init (words : Z) (phrases : list string) (incremental minimum_wait backoff : Z) : manager :=
  mkManager false minus_one 0 {[ -1 ]} 0 false minus_one 0 incremental minus_one minus_one words phrases
    minimum_wait backoff None 0 0 0 false [] None [] zero zero minus_one None zero None minus_one minus_one [].

(** ** Queries used by the gates *)
Definition get_time_since_utterance_end (now : Q) (m : manager) : Q :=
  if is_minus_one (utterance_end_time m) then minus_one else Qminus (ms now) (utterance_end_time m).

(** ** Audio gate *)
Inductive audio_status : Type := SEND | BLOCK | WAIT.

(** [now]: the reading of the backoff check; [now']: that of the grace check. *)
Definition get_audio_send_status (now now' : Q) (sequence_id : Z) (history_length : Z) (m : manager) : audio_status :=
  if negb (bool_decide (sequence_id ∈ sequence_ids m)) then BLOCK
  else if callee_speaking m then WAIT
  else if match last_interruption_ts_ms m with
          | Some t => (0 <? interruption_backoff_period m) &&
                      Qltb (Qminus (ms now) t) (inject_Z (interruption_backoff_period m))
          | None => false
          end then WAIT
  else if 2 <? history_length then
    let since := get_time_since_utterance_end now' m in
    if negb (is_minus_one since) && Qltb since (inject_Z (incremental_delay m)) then WAIT else SEND
  else SEND.

(** ** Interruption gates *)
Definition phrase_match (transcript : string) (m : manager) : bool :=
  bool_decide (strip transcript ∈ accidental_interruption_phrases m).

Definition should_trigger_interruption (word_count : Z) (transcript : string)
    (is_audio_playing welcome_played : bool) (m : manager) : bool :=
  if negb is_audio_playing then false
  else if number_of_words_for_interruption m =? 0 then false
  else (number_of_words_for_interruption m <? word_count) || phrase_match transcript m.

Definition is_false_interruption (word_count : Z) (transcript : string)
    (is_audio_playing welcome_played : bool) (m : manager) : bool :=
  if negb is_audio_playing then false
  else (word_count <=? number_of_words_for_interruption m) && negb (phrase_match transcript m).

(** ** Sequence ids *)
Definition invalidate_pending_responses (m : manager) : manager := set_sequence_ids {[ -1 ]} m.
Definition revalidate_sequence_id (sequence_id : Z) (m : manager) : manager :=
  set_sequence_ids ({[ sequence_id ]} ∪ sequence_ids m) m.
Definition get_next_sequence_id (m : manager) : manager * Z :=
  let m := set_curr_sequence_id (curr_sequence_id m + 1) m in
  (set_sequence_ids ({[ curr_sequence_id m ]} ∪ sequence_ids m) m, curr_sequence_id m).
Definition retire_sequence_id (sequence_id : option Z) (m : manager) : manager :=
  match sequence_id with
  | None => m
  | Some s => if s =? -1 then m
              else if bool_decide (s ∈ sequence_ids m) then set_sequence_ids (sequence_ids m ∖ {[ s ]}) m else m
  end.

(** ** Speech lifecycle *)
Definition on_user_speech_started (now : Q) (m : manager) : manager :=
  if callee_speaking m then m
  else set_last_user_start_ts now (set_callee_speaking_start_time now (set_callee_speaking true m)).

Definition on_interim_transcript_received (now : Q) (m : manager) : manager :=
  let m := set_let_remaining_audio_pass_through false m in
  if is_minus_one (time_since_first_interim_result m)
  then set_time_since_first_interim_result (ms now) m else m.

Definition close_open_event (now : Q) (m : manager) : manager :=
  match open_event m with
  | Some i => match interruption_events m !! i with
              | Some e => match user_end_s e with
                          | None => set_open_event None
                              (set_interruption_events (alter (end_event now) i (interruption_events m)) m)
                          | Some _ => m
                          end
              | None => m
              end
  | None => m
  end.

Definition on_user_speech_ended (now : Q) (update_utterance_time : bool) (stop_offset_ms : Z)
    (user_stop_ts_wall : option Q) (m : manager) : manager :=
  let m := set_callee_speaking false m in
  let m := set_let_remaining_audio_pass_through true m in
  let m := set_time_since_first_interim_result minus_one m in
  let m := set_last_interim_ts minus_one m in
  let m := if update_utterance_time then
      let m := set_utterance_end_time (ms now) m in
      let m := set_adjusted_user_stop_ts
        (Some (match user_stop_ts_wall with
               | Some w => w
               | None => Qminus now (Qdiv (inject_Z stop_offset_ms) (Qmake 1000 1))
               end)) m in
      set_pending_user_start_ts (last_user_start_ts m) m
    else m in
  let m := if positive (callee_speaking_start_time m) then
      set_callee_speaking_start_time minus_one
        (set_total_user_speaking_ms
           (Qplus (total_user_speaking_ms m) (ms (Qminus now (callee_speaking_start_time m)))) m)
    else m in
  close_open_event now m.

(** ** Agent speaking lifecycle *)
Definition finalize_agent_speaking_session (now : Q) (m : manager) : manager :=
  if negb (positive (agent_speaking_start_time m)) then m
  else
    let duration_ms := ms (Qminus now (agent_speaking_start_time m)) in
    let m := set_total_agent_speaking_ms (Qplus (total_agent_speaking_ms m) duration_ms) m in
    let m := if Qltb (longest_agent_monologue_ms m) duration_ms
             then set_longest_agent_monologue_ms duration_ms m else m in
    set_agent_speaking_start_time minus_one m.

Definition on_agent_speech_started (now : Q) (sequence_id : Z) (m : manager) : manager :=
  if bool_decide (last_sent_sequence_id m = Some sequence_id) then m
  else
    let m := set_last_sent_sequence_id (Some sequence_id) m in
    let m := set_agent_speaking_start_time now m in
    match adjusted_user_stop_ts m with
    | Some stop =>
        let entry := mkLatency sequence_id (if_positive (last_user_start_ts m))
          (if_positive (pending_user_start_ts m)) (Some stop) now (Some (py_round 2 (ms (Qminus now stop)))) None in
        set_pending_user_start_ts minus_one
          (set_adjusted_user_stop_ts None (set_user_bot_latencies (user_bot_latencies m ++ [entry]) m))
    | None => set_user_bot_latencies (user_bot_latencies m ++ [mkLatency sequence_id None None None now None None]) m
    end.

Definition on_agent_speech_ended (now : Q) (m : manager) : manager := finalize_agent_speaking_session now m.

Definition on_agent_audio_fully_played (sequence_id : Z) (ts : Q) (m : manager) : manager :=
  match rindex (fun l => bool_decide (lt_sequence_id l = sequence_id)) (user_bot_latencies m) with
  | Some i => set_user_bot_latencies (alter (set_agent_end ts) i (user_bot_latencies m)) m
  | None => m
  end.

(** ** Interruption events *)
Definition push_event (ty : event_type) (asr_turn_id : option Z) (m : manager) : manager :=
  let e := mkEvent ty (turn_id m) asr_turn_id (if_positive (callee_speaking_start_time m)) None false in
  set_open_event (Some (length (interruption_events m)))
    (set_interruption_events (interruption_events m ++ [e]) m).

(** [now]: the barge-in stamp; [now']: the closing of the agent's speaking window. *)
Definition on_interruption_triggered (now now' : Q) (asr_turn_id : option Z) (m : manager) : manager :=
  let m := set_turn_id (turn_id m + 1) m in
  let m := set_user_interrupted_agent_count (user_interrupted_agent_count m + 1) m in
  let m := set_awaiting_recovery true m in
  let m := set_last_interruption_ts_ms (Some (ms now)) m in
  let m := finalize_agent_speaking_session now' m in
  let m := invalidate_pending_responses m in
  push_event user_interrupted_agent asr_turn_id m.

Definition on_agent_interrupted_user (asr_turn_id : option Z) (m : manager) : manager :=
  push_event agent_interrupted_user asr_turn_id
    (set_agent_interrupted_user_count (agent_interrupted_user_count m + 1) m).

Definition record_interrupted_transcriber_turn (turn_id : option Z) (m : manager) : manager :=
  match turn_id with
  | Some t => if bool_decide (t ∈ interrupted_transcriber_turn_ids m) then m
              else set_interrupted_transcriber_turn_ids (interrupted_transcriber_turn_ids m ++ [t]) m
  | None => m
  end.

Definition on_successful_response_delivered (sequence_id : option Z) (m : manager) : manager :=
  let m := match sequence_id with Some _ => retire_sequence_id sequence_id m | None => m end in
  if negb (awaiting_recovery m) then m
  else
    let m := set_barge_in_recovery_count (barge_in_recovery_count m + 1) m in
    let m := set_awaiting_recovery false m in
    match rindex (fun e => negb (recovery_completed e)) (interruption_events m) with
    | Some i => set_interruption_events (alter complete_event i (interruption_events m)) m
    | None => m
    end.

(** ** Delay logic *)
Definition check_delay (now : Q) (m : manager) : bool * Q :=
  if is_minus_one (time_since_first_interim_result m) then (false, zero)
  else if Qltb (Qminus (ms now) (time_since_first_interim_result m)) (inject_Z (required_delay_before_speaking m))
  then (true, Qmake 1 10) else (false, zero).
Definition should_delay_output (now : Q) (welcome_message_played : bool) (m : manager) : bool * Q :=
  if negb welcome_message_played then (false, zero) else check_delay now m.

Definition update_required_delay (history_length : Z) (m : manager) : manager :=
  set_required_delay_before_speaking (if 2 <? history_length then incremental_delay m else 0) m.
Definition reset_delay_for_speech_final (history_length : Z) (m : manager) : manager :=
  let m := set_time_since_first_interim_result minus_one m in
  set_required_delay_before_speaking
    (if 2 <? history_length then Z.max (minimum_wait_duration m - incremental_delay m) 0 else 0) m.

(** ** State queries *)
Definition is_user_speaking (m : manager) : bool := callee_speaking m.
Definition is_valid_sequence (sequence_id : Z) (m : manager) : bool := bool_decide (sequence_id ∈ sequence_ids m).
Definition get_turn_id (m : manager) : Z := turn_id m.
Definition note_user_liveness (now : Q) (m : manager) : manager := set_last_interim_ts now m.
Definition user_speech_staleness_s (now : Q) (m : manager) : Q :=
  if negb (callee_speaking m) then minus_one
  else let anchor := Qmaxq (last_interim_ts m) (callee_speaking_start_time m) in
       if positive anchor then Qminus now anchor else minus_one.
Definition get_user_speaking_duration (now : Q) (m : manager) : Q :=
  if negb (callee_speaking m) || Qltb (callee_speaking_start_time m) zero then zero
  else Qminus now (callee_speaking_start_time m).
Definition reset_utterance_end_time (m : manager) : manager := set_utterance_end_time minus_one m.
Definition has_pending_responses (m : manager) : bool := (1 <? size (sequence_ids m))%nat.
Definition has_pending_responses_excluding (sequence_id : option Z) (m : manager) : bool :=
  let active_ids := sequence_ids m ∖ {[ -1 ]} in
  let active_ids := match sequence_id with Some s => active_ids ∖ {[ s ]} | None => active_ids end in
  (0 <? size active_ids)%nat.
Definition set_first_interim_for_immediate_response (now : Q) (m : manager) : manager :=
  set_time_since_first_interim_result (Qminus (ms now) (Qmake 1000 1)) m.

(** ** Statistics *)
Record stats := mkStats {
  st_user_interrupted : Z; st_agent_interrupted : Z; st_total : Z; st_recovery_count : Z;
  st_recovery_rate : option Q; st_events : list (event_type * bool * option Z * option Q * option Q * option Q);
  st_agent_ms : Q; st_user_ms : Q; st_talk_ratio : option Q; st_longest_ms : Q }.

Definition event_entry (call_start_ms : Q) (e : event) :=
  let rel := fun t => py_round 2 (Qminus (ms t) call_start_ms) in
  let start := rel <$> user_start_s e in
  let stop := rel <$> user_end_s e in
  (ev_type e, recovery_completed e, ev_asr_turn_id e, start, stop,
   match start, stop with Some a, Some b => Some (py_round 2 (Qminus b a)) | _, _ => None end).

(** Speaking totals with the sessions that are still open. *)
Definition agent_ms (now : Q) (m : manager) : Q :=
  if positive (agent_speaking_start_time m)
  then Qplus (total_agent_speaking_ms m) (ms (Qminus now (agent_speaking_start_time m)))
  else total_agent_speaking_ms m.
Definition user_ms (now : Q) (m : manager) : Q :=
  if callee_speaking m && positive (callee_speaking_start_time m)
  then Qplus (total_user_speaking_ms m) (ms (Qminus now (callee_speaking_start_time m)))
  else total_user_speaking_ms m.

Definition recovery_rate (m : manager) : option Q :=
  if 0 <? user_interrupted_agent_count m
  then Some (py_round 1 (Qmult (Qdiv (inject_Z (barge_in_recovery_count m))
                                     (inject_Z (user_interrupted_agent_count m))) (Qmake 100 1)))
  else None.
Definition talk_to_listen_ratio (a u : Q) : option Q :=
  if Qltb zero (Qplus a u) then Some (py_round 1 (Qmult (Qdiv a (Qplus a u)) (Qmake 100 1))) else None.

(** [now], [now']: the readings for the agent's and the user's open session. *)
Definition get_interruption_stats (now now' : Q) (call_start_ms : Q) (m : manager) : stats :=
  let a := agent_ms now m in
  let u := user_ms now' m in
  mkStats (user_interrupted_agent_count m) (agent_interrupted_user_count m)
    (user_interrupted_agent_count m + agent_interrupted_user_count m) (barge_in_recovery_count m)
    (recovery_rate m) (map (event_entry call_start_ms) (interruption_events m))
    (py_round 0 a) (py_round 0 u) (talk_to_listen_ratio a u) (py_round 0 (longest_agent_monologue_ms m)).

(** ** Runs: any sequence of calls under a clock that never goes back *)
Inductive call : Type :=
| UserSpeechStarted | InterimTranscript | UserSpeechEnded (upd : bool) (offset : Z) (wall : option Q)
| InterruptionTriggered (asr : option Z) | AgentInterruptedUser (asr : option Z)
| RecordInterruptedTurn (t : option Z) | AgentSpeechStarted (s : Z) | AgentSpeechEnded
| AgentAudioFullyPlayed (s : Z) (ts : Q) | ResponseDelivered (s : option Z)
| InvalidatePending | Revalidate (s : Z) | NextSequenceId | Retire (s : option Z)
| UpdateRequiredDelay (n : Z) | ResetDelay (n : Z) | NoteLiveness | ResetUtteranceEnd | ImmediateResponse.

Definition run (now now' : Q) (c : call) (m : manager) : manager :=
  match c with
  | UserSpeechStarted => on_user_speech_started now m
  | InterimTranscript => on_interim_transcript_received now m
  | UserSpeechEnded upd offset wall => on_user_speech_ended now upd offset wall m
  | InterruptionTriggered asr => on_interruption_triggered now now' asr m
  | AgentInterruptedUser asr => on_agent_interrupted_user asr m
  | RecordInterruptedTurn t => record_interrupted_transcriber_turn t m
  | AgentSpeechStarted s => on_agent_speech_started now s m
  | AgentSpeechEnded => on_agent_speech_ended now m
  | AgentAudioFullyPlayed s ts => on_agent_audio_fully_played s ts m
  | ResponseDelivered s => on_successful_response_delivered s m
  | InvalidatePending => invalidate_pending_responses m
  | Revalidate s => revalidate_sequence_id s m
  | NextSequenceId => (get_next_sequence_id m).1
  | Retire s => retire_sequence_id s m
  | UpdateRequiredDelay n => update_required_delay n m
  | ResetDelay n => reset_delay_for_speech_final n m
  | NoteLiveness => note_user_liveness now m
  | ResetUtteranceEnd => reset_utterance_end_time m
  | ImmediateResponse => set_first_interim_for_immediate_response now m
  end.

(** [revalidate_sequence_id] is documented for ids that were already allocated. *)
Definition allowed (c : call) (m : manager) : Prop :=
  match c with Revalidate s => 1 <= s <= curr_sequence_id m | _ => True end.

Inductive reachable : Q -> manager -> Prop :=
| reach_init t words phrases inc wait back : (zero < t)%Q -> reachable t (init words phrases inc wait back)
| reach_step t now now' c m : reachable t m -> (t <= now)%Q -> (now <= now')%Q -> allowed c m ->
    reachable now' (run now now' c m).

(** *** Invariants *)
Definition ids_ok (m : manager) : Prop :=
  -1 ∈ sequence_ids m /\ 0 <= curr_sequence_id m /\
  forall s, s ∈ sequence_ids m -> s = -1 \/ 1 <= s <= curr_sequence_id m.

Definition count (p : event -> bool) (m : manager) : Z := Z.of_nat (length (List.filter p (interruption_events m))).
Definition is_user_event (e : event) : bool := match ev_type e with user_interrupted_agent => true | _ => false end.
Definition is_agent_event (e : event) : bool := negb (is_user_event e).

Definition counts_ok (m : manager) : Prop :=
  user_interrupted_agent_count m = count is_user_event m /\
  agent_interrupted_user_count m = count is_agent_event m /\
  turn_id m = user_interrupted_agent_count m /\
  barge_in_recovery_count m = count recovery_completed m /\
  barge_in_recovery_count m + (if awaiting_recovery m then 1 else 0) <= user_interrupted_agent_count m /\
  forall i, open_event m = Some i -> exists e, interruption_events m !! i = Some e /\ user_end_s e = None.

Definition times_ok (t : Q) (m : manager) : Prop :=
  (zero < t)%Q /\ (agent_speaking_start_time m <= t)%Q /\ (callee_speaking_start_time m <= t)%Q /\
  (zero <= total_user_speaking_ms m)%Q /\ (zero <= longest_agent_monologue_ms m)%Q /\
  (longest_agent_monologue_ms m <= total_agent_speaking_ms m)%Q.

#[local] Arguments Qplus : simpl never.
#[local] Arguments Qminus : simpl never.
#[local] Arguments Qmult : simpl never.
#[local] Arguments Qdiv : simpl never.
#[local] Arguments Qltb : simpl never.
#[local] Arguments Qeq_bool : simpl never.
#[local] Arguments ms : simpl never.
#[local] Arguments positive : simpl never.
#[local] Arguments py_round : simpl never.
#[local] Arguments bool_decide : simpl never.

(** Unfold the operations down to the fields they touch. *)
Ltac open_call :=
  cbv [run on_user_speech_started on_interim_transcript_received on_user_speech_ended close_open_event
       on_interruption_triggered on_agent_interrupted_user record_interrupted_transcriber_turn
       on_agent_speech_started on_agent_speech_ended finalize_agent_speaking_session push_event
       on_agent_audio_fully_played on_successful_response_delivered invalidate_pending_responses
       revalidate_sequence_id get_next_sequence_id retire_sequence_id update_required_delay
       reset_delay_for_speech_final note_user_liveness reset_utterance_end_time
       set_first_interim_for_immediate_response].
Ltac split_call := repeat (simpl in *; case_match; simplify_eq); simpl in *.

Lemma ids_ok_run now now' c m : ids_ok m -> allowed c m -> ids_ok (run now now' c m).
Proof.
  intros (H1 & H2 & H3) Ha. destruct c; open_call; unfold ids_ok; split_call; try (by split_and!);
    (split_and!; [set_solver by lia|lia|set_solver by lia]).
Qed.

Lemma cnt_alter_same (p : event -> bool) f i l :
  (forall e, p (f e) = p e) -> length (List.filter p (alter f i l)) = length (List.filter p l).
Proof.
  intros H. revert i. induction l as [|x l IH]; intros [|i]; [done..| |].
  - simpl. rewrite H. by destruct (p x).
  - change (alter f (S i) (x :: l)) with (x :: alter f i l). simpl. destruct (p x); simpl; by rewrite IH.
Qed.

Lemma cnt_complete i l e : l !! i = Some e -> recovery_completed e = false ->
  length (List.filter recovery_completed (alter complete_event i l)) =
  S (length (List.filter recovery_completed l)).
Proof.
  revert i. induction l as [|x l IH]; intros [|i]; [done..| |]; simpl; intros Hl He; simplify_eq.
  - by rewrite He.
  - change (list_alter complete_event i l) with (alter complete_event i l).
    destruct (recovery_completed x); simpl; by rewrite IH.
Qed.

Lemma cnt_none l : (forall e, e ∈ l -> recovery_completed e = true) ->
  length (List.filter recovery_completed l) = length l.
Proof.
  induction l as [|x l IH]; intros H; simpl; [done|]. rewrite H by set_solver. simpl. rewrite IH; set_solver.
Qed.

Lemma cnt_split l : length l = (length (List.filter is_user_event l) + length (List.filter is_agent_event l))%nat.
Proof.
  unfold is_agent_event. induction l as [|x l IH]; simpl; [done|]. destruct (is_user_event x); simpl; lia.
Qed.

Lemma counts_ok_push ty asr m :
  user_interrupted_agent_count m = count is_user_event m + (match ty with user_interrupted_agent => 1 | _ => 0 end) ->
  agent_interrupted_user_count m = count is_agent_event m + (match ty with agent_interrupted_user => 1 | _ => 0 end) ->
  turn_id m = user_interrupted_agent_count m ->
  barge_in_recovery_count m = count recovery_completed m ->
  barge_in_recovery_count m + (if awaiting_recovery m then 1 else 0) <= user_interrupted_agent_count m ->
  counts_ok (push_event ty asr m).
Proof.
  unfold counts_ok, count, push_event. simpl. rewrite !List.filter_app, !length_app. simpl.
  intros H1 H2 H3 H4 H5. split_and!; [destruct ty; simpl in *; lia..|].
  intros i [= <-]. eexists. split; [rewrite lookup_app_r by lia; rewrite Nat.sub_diag; reflexivity|reflexivity].
Qed.

(** Calls that leave the counters and the events alone. *)
Definition same_books (m m' : manager) : Prop :=
  user_interrupted_agent_count m' = user_interrupted_agent_count m /\
  agent_interrupted_user_count m' = agent_interrupted_user_count m /\ turn_id m' = turn_id m /\
  barge_in_recovery_count m' = barge_in_recovery_count m /\ awaiting_recovery m' = awaiting_recovery m /\
  interruption_events m' = interruption_events m /\ open_event m' = open_event m.

Lemma counts_ok_same m m' : same_books m m' -> counts_ok m -> counts_ok m'.
Proof.
  unfold counts_ok, count. intros (E1 & E2 & E3 & E4 & E5 & E6 & E7). by rewrite E1, E2, E3, E4, E5, E6, E7.
Qed.

Lemma finalize_same now m : same_books m (finalize_agent_speaking_session now m).
Proof. unfold finalize_agent_speaking_session. split_call; done. Qed.

Lemma retire_same s m : same_books m (retire_sequence_id s m).
Proof. unfold retire_sequence_id. split_call; done. Qed.

Lemma counts_ok_close now m : counts_ok m -> counts_ok (close_open_event now m).
Proof.
  intros H. unfold close_open_event. destruct (open_event m) as [i|] eqn:Eo; [|done].
  destruct (interruption_events m !! i) as [e|] eqn:Ee; [|done]. destruct (user_end_s e); [done|].
  revert H. unfold counts_ok, count. simpl. rewrite !cnt_alter_same by done.
  intros (H1 & H2 & H3 & H4 & H5 & _). split_and!; done.
Qed.

Lemma counts_ok_delivered s m : counts_ok m -> counts_ok (on_successful_response_delivered s m).
Proof.
  intros H0. unfold on_successful_response_delivered.
  set (m1 := match s with Some _ => retire_sequence_id s m | None => m end).
  assert (counts_ok m1) as H by (destruct s; [eapply counts_ok_same; [apply retire_same|done]|done]).
  clearbody m1. clear H0 m. destruct (awaiting_recovery m1) eqn:Ea; simpl; [|done].
  destruct H as (H1 & H2 & H3 & H4 & H5 & H6). unfold counts_ok, count in *. rewrite Ea in H5. simpl.
  destruct (rindex (fun e => negb (recovery_completed e)) (interruption_events m1)) as [i|] eqn:Ei.
  - destruct (rindex_Some _ _ _ Ei) as (e & He & Hc%negb_true_iff & _). simpl.
    rewrite !(cnt_alter_same _ complete_event) by done. rewrite (cnt_complete i _ e) by done.
    split_and!; try lia. intros j Hj. destruct (H6 j Hj) as (e' & He' & Hend).
    destruct (decide (i = j)) as [<-|Hne].
    + exists (complete_event e'). rewrite list_lookup_alter_eq, He'. done.
    + exists e'. by rewrite list_lookup_alter_ne.
  - exfalso. rewrite rindex_None in Ei. rewrite cnt_none in H4.
    + pose proof (cnt_split (interruption_events m1)). lia.
    + intros e He. specialize (Ei e He). by apply negb_false_iff in Ei.
Qed.

Lemma counts_ok_run now now' c m : counts_ok m -> counts_ok (run now now' c m).
Proof.
  intros H. destruct c; cbn [run];
    try (eapply counts_ok_same; [|exact H]; open_call; unfold same_books; split_call; done).
  - unfold on_user_speech_ended. apply counts_ok_close. eapply counts_ok_same; [|exact H].
    unfold same_books. split_call; done.
  - unfold on_interruption_triggered. destruct H as (H1 & H2 & H3 & H4 & H5 & _).
    unfold invalidate_pending_responses.
    set (m1 := set_last_interruption_ts_ms _ _).
    destruct (finalize_same now' m1) as (E1 & E2 & E3 & E4 & E5 & E6 & E7).
    apply counts_ok_push; unfold count; simpl; rewrite ?E1, ?E2, ?E3, ?E4, ?E5, ?E6; simpl; unfold count in *;
      try lia. destruct (awaiting_recovery m); lia.
  - unfold on_agent_interrupted_user. destruct H as (H1 & H2 & H3 & H4 & H5 & _).
    apply counts_ok_push; unfold count in *; simpl; lia.
  - by apply counts_ok_delivered.
Qed.

Lemma positive_lt q : positive q = true <-> (zero < q)%Q.
Proof. apply Qltb_lt. Qed.

Lemma times_ok_mono t t' m : (t <= t')%Q -> times_ok t m -> times_ok t' m.
Proof. unfold times_ok, zero. intros Ht (H1 & H2 & H3 & H4 & H5 & H6). split_and!; try done; lra. Qed.

Ltac q_facts :=
  repeat match goal with
  | H : positive _ = true |- _ => apply positive_lt in H
  | H : Qltb _ _ = true |- _ => apply Qltb_lt in H
  | H : Qltb _ _ = false |- _ => apply Qltb_ge in H
  | H : negb _ = true |- _ => apply negb_true_iff in H
  | H : negb _ = false |- _ => apply negb_false_iff in H
  end; unfold ms, zero, minus_one in *.

Lemma times_ok_run now now' c m : (now <= now')%Q -> times_ok now m -> times_ok now' (run now now' c m).
Proof.
  intros Hn H. assert (times_ok now' m) as H' by (by eapply times_ok_mono).
  destruct H as (H0 & H1 & H2 & H3 & H4 & H5). destruct H' as (H0' & H1' & H2' & _).
  destruct c; open_call; unfold times_ok; split_call; q_facts; split_and!; try done; lra.
Qed.

Lemma reachable_ok t m : reachable t m -> ids_ok m /\ counts_ok m /\ times_ok t m.
Proof.
  induction 1 as [t words phrases inc wait back Ht|t now now' c m _ (H1 & H2 & H3) Hn Hn' Ha].
  - split_and!.
    + split_and!; simpl; [set_solver|lia|set_solver].
    + by split_and!.
    + unfold times_ok, zero in *. simpl. unfold minus_one. split_and!; try done; lra.
  - split_and!; [by apply ids_ok_run|by apply counts_ok_run|].
    apply times_ok_run; [done|]. by eapply times_ok_mono.
Qed.

(** ** Properties *)

(** The audio gate decides by validity, then speech, then backoff, then grace:
    [BLOCK] exactly for an invalidated sequence, [SEND] exactly when the sequence is valid,
    the user is silent, the post-barge-in backoff has elapsed and, after the first two
    turns, the grace period since the utterance end has elapsed. *)
Theorem audio_gate_decision now now' sid hl m :
  let backoff_over := forall t, last_interruption_ts_ms m = Some t -> 0 < interruption_backoff_period m ->
      (inject_Z (interruption_backoff_period m) <= ms now - t)%Q in
  let grace_over := 2 < hl -> ~ (utterance_end_time m == minus_one)%Q ->
      ~ (ms now' - utterance_end_time m == minus_one)%Q ->
      (inject_Z (incremental_delay m) <= ms now' - utterance_end_time m)%Q in
  (get_audio_send_status now now' sid hl m = BLOCK <-> sid ∉ sequence_ids m) /\
  (get_audio_send_status now now' sid hl m = SEND <->
   sid ∈ sequence_ids m /\ callee_speaking m = false /\ backoff_over /\ grace_over).
Proof.
  intros backoff_over grace_over. unfold get_audio_send_status.
  destruct (bool_decide (sid ∈ sequence_ids m)) eqn:Hin; simpl;
    [apply bool_decide_eq_true in Hin|apply bool_decide_eq_false in Hin; by split; split; try done; intros [? _]].
  destruct (callee_speaking m) eqn:Hs; [split; split; naive_solver|].
  set (b := match last_interruption_ts_ms m with Some _ => _ | None => false end).
  assert (b = false <-> backoff_over) as Hb.
  { subst b backoff_over. destruct (last_interruption_ts_ms m) as [t|]; [|naive_solver].
    rewrite andb_false_iff, Z.ltb_ge, Qltb_ge. split.
    - intros [?|?] ? [= <-] ?; [lia|done].
    - intros H. destruct (Z.le_gt_cases (interruption_backoff_period m) 0); [by left|right; by apply H]. }
  assert (forall g : bool, (if g then WAIT else SEND) <> BLOCK) as Hg by (by intros []).
  destruct b; [split; split; try done; intros (_ & _ & Hbo & _); apply Hb in Hbo; done|].
  assert (backoff_over) as Hbo by (by apply Hb). clear Hb.
  destruct (Z.ltb_spec 2 hl) as [Hhl|Hhl].
  - unfold get_time_since_utterance_end. split; [split; [intros H; by apply Hg in H|done]|].
    subst grace_over. unfold is_minus_one.
    destruct (Qeq_bool (utterance_end_time m) minus_one) eqn:E.
    + apply Qeq_bool_iff in E. rewrite (proj2 (Qeq_bool_iff minus_one minus_one)) by reflexivity. simpl.
      split; [intros _; split_and!; (done || (intros; done))|done].
    + apply Qeq_bool_neq in E.
      destruct (Qeq_bool (ms now' - utterance_end_time m) minus_one) eqn:E2; simpl.
      * apply Qeq_bool_iff in E2. split; [intros _; split_and!; (done || (intros; done))|done].
      * apply Qeq_bool_neq in E2. destruct (Qltb _ _) eqn:E3; split; try done.
        -- intros (_ & _ & _ & Hgr). apply Qltb_lt in E3. exfalso. specialize (Hgr Hhl E E2). lra.
        -- intros _. split_and!; try done. intros _ _ _. by apply Qltb_ge.
  - split; [done|]. split; [|done]. intros _. split_and!; try done. intros ?. lia.
Qed.

Lemma triggered_ids now now' asr m :
  sequence_ids (on_interruption_triggered now now' asr m) = {[ -1 ]} /\
  curr_sequence_id (on_interruption_triggered now now' asr m) = curr_sequence_id m.
Proof.
  unfold on_interruption_triggered, push_event, invalidate_pending_responses, finalize_agent_speaking_session.
  split; [done|]. repeat case_match; done.
Qed.

Lemma next_ids m :
  sequence_ids (get_next_sequence_id m).1 = {[ curr_sequence_id m + 1 ]} ∪ sequence_ids m /\
  (get_next_sequence_id m).2 = curr_sequence_id m + 1.
Proof. done. Qed.

Lemma send_status_invalid u u' hl sid m : sid ∉ sequence_ids m -> get_audio_send_status u u' sid hl m = BLOCK.
Proof. intros H. unfold get_audio_send_status. by rewrite bool_decide_false. Qed.

Lemma send_status_valid u u' hl sid m : sid ∈ sequence_ids m -> get_audio_send_status u u' sid hl m <> BLOCK.
Proof. intros H. unfold get_audio_send_status. rewrite bool_decide_true by done. simpl. by repeat case_match. Qed.

(** A barge-in silences every response already allocated: each earlier sequence
    id is answered [BLOCK], nothing is pending, and the next id is new, so the old ids stay
    blocked after it is allocated while the new one and the background audio (-1) are not. *)
Theorem barge_in_blocks_allocated t now now' asr m :
  reachable t m -> (t <= now)%Q -> (now <= now')%Q ->
  let m1 := on_interruption_triggered now now' asr m in
  let m2 := (get_next_sequence_id m1).1 in
  let next := (get_next_sequence_id m1).2 in
  has_pending_responses m1 = false /\ curr_sequence_id m < next /\
  (forall u u' hl sid, 1 <= sid <= curr_sequence_id m ->
     get_audio_send_status u u' sid hl m1 = BLOCK /\ get_audio_send_status u u' sid hl m2 = BLOCK) /\
  (forall u u' hl, get_audio_send_status u u' next hl m2 <> BLOCK /\
     get_audio_send_status u u' (-1) hl m2 <> BLOCK).
Proof.
  intros Hr Hn Hn'. destruct (reachable_ok t m Hr) as ((H1 & H2 & H3) & _).
  destruct (triggered_ids now now' asr m) as [Hi Hc].
  cbv zeta. set (m1 := on_interruption_triggered now now' asr m) in *. clearbody m1.
  destruct (next_ids m1) as [Hi2 Hn2]. destruct (get_next_sequence_id m1) as [m2 next]. cbn [fst snd] in *. rewrite Hc, Hi in Hi2. rewrite Hc in Hn2. split_and!.
  - unfold has_pending_responses. by rewrite Hi, size_singleton.
  - lia.
  - intros u u' hl sid Hsid. split; apply send_status_invalid; [rewrite Hi|rewrite Hi2]; set_solver by lia.
  - intros u u' hl. split; apply send_status_valid; rewrite Hi2, ?Hn2; set_solver.
Qed.

(** On every reachable state the counters are the event log's: user and agent
    interruptions, recoveries and the turn id are the numbers of events of that kind, no
    recovery is counted that no barge-in awaits, and the reported recovery rate is between
    0 and 100. *)
Theorem interruption_books_balance t m :
  reachable t m ->
  user_interrupted_agent_count m = count is_user_event m /\
  agent_interrupted_user_count m = count is_agent_event m /\
  turn_id m = user_interrupted_agent_count m /\
  barge_in_recovery_count m = count recovery_completed m /\
  barge_in_recovery_count m + (if awaiting_recovery m then 1 else 0) <= user_interrupted_agent_count m /\
  forall r, recovery_rate m = Some r -> (0 <= r <= 100)%Q.
Proof.
  intros Hr. destruct (reachable_ok t m Hr) as (_ & (H1 & H2 & H3 & H4 & H5 & _) & _).
  split_and!; try done. unfold recovery_rate. intros r.
  destruct (Z.ltb_spec 0 (user_interrupted_agent_count m)) as [Hu|]; [|done]. intros [= <-].
  assert (0 <= barge_in_recovery_count m <= user_interrupted_agent_count m).
  { unfold count in H4. destruct (awaiting_recovery m); lia. }
  apply percentage_bounds; rewrite ?(Zle_Qle 0), <- ?Zle_Qle; try lia.
  - change 0%Q with (inject_Z 0). rewrite <- Zle_Qle. lia.
  - change 0%Q with (inject_Z 0). rewrite <- Zlt_Qlt. lia.
Qed.

(** With a clock that never goes back, the speaking totals are never negative
    (open sessions included), the longest monologue is part of the agent's total, and the
    talk-to-listen ratio is a percentage. *)
Theorem speaking_stats_bounds t now now' start m :
  reachable t m -> (t <= now)%Q -> (t <= now')%Q ->
  let s := get_interruption_stats now now' start m in
  (0 <= agent_ms now m)%Q /\ (0 <= user_ms now' m)%Q /\
  (longest_agent_monologue_ms m <= agent_ms now m)%Q /\
  (forall r, st_talk_ratio s = Some r -> (0 <= r <= 100)%Q) /\
  length (st_events s) = Z.to_nat (st_total s).
Proof.
  intros Hr Hn Hn'. destruct (reachable_ok t m Hr) as (_ & (C1 & C2 & _) & H0 & H1 & H2 & H3 & H4 & H5).
  cbv zeta. unfold get_interruption_stats. cbn [st_talk_ratio st_events st_total].
  assert (longest_agent_monologue_ms m <= agent_ms now m)%Q as Ha.
  { unfold agent_ms. destruct (positive _) eqn:E; q_facts; lra. }
  assert (0 <= user_ms now' m)%Q as Hu.
  { unfold user_ms. destruct (_ && _) eqn:E; unfold zero in *; [|done].
    apply andb_true_iff in E as [_ E]. q_facts. lra. }
  assert (0 <= agent_ms now m)%Q by (unfold zero in *; lra).
  split_and!; try done.
  - unfold talk_to_listen_ratio. intros r. destruct (Qltb _ _) eqn:E; [|done]. intros [= <-].
    apply Qltb_lt in E. unfold zero in E. apply percentage_bounds; lra.
  - rewrite List.length_map, cnt_split. unfold count in *. lia.
Qed.

Lemma rindex_last_two {A} (p : A -> bool) l x y :
  p y = true -> rindex p (l ++ [x; y]) = Some (S (length l)).
Proof. intros H. induction l as [|z l IH]; simpl; [by rewrite H|by rewrite IH]. Qed.

Lemma alter_last_two {A} (f : A -> A) l x y : alter f (S (length l)) (l ++ [x; y]) = l ++ [x; f y].
Proof. induction l as [|z l IH]; [done|]. simpl. f_equal. apply IH. Qed.

Lemma triggered_events now now' asr m :
  exists e, ev_type e = user_interrupted_agent /\ recovery_completed e = false /\
    interruption_events (on_interruption_triggered now now' asr m) = interruption_events m ++ [e] /\
    awaiting_recovery (on_interruption_triggered now now' asr m) = true.
Proof.
  unfold on_interruption_triggered, invalidate_pending_responses. cbv zeta.
  set (m1 := set_last_interruption_ts_ms _ _).
  assert (awaiting_recovery m1 = true /\ interruption_events m1 = interruption_events m) as [H1 H2] by done.
  clearbody m1. destruct (finalize_same now' m1) as (_ & _ & _ & _ & Ea & Ee & _).
  set (m2 := finalize_agent_speaking_session now' m1) in *. clearbody m2. unfold push_event.
  eexists (mkEvent user_interrupted_agent _ _ _ _ false). split_and!; [done..| |].
  - cbn [interruption_events set_open_event set_interruption_events set_sequence_ids]. rewrite Ee, H2. reflexivity.
  - cbn [awaiting_recovery set_open_event set_interruption_events set_sequence_ids]. congruence.
Qed.

Lemma agent_interrupted_events asr m :
  exists e, ev_type e = agent_interrupted_user /\ recovery_completed e = false /\
    interruption_events (on_agent_interrupted_user asr m) = interruption_events m ++ [e] /\
    awaiting_recovery (on_agent_interrupted_user asr m) = awaiting_recovery m.
Proof. eexists (mkEvent agent_interrupted_user _ _ _ _ false). split_and!; reflexivity. Qed.

Lemma delivered_events m : awaiting_recovery m = true ->
  interruption_events (on_successful_response_delivered None m) =
  match rindex (fun e => negb (recovery_completed e)) (interruption_events m) with
  | Some i => alter complete_event i (interruption_events m)
  | None => interruption_events m
  end.
Proof.
  intros H. destruct m. cbv [on_successful_response_delivered]. cbn in H. rewrite H.
  cbn. by destruct (rindex _ _).
Qed.

(** A full response after a barge-in and a premature agent response is recorded as
    the recovery of the newest event, the agent's interruption of the user, and the
    barge-in keeps [recovery_completed = False], although the agent's interruption is
    documented as not tracked for recovery. *)
Theorem recovery_marks_newest_event now now' asr asr' m :
  exists e e',
    ev_type e = user_interrupted_agent /\ recovery_completed e = false /\
    ev_type e' = agent_interrupted_user /\ recovery_completed e' = true /\
    interruption_events (on_successful_response_delivered None
      (on_agent_interrupted_user asr' (on_interruption_triggered now now' asr m))) =
    interruption_events m ++ [e; e'].
Proof.
  destruct (triggered_events now now' asr m) as (e & He & Hre & Hev & Ha).
  set (m1 := on_interruption_triggered now now' asr m) in *. clearbody m1.
  destruct (agent_interrupted_events asr' m1) as (e' & He' & Hre' & Hev' & Ha').
  set (m2 := on_agent_interrupted_user asr' m1) in *. clearbody m2.
  exists e, (complete_event e'). split_and!; try done.
  rewrite Hev, <- app_assoc in Hev'. rewrite <- Ha' in Ha. clear Hev Ha'.
  rewrite delivered_events by done. rewrite Hev'. cbn [app].
  rewrite rindex_last_two by (by rewrite Hre'). apply alter_last_two.
Qed.

(** While agent audio plays and the word threshold is not zero, a transcript is a
    false interruption exactly when it does not trigger one; without audio, or with a zero
    threshold, nothing triggers. *)
Theorem interruption_gates_complementary wc tr playing welcome m :
  (playing = true -> number_of_words_for_interruption m <> 0 ->
   is_false_interruption wc tr playing welcome m = negb (should_trigger_interruption wc tr playing welcome m)) /\
  (playing = false \/ number_of_words_for_interruption m = 0 ->
   should_trigger_interruption wc tr playing welcome m = false) /\
  (number_of_words_for_interruption m = 0 -> 0 < wc ->
   is_false_interruption wc tr playing welcome m = false).
Proof.
  unfold is_false_interruption, should_trigger_interruption. split_and!.
  - intros -> Hw. simpl. destruct (Z.eqb_spec (number_of_words_for_interruption m) 0); [done|].
    rewrite negb_orb. f_equal. rewrite Z.leb_antisym. done.
  - intros [->|Hw]; [done|]. destruct playing; simpl; [|done]. by rewrite Hw.
  - intros -> Hwc. destruct playing; simpl; [|done]. destruct (Z.leb_spec wc 0); [lia|done].
Qed.

(** ** A concrete call *)
Definition at_s (z : Z) : Q := inject_Z z.
Definition fresh_manager : manager := init 3 ["stop"] 900 0 500.
Definition one_response : manager := run (at_s 11) (at_s 11) NextSequenceId fresh_manager.

Lemma one_response_reachable : reachable (at_s 11) one_response.
Proof.
  apply (reach_step (at_s 10)); [|unfold at_s, Qle; simpl; lia..|done].
  apply reach_init. unfold zero, at_s, Qlt. simpl. lia.
Qed.

Lemma barge_in_blocks_allocated_witness :
  get_audio_send_status (at_s 20) (at_s 20) 1 0 one_response = SEND /\
  get_audio_send_status (at_s 20) (at_s 20) 1 0 (on_interruption_triggered (at_s 12) (at_s 12) None one_response) = BLOCK.
Proof.
  split; [vm_compute; reflexivity|].
  assert (at_s 11 <= at_s 12)%Q as H1 by (unfold at_s, Qle; simpl; lia).
  assert (at_s 12 <= at_s 12)%Q as H2 by (unfold at_s, Qle; simpl; lia).
  pose proof (barge_in_blocks_allocated (at_s 11) (at_s 12) (at_s 12) None one_response one_response_reachable H1 H2) as H.
  destruct H as (_ & _ & H & _).
  assert (1 <= 1 <= curr_sequence_id one_response) as Hs by (vm_compute; split; discriminate).
  exact (proj1 (H (at_s 20) (at_s 20) 0 1 Hs)).
Defined.

Lemma interruption_books_balance_witness :
  turn_id one_response = user_interrupted_agent_count one_response.
Proof. apply (interruption_books_balance (at_s 11) one_response one_response_reachable). Defined.

Lemma speaking_stats_bounds_witness : (0 <= agent_ms (at_s 12) one_response)%Q.
Proof.
  assert (at_s 11 <= at_s 12)%Q as H by (unfold at_s, Qle; simpl; lia).
  exact (proj1 (speaking_stats_bounds (at_s 11) (at_s 12) (at_s 12) zero one_response one_response_reachable H H)).
Defined.

Lemma interruption_gates_complementary_witness :
  is_false_interruption 2 "hold on" true false fresh_manager =
  negb (should_trigger_interruption 2 "hold on" true false fresh_manager).
Proof. by apply (interruption_gates_complementary 2 "hold on" true false fresh_manager). Defined.
End Interruption.
