(* ===== verification/HistorySync.v ===== *)
(** * Committing only what was heard
    (src/voiceai/modules/voice/session/turn/history_sync.py)

    The session's commit path over the conversation history ([History]) and the
    playback marks ([Marks]). The telephony input handler's heard-text accumulators
    are an [input_view]; [_turn_msg_map] holds a snapshot of the row it aliases. *)
From S2P Require Import Prelude PyText PyVal History Marks.
From Stdlib Require Import QArith.QArith Lqa.
Close Scope Q_scope.
Open Scope Z_scope.

Definition NON_EVIDENCE_MARK_TYPES : list string := ["pre_mark_message"; "backchanneling"].

Module HistorySync.
Import History.
Notation mark := Marks.mark.

(** ** Pure helpers *)

(** [s[:n]] *)
Definition first_chars (n : nat) (s : string) : string := str_take n s.

(** The loop over progressively shorter prefixes of the heard text. *)
Fixpoint shorter_prefix (original heard : string) (i : nat) : option string :=
  match i with
  | O => None
  | S i' => let partial := strip (first_chars (S i') heard) in
            if str_true partial && startswith original partial then Some partial
            else shorter_prefix original heard i'
  end.

Definition update_transcript_for_interruption (original_stream heard_text : option string) : option string :=
  match original_stream with
  | None => match heard_text with
            | Some h => if str_true h then Some (strip h) else None
            | None => None
            end
  | Some original =>
      match heard_text with
      | None => Some ""
      | Some h =>
          if negb (str_true h) || negb (str_true (strip h)) then Some ""
          else
            let heard := strip h in
            match find original heard with
            | Some index => Some (first_chars (index + str_len heard) original)
            | None =>
                if (3 <? str_len heard)%nat && bool_decide (first_chars 3 original = first_chars 3 heard)
                then match shorter_prefix original heard (str_len heard) with
                     | Some partial => Some partial
                     | None => Some ""
                     end
                else Some ""
            end
      end
  end.

(** The function the history's trims call: [content] is a row's content, a string. *)
Definition trim_fn (content : val) (heard : option string) : string :=
  match content with
  | VStr s => default "" (update_transcript_for_interruption (Some s) heard)
  | _ => ""
  end.

Definition trim_partial_to_complete_words (text : option string) : string :=
  let partial_text := strip (match text with Some t => t | None => "" end) in
  if negb (str_true partial_text) then ""
  else match rfind_char " "%char (chars partial_text) with
       | Some (S n) => first_chars (S n) partial_text
       | _ => ""
       end.

(** [" ".join((text or "").strip().split())] *)
Definition normalized_transcript_text (text : option string) : string :=
  join " " (PyText.split (strip (match text with Some t => t | None => "" end))).

Definition content_text (m : msg) : option string := match mget "content" m with VStr s => Some s | _ => None end.

(** One pass of the loop; the accumulator is [cleaned], newest row first. *)
Definition clean_step (cleaned : list msg) (message : msg) : list msg :=
  match cleaned with
  | previous :: older =>
      if role_is USER message && role_is USER previous then
        let current_text := normalized_transcript_text (content_text message) in
        let previous_text := normalized_transcript_text (content_text previous) in
        if str_true current_text && str_true previous_text && startswith current_text previous_text
        then message :: older else message :: cleaned
      else message :: cleaned
  | [] => [message]
  end.
Definition prepare_precise_transcript_messages (messages : list msg) : list msg :=
  reverse (foldl clean_step [] messages).

Definition evidence (m : mark) : bool :=
  match Marks.mk_type m with
  | Some ty => negb (bool_decide (ty ∈ NON_EVIDENCE_MARK_TYPES))
  | None => true
  end.

(** [get_latest_turn_id_from_marks], [get_latest_response_uid_from_marks]: the last
    field among the evidence marks of the highest counter. *)
Definition latest_step {A} (field : mark -> option A) (acc : option A * Z) (km : string * mark) : option A * Z :=
  let m := km.2 in
  if negb (evidence m) then acc
  else match field m with
       | None => acc
       | Some x => let counter := match Marks.mk_counter m with Some c => c | None => -1 end in
                   if acc.2 <=? counter then (Some x, counter) else acc
       end.
Definition latest_from_marks {A} (field : mark -> option A) (marks : list (string * mark)) : option A :=
  (foldl (latest_step field) (None, -1) marks).1.
Definition get_latest_turn_id_from_marks := latest_from_marks Marks.mk_turn_id.
Definition get_latest_response_uid_from_marks := latest_from_marks Marks.mk_response_uid.

(** Turn ids are integers and response ids strings in the rows the session writes. *)
Definition turn_of (m : msg) : option Z := match mget "turn_id" m with VInt z => Some z | _ => None end.
Definition uid_of (m : msg) : option string := match mget "response_uid" m with VStr s => Some s | _ => None end.
Definition get_latest_assistant_turn_id (h : history) : option Z :=
  match rindex (fun m => role_is ASSISTANT m && negb (is_none (mget "turn_id" m))) (messages h) with
  | Some i => turn_of (default [] (messages h !! i))
  | None => None
  end.
Definition get_latest_assistant_response_uid (h : history) : option string :=
  match rindex (fun m => role_is ASSISTANT m && negb (is_none (mget "response_uid" m))) (messages h) with
  | Some i => uid_of (default [] (messages h !! i))
  | None => None
  end.

Definition pending_mark_objects (s : Marks.state) : list mark :=
  map (fun r => Marks.get_object r s) (dvalues (Marks.mark_event_meta_data s)).
Definition has_interruptible_mark_activity (s : Marks.state) : bool :=
  existsb (fun m =>
    negb (Marks.has_type Marks.PRE_MARK m) &&
    (match Marks.mk_turn_id m with Some _ => true | None => false end ||
     match Marks.mk_sequence_id m with Some q => negb (q =? -1) | None => false end))
    (pending_mark_objects s).

(** ** Estimating what was played *)
Record chunk := mkChunk { ck_text : string; ck_duration : Q }.

(** [int(len(text) * proportion)] characters of the chunk that is being played. *)
Definition partial_chunk (c : chunk) (remaining_time : Q) : string :=
  let proportion := if Qltb Marks.q0 (ck_duration c) then Qdiv remaining_time (ck_duration c) else Marks.q0 in
  let char_count := Z.to_nat (py_trunc (Qmult (inject_Z (Z.of_nat (str_len (ck_text c)))) proportion)) in
  let partial_text := first_chars char_count (ck_text c) in
  if str_true partial_text && (char_count <? str_len (ck_text c))%nat
  then trim_partial_to_complete_words (Some partial_text) else partial_text.

Fixpoint played_chunks (chunks : list chunk) (cumulative play_time : Q) : list string :=
  match chunks with
  | [] => []
  | c :: rest =>
      if Qle_bool play_time cumulative then []
      else
        let piece := if Qle_bool (Qplus cumulative (ck_duration c)) play_time then ck_text c
                     else partial_chunk c (Qminus play_time cumulative) in
        piece :: played_chunks rest (Qplus cumulative (ck_duration c)) play_time
  end.
Definition estimate_played_text_for_time (pending_chunks : list chunk) (actual_play_time : Q) : string :=
  join "" (played_chunks pending_chunks Marks.q0 actual_play_time).

(** ** The session *)

(** The telephony input handler (src/voiceai/modules/voice/io/input/default.py). *)
Record input_view := mkInput {
  in_heard_by_turn : dict Z string; in_heard_by_response : dict string string;
  in_last_heard_turn_id : option Z; in_last_heard_response_uid : option string;
  response_heard_by_user : string; current_mark_started_time : Q }.

Definition get_response_heard_for_turn (i : input_view) (turn_id : option Z) : string :=
  match (match turn_id with Some t => Some t | None => in_last_heard_turn_id i end) with
  | Some t => strip (Marks.text_of t (in_heard_by_turn i))
  | None => ""
  end.
Definition get_response_heard_for_response (i : input_view) (uid : option string) : string :=
  match (match uid with Some u => Some u | None => in_last_heard_response_uid i end) with
  | Some u => strip (Marks.text_of u (in_heard_by_response i))
  | None => ""
  end.

Record staged := mkStaged {
  sg_content : string; sg_turn_id : option Z; sg_response_uid : option string; sg_message_category : option string }.

Record session := mkSession {
  conversation_history : history; mark_event_meta_data : Marks.state; input : input_view;
  turn_msg_map : dict (option Z) msg; interruption_hint : option (option string);
  pending_assistant_history : dict Z staged; committed_assistant_sequences : list Z;
  sent_audio_sequences : list Z; blocked_sequences : list Z }.

Definition with_history (h : history) (s : session) : session :=
  mkSession h (mark_event_meta_data s) (input s) (turn_msg_map s) (interruption_hint s)
    (pending_assistant_history s) (committed_assistant_sequences s) (sent_audio_sequences s) (blocked_sequences s).
Definition with_turn_msg (k : option Z) (m : msg) (s : session) : session :=
  mkSession (conversation_history s) (mark_event_meta_data s) (input s) (dset k m (turn_msg_map s)) (interruption_hint s)
    (pending_assistant_history s) (committed_assistant_sequences s) (sent_audio_sequences s) (blocked_sequences s).
Definition with_hint (h : option string) (s : session) : session :=
  mkSession (conversation_history s) (mark_event_meta_data s) (input s) (turn_msg_map s) (Some h)
    (pending_assistant_history s) (committed_assistant_sequences s) (sent_audio_sequences s) (blocked_sequences s).
Definition with_staging (p : dict Z staged) (c : list Z) (s : session) : session :=
  mkSession (conversation_history s) (mark_event_meta_data s) (input s) (turn_msg_map s) (interruption_hint s)
    p c (sent_audio_sequences s) (blocked_sequences s).

Definition orb_option {A} (a b : option A) : option A := match a with Some x => Some x | None => b end.
Definition some {A} (o : option A) : bool := match o with Some _ => true | None => false end.

(** ** [sync_history] *)
Record target := mkTarget { tg_turn : option Z; tg_uid : option string; tg_from_evidence : bool }.

Definition choose_target (marks : list (string * mark)) (s : session) : target :=
  let turn := orb_option (get_latest_turn_id_from_marks marks) (in_last_heard_turn_id (input s)) in
  let uid := orb_option (get_latest_response_uid_from_marks marks) (in_last_heard_response_uid (input s)) in
  mkTarget (orb_option turn (get_latest_assistant_turn_id (conversation_history s)))
    (orb_option uid (get_latest_assistant_response_uid (conversation_history s)))
    (some turn || some uid).

(** The chain of accumulators, first non-empty answer; the global one only when the
    turn is unknown, which also re-reads the turn. *)
Definition confirmed_heard (t : target) (s : session) : string * option Z :=
  let a := get_response_heard_for_response (input s) (tg_uid t) in
  let b := get_response_heard_for_turn (input s) (tg_turn t) in
  let c := Marks.get_heard_text_for_response (tg_uid t) (mark_event_meta_data s) in
  let d := Marks.get_heard_text_for_turn (tg_turn t) (mark_event_meta_data s) in
  if str_true a then (a, tg_turn t) else if str_true b then (b, tg_turn t)
  else if str_true c then (c, tg_turn t) else if str_true d then (d, tg_turn t)
  else match tg_turn t with
       | None => (response_heard_by_user (input s), in_last_heard_turn_id (input s))
       | Some _ => ("", tg_turn t)
       end.

Definition mark_text (m : mark) : string := match Marks.mk_text_synthesized m with Some t => t | None => "" end.

(** The pending chunks of the target turn that carry text. *)
Definition text_marks (turn : option Z) (marks : list (string * mark)) : list mark :=
  List.filter (fun m =>
    evidence m && str_true (mark_text m) &&
    match turn with Some t => bool_decide (Marks.mk_turn_id m = Some t) | None => true end)
    (map snd marks).
Definition chunk_of (m : mark) : chunk := mkChunk (mark_text m) (Marks.duration_of m).

Definition ends_with_space (s : string) : bool :=
  match last (chars s) with Some c => is_space c | None => false end.
Definition starts_with_space (s : string) : bool :=
  match head (chars s) with Some c => is_space c | None => false end.

Definition extend_with_tail (at_time : Q) (turn : option Z) (heard : string) (marks : list (string * mark))
    (s : session) : string :=
  let pending_tail := map chunk_of (text_marks turn marks) in
  match pending_tail, Marks.get_last_ack_ts_for_turn turn (mark_event_meta_data s) with
  | _ :: _, Some last_ack =>
      if Qeq_bool last_ack Marks.q0 then heard
      else
        let tail := estimate_played_text_for_time pending_tail (Qmaxq Marks.q0 (Qminus at_time last_ack)) in
        if str_true tail
        then heard +:+ (if ends_with_space heard || starts_with_space tail then "" else " ") +:+ tail
        else heard
  | _, _ => heard
  end.

(** Marks without text, grouped by turn: sequence ids and pending duration. *)
Definition group_step (acc : dict Z (list Z * Q)) (m : mark) : dict Z (list Z * Q) :=
  if Marks.has_type Marks.PRE_MARK m then acc
  else match Marks.mk_turn_id m with
       | None => acc
       | Some t =>
           let entry := match dget t acc with Some e => e | None => ([], Marks.q0) end in
           let seqs := match Marks.mk_sequence_id m with
                       | Some q => if (q =? -1) || bool_decide (q ∈ entry.1) then entry.1 else entry.1 ++ [q]
                       | None => entry.1
                       end in
           dset t (seqs, Qplus entry.2 (Marks.duration_of m)) acc
       end.
Definition group_by_turn (marks : list (string * mark)) : dict Z (list Z * Q) :=
  foldl group_step [] (map snd marks).

Fixpoint max_key (l : list Z) : Z := match l with [] => 0 | [x] => x | x :: l' => Z.max x (max_key l') end.

Definition turn_duration (turn : Z) (stats : dict Z Marks.SequenceStats) : Q :=
  Marks.qsum (map Marks.sq_total_audio_duration
    (List.filter (fun e => bool_decide (Marks.sq_turn_id e = Some turn)) (dvalues stats))).
Definition sequences_duration (seqs : list Z) (stats : dict Z Marks.SequenceStats) : Q :=
  Marks.qsum (omap (fun q => Marks.sq_total_audio_duration <$> dget q stats) seqs).

(** [None]: everything was played, nothing to trim. *)
Definition heard_by_proportion (full_text : string) (total_dur pending_dur : Q) : option string :=
  if Qle_bool total_dur Marks.q0 then Some ""
  else
    let heard_dur := Qmaxq Marks.q0 (Qminus total_dur pending_dur) in
    let proportion := Qminq (Qmake 1 1) (Qdiv heard_dur total_dur) in
    if Qle_bool (Qmake 1 1) proportion then None
    else
      let full := strip full_text in
      if Qltb Marks.q0 proportion && str_true full
      then let char_count := Z.to_nat (py_trunc (Qmult (inject_Z (Z.of_nat (str_len full))) proportion)) in
           let char_count := if (char_count <? str_len full)%nat
                             then str_len (trim_partial_to_complete_words (Some (first_chars char_count full)))
                             else char_count in
           Some (first_chars char_count full)
      else Some "".

(** The estimate when nothing was confirmed; [None] leaves the history alone. *)
Definition estimate_heard (at_time : Q) (turn : option Z) (from_evidence : bool)
    (marks : list (string * mark)) (s : session) : option (string * option Z) :=
  match text_marks turn marks with
  | first :: _ as pending =>
      let started := match Marks.mk_sent_ts first with
                     | Some t => if Qltb Marks.q0 t then t else current_mark_started_time (input s)
                     | None => current_mark_started_time (input s)
                     end in
      let play_time := Qmaxq Marks.q0 (Qminus at_time started) in
      Some (estimate_played_text_for_time (map chunk_of pending) play_time, turn)
  | [] =>
      match group_by_turn marks with
      | [] => match turn with
              | None => None
              | Some _ => if from_evidence then Some ("", turn) else None
              end
      | _ :: _ as groups =>
          let t_id := match turn with
                      | Some t => if dhas t groups then t else max_key (dkeys groups)
                      | None => max_key (dkeys groups)
                      end in
          let info := match dget t_id groups with Some e => e | None => ([], Marks.q0) end in
          let full_text := match dget (Some t_id) (turn_msg_map s) with
                           | Some m => default "" (content_text m)
                           | None => ""
                           end in
          let stats := Marks.per_sequence (Marks.mark_stats (mark_event_meta_data s)) in
          let total := turn_duration t_id stats in
          let total := if Qle_bool total Marks.q0 then sequences_duration info.1 stats else total in
          match heard_by_proportion full_text total info.2 with
          | Some heard => Some (heard, Some t_id)
          | None => None
          end
      end
  end.

(** [str(msg.get("role")).lower() == "assistant"], and the response or the turn matches. *)
Definition is_target_row (uid : option string) (turn : option Z) (m : msg) : bool :=
  match mget "role" m with VStr r => bool_decide (lower r = "assistant") | _ => false end &&
  (val_eqb (mget "response_uid" m) (opt_text uid) || val_eqb (mget "turn_id" m) (opt_int turn)).

(** Write the heard text as the response's row, in both lists, and remember the row. *)
Definition materialize (uid : string) (turn : option Z) (heard : string) (s : session) : session :=
  let h := upsert_assistant_for_response (Some uid) (VStr heard) false turn (conversation_history s) in
  let h := upsert_assistant_for_response (Some uid) (VStr heard) true turn h in
  let s := with_history h s in
  match rindex (is_target_row (Some uid) turn) (messages h) with
  | Some i => with_turn_msg turn (default [] (messages h !! i)) s
  | None => s
  end.

Definition run_sync (f : history -> result history_error history) : SE session history_error unit := fun s =>
  match f (conversation_history s) with
  | Ok h => (with_history h s, Ok tt)
  | Err e => (s, Err e)
  end.

Definition apply_heard (t : target) (turn : option Z) (heard : string) : SE session history_error unit :=
  (fun s =>
     let s := match tg_uid t with
              | Some uid => if str_true heard then materialize uid turn heard s else s
              | None => s
              end in
     se_bind
       (match tg_uid t with
        | Some uid =>
            se_bind (run_sync (sync_response_after_interruption trim_fn (Some uid) (Some heard)))
              (fun _ => run_sync (sync_interim_response_after_interruption trim_fn (Some uid) (Some heard)))
        | None =>
            se_bind (run_sync (sync_turn_after_interruption trim_fn turn (Some heard)))
              (fun _ => run_sync (sync_interim_turn_after_interruption trim_fn turn (Some heard)))
        end)
       (fun _ => fun s => (with_hint (Some heard) s, Ok tt)) s).

(** The [except Exception] arm logs and returns: the outcome is the state alone. *)
Definition sync_history (marks : list (string * mark)) (interruption_processed_at : Q)
    (extend_with_playback_estimate : bool) (s : session) : session :=
  let t := choose_target marks s in
  let '(heard, turn) := confirmed_heard t s in
  if str_true heard then
    let heard := if extend_with_playback_estimate
                 then extend_with_tail interruption_processed_at turn heard marks s else heard in
    (apply_heard t turn heard s).1
  else match estimate_heard interruption_processed_at turn (tg_from_evidence t) marks s with
       | Some (heard, turn) => (apply_heard t turn heard s).1
       | None => s
       end.

(** ** Staged commits *)
Definition commit_staged_assistant_history (sequence_id : Z) (s : session) : session :=
  if bool_decide (sequence_id ∈ committed_assistant_sequences s) then s
  else match dget sequence_id (pending_assistant_history s) with
       | None => s
       | Some g =>
           let s := with_staging (ddel sequence_id (pending_assistant_history s))
                      (sequence_id :: committed_assistant_sequences s) s in
           let h := append_assistant (VStr (sg_content g)) None
                      [("turn_id", opt_int (sg_turn_id g)); ("response_uid", opt_text (sg_response_uid g));
                       ("message_category", opt_text (sg_message_category g))] (conversation_history s) in
           let s := with_history h s in
           match sg_turn_id g, last (messages h) with
           | Some t, Some m => with_turn_msg (Some t) m s
           | _, _ => s
           end
       end.

Definition stage_assistant_history (sequence_id : option Z) (g : staged) (s : session) : session :=
  match sequence_id with
  | None => s
  | Some q =>
      if negb (str_true (sg_content g)) || negb (str_true (strip (sg_content g))) then s
      else
        let s := with_staging (dset q g (pending_assistant_history s)) (committed_assistant_sequences s) s in
        if bool_decide (q ∈ sent_audio_sequences s) && negb (bool_decide (q ∈ blocked_sequences s))
        then commit_staged_assistant_history q s else s
  end.

Definition drop_staged_assistant_history (sequence_id : Z) (s : session) : session :=
  with_staging (ddel sequence_id (pending_assistant_history s)) (committed_assistant_sequences s) s.

(** ** Facts *)
Import HistoryFacts.

Lemma strip_infix s : exists pre post, chars s = pre ++ chars (strip s) ++ post.
Proof.
  unfold strip. rewrite chars_of_chars. unfold strip_chars.
  destruct (lstrip_chars_suffix (chars s)) as [pre Hpre].
  destruct (rstrip_chars_prefix (lstrip_chars (chars s))) as [post Hpost].
  exists pre, post. by rewrite <- Hpost.
Qed.

Lemma shorter_prefix_is_prefix original heard i p :
  shorter_prefix original heard i = Some p -> is_prefix p original /\ str_true p = true.
Proof.
  induction i as [|i IH]; [done|]. cbn [shorter_prefix].
  destruct (_ && _) eqn:E; [|done]. intros [= <-].
  apply andb_true_iff in E as [E1 E2]. split; [by apply startswith_spec|done].
Qed.

(** Trimming a response to what was heard never adds foreign text: for any heard
    text the result is a prefix of the original; it is empty when nothing was heard, and
    when the stripped heard text occurs in the original the result is the original up to
    the end of its first occurrence. *)
Theorem trim_to_heard_prefix original heard :
  (forall r, update_transcript_for_interruption (Some original) heard = Some r -> is_prefix r original) /\
  (exists r, update_transcript_for_interruption (Some original) heard = Some r) /\
  (forall h, heard = Some h -> strip h = "" ->
     update_transcript_for_interruption (Some original) heard = Some "") /\
  (forall h n, heard = Some h -> strip h <> "" -> find original (strip h) = Some n ->
     exists r, update_transcript_for_interruption (Some original) heard = Some r /\
       chars r = take n (chars original) ++ chars (strip h)).
Proof.
  assert (forall h, strip h = "" -> negb (str_true h) || negb (str_true (strip h)) = true) as Hb
    by (intros h ->; apply orb_true_r).
  assert (forall h, strip h <> "" -> negb (str_true h) || negb (str_true (strip h)) = false) as Hnb.
  { intros h Hh. destruct (str_true (strip h)) eqn:E; [|by apply str_true_false in E].
    destruct (str_true h) eqn:E'; [done|]. apply str_true_false in E' as ->. done. }
  split_and!.
  - intros r. unfold update_transcript_for_interruption. destruct heard as [h|]; [|by intros [= <-]; auto with voice].
    destruct (_ || _); [by intros [= <-]; auto with voice|].
    destruct (find original (strip h)); [by intros [= <-]; apply take_is_prefix|].
    destruct (_ && _); [|by intros [= <-]; auto with voice].
    destruct (shorter_prefix original (strip h) (str_len (strip h))) eqn:E; intros [= <-]; [|auto with voice].
    by apply shorter_prefix_is_prefix in E as [? _].
  - unfold update_transcript_for_interruption. repeat case_match; by eexists.
  - intros h -> Hh. unfold update_transcript_for_interruption. by rewrite Hb.
  - intros h n -> Hh Hf. unfold update_transcript_for_interruption. rewrite Hnb, Hf by done.
    eexists. split; [done|]. by apply find_take_suffix.
Qed.

(** ** Crediting chunks *)
Definition durations (l : list chunk) : Q := Marks.qsum (map ck_duration l).
Definition infix (p s : string) : Prop := exists pre post, chars s = pre ++ chars p ++ post.

Lemma infix_nil s : infix "" s.
Proof. by exists [], (chars s). Qed.
Lemma prefix_infix p s : is_prefix p s -> infix p s.
Proof. intros [post H]. by exists [], post. Qed.
Lemma infix_trans p q s : infix p q -> infix q s -> infix p s.
Proof.
  intros (a & b & H1) (c & d & H2). exists (c ++ a), (b ++ d). rewrite H2, H1. by rewrite !app_assoc.
Qed.

Lemma complete_words_infix s : infix (trim_partial_to_complete_words (Some s)) s.
Proof.
  unfold trim_partial_to_complete_words. destruct (negb _); [apply infix_nil|].
  destruct (rfind_char _ _) as [[|n]|]; [apply infix_nil| |apply infix_nil].
  eapply infix_trans; [apply prefix_infix, take_is_prefix|apply strip_infix].
Qed.

Lemma partial_chunk_infix c r : infix (partial_chunk c r) (ck_text c).
Proof.
  unfold partial_chunk. set (n := Z.to_nat _). destruct (_ && _).
  - eapply infix_trans; [apply complete_words_infix|apply prefix_infix, take_is_prefix].
  - apply prefix_infix, take_is_prefix.
Qed.

Lemma qsum_app l1 l2 : (Marks.qsum (l1 ++ l2) == Marks.qsum l1 + Marks.qsum l2)%Q.
Proof. induction l1 as [|x l1 IH]; simpl; [unfold Marks.q0; ring|]. rewrite IH. ring. Qed.

Lemma played_chunks_spec chunks : forall cum play,
  Forall (fun c => (Marks.q0 < ck_duration c)%Q) chunks ->
  exists whole tail, whole `prefix_of` chunks /\ played_chunks chunks cum play = map ck_text whole ++ tail /\
    (whole <> [] -> (cum + durations whole <= play)%Q) /\
    ((tail = [] /\ (whole = chunks \/ (play <= cum + durations whole)%Q)) \/
     exists c rest p, chunks = whole ++ c :: rest /\ tail = [p] /\ infix p (ck_text c) /\
       (cum + durations whole < play)%Q /\ (play < cum + durations (whole ++ [c]))%Q).
Proof.
  unfold durations. induction chunks as [|c rest IH]; intros cum play Hd.
  - exists [], []. split_and!; [done..|]. left. split; [done|by left].
  - apply Forall_cons in Hd as [Hc Hd]. cbn [played_chunks].
    destruct (Qle_bool play cum) eqn:E1.
    { apply Qle_bool_iff in E1. exists [], []. split_and!; [apply prefix_nil|done..|].
      left. split; [done|]. right. simpl. unfold Marks.q0. lra. }
    apply Qle_bool_gt in E1. destruct (Qle_bool (cum + ck_duration c) play) eqn:E2.
    + apply Qle_bool_iff in E2.
      destruct (IH (cum + ck_duration c)%Q play Hd) as (whole & tail & Hp & Heq & Hw & Ht).
      exists (c :: whole), tail. split_and!.
      * by apply prefix_cons.
      * by rewrite Heq.
      * intros _. simpl. destruct whole as [|w whole]; [simpl; unfold Marks.q0; lra|].
        specialize (Hw ltac:(done)). simpl in *. lra.
      * destruct Ht as [[-> [->|Hle]]|(c' & rest' & p & -> & -> & Hi & H1 & H2)].
        -- left. split; [done|by left].
        -- left. split; [done|right]. simpl. lra.
        -- right. exists c', rest', p. split_and!; [done..|simpl; lra|]. simpl. lra.
    + apply Qle_bool_gt in E2. exists [], [partial_chunk c (play - cum)].
      split_and!; [apply prefix_nil| |done|].
      * destruct rest as [|c2 rest]; [done|]. cbn [played_chunks].
        assert (Qle_bool play (cum + ck_duration c) = true) as -> by (apply Qle_bool_iff; lra). done.
      * right. exists c, rest, (partial_chunk c (play - cum)). split_and!; try done.
        -- apply partial_chunk_infix.
        -- simpl. unfold Marks.q0. lra.
        -- simpl. unfold Marks.q0. lra.
Qed.

(** The played-text estimate credits, for chunks of positive duration, exactly the
    chunks whose cumulative duration fits in the play time, then at most a part of the
    next chunk (the one the play time ends in), and nothing after it. *)
Theorem estimate_credits_fitting_chunks chunks play :
  Forall (fun c => (Marks.q0 < ck_duration c)%Q) chunks ->
  exists whole p, whole `prefix_of` chunks /\
    chars (estimate_played_text_for_time chunks play) = concat (map (fun c => chars (ck_text c)) whole) ++ chars p /\
    (whole <> [] -> (durations whole <= play)%Q) /\
    ((p = "" /\ (whole = chunks \/ (play <= durations whole)%Q)) \/
     exists c rest, chunks = whole ++ c :: rest /\ infix p (ck_text c) /\
       (durations whole < play)%Q /\ (play < durations (whole ++ [c]))%Q).
Proof.
  intros Hd. unfold estimate_played_text_for_time.
  destruct (played_chunks_spec chunks Marks.q0 play Hd) as (whole & tail & Hp & Heq & Hw & Ht).
  assert (forall t, chars (join "" (map ck_text whole ++ t)) =
    concat (map (fun c => chars (ck_text c)) whole) ++ concat (map chars t)) as Hj.
  { intros t. by rewrite join_nil_sep, List.map_app, concat_app, List.map_map. }
  rewrite Heq, Hj. unfold Marks.q0 in *.
  destruct Ht as [[-> Hcase]|(c & rest & p & Hc & -> & Hi & H1 & H2)].
  - exists whole, "". split_and!; [done..| |].
    + intros Hne. specialize (Hw Hne). lra.
    + left. split; [done|]. destruct Hcase as [?|?]; [by left|right; lra].
  - exists whole, p. simpl. rewrite app_nil_r. split_and!; [done..| |].
    + intros Hne. specialize (Hw Hne). lra.
    + right. exists c, rest. split_and!; [done..|lra|lra].
Qed.

(** ** The history after a sync *)
Definition users (l : list msg) : list msg := List.filter (role_is USER) l.
Definition same_users (h h' : history) : Prop :=
  users (messages h') = users (messages h) /\ users (interim h') = users (interim h).

Lemma run_sync_users b f h h' :
  (forall l l', f l = Ok l' -> users l' = users l) ->
  sync_with b f h = Ok h' -> same_users h h'.
Proof.
  unfold sync_with, same_users. intros Hf. destruct (f _) as [l|] eqn:E; [|done]. intros [= <-].
  apply Hf in E. by destruct b.
Qed.

Lemma trim_users p heard l l' : (forall m, p m = true -> role_is ASSISTANT m = true) ->
  trim_where trim_fn p heard l = Ok l' -> users l' = users l.
Proof.
  intros Hp H. apply spoken_users. apply trim_where_trimmed in H; [|eauto using assistant_has_role].
  by apply (trimmed_spoken_to _ _ _ _ _ Hp H).
Qed.

Lemma trim_response_users uid heard l l' :
  trim_assistant_for_response trim_fn uid heard l = Ok l' -> users l' = users l.
Proof.
  destruct uid as [u|]; simpl; [|by intros [= <-]]. apply trim_users. by intros m [? _]%andb_true_iff.
Qed.
Lemma trim_turn_users t heard l l' :
  trim_assistant_for_turn trim_fn t heard l = Ok l' -> users l' = users l.
Proof.
  destruct t as [n|]; simpl; [|by intros [= <-]]. apply trim_users. by intros m [? _]%andb_true_iff.
Qed.

Lemma preserves_run_sync h f :
  (forall h1 h2, f h1 = Ok h2 -> same_users h1 h2) ->
  preserves (fun s => same_users h (conversation_history s)) (run_sync f).
Proof.
  intros Hf s [H1 H2]. unfold run_sync. destruct (f (conversation_history s)) as [h'|] eqn:E; [|done].
  destruct (Hf _ _ E) as [E1 E2]. simpl. split; congruence.
Qed.

Lemma materialize_users uid turn heard h s :
  same_users h (conversation_history s) -> same_users h (conversation_history (materialize uid turn heard s)).
Proof.
  intros [H1 H2]. unfold materialize. cbv zeta.
  match goal with |- context [rindex ?p ?l] => destruct (rindex p l) end;
    simpl; unfold same_users, users in *; simpl; by rewrite !users_upsert_response.
Qed.

Lemma apply_heard_users t turn heard h s :
  same_users h (conversation_history s) -> same_users h (conversation_history (apply_heard t turn heard s).1).
Proof.
  intros Hs. unfold apply_heard. cbv zeta.
  set (s0 := match tg_uid t with Some uid => _ | None => s end).
  assert (same_users h (conversation_history s0)) as H0.
  { subst s0. destruct (tg_uid t); [|done]. destruct (str_true heard); [|done]. by apply materialize_users. }
  clearbody s0. revert s0 H0.
  apply (preserves_bind (fun s => same_users h (conversation_history s))); [|by intros _ s0 H0].
  destruct (tg_uid t) as [u|]; apply preserves_bind; [|intros _| |intros _];
    apply preserves_run_sync; intros h1 h2; apply run_sync_users; intros l l';
    eauto using trim_response_users, trim_turn_users.
Qed.

(** Whatever the marks, the clock and the heard text, synchronising the history
    with playback leaves the user rows of both history lists as they were, in order. *)
Theorem sync_history_keeps_users marks at_time extend s :
  same_users (conversation_history s) (conversation_history (sync_history marks at_time extend s)).
Proof.
  unfold sync_history. destruct (confirmed_heard _ s) as [heard turn].
  destruct (str_true heard); [by apply apply_heard_users|].
  destruct (estimate_heard _ _ _ _ _) as [[heard' turn']|]; [by apply apply_heard_users|done].
Qed.

(** Without evidence nothing is trimmed: with no marks, no heard text and no
    last-heard turn or response, the session is returned as it was, so a second cleanup
    cannot remove a row an earlier one committed. *)
Theorem sync_history_needs_evidence at_time extend s :
  in_last_heard_turn_id (input s) = None -> in_last_heard_response_uid (input s) = None ->
  in_heard_by_turn (input s) = [] -> in_heard_by_response (input s) = [] ->
  response_heard_by_user (input s) = "" ->
  Marks.heard_text_by_turn (mark_event_meta_data s) = [] ->
  Marks.heard_text_by_response (mark_event_meta_data s) = [] ->
  sync_history [] at_time extend s = s.
Proof.
  intros H1 H2 H3 H4 H5 H6 H7. unfold sync_history, choose_target, confirmed_heard.
  unfold get_latest_turn_id_from_marks, get_latest_response_uid_from_marks, latest_from_marks. simpl.
  rewrite H1, H2. simpl. unfold get_response_heard_for_response, get_response_heard_for_turn. rewrite H1, H2, H3, H4.
  unfold Marks.get_heard_text_for_response, Marks.get_heard_text_for_turn. rewrite H6, H7. simpl.
  assert (forall (o : option string), match o with Some u => strip (Marks.text_of u []) | None => "" end = "") as E1
    by (by intros []).
  assert (forall (o : option Z), match o with Some u => strip (Marks.text_of u []) | None => "" end = "") as E2
    by (by intros []).
  destruct (get_latest_assistant_response_uid _), (get_latest_assistant_turn_id _); simpl;
    rewrite ?E1, ?E2; simpl; rewrite ?H5; done.
Qed.

(** ** Staged commits *)
Inductive commit_call : Type :=
| Stage (q : option Z) (g : staged) | Commit (q : Z) | DropStaged (q : Z).
Definition commit_run (s : session) (c : commit_call) : session :=
  match c with
  | Stage q g => stage_assistant_history q g s
  | Commit q => commit_staged_assistant_history q s
  | DropStaged q => drop_staged_assistant_history q s
  end.

(** Rows grow by at most one for each sequence that becomes committed. *)
Definition commits_ok (h0 : nat) (c0 : nat) (s : session) : Prop :=
  NoDup (committed_assistant_sequences s) /\
  (length (messages (conversation_history s)) + c0 <= h0 + length (committed_assistant_sequences s))%nat.

Lemma append_assistant_length c tc kw h :
  (length (messages (append_assistant c tc kw h)) <= S (length (messages h)))%nat.
Proof.
  unfold append_assistant. destruct (last (messages h)) as [l|]; [destruct (same_response _ _ _)|];
    simpl; rewrite ?length_alter, ?length_app; simpl; lia.
Qed.

Lemma commits_ok_commit h0 c0 q s : commits_ok h0 c0 s -> commits_ok h0 c0 (commit_staged_assistant_history q s).
Proof.
  intros [Hn Hl]. unfold commit_staged_assistant_history. case_bool_decide as Hq; [done|].
  destruct (dget q _) as [g|]; [|done]. cbv zeta. cbn [conversation_history with_staging].
  match goal with |- context [append_assistant ?c ?t ?k ?h] =>
    pose proof (append_assistant_length c t k h); set (h' := append_assistant c t k h) in * end.
  assert (commits_ok h0 c0 (with_history h' (with_staging (ddel q (pending_assistant_history s))
    (q :: committed_assistant_sequences s) s))) as Hok.
  { split; simpl; [by apply NoDup_cons|]. simpl in *. lia. }
  destruct (sg_turn_id g); [|done]. destruct (last (messages h')); done.
Qed.

(** Over any interleaving of staging, committing and dropping, each sequence is
    committed at most once and adds at most one row: the history grows by no more rows
    than sequences became committed, and committing a committed sequence again, even
    after it was staged again, changes nothing. *)
Theorem staged_commit_at_most_once calls s :
  NoDup (committed_assistant_sequences s) ->
  let s' := foldl commit_run s calls in
  NoDup (committed_assistant_sequences s') /\
  (length (messages (conversation_history s')) + length (committed_assistant_sequences s) <=
   length (messages (conversation_history s)) + length (committed_assistant_sequences s'))%nat /\
  (forall q, q ∈ committed_assistant_sequences s' -> commit_staged_assistant_history q s' = s') /\
  (forall q g, q ∈ committed_assistant_sequences s' ->
     conversation_history (stage_assistant_history (Some q) g s') = conversation_history s').
Proof.
  intros Hn s'.
  assert (commits_ok (length (messages (conversation_history s))) (length (committed_assistant_sequences s)) s') as [H1 H2].
  { subst s'. set (h0 := length (messages _)). set (c0 := length (committed_assistant_sequences s)).
    assert (commits_ok h0 c0 s) as H0 by done. clearbody h0 c0. clear Hn.
    revert s H0. induction calls as [|c calls IH]; intros s H0; [done|]. simpl. apply IH.
    destruct c as [q g|q|q]; simpl; [|by apply commits_ok_commit|done].
    unfold stage_assistant_history. destruct q as [q|]; [|done]. destruct (_ || _); [done|]. cbv zeta.
    destruct (_ && _); [|done]. by apply commits_ok_commit. }
  split_and!; [done..| |].
  - intros q Hq. unfold commit_staged_assistant_history. by rewrite bool_decide_true.
  - intros q g Hq. unfold stage_assistant_history. destruct (_ || _); [done|]. cbv zeta.
    destruct (_ && _); [|done]. unfold commit_staged_assistant_history. by rewrite bool_decide_true.
Qed.

(** ** A concrete session *)
Definition no_input : input_view := mkInput [] [] None None "" Marks.q0.
Definition fresh_session : session :=
  mkSession (mkHistory [user_row "hi"; reply_row "r1" "hello world"] []) Marks.init no_input [] None [] [] [] [].
Definition two_chunks : list chunk := [mkChunk "hello " (Qmake 1 1); mkChunk "big wide world" (Qmake 2 1)].

Lemma trim_to_heard_prefix_witness :
  update_transcript_for_interruption (Some "hello big world") (Some "hello big ") = Some "hello big" /\
  is_prefix "hello big" "hello big world".
Proof.
  split; [vm_compute; reflexivity|].
  apply (trim_to_heard_prefix "hello big world" (Some "hello big ")). vm_compute. reflexivity.
Defined.

Lemma estimate_credits_fitting_chunks_witness :
  estimate_played_text_for_time two_chunks (Qmake 2 1) = "hello big" /\
  exists whole p, whole `prefix_of` two_chunks /\
    chars (estimate_played_text_for_time two_chunks (Qmake 2 1)) =
    concat (map (fun c => chars (ck_text c)) whole) ++ chars p.
Proof.
  split; [vm_compute; reflexivity|].
  destruct (estimate_credits_fitting_chunks two_chunks (Qmake 2 1)) as (w & p & H1 & H2 & _).
  { repeat constructor; done. }
  exists w, p. split; [exact H1|exact H2].
Defined.

Lemma sync_history_needs_evidence_witness : sync_history [] (Qmake 9 1) false fresh_session = fresh_session.
Proof. by apply (sync_history_needs_evidence (Qmake 9 1) false fresh_session). Defined.

Lemma staged_commit_at_most_once_witness :
  let s := foldl commit_run fresh_session
    [Stage (Some 1) (mkStaged "ok" (Some 1) (Some "r2") None); Commit 1; Commit 1] in
  committed_assistant_sequences s = [1] /\ NoDup (committed_assistant_sequences s).
Proof.
  split; [vm_compute; reflexivity|].
  apply (staged_commit_at_most_once
    [Stage (Some 1) (mkStaged "ok" (Some 1) (Some "r2") None); Commit 1; Commit 1] fresh_session).
  apply NoDup_nil_2.
Defined.
End HistorySync.
