(* ===== verification/Expr.v ===== *)
(** * Routing expressions (src/voiceai/helpers/expression_evaluator.py)

    The deterministic evaluator of graph edges over [context_data]. [str()] of a
    float, a list or a dict is not modelled here: it is the argument [str_other].
    Membership tests compare by [==] (Python also accepts the identical object,
    which differs for NaN only). A raised exception is an [Err]. *)
From S2P Require Import Prelude PyText PyVal.
From Stdlib Require Import QArith.QArith.
Close Scope Q_scope.
Open Scope Z_scope.

Inductive ExpressionOperator : Type :=
| EQ | NEQ | GT | GTE | LT_ | LTE | IN_ | NOT_IN | CONTAINS | EXISTS | NOT_EXISTS.
#[export] Instance operator_eq_dec : EqDecision ExpressionOperator.
Proof. solve_decision. Defined.
(** The strings of the enum; any other operator string is [None]. *)
Definition operator_of (s : string) : option ExpressionOperator :=
  dget s [("eq", EQ); ("neq", NEQ); ("gt", GT); ("gte", GTE); ("lt", LT_); ("lte", LTE); ("in", IN_);
          ("not_in", NOT_IN); ("contains", CONTAINS); ("exists", EXISTS); ("not_exists", NOT_EXISTS)].

Inductive VariableType : Type := STRING | NUMBER | BOOLEAN.
Definition variable_type_of (v : val) : option VariableType :=
  match v with
  | VStr s => dget s [("string", STRING); ("number", NUMBER); ("boolean", BOOLEAN)]
  | _ => None
  end.

Definition AND : string := "and".
Definition OR : string := "or".
Definition UNCONDITIONAL : string := "unconditional".
Definition EXPRESSION : string := "expression".
Definition EVENT : string := "event".

Record condition := mkCondition { cd_variable : string; cd_operator : string; cd_value : val }.
Record group := mkGroup { gr_logic : option string; gr_conditions : list condition }.

Section evaluator.
Context (str_other : val -> string).
Notation context := (dict string val).

(** [None] is [_MISSING]. *)
Fixpoint resolve_path (current : val) (segments : list string) : option val :=
  match segments with
  | [] => Some current
  | segment :: rest =>
      match current with
      | VDict d => match dget segment d with Some v => resolve_path v rest | None => None end
      | _ => None
      end
  end.
Definition resolve_variable (context_data : context) (path : string) : option val :=
  resolve_path (VDict context_data) (split_on "."%char path).

Definition TRUE_TOKENS : list string := ["true"; "1"; "yes"].
Definition FALSE_TOKENS : list string := ["false"; "0"; "no"].
Definition token (s : string) : string := lower (strip s).

Definition is_bool_like (value : val) : bool :=
  match value with
  | VBool _ => true
  | VStr s => bool_decide (token s ∈ TRUE_TOKENS ++ FALSE_TOKENS)
  | _ => false
  end.

Definition to_bool (value : val) : result exn bool :=
  match value with
  | VBool b => Ok b
  | VInt _ | VFloat _ => Ok (truthy value)
  | VStr s => if bool_decide (token s ∈ TRUE_TOKENS) then Ok true
              else if bool_decide (token s ∈ FALSE_TOKENS) then Ok false else Err ValueError
  | _ => Err ValueError
  end.

(** [str(v)] *)
Definition py_str (v : val) : string :=
  match v with
  | VNone => "None"
  | VBool b => if b then "True" else "False"
  | VInt z => str_of_Z z
  | VStr s => s
  | _ => str_other v
  end.

Definition coerce_value (value : val) (declared_type : VariableType) : result exn val :=
  match declared_type with
  | STRING => Ok (VStr (py_str value))
  | NUMBER => match to_float value with Ok f => Ok (VFloat f) | Err e => Err e end
  | BOOLEAN => match to_bool value with Ok b => Ok (VBool b) | Err e => Err e end
  end.
Fixpoint coerce_list (l : list val) (t : VariableType) : result exn (list val) :=
  match l with
  | [] => Ok []
  | v :: l' => match coerce_value v t with
               | Err e => Err e
               | Ok v' => match coerce_list l' t with Ok r => Ok (v' :: r) | Err e => Err e end
               end
  end.

(** An unknown type name falls back to inference. *)
Definition resolve_declared_type (variable : string) (variable_types : context) : option VariableType :=
  match dget variable variable_types with Some raw => variable_type_of raw | None => None end.

Definition comparison (o : option ExpressionOperator) : bool :=
  match o with Some (EQ | NEQ | GT | GTE | LT_ | LTE) => true | _ => false end.

Definition coerce_operands (actual expected : val) (operator : option ExpressionOperator)
    (declared_type : option VariableType) : result exn (val * val) :=
  match declared_type with
  | Some t =>
      match coerce_value actual t with
      | Err e => Err e
      | Ok a =>
          match expected with
          | VList l => match coerce_list l t with Ok l' => Ok (a, VList l') | Err e => Err e end
          | VNone => Ok (a, VNone)
          | _ => match coerce_value expected t with Ok x => Ok (a, x) | Err e => Err e end
          end
      end
  | None =>
      if negb (comparison operator) then Ok (actual, expected)
      else if same_type actual expected then Ok (actual, expected)
      else if match expected with VBool _ => is_bool_like actual | _ => false end then
        match to_bool actual with Ok b => Ok (VBool b, expected) | Err e => Err e end
      else if is_num_or_str actual && is_num_or_str expected then
        match to_float actual with
        | Ok a => match to_float expected with
                  | Ok x => Ok (VFloat a, VFloat x)
                  | Err OverflowError => Err OverflowError
                  | Err _ => Ok (actual, expected)
                  end
        | Err OverflowError => Err OverflowError
        | Err _ => Ok (actual, expected)
        end
      else Ok (actual, expected)
  end.

Definition compare (o : ExpressionOperator) (a b : val) : bool :=
  match o with
  | EQ => val_eqb a b
  | NEQ => negb (val_eqb a b)
  | GT => default false (val_cmp OpGt a b)
  | GTE => default false (val_cmp OpGe a b)
  | LT_ => default false (val_cmp OpLt a b)
  | LTE => default false (val_cmp OpLe a b)
  | _ => false
  end.

(** Only [TypeError] and [ValueError] of the coercion are caught. *)
Definition evaluate_condition (c : condition) (context_data variable_types : context) : result exn bool :=
  let actual := resolve_variable context_data (cd_variable c) in
  match operator_of (cd_operator c), actual with
  | Some EXISTS, _ => Ok (match actual with Some _ => true | None => false end)
  | Some NOT_EXISTS, _ => Ok (match actual with Some _ => false | None => true end)
  | _, None => Ok false
  | o, Some actual =>
      match coerce_operands actual (cd_value c) o (resolve_declared_type (cd_variable c) variable_types) with
      | Err OverflowError => Err OverflowError
      | Err _ => Ok false
      | Ok (a, x) =>
          match o with
          | Some IN_ => Ok (match x with VList l => val_in a l | _ => false end)
          | Some NOT_IN => Ok (match x with VList l => negb (val_in a l) | _ => true end)
          | Some CONTAINS => Ok (match a, x with
                                 | VStr s, VStr p => contains s p
                                 | VList l, _ => val_in x l
                                 | _, _ => false
                                 end)
          | Some o => Ok (compare o a x)
          | None => Ok false
          end
      end
  end.

(** [any] and [all] stop at the first decisive condition; an exception stops them too. *)
Fixpoint any_of (cs : list condition) (ctx types : context) : result exn bool :=
  match cs with
  | [] => Ok false
  | c :: cs' => match evaluate_condition c ctx types with
                | Ok true => Ok true
                | Ok false => any_of cs' ctx types
                | Err e => Err e
                end
  end.
Fixpoint all_of (cs : list condition) (ctx types : context) : result exn bool :=
  match cs with
  | [] => Ok true
  | c :: cs' => match evaluate_condition c ctx types with
                | Ok true => all_of cs' ctx types
                | Ok false => Ok false
                | Err e => Err e
                end
  end.

Definition evaluate_expression_group (g : group) (ctx types : context) : result exn bool :=
  match gr_conditions g with
  | [] => Ok false
  | cs => if bool_decide (gr_logic g = Some OR) then any_of cs ctx types else all_of cs ctx types
  end.

(** An edge's [condition_type] and [expression]. *)
Definition evaluate_edge_expression (condition_type : option string) (expression : option group)
    (ctx types : context) : result exn bool :=
  if bool_decide (condition_type = Some UNCONDITIONAL) then Ok true
  else if negb (bool_decide (condition_type = Some EXPRESSION)) then Ok false
  else match expression with
       | None => Ok false
       | Some g => evaluate_expression_group g ctx types
       end.

(** [describe_edge_expression], up to the text: the trace evaluates every condition again,
    without stopping at the decisive one. *)
Fixpoint describe_conditions (cs : list condition) (ctx types : context) : result exn unit :=
  match cs with
  | [] => Ok tt
  | c :: cs' => match evaluate_condition c ctx types with
                | Ok _ => describe_conditions cs' ctx types
                | Err e => Err e
                end
  end.
Definition describe_edge_expression (condition_type : option string) (expression : option group)
    (ctx types : context) : result exn unit :=
  if bool_decide (condition_type = Some UNCONDITIONAL) then Ok tt
  else if negb (bool_decide (condition_type = Some EXPRESSION)) then Ok tt
  else match expression with
       | None => Ok tt
       | Some g => describe_conditions (gr_conditions g) ctx types
       end.

(** ** Facts *)

(** Values whose conversion to a float cannot overflow. *)
Definition small (v : val) : Prop := to_float v <> Err OverflowError.

Lemma to_bool_error v e : to_bool v = Err e -> e = ValueError.
Proof. unfold to_bool. destruct v; repeat case_match; intros; by simplify_eq. Qed.

Lemma to_float_error v e : to_float v = Err e -> e <> OverflowError \/ ~ small v.
Proof.
  intros H. destruct e; [by left|by left|right]. intros Hs. by apply Hs.
Qed.

Lemma coerce_value_small v t e : small v -> coerce_value v t = Err e -> e <> OverflowError.
Proof.
  intros Hs. destruct t; simpl; [done| |].
  - destruct (to_float v) eqn:E; [done|]. intros [= <-] ->. by apply Hs.
  - destruct (to_bool v) eqn:E; [done|]. apply to_bool_error in E as ->. by intros [= <-].
Qed.

Lemma coerce_list_small l t e : Forall small l -> coerce_list l t = Err e -> e <> OverflowError.
Proof.
  induction 1 as [|v l Hv _ IH]; simpl; [done|].
  destruct (coerce_value v t) eqn:E; [|intros [= <-]; by eapply coerce_value_small].
  destruct (coerce_list l t) eqn:El; [done|]. intros [= <-]. by apply IH.
Qed.

Definition small_operand (v : val) : Prop := small v /\ forall l, v = VList l -> Forall small l.

Lemma coerce_operands_small a x o t e : small a -> small_operand x ->
  coerce_operands a x o t = Err e -> e <> OverflowError.
Proof.
  intros Ha [Hx Hl]. unfold coerce_operands. destruct t as [t|].
  - destruct (coerce_value a t) eqn:Ea; [|intros [= <-]; by eapply (coerce_value_small a)].
    assert (forall v e', v = x -> coerce_value v t = Err e' -> e' <> OverflowError) as Hc
      by (intros v e' ->; by apply coerce_value_small).
    destruct x as [| | | | |l|]; try done; try (match goal with |- context [coerce_value ?v t] => destruct (coerce_value v t) eqn:Ex end; [done|]; intros [= <-]; by eapply (Hc _ _ eq_refl)).
    destruct (coerce_list l t) eqn:El; [done|]. intros [= <-]. eapply coerce_list_small; [by apply Hl|done].
  - destruct (negb _); [done|]. destruct (same_type a x); [done|].
    destruct (match x with VBool _ => is_bool_like a | _ => false end).
    { destruct (to_bool a) eqn:E; [done|]. apply to_bool_error in E as ->. by intros [= <-]. }
    destruct (_ && _); [|done].
    destruct (to_float a) as [fa|ea] eqn:Ea; [|destruct ea; try done; by destruct Ha].
    destruct (to_float x) as [fx|ex] eqn:Ex; [done|]. by destruct ex.
Qed.

Lemma any_of_spec cs ctx types :
  (forall c, c ∈ cs -> exists b, evaluate_condition c ctx types = Ok b) ->
  exists b, any_of cs ctx types = Ok b /\
    (b = true <-> exists c, c ∈ cs /\ evaluate_condition c ctx types = Ok true).
Proof.
  induction cs as [|c cs IH]; intros H; simpl; [exists false; set_solver|].
  destruct (H c) as [b Hb]; [set_solver|]. rewrite Hb. destruct b.
  - exists true. split; [done|]. split; [|done]. intros _. exists c. split; [set_solver|done].
  - destruct IH as (b & Hb' & Hspec); [set_solver|]. exists b. split; [done|]. rewrite Hspec. split.
    + intros (c' & Hc' & He). exists c'. set_solver.
    + intros (c' & [->|Hc']%elem_of_cons & He); [congruence|]. by exists c'.
Qed.

Lemma all_of_spec cs ctx types :
  (forall c, c ∈ cs -> exists b, evaluate_condition c ctx types = Ok b) ->
  exists b, all_of cs ctx types = Ok b /\
    (b = true <-> forall c, c ∈ cs -> evaluate_condition c ctx types = Ok true).
Proof.
  induction cs as [|c cs IH]; intros H; simpl; [exists true; set_solver|].
  destruct (H c) as [b Hb]; [set_solver|]. rewrite Hb. destruct b.
  - destruct IH as (b & Hb' & Hspec); [set_solver|]. exists b. split; [done|]. rewrite Hspec. set_solver.
  - exists false. split; [done|]. split; [done|]. intros Hall. specialize (Hall c ltac:(set_solver)). congruence.
Qed.

Lemma evaluate_condition_small c ctx types :
  (forall v, resolve_variable ctx (cd_variable c) = Some v -> small v) -> small_operand (cd_value c) ->
  exists b, evaluate_condition c ctx types = Ok b.
Proof.
  intros Hv Hx. unfold evaluate_condition.
  destruct (resolve_variable ctx (cd_variable c)) as [a|] eqn:Ea.
  - specialize (Hv a eq_refl).
    destruct (operator_of (cd_operator c)) as [[]|]; try (by eexists);
      (match goal with |- context [coerce_operands ?a ?x ?o ?t] =>
         destruct (coerce_operands a x o t) as [[a' x']|e] eqn:Ec end; [by eexists|];
       apply coerce_operands_small in Ec; [|done..]; destruct e; try done; by eexists).
  - destruct (operator_of (cd_operator c)) as [[]|]; by eexists.
Qed.

(** On contexts and conditions whose integers fit a float, an edge's expression
    always evaluates: OR groups to "some condition holds", AND groups to "all hold", an
    empty group to false, whatever the types of the operands. *)
Theorem expression_group_semantics g ctx types :
  (forall c, c ∈ gr_conditions g ->
     (forall v, resolve_variable ctx (cd_variable c) = Some v -> small v) /\ small_operand (cd_value c)) ->
  exists b, evaluate_edge_expression (Some EXPRESSION) (Some g) ctx types = Ok b /\
    (b = true <-> gr_conditions g <> [] /\
      if bool_decide (gr_logic g = Some OR)
      then exists c, c ∈ gr_conditions g /\ evaluate_condition c ctx types = Ok true
      else forall c, c ∈ gr_conditions g -> evaluate_condition c ctx types = Ok true).
Proof.
  intros H. unfold evaluate_edge_expression. rewrite bool_decide_false, bool_decide_true by done. simpl.
  unfold evaluate_expression_group.
  assert (forall c, c ∈ gr_conditions g -> exists b, evaluate_condition c ctx types = Ok b) as Hc.
  { intros c Hin. destruct (H c Hin). by apply evaluate_condition_small. }
  destruct (gr_conditions g) as [|c0 cs]; [exists false; naive_solver|]. case_bool_decide.
  - destruct (any_of_spec (c0 :: cs) ctx types Hc) as (b & -> & Hb). exists b. rewrite Hb. naive_solver.
  - destruct (all_of_spec (c0 :: cs) ctx types Hc) as (b & -> & Hb). exists b. rewrite Hb. naive_solver.
Qed.

(** A condition on a variable that is not in the context is false for every
    operator except [not_exists]; and the evaluator raises nothing but the overflow of
    converting an integer beyond the float range, which it does raise. *)
Theorem condition_missing_and_errors c ctx types :
  (resolve_variable ctx (cd_variable c) = None ->
     evaluate_condition c ctx types = Ok (bool_decide (operator_of (cd_operator c) = Some NOT_EXISTS))) /\
  (forall e, evaluate_condition c ctx types = Err e -> e = OverflowError) /\
  evaluate_condition (mkCondition "n" "gt" (VStr "1")) [("n", VInt (10 ^ 309))] [] = Err OverflowError.
Proof.
  split_and!.
  - unfold evaluate_condition. intros ->. destruct (operator_of (cd_operator c)) as [[]|]; done.
  - intros e. unfold evaluate_condition.
    destruct (resolve_variable ctx (cd_variable c)) as [a|].
    + destruct (operator_of (cd_operator c)) as [[]|]; try done;
        destruct (coerce_operands _ _ _ _) as [[a' x']|[]]; intros; by simplify_eq.
    + destruct (operator_of (cd_operator c)) as [[]|]; done.
  - vm_compute. reflexivity.
Qed.

(** For an undeclared variable that holds an integer the six comparison operators
    against an integer are the integer comparisons, and [in] and [not_in] on a list, and
    [exists] and [not_exists], are each other's negation. *)
Theorem operators_on_integers v a b ctx types :
  resolve_variable ctx v = Some (VInt a) -> resolve_declared_type v types = None ->
  evaluate_condition (mkCondition v "eq" (VInt b)) ctx types = Ok (a =? b) /\
  evaluate_condition (mkCondition v "neq" (VInt b)) ctx types = Ok (negb (a =? b)) /\
  evaluate_condition (mkCondition v "gt" (VInt b)) ctx types = Ok (b <? a) /\
  evaluate_condition (mkCondition v "gte" (VInt b)) ctx types = Ok (b <=? a) /\
  evaluate_condition (mkCondition v "lt" (VInt b)) ctx types = Ok (a <? b) /\
  evaluate_condition (mkCondition v "lte" (VInt b)) ctx types = Ok (a <=? b) /\
  (forall l, exists r, evaluate_condition (mkCondition v "in" (VList l)) ctx types = Ok r /\
     evaluate_condition (mkCondition v "not_in" (VList l)) ctx types = Ok (negb r)) /\
  (forall x, exists r, evaluate_condition (mkCondition v "exists" x) ctx types = Ok r /\
     evaluate_condition (mkCondition v "not_exists" x) ctx types = Ok (negb r)).
Proof.
  intros Hv Ht. unfold evaluate_condition. cbn [cd_variable cd_operator cd_value].
  rewrite Hv, Ht. simpl. unfold num_cmp. simpl.
  assert (Qeq_bool (inject_Z a) (inject_Z b) = (a =? b)) as Eeq.
  { apply eq_iff_eq_true. rewrite Qeq_bool_iff, Z.eqb_eq. unfold Qeq. simpl. lia. }
  assert (forall x y, Qltb (inject_Z x) (inject_Z y) = (x <? y)) as Elt.
  { intros x y. apply eq_iff_eq_true. rewrite Qltb_lt, Z.ltb_lt. by rewrite Zlt_Qlt. }
  rewrite Eeq, !Elt. split_and!; try done.
  - f_equal. destruct (Z.ltb_spec b a), (Z.eqb_spec a b), (Z.leb_spec b a); simpl; try done; lia.
  - f_equal. destruct (Z.ltb_spec a b), (Z.eqb_spec a b), (Z.leb_spec a b); simpl; try done; lia.
  - intros l. by eexists.
  - intros x. by eexists.
Qed.
End evaluator.

(** ** Concrete conditions *)
Definition no_repr (_ : val) : string := "".
Definition sample_context : dict string val := [("age", VInt 30); ("name", VStr "Ana")].
Definition sample_group : group := mkGroup (Some OR) [mkCondition "age" "gte" (VInt 18); mkCondition "vip" "eq" (VBool true)].

Lemma expression_group_semantics_witness :
  evaluate_edge_expression no_repr (Some EXPRESSION) (Some sample_group) sample_context [] = Ok true /\
  exists b, evaluate_edge_expression no_repr (Some EXPRESSION) (Some sample_group) sample_context [] = Ok b.
Proof.
  split; [vm_compute; reflexivity|].
  destruct (expression_group_semantics no_repr sample_group sample_context []) as (b & Hb & _).
  - intros c Hc. apply elem_of_cons in Hc as [->|Hc]; [|apply elem_of_cons in Hc as [->|Hc]; [|by apply elem_of_nil in Hc]].
    + split; [|split; [done|by intros l]]. intros v [= <-]. done.
    + split; [|split; [done|by intros l]]. intros v. done.
  - exists b. exact Hb.
Defined.

Lemma condition_missing_and_errors_witness :
  evaluate_condition no_repr (mkCondition "vip" "neq" (VBool true)) sample_context [] = Ok false.
Proof. by apply (condition_missing_and_errors no_repr (mkCondition "vip" "neq" (VBool true)) sample_context []). Defined.

Lemma operators_on_integers_witness :
  evaluate_condition no_repr (mkCondition "age" "gt" (VInt 18)) sample_context [] = Ok true.
Proof.
  refine (proj1 (proj2 (proj2 (operators_on_integers no_repr "age" 30 18 sample_context [] _ _)))); reflexivity.
Defined.
