(* ===== verification/GraphNav.v ===== *)
(** * Graph traversal and routing
    (src/voiceai/modules/agents/brains/graph/{traversal,routing,generation}.py)

    The routing of one conversational turn over an agent's node graph. The routing
    model's answer and the time variables (clock and time-zone database) are
    arguments. Prompts, telemetry payloads and latencies are left out. *)
From S2P Require Import Prelude PyText PyVal History Expr.
Open Scope Z_scope.
Open Scope voice_scope.

Definition LLM : string := "llm".
Definition ROUTER : string := "router".
Definition GRAPH_SILENCE_MESSAGE_PREFIX : string := "[silence]".
Definition GRAPH_STAY_ON_CURRENT_NODE_FUNCTION : string := "stay_on_current_node".
Definition TRANSITION_FUNCTION_PREFIX : string := "transition_to_".
Definition DEFAULT_DETERMINISTIC_PRIORITY : Z := 0.
Definition DEFAULT_LLM_PRIORITY : Z := 100.

Record edge := mkEdge {
  to_node_id : string; function_name : option string; condition_type : option string;
  priority : option Z; event_name : option string; expression : option group }.
Record node := mkNode { node_id : string; node_type : option string; edges : list edge }.

Record agent := mkAgent {
  nodes : list node; context_data : dict string val; variable_types : dict string val;
  current_node_id : string; current_node_entry_index : nat; silence_repeats : Z;
  first_response_delivered : bool; hold_until_first_delivery : bool; node_history : list string }.

Definition set_context (c : dict string val) (a : agent) : agent :=
  mkAgent (nodes a) c (variable_types a) (current_node_id a) (current_node_entry_index a) (silence_repeats a)
    (first_response_delivered a) (hold_until_first_delivery a) (node_history a).
Definition set_silence (n : Z) (a : agent) : agent :=
  mkAgent (nodes a) (context_data a) (variable_types a) (current_node_id a) (current_node_entry_index a) n
    (first_response_delivered a) (hold_until_first_delivery a) (node_history a).

Module GraphNav.

(** [GRAPH_TO_NODE_ID_KEY] lookups by id: the first node with it. *)
Definition get_node_by_id (a : agent) (id : string) : option node :=
  List.find (fun n => bool_decide (node_id n = id)) (nodes a).
Definition node_type_of (n : option node) : string :=
  match n with Some n => default LLM (node_type n) | None => LLM end.
Definition is_router (a : agent) (id : string) : bool :=
  bool_decide (node_type_of (get_node_by_id a id) = ROUTER).

(** [edge.get("function_name") or f"transition_to_{...}"] *)
Definition edge_function_name (e : edge) : string :=
  match function_name e with
  | Some f => if str_true f then f else TRANSITION_FUNCTION_PREFIX +:+ to_node_id e
  | None => TRANSITION_FUNCTION_PREFIX +:+ to_node_id e
  end.
Definition get_edge_by_function_name (es : list edge) (name : string) : option edge :=
  List.find (fun e => bool_decide (edge_function_name e = name)) es.

Definition has_condition (ty : string) (e : edge) : bool := bool_decide (condition_type e = Some ty).
Definition edge_priority (d : Z) (e : edge) : Z := default d (priority e).
Definition priority_le (d : Z) (e f : edge) : bool := edge_priority d e <=? edge_priority d f.

Definition classify_edges (es : list edge) : list edge * list edge :=
  let plain := List.filter (fun e => negb (has_condition EVENT e)) es in
  let det e := has_condition EXPRESSION e || has_condition UNCONDITIONAL e in
  (sort_by (priority_le DEFAULT_DETERMINISTIC_PRIORITY) (List.filter det plain),
   sort_by (priority_le DEFAULT_LLM_PRIORITY) (List.filter (fun e => negb (det e)) plain)).

Definition catch_all_edge (n : node) : option edge :=
  min_by (priority_le DEFAULT_DETERMINISTIC_PRIORITY) (List.filter (has_condition UNCONDITIONAL) (edges n)).

(** [advance_to_node] *)
Definition push_history (id : string) (h : list string) : list string :=
  match last h with
  | Some x => if bool_decide (x = id) then h else h ++ [id]
  | None => h ++ [id]
  end.
Definition advance_to_node (id : string) (entry_index : nat) (a : agent) : agent :=
  mkAgent (nodes a) (context_data a) (variable_types a) id entry_index 0 false
    (hold_until_first_delivery a) (push_history id (node_history a)).

Definition mark_first_response_delivered (a : agent) : agent :=
  mkAgent (nodes a) (context_data a) (variable_types a) (current_node_id a) (current_node_entry_index a)
    (silence_repeats a) true (hold_until_first_delivery a) (node_history a).

Definition should_hold_for_first_delivery (a : agent) (n : option node) : bool :=
  hold_until_first_delivery a && match n with Some _ => true | None => false end &&
  bool_decide (node_type_of n = LLM) && negb (first_response_delivered a).

(** ** External events *)
Record event_result := mkEventResult {
  er_matched : bool; er_event : string; er_previous_node : option string; er_new_node_id : option string;
  er_node_type : option string }.

Definition process_event (event : string) (properties : dict string val) (a : agent) : agent * event_result :=
  let a := set_context (dset "_last_event" (VStr event) (dupdate (context_data a) properties)) a in
  let no_match := mkEventResult false event None None None in
  match get_node_by_id a (current_node_id a) with
  | None => (a, no_match)
  | Some n =>
      let event_edges := sort_by (priority_le DEFAULT_DETERMINISTIC_PRIORITY)
                           (List.filter (has_condition EVENT) (edges n)) in
      match List.find (fun e => bool_decide (event_name e = Some event)) event_edges with
      | None => (a, no_match)
      | Some e =>
          let a' := advance_to_node (to_node_id e) 0 a in
          (a', mkEventResult true event (Some (current_node_id a)) (Some (to_node_id e))
                 (Some (node_type_of (get_node_by_id a' (to_node_id e)))))
      end
  end.

Section routing.
(** [str()] of composite values; the time variables; the routing model: the
    function it calls with its arguments, [Ok None] when it calls none, [Err] when
    the request or its answer fails. *)
Context (str_other : val -> string).
Context (enrich_time : string -> dict string val -> dict string val).
Context (routing_create : agent -> node -> list edge -> bool -> list msg ->
           result unit (option (string * dict string val))).

Definition user_turns (history : list msg) : Z := Z.of_nat (length (List.filter (role_is USER) history)).
Definition compute_turn_counts (a : agent) (history : list msg) : Z * Z :=
  (user_turns (drop (current_node_entry_index a) history), user_turns history).

Definition enrich_routing_context (history : list msg) (a : agent) : agent :=
  let ctx := match dget "recipient_data" (context_data a) with
             | Some (VDict d) => match dget "timezone" d with
                                 | Some (VStr tz) => if str_true tz then enrich_time tz (context_data a) else context_data a
                                 | _ => context_data a
                                 end
             | _ => context_data a
             end in
  let '(node_turns, total_turns) := compute_turn_counts a history in
  set_context (dset "_silence_repeats" (VInt (silence_repeats a))
    (dset "_total_turns" (VInt total_turns) (dset "_node_turns" (VInt node_turns) ctx))) a.

Definition edge_matches (a : agent) (e : edge) : result exn bool :=
  evaluate_edge_expression str_other (condition_type e) (expression e) (context_data a) (variable_types a).

(** [evaluate_deterministic_edges]: the first edge that matches. The trace of an edge is
    written before it is taken, and may raise where the match did not. *)
Fixpoint evaluate_deterministic_edges (a : agent) (es : list edge) : result exn (option edge) :=
  match es with
  | [] => Ok None
  | e :: es' =>
      match edge_matches a e with
      | Err x => Err x
      | Ok is_match =>
          match describe_edge_expression str_other (condition_type e) (expression e) (context_data a) (variable_types a) with
          | Err x => Err x
          | Ok _ => if is_match : bool then Ok (Some e) else evaluate_deterministic_edges a es'
          end
      end
  end.
Definition match_expression_edge (a : agent) (deterministic : list edge) : result exn (option edge) :=
  evaluate_deterministic_edges a (List.filter (has_condition EXPRESSION) deterministic).

(** [decide_next_node_llm]: the edge the model picked, with the extracted
    parameters; any failure, an unknown function or staying is [None]. *)
Definition decide_next_node_llm (a : agent) (n : node) (llm_edges : list edge) (history : list msg)
    (default_edge : option edge) : option (string * dict string val) :=
  let option_edges := llm_edges ++ match default_edge with Some d => [d] | None => [] end in
  let allow_stay := match default_edge with None => true | Some _ => false end in
  match routing_create a n option_edges allow_stay history with
  | Ok (Some (name, args)) =>
      let args := ddel "confidence" (ddel "reasoning" args) in
      if bool_decide (name = GRAPH_STAY_ON_CURRENT_NODE_FUNCTION) then None
      else match get_edge_by_function_name option_edges name with
           | Some e => Some (to_node_id e, args)
           | None => None
           end
  | _ => None
  end.

(** How a node was chosen. *)
Inductive decision : Type :=
| ByExpression (id : string) | ByModel (id : string) (params : dict string val) | ByDefault (id : string) | Stay.
Definition decided (d : decision) : option string :=
  match d with ByExpression i | ByModel i _ | ByDefault i => Some i | Stay => None end.

Definition decide_next_node_with_functions (history : list msg) : SE agent exn decision := fun a =>
  match get_node_by_id a (current_node_id a) with
  | None => (a, Ok Stay)
  | Some n =>
      match edges n with
      | [] => (a, Ok Stay)
      | es =>
          let a := enrich_routing_context history a in
          let '(deterministic, intent) := classify_edges es in
          let catch_all := catch_all_edge n in
          let by_default := match catch_all with Some e => ByDefault (to_node_id e) | None => Stay end in
          match match_expression_edge a deterministic with
          | Err x => (a, Err x)
          | Ok (Some e) => (a, Ok (ByExpression (to_node_id e)))
          | Ok None =>
              match intent with
              | [] => (a, Ok by_default)
              | _ => match decide_next_node_llm a n intent history catch_all with
                     | Some (id, params) => (a, Ok (ByModel id params))
                     | None => (a, Ok by_default)
                     end
              end
          end
      end
  end.

(** ** Silent router chains *)
Record hop := mkHop { hop_previous : string; hop_current : string; hop_by_model : bool; hop_params : dict string val }.

(** One pass of the [while] loop on a router; [None] stops the chain. *)
Definition router_hop (history : list msg) : SE agent exn (option hop) := fun a =>
  let previous := current_node_id a in
  let a := enrich_routing_context history a in
  match get_node_by_id a previous with
  | None => (a, Ok None)
  | Some n =>
      let '(deterministic, intent) := classify_edges (edges n) in
      let catch_all := catch_all_edge n in
      let dispatch (e : option edge) :=
        match e with
        | Some e => let a' := advance_to_node (to_node_id e) (length history) a in
                    (a', Ok (Some (mkHop previous (current_node_id a') false [])))
        | None => (a, Ok None)
        end in
      match match_expression_edge a deterministic with
      | Err x => (a, Err x)
      | Ok (Some e) => dispatch (Some e)
      | Ok None =>
          match intent with
          | [] => dispatch catch_all
          | _ => match decide_next_node_llm a n intent history catch_all with
                 | Some (id, params) =>
                     if str_true id then
                       let a' := advance_to_node id (length history) a in
                       (set_context (dupdate (context_data a') params) a',
                        Ok (Some (mkHop previous id true params)))
                     else dispatch catch_all
                 | None => dispatch catch_all
                 end
          end
      end
  end.

(** [None] in the outcome: the fuel ran out. *)
Fixpoint router_chain (fuel : nat) (visited : list string) (history : list msg) (a : agent) :
    agent * option (result exn (list hop)) :=
  if negb (is_router a (current_node_id a)) then (a, Some (Ok []))
  else if bool_decide (current_node_id a ∈ visited) then (a, Some (Ok []))
  else match fuel with
       | O => (a, None)
       | S fuel' =>
           match router_hop history a with
           | (a', Err x) => (a', Some (Err x))
           | (a', Ok None) => (a', Some (Ok []))
           | (a', Ok (Some h)) =>
               match router_chain fuel' (current_node_id a :: visited) history a' with
               | (a'', Some (Ok hops)) => (a'', Some (Ok (h :: hops)))
               | (a'', o) => (a'', o)
               end
           end
       end.
(** The graph's size bounds the chain. *)
Definition resolve_router_chain (history : list msg) (a : agent) : agent * option (result exn (list hop)) :=
  router_chain (S (length (nodes a))) [] history a.

(** ** One turn of [generate], up to the node that speaks *)
Definition is_silence_trigger (history : list msg) : bool :=
  match last history with
  | Some m => match mget_or "content" (VStr "") m with
              | VStr s => startswith s GRAPH_SILENCE_MESSAGE_PREFIX
              | _ => false
              end
  | None => false
  end.

Inductive turn_outcome : Type := Speaks (id : string) | Unresolved | Raised (x : exn) | OutOfFuel.

Definition finish_chain (r : agent * option (result exn (list hop))) : agent * turn_outcome :=
  match r with
  | (a, None) => (a, OutOfFuel)
  | (a, Some (Err x)) => (a, Raised x)
  | (a, Some (Ok _)) => (a, if is_router a (current_node_id a) then Unresolved else Speaks (current_node_id a))
  end.

(** [if next_node_id: ...] after the decision. *)
Definition apply_decision (history : list msg) (d : decision) (a : agent) : agent :=
  match decided d with
  | Some id =>
      if str_true id then
        let a' := advance_to_node id (length history) a in
        match d with
        | ByModel _ params => set_context (dupdate (context_data a') params) a'
        | _ => a'
        end
      else a
  | None => a
  end.

Definition route_turn (history : list msg) (a : agent) : agent * turn_outcome :=
  let a := if is_silence_trigger history then set_silence (silence_repeats a + 1) a else a in
  let active := get_node_by_id a (current_node_id a) in
  if bool_decide (node_type_of active = ROUTER) then finish_chain (resolve_router_chain history a)
  else if should_hold_for_first_delivery a active then (a, Speaks (current_node_id a))
  else match decide_next_node_with_functions history a with
       | (a, Err x) => (a, Raised x)
       | (a, Ok d) =>
           let a := apply_decision history d a in
           if is_router a (current_node_id a) then finish_chain (resolve_router_chain history a)
           else (a, Speaks (current_node_id a))
       end.

(** ** Facts *)

Lemma priority_le_trans d x y z : priority_le d x y -> priority_le d y z -> priority_le d x z.
Proof. unfold priority_le. rewrite !Is_true_true, !Z.leb_le. lia. Qed.
Lemma priority_le_total d x y : priority_le d x y \/ priority_le d y x.
Proof. unfold priority_le. rewrite !Is_true_true, !Z.leb_le. lia. Qed.

Lemma elem_lfilter {A} (p : A -> bool) l x : x ∈ List.filter p l <-> x ∈ l /\ p x = true.
Proof. rewrite !list_elem_of_In. apply filter_In. Qed.

Lemma sorted_elem d (p : edge -> bool) es e :
  e ∈ sort_by (priority_le d) (List.filter p es) <-> e ∈ es /\ p e = true.
Proof. rewrite (sort_by_perm (priority_le d)). apply elem_lfilter. Qed.

Lemma classify_det es e : e ∈ (classify_edges es).1 <->
  e ∈ es /\ (has_condition EXPRESSION e = true \/ has_condition UNCONDITIONAL e = true).
Proof.
  unfold classify_edges. simpl. rewrite sorted_elem, elem_lfilter, orb_true_iff. split; [naive_solver|].
  intros [H [Hc|Hc]]; (split_and!; [done| |by auto]); unfold has_condition in *;
    apply bool_decide_eq_true in Hc; rewrite Hc; done.
Qed.

Lemma classify_intent es e : e ∈ (classify_edges es).2 ->
  e ∈ es /\ has_condition EVENT e = false /\ has_condition EXPRESSION e = false /\ has_condition UNCONDITIONAL e = false.
Proof.
  unfold classify_edges. simpl. rewrite sorted_elem, elem_lfilter.
  intros [[H Hev%negb_true_iff] [H1 H2]%negb_true_iff%orb_false_iff]. done.
Qed.

Lemma catch_all_spec n e : catch_all_edge n = Some e ->
  e ∈ edges n /\ has_condition UNCONDITIONAL e = true /\
  forall e', e' ∈ edges n -> has_condition UNCONDITIONAL e' = true ->
    edge_priority DEFAULT_DETERMINISTIC_PRIORITY e <= edge_priority DEFAULT_DETERMINISTIC_PRIORITY e'.
Proof.
  unfold catch_all_edge. intros H.
  destruct (min_by_Some _ (priority_le_trans _) (priority_le_total _) _ _ H) as [Hin Hmin].
  apply elem_lfilter in Hin as [Hin Hu]. split_and!; [done..|]. intros e' He' Hu'.
  specialize (Hmin e'). rewrite elem_lfilter in Hmin. specialize (Hmin (conj He' Hu')).
  unfold priority_le in Hmin. apply Is_true_true in Hmin. lia.
Qed.

Lemma catch_all_none n : catch_all_edge n = None <->
  forall e, e ∈ edges n -> has_condition UNCONDITIONAL e = false.
Proof.
  unfold catch_all_edge. rewrite min_by_None. split.
  - intros H e He. destruct (has_condition UNCONDITIONAL e) eqn:E; [|done].
    assert (e ∈ List.filter (has_condition UNCONDITIONAL) (edges n)) as Hin by (by apply elem_lfilter).
    rewrite H in Hin. by apply elem_of_nil in Hin.
  - intros H. destruct (List.filter _ _) as [|e l] eqn:E; [done|].
    assert (e ∈ List.filter (has_condition UNCONDITIONAL) (edges n)) as [Hin Hu]%elem_lfilter by (rewrite E; set_solver).
    rewrite H in Hu; done.
Qed.

(** The first match of a list sorted by priority has the least priority. *)
Lemma evaluate_first a es o : evaluate_deterministic_edges a es = Ok o ->
  match o with
  | Some e => e ∈ es /\ edge_matches a e = Ok true /\
              forall d e', StronglySorted (priority_le d) es -> e' ∈ es -> edge_matches a e' = Ok true ->
                edge_priority d e <= edge_priority d e'
  | None => forall e, e ∈ es -> edge_matches a e = Ok false
  end.
Proof.
  induction es as [|e es IH]; simpl; [intros [= <-]; set_solver|].
  destruct (edge_matches a e) as [is_match|x] eqn:E; [|done].
  destruct (describe_edge_expression _ _ _ _ _) as [[]|x]; [|done]. destruct is_match; [|intros H].
  - intros [= <-]. split_and!; [set_solver|done|]. intros d e' Hs [->|He']%elem_of_cons _; [lia|].
    apply StronglySorted_inv in Hs as [_ Hall]. rewrite Forall_forall in Hall. specialize (Hall e' He').
    unfold priority_le in Hall. apply Is_true_true in Hall. lia.
  - specialize (IH H). destruct o as [e1|].
    + destruct IH as (H1 & H2 & H3). split_and!; [set_solver|done|].
      intros d e' Hs [->|He']%elem_of_cons Hm; [congruence|].
      apply StronglySorted_inv in Hs as [Hs _]. by apply H3.
    + intros e' [->|He']%elem_of_cons; auto.
Qed.

Lemma StronglySorted_lfilter {A} (R : A -> A -> Prop) (p : A -> bool) l :
  StronglySorted R l -> StronglySorted R (List.filter p l).
Proof.
  induction 1 as [|x l Hs IH Hx]; simpl; [constructor|]. destruct (p x); [|done].
  constructor; [done|]. rewrite Forall_forall in Hx |- *. intros y [Hy _]%elem_lfilter. auto.
Qed.

Lemma expression_edges es e :
  e ∈ List.filter (has_condition EXPRESSION) (classify_edges es).1 <->
  e ∈ es /\ has_condition EXPRESSION e = true.
Proof. rewrite elem_lfilter, classify_det. naive_solver. Qed.

Lemma match_expression_spec a es o : match_expression_edge a (classify_edges es).1 = Ok o ->
  match o with
  | Some e => e ∈ es /\ has_condition EXPRESSION e = true /\ edge_matches a e = Ok true /\
              forall e', e' ∈ es -> has_condition EXPRESSION e' = true -> edge_matches a e' = Ok true ->
                edge_priority DEFAULT_DETERMINISTIC_PRIORITY e <= edge_priority DEFAULT_DETERMINISTIC_PRIORITY e'
  | None => forall e, e ∈ es -> has_condition EXPRESSION e = true -> edge_matches a e = Ok false
  end.
Proof.
  unfold match_expression_edge. intros H. apply evaluate_first in H. destruct o as [e|].
  - destruct H as (Hin & Hm & Hmin). apply expression_edges in Hin as [Hin Hx]. split_and!; [done..|].
    intros e' He' Hx' Hm'. apply Hmin; [|by apply expression_edges|done].
    apply StronglySorted_lfilter. apply sort_by_sorted; [apply priority_le_trans|apply priority_le_total].
  - intros e He Hx. apply H. by apply expression_edges.
Qed.

Lemma decide_llm_edge a n es history d id params :
  decide_next_node_llm a n es history d = Some (id, params) ->
  exists e, (e ∈ es \/ d = Some e) /\ to_node_id e = id.
Proof.
  unfold decide_next_node_llm. destruct (routing_create _ _ _ _ _) as [[[name args]|]|]; try done.
  case_bool_decide; [done|]. unfold get_edge_by_function_name.
  destruct (List.find _ _) as [e|] eqn:E; [|done]. intros [= <- _]. exists e. split; [|done].
  apply find_some in E as [E _]. apply list_elem_of_In, elem_of_app in E as [E|E]; [by left|right].
  destruct d; [|by apply elem_of_nil in E]. apply elem_of_cons in E as [->|E]; [done|by apply elem_of_nil in E].
Qed.

(** C39: One routing decision at a node: an expression edge is taken if and only if
    some expression edge matches, then one of least priority; otherwise the model may pick
    an intent edge or the default it was offered; otherwise the unconditional edge of
    least priority is taken; the turn stays only without a matching expression edge and
    without an unconditional edge. Event edges never fire. *)
Theorem routing_precedence history a n :
  get_node_by_id a (current_node_id a) = Some n ->
  let a1 := enrich_routing_context history a in
  let matching e := e ∈ edges n /\ has_condition EXPRESSION e = true /\ edge_matches a1 e = Ok true in
  forall d, (decide_next_node_with_functions history a).2 = Ok d ->
  match d with
  | ByExpression id => exists e, matching e /\ to_node_id e = id /\
      forall e', matching e' -> edge_priority DEFAULT_DETERMINISTIC_PRIORITY e <= edge_priority DEFAULT_DETERMINISTIC_PRIORITY e'
  | ByModel id _ => (forall e, ~ matching e) /\ exists e, e ∈ edges n /\ to_node_id e = id /\
      has_condition EVENT e = false /\ has_condition EXPRESSION e = false
  | ByDefault id => (forall e, ~ matching e) /\ exists e, e ∈ edges n /\ has_condition UNCONDITIONAL e = true /\
      to_node_id e = id /\
      forall e', e' ∈ edges n -> has_condition UNCONDITIONAL e' = true ->
        edge_priority DEFAULT_DETERMINISTIC_PRIORITY e <= edge_priority DEFAULT_DETERMINISTIC_PRIORITY e'
  | Stay => (forall e, ~ matching e) /\ forall e, e ∈ edges n -> has_condition UNCONDITIONAL e = false
  end.
Proof.
  intros Hn a1 matching d. unfold decide_next_node_with_functions. rewrite Hn.
  assert (forall o, match catch_all_edge n with Some e => ByDefault (to_node_id e) | None => Stay end = o ->
    (forall e, ~ matching e) -> match o with
      | ByDefault id => (forall e, ~ matching e) /\ exists e, e ∈ edges n /\ has_condition UNCONDITIONAL e = true /\
          to_node_id e = id /\ forall e', e' ∈ edges n -> has_condition UNCONDITIONAL e' = true ->
            edge_priority DEFAULT_DETERMINISTIC_PRIORITY e <= edge_priority DEFAULT_DETERMINISTIC_PRIORITY e'
      | Stay => (forall e, ~ matching e) /\ forall e, e ∈ edges n -> has_condition UNCONDITIONAL e = false
      | _ => False end) as Hdef.
  { intros o <- Hno. destruct (catch_all_edge n) as [e|] eqn:E; (split; [done|]).
    - destruct (catch_all_spec n e E) as (H1 & H2 & H3). by exists e.
    - by apply catch_all_none. }
  assert (forall e, matching e <-> e ∈ edges n /\ has_condition EXPRESSION e = true /\ edge_matches a1 e = Ok true)
    as Hmatch by done. clearbody matching.
  destruct (edges n) as [|e0 es0] eqn:Ees.
  { intros [= <-]. split; [|set_solver]. intros e [He _]%Hmatch. by apply elem_of_nil in He. }
  rewrite <- Ees in *. fold a1. pose proof (match_expression_spec a1 (edges n)) as Hspec.
  destruct (classify_edges (edges n)) as [det intent] eqn:Ec. simpl in Hspec.
  destruct (match_expression_edge a1 det) as [[e|]|x]; [| |done].
  - intros [= <-]. destruct (Hspec _ eq_refl) as (H1 & H2 & H3 & H4). exists e.
    split; [by apply Hmatch|split; [done|]]. intros e' (? & ? & ?)%Hmatch. by apply H4.
  - specialize (Hspec None eq_refl). simpl in Hspec.
    assert (forall e, ~ matching e) as Hno by (intros e (H1 & H2 & H3)%Hmatch; rewrite Hspec in H3; done).
    assert (forall d, Ok (match catch_all_edge n with Some e => ByDefault (to_node_id e) | None => Stay end) =
      Ok (E := exn) d -> match d with ByExpression _ => False | ByModel _ _ => False | _ => True end) as Hkind
      by (intros d' [= <-]; by destruct (catch_all_edge n)).
    destruct intent as [|i0 intent].
    + intros [= Hd]. specialize (Hdef d Hd Hno). by destruct d.
    + destruct (decide_next_node_llm a1 n _ history _) as [[id params]|] eqn:El.
      * intros [= <-]. split; [done|]. apply decide_llm_edge in El as (e & [He|He] & <-).
        -- exists e. assert (e ∈ (classify_edges (edges n)).2) as Hi by (by rewrite Ec).
           apply classify_intent in Hi as (H1 & H2 & H3 & _). done.
        -- exists e. destruct (catch_all_spec n e He) as (H1 & H2 & _). split_and!; [done..| |];
             unfold has_condition in *; apply bool_decide_eq_true in H2; rewrite H2; done.
      * intros [= Hd]. specialize (Hdef d Hd Hno). by destruct d.
Qed.

(** ** The silent router chain *)
Lemma nodes_router_hop history a : nodes (router_hop history a).1 = nodes a.
Proof. unfold router_hop, enrich_routing_context, compute_turn_counts. cbv zeta. repeat case_match; simplify_eq; done. Qed.

(** What a completed hop did: it left a known node along one of its edges. *)
Lemma router_hop_some history a a' h : router_hop history a = (a', Ok (Some h)) ->
  hop_previous h = current_node_id a /\ hop_current h = current_node_id a' /\
  exists n e, get_node_by_id a (current_node_id a) = Some n /\ e ∈ edges n /\ to_node_id e = current_node_id a'.
Proof.
  unfold router_hop. set (a1 := enrich_routing_context history a).
  assert (nodes a1 = nodes a /\ current_node_id a1 = current_node_id a) as [Hnodes Hcur].
  { unfold a1, enrich_routing_context, compute_turn_counts. repeat case_match; done. }
  cbv zeta. unfold get_node_by_id. rewrite Hnodes.
  destruct (List.find _ (nodes a)) as [n|] eqn:En; [|done].
  pose proof (match_expression_spec a1 (edges n)) as Hspec.
  pose proof (classify_intent (edges n)) as Hint.
  destruct (classify_edges (edges n)) as [det intent]. simpl in Hspec, Hint.
  assert (forall e, e ∈ edges n -> (advance_to_node (to_node_id e) (length history) a1,
    Ok (E := exn) (Some (mkHop (current_node_id a) (to_node_id e) false []))) = (a', Ok (Some h)) ->
    hop_previous h = current_node_id a /\ hop_current h = current_node_id a' /\
    exists n0 e0, Some n = Some n0 /\ e0 ∈ edges n0 /\ to_node_id e0 = current_node_id a') as Hgo.
  { intros e He [= <- <-]. split_and!; [done..|]. by exists n, e. }
  assert (match catch_all_edge n with
    | Some e => (advance_to_node (to_node_id e) (length history) a1,
                 Ok (E := exn) (Some (mkHop (current_node_id a) (to_node_id e) false [])))
    | None => (a1, Ok None)
    end = (a', Ok (Some h)) -> hop_previous h = current_node_id a /\ hop_current h = current_node_id a' /\
    exists n0 e0, Some n = Some n0 /\ e0 ∈ edges n0 /\ to_node_id e0 = current_node_id a') as Hdef.
  { destruct (catch_all_edge n) as [e|] eqn:Ee; [|done]. apply Hgo. by apply catch_all_spec in Ee as [? _]. }
  destruct (match_expression_edge a1 det) as [[e|]|x]; [|destruct intent as [|i0 intent]|done].
  - apply Hgo. by apply (Hspec _ eq_refl).
  - apply Hdef.
  - destruct (decide_next_node_llm a1 n (i0 :: intent) history (catch_all_edge n)) as [[id params]|] eqn:El; [|apply Hdef].
    destruct (str_true id); [|apply Hdef]. intros [= <- <-]. split_and!; [done..|].
    apply decide_llm_edge in El as (e & [He|He] & He'); exists n, e; (split_and!; [done| |done]).
    + by apply Hint.
    + by apply catch_all_spec in He as [? _].
Qed.

Fixpoint linked (from : string) (hops : list hop) (to : string) : Prop :=
  match hops with
  | [] => from = to
  | h :: hops' => hop_previous h = from /\ linked (hop_current h) hops' to
  end.

Lemma router_known a id : is_router a id = true -> id ∈ map node_id (nodes a).
Proof.
  unfold is_router, get_node_by_id. destruct (List.find _ _) as [n|] eqn:E; [|by case_bool_decide].
  apply find_some in E as [Hin Hid%bool_decide_eq_true]. intros _.
  apply list_elem_of_fmap. exists n. split; [done|]. by apply list_elem_of_In.
Qed.

Definition stuck (history : list msg) (a' : agent) : Prop :=
  exists a0, current_node_id a0 = current_node_id a' /\ (router_hop history a0) = (a', Ok None).

Lemma router_chain_spec history fuel : forall visited a,
  NoDup visited -> visited ⊆ map node_id (nodes a) -> (length (nodes a) < fuel + length visited)%nat ->
  exists r, (router_chain fuel visited history a).2 = Some r /\
    nodes (router_chain fuel visited history a).1 = nodes a /\
    forall hops, r = Ok hops ->
      let a' := (router_chain fuel visited history a).1 in
      NoDup (map hop_previous hops) /\ Forall (fun h => is_router a (hop_previous h) = true) hops /\
      (forall h, h ∈ hops -> hop_previous h ∉ visited) /\
      linked (current_node_id a) hops (current_node_id a') /\
      (is_router a' (current_node_id a') = false \/
       current_node_id a' ∈ visited ++ map hop_previous hops \/ stuck history a').
Proof.
  induction fuel as [|fuel IH]; intros visited a Hnd Hsub Hlen; cbn [router_chain].
  - destruct (is_router a (current_node_id a)) eqn:Er; cbn [negb].
    + case_bool_decide as Hv.
      * exists (Ok []). split_and!; [done..|]. intros hops [= <-]. split_and!; try done; [apply NoDup_nil_2|set_solver|].
        right. left. by rewrite app_nil_r.
      * exfalso. apply submseteq_length in Hsub as Hl || pose proof (NoDup_submseteq visited _ Hnd Hsub) as Hl.
        apply submseteq_length in Hl. rewrite List.length_map in Hl. simpl in Hlen. lia.
    + exists (Ok []). split_and!; [done..|]. intros hops [= <-]. split_and!; try done; [apply NoDup_nil_2|set_solver|by left].
  - destruct (is_router a (current_node_id a)) eqn:Er; cbn [negb].
    2: { exists (Ok []). split_and!; [done..|]. intros hops [= <-].
         split_and!; try done; [apply NoDup_nil_2|set_solver|by left]. }
    case_bool_decide as Hv.
    { exists (Ok []). split_and!; [done..|]. intros hops [= <-]. split_and!; try done; [apply NoDup_nil_2|set_solver|].
      right. left. by rewrite app_nil_r. }
    pose proof (nodes_router_hop history a) as Hn.
    destruct (router_hop history a) as [a1 [[h|]|x]] eqn:Eh; simpl in Hn.
    + destruct (router_hop_some _ _ _ _ Eh) as (Hp & Hc & _).
      destruct (IH (current_node_id a :: visited) a1) as (r & Hr & Hnodes & Hspec).
      { by apply NoDup_cons. }
      { rewrite Hn. apply router_known in Er. set_solver. }
      { rewrite Hn. simpl. lia. }
      destruct (router_chain fuel (current_node_id a :: visited) history a1) as [a2 o]. simpl in *. subst o.
      destruct r as [hops|x]; [|exists (Err x); split_and!; [done|simpl; congruence|done]].
      exists (Ok (h :: hops)). simpl. split_and!; [done|congruence|]. intros ? [= <-].
      destruct (Hspec hops eq_refl) as (S1 & S2 & S3 & S4 & S5).
      assert (forall i, is_router a1 i = is_router a i) as Hri.
      { intros i. unfold is_router, get_node_by_id. by rewrite Hn. }
      split_and!.
      * simpl. apply NoDup_cons. split; [|done]. intros (h' & Heq & Hin)%list_elem_of_fmap.
        apply S3 in Hin. rewrite <- Heq, Hp in Hin. set_solver.
      * constructor; [by rewrite Hp|]. eapply Forall_impl; [exact S2|]. intros h'. cbv beta. by rewrite Hri.
      * intros h' [->|Hin]%elem_of_cons; [by rewrite Hp|]. apply S3 in Hin. set_solver.
      * split; [done|]. by rewrite Hc.
      * destruct S5 as [S5|[S5|S5]]; [by left| |by do 2 right]. right. left. cbn [map]. rewrite Hp. set_solver.
    + exists (Ok []). simpl. split_and!; [done..|]. intros hops [= <-].
      assert (current_node_id a1 = current_node_id a) as Hcur.
      { revert Eh. unfold router_hop, enrich_routing_context, compute_turn_counts. cbv zeta.
        repeat case_match; intros; simplify_eq; done. }
      split_and!; [apply NoDup_nil_2|done|set_solver|by simpl|]. right. right. exists a. split; [by symmetry|done].
    + exists (Err x). simpl. by split_and!.
Qed.

(** The silent router chain always ends, whatever the routing model answers: it
    visits each router at most once, so it makes at most as many hops as the graph has
    nodes, each from the node the previous one reached; and it ends on a node that is not
    a router, back on a router of this chain, or on a router where no edge applies. *)
Theorem router_chain_terminates history a :
  exists a' r, resolve_router_chain history a = (a', Some r) /\
    forall hops, r = Ok hops ->
      NoDup (map hop_previous hops) /\ (length hops <= length (nodes a))%nat /\
      Forall (fun h => is_router a (hop_previous h) = true) hops /\
      linked (current_node_id a) hops (current_node_id a') /\
      (is_router a' (current_node_id a') = false \/ current_node_id a' ∈ map hop_previous hops \/ stuck history a').
Proof.
  destruct (router_chain_spec history (S (length (nodes a))) [] a) as (r & Hr & _ & Hspec);
    [apply NoDup_nil_2|set_solver|simpl; lia|].
  unfold resolve_router_chain. destruct (router_chain _ _ _ _) as [a' o]. simpl in *. subst o.
  exists a', r. split; [done|]. intros hops ->. destruct (Hspec hops eq_refl) as (H1 & H2 & _ & H4 & H5).
  split_and!; try done.
  assert (map hop_previous hops ⊆ map node_id (nodes a)) as Hsub.
  { intros i (h & -> & Hin)%list_elem_of_fmap. rewrite Forall_forall in H2. apply router_known. by apply H2. }
  pose proof (submseteq_length _ _ (NoDup_submseteq _ _ H1 Hsub)) as Hl. by rewrite !List.length_map in Hl.
Qed.

(** ** The visited history and the hold *)
Definition history_ok (a : agent) : Prop := last (node_history a) = Some (current_node_id a).

Lemma history_ok_advance id i a : history_ok (advance_to_node id i a).
Proof.
  unfold history_ok, advance_to_node, push_history. simpl.
  destruct (last (node_history a)) as [x|] eqn:E; [case_bool_decide; subst; [done|]|]; by rewrite last_snoc.
Qed.

Lemma history_ok_context c a : history_ok (set_context c a) <-> history_ok a.
Proof. done. Qed.

Lemma history_ok_enrich history a : history_ok a -> history_ok (enrich_routing_context history a).
Proof. intros H. unfold enrich_routing_context, compute_turn_counts. by repeat case_match. Qed.

Lemma history_ok_hop history a : history_ok a -> history_ok (router_hop history a).1.
Proof.
  intros H. apply (history_ok_enrich history) in H. unfold router_hop. cbv zeta.
  repeat case_match; simplify_eq/=; try done; apply history_ok_advance.
Qed.

Lemma history_ok_chain history fuel : forall visited a, history_ok a ->
  history_ok (router_chain fuel visited history a).1.
Proof.
  induction fuel as [|fuel IH]; intros visited a H; cbn [router_chain];
    destruct (negb _); try done; case_bool_decide; try done.
  pose proof (history_ok_hop history a H) as H1.
  destruct (router_hop history a) as [a1 [[h|]|x]]; simpl in *; try done.
  specialize (IH (current_node_id a :: visited) a1 H1).
  destruct (router_chain _ _ _ a1) as [a2 [[hops|x]|]]; done.
Qed.

Lemma history_ok_decide history a : history_ok a -> history_ok (decide_next_node_with_functions history a).1.
Proof.
  intros H. unfold decide_next_node_with_functions. apply (history_ok_enrich history) in H as H'.
  repeat case_match; simplify_eq/=; done.
Qed.

Lemma finish_chain_fst r : (finish_chain r).1 = r.1.
Proof. destruct r as [a [[]|]]; done. Qed.

Lemma history_ok_apply history d a : history_ok a -> history_ok (apply_decision history d a).
Proof.
  intros H. unfold apply_decision. destruct (decided d) as [id|]; [|done]. destruct (str_true id); [|done].
  destruct d; apply history_ok_advance.
Qed.

(** The node history always ends at the current node, through turns and external
    events; a turn never runs out of routing steps; and while an LLM node waits for its
    first delivered response, the turn keeps the node and makes no routing decision. *)
Theorem turn_keeps_history_and_hold history a :
  history_ok a ->
  history_ok (route_turn history a).1 /\
  (forall event props, history_ok (process_event event props a).1) /\
  (route_turn history a).2 <> OutOfFuel /\
  (should_hold_for_first_delivery a (get_node_by_id a (current_node_id a)) = true ->
     (route_turn history a).2 = Speaks (current_node_id a) /\
     current_node_id (route_turn history a).1 = current_node_id a /\
     node_history (route_turn history a).1 = node_history a /\
     context_data (route_turn history a).1 = context_data a).
Proof.
  intros H. unfold route_turn.
  set (a1 := if is_silence_trigger history then _ else a).
  assert (history_ok a1) as H1 by (unfold a1; by destruct (is_silence_trigger history)).
  assert (nodes a1 = nodes a /\ current_node_id a1 = current_node_id a /\ node_history a1 = node_history a /\
    context_data a1 = context_data a /\ first_response_delivered a1 = first_response_delivered a /\
    hold_until_first_delivery a1 = hold_until_first_delivery a) as (N1 & N2 & N3 & N4 & N5 & N6)
    by (unfold a1; by destruct (is_silence_trigger history)).
  clearbody a1. cbv zeta.
  assert (forall x, finish_chain (resolve_router_chain history x) =
    ((resolve_router_chain history x).1, (finish_chain (resolve_router_chain history x)).2)) as Hf.
  { intros x. rewrite <- finish_chain_fst. by destruct (finish_chain _). }
  assert (forall x, (finish_chain (resolve_router_chain history x)).2 <> OutOfFuel) as Hfuel.
  { intros x. destruct (router_chain_terminates history x) as (x' & r & -> & _).
    destruct r; simpl; [|done]. by destruct (is_router _ _). }
  assert (forall x, history_ok x -> history_ok (finish_chain (resolve_router_chain history x)).1) as Hchain.
  { intros x Hx. rewrite finish_chain_fst. by apply history_ok_chain. }
  split_and!.
  - case_bool_decide; [by apply Hchain|]. destruct (should_hold_for_first_delivery a1 _); [done|].
    pose proof (history_ok_decide history a1 H1) as Hd.
    destruct (decide_next_node_with_functions history a1) as [a2 [d|x]]; [|done]. simpl in Hd.
    apply (history_ok_apply history d) in Hd. destruct (is_router _ _); [by apply Hchain|done].
  - intros event props. unfold process_event. cbv zeta. repeat case_match; simpl; try done; apply history_ok_advance.
  - case_bool_decide; [apply Hfuel|]. destruct (should_hold_for_first_delivery a1 _); [done|].
    destruct (decide_next_node_with_functions history a1) as [a2 [d|x]]; [|done].
    destruct (is_router _ _); [apply Hfuel|done].
  - intros Hh. unfold get_node_by_id in *. rewrite N1, N2 in *.
    assert (should_hold_for_first_delivery a1 (List.find (fun n => bool_decide (node_id n = current_node_id a)) (nodes a)) = true) as Hh1.
    { revert Hh. unfold should_hold_for_first_delivery. by rewrite N5, N6. }
    rewrite bool_decide_false.
    + rewrite Hh1. simpl. by rewrite N2, N3, N4.
    + intros Hr. unfold should_hold_for_first_delivery in Hh. rewrite Hr in Hh.
      rewrite (bool_decide_false (ROUTER = LLM)) in Hh by done. by rewrite !andb_false_r in Hh.
Qed.
End routing.

(** An external event always merges its properties and its name into the context;
    it moves the agent exactly when the current node has an event edge with that name, then
    along one of least priority; otherwise the position and the node history stay. *)
Theorem process_event_fires event props a :
  let fires n e := e ∈ edges n /\ has_condition EVENT e = true /\ event_name e = Some event in
  let '(a', r) := process_event event props a in
  context_data a' = dset "_last_event" (VStr event) (dupdate (context_data a) props) /\
  (er_matched r = true <->
     exists n e, get_node_by_id a (current_node_id a) = Some n /\ fires n e) /\
  (er_matched r = true ->
     exists n e, get_node_by_id a (current_node_id a) = Some n /\ fires n e /\
       current_node_id a' = to_node_id e /\ er_previous_node r = Some (current_node_id a) /\
       forall e', fires n e' ->
         edge_priority DEFAULT_DETERMINISTIC_PRIORITY e <= edge_priority DEFAULT_DETERMINISTIC_PRIORITY e') /\
  (er_matched r = false -> current_node_id a' = current_node_id a /\ node_history a' = node_history a).
Proof.
  intros fires. unfold process_event. cbv zeta.
  set (a1 := set_context _ a).
  assert (get_node_by_id a1 (current_node_id a1) = get_node_by_id a (current_node_id a)) as Hg by done.
  destruct (get_node_by_id a1 (current_node_id a1)) as [n|] eqn:En; rewrite <- Hg.
  2: { simpl. split_and!; [done|split; [done|by intros (n & e & ? & _)]|done|done]. }
  set (les := sort_by _ _).
  assert (forall e, e ∈ les <-> e ∈ edges n /\ has_condition EVENT e = true) as Hles by (intros e; apply sorted_elem).
  assert (StronglySorted (priority_le DEFAULT_DETERMINISTIC_PRIORITY) les) as Hsort
    by (apply sort_by_sorted; [apply priority_le_trans|apply priority_le_total]).
  clearbody les. destruct (List.find _ les) as [e|] eqn:Ef; simpl.
  - assert (e ∈ les /\ event_name e = Some event /\ forall e', e' ∈ les -> event_name e' = Some event ->
      edge_priority DEFAULT_DETERMINISTIC_PRIORITY e <= edge_priority DEFAULT_DETERMINISTIC_PRIORITY e') as (Hin & Hev & Hmin).
    { clear Hles. induction Hsort as [|x l Hs IH Hx]; [done|]. cbn [List.find] in Ef. case_bool_decide as Hx'.
      - simplify_eq. split_and!; [set_solver|done|]. intros e' [->|He']%elem_of_cons _; [lia|].
        rewrite Forall_forall in Hx. specialize (Hx e' He'). unfold priority_le in Hx. apply Is_true_true in Hx. lia.
      - destruct (IH Ef) as (I1 & I2 & I3). split_and!; [set_solver|done|].
        intros e' [->|He']%elem_of_cons Hn; [done|by apply I3]. }
    apply Hles in Hin as [Hin Hc].
    assert (exists n0 e0, Some n = Some n0 /\ fires n0 e0) as Hex by (by exists n, e).
    split_and!; [done|done| |done]. intros _. exists n, e. split_and!; [done|done|done|done|].
    intros e' (H1 & H2 & H3). apply Hmin; [by apply Hles|done].
  - split_and!; [done| |done|done]. split; [done|]. intros (n0 & e & [= <-] & H1 & H2 & H3).
    assert (e ∈ les) as Hin by (by apply Hles). apply list_elem_of_In in Hin.
    apply (find_none _ _ Ef) in Hin. by apply bool_decide_eq_false in Hin.
Qed.

(** ** A concrete graph *)
Definition adult : group := mkGroup None [mkCondition "age" "gte" (VInt 18)].
Definition sample_agent : agent :=
  mkAgent [mkNode "start" (Some ROUTER)
             [mkEdge "minor" None (Some UNCONDITIONAL) None None None;
              mkEdge "adult" None (Some EXPRESSION) (Some 1) None (Some adult)];
           mkNode "adult" None [mkEdge "bye" None (Some EVENT) None (Some "hangup") None];
           mkNode "minor" None []]
    [("age", VInt 30)] [] "start" 0 0 true true ["start"].
Definition no_time (_ : string) (d : dict string val) : dict string val := d.
Definition no_model (_ : agent) (_ : node) (_ : list edge) (_ : bool) (_ : list msg) :
  result unit (option (string * dict string val)) := Err tt.

Lemma routing_precedence_witness :
  exists e, e ∈ edges (mkNode "start" (Some ROUTER)
             [mkEdge "minor" None (Some UNCONDITIONAL) None None None;
              mkEdge "adult" None (Some EXPRESSION) (Some 1) None (Some adult)]) /\ to_node_id e = "adult".
Proof.
  pose proof (routing_precedence no_repr no_time no_model [] sample_agent
    (mkNode "start" (Some ROUTER)
             [mkEdge "minor" None (Some UNCONDITIONAL) None None None;
              mkEdge "adult" None (Some EXPRESSION) (Some 1) None (Some adult)]) eq_refl (ByExpression "adult")) as H.
  destruct H as (e & (He & _) & Ht & _); [vm_compute; reflexivity|]. exists e. split; [exact He|exact Ht].
Defined.

Lemma turn_keeps_history_and_hold_witness :
  history_ok sample_agent /\ history_ok (route_turn no_repr no_time no_model [] sample_agent).1 /\
  (route_turn no_repr no_time no_model [] sample_agent).2 = Speaks "adult".
Proof.
  split; [vm_compute; reflexivity|]. split; [|vm_compute; reflexivity].
  apply (turn_keeps_history_and_hold no_repr no_time no_model [] sample_agent). vm_compute. reflexivity.
Defined.
End GraphNav.
