(* ===== verification/Reach.v ===== *)
(** * Tables of nodes by id and reachability by a worklist

    Shared by the two definition validators (graphs and workflows): the
    dictionary comprehension [{node.id: node for node in nodes}], and the loop
    that pops a node id from a stack, skips it when it was seen or is unknown, and
    pushes its successors. The loop is a fixpoint on fuel; [search_complete] says
    that one unit per pushed id is enough and that the set it returns is exactly
    the set of nodes a path leads to. *)
From S2P Require Import Prelude.

(** Lists of reports that are empty *)

Lemma if_nil {A} (b : bool) (x : A) : (if b then [x] else []) = [] <-> b = false.
Proof. by destruct b. Qed.
Lemma if_nil' {A} (b : bool) (x : A) : (if b then [] else [x]) = [] <-> b = true.
Proof. by destruct b. Qed.

(** [any(p(x) for x in l)] *)
Lemma existsb_elem {A} (p : A -> bool) l : existsb p l = true <-> exists x, x ∈ l /\ p x = true.
Proof. rewrite List.existsb_exists. setoid_rewrite list_elem_of_In. done. Qed.

Lemma existsb_none {A} (p : A -> bool) l : existsb p l = false <-> forall x, x ∈ l -> p x = false.
Proof.
  induction l as [|x l IH]; simpl; [set_solver|]. rewrite orb_false_iff, IH. set_solver.
Qed.

Section table.
Context {A : Type} (id : A -> string).

(** [{node.id: node for node in nodes}]: a repeated id keeps its last node. *)
Definition by_id (nodes : list A) : dict string A :=
  foldl (fun d n => dset (id n) n d) [] nodes.

Lemma foldl_dset_get (nodes : list A) d k :
  dget k (foldl (fun d n => dset (id n) n d) d nodes) =
  match last (filter (fun n => id n = k) nodes) with Some n => Some n | None => dget k d end.
Proof.
  revert d. induction nodes as [|n nodes IH]; intros d; [done|].
  cbn [foldl]. rewrite IH, filter_cons. case_decide as E; subst.
  - destruct (filter _ nodes) as [|m l] eqn:F; simpl; [by rewrite dget_dset_eq|].
    by destruct (last_cons_cons m l) || (destruct (last (m :: l)) eqn:L; [done|];
      apply last_None in L).
  - by rewrite dget_dset_ne by done.
Qed.

Lemma by_id_get nodes k : dget k (by_id nodes) = last (filter (fun n => id n = k) nodes).
Proof. unfold by_id. rewrite foldl_dset_get. by destruct (last _). Qed.

Lemma by_id_Some nodes k n : dget k (by_id nodes) = Some n -> n ∈ nodes /\ id n = k.
Proof.
  rewrite by_id_get. intros H. apply last_Some_elem_of in H.
  apply list_elem_of_filter in H. naive_solver.
Qed.

Lemma by_id_known nodes k : dhas k (by_id nodes) = true <-> k ∈ map id nodes.
Proof.
  unfold dhas. rewrite by_id_get, list_elem_of_fmap.
  destruct (last _) as [n|] eqn:L.
  - apply last_Some_elem_of, list_elem_of_filter in L. naive_solver.
  - apply last_None in L. split; [done|]. intros (n & -> & Hn).
    assert (n ∈ filter (fun m => id m = id n) nodes) as H by (by apply list_elem_of_filter).
    rewrite L in H. set_solver.
Qed.

Lemma by_id_unique nodes n :
  NoDup (map id nodes) -> n ∈ nodes -> dget (id n) (by_id nodes) = Some n.
Proof.
  intros Hnd Hn. rewrite by_id_get.
  assert (forall l, NoDup (map id l) -> n ∈ l -> filter (fun m => id m = id n) l = [n]) as H.
  { clear. induction l as [|m l IH]; [set_solver|]. cbn [map]. rewrite NoDup_cons, elem_of_cons.
    intros [Hni Hnd] [<-|Hin]; rewrite filter_cons.
    - rewrite decide_True by done. f_equal. destruct (filter _ l) as [|x l'] eqn:F; [done|]. exfalso.
      assert (x ∈ filter (fun m => id m = id n) l) as Hx by (rewrite F; set_solver).
      apply list_elem_of_filter in Hx as [Hid Hx]. apply Hni. rewrite <- Hid.
      by apply list_elem_of_fmap_2.
    - rewrite decide_False; [by apply IH|]. intros Hid. apply Hni. rewrite Hid.
      by apply list_elem_of_fmap_2. }
  by rewrite H.
Qed.
End table.

Section search.
Context (known : string -> bool) (succ : string -> list string).

(** [while stack: current = stack.pop(); if current in reachable or current not
    in by_id: continue; reachable.add(current); stack.extend(succ current)];
    the head of the list is the top of the stack. [None] is fuel run out. *)
Fixpoint search (fuel : nat) (stack : list string) (reachable : gset string) : option (gset string) :=
  match stack with
  | [] => Some reachable
  | current :: rest =>
      match fuel with
      | 0 => None
      | S fuel' =>
          if bool_decide (current ∈ reachable) || negb (known current)
          then search fuel' rest reachable
          else search fuel' (reverse (succ current) ++ rest) ({[current]} ∪ reachable)
      end
  end.

Inductive reaches (start : string) : string -> Prop :=
| reaches_start : known start = true -> reaches start start
| reaches_step x y : reaches start x -> y ∈ succ x -> known y = true -> reaches start y.

(** The ids still to be pushed: the successors of the nodes not yet expanded. *)
Definition pending (ks : list string) (r : gset string) : nat :=
  sum_list_with (fun k => if decide (k ∈ r) then 0 else length (succ k)) ks.

Lemma pending_mono ks k r : pending ks ({[k]} ∪ r) <= pending ks r.
Proof.
  unfold pending. induction ks as [|k' ks IH]; simpl; [done|].
  destruct (decide (k' ∈ r)), (decide (k' ∈ {[k]} ∪ r)); try lia. set_solver.
Qed.

Lemma pending_expand ks k r :
  k ∈ ks -> k ∉ r -> pending ks ({[k]} ∪ r) + length (succ k) <= pending ks r.
Proof.
  intros Hk Hr. induction ks as [|k' ks IH]; [set_solver|].
  pose proof (pending_mono ks k r) as Hm. unfold pending in *. cbn [sum_list_with].
  destruct (decide (k = k')) as [<-|Hne].
  - rewrite decide_True, decide_False by set_solver. lia.
  - assert (k ∈ ks) as Hin by set_solver. specialize (IH Hin).
    destruct (decide (k' ∈ r)), (decide (k' ∈ {[k]} ∪ r)); try lia; set_solver.
Qed.

Context (ks : list string) (known_in : forall k, known k = true -> k ∈ ks).

Lemma search_total fuel stack r :
  length stack + pending ks r <= fuel -> is_Some (search fuel stack r).
Proof.
  revert stack r. induction fuel as [|fuel IH]; intros [|c rest] r H; simpl in *;
    [by eexists|lia|by eexists|].
  destruct (bool_decide (c ∈ r)) eqn:E; simpl; [apply IH; lia|].
  destruct (known c) eqn:K; simpl; apply IH; [|lia].
  apply bool_decide_eq_false in E. rewrite length_app, length_reverse.
  pose proof (pending_expand ks c r (known_in c K) E). lia.
Qed.

(** What the loop keeps: only reached ids are in the set, and every successor of
    the set is in it, unknown or on the stack. *)
Definition search_inv (start : string) (stack : list string) (r : gset string) : Prop :=
  (forall x, x ∈ r -> reaches start x) /\
  (forall x, x ∈ stack -> known x = true -> reaches start x) /\
  (forall x y, x ∈ r -> y ∈ succ x -> known y = true -> y ∈ r \/ y ∈ stack) /\
  (known start = true -> start ∈ r \/ start ∈ stack).

Lemma search_sound start fuel stack r r' :
  search_inv start stack r -> search fuel stack r = Some r' ->
  forall x, x ∈ r' <-> reaches start x.
Proof.
  revert stack r. induction fuel as [|fuel IH]; intros [|c rest] r Hinv; simpl; try done.
  1,2: intros [= ->] x; destruct Hinv as (H1 & _ & H3 & H4); split; [by apply H1|];
    induction 1 as [Hk|x y _ IHx Hy Hk]; [destruct (H4 Hk)|destruct (H3 x y IHx Hy Hk)]; set_solver.
  destruct Hinv as (H1 & H2 & H3 & H4). destruct (bool_decide (c ∈ r)) eqn:E; simpl.
  - apply bool_decide_eq_true in E. apply IH. split_and!; [done|set_solver| |].
    + intros x y Hx Hy Hk. destruct (H3 x y Hx Hy Hk) as [?|[->|?]%elem_of_cons]; auto.
    + intros Hk. destruct (H4 Hk) as [?|[->|?]%elem_of_cons]; auto.
  - apply bool_decide_eq_false in E. destruct (known c) eqn:K; simpl; apply IH.
    + assert (reaches start c) as Hc by (apply H2; [set_solver|done]). split_and!.
      * intros x [->%elem_of_singleton|Hx]%elem_of_union; auto.
      * intros x. rewrite elem_of_app, elem_of_reverse. intros [Hx|Hx] Hk; [by apply (reaches_step start c)|].
        apply H2; [set_solver|done].
      * intros x y [->%elem_of_singleton|Hx]%elem_of_union Hy Hk.
        -- right. apply elem_of_app. left. by apply elem_of_reverse.
        -- destruct (H3 x y Hx Hy Hk) as [?|[->|?]%elem_of_cons]; set_solver.
      * intros Hk. destruct (H4 Hk) as [?|[->|?]%elem_of_cons]; set_solver.
    + split_and!; [done|set_solver| |].
      * intros x y Hx Hy Hk. destruct (H3 x y Hx Hy Hk) as [?|[->|?]%elem_of_cons]; auto; congruence.
      * intros Hk. destruct (H4 Hk) as [?|[->|?]%elem_of_cons]; auto; congruence.
Qed.

Definition search_fuel : nat := S (pending ks ∅).

Lemma search_complete start :
  exists r, search search_fuel [start] ∅ = Some r /\ forall x, x ∈ r <-> reaches start x.
Proof.
  destruct (search_total search_fuel [start] ∅) as [r Hr]; [unfold search_fuel; simpl; lia|].
  exists r. split; [done|]. apply (search_sound start search_fuel [start] ∅); [|done].
  split_and!; [by intros x ?%elem_of_empty| |by intros x y ?%elem_of_empty|].
  - intros x ->%list_elem_of_singleton Hk. by constructor.
  - intros _. right. by apply list_elem_of_singleton.
Qed.

(** [reachable] after the loop; the default is never taken. *)
Definition reachable_from (start : string) : gset string := default ∅ (search search_fuel [start] ∅).

Lemma reachable_from_spec start x : x ∈ reachable_from start <-> reaches start x.
Proof. unfold reachable_from. destruct (search_complete start) as (r & -> & H). apply H. Qed.
End search.
