(* ===== verification/GraphDef.v ===== *)
(** * Graph definitions: validator, dry run and deploy mapping (modules/automation/engine.py)

    [validate_definition] collects errors and warnings; [dry_run] walks the graph
    along each node's best edge; [graph_to_agent_payload] builds the body of the
    deploy request, which the engine parses with the models of
    modules/agents/models/brains.py ([read_node], [validate_router_node]). *)
From S2P Require Import Prelude PyText PyVal Reach.

Module GraphDef.

Inductive condition_kind : Type := CtLlm | CtExpression | CtUnconditional | CtEvent.
Inductive node_kind : Type := NtLlm | NtStatic | NtRouter.
#[global] Instance condition_kind_dec : EqDecision condition_kind.
Proof. solve_decision. Defined.
#[global] Instance node_kind_dec : EqDecision node_kind.
Proof. solve_decision. Defined.

Record GraphCanvasEdge := mkEdge {
  to_node_id : string; condition : string; label : option string;
  condition_type : condition_kind; expression : option (dict string val);
  event_name : option string; priority : option Z }.

Record GraphCanvasNode := mkNode {
  id : string; node_type : node_kind; description : option string; prompt : string;
  static_message : option string; repeat_after_silence_seconds : option pyfloat;
  edges : list GraphCanvasEdge }.

Record GraphDefinition := mkGraph {
  agent_information : string; start_node_id : string; routing_model : option string;
  variables : dict string string; nodes : list GraphCanvasNode }.

Record ValidationResult := mkResult { valid : bool; errors : list string; warnings : list string }.

Record DryRunResult := mkDry {
  path : list string; transcript_preview : list (string * string); steps : Z; loop_detected : bool }.

(** [bool(s)] and [s or ""] for an optional string. *)
Definition opt_true (s : option string) : bool := str_true (default "" s).

(** ** The validator *)
Definition table (d : GraphDefinition) : dict string GraphCanvasNode := by_id id (nodes d).
Definition targets (n : GraphCanvasNode) : list string := map to_node_id (edges n).
Definition is_type (c : condition_kind) (e : GraphCanvasEdge) : bool := bool_decide (condition_type e = c).

Fixpoint duplicate_errors (seen : list string) (ids : list string) : list string :=
  match ids with
  | [] => []
  | i :: ids' =>
      (if bool_decide (i ∈ seen) then ["duplicate node id '" +:+ i +:+ "'"] else [])
      ++ duplicate_errors (i :: seen) ids'
  end.

Definition edge_errors (t : dict string GraphCanvasNode) (n : GraphCanvasNode) (e : GraphCanvasEdge) : list string :=
  if dhas (to_node_id e) t then []
  else ["node '" +:+ id n +:+ "' points to unknown node '" +:+ to_node_id e +:+ "'"].

Definition edge_warnings (n : GraphCanvasNode) (e : GraphCanvasEdge) : list string :=
  (if bool_decide (to_node_id e = id n) then ["node '" +:+ id n +:+ "' links to itself"] else [])
  ++ (if is_type CtEvent e && negb (opt_true (event_name e))
      then ["node '" +:+ id n +:+ "' has an event edge without an event name"] else []).

Definition router_errors (n : GraphCanvasNode) : list string :=
  match node_type n with
  | NtRouter =>
      (if str_true (prompt n) || opt_true (static_message n)
       then ["router node '" +:+ id n +:+ "' must not set a prompt or static_message; it never speaks"] else [])
      ++ (if existsb (is_type CtEvent) (edges n)
          then ["router node '" +:+ id n +:+ "' cannot use event edges; calls never rest on a router"] else [])
      ++ (if negb (existsb (is_type CtUnconditional) (edges n))
          then ["router node '" +:+ id n +:+ "' needs an unconditional catch-all edge"] else [])
  | _ => []
  end.

Definition speech_warnings (n : GraphCanvasNode) : list string :=
  match node_type n with
  | NtRouter => []
  | NtStatic => if str_true (strip (default "" (static_message n))) then []
                else ["static node '" +:+ id n +:+ "' has no static_message to play"]
  | NtLlm => if str_true (strip (prompt n)) then []
             else ["llm node '" +:+ id n +:+ "' has an empty prompt"]
  end.

Definition node_errors (t : dict string GraphCanvasNode) (n : GraphCanvasNode) : list string :=
  concat (map (edge_errors t n) (edges n)) ++ router_errors n.
Definition node_warnings (n : GraphCanvasNode) : list string :=
  concat (map (edge_warnings n) (edges n)) ++ speech_warnings n.

Definition unreachable_warning (i : string) : string :=
  "node '" +:+ i +:+ "' is unreachable from the start node".

(** The ids the loop pushes when it expands [current]. *)
Definition successors (t : dict string GraphCanvasNode) (current : string) : list string :=
  match dget current t with Some n => targets n | None => [] end.

Definition reachable (d : GraphDefinition) : gset string :=
  reachable_from (fun k => dhas k (table d)) (successors (table d)) (map id (nodes d)) (start_node_id d).

Definition validate_definition (d : GraphDefinition) : ValidationResult :=
  match nodes d with
  | [] => mkResult false ["graph has no nodes"] []
  | _ =>
      let ids := map id (nodes d) in
      let t := table d in
      let known_start := dhas (start_node_id d) t in
      let errs :=
        duplicate_errors [] ids
        ++ (if known_start then [] else ["start node '" +:+ start_node_id d +:+ "' does not exist"])
        ++ concat (map (node_errors t) (nodes d)) in
      let warns :=
        concat (map node_warnings (nodes d))
        ++ (if known_start
            then map unreachable_warning (filter (fun i => i ∉ reachable d) ids) else []) in
      mkResult (match errs with [] => true | _ => false end) errs warns
  end.

(** ** The dry run *)
Definition TIER_RANK (c : condition_kind) : Z :=
  match c with CtExpression => 0 | CtLlm => 1 | CtUnconditional => 2 | CtEvent => 1 end.
Definition DEFAULT_PRIORITY (c : condition_kind) : Z :=
  match c with CtExpression => 0 | CtUnconditional => 0 | CtLlm => 100 | CtEvent => 100 end.
Definition MAX_DRY_RUN_STEPS : Z := 20.

Definition edge_rank (e : GraphCanvasEdge) : Z * Z :=
  (TIER_RANK (condition_type e), default (DEFAULT_PRIORITY (condition_type e)) (priority e)).

(** Tuples compare lexicographically. *)
Definition rank_le (e f : GraphCanvasEdge) : bool :=
  let '(t1, p1) := edge_rank e in
  let '(t2, p2) := edge_rank f in
  (t1 <? t2)%Z || ((t1 =? t2)%Z && (p1 <=? p2)%Z).

Definition best_edge (n : GraphCanvasNode) : option GraphCanvasEdge := head (sort_by rank_le (edges n)).

(** The preview line of a visited node, when it has one. *)
Definition preview_text (n : GraphCanvasNode) : option string :=
  match node_type n with
  | NtStatic => let s := strip (default "" (static_message n)) in if str_true s then Some s else None
  | NtLlm => let s := str_take 120 (strip (prompt n)) in
             Some (if str_true s then s else "[generates a reply]")
  | NtRouter => None
  end.

Definition visit (current : string) (n : GraphCanvasNode) (r : DryRunResult) : DryRunResult :=
  mkDry (path r ++ [current])
        (transcript_preview r ++ match preview_text n with Some s => [(current, s)] | None => [] end)
        (steps r + 1) (loop_detected r).
Definition set_loop (r : DryRunResult) : DryRunResult :=
  mkDry (path r) (transcript_preview r) (steps r) true.

Fixpoint walk (t : dict string GraphCanvasNode) (max_steps : Z) (fuel : nat)
    (current : string) (r : DryRunResult) : DryRunResult :=
  match fuel with
  | 0 => r
  | S fuel' =>
      if negb (str_true current) then r else
      match dget current t with
      | None => r
      | Some n =>
          if negb (steps r <? max_steps)%Z then r
          else if bool_decide (current ∈ path r) then set_loop r
          else
            let r' := visit current n r in
            match best_edge n with
            | None => r'
            | Some e =>
                if bool_decide (to_node_id e ∈ path r') then set_loop r'
                else walk t max_steps fuel' (to_node_id e) r'
            end
      end
  end.

Definition dry_run (d : GraphDefinition) (max_steps : Z) : DryRunResult :=
  walk (table d) max_steps (S (Z.to_nat max_steps)) (start_node_id d) (mkDry [] [] 0 false).

(** ** The deploy payload *)
Definition kind_str (k : node_kind) : string :=
  match k with NtLlm => "llm" | NtStatic => "static" | NtRouter => "router" end.
Definition condition_str (c : condition_kind) : string :=
  match c with
  | CtLlm => "llm" | CtExpression => "expression" | CtUnconditional => "unconditional" | CtEvent => "event"
  end.

(** A key the dictionary display spreads in only when [b] holds. *)
Definition entry_if (b : bool) (k : string) (v : val) : dict string val := if b then [(k, v)] else [].

Definition engine_edge_of (e : GraphCanvasEdge) : val :=
  VDict ([("to_node_id", VStr (to_node_id e)); ("condition", VStr (condition e))]
    ++ entry_if (opt_true (label e)) "label" (VStr (default "" (label e)))
    ++ entry_if (negb (is_type CtLlm e)) "condition_type" (VStr (condition_str (condition_type e)))
    ++ entry_if (negb (bool_decide (default [] (expression e) = []))) "expression" (VDict (default [] (expression e)))
    ++ entry_if (opt_true (event_name e)) "event_name" (VStr (default "" (event_name e)))
    ++ match priority e with Some p => [("priority", VInt p)] | None => [] end).

Definition engine_node_of (n : GraphCanvasNode) : val :=
  VDict ([("id", VStr (id n)); ("node_type", VStr (kind_str (node_type n))); ("prompt", VStr (prompt n));
          ("edges", VList (map engine_edge_of (edges n)))]
    ++ entry_if (opt_true (description n)) "description" (VStr (default "" (description n)))
    ++ entry_if (opt_true (static_message n)) "static_message" (VStr (default "" (static_message n)))
    ++ match repeat_after_silence_seconds n with
       | Some f => [("repeat_after_silence_seconds", VFloat f)] | None => [] end).

Definition graph_to_agent_payload (graph_name : string) (d : GraphDefinition) (agent_name : string) : val :=
  let information := if str_true (agent_information d) then agent_information d
                     else "Agent " +:+ graph_name +:+ "." in
  let llm_config :=
    [("agent_information", VStr information); ("nodes", VList (map engine_node_of (nodes d)));
     ("current_node_id", VStr (start_node_id d))]
    ++ entry_if (opt_true (routing_model d)) "routing_model" (VStr (default "" (routing_model d))) in
  VDict [
    ("agent_config", VDict [
       ("agent_name", VStr agent_name);
       ("agent_type", VStr "other");
       ("tasks", VList [VDict [
          ("task_type", VStr "conversation");
          ("toolchain", VDict [("execution", VStr "parallel");
             ("pipelines", VList [VList [VStr "transcriber"; VStr "llm"; VStr "synthesizer"]])]);
          ("tools_config", VDict [
             ("transcriber", VDict [("provider", VStr "deepgram"); ("language", VStr "en"); ("stream", VBool true)]);
             ("llm_agent", VDict [("agent_type", VStr "graph_agent"); ("agent_flow_type", VStr "streaming");
                ("llm_config", VDict llm_config)]);
             ("synthesizer", VDict [("provider", VStr "elevenlabs"); ("stream", VBool true);
                ("audio_format", VStr "wav")])]);
          ("task_config", VDict [("check_if_user_online", VBool true)])]])]);
    ("agent_prompts", VDict [("task_1", VDict [("system_prompt", VStr information)])])].

(** ** The engine's models (brains.py [GraphEdge], [GraphNode]): the fields the payload carries *)
Record GraphEdge := mkEngineEdge {
  g_to_node_id : string; g_condition : string; g_label : option string;
  g_condition_type : option condition_kind; g_expression : option (dict string val);
  g_event_name : option string; g_priority : option Z }.
Record GraphNode := mkEngineNode {
  g_id : string; g_node_type : node_kind; g_description : option string; g_prompt : string;
  g_static_message : option string; g_repeat : option pyfloat; g_edges : list GraphEdge }.

Definition get_str (k : string) (d : dict string val) : option string :=
  match dget k d with Some (VStr s) => Some s | _ => None end.
Definition read_condition (s : string) : option condition_kind :=
  if bool_decide (s = "llm") then Some CtLlm
  else if bool_decide (s = "expression") then Some CtExpression
  else if bool_decide (s = "unconditional") then Some CtUnconditional
  else if bool_decide (s = "event") then Some CtEvent else None.
Definition read_kind (s : string) : node_kind :=
  if bool_decide (s = "static") then NtStatic else if bool_decide (s = "router") then NtRouter else NtLlm.

Definition read_edge (v : val) : option GraphEdge :=
  match v with
  | VDict d =>
      to ← get_str "to_node_id" d;
      Some (mkEngineEdge to (default "" (get_str "condition" d)) (get_str "label" d)
              (get_str "condition_type" d ≫= read_condition)
              (match dget "expression" d with Some (VDict x) => Some x | _ => None end)
              (get_str "event_name" d)
              (match dget "priority" d with Some (VInt p) => Some p | _ => None end))
  | _ => None
  end.

Definition read_node (v : val) : option GraphNode :=
  match v with
  | VDict d =>
      i ← get_str "id" d;
      es ← match dget "edges" d with Some (VList l) => mapM read_edge l | _ => Some [] end;
      Some (mkEngineNode i (read_kind (default "llm" (get_str "node_type" d))) (get_str "description" d)
              (default "" (get_str "prompt" d)) (get_str "static_message" d)
              (match dget "repeat_after_silence_seconds" d with Some (VFloat f) => Some f | _ => None end) es)
  | _ => None
  end.

(** The model validator: [true] when it returns, [false] when it raises. *)
Definition validate_router_node (n : GraphNode) : bool :=
  match g_node_type n with
  | NtRouter =>
      if str_true (g_prompt n) || opt_true (g_static_message n) then false
      else if existsb (fun e => bool_decide (g_condition_type e = Some CtEvent)) (g_edges n) then false
      else existsb (fun e => bool_decide (g_condition_type e = Some CtUnconditional)) (g_edges n)
  | _ => true
  end.

(** The [llm_config] the payload hands to the engine. *)
Definition vget (k : string) (v : val) : option val :=
  match v with VDict d => dget k d | _ => None end.
Definition payload_llm_config (v : val) : option val :=
  c ← vget "agent_config" v;
  l ← vget "tasks" c;
  t ← match l with VList [t] => Some t | _ => None end;
  tools ← vget "tools_config" t;
  a ← vget "llm_agent" tools;
  vget "llm_config" a.
Definition read_payload_nodes (v : val) : option (list GraphNode) :=
  c ← payload_llm_config v;
  match vget "nodes" c with Some (VList l) => mapM read_node l | _ => None end.

(** ** Lemmas *)
Lemma duplicate_errors_nil seen ids :
  duplicate_errors seen ids = [] <-> NoDup ids /\ forall i, i ∈ ids -> i ∉ seen.
Proof.
  revert seen. induction ids as [|i ids IH]; intros seen; simpl.
  - split; [intros _; split; [constructor|set_solver]|done].
  - case_bool_decide as E; simpl.
    + split; [done|]. intros [_ H]. exfalso. apply (H i); set_solver.
    + rewrite IH, NoDup_cons. set_solver.
Qed.

(** What the engine requires of a router node. *)
Definition router_ok (n : GraphCanvasNode) : Prop :=
  node_type n = NtRouter ->
  prompt n = "" /\ default "" (static_message n) = "" /\
  (forall e, e ∈ edges n -> condition_type e <> CtEvent) /\
  (exists e, e ∈ edges n /\ condition_type e = CtUnconditional).

Lemma router_errors_nil n : router_errors n = [] <-> router_ok n.
Proof.
  unfold router_errors, router_ok. destruct (node_type n); [naive_solver..|].
  rewrite !app_nil, !if_nil, orb_false_iff, negb_false_iff. unfold is_type, opt_true.
  rewrite !str_true_false, <- not_true_iff_false, !existsb_elem.
  setoid_rewrite bool_decide_eq_true. naive_solver.
Qed.

(** The structural rules of a deployable graph. *)
Definition well_formed (d : GraphDefinition) : Prop :=
  nodes d <> [] /\ NoDup (map id (nodes d)) /\ start_node_id d ∈ map id (nodes d) /\
  (forall n e, n ∈ nodes d -> e ∈ edges n -> to_node_id e ∈ map id (nodes d)) /\
  (forall n, n ∈ nodes d -> router_ok n).

Lemma node_errors_nil d n :
  node_errors (table d) n = [] <->
  (forall e, e ∈ edges n -> to_node_id e ∈ map id (nodes d)) /\ router_ok n.
Proof.
  unfold node_errors. rewrite app_nil, concat_map_nil, router_errors_nil.
  unfold edge_errors. setoid_rewrite if_nil'. unfold table. by setoid_rewrite by_id_known.
Qed.

Lemma valid_well_formed d : valid (validate_definition d) = true <-> well_formed d.
Proof.
  unfold validate_definition, well_formed. destruct (nodes d) as [|n0 ns] eqn:E; [naive_solver|].
  rewrite <- E. cbn [valid].
  transitivity (duplicate_errors [] (map id (nodes d)) = [] /\
                dhas (start_node_id d) (table d) = true /\
                concat (map (node_errors (table d)) (nodes d)) = []).
  - destruct (duplicate_errors _ _); simpl; [|by split; [|intros (? & _)]].
    destruct (dhas _ _); simpl; [|by split; [|intros (_ & ? & _)]].
    destruct (concat _); [done|]. by split; [|intros (_ & _ & ?)].
  - rewrite duplicate_errors_nil, concat_map_nil. setoid_rewrite node_errors_nil.
    unfold table. rewrite by_id_known. split.
    + intros ((H1 & _) & H2 & H3). split_and!; [congruence|done|done| |].
      * intros n e Hn. by apply (proj1 (H3 n Hn)).
      * intros n Hn. apply (proj2 (H3 n Hn)).
    + intros (_ & H1 & H2 & H3 & H4). split_and!; [done|by intros i _ ?%not_elem_of_nil|done|].
      intros n Hn. split; [intros e; by apply H3|by apply H4].
Qed.

Lemma reachable_spec d i :
  i ∈ reachable d <->
  reaches (fun k => dhas k (table d)) (successors (table d)) (start_node_id d) i.
Proof. apply reachable_from_spec. intros k. apply by_id_known. Qed.

(** C40: A definition is reported valid exactly when it satisfies the structural
    rules (unique ids, an existing start node, edges to known nodes, routers that
    stay silent and always advance), valid means no error, and after the
    per-node warnings come exactly the ids no path from the start node leads to. *)
Theorem validation_exact d :
  let r := validate_definition d in
  (valid r = true <-> well_formed d) /\ (valid r = true <-> errors r = []) /\
  exists unreached,
    warnings r = concat (map node_warnings (nodes d)) ++ map unreachable_warning unreached /\
    forall i, i ∈ unreached <->
      start_node_id d ∈ map id (nodes d) /\ i ∈ map id (nodes d) /\
      ~ reaches (fun k => dhas k (table d)) (successors (table d)) (start_node_id d) i.
Proof.
  cbv zeta. split; [apply valid_well_formed|].
  unfold validate_definition. destruct (nodes d) as [|n0 ns] eqn:E.
  { split; [by split|]. exists []. split; [done|]. set_solver. }
  rewrite <- E. cbn [valid errors warnings]. split; [by destruct (_ ++ _)|].
  destruct (dhas (start_node_id d) (table d)) eqn:K.
  - eexists. split; [done|]. intros i. rewrite list_elem_of_filter, reachable_spec.
    apply by_id_known in K. naive_solver.
  - exists []. split; [done|]. intros i. split; [set_solver|].
    intros (Hs & _). apply (by_id_known id) in Hs. unfold table in K. congruence.
Qed.

(** ** The deploy payload read back *)
Definition nonempty (s : option string) : option string := if opt_true s then s else None.
Definition engine_edge (e : GraphCanvasEdge) : GraphEdge :=
  mkEngineEdge (to_node_id e) (condition e) (nonempty (label e))
    (if is_type CtLlm e then None else Some (condition_type e))
    (match expression e with Some [] => None | x => x end)
    (nonempty (event_name e)) (priority e).
Definition engine_node (n : GraphCanvasNode) : GraphNode :=
  mkEngineNode (id n) (node_type n) (nonempty (description n)) (prompt n)
    (nonempty (static_message n)) (repeat_after_silence_seconds n) (map engine_edge (edges n)).

Lemma get_str_app k d1 d2 :
  get_str k (d1 ++ d2) = match dget k d1 with Some (VStr s) => Some s | Some _ => None | None => get_str k d2 end.
Proof.
  unfold get_str. induction d1 as [|[k' v] d1 IH]; simpl; [done|]. case_decide; [by destruct v|done].
Qed.

Lemma dget_app {V} k (d1 d2 : dict string V) :
  dget k (d1 ++ d2) = match dget k d1 with Some v => Some v | None => dget k d2 end.
Proof. induction d1 as [|[k' v] d1 IH]; simpl; [done|]. by case_decide. Qed.

Lemma dget_entry_if b k k' v :
  dget k (entry_if b k' v) = if b && bool_decide (k = k') then Some v else None.
Proof. unfold entry_if. destruct b; simpl; [|done]. by case_decide; case_bool_decide. Qed.

Lemma opt_true_Some s : opt_true s = true -> s = Some (default "" s).
Proof. by destruct s. Qed.

Lemma nonempty_eq s : nonempty s = if opt_true s then Some (default "" s) else None.
Proof. unfold nonempty. destruct (opt_true s) eqn:E; [by apply opt_true_Some|done]. Qed.

Lemma read_condition_str c : read_condition (condition_str c) = Some c.
Proof. by destruct c. Qed.
Lemma read_kind_str k : read_kind (kind_str k) = k.
Proof. by destruct k. Qed.

Lemma read_edge_of e : read_edge (engine_edge_of e) = Some (engine_edge e).
Proof.
  destruct e as [to c l ct x ev p]. unfold engine_edge_of, engine_edge, read_edge. cbn [to_node_id].
  unfold get_str. rewrite !dget_app, !dget_entry_if. rewrite !nonempty_eq.
  cbn [condition label condition_type expression event_name priority is_type].
  unfold is_type; cbn [condition_type].
  destruct (opt_true l), (opt_true ev), p as [p|], ct, x as [[|kv x]|]; vm_compute; reflexivity.
Qed.

Lemma mapM_read {A B C} (f : B -> option C) (g : A -> B) (h : A -> C) l :
  (forall x, f (g x) = Some (h x)) -> mapM f (map g l) = Some (map h l).
Proof.
  intros H. induction l as [|x l IH]; [done|]. cbn [map mapM]. rewrite H. cbn. by rewrite IH.
Qed.

Lemma read_node_of n : read_node (engine_node_of n) = Some (engine_node n).
Proof.
  destruct n as [i k ds pr sm rp es]. unfold engine_node_of, engine_node, read_node. cbn [id].
  unfold get_str. rewrite !dget_app, !dget_entry_if, !nonempty_eq.
  cbn [id node_type description prompt static_message repeat_after_silence_seconds edges].
  pose proof (mapM_read read_edge engine_edge_of engine_edge es read_edge_of) as H.
  set (x := map engine_edge_of es) in *. set (y := map engine_edge es) in *. clearbody x y.
  transitivity (es' ← mapM read_edge x;
    Some (mkEngineNode i k (if opt_true ds then Some (default "" ds) else None) pr
            (if opt_true sm then Some (default "" sm) else None) rp es')); [|by rewrite H].
  by destruct (opt_true ds), (opt_true sm), rp as [f|], k.
Qed.

Lemma existsb_map {A B} (p : B -> bool) (f : A -> B) l : existsb p (map f l) = existsb (fun x => p (f x)) l.
Proof. induction l; simpl; congruence. Qed.

Lemma engine_node_router_ok n : router_ok n -> validate_router_node (engine_node n) = true.
Proof.
  unfold router_ok, validate_router_node, engine_node. cbn [g_node_type g_prompt g_static_message g_edges].
  destruct (node_type n); try done. intros (Hp & Hs & He & e & Hin & Hu); [done|].
  rewrite Hp, nonempty_eq. unfold opt_true. rewrite Hs. cbn [default str_true orb].
  rewrite !existsb_map. destruct (existsb _ (edges n)) eqn:X.
  - apply existsb_elem in X as (e' & Hin' & Hc). apply bool_decide_eq_true in Hc.
    exfalso. apply (He e' Hin'). unfold engine_edge, is_type in Hc. cbn in Hc. case_bool_decide; by simplify_eq.
  - apply existsb_elem. exists e. split; [done|]. apply bool_decide_eq_true.
    unfold engine_edge, is_type. cbn. by rewrite Hu.
Qed.

(** A definition the validator accepts deploys: reading the [llm_config] of
    the payload with the engine's models gives its nodes and edges back field by
    field (an empty optional text or expression becomes absent, and the type
    "llm" the absent type that the engine maps to it), every node passes the
    engine's own router rules, and the call starts at the definition's start
    node, which is one of those nodes. *)
Theorem deploy_roundtrip name d agent :
  valid (validate_definition d) = true ->
  let body := graph_to_agent_payload name d agent in
  read_payload_nodes body = Some (map engine_node (nodes d)) /\
  forallb validate_router_node (map engine_node (nodes d)) = true /\
  (c ← payload_llm_config body; vget "current_node_id" c) = Some (VStr (start_node_id d)) /\
  start_node_id d ∈ map g_id (map engine_node (nodes d)).
Proof.
  intros (_ & _ & Hstart & _ & Hrouter)%valid_well_formed body. split_and!.
  - change (read_payload_nodes body) with (mapM read_node (map engine_node_of (nodes d))).
    apply mapM_read, read_node_of.
  - apply forallb_forall. intros g (n & -> & Hn)%list_elem_of_In%list_elem_of_fmap.
    apply engine_node_router_ok, Hrouter, Hn.
  - reflexivity.
  - by rewrite map_map.
Qed.

(** ** The dry run follows first-least edges *)
Lemma head_sort_by {A} (le : A -> A -> bool) l e :
  (forall x y z, le x y = true -> le y z = true -> le x z = true) ->
  (forall x y, le x y = false -> le y x = true) ->
  head (sort_by le l) = Some e ->
  exists l1 l2, l = l1 ++ e :: l2 /\ (forall f, f ∈ l1 -> le f e = false) /\
    (forall f, f ∈ l2 -> le e f = true).
Proof.
  intros Htr Htot. revert e. induction l as [|x l IH]; intros e; [done|]. cbn [sort_by foldr].
  fold (sort_by le l). destruct (sort_by le l) as [|y r] eqn:Hsort; simpl.
  - intros [= ->]. pose proof (sort_by_perm le l) as P. rewrite Hsort in P.
    apply Permutation_nil_l in P as <-. exists [], []. set_solver.
  - destruct (IH y eq_refl) as (l1 & l2 & -> & H1 & H2). destruct (le x y) eqn:L.
    + intros [= <-]. exists [], (l1 ++ y :: l2). split_and!; [done|set_solver|].
      intros f [Hf|[->|Hf]%elem_of_cons]%elem_of_app; [|done|by apply (Htr _ y); [|apply H2]].
      apply (Htr _ y); [done|]. apply Htot, H1, Hf.
    + intros [= <-]. exists (x :: l1), l2. split_and!; [done| |done].
      intros f [->|Hf]%elem_of_cons; [done|by apply H1].
Qed.

Lemma rank_le_trans e f g : rank_le e f = true -> rank_le f g = true -> rank_le e g = true.
Proof.
  unfold rank_le. destruct (edge_rank e), (edge_rank f), (edge_rank g).
  rewrite !orb_true_iff, !andb_true_iff, !Z.ltb_lt, !Z.eqb_eq, !Z.leb_le. lia.
Qed.
Lemma rank_le_total e f : rank_le e f = false -> rank_le f e = true.
Proof.
  unfold rank_le. destruct (edge_rank e), (edge_rank f).
  rewrite orb_true_iff, !orb_false_iff, andb_true_iff, andb_false_iff.
  rewrite !Z.ltb_lt, !Z.ltb_ge, !Z.eqb_eq, !Z.eqb_neq, !Z.leb_le, !Z.leb_gt. lia.
Qed.

(** [b] is where the walk goes from [a]: the target of the first edge of least rank. *)
Definition follows (t : dict string GraphCanvasNode) (a b : string) : Prop :=
  exists n l1 e l2, dget a t = Some n /\ edges n = l1 ++ e :: l2 /\ to_node_id e = b /\
    (forall f, f ∈ l1 -> rank_le f e = false) /\ (forall f, f ∈ l2 -> rank_le e f = true).

Lemma best_edge_follows t a n e :
  dget a t = Some n -> best_edge n = Some e -> follows t a (to_node_id e).
Proof.
  intros Ha (l1 & l2 & Hl & H1 & H2)%head_sort_by; [|apply rank_le_trans|apply rank_le_total].
  by exists n, l1, e, l2.
Qed.

Lemma best_edge_None n : best_edge n = None <-> edges n = [].
Proof.
  unfold best_edge. pose proof (sort_by_perm rank_le (edges n)) as P.
  destruct (sort_by rank_le (edges n)); simpl.
  - by apply Permutation_nil_l in P as <-.
  - split; [done|]. intros E. rewrite E in P. by apply Permutation_nil_r in P.
Qed.

(** Consecutive elements of a list are related. *)
Definition chained (R : string -> string -> Prop) (l : list string) : Prop :=
  forall i a b, l !! i = Some a -> l !! S i = Some b -> R a b.

Lemma chained_snoc R l b :
  chained R l -> (forall a, last l = Some a -> R a b) -> chained R (l ++ [b]).
Proof.
  intros Hl Hlast i x y Hx Hy. destruct (decide (S i < length l)).
  - rewrite lookup_app_l in Hx, Hy by lia. by eapply Hl.
  - apply lookup_lt_Some in Hy as Hlt. rewrite length_app in Hlt. simpl in Hlt.
    rewrite lookup_app_l in Hx by lia. rewrite lookup_app_r in Hy by lia.
    replace (S i - length l) with 0 in Hy by lia. simplify_eq/=.
    apply Hlast. rewrite last_lookup. by replace (Nat.pred (length l)) with i by lia.
Qed.

(** The preview lines of a path, in its order. *)
Definition previews (t : dict string GraphCanvasNode) (p : list string) : list (string * string) :=
  concat (map (fun i => match dget i t ≫= preview_text with Some s => [(i, s)] | None => [] end) p).

(** The walk stands at [current] with [r] so far. *)
Definition walk_inv (t : dict string GraphCanvasNode) (m : Z) (start current : string) (r : DryRunResult) : Prop :=
  steps r = Z.of_nat (length (path r)) /\ (steps r <= Z.max 0 m)%Z /\ loop_detected r = false /\
  NoDup (path r) /\ current ∉ path r /\ chained (follows t) (path r) /\
  (forall a, last (path r) = Some a -> follows t a current) /\
  head (path r ++ [current]) = Some start /\
  (forall a, a ∈ path r -> dhas a t = true /\ a <> "") /\
  transcript_preview r = previews t (path r).

(** Why the walk stopped. *)
Inductive stop_reason (t : dict string GraphCanvasNode) (m : Z) (start : string) (r : DryRunResult) : Prop :=
| stop_loop a b : loop_detected r = true -> last (path r) = Some a -> follows t a b -> b ∈ path r ->
    stop_reason t m start r
| stop_dead_end a n : loop_detected r = false -> last (path r) = Some a -> dget a t = Some n ->
    edges n = [] -> stop_reason t m start r
| stop_unknown b : loop_detected r = false -> (b = "" \/ dhas b t = false) ->
    (path r = [] /\ b = start \/ exists a, last (path r) = Some a /\ follows t a b) ->
    stop_reason t m start r
| stop_limit b : loop_detected r = false -> steps r = Z.max 0 m -> b ∉ path r -> dhas b t = true ->
    (path r = [] /\ b = start \/ exists a, last (path r) = Some a /\ follows t a b) ->
    stop_reason t m start r.

Definition walk_post (t : dict string GraphCanvasNode) (m : Z) (start : string) (r : DryRunResult) : Prop :=
  steps r = Z.of_nat (length (path r)) /\ (steps r <= Z.max 0 m)%Z /\
  NoDup (path r) /\ chained (follows t) (path r) /\
  (forall a, head (path r) = Some a -> a = start) /\
  (forall a, a ∈ path r -> dhas a t = true /\ a <> "") /\
  transcript_preview r = previews t (path r) /\ stop_reason t m start r.

Lemma walk_inv_stop t m start current r :
  walk_inv t m start current r -> stop_reason t m start r -> walk_post t m start r.
Proof.
  intros (H1 & H2 & _ & H4 & _ & H6 & _ & H8 & H9 & H10) Hs. split_and!; try done.
  - intros a Ha. destruct (path r); by simplify_eq/=.
Qed.

Lemma walk_inv_last t m start current r :
  walk_inv t m start current r ->
  path r = [] /\ current = start \/ exists a, last (path r) = Some a /\ follows t a current.
Proof.
  intros (_ & _ & _ & _ & _ & _ & H7 & H8 & _). destruct (last (path r)) as [a|] eqn:E.
  - right. exists a. split; [done|]. by apply H7.
  - left. apply last_None in E. rewrite E in H8. by simplify_eq/=.
Qed.

Lemma previews_snoc t p i n :
  dget i t = Some n ->
  previews t (p ++ [i]) = previews t p ++ match preview_text n with Some s => [(i, s)] | None => [] end.
Proof. intros H. unfold previews. rewrite map_app, concat_app. cbn. rewrite H. cbn. by rewrite app_nil_r. Qed.

(** One visit keeps everything but the position. *)
Lemma visit_post t m start current r n :
  walk_inv t m start current r -> dget current t = Some n -> current <> "" -> (steps r < m)%Z ->
  let r' := visit current n r in
  steps r' = Z.of_nat (length (path r')) /\ (steps r' <= Z.max 0 m)%Z /\ loop_detected r' = false /\
  NoDup (path r') /\ chained (follows t) (path r') /\ last (path r') = Some current /\
  head (path r') = Some start /\ (forall a, a ∈ path r' -> dhas a t = true /\ a <> "") /\
  transcript_preview r' = previews t (path r').
Proof.
  intros (H1 & H2 & H3 & H4 & H5 & H6 & H7 & H8 & H9 & H10) Hn Hc Hm. cbn -[previews app].
  rewrite length_app. simpl. split_and!; [lia|lia|done| |by apply chained_snoc|by rewrite last_snoc|done| |].
  - apply NoDup_app. split_and!; [done|set_solver|apply NoDup_singleton].
  - intros a [Ha| ->%list_elem_of_singleton]%elem_of_app; [by apply H9|].
    split; [unfold dhas; by rewrite Hn|done].
  - by rewrite (previews_snoc _ _ _ n), H10.
Qed.

Lemma walk_ok t m start fuel current r :
  walk_inv t m start current r -> (Z.max 0 m - steps r < Z.of_nat fuel)%Z ->
  walk_post t m start (walk t m fuel current r).
Proof.
  revert current r. induction fuel as [|fuel IH]; intros current r Hinv Hf; [destruct Hinv; lia|].
  pose proof (walk_inv_last _ _ _ _ _ Hinv) as Hlast. cbn [walk].
  destruct (str_true current) eqn:Hstr; cbn [negb].
  2:{ eapply walk_inv_stop; [done|]. apply (stop_unknown _ _ _ _ current); [apply Hinv| |done].
      left. by apply str_true_false. }
  assert (current <> "") as Hne by (intros ->; done).
  destruct (dget current t) as [n|] eqn:Hn.
  2:{ eapply walk_inv_stop; [done|]. apply (stop_unknown _ _ _ _ current); [apply Hinv| |done].
      right. unfold dhas. by rewrite Hn. }
  destruct (Z.ltb_spec (steps r) m) as [Hm|Hm]; cbn [negb].
  2:{ eapply walk_inv_stop; [done|]. pose proof Hinv as (H1 & H2 & H3 & _ & H5 & _).
      apply (stop_limit _ _ _ _ current); [done|lia|done|unfold dhas; by rewrite Hn|done]. }
  rewrite bool_decide_eq_false_2 by apply Hinv.
  destruct (visit_post t m start current r n Hinv Hn Hne Hm)
    as (V1 & V2 & V3 & V4 & V5 & V6 & V7 & V8 & V9).
  destruct (best_edge n) as [e|] eqn:He.
  - apply (best_edge_follows t current) in He; [|done]. case_bool_decide as Hin.
    + split_and!; try done; [intros a Ha; cbn in *; congruence|].
      by apply (stop_loop _ _ _ _ current (to_node_id e)).
    + apply IH; [|cbn in *; lia]. split_and!; try done.
      * intros a Ha. rewrite V6 in Ha. by simplify_eq.
      * destruct (path (visit current n r)); by simplify_eq/=.
  - split_and!; try done; [intros a Ha; congruence|].
    apply best_edge_None in He. by apply (stop_dead_end _ _ _ _ current n).
Qed.

Lemma dry_run_post d m : walk_post (table d) m (start_node_id d) (dry_run d m).
Proof.
  apply walk_ok; [|cbn; lia]. split_and!; cbn; try done; [lia|constructor|set_solver|intros a; set_solver].
Qed.

Lemma follows_fun t a b b' : follows t a b -> follows t a b' -> b = b'.
Proof.
  intros (n & l1 & e & l2 & Ha & Hl & <- & H1 & H2) (n' & l1' & e' & l2' & Ha' & Hl' & <- & H1' & H2').
  simplify_eq. rewrite Hl in Hl'.
  apply app_eq_inv in Hl' as [([|x k] & -> & Hk)|([|x k] & -> & Hk)]; simplify_eq/=; try done.
  - exfalso. assert (rank_le x e = false) by (apply H1; set_solver).
    assert (rank_le x e = true) by (apply H2'; set_solver). congruence.
  - exfalso. assert (rank_le x e' = false) by (apply H1'; set_solver).
    assert (rank_le x e' = true) by (apply H2; set_solver). congruence.
Qed.

Lemma path_within d m : length (path (dry_run d m)) <= length (nodes d).
Proof.
  destruct (dry_run_post d m) as (_ & _ & Hnd & _ & _ & Hk & _).
  rewrite <- (length_map id). apply submseteq_length, NoDup_submseteq; [done|].
  intros a Ha. apply by_id_known. by apply Hk.
Qed.

(** The dry run visits no node twice and at most [max_steps] nodes, starts at
    the start node, goes from each node to the target of the first of its edges
    of least (tier, priority), previews exactly the visited nodes that speak, in
    order, and reports a loop exactly when the edge it would follow next leads
    back to a visited node. *)
Theorem dry_run_walk d max_steps :
  let r := dry_run d max_steps in
  NoDup (path r) /\ steps r = Z.of_nat (length (path r)) /\ (steps r <= Z.max 0 max_steps)%Z /\
  (forall a, head (path r) = Some a -> a = start_node_id d) /\
  chained (follows (table d)) (path r) /\
  transcript_preview r = previews (table d) (path r) /\
  (loop_detected r = true <->
   exists a b, last (path r) = Some a /\ follows (table d) a b /\ b ∈ path r).
Proof.
  cbv zeta. destruct (dry_run_post d max_steps) as (P1 & P2 & P3 & P4 & P5 & P6 & P7 & Hs).
  split_and!; try done. split.
  - intros Hl. destruct Hs as [a b| | |]; [by exists a, b|congruence..].
  - intros (a & b & Ha & Hab & Hb). destruct Hs as [|a' n _ Ha' Hn He|b' _ Hb' Hc|b' _ _ Hb' _ Hc]; [done|..].
    + simplify_eq. destruct Hab as (n' & l1 & e & l2 & Hn' & Hl & _). simplify_eq.
      rewrite He in Hl. by destruct l1.
    + destruct Hc as [[E _]|(a' & Ha' & Hab')]; [by rewrite E in Ha|]. simplify_eq.
      rewrite (follows_fun _ _ _ _ Hab Hab') in Hb. destruct (P6 _ Hb) as [Hk Hne].
      destruct Hb' as [->|Hb']; congruence.
    + destruct Hc as [[E _]|(a' & Ha' & Hab')]; [by rewrite E in Ha|]. simplify_eq.
      by rewrite (follows_fun _ _ _ _ Hab Hab') in Hb.
Qed.

(** On a valid definition (ids are non-empty, as the model requires) whose
    node count the limit covers, the dry run always runs to its end: it closes a
    loop or comes to rest on a node without edges, never short of either. *)
Theorem dry_run_exhaustive d max_steps :
  valid (validate_definition d) = true -> (forall n, n ∈ nodes d -> id n <> "") ->
  (Z.of_nat (length (nodes d)) <= max_steps)%Z ->
  let r := dry_run d max_steps in
  loop_detected r = true \/
  exists a n, last (path r) = Some a /\ dget a (table d) = Some n /\ edges n = [].
Proof.
  intros (_ & _ & Hstart & Hedges & _)%valid_well_formed Hid Hm. cbv zeta.
  pose proof (path_within d max_steps) as Hlen.
  destruct (dry_run_post d max_steps) as (P1 & P2 & P3 & P4 & P5 & P6 & P7 & Hs).
  assert (forall b, (path (dry_run d max_steps) = [] /\ b = start_node_id d \/
            exists a, last (path (dry_run d max_steps)) = Some a /\ follows (table d) a b) ->
          b ∈ map id (nodes d)) as Hnext.
  { intros b [[_ ->]|(a & _ & n & l1 & e & l2 & Hn & Hl & <- & _)]; [done|].
    apply by_id_Some in Hn as [Hn _]. apply (Hedges n e Hn). rewrite Hl. set_solver. }
  destruct Hs as [| a n|b _ Hb Hc|b _ Hsteps Hnew Hk Hc]; [by left|by right; exists a, n|..].
  - apply Hnext in Hc. exfalso. destruct Hb as [->|Hb].
    + apply list_elem_of_fmap in Hc as (n & Hn1 & Hn2). by apply (Hid n).
    + apply (by_id_known id) in Hc. unfold table in Hb. congruence.
  - exfalso. apply Hnext in Hc.
    assert (length (b :: path (dry_run d max_steps)) <= length (map id (nodes d))) as Hl.
    { apply submseteq_length, NoDup_submseteq; [by apply NoDup_cons|].
      intros a [->|Ha]%elem_of_cons; [done|]. apply by_id_known. by apply P6. }
    rewrite length_map in Hl. simpl in Hl. lia.
Qed.

(** ** Concrete runs *)
Definition goto (to : string) (c : condition_kind) (p : option Z) : GraphCanvasEdge :=
  mkEdge to "" None c None None p.
Definition demo : GraphDefinition := mkGraph "" "greet" None [] [
  mkNode "greet" NtLlm None "Greet the caller" None None [goto "bye" CtUnconditional None; goto "route" CtLlm (Some 5%Z)];
  mkNode "route" NtRouter None "" None None [goto "greet" CtExpression None; goto "bye" CtUnconditional None];
  mkNode "bye" NtStatic None "" (Some " Bye! ") None []].

Lemma deploy_roundtrip_witness :
  valid (validate_definition demo) = true /\
  read_payload_nodes (graph_to_agent_payload "g" demo "a") = Some (map engine_node (nodes demo)).
Proof.
  split; [vm_compute; reflexivity|].
  apply (deploy_roundtrip "g" demo "a"). vm_compute. reflexivity.
Defined.

Lemma dry_run_exhaustive_witness :
  path (dry_run demo 3) = ["greet"; "route"] /\
  (loop_detected (dry_run demo 3) = true \/
   exists a n, last (path (dry_run demo 3)) = Some a /\ dget a (table demo) = Some n /\ edges n = []).
Proof.
  split; [vm_compute; reflexivity|].
  apply (dry_run_exhaustive demo 3).
  - vm_compute. reflexivity.
  - intros n Hn. repeat (apply elem_of_cons in Hn as [->|Hn]; [done|]). by apply not_elem_of_nil in Hn.
  - vm_compute. done.
Defined.

End GraphDef.
