(* ===== verification/Execution.v ===== *)
(** * Execution records and the simulated call (modules/executions/runner.py)

    The store port is the map of execution rows together with the trace of the
    writes made to it. Clock readings are arguments; the sleeps between two writes
    are where other tasks run and have no effect of their own. Ids come from
    [fresh_id], indexed by how many were drawn. *)
From S2P Require Import Prelude PyText PyVal.
From Stdlib Require Import QArith.QArith.
Close Scope Q_scope.
Open Scope voice_scope.

Module Execution.

Inductive ExecutionStatus : Type :=
| QUEUED | RINGING | IN_PROGRESS | COMPLETED | FAILED | NO_ANSWER | BUSY | CANCELED.
#[global] Instance status_dec : EqDecision ExecutionStatus.
Proof. solve_decision. Defined.
Definition status_value (s : ExecutionStatus) : string :=
  match s with
  | QUEUED => "queued" | RINGING => "ringing" | IN_PROGRESS => "in_progress" | COMPLETED => "completed"
  | FAILED => "failed" | NO_ANSWER => "no-answer" | BUSY => "busy" | CANCELED => "canceled"
  end.

Record TranscriptTurn := mkTurn { role : string; turn_text : string; ts : Q; latency_ms : option Z }.
Record LatencyBreakdown := mkLatency { transcriber_ms : Z; llm_ms : Z; synthesizer_ms : Z; e2e_ms : Z }.

Record execution := mkExecution {
  exec_id : string; agent_id : string; batch_id : option string; to_number : string;
  from_number : option string; status : ExecutionStatus; exec_variables : dict string val;
  transcript : list TranscriptTurn; summary : option string; extracted_data : dict string val;
  latency : option LatencyBreakdown; hangup_code : option string;
  started_at : Q; ended_at : option Q; duration_s : Q }.

Definition with_status (s : ExecutionStatus) (e : execution) : execution :=
  mkExecution (exec_id e) (agent_id e) (batch_id e) (to_number e) (from_number e) s (exec_variables e)
    (transcript e) (summary e) (extracted_data e) (latency e) (hangup_code e) (started_at e) (ended_at e) (duration_s e).
Definition with_transcript (t : list TranscriptTurn) (e : execution) : execution :=
  mkExecution (exec_id e) (agent_id e) (batch_id e) (to_number e) (from_number e) (status e) (exec_variables e)
    t (summary e) (extracted_data e) (latency e) (hangup_code e) (started_at e) (ended_at e) (duration_s e).

(** ** The script *)
Definition PARTIAL_TURNS : nat := 3.

(** Each template, split at its [{name}]. *)
Definition SCRIPT : list (string * (string * option string) * Z) := [
  ("agent", ("Namaste ", Some "! I am calling about your recent activity. Do you have a minute?"), 280%Z);
  ("user", ("Yes, tell me quickly.", None), 0%Z);
  ("agent", ("Thanks ", Some "! I have noted your preference and will follow up shortly. Anything else I can help with?"), 310%Z);
  ("user", ("No, that is all. Thank you.", None), 0%Z);
  ("agent", ("Wonderful! Have a great day ", Some ". Goodbye!"), 260%Z)].

Definition format_name (t : string * option string) (name : string) : string :=
  match t with (a, Some b) => a +:+ name +:+ b | (a, None) => a end.

Fixpoint caller_name_from (keys : list string) (vars : dict string val) : string :=
  match keys with
  | [] => "there"
  | k :: keys' =>
      match dget k vars with
      | Some (VStr s) => if str_true (strip s) then strip s else caller_name_from keys' vars
      | _ => caller_name_from keys' vars
      end
  end.
Definition caller_name (vars : dict string val) : string :=
  caller_name_from ["customer_name"; "name"; "first_name"] vars.

Fixpoint build_from (name : string) (t : Q) (script : list (string * (string * option string) * Z)) : list TranscriptTurn :=
  match script with
  | [] => []
  | (r, template, l) :: rest =>
      mkTurn r (format_name template name) (py_round 2 t) (if bool_decide (r = "agent") then Some l else None)
      :: build_from name (Qplus t (5 # 2)) rest
  end.
Definition build_transcript (vars : dict string val) : list TranscriptTurn :=
  build_from (caller_name vars) (1 # 2) SCRIPT.

Definition FORCED_OUTCOMES : dict string ExecutionStatus :=
  [("failed", FAILED); ("no-answer", NO_ANSWER); ("busy", BUSY)].

(** The forced outcome of a call, with the word that forces it. *)
Definition forced_outcome (vars : dict string val) : option (string * ExecutionStatus) :=
  match dget "force_outcome" vars with
  | Some (VStr s) => match dget s FORCED_OUTCOMES with Some o => Some (s, o) | None => None end
  | _ => None
  end.

Definition max_latency (l : list TranscriptTurn) : Z :=
  foldr Z.max 0%Z (map (fun t => default 0%Z (latency_ms t)) (filter (fun t => role t = "agent") l)).

Definition finalize_execution (now : Q) (e : execution) : execution :=
  let vars := exec_variables e in
  let outcome := forced_outcome vars in
  let full := build_transcript vars in
  let t := match outcome with None => full | Some _ => take 2 full end in
  let e2e := max_latency t in
  let name := caller_name vars in
  let '(summary', data, code, st) :=
    match outcome with
    | None => ("Simulated outbound call with " +:+ name +:+ ": confirmed interest and closed politely.",
               [("caller_name", VStr name); ("interested", VBool true); ("language", VStr "en")],
               "completed", COMPLETED)
    | Some (forced, o) =>
              ("Simulated outbound call with " +:+ name +:+ " ended before connecting: " +:+ forced +:+ ".",
               [("caller_name", VStr name); ("outcome", VStr forced); ("interested", VBool false)],
               forced, o)
    end in
  mkExecution (exec_id e) (agent_id e) (batch_id e) (to_number e) (from_number e) st vars t
    (Some summary') data (Some (mkLatency 180 (Z.max (e2e - 180 - 220) 60) 220 e2e)) (Some code)
    (started_at e) (Some now) (py_round 2 (Qminus now (started_at e))).

(** ** The store port and the runner *)
Record store := mkStore { rows : dict string execution; saves : list execution; drawn : nat }.

Definition save_execution (e : execution) : SE store exn unit :=
  se_modify (fun s => mkStore (dset (exec_id e) e (rows s)) (saves s ++ [e]) (drawn s)).
Definition get_execution (i : string) : SE store exn (option execution) :=
  s <- se_get ;; se_ret (dget i (rows s)).

Section runner.
Context (fresh_id : nat -> string).

Definition new_id : SE store exn string :=
  s <- se_get ;; se_modify (fun s => mkStore (rows s) (saves s) (S (drawn s))) ;;; se_ret (fresh_id (drawn s)).

(** From ringing to the final state: what both entry points drive. *)
Definition drive (ended : Q) (e : execution) : SE store exn execution :=
  let e1 := with_status RINGING e in
  save_execution e1 ;;;
  let e2 := with_transcript (take PARTIAL_TURNS (build_transcript (exec_variables e))) (with_status IN_PROGRESS e1) in
  save_execution e2 ;;;
  let e3 := finalize_execution ended e2 in
  save_execution e3 ;;;
  se_ret e3.

(** The model refuses an empty [agent_id] or [to_number] (min_length=1). *)
Definition run_simulated_call (started ended : Q) (agent to : string) (from : option string)
    (vars : dict string val) (batch : option string) : SE store exn execution :=
  i <- new_id ;;
  if negb (str_true agent && str_true to) then se_raise ValueError
  else
    let e := mkExecution i agent batch to from QUEUED vars [] None [] None None started None 0%Q in
    save_execution e ;;;
    drive ended e.

Definition progress_simulated_call (ended : Q) (i : string) : SE store exn (option execution) :=
  e <- get_execution i ;;
  match e with
  | None => se_ret None
  | Some e =>
      if bool_decide (status e = QUEUED) then e' <- drive ended e ;; se_ret (Some e')
      else se_ret (Some e)
  end.
End runner.

(** ** Engine history *)
Definition ROLE_MAP : dict string string := [("assistant", "agent"); ("user", "user")].
Definition normalize_role (v : option val) : option string :=
  match v with Some (VStr s) => dget (lower s) ROLE_MAP | _ => None end.

(** [((message or {}).get("content") or "").strip()]; a truthy content that is not
    a string has no [strip]. *)
Definition content_text (m : dict string val) : option string :=
  match dget "content" m with
  | Some (VStr s) => Some (strip s)
  | Some v => if truthy v then None else Some ""
  | None => Some ""
  end.

Fixpoint history_from (t : Q) (messages : list (dict string val)) : option (list TranscriptTurn) :=
  match messages with
  | [] => Some []
  | m :: rest =>
      match content_text m with
      | None => None
      | Some text =>
          match normalize_role (dget "role" m) with
          | Some r => if str_true text
                      then cons (mkTurn r text (py_round 2 t) None) <$> history_from (Qplus t (3 # 1)) rest
                      else history_from t rest
          | None => history_from t rest
          end
      end
  end.
(** [None]: an [AttributeError]. *)
Definition history_to_transcript (messages : list (dict string val)) : option (list TranscriptTurn) :=
  history_from (1 # 2) messages.

Definition merge_extracted_data (outputs : list (dict string val)) : dict string val :=
  foldl (fun acc o => match dget "extracted_data" o with Some (VDict d) => dupdate acc d | _ => acc end) [] outputs.

(** ** Lemmas *)
Definition terminal (s : ExecutionStatus) : bool :=
  match s with COMPLETED | FAILED | NO_ANSWER | BUSY => true | _ => false end.

(** The outcome a call's variables ask for. *)
Definition final_status (vars : dict string val) : ExecutionStatus :=
  match forced_outcome vars with Some (_, o) => o | None => COMPLETED end.
Definition final_transcript (vars : dict string val) : list TranscriptTurn :=
  match forced_outcome vars with Some _ => take 2 (build_transcript vars) | None => build_transcript vars end.

Lemma forced_outcome_terminal vars w o : forced_outcome vars = Some (w, o) -> terminal o = true /\ o <> COMPLETED.
Proof.
  unfold forced_outcome. destruct (dget "force_outcome" vars) as [[]|]; try done.
  destruct (dget s FORCED_OUTCOMES) as [o'|] eqn:E; [|done]. intros. simplify_eq.
  apply dget_Some_elem in E. unfold FORCED_OUTCOMES in E.
  repeat (apply elem_of_cons in E as [[= -> ->]|E]; [done|]). by apply not_elem_of_nil in E.
Qed.

Lemma final_status_terminal vars : terminal (final_status vars) = true.
Proof.
  unfold final_status. destruct (forced_outcome vars) as [[w o]|] eqn:E; [|done].
  by apply forced_outcome_terminal in E as [? _].
Qed.

Lemma finalize_fields now e :
  let f := finalize_execution now e in
  status f = final_status (exec_variables e) /\ transcript f = final_transcript (exec_variables e) /\
  exec_id f = exec_id e /\ exec_variables f = exec_variables e /\ ended_at f = Some now /\
  hangup_code f = Some (match forced_outcome (exec_variables e) with Some (w, _) => w | None => "completed" end).
Proof.
  unfold finalize_execution, final_status, final_transcript. cbv zeta.
  by destruct (forced_outcome (exec_variables e)) as [[w o]|].
Qed.

Lemma build_transcript_length vars : length (build_transcript vars) = 5.
Proof. reflexivity. Qed.

(** The rows written by [drive], oldest first. *)
Definition drive_writes (ended : Q) (e : execution) : list execution :=
  let e1 := with_status RINGING e in
  let e2 := with_transcript (take PARTIAL_TURNS (build_transcript (exec_variables e))) (with_status IN_PROGRESS e1) in
  [e1; e2; finalize_execution ended e2].

Lemma drive_eq ended e s :
  let f := finalize_execution ended
    (with_transcript (take PARTIAL_TURNS (build_transcript (exec_variables e))) (with_status IN_PROGRESS e)) in
  drive ended e s =
  (mkStore (dset (exec_id e) f (rows s)) (saves s ++ drive_writes ended e) (drawn s), Ok f).
Proof.
  cbv zeta. unfold drive, se_bind, save_execution, se_modify, se_ret, drive_writes. cbn [rows saves drawn fst snd].
  destruct (finalize_fields ended (with_transcript (take PARTIAL_TURNS (build_transcript (exec_variables e)))
    (with_status IN_PROGRESS (with_status RINGING e)))) as (_ & _ & Hid & _).
  rewrite Hid. cbn [exec_id with_transcript with_status exec_variables]. rewrite !dset_dset, <- !app_assoc. reflexivity.
Qed.

(** A simulated call with an agent and a number returns its final record after
    exactly four writes of one row, in the order queued, ringing, in progress and
    the final state, which is the forced outcome or completed and always
    terminal; the in-progress write shows the first three turns, a completed call
    the whole script and a forced one its first two turns; every other row is
    left as it was. *)
Theorem simulated_call_lifecycle fresh_id started ended agent to from vars batch s :
  agent <> "" -> to <> "" ->
  exists e s' ws, run_simulated_call fresh_id started ended agent to from vars batch s = (s', Ok e) /\
    saves s' = saves s ++ ws /\
    map status ws = [QUEUED; RINGING; IN_PROGRESS; final_status vars] /\
    terminal (final_status vars) = true /\ last ws = Some e /\
    Forall (fun w => exec_id w = exec_id e) ws /\
    map transcript ws = [[]; []; take 3 (build_transcript vars); final_transcript vars] /\
    dget (exec_id e) (rows s') = Some e /\
    (forall j, j <> exec_id e -> dget j (rows s') = dget j (rows s)) /\
    ended_at e = Some ended /\ duration_s e = py_round 2 (Qminus ended started).
Proof.
  intros Ha Ht. unfold run_simulated_call, new_id, se_bind, se_get, se_modify, se_ret. cbn [rows saves drawn].
  destruct (str_true agent) eqn:Ea; [|by apply str_true_false in Ea].
  destruct (str_true to) eqn:Et; [|by apply str_true_false in Et].
  cbn [negb andb]. unfold save_execution at 1, se_modify. cbn [rows saves drawn exec_id].
  rewrite drive_eq. cbn [rows saves drawn exec_id].
  set (e0 := mkExecution (fresh_id (drawn s)) agent batch to from QUEUED vars [] None [] None None started None 0%Q).
  set (e2 := with_transcript _ _).
  destruct (finalize_fields ended e2) as (F1 & F2 & F3 & F4 & F5 & F6).
  exists (finalize_execution ended e2). eexists. exists (e0 :: drive_writes ended e0). split; [reflexivity|].
  cbn [saves rows]. rewrite <- app_assoc, F3. split_and!; try done.
  - unfold drive_writes. cbn [map status]. change (with_status IN_PROGRESS (with_status RINGING e0)) with (with_status IN_PROGRESS e0).
    fold e2. by rewrite F1.
  - apply final_status_terminal.
  - unfold drive_writes. repeat constructor. by change (with_status IN_PROGRESS (with_status RINGING e0)) with (with_status IN_PROGRESS e0).
  - unfold drive_writes. cbn [map transcript]. change (with_status IN_PROGRESS (with_status RINGING e0)) with (with_status IN_PROGRESS e0).
    fold e2. by rewrite F2.
  - by rewrite dset_dset, dget_dset_eq.
  - intros j Hj. by rewrite dset_dset, dget_dset_ne.
  - unfold finalize_execution. by destruct (forced_outcome (exec_variables e2)) as [[? ?]|].
Qed.

Lemma simulated_call_lifecycle_witness :
  let vars := [("name", VStr " Asha "); ("force_outcome", VStr "busy")] in
  exists e s' ws, run_simulated_call (fun _ => "exec-1") 10%Q 13%Q "agent-1" "+9100" None vars None (mkStore [] [] 0) = (s', Ok e) /\
    map status ws = [QUEUED; RINGING; IN_PROGRESS; BUSY] /\ last ws = Some e.
Proof.
  cbv zeta.
  destruct (simulated_call_lifecycle (fun _ => "exec-1") 10%Q 13%Q "agent-1" "+9100" None
    [("name", VStr " Asha "); ("force_outcome", VStr "busy")] None (mkStore [] [] 0))
    as (e & s' & ws & H1 & _ & H3 & _ & H5 & _); [done|done|].
  exists e, s', ws. split; [exact H1|]. split; [exact H3|exact H5].
Defined.

(** Driving a queued execution to its end happens once: the background entry
    point leaves the store untouched for an unknown id and for any execution that
    is not queued, so running it again after a completed drive changes nothing
    and returns the same record. *)
Theorem progress_once ended ended' i s e :
  dget i (rows s) = Some e -> exec_id e = i ->
  exists s' e', progress_simulated_call ended i s = (s', Ok (Some e')) /\
    progress_simulated_call ended' i s' = (s', Ok (Some e')) /\
    (status e <> QUEUED -> s' = s /\ e' = e) /\
    (status e = QUEUED -> status e' = final_status (exec_variables e) /\ length (saves s') = length (saves s) + 3).
Proof.
  intros Hrow Hid. unfold progress_simulated_call at 1, se_bind, get_execution, se_get, se_ret.
  unfold se_bind. rewrite Hrow. case_bool_decide as Hq.
  - rewrite drive_eq. set (e2 := with_transcript _ _).
    destruct (finalize_fields ended e2) as (F1 & F2 & F3 & F4 & F5 & F6).
    eexists _, _. split; [reflexivity|]. split_and!.
    + unfold progress_simulated_call, se_bind, get_execution, se_get, se_ret. cbn [rows].
      rewrite Hid. unfold se_bind. cbn [rows]. rewrite dget_dset_eq, F1.
      rewrite bool_decide_eq_false_2; [done|]. intros H.
      pose proof (final_status_terminal (exec_variables e2)) as Ht. by rewrite H in Ht.
    + by intros [].
    + intros _. split; [by rewrite F1|]. cbn [saves]. rewrite length_app. reflexivity.
  - exists s, e. split; [done|]. split_and!; [|done|done].
    unfold progress_simulated_call, se_bind, get_execution, se_get, se_ret. unfold se_bind.
    rewrite Hrow. by rewrite bool_decide_eq_false_2.
Qed.

Lemma progress_once_witness :
  let e := mkExecution "x" "a" None "+1" None QUEUED [] [] None [] None None 0%Q None 0%Q in
  exists s' e', progress_simulated_call 3%Q "x" (mkStore [("x", e)] [e] 0) = (s', Ok (Some e')) /\
    progress_simulated_call 9%Q "x" s' = (s', Ok (Some e')).
Proof.
  cbv zeta.
  destruct (progress_once 3%Q 9%Q "x"
    (mkStore [("x", mkExecution "x" "a" None "+1" None QUEUED [] [] None [] None None 0%Q None 0%Q)]
             [mkExecution "x" "a" None "+1" None QUEUED [] [] None [] None None 0%Q None 0%Q] 0)
    (mkExecution "x" "a" None "+1" None QUEUED [] [] None [] None None 0%Q None 0%Q))
    as (s' & e' & H1 & H2 & _); [reflexivity|reflexivity|].
  exists s', e'. split; [exact H1|exact H2].
Defined.

(** The turns the engine history speaks: a mapped role and a non-blank text. *)
Definition spoken_turn (m : dict string val) : option (string * string) :=
  match normalize_role (dget "role" m), content_text m with
  | Some r, Some t => if str_true t then Some (r, t) else None
  | _, _ => None
  end.

Lemma history_from_spec t0 ms turns :
  history_from t0 ms = Some turns ->
  map (fun t => (role t, turn_text t)) turns = omap spoken_turn ms /\
  (forall i t, turns !! i = Some t -> latency_ms t = None /\
     exists q, ts t = py_round 2 q /\ Qeq q (Qplus t0 (inject_Z (3 * Z.of_nat i)))).
Proof.
  revert t0 turns. induction ms as [|m ms IH]; intros t0 turns; cbn [history_from].
  - intros [= <-]. split; [done|]. intros i t Hi. by rewrite lookup_nil in Hi.
  - cbn [omap list_omap]. unfold spoken_turn at 1. destruct (content_text m) as [text|]; [|done].
    destruct (normalize_role _) as [r|]; [|by apply IH].
    destruct (str_true text); [|by apply IH].
    destruct (history_from _ ms) as [turns'|] eqn:E; [|done]. intros. simplify_eq/=.
    destruct (IH _ _ E) as [H1 H2]. split; [by rewrite <- H1|].
    intros [|i] t Ht; simpl in Ht; simplify_eq; cbn [latency_ms ts].
    + split; [done|]. exists t0. split; [done|]. rewrite Z.mul_0_r. change (inject_Z 0) with 0%Q. ring.
    + destruct (H2 i t Ht) as (? & q & Hq & Heq). split; [done|]. exists q. split; [done|].
      rewrite Heq. replace (3 * Z.of_nat (S i))%Z with (3 + 3 * Z.of_nat i)%Z by lia.
      rewrite inject_Z_plus. change (inject_Z 3) with (3 # 1)%Q. ring.
Qed.

End Execution.
