(* ===== verification/Workflow.v ===== *)
(** * Workflows and campaigns (platform/workflows.py)

    The validator, the runner of one contact and the campaign driver. The world
    is the store: execution rows, saved runs, workflows and campaign rows. Sleeps
    and wall-clock stamps are left out; [str()] of a float, a list or a dict is the
    argument [str_other], as in the expression evaluator. *)
From S2P Require Import Prelude PyText PyVal Reach Expr Execution.
From Stdlib Require Import QArith.QArith.
Close Scope Q_scope.
Open Scope nat_scope.
Open Scope voice_scope.

Module Workflow.
Import Execution.

Inductive WorkflowNodeType : Type :=
| TStart | TAgent | TExtraction | TApi | TWait | TRetry | TWhatsapp | TEnd.
#[global] Instance node_type_dec : EqDecision WorkflowNodeType.
Proof. solve_decision. Defined.

Record WorkflowNode := mkNode { id : string; type : WorkflowNodeType; config : dict string val }.
Record WorkflowEdge := mkEdge { from_node : string; to_node : string; label : string }.
Record WorkflowDefinition := mkDefinition { nodes : list WorkflowNode; edges : list WorkflowEdge }.
Record ValidationResult := mkResult { valid : bool; errors : list string; warnings : list string }.

Inductive error : Type := KeyError | Raised (e : exn).

(** [config.get(k)] and its truth. *)
Definition cget (k : string) (c : dict string val) : val := default VNone (dget k c).
Definition ctrue (k : string) (c : dict string val) : bool := truthy (cget k c).
Definition has_type (t : WorkflowNodeType) (n : WorkflowNode) : bool := bool_decide (type n = t).

(** ** The validator *)
Definition table (d : WorkflowDefinition) : dict string WorkflowNode := by_id id (nodes d).
Definition ids (d : WorkflowDefinition) : list string := map id (nodes d).

Definition edge_errors (t : dict string WorkflowNode) (e : WorkflowEdge) : list string :=
  (if dhas (from_node e) t then [] else ["edge starts at unknown node '" +:+ from_node e +:+ "'"])
  ++ (if dhas (to_node e) t then [] else ["edge leads to unknown node '" +:+ to_node e +:+ "'"])
  ++ (if str_true (label e) && negb (bool_decide (label e ∈ ["on_success"; "on_failure"]))
      then ["edge '" +:+ from_node e +:+ "->" +:+ to_node e +:+ "' has unknown label '" +:+ label e +:+ "'"] else []).

(** The per-type configuration check; comparing [seconds] with 0 may raise. *)
Definition node_errors (n : WorkflowNode) : result error (list string) :=
  let c := config n in
  let report (b : bool) (s : string) := Ok (if b then [s] else []) in
  match type n with
  | TAgent => report (negb (ctrue "agent_id" c)) ("agent node '" +:+ id n +:+ "' needs config.agent_id")
  | TApi => report (negb (ctrue "url" c)) ("api node '" +:+ id n +:+ "' needs config.url")
  | TRetry => report (negb (ctrue "target_node_id" c) || negb (ctrue "max_attempts" c))
                ("retry node '" +:+ id n +:+ "' needs config.target_node_id and config.max_attempts")
  | TWhatsapp => report (negb (ctrue "to" c) || negb (ctrue "template" c))
                   ("whatsapp node '" +:+ id n +:+ "' needs config.to and config.template")
  | TExtraction => report (negb (ctrue "fields" c)) ("extraction node '" +:+ id n +:+ "' needs config.fields")
  | TWait => match val_cmp OpLt (default (VInt 0) (dget "seconds" c)) (VInt 0) with
             | Some b => report b ("wait node '" +:+ id n +:+ "' needs non-negative config.seconds")
             | None => Err (Raised TypeError)
             end
  | TStart | TEnd => Ok []
  end.

Fixpoint all_node_errors (ns : list WorkflowNode) : result error (list string) :=
  match ns with
  | [] => Ok []
  | n :: ns' =>
      match node_errors n with
      | Err e => Err e
      | Ok es => match all_node_errors ns' with Ok es' => Ok (es ++ es') | Err e => Err e end
      end
  end.

(** [order.index(i)] *)
Fixpoint index_of (i : string) (order : list string) : option nat :=
  match order with
  | [] => None
  | j :: order' => if decide (i = j) then Some 0 else S <$> index_of i order'
  end.

(** The node after [i] in the definition's order. *)
Definition following (order : list string) (i : string) : option string :=
  match index_of i order with Some n => order !! (S n) | None => None end.

(** What the reachability loop pushes for [current]: the edge targets, then the next node in order. *)
Definition successors (d : WorkflowDefinition) (current : string) : list string :=
  map to_node (filter (fun e => from_node e = current) (edges d))
  ++ match following (ids d) current with Some i => [i] | None => [] end.

Definition starts (d : WorkflowDefinition) : list WorkflowNode := filter (fun n => type n = TStart) (nodes d).
Definition reachable (d : WorkflowDefinition) (start : string) : gset string :=
  reachable_from (fun k => dhas k (table d)) (successors d) (ids d) start.

Definition validate_workflow (d : WorkflowDefinition) : result error ValidationResult :=
  match nodes d with
  | [] => Ok (mkResult false ["workflow has no nodes"] [])
  | _ =>
      match all_node_errors (nodes d) with
      | Err e => Err e
      | Ok config_errors =>
          let errs :=
            (if bool_decide (NoDup (ids d)) then [] else ["duplicate node ids"])
            ++ match starts d with
               | [] => ["workflow needs exactly one start node"]
               | [_] => []
               | _ => ["workflow must have exactly one start node"]
               end
            ++ concat (map (edge_errors (table d)) (edges d)) ++ config_errors in
          let warns :=
            (if existsb (has_type TEnd) (nodes d) then []
             else ["workflow has no end node; runs stop at the last step"])
            ++ match starts d with
               | [] => []
               | s :: _ => map (fun i => "node '" +:+ i +:+ "' is unreachable")
                             (filter (fun i => i ∉ reachable d (id s)) (ids d))
               end in
          Ok (mkResult (match errs with [] => true | _ => false end) errs warns)
      end
  end.

(** ** The runner *)
Definition MAX_WALK_STEPS : nat := 50.
Definition MAX_WAIT_S : Z := 30.

Inductive run_status : Type := Running | Completed | Failed.
#[global] Instance run_status_dec : EqDecision run_status.
Proof. solve_decision. Defined.

Inductive detail : Type :=
| NoDetail
| CallDetail (execution_id : string) (call_status : string)
| ValuesDetail (values : list (val * val))
| ApiDetail (method url : val)
| WaitDetail (waited_s : val)
| RetryDetail (attempt : Z) (target : option string) (* the target, when the decision is to retry *)
| WhatsappDetail (to template : val).

Record NodeReport := mkReport { node_id : string; r_type : WorkflowNodeType; ok : bool; r_detail : detail }.
Record WorkflowRun := mkRun {
  run_id : string; workflow_id : string; campaign_of : option string;
  run_state : run_status; reports : list NodeReport }.

(** The loop's locals. *)
Record walk_state := mkWalk {
  w_reports : list NodeReport; w_variables : dict string val; attempts : dict string Z;
  last_ok : option bool; failed : bool; retried : bool; steps : nat }.

Record CampaignStats := mkStats { total : Z; queued : Z; completed : Z; failed_runs : Z }.
Inductive campaign_status : Type := DRAFT | SCHEDULED | RUNNING | CAMPAIGN_COMPLETED | STOPPED.
#[global] Instance campaign_status_dec : EqDecision campaign_status.
Proof. solve_decision. Defined.
Record entry := mkEntry { entry_number : string; entry_variables : dict string val }.
Record campaign := mkCampaign {
  campaign_id : string; campaign_workflow : string; campaign_state : campaign_status;
  entries : list entry; stats : CampaignStats }.

Record world := mkWorld {
  calls : store; runs : dict string WorkflowRun; runs_drawn : nat;
  workflows : dict string WorkflowDefinition; campaigns : dict string campaign }.
Definition set_calls (s : store) (w : world) : world :=
  mkWorld s (runs w) (runs_drawn w) (workflows w) (campaigns w).
Definition set_runs (r : dict string WorkflowRun) (k : nat) (w : world) : world :=
  mkWorld (calls w) r k (workflows w) (campaigns w).
Definition set_campaigns (c : dict string campaign) (w : world) : world :=
  mkWorld (calls w) (runs w) (runs_drawn w) (workflows w) c.

(** [next((e for e in outs if p(e)), None)] *)
Definition first_edge (p : WorkflowEdge -> bool) (outs : list WorkflowEdge) : option WorkflowEdge :=
  List.find p outs.

Definition next_node (d : WorkflowDefinition) (current : string) (ok : option bool) : option WorkflowNode :=
  let by_id := table d in
  let outs := filter (fun e => from_node e = current) (edges d) in
  match outs with
  | e0 :: _ =>
      let labelled (l : string) := first_edge (fun e => bool_decide (label e = l)) outs in
      let plain := default e0 (first_edge (fun e => negb (str_true (label e))) outs) in
      let chosen :=
        match ok with
        | Some false => default plain (labelled "on_failure")
        | Some true => default plain (labelled "on_success")
        | None => plain
        end in
      dget (to_node chosen) by_id
  | [] => match following (ids d) current with Some i => dget i by_id | None => None end
  end.

(** [{field: variables.get(field) for field in fields}]: keys compare by [==],
    an unhashable one raises. *)
Fixpoint vset (k v : val) (d : list (val * val)) : list (val * val) :=
  match d with
  | [] => [(k, v)]
  | (k', v') :: d' => if val_eqb k k' then (k', v) :: d' else (k', v') :: vset k v d'
  end.
Definition hashable (v : val) : bool := match v with VList _ | VDict _ => false | _ => true end.
Definition variable_of (vars : dict string val) (field : val) : val :=
  match field with VStr s => cget s vars | _ => VNone end.
Fixpoint field_values (vars : dict string val) (fields : list val) (acc : list (val * val)) : result error (list (val * val)) :=
  match fields with
  | [] => Ok acc
  | f :: fields' =>
      if hashable f then field_values vars fields' (vset f (variable_of vars f) acc)
      else Err (Raised TypeError)
  end.

(** [list(v or [])] *)
Definition list_of (v : val) : result error (list val) :=
  if negb (truthy v) then Ok []
  else match v with
       | VList l => Ok l
       | VStr s => Ok (map (fun c => VStr (of_chars [c])) (chars s))
       | VDict d => Ok (map (fun kv => VStr kv.1) d)
       | _ => Err (Raised TypeError)
       end.

(** [variables.update({k: v for k, v in values.items() if v is not None})] *)
Definition keep_values (vars : dict string val) (values : list (val * val)) : dict string val :=
  foldl (fun acc kv => match kv with (VStr s, VNone) => acc | (VStr s, v) => dset s v acc | _ => acc end) vars values.

(** [int(v)] *)
Definition int_of (v : val) : result error Z :=
  match v with
  | VInt z => Ok z
  | VBool b => Ok (if b then 1 else 0)%Z
  | VFloat (Fin q) => Ok (py_trunc q)
  | VFloat (Inf _) => Err (Raised OverflowError)
  | VFloat NaN => Err (Raised ValueError)
  | VStr s =>
      match int_text s with Some z => Ok z | None => Err (Raised ValueError) end
  | _ => Err (Raised TypeError)
  end.

Definition lift {A} (c : SE store exn A) : SE world error A := fun w =>
  match c (calls w) with
  | (s, Ok a) => (set_calls s w, Ok a)
  | (s, Err e) => (set_calls s w, Err (Raised e))
  end.
Definition of_result {S A} (r : result error A) : SE S error A :=
  match r with Ok a => se_ret a | Err e => se_raise e end.

Definition report (n : WorkflowNode) (b : bool) (x : detail) (st : walk_state) : walk_state :=
  mkWalk (w_reports st ++ [mkReport (id n) (type n) b x]) (w_variables st) (attempts st)
         (last_ok st) (failed st) (retried st) (steps st).

Section runner.
Context (str_other : val -> string) (fresh_id : nat -> string) (fresh_run : nat -> string).
Context (clock : string -> Q * Q).

(** [run_simulated_call] with the clock readings of its execution. *)
Definition place_call (agent to : string) (vars : dict string val) : SE world error execution :=
  lift (s <- se_get ;;
        let '(started, ended) := clock (fresh_id (drawn s)) in
        run_simulated_call fresh_id started ended agent to None vars None).

Definition agent_step (to_number : string) (n : WorkflowNode) (st : walk_state) : SE world error walk_state :=
  let c := config n in
  extra <- of_result (if negb (ctrue "variables" c) then Ok []
                      else match cget "variables" c with VDict x => Ok x | _ => Err (Raised TypeError) end) ;;
  let merged := dupdate (w_variables st) extra in
  match dget "agent_id" c with
  | None => se_raise KeyError
  | Some a =>
      e <- place_call (py_str str_other a) to_number merged ;;
      let good := bool_decide (status e = COMPLETED) in
      se_ret (report n good (CallDetail (exec_id e) (status_value (status e)))
               (mkWalk (w_reports st) (w_variables st) (attempts st) (Some good)
                       (if good then failed st else true) (retried st) (steps st)))
  end.

Definition extraction_step (n : WorkflowNode) (st : walk_state) : result error walk_state :=
  match list_of (cget "fields" (config n)) with
  | Err e => Err e
  | Ok fields =>
      match field_values (w_variables st) fields [] with
      | Err e => Err e
      | Ok values =>
          Ok (report n true (ValuesDetail values)
                (mkWalk (w_reports st) (keep_values (w_variables st) values) (attempts st)
                        (last_ok st) (failed st) (retried st) (steps st)))
      end
  end.

Definition wait_step (n : WorkflowNode) (st : walk_state) : result error walk_state :=
  match to_float (default (VInt 0) (dget "seconds" (config n))) with
  | Err e => Err (Raised e)
  | Ok f => Ok (report n true (WaitDetail (if num_ltb (Fin (inject_Z MAX_WAIT_S)) f then VInt MAX_WAIT_S else VFloat f)) st)
  end.

(** The retry node: the target to jump to, when it retries. *)
Definition retry_step (d : WorkflowDefinition) (n : WorkflowNode) (st : walk_state)
    : result error (option WorkflowNode * walk_state) :=
  let c := config n in
  let used := (default 0 (dget (id n) (attempts st)) + 1)%Z in
  let st1 := mkWalk (w_reports st) (w_variables st) (dset (id n) used (attempts st))
                    (last_ok st) (failed st) (retried st) (steps st) in
  let target := py_str str_other (cget "target_node_id" c) in
  let continue := Ok (None, report n true (RetryDetail used None) st1) in
  if bool_decide (last_ok st = Some false) then
    match int_of (default (VInt 1) (dget "max_attempts" c)) with
    | Err e => Err e
    | Ok m =>
        match dget target (table d) with
        | Some t =>
            if (used <=? m)%Z
            then Ok (Some t, report n true (RetryDetail used (Some target))
                   (mkWalk (w_reports st1) (w_variables st1) (attempts st1) (last_ok st1) false true (steps st1)))
            else continue
        | None => continue
        end
    end
  else continue.

(** One iteration of the loop: where it goes next, and the locals after it. *)
Definition step (d : WorkflowDefinition) (to_number : string) (n : WorkflowNode) (st0 : walk_state)
    : SE world error (option WorkflowNode * walk_state) :=
  let st := mkWalk (w_reports st0) (w_variables st0) (attempts st0) (last_ok st0) (failed st0) (retried st0) (S (steps st0)) in
  let c := config n in
  let go (st' : walk_state) := (next_node d (id n) (last_ok st'), st') in
  match type n with
  | TStart => se_ret (go (report n true NoDetail st))
  | TAgent => st' <- agent_step to_number n st ;; se_ret (go st')
  | TExtraction => st' <- of_result (extraction_step n st) ;; se_ret (go st')
  | TApi => se_ret (go (report n true (ApiDetail (default (VStr "POST") (dget "method" c)) (cget "url" c)) st))
  | TWait => st' <- of_result (wait_step n st) ;; se_ret (go st')
  | TRetry => r <- of_result (retry_step d n st) ;;
              se_ret (match r with (Some t, st') => (Some t, st') | (None, st') => go st' end)
  | TWhatsapp => se_ret (go (report n true (WhatsappDetail (default (VStr to_number) (dget "to" c)) (cget "template" c)) st))
  | TEnd => se_ret (None, report n true NoDetail st)
  end.

(** [while current is not None and steps < MAX_WALK_STEPS]; the fuel is the
    number of iterations the bound leaves. *)
Fixpoint walk (d : WorkflowDefinition) (to_number : string) (fuel : nat)
    (current : option WorkflowNode) (st : walk_state) : SE world error (option WorkflowNode * walk_state) :=
  match fuel, current with
  | S fuel', Some n => r <- step d to_number n st ;; walk d to_number fuel' r.1 r.2
  | _, _ => se_ret (current, st)
  end.

Definition initial_walk (vars : dict string val) : walk_state := mkWalk [] vars [] None false false 0.

(** [contact]: its [to_number] and [variables] (an empty number takes the default). *)
Definition run_workflow (workflow : string) (d : WorkflowDefinition) (to : string) (vars : dict string val)
    (camp : option string) : SE world error WorkflowRun := fun w =>
  let i := fresh_run (runs_drawn w) in
  let w0 := set_runs (runs w) (S (runs_drawn w)) w in
  let to_number := if str_true to then to else "+910000000000" in
  match walk d to_number MAX_WALK_STEPS (head (starts d)) (initial_walk vars) w0 with
  | (w1, Err e) => (w1, Err e)
  | (w1, Ok (current, st)) =>
      let looped := (MAX_WALK_STEPS <=? steps st) && bool_decide (is_Some current) in
      let run := mkRun i workflow camp
        (if looped || (failed st && negb (retried st)) then Failed else Completed) (w_reports st) in
      (set_runs (dset i run (runs w1)) (runs_drawn w1) w1, Ok run)
  end.

(** ** Campaigns *)
Definition set_state (s : campaign_status) (c : campaign) : campaign :=
  mkCampaign (campaign_id c) (campaign_workflow c) s (entries c) (stats c).
Definition set_stats (x : CampaignStats) (c : campaign) : campaign :=
  mkCampaign (campaign_id c) (campaign_workflow c) (campaign_state c) (entries c) x.

Definition save_campaign (c : campaign) : SE world error unit :=
  se_modify (fun w => set_campaigns (dset (campaign_id c) c (campaigns w)) w).
Definition get_campaign (i : string) : SE world error (option campaign) :=
  w <- se_get ;; se_ret (dget i (campaigns w)).
Definition get_workflow (i : string) : SE world error (option WorkflowDefinition) :=
  w <- se_get ;; se_ret (dget i (workflows w)).

(** The stop endpoint: reads its own copy of the row and writes it back. *)
Definition stop_campaign (i : string) : SE world error (option campaign) :=
  c <- get_campaign i ;;
  match c with
  | None => se_ret None
  | Some c =>
      if bool_decide (campaign_state c = STOPPED) || bool_decide (campaign_state c = CAMPAIGN_COMPLETED)
      then se_ret (Some c)
      else save_campaign (set_state STOPPED c) ;;; se_ret (Some (set_state STOPPED c))
  end.

(** What other tasks do to the store while the driver awaits: [others (2 * k)]
    before the [k]-th entry's status read, [others (2 * k + 1)] during its run. *)
Context (others : nat -> world -> world).
Definition await (k : nat) : SE world error unit := se_modify (others k).

Definition count_run (r : WorkflowRun) (c : campaign) : campaign :=
  let s := stats c in
  set_stats (if bool_decide (run_state r = Completed)
             then mkStats (total s) (queued s - 1) (completed s + 1) (failed_runs s)
             else mkStats (total s) (queued s - 1) (completed s) (failed_runs s + 1)) c.

(** The loop over the entries: the local [campaign] after it. *)
Fixpoint drive_entries (d : WorkflowDefinition) (i : string) (k : nat) (es : list entry) (c : campaign) : SE world error campaign :=
  match es with
  | [] => se_ret c
  | e :: es' =>
      await (2 * k) ;;;
      current <- get_campaign i ;;
      match current with
      | Some x =>
          if bool_decide (campaign_state x = RUNNING) then
            run <- run_workflow (campaign_workflow c) d (entry_number e) (entry_variables e) (Some i) ;;
            await (2 * k + 1) ;;;
            let c' := count_run run c in
            save_campaign c' ;;;
            drive_entries d i (S k) es' c'
          else se_ret x
      | None => se_ret c
      end
  end.

Definition runnable (s : campaign_status) : bool :=
  match s with DRAFT | SCHEDULED | RUNNING => true | _ => false end.

Definition run_campaign (i : string) : SE world error (option campaign) :=
  c <- get_campaign i ;;
  match c with
  | None => se_ret None
  | Some c =>
      if negb (runnable (campaign_state c)) then se_ret (Some c)
      else
        d <- get_workflow (campaign_workflow c) ;;
        match d with
        | None => se_ret (Some c)
        | Some d =>
            let n := Z.of_nat (length (entries c)) in
            let c1 := set_stats (mkStats n n (completed (stats c)) (failed_runs (stats c))) (set_state RUNNING c) in
            save_campaign c1 ;;;
            c2 <- drive_entries d i 0 (entries c) c1 ;;
            let c3 := if bool_decide (campaign_state c2 = RUNNING) then set_state CAMPAIGN_COMPLETED c2 else c2 in
            save_campaign c3 ;;;
            se_ret (Some c3)
        end
  end.
End runner.

(** ** The walk read off its reports *)

(** The outcome of the last agent step. *)
Definition last_ok_of (rs : list NodeReport) : option bool :=
  match last (filter (fun r => r_type r = TAgent) rs) with Some r => Some (ok r) | None => None end.
Definition retry_target (r : NodeReport) : option string :=
  match r_detail r with RetryDetail _ t => t | _ => None end.
Definition is_retry (r : NodeReport) : bool := bool_decide (is_Some (retry_target r)).
Definition is_failed_call (r : NodeReport) : bool := bool_decide (r_type r = TAgent) && negb (ok r).

(** The node a run goes to after the reports [rs]: nothing else of the run is needed. *)
Definition successor (d : WorkflowDefinition) (rs : list NodeReport) : option WorkflowNode :=
  match last rs with
  | None => head (starts d)
  | Some r =>
      match retry_target r with
      | Some t => dget t (table d)
      | None => if bool_decide (r_type r = TEnd) then None else next_node d (node_id r) (last_ok_of rs)
      end
  end.

(** Each report is of the node the reports before it lead to. *)
Definition follows_graph (d : WorkflowDefinition) (rs : list NodeReport) : Prop :=
  forall k r, rs !! k = Some r ->
    exists n, successor d (take k rs) = Some n /\ node_id r = id n /\ r_type r = type n.

(** One iteration: the report it adds and its effect on the locals. *)
Record step_effect (d : WorkflowDefinition) (n : WorkflowNode) (st : walk_state)
    (r : NodeReport) (cur : option WorkflowNode) (st' : walk_state) : Prop := mkEffect {
  eff_reports : w_reports st' = w_reports st ++ [r];
  eff_steps : steps st' = S (steps st);
  eff_id : node_id r = id n;
  eff_type : r_type r = type n;
  eff_ok : last_ok st' = if bool_decide (type n = TAgent) then Some (ok r) else last_ok st;
  eff_cur : cur = match retry_target r with
                  | Some t => dget t (table d)
                  | None => if bool_decide (type n = TEnd) then None else next_node d (id n) (last_ok st')
                  end;
  eff_retry : forall t, retry_target r = Some t ->
    type n = TRetry /\ last_ok st = Some false /\ dhas t (table d) = true /\
    exists m, int_of (default (VInt 1) (dget "max_attempts" (config n))) = Ok m /\
      (default 0 (dget (id n) (attempts st)) + 1 <= m)%Z;
  eff_retried : retried st' = retried st || is_retry r;
  eff_failed : failed st' = if is_retry r then false else failed st || is_failed_call r;
  eff_attempts : attempts st' =
    if bool_decide (type n = TRetry) then dset (id n) (default 0 (dget (id n) (attempts st)) + 1)%Z (attempts st)
    else attempts st }.

Lemma plain_effect d n st x vars :
  type n <> TAgent -> type n <> TRetry -> (forall a t, x <> RetryDetail a t) ->
  let st' := report n true x (mkWalk (w_reports st) vars (attempts st) (last_ok st) (failed st) (retried st) (S (steps st))) in
  step_effect d n st (mkReport (id n) (type n) true x)
    (if bool_decide (type n = TEnd) then None else next_node d (id n) (last_ok st')) st'.
Proof.
  intros Ha Hr Hx. cbv zeta.
  assert (retry_target (mkReport (id n) (type n) true x) = None) as Ht.
  { unfold retry_target. cbn. destruct x; try done. by destruct (Hx attempt target). }
  split; unfold is_retry, is_failed_call; rewrite ?Ht; cbn; try done.
  - by rewrite bool_decide_eq_false_2.
  - by rewrite orb_false_r.
  - by rewrite andb_false_r, orb_false_r.
  - by rewrite bool_decide_eq_false_2.
Qed.

Section runner_facts.
Context (str_other : val -> string) (fresh_id fresh_run : nat -> string) (clock : string -> Q * Q).
Notation step := (step str_other fresh_id clock).
Notation walk := (walk str_other fresh_id clock).
Notation run_workflow := (run_workflow str_other fresh_id fresh_run clock).

Lemma of_result_Ok {S A} (r : result error A) (s s' : S) a :
  of_result r s = (s', Ok a) -> s' = s /\ r = Ok a.
Proof. destruct r; cbn; [by intros [= -> ->]|done]. Qed.

Lemma agent_step_effect to n st w w' st' :
  type n = TAgent -> agent_step str_other fresh_id clock to n st w = (w', Ok st') ->
  exists good x, st' = report n good x (mkWalk (w_reports st) (w_variables st) (attempts st) (Some good)
                                (if good then failed st else true) (retried st) (steps st)) /\
    forall a t, x <> RetryDetail a t.
Proof.
  intros Ht. unfold agent_step. intros (w1 & extra & _ & H)%se_bind_Ok.
  destruct (dget "agent_id" (config n)); [|done].
  apply se_bind_Ok in H as (w2 & e & _ & H). unfold se_ret in H. simplify_eq. by eexists _, _.
Qed.

Lemma extraction_step_effect n st st' :
  extraction_step n st = Ok st' ->
  exists v vars, st' = report n true (ValuesDetail v) (mkWalk (w_reports st) vars (attempts st) (last_ok st) (failed st) (retried st) (steps st)).
Proof. unfold extraction_step. intros. crush. by eexists _, _. Qed.

Lemma wait_step_effect n st st' : wait_step n st = Ok st' -> exists v, st' = report n true (WaitDetail v) st.
Proof. unfold wait_step. intros. destruct (to_float _); simplify_eq. by eexists. Qed.

Lemma retry_step_effect d n st0 t st' :
  type n = TRetry ->
  let st := mkWalk (w_reports st0) (w_variables st0) (attempts st0) (last_ok st0) (failed st0) (retried st0) (S (steps st0)) in
  retry_step str_other d n st = Ok (t, st') ->
  exists r, step_effect d n st0 r (match t with Some n' => Some n' | None => next_node d (id n) (last_ok st') end) st'.
Proof.
  intros Ht. cbv zeta. unfold retry_step. cbn [attempts last_ok w_reports w_variables failed retried steps].
  set (used := (default 0 (dget (id n) (attempts st0)) + 1)%Z).
  assert (forall st1, st1 = mkWalk (w_reports st0) (w_variables st0) (dset (id n) used (attempts st0))
            (last_ok st0) (failed st0) (retried st0) (S (steps st0)) ->
          step_effect d n st0 (mkReport (id n) (type n) true (RetryDetail used None))
            (next_node d (id n) (last_ok st0)) (report n true (RetryDetail used None) st1)) as Hc.
  { intros st1 ->. split; unfold is_retry, is_failed_call; cbn; rewrite ?Ht; try done;
      by rewrite ?orb_false_r. }
  case_bool_decide as Hl; [|intros [= <- <-]; eexists; by apply Hc].
  destruct (int_of _) as [m|] eqn:Em; [|done].
  destruct (dget _ (table d)) as [n'|] eqn:En; [|intros [= <- <-]; eexists; by apply Hc].
  destruct (Z.leb_spec used m); [|intros [= <- <-]; eexists; by apply Hc].
  intros [= <- <-].
  exists (mkReport (id n) (type n) true (RetryDetail used (Some (py_str str_other (cget "target_node_id" (config n)))))).
  split; unfold is_retry, is_failed_call; cbn; rewrite ?Ht; try done.
  - intros t [= <-]. split_and!; [done|done|unfold dhas; by rewrite En|]. by exists m.
  - by rewrite orb_true_r.
Qed.

Lemma step_ok d to n st w w' cur st' :
  step d to n st w = (w', Ok (cur, st')) -> exists r, step_effect d n st r cur st'.
Proof.
  unfold step. cbv zeta.
  destruct (type n) eqn:Ht; unfold se_ret at 1.
  - intros [= <- <- <-]. eexists. pose proof (plain_effect d n st NoDetail (w_variables st)) as P.
    rewrite Ht in P. apply P; done.
  - intros (w1 & st1 & H1 & H2)%se_bind_Ok. unfold se_ret in H2. injection H2 as <- <- <-.
    apply agent_step_effect in H1 as (good & x & -> & Hx); [|done].
    assert (retry_target (mkReport (id n) (type n) good x) = None) as Hr.
    { unfold retry_target. cbn. destruct x; try done. by destruct (Hx attempt target). }
    exists (mkReport (id n) (type n) good x).
    split; unfold is_retry, is_failed_call; rewrite ?Hr; cbn; rewrite ?Ht; cbn; try done.
    + by rewrite orb_false_r.
    + destruct good; cbn; by rewrite ?orb_false_r, ?orb_true_r.
  - intros (w1 & st1 & H1 & H2)%se_bind_Ok. unfold se_ret in H2. injection H2 as <- <- <-.
    apply of_result_Ok in H1 as [-> (v & vars & ->)%extraction_step_effect]. eexists.
    pose proof (plain_effect d n st (ValuesDetail v) vars) as P. rewrite Ht in P. apply P; done.
  - intros [= <- <- <-]. eexists.
    pose proof (plain_effect d n st (ApiDetail (default (VStr "POST") (dget "method" (config n))) (cget "url" (config n))) (w_variables st)) as P.
    rewrite Ht in P. apply P; done.
  - intros (w1 & st1 & H1 & H2)%se_bind_Ok. unfold se_ret in H2. injection H2 as <- <- <-.
    apply of_result_Ok in H1 as [-> (v & ->)%wait_step_effect]. eexists.
    pose proof (plain_effect d n st (WaitDetail v) (w_variables st)) as P. rewrite Ht in P. apply P; done.
  - intros (w1 & [t st1] & H1 & H2)%se_bind_Ok. apply of_result_Ok in H1 as [-> H1].
    apply retry_step_effect in H1 as [r Hr]; [|done]. exists r. unfold se_ret in H2.
    destruct t; by simplify_eq.
  - intros [= <- <- <-]. eexists.
    pose proof (plain_effect d n st (WhatsappDetail (default (VStr to) (dget "to" (config n))) (cget "template" (config n))) (w_variables st)) as P.
    rewrite Ht in P. apply P; done.
  - intros [= <- <- <-]. eexists. pose proof (plain_effect d n st NoDetail (w_variables st)) as P.
    rewrite Ht in P. apply P; done.
Qed.

(** How often node [i] decided to retry. *)
Definition retries (i : string) (rs : list NodeReport) : nat :=
  length (filter (fun r => is_retry r = true /\ node_id r = i) rs).

Record walk_inv (d : WorkflowDefinition) (cur : option WorkflowNode) (st : walk_state) : Prop := mkInv {
  inv_steps : steps st = length (w_reports st);
  inv_ok : last_ok st = last_ok_of (w_reports st);
  inv_cur : cur = successor d (w_reports st);
  inv_retried : retried st = existsb is_retry (w_reports st);
  inv_failed : existsb is_retry (w_reports st) = false -> failed st = existsb is_failed_call (w_reports st);
  inv_path : follows_graph d (w_reports st);
  inv_attempts : forall i, (Z.of_nat (retries i (w_reports st)) <= default 0 (dget i (attempts st)))%Z;
  inv_bound : forall i n m, dget i (table d) = Some n ->
    int_of (default (VInt 1) (dget "max_attempts" (config n))) = Ok m ->
    (Z.of_nat (retries i (w_reports st)) <= Z.max 0 m)%Z }.

Lemma last_ok_of_snoc rs r :
  last_ok_of (rs ++ [r]) = if bool_decide (r_type r = TAgent) then Some (ok r) else last_ok_of rs.
Proof.
  unfold last_ok_of. rewrite filter_app, filter_cons, filter_nil.
  case_bool_decide as E; [rewrite decide_True by done|rewrite decide_False by done].
  - by rewrite last_snoc.
  - by rewrite app_nil_r.
Qed.

Lemma existsb_snoc {A} (p : A -> bool) l x : existsb p (l ++ [x]) = existsb p l || p x.
Proof. rewrite existsb_app. cbn. by rewrite orb_false_r. Qed.

Lemma retries_snoc i rs r :
  retries i (rs ++ [r]) = retries i rs + (if bool_decide (is_retry r = true /\ node_id r = i) then 1 else 0).
Proof.
  unfold retries. rewrite filter_app, filter_cons, filter_nil, length_app. f_equal.
  case_bool_decide as E; [by rewrite decide_True|by rewrite decide_False].
Qed.

Lemma follows_graph_snoc d rs r n :
  follows_graph d rs -> successor d rs = Some n -> node_id r = id n -> r_type r = type n ->
  follows_graph d (rs ++ [r]).
Proof.
  intros H Hs Hi Ht k r' Hk. destruct (decide (k < length rs)).
  - rewrite lookup_app_l in Hk by done. rewrite take_app_le by lia. by apply H.
  - apply lookup_lt_Some in Hk as Hlt. rewrite length_app in Hlt. simpl in Hlt.
    rewrite lookup_app_r in Hk by lia. replace (k - length rs) with 0 in Hk by lia. simplify_eq/=.
    rewrite take_app_length'; [|lia]. by exists n.
Qed.

(** Where a walk stands: at the first start node or at a node of the table. *)
Lemma successor_known d rs n :
  successor d rs = Some n -> head (starts d) = Some n /\ rs = [] \/ dget (id n) (table d) = Some n.
Proof.
  unfold successor. destruct (last rs) as [r|] eqn:L.
  - intros H. right.
    assert (exists k, dget k (table d) = Some n) as [k Hk].
    { destruct (retry_target r); [by eexists|]. case_bool_decide; [done|]. unfold next_node in H.
      destruct (filter _ _); [|by eexists]. destruct (following _ _); [by eexists|done]. }
    pose proof Hk as [_ <-]%by_id_Some. done.
  - intros H. left. by apply last_None in L.
Qed.

Lemma starts_type d n : head (starts d) = Some n -> type n = TStart /\ n ∈ nodes d.
Proof.
  intros H. assert (n ∈ starts d) as Hin by (destruct (starts d); simplify_eq/=; set_solver).
  by apply list_elem_of_filter in Hin.
Qed.

Lemma walk_inv_step d n st r cur st' :
  walk_inv d (Some n) st -> step_effect d n st r cur st' -> walk_inv d cur st'.
Proof.
  intros [I1 I2 I3 I4 I5 I6 I7 I8] [E1 E2 E3 E4 E5 E6 E7 E8 E9 E10].
  assert (is_retry r = true -> type n = TRetry /\ dget (id n) (table d) = Some n) as Hretry.
  { intros Hr. unfold is_retry in Hr. apply bool_decide_eq_true in Hr as [t Ht].
    destruct (E7 t Ht) as [Hty _]. split; [done|]. symmetry in I3.
    destruct (successor_known _ _ _ I3) as [[Hs _]|?]; [|done].
    apply starts_type in Hs as [Hs _]. congruence. }
  split; rewrite E1.
  - rewrite E2, I1, length_app. simpl. lia.
  - rewrite E5, last_ok_of_snoc, E4, I2. done.
  - rewrite E6. unfold successor. rewrite last_snoc, E4, E3.
    destruct (retry_target r); [done|]. rewrite last_ok_of_snoc, E4, <- I2, <- E5. done.
  - by rewrite E8, existsb_snoc, I4.
  - rewrite !existsb_snoc. intros [Hrs Hr]%orb_false_iff. by rewrite E9, Hr, I5.
  - by apply (follows_graph_snoc _ _ _ n).
  - intros i. rewrite retries_snoc, E10. specialize (I7 i).
    destruct (decide (is_retry r = true /\ node_id r = i)) as [[Hr <-]|Hn].
    + rewrite (bool_decide_eq_true_2 (is_retry r = true /\ _)) by done.
      destruct (Hretry Hr) as [Hty _]. rewrite E3 in *.
      rewrite bool_decide_eq_true_2, dget_dset_eq by done. cbn. lia.
    + rewrite (bool_decide_eq_false_2 (is_retry r = true /\ _)) by done.
      case_bool_decide; [|lia]. rewrite dget_dset. destruct (decide (i = id n)) as [->|]; [|lia].
      change (Z.of_nat (retries (id n) (w_reports st) + 0) <= default 0 (dget (id n) (attempts st)) + 1)%Z. lia.
  - intros i n' m Hn' Hm. rewrite retries_snoc. specialize (I8 i n' m Hn' Hm).
    destruct (decide (is_retry r = true /\ node_id r = i)) as [[Hr <-]|Hn];
      [|rewrite bool_decide_eq_false_2 by done; lia].
    rewrite bool_decide_eq_true_2 by done. pose proof (Hretry Hr) as [Hty Htab].
    unfold is_retry in Hr. apply bool_decide_eq_true in Hr as [t Ht].
    destruct (E7 t Ht) as (_ & _ & _ & m' & Hm' & Hle). rewrite E3 in *.
    assert (n' = n) as -> by congruence. assert (m' = m) as -> by congruence.
    specialize (I7 (id n)). lia.
Qed.

Lemma run_walk_ok d to fuel cur st w w' cur' st' :
  walk d to fuel cur st w = (w', Ok (cur', st')) -> walk_inv d cur st ->
  walk_inv d cur' st' /\ steps st' <= steps st + fuel /\ (cur' = None \/ steps st' = steps st + fuel).
Proof.
  revert cur st w. induction fuel as [|fuel IH]; intros cur st w; cbn [walk].
  - unfold se_ret. intros [= <- <- <-] Hinv. split_and!; [done|lia|right; lia].
  - destruct cur as [n|]; [|unfold se_ret; intros [= <- <- <-] Hinv; split_and!; [done|lia|by left]].
    intros (w1 & [cur1 st1] & H1 & H2)%se_bind_Ok Hinv. apply step_ok in H1 as [r Hr].
    destruct (IH cur1 st1 w1 H2) as (Hi & Hle & Hend); [by eapply walk_inv_step|].
    rewrite (eff_steps _ _ _ _ _ _ Hr) in *. split_and!; [done|lia|destruct Hend; [by left|right; lia]].
Qed.

Lemma initial_inv d vars : walk_inv d (head (starts d)) (initial_walk vars).
Proof.
  split; try done.
  intros i n m _ _. cbn. lia.
Qed.

(** A finished run in terms of the walk that produced it. *)
Lemma run_workflow_walk workflow d to vars camp w w' run :
  run_workflow workflow d to vars camp w = (w', Ok run) ->
  exists cur st w1, walk_inv d cur st /\ steps st <= MAX_WALK_STEPS /\
    (cur = None \/ steps st = MAX_WALK_STEPS) /\ reports run = w_reports st /\
    run_state run = (if (MAX_WALK_STEPS <=? steps st) && bool_decide (is_Some cur) || (failed st && negb (retried st))
                     then Failed else Completed) /\
    run_id run = fresh_run (runs_drawn w) /\ w' = set_runs (dset (run_id run) run (runs w1)) (runs_drawn w1) w1.
Proof.
  unfold run_workflow. cbv zeta.
  destruct (walk d _ MAX_WALK_STEPS _ _ _) as [w1 [[cur st]|]] eqn:E; [|done].
  apply run_walk_ok in E as (Hinv & Hle & Hend); [|apply initial_inv].
  intros [= <- <-]. by exists cur, st, w1.
Qed.

Lemma failed_iff (b : bool) : (if b then Failed else Completed) = Failed <-> b = true.
Proof. by destruct b. Qed.

(** C38: Every run that is returned ends after at most 50 steps with one report per
    step, and the reports alone determine its course: the first is of the start
    node, each later one of the node the earlier reports lead to (the retry
    target, or the next node for the outcome of the last agent call), and unless
    the 50 steps are used up the reports lead nowhere further; the run is stored
    under its id. *)
Theorem run_follows_graph workflow d to vars camp w w' run :
  run_workflow workflow d to vars camp w = (w', Ok run) ->
  length (reports run) <= MAX_WALK_STEPS /\ follows_graph d (reports run) /\
  (successor d (reports run) = None \/ length (reports run) = MAX_WALK_STEPS) /\
  dget (run_id run) (runs w') = Some run.
Proof.
  intros (cur & st & w1 & Hinv & Hle & Hend & Hr & _ & _ & ->)%run_workflow_walk.
  rewrite Hr, <- (inv_steps _ _ _ Hinv), <- (inv_cur _ _ _ Hinv).
  split_and!; [done|apply Hinv|done|apply dget_dset_eq].
Qed.

(** A run is failed exactly when it used its 50 steps without coming to an end,
    or some agent call failed and no retry was ever taken; otherwise it is
    completed, also when the retried calls kept failing. *)
Theorem run_status_exact workflow d to vars camp w w' run :
  run_workflow workflow d to vars camp w = (w', Ok run) ->
  (run_state run = Failed <->
    (length (reports run) = MAX_WALK_STEPS /\ successor d (reports run) <> None) \/
    ((exists r, r ∈ reports run /\ is_failed_call r = true) /\
     (forall r, r ∈ reports run -> is_retry r = false))) /\
  (run_state run = Completed \/ run_state run = Failed).
Proof.
  intros (cur & st & w1 & Hinv & Hle & Hend & Hr & Hs & _)%run_workflow_walk. rewrite Hs, Hr.
  split; [|by destruct (_ || _); [right|left]].
  rewrite <- (inv_cur _ _ _ Hinv), <- (inv_steps _ _ _ Hinv), (inv_retried _ _ _ Hinv).
  rewrite failed_iff, orb_true_iff, !andb_true_iff, Nat.leb_le, bool_decide_eq_true, negb_true_iff, not_eq_None_Some.
  rewrite <- existsb_none.
  assert (existsb is_retry (w_reports st) = false ->
          failed st = true <-> exists r, r ∈ w_reports st /\ is_failed_call r = true) as Hf.
  { intros H. by rewrite (inv_failed _ _ _ Hinv H), existsb_elem. }
  split.
  - intros [[? ?]|[? ?]]; [left; split; [lia|done]|right; naive_solver].
  - intros [[-> ?]|[? ?]]; [left; split; [lia|done]|right; naive_solver].
Qed.

(** A retry node takes at most [max_attempts] retries in a run, whatever the
    calls do and however often the walk comes back to it. *)
Theorem retries_bounded workflow d to vars camp w w' run i n m :
  run_workflow workflow d to vars camp w = (w', Ok run) ->
  dget i (table d) = Some n -> int_of (default (VInt 1) (dget "max_attempts" (config n))) = Ok m ->
  (Z.of_nat (retries i (reports run)) <= Z.max 0 m)%Z.
Proof.
  intros (cur & st & w1 & Hinv & _ & _ & -> & _)%run_workflow_walk. apply (inv_bound _ _ _ Hinv).
Qed.

(** ** Valid definitions *)
Lemma se_bind_Err {S E A B} (c : SE S E A) (k : A -> SE S E B) s s' e :
  se_bind c k s = (s', Err e) ->
  c s = (s', Err e) \/ exists s1 a, c s = (s1, Ok a) /\ k a s1 = (s', Err e).
Proof.
  unfold se_bind. destruct (c s) as [s1 [a|e']]; [right; by exists s1, a|left; congruence].
Qed.

Lemma of_result_Err {S A} (r : result error A) (s s' : S) e :
  of_result r s = (s', Err e) -> r = Err e.
Proof. destruct r; cbn; unfold se_ret, se_raise; congruence. Qed.

Lemma place_call_no_key_error agent to vars w w' :
  place_call fresh_id clock agent to vars w <> (w', Err KeyError).
Proof. unfold place_call, lift. by destruct (se_bind _ _ _) as [? []]. Qed.

Lemma field_values_no_key_error vars fs acc : field_values vars fs acc <> Err KeyError.
Proof. revert acc. induction fs as [|f fs IH]; intros acc; simpl; [done|]. destruct (hashable f); [apply IH|done]. Qed.

Lemma int_of_no_key_error v : int_of v <> Err KeyError.
Proof. unfold int_of. by repeat case_match. Qed.

(** [config["agent_id"]] is the only subscript that can miss. *)
Lemma step_key_error d to n st w w' :
  step d to n st w = (w', Err KeyError) -> type n = TAgent /\ dget "agent_id" (config n) = None.
Proof.
  unfold step. cbv zeta. destruct (type n); try done.
  - intros [H|(w1 & a & _ & H)]%se_bind_Err; [|done]. split; [done|]. unfold agent_step in H.
    apply se_bind_Err in H as [H|(w1 & x & _ & H)].
    + apply of_result_Err in H. by repeat case_match.
    + destruct (dget "agent_id" (config n)); [|done]. exfalso.
      apply se_bind_Err in H as [H|(w2 & e & _ & H)]; [by apply place_call_no_key_error in H|done].
  - intros [H|(w1 & a & _ & H)]%se_bind_Err; [|done]. exfalso. apply of_result_Err in H.
    unfold extraction_step in H. destruct (list_of _) as [fs|e] eqn:El.
    + destruct (field_values _ _ _) as [|e] eqn:Ef; [done|]. apply (field_values_no_key_error (w_variables st) fs []).
      cbn in Ef, H. congruence.
    + unfold list_of in El. assert (e = KeyError) as -> by congruence. by repeat case_match.
  - intros [H|(w1 & a & _ & H)]%se_bind_Err; [|done]. exfalso. apply of_result_Err in H.
    unfold wait_step in H. by destruct (to_float _).
  - intros [H|(w1 & [t a] & _ & H)]%se_bind_Err; [|by destruct t]. exfalso. apply of_result_Err in H.
    unfold retry_step in H. case_bool_decide; [|done].
    destruct (int_of _) as [m|e] eqn:Em; [by repeat case_match|].
    apply (int_of_no_key_error (default (VInt 1) (dget "max_attempts" (config n)))). congruence.
Qed.

Lemma successor_in d rs n : successor d rs = Some n -> n ∈ nodes d.
Proof.
  intros [[H _]|H]%successor_known; [by apply starts_type in H as [_ ?]|by apply by_id_Some in H as [? _]].
Qed.

Lemma walk_key_error d to fuel cur st w w' :
  (forall n, cur = Some n -> n ∈ nodes d) ->
  walk d to fuel cur st w = (w', Err KeyError) ->
  exists n, n ∈ nodes d /\ type n = TAgent /\ dget "agent_id" (config n) = None.
Proof.
  revert cur st w. induction fuel as [|fuel IH]; intros cur st w Hcur; cbn [walk]; [done|].
  destruct cur as [n|]; [|done]. intros [H|(w1 & [cur1 st1] & H1 & H2)]%se_bind_Err.
  - apply step_key_error in H. exists n. split; [by apply Hcur|done].
  - apply step_ok in H1 as [r Hr]. apply (IH cur1 st1 w1); [|done]. intros n1 ->.
    pose proof (eff_cur _ _ _ _ _ _ Hr) as Hc. symmetry in Hc.
    destruct (retry_target r); [by apply by_id_Some in Hc as [? _]|].
    case_bool_decide; [done|]. unfold next_node in Hc.
    destruct (filter _ _); [|by apply by_id_Some in Hc as [? _]].
    destruct (following _ _); [by apply by_id_Some in Hc as [? _]|done].
Qed.

Lemma edge_errors_nil d e :
  edge_errors (table d) e = [] <->
  from_node e ∈ ids d /\ to_node e ∈ ids d /\ label e ∈ [""; "on_success"; "on_failure"].
Proof.
  unfold edge_errors. rewrite !app_nil, !if_nil'. unfold table, ids. rewrite <- !by_id_known.
  assert ((if str_true (label e) && negb (bool_decide (label e ∈ ["on_success"; "on_failure"]))
           then ["edge '" +:+ from_node e +:+ "->" +:+ to_node e +:+ "' has unknown label '" +:+ label e +:+ "'"]
           else []) = [] <-> label e ∈ [""; "on_success"; "on_failure"]) as ->.
  { case_bool_decide as E; cbn.
    - rewrite andb_false_r. split; [set_solver|done].
    - rewrite andb_true_r. destruct (str_true (label e)) eqn:Hs.
      + split; [done|]. intros [Hl|?]%elem_of_cons; [by rewrite Hl in Hs|]. by destruct E.
      + split; [|done]. apply str_true_false in Hs. rewrite Hs. set_solver. }
  done.
Qed.

Lemma all_node_errors_nil ns :
  all_node_errors ns = Ok [] <-> forall n, n ∈ ns -> node_errors n = Ok [].
Proof.
  induction ns as [|n ns IH]; simpl; [split; [by intros _ n ?%not_elem_of_nil|done]|].
  destruct (node_errors n) as [es|e] eqn:En.
  - destruct (all_node_errors ns) as [es'|e'] eqn:Ens.
    + split.
      * intros [= [-> ->]%app_nil] m [->|Hm]%elem_of_cons; [done|]. by apply IH.
      * intros H. assert (es = []) as -> by (specialize (H n); rewrite En in H; by injection H; [|set_solver]).
        assert (Ok es' = Ok (E := error) []) as Heq by (apply IH; set_solver). by injection Heq as ->.
    + split; [done|]. intros H. assert (Err e' = Ok (A := list string) []) by (apply IH; set_solver). done.
  - split; [done|]. intros H. rewrite H in En by set_solver. done.
Qed.

(** The rules a workflow is held to. *)
Definition well_formed (d : WorkflowDefinition) : Prop :=
  NoDup (ids d) /\ (exists s, starts d = [s]) /\
  (forall e, e ∈ edges d -> from_node e ∈ ids d /\ to_node e ∈ ids d /\
                            label e ∈ [""; "on_success"; "on_failure"]) /\
  (forall n, n ∈ nodes d -> node_errors n = Ok []).

Lemma workflow_well_formed d r :
  validate_workflow d = Ok r -> (valid r = true <-> well_formed d).
Proof.
  unfold validate_workflow, well_formed. destruct (nodes d) as [|n0 ns] eqn:E.
  { intros [= <-]. split; [done|]. intros (_ & (s & Hs) & _). unfold starts in Hs. by rewrite E in Hs. }
  rewrite <- E. destruct (all_node_errors (nodes d)) as [ces|] eqn:Ec; [|done]. intros [= <-]. cbn [valid].
  rewrite <- all_node_errors_nil, Ec.
  transitivity (NoDup (ids d) /\ (exists s, starts d = [s]) /\ concat (map (edge_errors (table d)) (edges d)) = [] /\ ces = []).
  - case_bool_decide; cbn; [|by split; [|intros [? _]]].
    destruct (starts d) as [|s [|s' l]] eqn:Es; cbn.
    + split; [done|]. by intros (_ & [? ?] & _).
    + destruct (concat _); cbn; [|by split; [|intros (_ & _ & ? & _)]].
      destruct ces; [|by split; [|intros (_ & _ & _ & ?)]]. split; [|done]. intros _. split_and!; try done. by exists s.
    + split; [done|]. by intros (_ & [? ?] & _).
  - rewrite concat_map_nil. setoid_rewrite edge_errors_nil.
    assert (ces = [] <-> Ok (E := error) ces = Ok []) as -> by (split; congruence). done.
Qed.

(** The validator accepts exactly the definitions with unique ids, one start
    node, edges between known nodes under a known label and a complete
    configuration of every node; and a run of an accepted definition never fails
    on a missing configuration key, whatever the contact, the calls and the
    state of the store. *)
Theorem workflow_validation_exact d r :
  validate_workflow d = Ok r ->
  (valid r = true <-> well_formed d) /\
  (valid r = true -> forall workflow to vars camp w,
     snd (run_workflow workflow d to vars camp w) <> Err KeyError).
Proof.
  intros Hr. pose proof (workflow_well_formed d r Hr) as Hv. split; [done|].
  rewrite Hv. intros (_ & _ & _ & Hn) workflow to vars camp w. unfold run_workflow. cbv zeta.
  destruct (walk d _ MAX_WALK_STEPS _ _ _) as [w1 [[cur st]|e]] eqn:E; [done|]. cbn [snd]. intros [= ->].
  apply walk_key_error in E as (n & Hin & Ht & Ha).
  - specialize (Hn n Hin). unfold node_errors in Hn. rewrite Ht in Hn. unfold ctrue, cget in Hn. by rewrite Ha in Hn.
  - intros n Hs. by apply starts_type in Hs as [_ ?].
Qed.

(** ** Campaigns: running a contact leaves the campaign rows alone *)
Lemma lift_campaigns {A} (c : SE store exn A) x : preserves (fun w => campaigns w = x) (lift c).
Proof. intros w Hw. unfold lift. by destruct (c (calls w)) as [? []]. Qed.

Lemma of_result_preserves {S A} (I : S -> Prop) (r : result error A) : preserves I (of_result r).
Proof. destruct r; cbn; auto with voice. Qed.

Hint Resolve lift_campaigns of_result_preserves : voice.

Lemma step_campaigns d to n st x : preserves (fun w => campaigns w = x) (step d to n st).
Proof.
  unfold step. cbv zeta. destruct (type n); auto with voice.
  apply preserves_bind; [|auto with voice]. unfold agent_step. apply preserves_bind; [auto with voice|].
  intros extra. cbv zeta. destruct (dget "agent_id" (config n)); [|auto with voice].
  apply preserves_bind; [apply lift_campaigns|auto with voice].
Qed.

Lemma walk_campaigns d to fuel cur st x : preserves (fun w => campaigns w = x) (walk d to fuel cur st).
Proof.
  revert cur st. induction fuel as [|fuel IH]; intros [n|] st; cbn [walk]; auto with voice.
  apply preserves_bind; [apply step_campaigns|auto].
Qed.

Lemma run_campaigns workflow d to vars camp w :
  campaigns (fst (run_workflow workflow d to vars camp w)) = campaigns w.
Proof.
  unfold run_workflow. cbv zeta.
  pose proof (walk_campaigns d (if str_true to then to else "+910000000000") MAX_WALK_STEPS (head (starts d))
                (initial_walk vars) (campaigns w) (set_runs (runs w) (S (runs_drawn w)) w) eq_refl) as H.
  by destruct (walk d _ MAX_WALK_STEPS _ _ _) as [w1 [[cur st]|]].
Qed.

Notation drive_entries := (drive_entries str_other fresh_id fresh_run clock).
Notation run_campaign := (run_campaign str_other fresh_id fresh_run clock).

(** How the counters of [c'] relate to those of [c] after [n] entries. *)
Definition advanced (n : Z) (c c' : campaign) : Prop :=
  campaign_id c' = campaign_id c /\ campaign_state c' = campaign_state c /\ entries c' = entries c /\
  campaign_workflow c' = campaign_workflow c /\
  total (stats c') = total (stats c) /\ queued (stats c') = (queued (stats c) - n)%Z /\
  (completed (stats c') + failed_runs (stats c') = completed (stats c) + failed_runs (stats c) + n)%Z /\
  (completed (stats c) <= completed (stats c'))%Z /\ (failed_runs (stats c) <= failed_runs (stats c'))%Z.

Lemma advanced_0 c : advanced 0 c c.
Proof. unfold advanced. split_and!; try done; lia. Qed.

Lemma advanced_count r c c' n : advanced n (count_run r c) c' -> advanced (1 + n) c c'.
Proof.
  unfold advanced, count_run. case_bool_decide; cbn; intros (? & ? & ? & ? & ? & ? & ? & ? & ?);
    split_and!; try done; lia.
Qed.

(** No other task touches the row of campaign [i]. *)
Definition row_private (others : nat -> world -> world) (i : string) : Prop :=
  forall k w, dget i (campaigns (others k w)) = dget i (campaigns w).

(** One entry of a running campaign whose row is up to date. *)
Lemma drive_entry others d i k e es c w :
  dget i (campaigns (others (2 * k) w)) = Some c -> campaign_state c = RUNNING ->
  drive_entries others d i k (e :: es) c w =
  match run_workflow (campaign_workflow c) d (entry_number e) (entry_variables e) (Some i) (others (2 * k) w) with
  | (w1, Err x) => (w1, Err x)
  | (w1, Ok run) => se_bind (save_campaign (count_run run c)) (fun _ => drive_entries others d i (S k) es (count_run run c))
                      (others (2 * k + 1) w1)
  end.
Proof.
  intros Hrow Hrun. cbn [Workflow.drive_entries].
  unfold se_bind at 1 2, await, se_modify, get_campaign, se_bind at 1, se_get, se_ret.
  rewrite Hrow. rewrite bool_decide_eq_true_2 by done. unfold se_bind at 1.
  by destruct (run_workflow _ _ _ _ _ _) as [w1 [run|]].
Qed.

Lemma drive_entries_balance others d i k es c w w' r :
  row_private others i -> campaign_id c = i -> campaign_state c = RUNNING ->
  dget i (campaigns w) = Some c -> drive_entries others d i k es c w = (w', r) ->
  match r with
  | Ok c' => advanced (Z.of_nat (length es)) c c' /\ dget i (campaigns w') = Some c'
  | Err _ => exists c' n, advanced n c c' /\ (0 <= n < Z.of_nat (length es))%Z /\ dget i (campaigns w') = Some c'
  end.
Proof.
  intros Hp. revert k c w. induction es as [|e es IH]; intros k c w Hid Hrun Hrow.
  - cbn. unfold se_ret. intros [= <- <-]. split; [apply advanced_0|done].
  - rewrite drive_entry; [|by rewrite Hp|done].
    pose proof (run_campaigns (campaign_workflow c) d (entry_number e) (entry_variables e) (Some i) (others (2 * k) w)) as Hc.
    destruct (run_workflow _ _ _ _ _ _) as [w1 [run|x]]; cbn [fst] in Hc.
    + unfold se_bind, save_campaign, se_modify.
      assert (campaign_id (count_run run c) = i) as Hid' by (unfold count_run; by case_bool_decide).
      assert (campaign_state (count_run run c) = RUNNING) as Hrun' by (unfold count_run; by case_bool_decide).
      intros H. apply IH in H; [|done|done|].
      * destruct r as [c'|x].
        -- destruct H as [Ha Hrow']. split; [|done]. apply advanced_count in Ha.
           replace (Z.of_nat (length (e :: es))) with (1 + Z.of_nat (length es))%Z by (simpl; lia). done.
        -- destruct H as (c' & n & Ha & Hn & Hrow'). exists c', (1 + n)%Z.
           split; [by eapply advanced_count|]. split; [simpl; lia|done].
      * cbn [campaigns set_campaigns]. rewrite Hid'. by rewrite dget_dset_eq.
    + intros [= <- <-]. exists c, 0%Z. split; [apply advanced_0|]. split; [simpl; lia|]. by rewrite Hc, Hp.
Qed.

Lemma run_campaign_unfold others i c d w :
  dget i (campaigns w) = Some c -> runnable (campaign_state c) = true ->
  dget (campaign_workflow c) (workflows w) = Some d ->
  let n := Z.of_nat (length (entries c)) in
  let c1 := set_stats (mkStats n n (completed (stats c)) (failed_runs (stats c))) (set_state RUNNING c) in
  run_campaign others i w =
  match drive_entries others d i 0 (entries c) c1 (set_campaigns (dset (campaign_id c) c1 (campaigns w)) w) with
  | (w1, Ok c2) =>
      let c3 := if bool_decide (campaign_state c2 = RUNNING) then set_state CAMPAIGN_COMPLETED c2 else c2 in
      (set_campaigns (dset (campaign_id c3) c3 (campaigns w1)) w1, Ok (Some c3))
  | (w1, Err x) => (w1, Err x)
  end.
Proof.
  intros Hrow Hr Hd. cbv zeta. unfold Workflow.run_campaign.
  unfold se_bind at 1 2, get_campaign, se_bind at 1, se_get, se_ret. rewrite Hrow, Hr. cbn [negb].
  unfold se_bind at 1, get_workflow, se_bind at 1, se_get, se_ret. rewrite Hd.
  unfold se_bind at 1, save_campaign at 1, se_modify. unfold se_bind at 1.
  by destruct (drive_entries _ _ _ _ _ _ _) as [w1 [c2|x]].
Qed.

(** Driving a fresh campaign that no other task touches accounts for every
    entry. When the driver returns, the campaign is completed, nothing is queued
    and completed plus failed is the number of entries; when a run raises, the
    stored row still says running with at least one entry queued, and queued,
    completed and failed still add up to the number of entries. *)
Theorem campaign_books_balance others i c d w :
  row_private others i -> dget i (campaigns w) = Some c -> campaign_id c = i ->
  runnable (campaign_state c) = true -> dget (campaign_workflow c) (workflows w) = Some d ->
  completed (stats c) = 0%Z -> failed_runs (stats c) = 0%Z ->
  let n := Z.of_nat (length (entries c)) in
  let '(w', r) := run_campaign others i w in
  exists c', dget i (campaigns w') = Some c' /\ total (stats c') = n /\
    (queued (stats c') + completed (stats c') + failed_runs (stats c') = n)%Z /\
    (0 <= completed (stats c') /\ 0 <= failed_runs (stats c'))%Z /\
    match r with
    | Ok x => x = Some c' /\ campaign_state c' = CAMPAIGN_COMPLETED /\ queued (stats c') = 0%Z
    | Err _ => campaign_state c' = RUNNING /\ (0 < queued (stats c'))%Z
    end.
Proof.
  intros Hp Hrow Hid Hr Hd H0 H1 n. rewrite (run_campaign_unfold _ _ c d) by done. cbv zeta. fold n. rewrite H0, H1.
  destruct (drive_entries _ _ _ _ _ _ _) as [w1 r] eqn:E.
  apply drive_entries_balance in E; [|done|done|done|cbn; by rewrite Hid, dget_dset_eq].
  destruct r as [c2|x].
  - destruct E as [(A1 & A2 & A3 & A4 & A5 & A6 & A7 & A8 & A9) _]. cbn in A1, A2, A5, A6, A7, A8, A9.
    rewrite bool_decide_eq_true_2 by done. eexists. split; [cbn; rewrite A1, Hid; apply dget_dset_eq|].
    cbn. split_and!; try done; lia.
  - destruct E as (c' & m & (A1 & A2 & A3 & A4 & A5 & A6 & A7 & A8 & A9) & Hm & Hrow').
    cbn in A1, A2, A5, A6, A7, A8, A9. exists c'. split_and!; try done; lia.
Qed.

(** A stop request served while the driver awaits for the [k]-th time. *)
Definition stop_at (k : nat) (i : string) : nat -> world -> world :=
  fun j w => if j =? k then fst (stop_campaign i w) else w.

Lemma stop_running i c w :
  dget i (campaigns w) = Some c -> campaign_state c = RUNNING ->
  fst (stop_campaign i w) = set_campaigns (dset (campaign_id c) (set_state STOPPED c) (campaigns w)) w.
Proof.
  intros Hrow Hs. unfold stop_campaign, se_bind at 1, get_campaign, se_bind at 1, se_get, se_ret.
  rewrite Hrow, Hs. reflexivity.
Qed.

(** A stop during an entry is overwritten by the counters saved after it. *)
Lemma drive_entries_stop_lost d i j k es c w :
  campaign_id c = i -> campaign_state c = RUNNING -> dget i (campaigns w) = Some c ->
  drive_entries (stop_at (2 * j + 1) i) d i k es c w = drive_entries (fun _ w => w) d i k es c w.
Proof.
  revert k c w. induction es as [|e es IH]; intros k c w Hid Hrun Hrow; [done|].
  assert (forall w, stop_at (2 * j + 1) i (2 * k) w = w) as Heven.
  { intros w0. unfold stop_at. by rewrite (proj2 (Nat.eqb_neq _ _)) by lia. }
  rewrite drive_entry, drive_entry by (rewrite ?Heven; done). rewrite !Heven.
  pose proof (run_campaigns (campaign_workflow c) d (entry_number e) (entry_variables e) (Some i) w) as Hc.
  destruct (run_workflow _ _ _ _ _ _) as [w1 [run|x]]; cbn [fst] in Hc; [|done].
  assert (campaign_id (count_run run c) = i) as Hid' by (unfold count_run; by case_bool_decide).
  assert (campaign_state (count_run run c) = RUNNING) as Hrun' by (unfold count_run; by case_bool_decide).
  unfold se_bind, save_campaign, se_modify, stop_at. rewrite Hid'. destruct (_ =? _).
  - rewrite (stop_running _ c) by (rewrite ?Hc; done). cbn [set_campaigns campaigns calls runs runs_drawn workflows].
    rewrite Hid, dset_dset. apply IH; [done..|]. cbn. by rewrite dget_dset_eq.
  - apply IH; [done..|]. cbn. by rewrite dget_dset_eq.
Qed.

(** A stop request takes effect only between two entries. Served during an
    entry's run it is lost: the driver's own copy of the row is written over it,
    and result and store are those of a drive nobody stopped. *)
Theorem stop_during_entry_lost i c d w j :
  dget i (campaigns w) = Some c -> campaign_id c = i -> runnable (campaign_state c) = true ->
  dget (campaign_workflow c) (workflows w) = Some d ->
  run_campaign (stop_at (2 * j + 1) i) i w = run_campaign (fun _ w => w) i w.
Proof.
  intros Hrow Hid Hr Hd. rewrite !(run_campaign_unfold _ _ c d) by done. cbv zeta.
  rewrite drive_entries_stop_lost; [done|done|done|]. cbn. by rewrite Hid, dget_dset_eq.
Qed.

Lemma drive_entries_stopped d i j k es c w w' c' :
  campaign_id c = i -> campaign_state c = RUNNING -> dget i (campaigns w) = Some c ->
  k <= j < k + length es ->
  drive_entries (stop_at (2 * j) i) d i k es c w = (w', Ok c') ->
  campaign_state c' = STOPPED /\ campaign_id c' = i /\
  queued (stats c') = (queued (stats c) - Z.of_nat (j - k))%Z.
Proof.
  revert k c w. induction es as [|e es IH]; intros k c w Hid Hrun Hrow Hj; simpl in Hj; [lia|].
  destruct (decide (k = j)) as [->|Hne].
  - cbn [Workflow.drive_entries]. unfold se_bind at 1, await, se_modify, stop_at. rewrite Nat.eqb_refl.
    rewrite (stop_running _ c) by done. unfold se_bind at 1, get_campaign, se_bind at 1, se_get, se_ret.
    cbn [campaigns set_campaigns]. rewrite Hid, dget_dset_eq. cbn [campaign_state set_state].
    rewrite bool_decide_eq_false_2 by done. intros [= _ <-]. cbn. split_and!; [done|done|lia].
  - assert (forall w, stop_at (2 * j) i (2 * k) w = w) as H1.
    { intros w0. unfold stop_at. by rewrite (proj2 (Nat.eqb_neq _ _)) by lia. }
    assert (forall w, stop_at (2 * j) i (2 * k + 1) w = w) as H2.
    { intros w0. unfold stop_at. by rewrite (proj2 (Nat.eqb_neq _ _)) by lia. }
    rewrite drive_entry by (rewrite ?H1; done). rewrite H1.
    destruct (run_workflow _ _ _ _ _ _) as [w1 [run|x]]; [|done]. rewrite H2.
    assert (campaign_id (count_run run c) = i) as Hid' by (unfold count_run; by case_bool_decide).
    unfold se_bind, save_campaign, se_modify. intros H. apply IH in H; [|done| | |lia].
    + destruct H as (? & ? & Hq). split_and!; [done|done|]. rewrite Hq. unfold count_run. case_bool_decide; cbn; lia.
    + unfold count_run; by case_bool_decide.
    + cbn [campaigns set_campaigns]. by rewrite Hid', dget_dset_eq.
Qed.

(** A stop request served between two entries is honoured: the entries not yet
    started stay queued, and the campaign is returned and stored as stopped. *)
Theorem stop_between_entries_honoured i c d w w' r j :
  dget i (campaigns w) = Some c -> campaign_id c = i -> runnable (campaign_state c) = true ->
  dget (campaign_workflow c) (workflows w) = Some d -> j < length (entries c) ->
  run_campaign (stop_at (2 * j) i) i w = (w', Ok r) ->
  exists c', r = Some c' /\ campaign_state c' = STOPPED /\ dget i (campaigns w') = Some c' /\
    queued (stats c') = (Z.of_nat (length (entries c)) - Z.of_nat j)%Z.
Proof.
  intros Hrow Hid Hr Hd Hj. rewrite (run_campaign_unfold _ _ c d) by done. cbv zeta.
  destruct (drive_entries _ _ _ _ _ _ _) as [w1 [c2|x]] eqn:E; [|done].
  apply drive_entries_stopped in E; [|done|done|cbn; by rewrite Hid, dget_dset_eq|lia].
  destruct E as (Hs & Hi & Hq). rewrite Hs. cbn. intros [= <- <-]. exists c2. split_and!; [done|done| |].
  - cbn. by rewrite Hi, dget_dset_eq.
  - rewrite Hq. cbn. lia.
Qed.
End runner_facts.

(** ** Concrete runs: a call that always fails, retried twice *)
Definition sample : WorkflowDefinition := mkDefinition
  [mkNode "s" TStart []; mkNode "call" TAgent [("agent_id", VStr "agent-1")];
   mkNode "again" TRetry [("target_node_id", VStr "call"); ("max_attempts", VInt 2)]; mkNode "e" TEnd []]
  [mkEdge "call" "e" "on_success"; mkEdge "call" "again" "on_failure"].
Definition no_str (_ : val) : string := "".
Definition exec_ids (n : nat) : string := "exec" +:+ str_of_Z (Z.of_nat n).
Definition run_ids (n : nat) : string := "run" +:+ str_of_Z (Z.of_nat n).
Definition still (_ : string) : Q * Q := (0%Q, 0%Q).
Definition caller : entry := mkEntry "+91" [("force_outcome", VStr "busy")].
Definition sample_campaign : campaign :=
  mkCampaign "camp" "wf" DRAFT [caller; mkEntry "+92" []] (mkStats 2 2 0 0).
Definition sample_world : world :=
  mkWorld (mkStore [] [] 0) [] 0 [("wf", sample)] [("camp", sample_campaign)].
Notation sample_run := (run_workflow no_str exec_ids run_ids still "wf" sample "+91" [("force_outcome", VStr "busy")] None sample_world).

Lemma run_follows_graph_witness :
  exists run, snd sample_run = Ok run /\ length (reports run) = 8 /\ follows_graph sample (reports run).
Proof.
  destruct sample_run as [w' [run|]] eqn:E; [|by vm_compute in E].
  exists run. split; [done|]. split; [by vm_compute in E; injection E as _ <-|].
  apply (run_follows_graph no_str exec_ids run_ids still "wf" sample "+91" [("force_outcome", VStr "busy")] None sample_world w' run).
  exact E.
Defined.

Lemma run_status_exact_witness :
  exists run, snd sample_run = Ok run /\ run_state run = Completed /\
    (run_state run = Completed \/ run_state run = Failed).
Proof.
  destruct sample_run as [w' [run|]] eqn:E; [|by vm_compute in E].
  exists run. split; [done|]. split; [by vm_compute in E; injection E as _ <-|].
  apply (run_status_exact no_str exec_ids run_ids still "wf" sample "+91" [("force_outcome", VStr "busy")] None sample_world w' run).
  exact E.
Defined.

Lemma retries_bounded_witness :
  exists run, snd sample_run = Ok run /\ retries "again" (reports run) = 2 /\
    (Z.of_nat (retries "again" (reports run)) <= Z.max 0 2)%Z.
Proof.
  destruct sample_run as [w' [run|]] eqn:E; [|by vm_compute in E].
  exists run. split; [done|]. split; [by vm_compute in E; injection E as _ <-|].
  apply (retries_bounded no_str exec_ids run_ids still "wf" sample "+91" [("force_outcome", VStr "busy")] None sample_world w' run
    "again" (mkNode "again" TRetry [("target_node_id", VStr "call"); ("max_attempts", VInt 2)]) 2);
    [exact E|reflexivity|reflexivity].
Defined.

Lemma workflow_validation_exact_witness :
  exists r, validate_workflow sample = Ok r /\ (valid r = true <-> well_formed sample).
Proof.
  eexists. split; [vm_compute; reflexivity|].
  apply (workflow_validation_exact no_str exec_ids run_ids still sample). vm_compute. reflexivity.
Defined.

Lemma campaign_books_balance_witness :
  exists c', dget "camp" (campaigns (fst (run_campaign no_str exec_ids run_ids still (fun _ w => w) "camp" sample_world))) = Some c' /\
    total (stats c') = 2%Z.
Proof.
  pose proof (campaign_books_balance no_str exec_ids run_ids still (fun _ w => w) "camp" sample_campaign sample sample_world
    (fun _ _ => eq_refl) eq_refl eq_refl eq_refl eq_refl eq_refl eq_refl) as H.
  destruct (run_campaign no_str exec_ids run_ids still (fun _ w => w) "camp" sample_world) as [w' r].
  destruct H as (c' & H1 & H2 & _). exists c'. split; [exact H1|exact H2].
Defined.

Lemma stop_during_entry_lost_witness :
  run_campaign no_str exec_ids run_ids still (stop_at 1 "camp") "camp" sample_world =
  run_campaign no_str exec_ids run_ids still (fun _ w => w) "camp" sample_world.
Proof. apply (stop_during_entry_lost no_str exec_ids run_ids still "camp" sample_campaign sample sample_world 0); reflexivity. Defined.

Lemma stop_between_entries_honoured_witness :
  exists c', snd (run_campaign no_str exec_ids run_ids still (stop_at 2 "camp") "camp" sample_world) = Ok (Some c') /\
    campaign_state c' = STOPPED /\ queued (stats c') = 1%Z.
Proof.
  destruct (run_campaign no_str exec_ids run_ids still (stop_at 2 "camp") "camp" sample_world) as [w' [r|]] eqn:E;
    [|by vm_compute in E].
  destruct (stop_between_entries_honoured no_str exec_ids run_ids still "camp" sample_campaign sample sample_world w' r 1)
    as (c' & -> & Hs & _ & Hq); [reflexivity|reflexivity|reflexivity|reflexivity|simpl; lia|exact E|].
  exists c'. split; [reflexivity|]. split; [exact Hs|exact Hq].
Defined.

End Workflow.
