(* ===== verification/AuthStore.v ===== *)
(** * Authentication: records, principals and the store
    (src/voiceai/modules/auth: models/, static_methods.py, utils.py, repository.py)

    The documents as [Model]s, [Principal] with its role and scope tables, and
    [MongoAuthStore] over one in-memory repository per collection, without the
    Redis cache in front of the denylist. [utc_now()], [new_token()] and
    [uuid4().hex] are read from the supplies [clock], [secret] and [uuid], which the
    world counts; a [datetime] is a number of microseconds. *)
From S2P Require Import Prelude PyText PyVal Pagination Repository Wallet.
Open Scope Z_scope.
Open Scope voice_scope.

(** ** Roles and scopes (models/user.py) *)
Inductive UserRole : Type := owner | admin | member | viewer.
#[global] Instance role_dec : EqDecision UserRole.
Proof. solve_decision. Defined.
Definition role_str (r : UserRole) : string :=
  match r with owner => "owner" | admin => "admin" | member => "member" | viewer => "viewer" end.
Definition ROLE_RANK (r : UserRole) : Z :=
  match r with viewer => 0 | member => 1 | admin => 2 | owner => 3 end.
Definition ROLE_SCOPES (r : UserRole) : list string :=
  match r with
  | viewer => ["agents:read"; "calls:read"; "batches:read"; "platform:read"]
  | member => ["agents:read"; "agents:write"; "calls:read"; "calls:write"; "batches:read"; "batches:write";
               "platform:read"; "platform:write"]
  | admin => ["agents:read"; "agents:write"; "calls:read"; "calls:write"; "batches:read"; "batches:write";
              "platform:read"; "platform:write"; "users:read"; "keys:read"; "keys:write"; "admin"]
  | owner => ["*"]
  end.

(** ** Records *)
Record User := mkUser {
  us_base : BaseFields; user_id : string; email : string; us_name : option string; password_hash : string;
  role : UserRole; org_id : string; disabled : bool; last_login_at : option Z; token_version : Z }.

Inductive SessionKind : Type := KSession | KTicket | KRefresh.
#[global] Instance kind_dec : EqDecision SessionKind.
Proof. solve_decision. Defined.
Definition kind_str (k : SessionKind) : string :=
  match k with KSession => "session" | KTicket => "ws-ticket" | KRefresh => "refresh" end.
Record SessionRecord := mkSession {
  ss_base : BaseFields; token_hash : string; ss_user_id : string; ss_org_id : string;
  kind : SessionKind; expires_at : Z; ss_version : Z }.

Record Invite := mkInvite {
  in_base : BaseFields; invite_id : string; in_email : string; in_name : option string; in_role : UserRole;
  in_org_id : string; in_token_hash : string; in_expires_at : Z; accepted : bool }.
Record ApiKey := mkApiKey {
  ak_base : BaseFields; key_id : string; ak_name : string; prefix : string; key_hash : option string;
  ak_scopes : list string; ak_expires_at : option Z; ak_last_used_at : option Z }.
Record RevokedToken := mkRevoked { rv_base : BaseFields; jti : string; rv_user_id : string; rv_expires_at : Z }.
Inductive TenantStatus : Type := active | suspended.
#[global] Instance status_dec : EqDecision TenantStatus.
Proof. solve_decision. Defined.
Record Tenant := mkTenant {
  tn_base : BaseFields; tenant_key : string; slug : string; tn_name : string; plan : string; status : TenantStatus }.
Record Membership := mkMembership {
  mb_base : BaseFields; membership_id : string; mb_user_id : string; team_id : string; mb_org_id : string;
  mb_role : UserRole }.
Record AuthEvent := mkEvent {
  ev_base : BaseFields; event_id : string; ev_type : string; ev_user_id : option string; ev_email : option string;
  ev_detail : option string }.

Definition user_field (u : User) (f : string) : option val :=
  dget f [("user_id", VStr (user_id u)); ("email", VStr (email u)); ("name", opt_str (us_name u));
          ("password_hash", VStr (password_hash u)); ("role", VStr (role_str (role u)));
          ("org_id", VStr (org_id u)); ("disabled", VBool (disabled u)); ("token_version", VInt (token_version u))].
Definition session_field (s : SessionRecord) (f : string) : option val :=
  dget f [("token_hash", VStr (token_hash s)); ("user_id", VStr (ss_user_id s)); ("org_id", VStr (ss_org_id s));
          ("kind", VStr (kind_str (kind s))); ("expires_at", VInt (expires_at s)); ("token_version", VInt (ss_version s))].
Definition invite_field (i : Invite) (f : string) : option val :=
  dget f [("invite_id", VStr (invite_id i)); ("email", VStr (in_email i)); ("name", opt_str (in_name i));
          ("role", VStr (role_str (in_role i))); ("org_id", VStr (in_org_id i));
          ("token_hash", VStr (in_token_hash i)); ("expires_at", VInt (in_expires_at i)); ("accepted", VBool (accepted i))].
Definition key_field (k : ApiKey) (f : string) : option val :=
  dget f [("key_id", VStr (key_id k)); ("name", VStr (ak_name k)); ("key_hash", opt_str (key_hash k));
          ("scopes", VList (map VStr (ak_scopes k)))].
Definition revoked_field (r : RevokedToken) (f : string) : option val :=
  dget f [("jti", VStr (jti r)); ("user_id", VStr (rv_user_id r)); ("expires_at", VInt (rv_expires_at r))].
Definition status_str (x : TenantStatus) : string := match x with active => "active" | suspended => "suspended" end.
Definition tenant_field (t : Tenant) (f : string) : option val :=
  dget f [("slug", VStr (slug t)); ("name", VStr (tn_name t)); ("plan", VStr (plan t));
          ("status", VStr (status_str (status t)))].
Definition membership_field (m : Membership) (f : string) : option val :=
  dget f [("membership_id", VStr (membership_id m)); ("user_id", VStr (mb_user_id m)); ("team_id", VStr (team_id m));
          ("role", VStr (role_str (mb_role m)))].
Definition event_field (e : AuthEvent) (f : string) : option val :=
  dget f [("event_id", VStr (event_id e)); ("type", VStr (ev_type e)); ("user_id", opt_str (ev_user_id e));
          ("email", opt_str (ev_email e)); ("detail", opt_str (ev_detail e))].

Ltac solve_auth_model :=
  try done; try (by intros; match goal with m : _ |- _ => destruct m end);
  intros m f Hf; repeat (apply elem_of_cons in Hf as [->|Hf]; [done|]); by apply elem_of_nil in Hf.

#[export] Instance user_model : Model User.
Proof.
  refine {| base_of := us_base; own_field := user_field;
    set_base b u := mkUser b (user_id u) (email u) (us_name u) (password_hash u) (role u) (org_id u) (disabled u)
                      (last_login_at u) (token_version u) |}; solve_auth_model.
Defined.
#[export] Instance session_model : Model SessionRecord.
Proof.
  refine {| base_of := ss_base; own_field := session_field;
    set_base b s := mkSession b (token_hash s) (ss_user_id s) (ss_org_id s) (kind s) (expires_at s) (ss_version s) |};
    solve_auth_model.
Defined.
#[export] Instance invite_model : Model Invite.
Proof.
  refine {| base_of := in_base; own_field := invite_field;
    set_base b i := mkInvite b (invite_id i) (in_email i) (in_name i) (in_role i) (in_org_id i) (in_token_hash i)
                      (in_expires_at i) (accepted i) |}; solve_auth_model.
Defined.
#[export] Instance key_model : Model ApiKey.
Proof.
  refine {| base_of := ak_base; own_field := key_field;
    set_base b k := mkApiKey b (key_id k) (ak_name k) (prefix k) (key_hash k) (ak_scopes k) (ak_expires_at k) (ak_last_used_at k) |};
    solve_auth_model.
Defined.
#[export] Instance revoked_model : Model RevokedToken.
Proof.
  refine {| base_of := rv_base; own_field := revoked_field;
    set_base b r := mkRevoked b (jti r) (rv_user_id r) (rv_expires_at r) |}; solve_auth_model.
Defined.
#[export] Instance tenant_model : Model Tenant.
Proof.
  refine {| base_of := tn_base; own_field := tenant_field;
    set_base b t := mkTenant b (tenant_key t) (slug t) (tn_name t) (plan t) (status t) |}; solve_auth_model.
Defined.
#[export] Instance event_model : Model AuthEvent.
Proof.
  refine {| base_of := ev_base; own_field := event_field;
    set_base b e := mkEvent b (event_id e) (ev_type e) (ev_user_id e) (ev_email e) (ev_detail e) |}; solve_auth_model.
Defined.
#[export] Instance membership_model : Model Membership.
Proof.
  refine {| base_of := mb_base; own_field := membership_field;
    set_base b m := mkMembership b (membership_id m) (mb_user_id m) (team_id m) (mb_org_id m) (mb_role m) |}; solve_auth_model.
Defined.

(** ** Principals (models/principal.py) *)
Inductive auth_kind : Type := BySession | ByKey.
#[global] Instance auth_kind_dec : EqDecision auth_kind.
Proof. solve_decision. Defined.
Record Principal := mkPrincipal {
  p_user_id : option string; p_email : option string; p_org_id : string; p_tenant_id : string; p_role : UserRole;
  p_auth : auth_kind; p_scopes : list string; p_teams : list string; p_team_roles : dict string UserRole;
  p_key_id : option string; p_key_name : option string; p_token_id : option string }.

Definition effective_scopes (p : Principal) : list string :=
  match p_auth p with ByKey => p_scopes p | BySession => ROLE_SCOPES (p_role p) end.
Definition has_scope (s : string) (p : Principal) : bool :=
  bool_decide ("*" ∈ effective_scopes p) || bool_decide (s ∈ effective_scopes p).
Definition has_role (minimum : UserRole) (p : Principal) : bool :=
  match p_auth p with
  | ByKey => bool_decide ("*" ∈ p_scopes p)
  | BySession => ROLE_RANK minimum <=? ROLE_RANK (p_role p)
  end.

Inductive auth_error : Type :=
| InvalidCredentials | Forbidden | TooManyAttempts | InviteInvalid | AuthNotFound | Conflict | InvalidRequest
| Db (e : db_error).

(** ** The world: the collections, the audit trail, the login ledger and the supplies *)
Notation docs M := (list (string * InMemory.row M)).
Record world := mkWorld {
  users : docs User; sessions : docs SessionRecord; invites : docs Invite; keys : docs ApiKey;
  revoked : docs RevokedToken; tenants : docs Tenant; memberships : docs Membership;
  events : docs AuthEvent; attempts : dict string (list Z); ticks : nat; minted : nat; drawn : nat }.

Definition set_users x w := mkWorld x (sessions w) (invites w) (keys w) (revoked w) (tenants w) (memberships w) (events w) (attempts w) (ticks w) (minted w) (drawn w).
Definition set_sessions x w := mkWorld (users w) x (invites w) (keys w) (revoked w) (tenants w) (memberships w) (events w) (attempts w) (ticks w) (minted w) (drawn w).
Definition set_invites x w := mkWorld (users w) (sessions w) x (keys w) (revoked w) (tenants w) (memberships w) (events w) (attempts w) (ticks w) (minted w) (drawn w).
Definition set_keys x w := mkWorld (users w) (sessions w) (invites w) x (revoked w) (tenants w) (memberships w) (events w) (attempts w) (ticks w) (minted w) (drawn w).
Definition set_revoked x w := mkWorld (users w) (sessions w) (invites w) (keys w) x (tenants w) (memberships w) (events w) (attempts w) (ticks w) (minted w) (drawn w).
Definition set_memberships x w := mkWorld (users w) (sessions w) (invites w) (keys w) (revoked w) (tenants w) x (events w) (attempts w) (ticks w) (minted w) (drawn w).
Definition set_events x w := mkWorld (users w) (sessions w) (invites w) (keys w) (revoked w) (tenants w) (memberships w) x (attempts w) (ticks w) (minted w) (drawn w).
Definition set_attempts x w := mkWorld (users w) (sessions w) (invites w) (keys w) (revoked w) (tenants w) (memberships w) (events w) x (ticks w) (minted w) (drawn w).
Definition set_ticks x w := mkWorld (users w) (sessions w) (invites w) (keys w) (revoked w) (tenants w) (memberships w) (events w) (attempts w) x (minted w) (drawn w).
Definition set_minted x w := mkWorld (users w) (sessions w) (invites w) (keys w) (revoked w) (tenants w) (memberships w) (events w) (attempts w) (ticks w) x (drawn w).
Definition set_drawn x w := mkWorld (users w) (sessions w) (invites w) (keys w) (revoked w) (tenants w) (memberships w) (events w) (attempts w) (ticks w) (minted w) x.

Notation Auth := (SE world auth_error).

Definition of_db {A} (r : result db_error A) : Auth A :=
  match r with Ok a => se_ret a | Err e => se_raise (Db e) end.
Definition ask {A} (f : world -> A) : Auth A := fun w => (w, Ok (f w)).

(** Every active row, oldest first ([MongoAuthStore._all]); the page walk has one
    page more than the collection has rows. *)
Definition all_rows {M} `{Model M} (d : docs M) : list M :=
  default [] (@walk_pages M (docs M) InMemory.repository (S (length d)) [] d).

(** [_pin] and the insert that follows it; the id is never empty, so no id is drawn. *)
Definition pin_insert {M} `{Model M} (natural_id : string) (m : M) (d : docs M) : docs M :=
  (InMemory.insert "unused" (upd_base (set_id (Some natural_id)) m) d).1.

Section store.
Context (clock : nat -> Z) (secret : nat -> string) (uuid : nat -> string).

Definition utc_now : Auth Z := fun w => (set_ticks (S (ticks w)) w, Ok (clock (ticks w))).
Definition new_token : Auth string := fun w => (set_minted (S (minted w)) w, Ok (secret (minted w))).
Definition new_id (prefix : string) : Auth string :=
  fun w => (set_drawn (S (drawn w)) w, Ok (Wallet.new_id prefix (uuid (drawn w)))).

Definition save_user (u : User) : Auth unit :=
  se_modify (fun w => set_users (pin_insert (user_id u) u (users w)) w).
Definition get_user (i : string) : Auth (option User) :=
  r <- ask (fun w => InMemory.get i (users w)) ;; of_db r.
Definition get_user_by_email (e : string) : Auth (option User) :=
  ask (fun w => InMemory.find_one "email" (VStr (lower (strip e))) (users w)).
Definition list_users : Auth (list User) := ask (fun w => all_rows (users w)).
Definition count_users : Auth Z :=
  ask (fun w => pg_total (InMemory.list_where [] (mkPaginationParams 1 1) (users w))).
Definition delete_user_row (i : string) : Auth bool :=
  now <- utc_now ;;
  fun w => let (d, r) := InMemory.soft_delete now None i (users w) in
           of_db r (set_users d w).

Definition save_session (s : SessionRecord) : Auth unit :=
  se_modify (fun w => set_sessions (pin_insert (token_hash s) s (sessions w)) w).
Definition get_session (h : string) : Auth (option SessionRecord) :=
  r <- ask (fun w => InMemory.get h (sessions w)) ;; of_db r.
Definition delete_session (h : string) : Auth bool :=
  now <- utc_now ;;
  fun w => let (d, r) := InMemory.soft_delete now None h (sessions w) in
           of_db r (set_sessions d w).

(** [for session in await find_many("user_id", user_id): ...]: one read, then a
    soft delete per row of it. *)
Fixpoint delete_each (rows : list SessionRecord) (count : Z) : Auth Z :=
  match rows with
  | [] => se_ret count
  | s :: rest =>
      if opt_truthy (m_id s) then
        deleted <- delete_session (default "" (m_id s)) ;;
        delete_each rest (if (deleted : bool) then count + 1 else count)
      else delete_each rest count
  end.
Definition delete_user_sessions (i : string) : Auth Z :=
  rows <- ask (fun w => InMemory.find_many "user_id" (VStr i) MAX_PAGE_SIZE (sessions w)) ;;
  delete_each rows 0.

Definition save_invite (i : Invite) : Auth unit :=
  se_modify (fun w => set_invites (pin_insert (invite_id i) i (invites w)) w).
Definition get_invite (i : string) : Auth (option Invite) :=
  r <- ask (fun w => InMemory.get i (invites w)) ;; of_db r.
Definition get_invite_by_token_hash (h : string) : Auth (option Invite) :=
  ask (fun w => InMemory.find_one "token_hash" (VStr h) (invites w)).
Definition list_invite_rows : Auth (list Invite) := ask (fun w => all_rows (invites w)).
Definition delete_invite_row (i : string) : Auth bool :=
  now <- utc_now ;;
  fun w => let (d, r) := InMemory.soft_delete now None i (invites w) in
           of_db r (set_invites d w).

Definition get_api_key_by_hash (h : string) : Auth (option ApiKey) :=
  ask (fun w => InMemory.find_one "key_hash" (VStr h) (keys w)).
Definition save_api_key (k : ApiKey) : Auth unit :=
  se_modify (fun w => set_keys (pin_insert (key_id k) k (keys w)) w).

Definition save_revoked (r : RevokedToken) : Auth unit :=
  se_modify (fun w => set_revoked (pin_insert (jti r) r (revoked w)) w).
Definition is_revoked (i : string) : Auth bool :=
  r <- ask (fun w => InMemory.get i (revoked w)) ;;
  o <- of_db r ;; se_ret (bool_decide (is_Some o)).

Definition get_tenant (i : string) : Auth (option Tenant) :=
  r <- ask (fun w => InMemory.get i (tenants w)) ;; of_db r.
Definition get_tenant_by_slug (s : string) : Auth (option Tenant) :=
  ask (fun w => InMemory.find_one "slug" (VStr s) (tenants w)).
Definition list_memberships (i : string) : Auth (list Membership) :=
  ask (fun w => InMemory.find_many "user_id" (VStr i) MAX_PAGE_SIZE (memberships w)).
Definition save_membership (m : Membership) : Auth unit :=
  se_modify (fun w => set_memberships (pin_insert (membership_id m) m (memberships w)) w).
Definition add_auth_event (e : AuthEvent) : Auth unit :=
  se_modify (fun w => set_events (pin_insert (event_id e) e (events w)) w).
Definition newest_first (a b : AuthEvent) : bool := created_at (ev_base b) <=? created_at (ev_base a).
Definition list_auth_events (lim : Z) : Auth (list AuthEvent) :=
  ask (fun w => take (Z.to_nat (Z.max 0 lim)) (sort_by newest_first (all_rows (events w)))).
End store.

(** ** The login ledger (utils.py): attempts per address in the last minute *)
(** [timedelta(seconds=s)] in microseconds. *)
Definition seconds (s : Z) : Z := s * 1000000.
Definition LOGIN_WINDOW_S : Z := 60.
Definition LOGIN_MAX_ATTEMPTS : nat := 5.

(** [while window and now - window[0] > LOGIN_WINDOW_S: window.popleft()] *)
Fixpoint expire (now : Z) (window : list Z) : list Z :=
  match window with
  | t :: rest => if seconds LOGIN_WINDOW_S <? now - t then expire now rest else window
  | [] => []
  end.

Definition try_login_attempt (now : Z) (ip : string) (ledger : dict string (list Z)) : dict string (list Z) * bool :=
  let window := expire now (default [] (dget ip ledger)) in
  if (LOGIN_MAX_ATTEMPTS <=? length window)%nat then (dset ip window ledger, false)
  else (dset ip (window ++ [now]) ledger, true).

(** The ledger against its reference: an attempt is allowed when fewer than five of
    the attempts allowed before it are at most a window old. *)
Definition recent (now : Z) (t : Z) : bool := now - t <=? seconds LOGIN_WINDOW_S.
Definition reference_attempt (now : Z) (ip : string) (allowed : dict string (list Z)) : dict string (list Z) * bool :=
  let earlier := default [] (dget ip allowed) in
  if (length (List.filter (recent now) earlier) <? LOGIN_MAX_ATTEMPTS)%nat
  then (dset ip (earlier ++ [now]) allowed, true) else (allowed, false).

(** The answers to a sequence of attempts. *)
Fixpoint answers (attempt : Z -> string -> dict string (list Z) -> dict string (list Z) * bool)
    (events : list (Z * string)) (ledger : dict string (list Z)) : list bool :=
  match events with
  | [] => []
  | (now, ip) :: rest => let (ledger', b) := attempt now ip ledger in b :: answers attempt rest ledger'
  end.

(** On a window in time order, expiry is the filter of the recent entries. *)
Lemma expire_filter now l : StronglySorted Z.le l -> expire now l = List.filter (recent now) l.
Proof.
  induction 1 as [|t l Hl IH Ht]; [done|]. cbn [expire List.filter]. unfold recent at 1.
  destruct (Z.ltb_spec (seconds LOGIN_WINDOW_S) (now - t)) as [Hlt|Hge].
  - replace (now - t <=? seconds LOGIN_WINDOW_S) with false by (symmetry; apply Z.leb_gt; lia). done.
  - replace (now - t <=? seconds LOGIN_WINDOW_S) with true by (symmetry; apply Z.leb_le; lia). f_equal.
    symmetry. apply lfilter_id. intros x Hx. apply Z.leb_le. rewrite Forall_forall in Ht. specialize (Ht _ Hx). lia.
Qed.

(** The window holds the recent suffix of the allowed attempts, all before [last]. *)
Definition window_of (last : Z) (win all : list Z) : Prop :=
  StronglySorted Z.le all /\ (forall t, t ∈ all -> t <= last) /\
  exists old, all = old ++ win /\ forall t, t ∈ old -> recent last t = false.
Definition ledger_of (last : Z) (ledger allowed : dict string (list Z)) : Prop :=
  forall ip, window_of last (default [] (dget ip ledger)) (default [] (dget ip allowed)).

Lemma sorted_app_r (l k : list Z) : StronglySorted Z.le (l ++ k) -> StronglySorted Z.le k.
Proof. induction l as [|x l IH]; [done|]. intros H. inversion H. by apply IH. Qed.
Lemma sorted_snoc (l : list Z) x : StronglySorted Z.le l -> (forall t, t ∈ l -> t <= x) -> StronglySorted Z.le (l ++ [x]).
Proof.
  induction 1 as [|t l Hl IH Ht]; intros Hx; simpl; [repeat constructor|]. constructor.
  - apply IH. intros; apply Hx; by right.
  - apply List.Forall_app. split; [done|]. repeat constructor. apply Hx. by left.
Qed.

Lemma window_step last now win all : window_of last win all -> last <= now ->
  expire now win = List.filter (recent now) all /\ window_of now (expire now win) all.
Proof.
  intros (Hs & Hle & old & -> & Hold) Hn. rewrite expire_filter by (by eapply sorted_app_r).
  assert (List.filter (recent now) (old ++ win) = List.filter (recent now) win) as E.
  { rewrite List.filter_app, lfilter_none; [done|]. intros t Ht. specialize (Hold t Ht). unfold recent in *.
    apply Z.leb_gt in Hold. apply Z.leb_gt. lia. }
  rewrite E. split; [done|]. split_and!; [done|intros t Ht; specialize (Hle t Ht); lia|].
  rewrite <- expire_filter by (by eapply sorted_app_r).
  assert (exists cut, win = cut ++ expire now win /\ forall t, t ∈ cut -> recent now t = false) as (cut & Ew & Hcut).
  { clear. assert (forall t : Z, t ∈ [] -> recent now t = false) as Hnil by (intros t Ht; by apply elem_of_nil in Ht).
    induction win as [|t l IH]; [exists []; split; [done|exact Hnil]|]. cbn [expire]. destruct (Z.ltb_spec (seconds LOGIN_WINDOW_S) (now - t)).
    - destruct IH as (cut & E & Hc). exists (t :: cut). split; [exact (f_equal (cons t) E)|].
      intros x [->|Hx]%elem_of_cons; [apply Z.leb_gt; lia|by apply Hc].
    - exists []. split; [done|exact Hnil]. }
  exists (old ++ cut). split; [by rewrite <- app_assoc, <- Ew|]. intros t [Ht|Ht]%elem_of_app; [|by apply Hcut].
  specialize (Hold t Ht). unfold recent in *. apply Z.leb_gt in Hold. apply Z.leb_gt. lia.
Qed.

Lemma attempt_step last now ip ledger allowed : ledger_of last ledger allowed -> last <= now ->
  (try_login_attempt now ip ledger).2 = (reference_attempt now ip allowed).2 /\
  ledger_of now (try_login_attempt now ip ledger).1 (reference_attempt now ip allowed).1.
Proof.
  intros Hl Hn. unfold try_login_attempt, reference_attempt.
  destruct (window_step _ now _ _ (Hl ip) Hn) as [E Hw]. rewrite <- E.
  set (win := expire now _) in *. set (all := default [] (dget ip allowed)) in *.
  assert (forall ip', ip' <> ip -> window_of now (default [] (dget ip' ledger)) (default [] (dget ip' allowed))) as Hother.
  { intros ip' _. destruct (Hl ip') as (Hs & Hle & old & Eo & Hold). split_and!; [done|intros t Ht; specialize (Hle t Ht); lia|].
    exists old. split; [done|]. intros t Ht. specialize (Hold t Ht). unfold recent in *. apply Z.leb_gt in Hold. apply Z.leb_gt. lia. }
  rewrite Nat.ltb_antisym. destruct (Nat.leb _ _); cbn [negb fst snd]; (split; [done|]); intros ip'; rewrite !dget_dset;
    (case_decide; [subst|by apply Hother]); cbn [default from_option id]; [done|].
  destruct Hw as (Hs & Hle & old & Eo & Hold). split_and!.
  - by apply sorted_snoc.
  - intros t [Ht|<-%list_elem_of_singleton]%elem_of_app; [by apply Hle|done].
  - exists old. split; [by rewrite Eo, app_assoc|done].
Qed.

Lemma answers_agree events : forall last ledger allowed, ledger_of last ledger allowed ->
  Forall (Z.le last) (map fst events) -> StronglySorted Z.le (map fst events) ->
  answers try_login_attempt events ledger = answers reference_attempt events allowed.
Proof.
  induction events as [|[now ip] events IH]; intros last ledger allowed Hl Hlast Hs; [done|].
  inversion Hlast; subst. inversion Hs; subst. cbn [answers].
  destruct (attempt_step last now ip ledger allowed Hl) as [E Hnext]; [done|].
  destruct (try_login_attempt _ _ _) as [l1 b1], (reference_attempt _ _ _) as [l2 b2]. cbn in E, Hnext. subst.
  f_equal. by apply (IH now).
Qed.

(** Along attempts whose clock readings never go back, the limiter answers like its
    reference: an address gets through exactly when fewer than five of the attempts it
    was allowed before are at most sixty seconds old, whatever other addresses do. *)
Theorem limiter_meets_reference events :
  StronglySorted Z.le (map fst events) ->
  answers try_login_attempt events [] = answers reference_attempt events [].
Proof.
  destruct events as [|[t0 ip0] rest]; [done|]. intros Hs. apply (answers_agree _ t0); [|constructor|done].
  - intros ip. split_and!; [constructor|intros t Ht; by apply elem_of_nil in Ht|]. exists []. split; [done|intros t Ht; by apply elem_of_nil in Ht].
  - done.
  - by inversion Hs.
Qed.

Lemma limiter_meets_reference_witness :
  answers try_login_attempt [(0, "a"); (1, "a"); (2, "b"); (3, "a"); (4, "a"); (5, "a"); (6, "a"); (60000002, "a")] [] =
  [true; true; true; true; true; true; false; true].
Proof. rewrite limiter_meets_reference; [reflexivity|repeat constructor; done]. Defined.
