(* ===== verification/Auth.v ===== *)
(** * Authentication: credentials, sessions and user administration
    (src/voiceai/modules/auth: static_methods.py, service_base.py, service.py,
    service_admin.py, services/token_service.py)

    The service over the store of [AuthStore]. SHA-256, PBKDF2 and the JWT library
    are arguments: [token_digest], [pbkdf2], [jwt_encode], [jwt_decode] (which checks
    signature, issuer, audience and lifetime at the clock reading it is given). The
    JWT settings are present, as in a deployment that issues token pairs. *)
From S2P Require Import Prelude PyText PyVal Pagination Repository Wallet AuthStore.
Open Scope Z_scope.
Open Scope voice_scope.

Definition SESSION_TTL_S : Z := 7 * 24 * 3600.
Definition REMEMBER_TTL_S : Z := 30 * 24 * 3600.
Definition WS_TICKET_TTL_S : Z := 60.
Definition INVITE_TTL_S : Z := 7 * 24 * 3600.
Definition DEFAULT_TENANT_ID : string := "default".
Definition PBKDF2_ITERATIONS : Z := 600000.

Record JwtSettings := mkJwt { issuer : string; audience : string; access_ttl_s : Z; refresh_ttl_s : Z }.
Record SessionTokens := mkTokens { legacy_token : string; access_token : string; refresh_token : string }.

(** [s.partition(" ")]: the part before the first space and the part after it. *)
Fixpoint partition_space (l : text) : text * text :=
  match l with
  | [] => ([], [])
  | c :: l' => if bool_decide (c = " "%char) then ([], l') else let (a, b) := partition_space l' in (c :: a, b)
  end.
Definition count_char (c : ascii) (s : string) : nat := length (filter (fun d => d = c) (chars s)).

Module Auth.
Section service.
Context (clock : nat -> Z) (secret salt_hex uuid : nat -> string).
Context (token_digest : string -> string) (pbkdf2 : string -> string -> Z -> option string).
Context (jwt_encode : dict string val -> string) (jwt_decode : Z -> string -> option (dict string val)).
Context (jwt : JwtSettings).

Notation utc_now := (utc_now clock).
Notation new_token := (new_token secret).
Notation new_id := (AuthStore.new_id uuid).
Notation delete_session := (AuthStore.delete_session clock).
Notation delete_user_sessions := (AuthStore.delete_user_sessions clock).

Definition guard (b : bool) (e : auth_error) : Auth unit := if b then se_ret tt else se_raise e.

(** ** Passwords *)
Definition new_salt : Auth string := fun w => (set_minted (S (minted w)) w, Ok (salt_hex (minted w))).

(** The digest of the password under the salt, both as hexadecimal text. *)
Definition hash_password (password : string) : Auth string :=
  salt <- new_salt ;;
  match pbkdf2 password salt PBKDF2_ITERATIONS with
  | Some digest => se_ret ("pbkdf2_sha256$" +:+ str_of_Z PBKDF2_ITERATIONS +:+ "$" +:+ salt +:+ "$" +:+ digest)
  | None => se_raise InvalidRequest
  end.

Definition verify_password (password reference : string) : bool :=
  match split_on "$"%char reference with
  | [algo; iterations; salt; digest] =>
      if bool_decide (algo = "pbkdf2_sha256") then
        match int_text iterations with
        | Some n => bool_decide (pbkdf2 password salt n = Some digest)
        | None => false
        end
      else false
  | _ => false
  end.

(** ** Kernel (service_base.py) *)
Definition ensure_same_org (row_org : string) (p : Principal) : Auth unit :=
  guard (bool_decide (row_org = p_org_id p)) AuthNotFound.
Definition ensure_same_tenant (row_tenant : option string) (p : Principal) : Auth unit :=
  guard (bool_decide (row_tenant = Some (p_tenant_id p))) AuthNotFound.
Definition require_owner (p : Principal) : Auth Principal :=
  guard (has_role owner p) Forbidden ;;; se_ret p.

Definition session_row (now : Z) (h user org : string) (tenant : option string) (k : SessionKind) (expires version : Z) : SessionRecord :=
  mkSession (set_tenant tenant (base_default now None)) h user org k expires version.

Definition new_session (user org : string) (ttl_s : Z) (k : SessionKind) (tenant : option string) : Auth string :=
  token <- new_token ;;
  now <- utc_now ;;
  save_session (session_row now (token_digest token) user org tenant k (now + seconds ttl_s) 0) ;;;
  se_ret token.

Definition default_tenant_hex : Auth (option string) :=
  t <- get_tenant_by_slug "default" ;; se_ret (tenant_key <$> t).

Definition resolve_tenancy (u : User) : Auth (string * list string * dict string UserRole) :=
  ms <- list_memberships (user_id u) ;;
  se_ret (match m_tenant u with Some t => if str_true t then t else DEFAULT_TENANT_ID | None => DEFAULT_TENANT_ID end,
          map team_id ms, foldl (fun d m => dset (team_id m) (mb_role m) d) [] ms).

Definition tenant_is_suspended (u : User) : Auth bool :=
  match m_tenant u with
  | None => se_ret false
  | Some t => r <- get_tenant t ;; se_ret (match r with Some t => bool_decide (status t = suspended) | None => false end)
  end.

Definition version_of (u : User) : Z := token_version u.
Definition set_version (v : Z) (u : User) : User :=
  mkUser (us_base u) (user_id u) (email u) (us_name u) (password_hash u) (role u) (org_id u) (disabled u) (last_login_at u) v.
Definition bump_version (u : User) : User := set_version (version_of u + 1) u.

(** [issue_access_token] and the refresh row stored beside it. *)
Definition new_jwt_pair (u : User) : Auth (string * string) :=
  moment <- utc_now ;;
  jti <- new_token ;;
  let issued := Z.quot moment 1000000 in
  let access := jwt_encode [("sub", VStr (user_id u)); ("org", VStr (org_id u)); ("role", VStr (role_str (role u)));
    ("ver", VInt (version_of u)); ("jti", VStr jti); ("iss", VStr (issuer jwt)); ("aud", VStr (audience jwt)); ("iat", VInt issued); ("exp", VInt (issued + access_ttl_s jwt))] in
  refresh <- new_token ;;
  save_session (session_row moment (token_digest refresh) (user_id u) (org_id u) None KRefresh
                  (moment + seconds (refresh_ttl_s jwt)) (token_version u)) ;;;
  se_ret (access, refresh).

(** [audit]: whatever fails inside is logged and dropped. *)
Definition audit (type : string) (user mail what : option string) : Auth unit := fun w =>
  let write : Auth unit :=
    tenant <- match user with
              | None => se_ret None
              | Some i => subject <- get_user i ;;
                          se_ret (match subject with
                                  | Some u => match m_tenant u with
                                              | Some t => if str_true t then Some t else Some (org_id u)
                                              | None => Some (org_id u)
                                              end
                                  | None => None
                                  end)
              end ;;
    i <- new_id "evt" ;;
    now <- utc_now ;;
    add_auth_event (mkEvent (set_tenant tenant (base_default now None)) i type user mail what) in
  ((write w).1, Ok tt).

(** ** Credential resolvers (service.py) *)
Definition session_principal (u : User) (token_id : option string) : Auth Principal :=
  t <- resolve_tenancy u ;;
  se_ret (mkPrincipal (Some (user_id u)) (Some (email u)) (org_id u) t.1.1 (role u) BySession [] t.1.2 t.2 None None token_id).

(** The user row behind a credential, when it is live. *)
Definition live_user (i : string) (also : User -> bool) : Auth (option User) :=
  u <- get_user i ;;
  match u with
  | Some u =>
      if disabled u || negb (also u) then se_ret None
      else s <- tenant_is_suspended u ;; se_ret (if (s : bool) then None else Some u)
  | None => se_ret None
  end.

Definition principal_from_session (token : option string) : Auth (option Principal) :=
  match token with
  | None => se_ret None
  | Some token =>
      if negb (str_true token) then se_ret None else
      s <- get_session (token_digest token) ;;
      match s with
      | Some s =>
          if negb (bool_decide (kind s = KSession)) then se_ret None
          else u <- live_user (ss_user_id s) (fun _ => true) ;;
               match u with
               | Some u => p <- session_principal u None ;; se_ret (Some p)
               | None => se_ret None
               end
      | None => se_ret None
      end
  end.

Definition touch_key (now : Z) (k : ApiKey) : ApiKey :=
  mkApiKey (ak_base k) (key_id k) (ak_name k) (prefix k) (key_hash k) (ak_scopes k) (ak_expires_at k) (Some now).

Definition principal_from_api_key (s : string) : Auth (option Principal) :=
  if negb (str_true s) then se_ret None else
  k <- get_api_key_by_hash (token_digest s) ;;
  match k with
  | None => se_ret None
  | Some k =>
      if negb (opt_truthy (key_hash k)) then se_ret None else
      expired <- match ak_expires_at k with
                 | Some e => now <- utc_now ;; se_ret (e <? now)
                 | None => se_ret false
                 end ;;
      if (expired : bool) then se_ret None else
      now <- utc_now ;;
      save_api_key (touch_key now k) ;;;
      u <- match created_by (ak_base k) with
           | Some i => if str_true i then live_user i (fun _ => true) else se_ret None
           | None => se_ret None
           end ;;
      match u with
      | None => se_ret None
      | Some u =>
          t <- resolve_tenancy u ;;
          se_ret (Some (mkPrincipal (created_by (ak_base k)) (Some (email u)) (org_id u) t.1.1 viewer ByKey (ak_scopes k)
                          t.1.2 t.2 (Some (key_id k)) (Some (ak_name k)) None))
      end
  end.

(** [verify_access_token]: the decoded claims when their types are right. *)
Definition claim_version (v : val) : option Z :=
  match v with VInt z => Some z | VBool b => Some (if b then 1 else 0) | _ => None end.
Definition verify_access_token (now : Z) (token : string) : option (string * string * Z) :=
  match jwt_decode now token with
  | None => None
  | Some c =>
      match dget "sub" c, dget "jti" c, dget "ver" c with
      | Some (VStr sub), Some (VStr j), Some v => match claim_version v with Some n => Some (sub, j, n) | None => None end
      | _, _, _ => None
      end
  end.

Definition principal_from_jwt_token (s : string) : Auth (option Principal) :=
  now <- utc_now ;;
  match verify_access_token now s with
  | None => se_ret None
  | Some (sub, j, ver) =>
      denied <- is_revoked j ;;
      if (denied : bool) then se_ret None
      else u <- live_user sub (fun u => version_of u =? ver) ;;
           match u with
           | Some u => p <- session_principal u (Some j) ;; se_ret (Some p)
           | None => se_ret None
           end
  end.

(** [authenticate]: the session cookie, then the bearer slot. *)
Definition bearer_secret (authorization : option string) : option string :=
  match authorization with
  | Some a =>
      let (scheme, rest) := partition_space (chars a) in
      if bool_decide (lower (of_chars scheme) = "bearer") && str_true (of_chars rest)
      then Some (strip (of_chars rest)) else None
  | None => None
  end.

Definition authenticate (session_token authorization : option string) : Auth Principal :=
  p <- principal_from_session session_token ;;
  p <- match p, bearer_secret authorization with
       | Some p, _ => se_ret (Some p)
       | None, Some s => if (count_char "."%char s =? 2)%nat then principal_from_jwt_token s else principal_from_api_key s
       | None, None => se_ret None
       end ;;
  match p with Some p => se_ret p | None => se_raise InvalidCredentials end.

(** ** Entry points *)
Definition check_limiter (ip : string) : Auth unit :=
  now <- utc_now ;;
  fun w => let (ledger, allowed) := try_login_attempt now ip (attempts w) in
           guard allowed TooManyAttempts (set_attempts ledger w).

Definition issue_pair (u : User) (ttl_s : Z) : Auth SessionTokens :=
  legacy <- new_session (user_id u) (org_id u) ttl_s KSession (m_tenant u) ;;
  pair <- new_jwt_pair u ;;
  se_ret (mkTokens legacy pair.1 pair.2).

Definition new_user (now : Z) (i mail : string) (n : option string) (pw : string) (r : UserRole) (org : string) (tenant : option string) : User :=
  mkUser (set_tenant tenant (base_default now (Some i))) i mail n pw r org false None 0.

Definition signup (mail : string) (n : option string) (password : string) : Auth (User * SessionTokens) :=
  c <- count_users ;;
  guard (c <=? 0) Forbidden ;;;
  taken <- get_user_by_email (lower (strip mail)) ;;
  guard (negb (bool_decide (is_Some taken))) Conflict ;;;
  i <- new_id "usr" ;;
  pw <- hash_password password ;;
  tenant <- default_tenant_hex ;;
  now <- utc_now ;;
  let u := new_user now i (lower (strip mail)) n pw owner "default" tenant in
  save_user u ;;;
  tokens <- issue_pair u SESSION_TTL_S ;;
  audit "signup" (Some (user_id u)) (Some (email u)) (Some "first user (owner)") ;;;
  se_ret (u, tokens).

Definition set_last_login (now : Z) (u : User) : User :=
  mkUser (us_base u) (user_id u) (email u) (us_name u) (password_hash u) (role u) (org_id u) (disabled u) (Some now) (token_version u).

Definition login (mail password : string) (remember : bool) (ip : string) : Auth (User * SessionTokens) :=
  check_limiter ip ;;;
  u <- get_user_by_email mail ;;
  match u with
  | Some u =>
      if disabled u || negb (verify_password password (password_hash u))
      then audit "login_failed" None (Some (lower (strip mail))) None ;;; se_raise InvalidCredentials
      else
        tokens <- issue_pair u (if remember then REMEMBER_TTL_S else SESSION_TTL_S) ;;
        now <- utc_now ;;
        let u := set_last_login now u in
        save_user u ;;;
        audit "login" (Some (user_id u)) (Some (email u)) None ;;;
        se_ret (u, tokens)
  | None => audit "login_failed" None (Some (lower (strip mail))) None ;;; se_raise InvalidCredentials
  end.

Definition quarantine_user (u : User) : Auth unit :=
  save_user (bump_version u) ;;; delete_user_sessions (user_id u) ;;; se_ret tt.

Definition refresh (token : option string) (ip : string) : Auth (User * SessionTokens) :=
  check_limiter ip ;;;
  match token with
  | None => se_raise InvalidCredentials
  | Some t =>
      if negb (str_true t) then se_raise InvalidCredentials else
      row <- get_session (token_digest t) ;;
      match row with
      | None => audit "refresh_failed" None None (Some "unknown digest") ;;; se_raise InvalidCredentials
      | Some row =>
          if negb (bool_decide (kind row = KRefresh))
          then audit "refresh_failed" None None (Some "unknown digest") ;;; se_raise InvalidCredentials
          else
            now <- utc_now ;;
            if expires_at row <? now then delete_session (token_hash row) ;;; se_raise InvalidCredentials
            else
              u <- get_user (ss_user_id row) ;;
              match u with
              | None => audit "refresh_reuse_detected" (Some (ss_user_id row)) None None ;;; se_raise InvalidCredentials
              | Some u =>
                  if disabled u || negb (version_of u =? ss_version row)
                  then quarantine_user u ;;;
                       audit "refresh_reuse_detected" (Some (ss_user_id row)) None None ;;; se_raise InvalidCredentials
                  else
                    delete_session (token_hash row) ;;;
                    tokens <- issue_pair u SESSION_TTL_S ;;
                    audit "refresh" (Some (user_id u)) (Some (email u)) None ;;;
                    se_ret (u, tokens)
              end
      end
  end.

Definition logout (session_token refresh_token : option string) (p : option Principal) : Auth unit :=
  match session_token with
  | Some t => if str_true t then delete_session (token_digest t) ;;; se_ret tt else se_ret tt
  | None => se_ret tt end ;;;
  match refresh_token with
  | Some t => if str_true t then delete_session (token_digest t) ;;; se_ret tt else se_ret tt
  | None => se_ret tt end ;;;
  match p with
  | Some p =>
      match p_token_id p with
      | Some j => if str_true j then
                    now <- utc_now ;;
                    save_revoked (mkRevoked (base_default now None) j (default "" (p_user_id p)) (now + seconds (access_ttl_s jwt)))
                  else se_ret tt
      | None => se_ret tt
      end ;;;
      if opt_truthy (p_user_id p) then audit "logout" (p_user_id p) (p_email p) None else se_ret tt
  | None => se_ret tt
  end.

Definition me (p : Principal) : Auth (User * list string) :=
  if negb (bool_decide (p_auth p = BySession)) || negb (opt_truthy (p_user_id p)) then se_raise InvalidCredentials else
  u <- get_user (default "" (p_user_id p)) ;;
  match u with
  | Some u =>
      if disabled u then se_raise InvalidCredentials else
      match m_tenant u with
      | Some t => ensure_same_tenant (Some t) p
      | None => ensure_same_org (org_id u) p
      end ;;;
      se_ret (u, effective_scopes p)
  | None => se_raise InvalidCredentials
  end.

Definition redeem_ticket (ticket : option string) : Auth (option Principal) :=
  match ticket with
  | None => se_ret None
  | Some t =>
      if negb (str_true t) then se_ret None else
      s <- get_session (token_digest t) ;;
      match s with
      | None => se_ret None
      | Some s =>
          delete_session (token_hash s) ;;;
          if negb (bool_decide (kind s = KTicket)) || negb (str_true (ss_user_id s)) then se_ret None else
          now <- utc_now ;;
          if expires_at s <? now then se_ret None else
          u <- live_user (ss_user_id s) (fun _ => true) ;;
          match u with
          | Some u => p <- session_principal u None ;; se_ret (Some p)
          | None => se_ret None
          end
      end
  end.

Definition mint_ticket (p : Principal) : Auth string :=
  guard (has_scope "calls:write" p) Forbidden ;;;
  new_session (default "" (p_user_id p)) (p_org_id p) WS_TICKET_TTL_S KTicket (Some (p_tenant_id p)).

(** ** User administration (service_admin.py) *)
Definition invite (p : Principal) (mail : string) (n : option string) (r : UserRole) : Auth (Invite * string) :=
  guard (has_role admin p) Forbidden ;;;
  guard (negb ((bool_decide (r = owner) || bool_decide (r = admin)) && negb (bool_decide (p_role p = owner)))) Forbidden ;;;
  taken <- get_user_by_email (lower (strip mail)) ;;
  guard (negb (bool_decide (is_Some taken))) Conflict ;;;
  token <- new_token ;;
  i <- new_id "inv" ;;
  now <- utc_now ;;
  let row := mkInvite (set_tenant (Some (p_tenant_id p)) (mkBaseFields (Some i) None now now (p_user_id p) None true []))
               i (lower (strip mail)) n r (p_org_id p) (token_digest token) (now + seconds INVITE_TTL_S) false in
  save_invite row ;;;
  audit "invite" (p_user_id p) (p_email p) (Some (in_email row +:+ " as " +:+ role_str r)) ;;;
  se_ret (row, token).

Definition set_accepted (i : Invite) : Invite :=
  mkInvite (in_base i) (invite_id i) (in_email i) (in_name i) (in_role i) (in_org_id i) (in_token_hash i) (in_expires_at i) true.
Definition set_member (i : string) (m : Membership) : Membership :=
  mkMembership (mb_base m) (membership_id m) i (team_id m) (mb_org_id m) (mb_role m).
Fixpoint claim_all (i : string) (ms : list Membership) : Auth unit :=
  match ms with
  | [] => se_ret tt
  | m :: rest => save_membership (set_member i m) ;;; claim_all i rest
  end.

Definition accept_invite (token : string) (n : option string) (password : string) : Auth (User * SessionTokens) :=
  matched <- get_invite_by_token_hash (token_digest token) ;;
  match matched with
  | None => se_raise InviteInvalid
  | Some live =>
      if accepted live then se_raise InviteInvalid else
      now <- utc_now ;;
      guard (negb (in_expires_at live <? now)) InviteInvalid ;;;
      taken <- get_user_by_email (in_email live) ;;
      guard (negb (bool_decide (is_Some taken))) Conflict ;;;
      i <- new_id "usr" ;;
      pw <- hash_password password ;;
      now <- utc_now ;;
      let u := new_user now i (in_email live) (if opt_truthy n then n else in_name live) pw (in_role live) (in_org_id live) (m_tenant live) in
      save_user u ;;;
      save_invite (set_accepted live) ;;;
      pending <- list_memberships (in_email live) ;;
      claim_all (user_id u) pending ;;;
      tokens <- issue_pair u SESSION_TTL_S ;;
      audit "invite_accepted" (Some (user_id u)) (Some (email u)) (Some ("as " +:+ role_str (role u))) ;;;
      se_ret (u, tokens)
  end.

Definition list_invites (p : Principal) : Auth (list Invite) :=
  guard (has_role admin p) Forbidden ;;;
  rows <- list_invite_rows ;;
  se_ret (List.filter (fun i => negb (accepted i) && bool_decide (in_org_id i = p_org_id p)) rows).

Definition delete_invite (p : Principal) (i : string) : Auth unit :=
  guard (has_role admin p) Forbidden ;;;
  row <- get_invite i ;;
  match row with
  | None => se_raise AuthNotFound
  | Some row =>
      ensure_same_org (in_org_id row) p ;;;
      delete_invite_row clock i ;;;
      audit "invite_revoked" (p_user_id p) (p_email p) (Some i)
  end.

Definition list_users (p : Principal) : Auth (list User) :=
  guard (has_role admin p) Forbidden ;;;
  rows <- AuthStore.list_users ;;
  se_ret (List.filter (fun u => bool_decide (org_id u = p_org_id p)) rows).

Definition active_owner (org : string) (u : User) : bool :=
  bool_decide (role u = owner) && negb (disabled u) && bool_decide (org_id u = org).

Definition assert_last_owner_safe (target : User) : Auth unit :=
  if negb (bool_decide (role target = owner)) || disabled target then se_ret tt
  else rows <- AuthStore.list_users ;;
       guard (negb (Nat.leb (length (List.filter (active_owner (org_id target)) rows)) 1)) InvalidRequest.

Definition set_role (r : UserRole) (u : User) : User :=
  mkUser (us_base u) (user_id u) (email u) (us_name u) (password_hash u) r (org_id u) (disabled u) (last_login_at u) (token_version u).

(** The checks [set_user_role] and [delete_user] share: the target they clear. *)
Definition administer (p : Principal) (target_id : string) : Auth User :=
  actor <- require_owner p ;;
  target <- get_user target_id ;;
  match target with
  | None => se_raise AuthNotFound
  | Some target =>
      ensure_same_org (org_id target) p ;;;
      guard (negb (bool_decide (Some (user_id target) = p_user_id actor))) InvalidRequest ;;;
      assert_last_owner_safe target ;;;
      se_ret target
  end.

Definition set_user_role (p : Principal) (target_id : string) (r : UserRole) : Auth User :=
  target <- administer p target_id ;;
  let target := bump_version (set_role r target) in
  save_user target ;;;
  delete_user_sessions target_id ;;;
  audit "role_change" (p_user_id p) (p_email p) (Some (email target +:+ " -> " +:+ role_str r)) ;;;
  se_ret target.

Definition delete_user (p : Principal) (target_id : string) : Auth unit :=
  target <- administer p target_id ;;
  delete_user_sessions target_id ;;;
  delete_user_row clock target_id ;;;
  audit "user_deleted" (p_user_id p) (p_email p) (Some (email target)).

Definition set_password (h : string) (u : User) : User :=
  mkUser (us_base u) (user_id u) (email u) (us_name u) h (role u) (org_id u) (disabled u) (last_login_at u) (token_version u).

Definition change_password (p : Principal) (current new : string) : Auth SessionTokens :=
  if negb (bool_decide (p_auth p = BySession)) || negb (opt_truthy (p_user_id p)) then se_raise Forbidden else
  u <- get_user (default "" (p_user_id p)) ;;
  match u with
  | None => se_raise InvalidCredentials
  | Some u =>
      if negb (verify_password current (password_hash u)) then se_raise InvalidCredentials else
      pw <- hash_password new ;;
      let u := bump_version (set_password pw u) in
      save_user u ;;;
      delete_user_sessions (user_id u) ;;;
      tokens <- issue_pair u SESSION_TTL_S ;;
      audit "password_change" (Some (user_id u)) (Some (email u)) None ;;;
      se_ret tokens
  end.

(** [list_auth_events] answers the newest hundred, which [auth_events] filters. *)
Definition auth_events (p : Principal) : Auth (list AuthEvent) :=
  guard (has_role admin p) Forbidden ;;;
  rows <- list_auth_events 100 ;;
  se_ret (List.filter (fun e => bool_decide (m_tenant e = Some (p_tenant_id p))) rows).

(** ** Histories of requests *)
Inductive request : Type :=
| RSignup (mail : string) (n : option string) (password : string)
| RLogin (mail password : string) (remember : bool) (ip : string)
| RRefresh (token : option string) (ip : string)
| RLogout (session_token refresh_token : option string) (p : option Principal)
| RAuthenticate (session_token authorization : option string)
| RMe (p : Principal)
| RRedeem (ticket : option string)
| RMint (p : Principal)
| RInvite (p : Principal) (mail : string) (n : option string) (r : UserRole)
| RAccept (token : string) (n : option string) (password : string)
| RListInvites (p : Principal)
| RDeleteInvite (p : Principal) (i : string)
| RListUsers (p : Principal)
| RSetRole (p : Principal) (i : string) (r : UserRole)
| RDeleteUser (p : Principal) (i : string)
| RChangePassword (p : Principal) (current new : string)
| REvents (p : Principal).

Definition discard {A} (c : Auth A) : Auth unit := c ;;; se_ret tt.
Definition perform (r : request) : Auth unit :=
  match r with
  | RSignup m n pw => discard (signup m n pw)
  | RLogin m pw b ip => discard (login m pw b ip)
  | RRefresh t ip => discard (refresh t ip)
  | RLogout s t p => logout s t p
  | RAuthenticate s a => discard (authenticate s a)
  | RMe p => discard (me p)
  | RRedeem t => discard (redeem_ticket t)
  | RMint p => discard (mint_ticket p)
  | RInvite p m n r => discard (invite p m n r)
  | RAccept t n pw => discard (accept_invite t n pw)
  | RListInvites p => discard (list_invites p)
  | RDeleteInvite p i => delete_invite p i
  | RListUsers p => discard (list_users p)
  | RSetRole p i r => discard (set_user_role p i r)
  | RDeleteUser p i => delete_user p i
  | RChangePassword p a b => discard (change_password p a b)
  | REvents p => discard (auth_events p)
  end.
(** The world after the requests, each answered before the next one starts. *)
Definition perform_all (rs : list request) (w : world) : world := foldl (fun w r => (perform r w).1) w rs.

(** ** What a history keeps, from what its session writes keep *)
(** Kept by every change that leaves the users and the sessions alone, by filing a
    session under a token minted for it, and by deleting a session. *)
Definition closed (I : world -> Prop) : Prop :=
  (forall w w', sessions w' = sessions w -> users w' = users w -> (minted w <= minted w')%nat ->
     (drawn w <= drawn w')%nat -> I w -> I w') /\
  (forall w s, token_hash s = token_digest (secret (minted w)) -> I w ->
     I (set_sessions (pin_insert (token_hash s) s (sessions w)) (set_minted (S (minted w)) w))) /\
  (forall now i w, I w -> I (set_sessions (InMemory.soft_delete now None i (sessions w)).1 w)).

Section keeps.
Context (I : world -> Prop) (Hclosed : closed I).
Let frame := proj1 Hclosed.
Let mint := proj1 (proj2 Hclosed).
Let delete := proj2 (proj2 Hclosed).

Lemma keeps_frame {A} (c : Auth A) :
  (forall w, sessions (c w).1 = sessions w /\ users (c w).1 = users w /\ (minted w <= minted (c w).1)%nat /\
     (drawn w <= drawn (c w).1)%nat) -> preserves I c.
Proof. intros Hc w Hw. destruct (Hc w) as (?&?&?&?). by apply (frame w). Qed.
Lemma keeps_ask {A} (f : world -> A) : preserves I (ask f).
Proof. by intros w. Qed.
Lemma keeps_of_db {A} (r : result db_error A) : preserves I (of_db r : Auth A).
Proof. destruct r; by intros w. Qed.
Lemma keeps_guard b e : preserves I (guard b e).
Proof. destruct b; by intros w. Qed.
Lemma keeps_ensure (b : bool) e {A} (a : A) : preserves I (if b then se_ret a else se_raise e : Auth A).
Proof. destruct b; by intros w. Qed.

Ltac by_frame := apply keeps_frame; intros w; simpl; split_and!; done || lia.
Lemma keeps_utc_now : preserves I utc_now. Proof. by_frame. Qed.
Lemma keeps_new_token : preserves I new_token. Proof. by_frame. Qed.
Lemma keeps_new_id s : preserves I (new_id s). Proof. by_frame. Qed.
Lemma keeps_new_salt : preserves I new_salt. Proof. by_frame. Qed.
Lemma keeps_save_invite i : preserves I (save_invite i). Proof. by_frame. Qed.
Lemma keeps_save_key k : preserves I (save_api_key k). Proof. by_frame. Qed.
Lemma keeps_save_revoked k : preserves I (save_revoked k). Proof. by_frame. Qed.
Lemma keeps_save_membership m : preserves I (save_membership m). Proof. by_frame. Qed.
Lemma keeps_add_event e : preserves I (add_auth_event e). Proof. by_frame. Qed.
Lemma keeps_check_limiter ip : preserves I (check_limiter ip).
Proof.
  apply preserves_bind; [apply keeps_utc_now|]. intros now. apply keeps_frame. intros w.
  destruct (try_login_attempt _ _ _) as [l [|]]; simpl; split_and!; done || lia.
Qed.
Lemma keeps_delete_invite_row i : preserves I (delete_invite_row clock i).
Proof.
  apply preserves_bind; [apply keeps_utc_now|]. intros now. apply keeps_frame. intros w.
  destruct (InMemory.soft_delete _ _ _ _) as [d [?|?]]; simpl; split_and!; done || lia.
Qed.
Lemma keeps_delete_session h : preserves I (delete_session h).
Proof.
  apply preserves_bind; [apply keeps_utc_now|]. intros now w Hw. pose proof (delete now h w Hw) as Hd.
  destruct (InMemory.soft_delete _ _ _ _) as [d [?|?]]; done.
Qed.
Hint Resolve keeps_ask keeps_of_db keeps_guard keeps_utc_now keeps_new_token keeps_new_id keeps_new_salt
  keeps_save_invite keeps_save_key keeps_save_revoked keeps_save_membership keeps_add_event
  keeps_check_limiter keeps_delete_invite_row keeps_delete_session : keeps.

(** Follow the code: binds, then the branches, then the calls. *)
Ltac keeps :=
  repeat first
    [ progress auto with keeps nocore
    | apply preserves_ret | apply preserves_raise
    | apply preserves_bind; [|intros ?]
    | match goal with |- preserves _ (match ?x with _ => _ end) => destruct x end ].

Lemma keeps_new_session u o ttl k t : preserves I (new_session u o ttl k t).
Proof.
  intros w Hw. unfold new_session, se_bind. simpl.
  set (s := session_row _ _ _ _ _ _ _ _).
  pose proof (mint w s eq_refl Hw) as Hm. revert Hm. apply frame; simpl; done || lia.
Qed.
Lemma keeps_jwt_pair u : preserves I (new_jwt_pair u).
Proof.
  intros w Hw. unfold new_jwt_pair, se_bind. simpl.
  set (s := session_row _ _ _ _ _ _ _ _).
  assert (I (set_minted (S (minted w)) w)) as H1 by (revert Hw; apply frame; simpl; done || lia).
  pose proof (mint (set_minted (S (minted w)) w) s eq_refl H1) as Hm. revert Hm. apply frame; simpl; done || lia.
Qed.
Lemma keeps_delete_each rows : forall n, preserves I (delete_each clock rows n).
Proof. induction rows as [|s rows IH]; intros n; simpl; keeps. Qed.
Hint Resolve keeps_new_session keeps_jwt_pair keeps_delete_each : keeps.
Lemma keeps_sweep i : preserves I (delete_user_sessions i). Proof. unfold AuthStore.delete_user_sessions. keeps. Qed.
Lemma keeps_get_user i : preserves I (get_user i). Proof. unfold get_user. keeps. Qed.
Lemma keeps_get_tenant i : preserves I (get_tenant i). Proof. unfold get_tenant. keeps. Qed.
Hint Resolve keeps_sweep keeps_get_user keeps_get_tenant : keeps.
Lemma keeps_audit t u m d : preserves I (audit t u m d).
Proof.
  unfold audit. intros w Hw. simpl.
  match goal with |- I ((?c w).1) => enough (preserves I c) as Hc by (by apply Hc) end. keeps.
Qed.
Lemma keeps_live_user i f : preserves I (live_user i f). Proof. unfold live_user, tenant_is_suspended. keeps. Qed.
Lemma keeps_session_principal u t : preserves I (session_principal u t).
Proof. unfold session_principal, resolve_tenancy, list_memberships. keeps. Qed.
Lemma keeps_issue_pair u t : preserves I (issue_pair u t). Proof. unfold issue_pair. keeps. Qed.
Lemma keeps_hash_password s : preserves I (hash_password s). Proof. unfold hash_password. keeps. Qed.
Lemma keeps_claim_all i ms : preserves I (claim_all i ms).
Proof. induction ms as [|m ms IH]; simpl; keeps. Qed.
Hint Resolve keeps_audit keeps_live_user keeps_session_principal keeps_issue_pair keeps_hash_password keeps_claim_all : keeps.

(** The requests that never write a user. *)
Definition quiet (r : request) : bool :=
  match r with
  | RSignup _ _ _ | RLogin _ _ _ _ | RRefresh _ _ | RAccept _ _ _ | RSetRole _ _ _ | RDeleteUser _ _ | RChangePassword _ _ _ => false
  | _ => true
  end.
Ltac unfold_request :=
  unfold discard, signup, login, refresh, quarantine_user, logout, authenticate, principal_from_session, principal_from_api_key,
    principal_from_jwt_token, resolve_tenancy, me, redeem_ticket, mint_ticket, invite, accept_invite, list_invites,
    delete_invite, list_users, set_user_role, delete_user, administer, require_owner, assert_last_owner_safe,
    change_password, auth_events, list_auth_events, ensure_same_org, ensure_same_tenant, get_invite, list_memberships, AuthStore.list_users,
    list_invite_rows, get_invite_by_token_hash, get_user_by_email, count_users, get_session, is_revoked,
    get_api_key_by_hash, default_tenant_hex, get_tenant_by_slug.
Lemma keeps_quiet r : quiet r = true -> preserves I (perform r).
Proof. destruct r; intros Hr; try discriminate Hr; cbn [perform]; unfold_request; keeps. Qed.

(** Invariants that say nothing of the users. *)
Context (Husers : forall w d, I w -> I (set_users d w)).
Lemma keeps_save_user u : preserves I (save_user u).
Proof. intros w Hw. by apply Husers. Qed.
Lemma keeps_delete_user_row i : preserves I (delete_user_row clock i).
Proof.
  apply preserves_bind; [by apply keeps_utc_now|]. intros now w Hw.
  destruct (InMemory.soft_delete _ _ _ _) as [d [?|?]]; by apply Husers.
Qed.
Hint Resolve keeps_save_user keeps_delete_user_row : keeps.

Lemma keeps_perform r : preserves I (perform r).
Proof. destruct r; cbn [perform]; unfold_request; keeps. Qed.

Lemma keeps_perform_all rs w : I w -> I (perform_all rs w).
Proof.
  unfold perform_all. revert w. induction rs as [|r rs IH]; intros w Hw; [done|].
  cbn [foldl]. by apply IH, keeps_perform.
Qed.
End keeps.

(** ** Spent tokens *)
(** No active session row is filed under the digest. *)
Definition spent (h : string) (w : world) : Prop :=
  forall s, dget h (sessions w) = Some (InMemory.Row s) -> m_active s = false.
(** No token still to be minted has the digest. *)
Definition fresh (h : string) (w : world) : Prop :=
  forall n, (minted w <= n)%nat -> token_digest (secret n) <> h.
(** Rows are filed under the digest they carry. *)
Definition sessions_ok (w : world) : Prop :=
  forall h s, dget h (sessions w) = Some (InMemory.Row s) -> token_hash s = h.

Lemma pin_insert_dset {M} `{Model M} k (m : M) d : k <> "" ->
  pin_insert k m d = dset k (InMemory.Row (upd_base (set_id (Some k)) m)) d.
Proof.
  intros Hk. unfold pin_insert, InMemory.insert. rewrite m_id_upd. simpl.
  replace (str_true k) with true by (by destruct k). cbn [fst]. by rewrite m_id_upd.
Qed.

Lemma soft_delete_dget {M} `{Model M} now i h (d : docs M) m :
  dget h (InMemory.soft_delete now None i d).1 = Some (InMemory.Row m) ->
  dget h d = Some (InMemory.Row m) \/
  (i = h /\ exists m0, dget h d = Some (InMemory.Row m0) /\ m_active m0 = true /\ m_active m = false /\
     m = upd_base (fun b => touch now None (set_inactive b)) m0).
Proof.
  unfold InMemory.soft_delete. destruct (dget i d) as [[m0|b]|] eqn:E; [|by left..].
  destruct (m_active m0) eqn:Ea; [|by left]. simpl. rewrite dget_dset. case_decide; [|by left].
  intros [= <-]. right. subst. split; [done|]. exists m0. by rewrite m_active_upd.
Qed.

Lemma soft_delete_spent {M} `{Model M} now h (d : docs M) m :
  dget h (InMemory.soft_delete now None h d).1 = Some (InMemory.Row m) -> m_active m = false.
Proof.
  unfold InMemory.soft_delete. destruct (dget h d) as [[m0|b]|] eqn:E; simpl; [|congruence..].
  destruct (m_active m0) eqn:Ea; simpl; [|congruence]. rewrite dget_dset, decide_True by done.
  intros [= <-]. by rewrite m_active_upd.
Qed.

Section digest.
Hypothesis digest_not_empty : forall t, token_digest t <> "".

Lemma closed_and I J : closed I -> closed J -> closed (fun w => I w /\ J w).
Proof. intros (F & M & D) (F' & M' & D'). split_and!; naive_solver. Qed.

Lemma sessions_ok_closed : closed sessions_ok.
Proof.
  unfold sessions_ok. split_and!.
  - by intros w0 w' -> _.
  - intros w0 s Hs Hw h s'. cbn [sessions set_sessions]. rewrite pin_insert_dset by (rewrite Hs; done).
    rewrite dget_dset. case_decide; [|apply Hw]. by intros [= <-].
  - intros now i w0 Hw h s. cbn [sessions set_sessions].
    intros [|(-> & m0 & Hm & _ & _ & ->)]%soft_delete_dget; [by apply Hw|]. by apply Hw in Hm.
Qed.

Lemma fresh_closed h : closed (fresh h).
Proof.
  unfold fresh. split_and!; [|intros w s _ Hf n|intros now i w Hf n]; simpl.
  - intros w w' _ _ Hm _ Hf n Hn. apply Hf. lia.
  - intros Hn. apply Hf. lia.
  - apply Hf.
Qed.

(** Once spent, a digest nothing will mint again stays spent through any history. *)
Lemma spent_closed h : closed (fun w => spent h w /\ fresh h w).
Proof.
  destruct (fresh_closed h) as (F & M & D). unfold spent. split_and!.
  - intros w w' Es Eu Hm Hd [Hs Hf]. split; [by rewrite Es|by apply (F w)].
  - intros w s Hs [Hsp Hf]. split; [|by apply M]. cbn [sessions set_sessions].
    rewrite pin_insert_dset by (rewrite Hs; done).
    intros s'. rewrite dget_dset_ne; [apply Hsp|]. rewrite Hs. intros E. by apply (Hf (minted w)).
  - intros now i w [Hsp Hf]. split; [|by apply D]. cbn [sessions set_sessions].
    intros s [|(-> & m0 & Hm & _ & ? & _)]%soft_delete_dget; [by apply Hsp|done].
Qed.

Lemma delete_session_spent h w w' b : delete_session h w = (w', Ok b) -> spent h w'.
Proof.
  unfold AuthStore.delete_session. intros H. run_inv.
  destruct (InMemory.soft_delete _ _ _ _) as [d r] eqn:E. destruct r; [|done]. injection H as <- _.
  intros m. cbn [sessions set_sessions]. intros Hm. eapply soft_delete_spent. by rewrite E.
Qed.

Definition dead (t : string) (w : world) : Prop := spent (token_digest t) w /\ fresh (token_digest t) w.

Lemma run_keeps {A} (I : world -> Prop) (c : Auth A) w w' r : preserves I c -> c w = (w', r) -> I w -> I w'.
Proof. intros Hc E Hw. specialize (Hc w Hw). by rewrite E in Hc. Qed.

Lemma get_session_Some h w w' s :
  get_session h w = (w', Ok (Some s)) -> w' = w /\ dget h (sessions w) = Some (InMemory.Row s) /\ m_active s = true.
Proof.
  unfold get_session, ask, se_bind, InMemory.get. destruct (dget h (sessions w)) as [[m|b]|]; try done.
  simpl. destruct (m_active m) eqn:Ea; [|done]. by intros [= <- <-].
Qed.

(** What a dead token still opens: nothing. *)
Lemma dead_unusable t w : dead t w ->
  (forall ip w' r, refresh (Some t) ip w <> (w', Ok r)) /\
  (forall w' p, redeem_ticket (Some t) w <> (w', Ok (Some p))) /\
  (forall w' p, authenticate (Some t) None w <> (w', Ok p)).
Proof.
  intros Hd. split_and!.
  - intros ip w' r H. unfold refresh in H. run_inv. destruct (str_true t); [|done]. cbn [negb] in H. run_inv.
    destruct a0 as [row|]; [|by run_inv]. apply get_session_Some in Hrun0 as (-> & Hg & Ha).
    apply (run_keeps _ _ _ _ _ (keeps_check_limiter _ (spent_closed _) ip) Hrun) in Hd as [Hs _].
    by rewrite (Hs _ Hg) in Ha.
  - intros w' p H. unfold redeem_ticket in H. destruct (str_true t); [|by run_inv]. cbn [negb] in H. run_inv.
    destruct a as [row|]; [|by run_inv]. apply get_session_Some in Hrun as (-> & Hg & Ha).
    destruct Hd as [Hs _]. by rewrite (Hs _ Hg) in Ha.
  - intros w' p H. unfold authenticate in H. run_inv.
    destruct a as [q|].
    + unfold principal_from_session in Hrun. destruct (str_true t); [|by run_inv]. cbn [negb] in Hrun. run_inv.
      destruct a as [row|]; [|by run_inv]. apply get_session_Some in Hrun1 as (-> & Hg & Ha).
      destruct Hd as [Hs _]. by rewrite (Hs _ Hg) in Ha.
    + simpl in Hrun0. run_inv.
Qed.

(** A request that uses a token up: a rotation, a redemption, a logout that names it. *)
Definition consumed (t : string) (w w' : world) : Prop :=
  (exists ip r, refresh (Some t) ip w = (w', Ok r)) \/
  (exists p, redeem_ticket (Some t) w = (w', Ok (Some p))) \/
  (exists r p, logout (Some t) r p w = (w', Ok tt)) \/
  (exists s p, logout s (Some t) p w = (w', Ok tt)).

Lemma delete_session_dead t w w' b :
  fresh (token_digest t) w -> delete_session (token_digest t) w = (w', Ok b) -> dead t w'.
Proof.
  intros Hf H. split; [by eapply delete_session_spent|].
  eapply run_keeps; [|exact H|exact Hf]. apply keeps_delete_session, fresh_closed.
Qed.

Lemma keeps_logout_tail I p : closed I ->
  preserves I (match p with
    | Some p =>
        match p_token_id p with
        | Some j => if str_true j then
                      now <- utc_now ;;
                      save_revoked (mkRevoked (base_default now None) j (default "" (p_user_id p)) (now + seconds (access_ttl_s jwt)))
                    else se_ret tt
        | None => se_ret tt
        end ;;;
        if opt_truthy (p_user_id p) then audit "logout" (p_user_id p) (p_email p) None else se_ret tt
    | None => se_ret tt
    end).
Proof.
  intros Hc. destruct p as [p|]; [|apply preserves_ret]. apply preserves_bind; [|intros _].
  - destruct (p_token_id p) as [j|]; [|apply preserves_ret]. destruct (str_true j); [|apply preserves_ret].
    apply preserves_bind; [by apply keeps_utc_now|intros now; by apply keeps_save_revoked].
  - destruct (opt_truthy _); [by apply keeps_audit|apply preserves_ret].
Qed.

Lemma refresh_spends t ip w w' r : sessions_ok w -> fresh (token_digest t) w ->
  refresh (Some t) ip w = (w', Ok r) -> dead t w'.
Proof.
  intros Hok Hf H. unfold refresh in H. run_inv. destruct (str_true t); [|done]. cbn [negb] in H. run_inv.
  assert (sessions_ok s /\ fresh (token_digest t) s) as [Hok1 Hf1].
  { split; [eapply run_keeps; [apply keeps_check_limiter, sessions_ok_closed|exact Hrun|done]
           |eapply run_keeps; [apply keeps_check_limiter, fresh_closed|exact Hrun|done]]. }
  destruct a0 as [row|]; [|by run_inv]. apply get_session_Some in Hrun0 as (-> & Hg & Ha).
  destruct (negb _); run_inv. destruct (_ <? _); run_inv. destruct a1 as [u|]; run_inv.
  destruct (_ || _); run_inv.
  assert (dead t s2) as Hd.
  { rewrite (Hok1 _ _ Hg) in Hrun2. eapply delete_session_dead; [|exact Hrun2].
    eapply run_keeps; [apply keeps_get_user|exact Hrun1|].
    eapply run_keeps; [apply keeps_utc_now, fresh_closed|exact Hrun0|done]. }
  eapply run_keeps; [apply keeps_audit, spent_closed|eassumption|].
  eapply run_keeps; [apply keeps_issue_pair, spent_closed|eassumption|done].
Qed.

Lemma redeem_spends t w w' p : sessions_ok w -> fresh (token_digest t) w ->
  redeem_ticket (Some t) w = (w', Ok (Some p)) -> dead t w'.
Proof.
  intros Hok Hf H. unfold redeem_ticket in H. destruct (str_true t); [|by run_inv]. cbn [negb] in H. run_inv.
  destruct a as [row|]; [|by run_inv]. apply get_session_Some in Hrun as (-> & Hg & Ha). run_inv.
  assert (dead t s) as Hd.
  { rewrite (Hok _ _ Hg) in Hrun. eapply delete_session_dead; [|exact Hrun]; done. }
  destruct (_ || _); run_inv; simplify_eq. destruct (_ <? _); run_inv; simplify_eq. destruct a1 as [u|]; run_inv; simplify_eq.
  eapply run_keeps; [apply keeps_session_principal|eassumption|].
  eapply run_keeps; [apply keeps_live_user|eassumption|].
  eapply run_keeps; [apply keeps_utc_now, spent_closed|eassumption|done].
Qed.

Lemma keeps_logout_row I (o : option string) : closed I ->
  preserves I (match o with
    | Some t => if str_true t then delete_session (token_digest t) ;;; se_ret tt else se_ret tt
    | None => se_ret tt
    end : Auth unit).
Proof.
  intros Hc. destruct o as [t|]; [|apply preserves_ret]. destruct (str_true t); [|apply preserves_ret].
  apply preserves_bind; [by apply keeps_delete_session|intros; apply preserves_ret].
Qed.

Lemma logout_spends t w w' s r p : str_true t = true -> fresh (token_digest t) w ->
  logout s r p w = (w', Ok tt) -> s = Some t \/ r = Some t -> dead t w'.
Proof.
  intros Ht Hf H Hor. unfold logout in H. run_inv.
  eapply run_keeps; [apply keeps_logout_tail, spent_closed|exact H|].
  assert (fresh (token_digest t) s0) as Hf0.
  { eapply run_keeps; [apply (keeps_logout_row _ s), fresh_closed|exact Hrun|done]. }
  destruct Hor as [->| ->].
  - eapply run_keeps; [apply (keeps_logout_row _ r), spent_closed|exact Hrun0|].
    rewrite Ht in Hrun. run_inv. eapply delete_session_dead; [|eassumption]; eassumption.
  - rewrite Ht in Hrun0. run_inv. eapply delete_session_dead; [|eassumption]; eassumption.
Qed.

(** C2: Rotated refresh tokens, redeemed websocket tickets and the tokens a logout
    names are single-use: whatever requests came before and whatever requests follow,
    the token never again refreshes, redeems or authenticates. The store starts with
    rows filed under their digests, and no token minted later collides with it. *)
Theorem consumed_tokens_stay_dead before w0 t w w1 after :
  sessions_ok w0 -> w = perform_all before w0 ->
  str_true t = true -> fresh (token_digest t) w -> consumed t w w1 ->
  let w2 := perform_all after w1 in
  (forall ip w' r, refresh (Some t) ip w2 <> (w', Ok r)) /\
  (forall w' p, redeem_ticket (Some t) w2 <> (w', Ok (Some p))) /\
  (forall w' p, authenticate (Some t) None w2 <> (w', Ok p)).
Proof.
  intros Hok -> Ht Hf Hc w2. apply dead_unusable, (keeps_perform_all _ (spent_closed _)); [done|].
  pose proof (keeps_perform_all _ sessions_ok_closed ltac:(done) before _ Hok) as Hok1.
  destruct Hc as [(ip & r & H)|[(p & H)|[(r & p & H)|(s & p & H)]]].
  - by eapply refresh_spends.
  - by eapply redeem_spends.
  - eapply logout_spends; eauto.
  - eapply logout_spends; eauto.
Qed.
End digest.

(** ** Who a credential may stand for *)
Definition live (i : string) (u : User) (w : world) : Prop :=
  dget i (users w) = Some (InMemory.Row u) /\ m_active u = true /\ disabled u = false /\
  (forall t tn, m_tenant u = Some t -> dget t (tenants w) = Some (InMemory.Row tn) -> m_active tn = true ->
     status tn <> suspended).

Lemma get_Some {M} `{Model M} i (d : docs M) (m : M) :
  InMemory.get i d = Ok (Some m) <-> dget i d = Some (InMemory.Row m) /\ m_active m = true.
Proof.
  unfold InMemory.get. destruct (dget i d) as [[m0|b]|]; [|by split; [|intros []]..].
  destruct (m_active m0) eqn:E; (split; [|intros [[= ->] ?]]; try congruence); by intros [= ->].
Qed.

Lemma get_run {M} `{Model M} (f : world -> docs M) i w w' (o : option M) :
  (r <- ask (fun w => InMemory.get i (f w)) ;; of_db r) w = (w', Ok o) ->
  w' = w /\ InMemory.get i (f w) = Ok o.
Proof. unfold ask, se_bind. destruct (InMemory.get i (f w)) as [a|e]; simpl; [|done]. by intros [= <- <-]. Qed.

Lemma suspended_run u w w' b : tenant_is_suspended u w = (w', Ok b) ->
  w' = w /\ (b = false -> forall t tn, m_tenant u = Some t -> dget t (tenants w) = Some (InMemory.Row tn) ->
    m_active tn = true -> status tn <> suspended).
Proof.
  unfold tenant_is_suspended. destruct (m_tenant u) as [t|]; intros H; run_inv; [|done].
  apply get_run in Hrun as [-> Hg]. split; [done|]. intros Hb t' tn [= <-] Ht Ha.
  rewrite (proj2 (get_Some t _ tn) (conj Ht Ha)) in Hg. simplify_eq. by apply bool_decide_eq_false in Hb.
Qed.

Lemma live_user_run i f w w' o : live_user i f w = (w', Ok o) ->
  w' = w /\ forall u, o = Some u -> live i u w /\ f u = true.
Proof.
  unfold live_user. intros H. run_inv. apply get_run in Hrun as [-> Hg].
  destruct a as [u|]; [|by run_inv]. apply get_Some in Hg as [Hd Ha].
  destruct (disabled u || negb (f u)) eqn:E; [by run_inv|]. run_inv.
  apply suspended_run in Hrun as [-> Hs]. split; [done|]. intros u' Hu.
  destruct a; simplify_eq. apply orb_false_iff in E as [E1 E2%negb_false_iff].
  split; [|done]. unfold live. split_and!; try done. by apply Hs.
Qed.

Definition tenant_of (u : User) : string :=
  match m_tenant u with Some t => if str_true t then t else DEFAULT_TENANT_ID | None => DEFAULT_TENANT_ID end.

Definition stands_for (p : Principal) (u : User) : Prop :=
  p_email p = Some (email u) /\ p_org_id p = org_id u /\ p_tenant_id p = tenant_of u.
Definition session_for (p : Principal) (u : User) (j : option string) : Prop :=
  stands_for p u /\ p_auth p = BySession /\ p_user_id p = Some (user_id u) /\ p_role p = role u /\ p_token_id p = j.

Lemma session_principal_run u j w w' p : session_principal u j w = (w', Ok p) -> w' = w /\ session_for p u j.
Proof. unfold session_principal, resolve_tenancy. intros H. run_inv. unfold list_memberships, ask in Hrun0. by simplify_eq. Qed.

(** The three credentials. *)
Definition cookie_opens (t : string) (i : string) (w : world) : Prop :=
  exists s, dget (token_digest t) (sessions w) = Some (InMemory.Row s) /\ m_active s = true /\
            kind s = KSession /\ ss_user_id s = i.
Definition jwt_opens (t : string) (i j : string) (u : User) (w : world) : Prop :=
  verify_access_token (clock (ticks w)) t = Some (i, j, version_of u) /\
  forall r, dget j (revoked w) = Some (InMemory.Row r) -> m_active r = false.
Definition key_opens (t : string) (i : string) (k : ApiKey) (w : world) : Prop :=
  k ∈ InMemory.active_models (keys w) /\ key_hash k = Some (token_digest t) /\ created_by (ak_base k) = Some i /\
  forall e, ak_expires_at k = Some e -> clock (ticks w) <= e.

Lemma from_session_run c w w' o : principal_from_session c w = (w', Ok o) ->
  w' = w /\ forall p, o = Some p -> exists t i u, c = Some t /\ cookie_opens t i w /\ live i u w /\ session_for p u None.
Proof.
  unfold principal_from_session. destruct c as [t|]; [|intros H; by run_inv].
  destruct (negb (str_true t)); intros H; run_inv; [done|].
  apply get_run in Hrun as [-> Hg]. destruct a as [s|]; [|by run_inv]. apply get_Some in Hg as [Hd Ha].
  destruct (negb (bool_decide (kind s = KSession))) eqn:Ek; run_inv; [done|].
  apply live_user_run in Hrun as [-> Hl]. destruct a as [u|]; [|by run_inv]. run_inv.
  apply session_principal_run in Hrun as [-> Hp]. split; [done|]. intros p [= ->].
  apply negb_false_iff, bool_decide_eq_true in Ek. exists t, (ss_user_id s), u.
  split_and!; try done; [|by apply Hl]. by exists s.
Qed.

Lemma is_revoked_run j w w' b : is_revoked j w = (w', Ok b) ->
  w' = w /\ (b = false -> forall r, dget j (revoked w) = Some (InMemory.Row r) -> m_active r = false).
Proof.
  unfold is_revoked. intros H. run_inv. unfold ask in Hrun. simplify_eq. unfold of_db in Hrun0.
  destruct (InMemory.get _ _) as [o|] eqn:Eg; [|done]. run_inv. split; [done|]. intros Hb r Hr.
  apply bool_decide_eq_false in Hb. destruct (m_active r) eqn:Ea; [|done]. destruct Hb.
  rewrite (proj2 (get_Some j _ r) (conj Hr Ea)) in Eg. by simplify_eq.
Qed.

Lemma from_jwt_run t w w' p : principal_from_jwt_token t w = (w', Ok (Some p)) ->
  exists i j u, jwt_opens t i j u w /\ live i u w /\ session_for p u (Some j).
Proof.
  unfold principal_from_jwt_token. intros H. run_inv. unfold AuthStore.utc_now in Hrun. simplify_eq.
  destruct (verify_access_token _ _) as [[[i j] v]|] eqn:Ev; [|by run_inv]. run_inv.
  apply is_revoked_run in Hrun as [-> Hr]. destruct a; [by run_inv|]. run_inv.
  apply live_user_run in Hrun as [-> Hl]. destruct a as [u|]; [|by run_inv]. run_inv.
  apply session_principal_run in Hrun as [-> Hp]. simplify_eq. destruct (Hl u eq_refl) as [Hu Hv%Z.eqb_eq].
  exists i, j, u. split_and!; [split|done..]; [by rewrite Ev, Hv|by apply Hr].
Qed.

Lemma find_one_Some {M} `{Model M} f v (d : docs M) m :
  InMemory.find_one f v d = Some m -> m ∈ InMemory.active_models d /\ matches m [(f, v)] = true.
Proof. unfold InMemory.find_one. intros [Hin Hm]%List.find_some. by rewrite list_elem_of_In. Qed.

Lemma matches_key_hash (k : ApiKey) h : matches k [("key_hash", VStr h)] = true -> key_hash k = Some h.
Proof.
  unfold matches, getattr; simpl. rewrite andb_true_r. destruct (key_hash k) as [d|]; simpl; [|done].
  rewrite bool_decide_eq_true. congruence.
Qed.

Lemma live_same i u w w' : users w' = users w -> tenants w' = tenants w -> live i u w' -> live i u w.
Proof. unfold live. by intros -> ->. Qed.

Lemma from_key_run t w w' p : principal_from_api_key t w = (w', Ok (Some p)) ->
  exists i k u, key_opens t i k w /\ live i u w /\ stands_for p u /\ p_auth p = ByKey /\ p_role p = viewer /\
    p_scopes p = ak_scopes k /\ p_key_id p = Some (key_id k).
Proof.
  unfold principal_from_api_key. destruct (negb (str_true t)); intros H; run_inv; [done|].
  unfold get_api_key_by_hash, ask in Hrun. simplify_eq.
  destruct (InMemory.find_one _ _ _) as [k|] eqn:Ek; [|by run_inv].
  apply find_one_Some in Ek as [Hin Hm%matches_key_hash]. destruct (negb (opt_truthy (key_hash k))); [by run_inv|]. run_inv.
  destruct a; [by run_inv|]. run_inv. unfold AuthStore.utc_now in Hrun0. unfold save_api_key, se_modify in Hrun1. simplify_eq.
  assert (users s0 = users s /\ tenants s0 = tenants s /\ forall e, ak_expires_at k = Some e -> clock (ticks s) <= e) as (Hu & Ht & He).
  { destruct (ak_expires_at k) as [e|]; run_inv; [|by split_and!]. unfold AuthStore.utc_now in Hrun0. simplify_eq.
    split_and!; [done..|]. intros e' [= <-]. by apply Z.ltb_ge. }
  destruct (created_by (ak_base k)) as [i|] eqn:Ec; [|by run_inv].
  destruct (str_true i); [|by run_inv]. apply live_user_run in Hrun2 as [-> Hl]. destruct a1 as [u|]; [|by run_inv].
  destruct (Hl u eq_refl) as [Hlive _]. unfold resolve_tenancy in H. run_inv. simplify_eq.
  exists i, k, u. split_and!; try done. by eapply live_same; [..|exact Hlive].
Qed.

(** C1: Every principal the service resolves stands for a live user: an active row,
    not disabled, whose tenant is not suspended, with the identity of the principal
    copied from that row. The credential is one of three: the cookie names an active
    row of kind session of that user; a verified token carries the user's current
    version and an identifier nobody denied; or an unexpired key of that user was
    presented, and then the principal has the key's scopes and no more. Refresh
    tokens and websocket tickets open nothing. *)
Theorem authenticate_live cookie authorization w w' p :
  authenticate cookie authorization w = (w', Ok p) ->
  exists i u, live i u w /\ stands_for p u /\
    ((exists t, cookie = Some t /\ cookie_opens t i w /\ session_for p u None) \/
     (exists t j, bearer_secret authorization = Some t /\ jwt_opens t i j u w /\ session_for p u (Some j)) \/
     (exists t k, bearer_secret authorization = Some t /\ key_opens t i k w /\
        p_auth p = ByKey /\ p_scopes p = ak_scopes k /\ p_role p = viewer)).
Proof.
  unfold authenticate. intros H. run_inv. apply from_session_run in Hrun as [-> Hs].
  destruct a as [q|].
  - run_inv. destruct (Hs _ eq_refl) as (t & i & u & -> & Hc & Hl & Hp). exists i, u.
    split_and!; [done|apply Hp|]. left. by exists t.
  - destruct (bearer_secret authorization) as [t|]; [|by run_inv].
    destruct a0 as [q|]; run_inv. destruct (_ =? _)%nat.
    + apply from_jwt_run in Hrun0 as (i & j & u & Hj & Hl & Hp). exists i, u.
      split_and!; [done|apply Hp|]. right; left. by exists t, j.
    + apply from_key_run in Hrun0 as (i & k & u & Hk & Hl & Hp & Ha & Hr & Hsc & _). exists i, u.
      split_and!; [done..|]. right; right. by exists t, k.
Qed.

(** ** The last active owner *)
Section owners.
(** How many identifiers the supply gives before it may repeat itself. *)
Context (supply : nat).

Definition users_ok (w : world) : Prop :=
  InMemory.store_ok (users w) /\
  forall i u, dget i (users w) = Some (InMemory.Row u) -> user_id u = i /\ i <> "".
Definition ids_fresh (w : world) : Prop :=
  forall n, (drawn w <= n < supply)%nat -> dget (Wallet.new_id "usr" (uuid n)) (users w) = None.
Definition row_of (i : string) (u : User) (w : world) : Prop :=
  dget i (users w) = Some (InMemory.Row u) /\ m_active u = true.
Definition owned (org : string) (w : world) : Prop :=
  exists i u, row_of i u w /\ active_owner org u = true.
(** An owner of the organization other than the user. *)
Definition others (org : string) (i : string) (w : world) : Prop :=
  exists j u, j <> i /\ row_of j u w /\ active_owner org u = true.
Definition directory (w : world) : Prop := users_ok w /\ ids_fresh w.

Lemma all_rows_active {M} `{Model M} (d : docs M) : all_rows d = InMemory.active_models d.
Proof.
  unfold all_rows, walk_pages. rewrite (walk_from_spec _ (InMemory.active_models d)); [by rewrite drop_0|..].
  - intros p _. cbn [rp_list_where InMemory.repository]. unfold InMemory.list_where.
    replace (List.filter (fun m => matches m []) (InMemory.active_models d)) with (InMemory.active_models d); [done|].
    induction (InMemory.active_models d) as [|m l IH]; [done|]. cbn [List.filter]. by rewrite <- IH.
  - done.
  - unfold InMemory.active_models, dvalues. assert (length (omap InMemory.active_row (map snd d)) <= length d)%nat.
    { rewrite <- (length_map snd d). induction (map snd d) as [|r l IH]; [done|].
      cbn [omap list_omap length]. destruct (InMemory.active_row r); cbn [length]; lia. }
    unfold MIN_PAGE, MAX_PAGE_SIZE. lia.
  - lia.
Qed.

(** Two of the active owners cannot both be the target. *)
Lemma two_owners_others org i w :
  users_ok w -> ~ (length (List.filter (active_owner org) (all_rows (users w))) <= 1)%nat -> others org i w.
Proof.
  intros [Hs _] Hlen. rewrite all_rows_active in Hlen.
  assert (NoDup (map m_id (List.filter (active_owner org) (InMemory.active_models (users w))))) as Hnd.
  { by apply lfilter_NoDup, InMemory.active_models_ids. }
  assert (forall u, u ∈ List.filter (active_owner org) (InMemory.active_models (users w)) ->
     exists j, m_id u = Some j /\ row_of j u w /\ active_owner org u = true) as Hall.
  { intros u Hu. apply elem_of_lfilter in Hu as [Hu Ho]. apply (InMemory.active_models_elem _ _ Hs) in Hu as (j & Hj & Ha).
    exists j. split_and!; try done. by apply Hs. }
  destruct (List.filter _ _) as [|a [|b l]]; simpl in *; [lia..|].
  destruct (Hall a) as (j & Ej & Rj & Oj); [by left|]. destruct (Hall b) as (k & Ek & Rk & Ok'); [by right; left|].
  apply NoDup_cons in Hnd as [Hne _]. destruct (decide (j = i)) as [->|]; [|by exists j, a].
  exists k, b. split_and!; try done. intros ->. apply Hne. rewrite Ej, <- Ek. by left.
Qed.

Lemma by_users (I : world -> Prop) :
  (forall w w', users w' = users w -> (drawn w <= drawn w')%nat -> I w -> I w') -> closed I.
Proof. intros H. split_and!; [intros w w' _ Hu _ Hd|intros w s _|intros now i w]; by apply H. Qed.

(** The property, or the supply of identifiers ran out. *)
Definition tolerant (P : world -> Prop) (w : world) : Prop := (supply < drawn w)%nat \/ P w.
(** What every request keeps, and what one says of the user it is about. *)
Notation held org w := (directory w /\ owned org w).
Definition kept (org : string) : world -> Prop := tolerant (fun w => held org w).
Definition about (org i : string) (u : User) : world -> Prop := tolerant (fun w => held org w /\ row_of i u w).
Definition spared (org i : string) (u : User) : world -> Prop :=
  tolerant (fun w => (held org w /\ row_of i u w) /\ others org i w).

Lemma tolerant_closed P :
  (forall w w', users w' = users w -> (drawn w <= drawn w')%nat -> P w -> P w') -> closed (tolerant P).
Proof. intros H. apply by_users. intros w w' Hu Hd [Hx|Hw]; [left; lia|right; by apply (H w)]. Qed.
Lemma held_same org w w' : users w' = users w -> (drawn w <= drawn w')%nat -> held org w -> held org w'.
Proof.
  unfold directory, users_ok, ids_fresh, owned, row_of. intros -> Hd (([Hs Hk] & Hf) & Ho).
  split_and!; try done. intros n Hn. apply Hf. lia.
Qed.
Lemma kept_closed org : closed (kept org).
Proof. apply tolerant_closed, held_same. Qed.
Lemma about_closed org i u : closed (about org i u).
Proof.
  apply tolerant_closed. intros w w' Hu Hd [Hh Hr]. split; [by apply (held_same org w)|]. unfold row_of in *. by rewrite Hu.
Qed.
Lemma spared_closed org i u : closed (spared org i u).
Proof.
  apply tolerant_closed. intros w w' Hu Hd [[Hh Hr] Ho]. unfold others, row_of in *. rewrite Hu.
  split; [split; [by apply (held_same org w)|done]|done].
Qed.
Lemma tolerant_mono (P Q : world -> Prop) w : (P w -> Q w) -> tolerant P w -> tolerant Q w.
Proof. intros H [?|?]; [by left|right; auto]. Qed.

Lemma bind_carry {A B} (I J : world -> Prop) (c : Auth A) (k : A -> Auth B) w :
  preserves J c -> (forall w, J w -> I w) -> (forall a w, J w -> I (k a w).1) -> J w -> I (se_bind c k w).1.
Proof.
  intros Hc HJ Hk Hw. specialize (Hc w Hw). unfold se_bind. destruct (c w) as [w' [a|e]]; [by apply Hk|by apply HJ].
Qed.

Definition pinned (u : User) : User := upd_base (set_id (Some (user_id u))) u.
Lemma pinned_active u : m_active (pinned u) = m_active u.
Proof. unfold pinned. by rewrite m_active_upd. Qed.
Lemma save_user_run u w : user_id u <> "" ->
  save_user u w = (set_users (dset (user_id u) (InMemory.Row (pinned u)) (users w)) w, Ok tt).
Proof. intros Hu. unfold save_user, se_modify. by rewrite pin_insert_dset. Qed.

Lemma save_user_kept org u w :
  directory w -> user_id u <> "" -> (forall n, (drawn w <= n < supply)%nat -> Wallet.new_id "usr" (uuid n) <> user_id u) ->
  others org (user_id u) w \/ (m_active u = true /\ active_owner org u = true) ->
  kept org (save_user u w).1.
Proof.
  intros [[Hs Hk] Hf] Hu Hn Hor. right. rewrite save_user_run by done. unfold directory, users_ok, ids_fresh, owned, row_of.
  cbn [fst users set_users drawn]. split_and!.
  - apply InMemory.store_ok_dset; [done|]. unfold pinned. by rewrite m_id_upd.
  - intros i v. rewrite dget_dset. case_decide; [|apply Hk]. by intros [= <-]; subst.
  - intros n Hd. rewrite dget_dset_ne; [by apply Hf|by apply Hn].
  - destruct Hor as [(j & v & Hj & [Hv Ha] & Ho)|[Ha Ho]].
    + exists j, v. by rewrite dget_dset_ne.
    + exists (user_id u), (pinned u). by rewrite dget_dset_eq, pinned_active.
Qed.

Lemma others_or_self org i u w : held org w -> row_of i u w -> others org i w \/ active_owner org u = true.
Proof.
  intros [_ (j & v & [Hv Ha] & Ho)] [Hu _]. destruct (decide (j = i)) as [->|]; [right|left; by exists j, v].
  congruence.
Qed.
Lemma row_id org i u w : held org w -> row_of i u w ->
  user_id u = i /\ i <> "" /\ forall n, (drawn w <= n < supply)%nat -> Wallet.new_id "usr" (uuid n) <> i.
Proof.
  intros [[[_ Hk] Hf] _] [Hu _]. destruct (Hk _ _ Hu). split_and!; try done.
  intros n Hn E. apply Hf in Hn. congruence.
Qed.

(** Saving the user again keeps the organization owned when nothing of the role
    changes, and whatever changes when somebody else owns it. *)
Lemma save_same org i u u' w : about org i u w ->
  user_id u' = user_id u -> us_base u' = us_base u -> active_owner org u' = active_owner org u ->
  kept org (save_user u' w).1.
Proof.
  intros [Hx|[Hh Hr]] Ei Eb Eo; [by left|]. pose proof (row_id _ _ _ _ Hh Hr) as (Hi & Hne & Hn).
  pose proof Hh as [Hd _]. pose proof Hr as [_ Ha]. apply save_user_kept; rewrite ?Ei, ?Hi; try done.
  destruct (others_or_self _ _ _ _ Hh Hr) as [?|Ho]; [by left|right]. rewrite Eo. unfold m_active in *. simpl in *. by rewrite Eb.
Qed.
Lemma save_spared org i u u' w : spared org i u w -> user_id u' = user_id u -> kept org (save_user u' w).1.
Proof.
  intros [Hx|[[Hh Hr] Ho]] Ei; [by left|]. pose proof (row_id _ _ _ _ Hh Hr) as (Hi & Hne & Hn).
  apply save_user_kept; rewrite ?Ei, ?Hi; try done; [apply Hh|by left].
Qed.

Section ids.
Hypothesis ids_distinct : forall m n, (m < supply)%nat -> (n < supply)%nat ->
  Wallet.new_id "usr" (uuid m) = Wallet.new_id "usr" (uuid n) -> m = n.

Definition vacant (org i : string) : world -> Prop := tolerant (fun w =>
  held org w /\ i <> "" /\ dget i (users w) = None /\
  forall n, (drawn w <= n < supply)%nat -> Wallet.new_id "usr" (uuid n) <> i).
Lemma vacant_closed org i : closed (vacant org i).
Proof.
  apply tolerant_closed. intros w w' Hu Hd (Hh & Hi & Hv & Hn). rewrite Hu.
  split_and!; [by apply (held_same org w)..| | |]; try done. intros n Hle. apply Hn. lia.
Qed.

Lemma new_user_kept org i u w : vacant org i w -> user_id u = i -> kept org (save_user u w).1.
Proof.
  intros [Hx|([Hd (j & v & [Hv Ha] & Ho)] & Hi & Hnone & Hn)] Ei; [by left|]. apply save_user_kept; rewrite ?Ei; try done.
  left. exists j, v. split_and!; try done. congruence.
Qed.

Lemma drawn_vacant org w : kept org w -> vacant org (Wallet.new_id "usr" (uuid (drawn w))) (set_drawn (S (drawn w)) w).
Proof.
  intros [Hx|Hw]; [left; simpl; lia|]. destruct (decide (drawn w < supply)%nat) as [Hlt|]; [right|left; simpl; lia].
  pose proof Hw as [[_ Hf] _]. split_and!.
  - apply (held_same org w); simpl; done || lia.
  - apply (held_same org w); simpl; done || lia.
  - done.
  - apply Hf. lia.
  - simpl. intros n Hn E%ids_distinct; lia.
Qed.

Lemma find_user_about org f v w u : kept org w -> InMemory.find_one f v (users w) = Some u ->
  exists i, about org i u w.
Proof.
  intros [Hx|Hw] [Hin _]%find_one_Some; [exists ""; by left|]. pose proof Hw as [[[Hs _] _] _].
  apply (InMemory.active_models_elem _ _ Hs) in Hin as (i & Hi & Ha). exists i. by right.
Qed.

Lemma bind_then {A B} (I : world -> Prop) (c : Auth A) (k : A -> Auth B) w :
  I (c w).1 -> (forall a, preserves I (k a)) -> I (se_bind c k w).1.
Proof. intros Hc Hk. unfold se_bind. destruct (c w) as [w' [a|e]]; [by apply Hk|done]. Qed.

Lemma bind_new_user {B} org (k : string -> Auth B) :
  (forall i w, vacant org i w -> kept org (k i w).1) -> preserves (kept org) (se_bind (new_id "usr") k).
Proof. intros Hk w Hw. apply (Hk _ (set_drawn (S (drawn w)) w)). by apply drawn_vacant. Qed.

Hint Resolve kept_closed vacant_closed about_closed spared_closed : closed.
(** The calls of a request that write no user. *)
Ltac keep_call :=
  first [ apply keeps_ask | apply keeps_guard | apply keeps_of_db | apply keeps_get_user | apply keeps_get_tenant
        | apply keeps_audit | apply keeps_issue_pair | apply keeps_hash_password | apply keeps_utc_now
        | apply keeps_sweep | apply keeps_check_limiter | apply keeps_delete_session | apply keeps_save_invite
        | apply keeps_claim_all | apply preserves_ret | apply preserves_raise
        | apply preserves_bind; [keep_call|intros ?; keep_call] ]; auto with closed.
Ltac keep := repeat (apply preserves_bind; [by keep_call|intros ?]); try by keep_call.
Ltac carry J :=
  apply (bind_carry _ J); [by keep_call|intros ?; apply tolerant_mono; tauto| |done]; intros ? ? ?.

Lemma keeps_signup org m n pw : preserves (kept org) (signup m n pw).
Proof.
  unfold signup, count_users, get_user_by_email, default_tenant_hex. keep. apply bind_new_user. intros i w Hw.
  carry (vacant org i). carry (vacant org i). carry (vacant org i). apply bind_then; [by eapply new_user_kept|]. intros _. keep.
Qed.

Lemma keeps_accept_invite org t n pw : preserves (kept org) (accept_invite t n pw).
Proof.
  unfold accept_invite, get_invite_by_token_hash, get_user_by_email. keep. destruct a as [live0|]; [|keep].
  destruct (accepted live0); [keep|]. keep. apply bind_new_user. intros i w Hw.
  carry (vacant org i). carry (vacant org i). apply bind_then; [by eapply new_user_kept|]. intros _. unfold list_memberships. keep.
Qed.

(** At a world that satisfies the invariant, follow the rest of the request. *)
Ltac run_keep := match goal with Hw : ?I ?w |- ?I (?c ?w).1 => apply (fun H : preserves I c => H w Hw) end; keep.

Lemma keeps_login org m pw b ip : preserves (kept org) (login m pw b ip).
Proof.
  apply preserves_bind; [by keep_call|intros _]. intros w Hw. unfold get_user_by_email, ask, se_bind at 1.
  destruct (InMemory.find_one _ _ _) as [u|] eqn:Eu; [|run_keep].
  destruct (disabled u || _); [run_keep|]. apply (find_user_about _ _ _ _ _ Hw) in Eu as [i Hi].
  carry (about org i u). carry (about org i u). apply bind_then; [by eapply save_same|]. intros _. keep.
Qed.

Lemma get_user_about org i w u : kept org w -> InMemory.get i (users w) = Ok (Some u) -> about org i u w.
Proof. intros Hw Hg%get_Some. eapply tolerant_mono, Hw. by split. Qed.

Lemma bind_get_user {B} org i (k : option User -> Auth B) w : kept org w ->
  kept org (k None w).1 -> (forall u, about org i u w -> kept org (k (Some u) w).1) -> kept org (se_bind (get_user i) k w).1.
Proof.
  intros Hw Hn Hk. unfold get_user, ask, se_bind. destruct (InMemory.get i (users w)) as [[u|]|e] eqn:Eg; simpl; try done.
  by apply Hk, get_user_about.
Qed.

Lemma keeps_refresh org t ip : preserves (kept org) (refresh t ip).
Proof.
  unfold refresh, get_session. keep. destruct t as [t|]; [|keep]. destruct (negb (str_true t)); [keep|]. keep.
  destruct a0 as [row|]; [|keep]. destruct (negb _); [keep|]. keep. destruct (_ <? _); [keep|].
  intros w Hw. apply bind_get_user; [done|run_keep|]. intros u Hu. destruct (_ || _); [|run_keep].
  apply bind_then; [|intros _; keep]. unfold quarantine_user. apply bind_then; [by eapply save_same|intros _; keep].
Qed.

Lemma keeps_change_password org p old new : preserves (kept org) (change_password p old new).
Proof.
  unfold change_password. destruct (_ || _); [keep|]. intros w Hw. apply bind_get_user; [done|run_keep|]. intros u Hu.
  destruct (negb _); [run_keep|]. carry (about org (default "" (p_user_id p)) u).
  apply bind_then; [by eapply save_same|intros _; keep].
Qed.

(** Whom the checks of the administration clear, somebody else owns his organization. *)
Lemma bind_administer {B} org p i (k : User -> Auth B) w : kept org w ->
  (forall u, spared org i u w -> kept org (k u w).1) -> kept org (se_bind (administer p i) k w).1.
Proof.
  intros Hw Hk. unfold administer, require_owner, get_user, ask, guard, se_bind.
  destruct (has_role owner p); simpl; [|done].
  destruct (InMemory.get i (users w)) as [[u|]|e] eqn:Eg; simpl; try done.
  destruct (get_user_about _ _ _ _ Hw Eg) as [Hx|[Hh Hu]].
  { unfold ensure_same_org, assert_last_owner_safe, AuthStore.list_users, ask, guard, se_bind, se_ret, se_raise. crush; try (by left); apply Hk; by left. }
  unfold ensure_same_org. destruct (bool_decide (org_id u = _)); simpl; [|done].
  destruct (negb (bool_decide (Some (user_id u) = _))); simpl; [|done].
  unfold assert_last_owner_safe, AuthStore.list_users, ask, guard, se_bind.
  destruct (negb (bool_decide (role u = owner)) || disabled u) eqn:Er.
  - simpl. apply Hk. right. split; [done|]. destruct (others_or_self _ _ _ _ Hh Hu) as [?|Ho]; [done|]. exfalso.
    unfold active_owner in Ho. apply andb_true_iff in Ho as [[Hr Hd]%andb_true_iff _].
    rewrite Hr in Er. by destruct (disabled u).
  - destruct (negb (Nat.leb _ _)) eqn:El; simpl; [|done]. apply Hk. right. split; [done|].
    destruct (others_or_self _ _ _ _ Hh Hu) as [?|Ho]; [done|].
    apply andb_true_iff in Ho as [_ <-%bool_decide_eq_true].
    apply two_owners_others; [apply Hh|]. apply negb_true_iff, Nat.leb_nle in El. lia.
Qed.

Lemma keeps_set_role org p i r : preserves (kept org) (set_user_role p i r).
Proof.
  intros w Hw. apply bind_administer; [done|]. intros u Hu.
  apply bind_then; [by eapply save_spared|intros _; keep].
Qed.

Lemma delete_user_kept org i u w : spared org i u w -> kept org (delete_user_row clock i w).1.
Proof.
  intros [Hx|[[[[[Hs Hk] Hf] _] [Hu Ha]] (j & v & Hj & [Hv Hav] & Ho)]].
  { left. unfold delete_user_row, se_bind. cbn [AuthStore.utc_now]. by destruct (InMemory.soft_delete _ _ _ _) as [d [?|?]]. }
  right.
  unfold delete_user_row, AuthStore.utc_now, se_bind, InMemory.soft_delete. cbn [users set_ticks]. rewrite Hu, Ha. cbn [negb of_db fst se_ret].
  unfold directory, users_ok, ids_fresh, owned, row_of. cbn [users set_users drawn set_ticks]. split_and!.
  - apply InMemory.store_ok_dset; [done|]. rewrite m_id_upd. by apply Hs.
  - intros k x. rewrite dget_dset. case_decide; [|apply Hk]. subst. intros [= <-]. exact (Hk _ _ Hu).
  - intros n Hn. specialize (Hf n Hn). rewrite dget_dset_ne; [done|]. congruence.
  - exists j, v. by rewrite dget_dset_ne.
Qed.

Lemma keeps_delete_user org p i : preserves (kept org) (delete_user p i).
Proof.
  intros w Hw. apply bind_administer; [done|]. intros u Hu.
  carry (spared org i u).
  apply bind_then; [by eapply delete_user_kept|intros _; keep].
Qed.

(** C3: An organization with an active owner keeps one through every history of
    requests: signups, logins, refreshes, accepted invites, password changes, role
    changes and deletions alike, whoever sends them and whether they succeed or not.
    The identifiers the history draws are distinct from each other and from the stored
    users'. *)
Theorem last_owner_survives org rs w :
  users_ok w -> ids_fresh w -> owned org w -> (drawn (perform_all rs w) <= supply)%nat ->
  owned org (perform_all rs w).
Proof.
  intros Hu Hf Ho Hd. assert (kept org w) as Hw by (by right). clear Hu Hf Ho.
  enough (kept org (perform_all rs w)) as [?|[_ ?]] by (lia || done). clear Hd. revert w Hw. unfold perform_all.
  induction rs as [|r rs IH]; intros w Hw; [done|]. cbn [foldl]. apply IH.
  destruct (quiet r) eqn:Eq; [by apply keeps_quiet; [apply kept_closed|..]|].
  enough (preserves (kept org) (perform r)) as Hr by (by apply Hr).
  destruct r; try discriminate Eq; cbn [perform]; unfold discard; (apply preserves_bind; [|intros; apply preserves_ret]) || idtac;
    auto using keeps_signup, keeps_login, keeps_refresh, keeps_accept_invite, keeps_set_role, keeps_delete_user, keeps_change_password.
Qed.
End ids.
End owners.

(** ** How far a session sweep reaches *)
Lemma soft_delete_active_models {M} `{Model M} now i (d : docs M) m :
  InMemory.store_ok d -> dget i d = Some (InMemory.Row m) -> m_active m = true ->
  (InMemory.soft_delete now None i d).2 = Ok true /\
  InMemory.active_models (InMemory.soft_delete now None i d).1 =
    List.filter (fun x => negb (bool_decide (m_id x = Some i))) (InMemory.active_models d).
Proof.
  intros [Hwf Hid] Hd Ha. unfold InMemory.soft_delete. rewrite Hd, Ha. cbn [negb fst snd]. split; [done|].
  assert (forall k x, (k, InMemory.Row x) ∈ d -> m_id x = Some k) as Hrow by (intros k x Hin; by apply Hid, elem_dget).
  set (gone := upd_base _ m). assert (m_active gone = false) as Hg by (unfold gone; by rewrite m_active_upd).
  clearbody gone. unfold InMemory.active_models, dvalues, dwf, dkeys in *. clear Hid.
  induction d as [|[k r] d IH]; [done|]. cbn [map fst] in Hwf. apply NoDup_cons in Hwf as [Hni Hwf].
  assert (forall x, m_active x = true -> r = InMemory.Row x -> m_id x = Some k) as Hk by (intros x _ ->; apply Hrow; by left).
  simpl in Hd. cbn [dset]. case_decide as Ek.
  - simplify_eq. cbn [map snd omap list_omap InMemory.active_row]. rewrite Hg, Ha. cbn [List.filter].
    rewrite (Hk m), bool_decide_eq_true_2 by done. cbn [negb].
    assert (forall x, x ∈ omap InMemory.active_row (map snd d) -> m_id x <> Some k) as Hne.
    { intros x (r & Hr & Hx)%list_elem_of_omap E. apply list_elem_of_fmap in Hr as ([k' r'] & -> & Hin).
      destruct r' as [x'|]; simpl in Hx; [|done]. destruct (m_active x'); simplify_eq.
      rewrite (Hrow k' x) in E by (by right). simplify_eq. apply Hni, list_elem_of_fmap. by exists (k, InMemory.Row x). }
    symmetry. apply lfilter_id. intros x Hx. rewrite bool_decide_eq_false_2; [done|by apply Hne].
  - assert (forall k x, (k, InMemory.Row x) ∈ d -> m_id x = Some k) as Hrow' by (intros; apply Hrow; by right).
    specialize (IH Hwf Hd Hrow'). cbn [map snd omap list_omap]. destruct r as [x|b]; simpl; [|done].
    destruct (m_active x) eqn:Ex; [|done]. cbn [List.filter]. rewrite (Hk x) by done.
    rewrite bool_decide_eq_false_2 by congruence. cbn [negb]. f_equal. exact IH.
Qed.

Notation active_sessions w := (InMemory.active_models (sessions w)).
Definition unless (ids : list (option string)) (s : SessionRecord) : bool := negb (bool_decide (m_id s ∈ ids)).

Lemma delete_session_active w s : InMemory.store_ok (sessions w) -> s ∈ active_sessions w ->
  exists w', delete_session (default "" (m_id s)) w = (w', Ok true) /\ InMemory.store_ok (sessions w') /\
    active_sessions w' = List.filter (unless [m_id s]) (active_sessions w).
Proof.
  intros Hs Hin. pose proof Hs as [_ Hid]. apply (InMemory.active_models_elem _ _ Hs) in Hin as (k & Hk & Ha).
  rewrite (Hid _ _ Hk). cbn [default id from_option].
  unfold AuthStore.delete_session, AuthStore.utc_now, se_bind. cbn [sessions set_ticks].
  destruct (soft_delete_active_models (clock (ticks w)) k (sessions w) s Hs Hk Ha) as [Hr Hm].
  pose proof (rp_soft_delete_inv (RepositoryLaws := InMemory.laws) (clock (ticks w)) None k (sessions w) Hs) as Hs'.
  cbn [rp_soft_delete InMemory.repository rp_inv InMemory.laws] in Hs'.
  destruct (InMemory.soft_delete _ _ _ _) as [d r]. cbn [fst snd] in *. subst r.
  eexists. split; [done|]. split; [done|]. cbn [sessions set_sessions]. rewrite Hm. apply List.filter_ext. intros x.
  unfold unless. f_equal. apply bool_decide_ext. by rewrite list_elem_of_singleton.
Qed.

Lemma delete_each_run rows : forall n w, InMemory.store_ok (sessions w) -> NoDup (map m_id rows) ->
  (forall s, s ∈ rows -> s ∈ active_sessions w /\ opt_truthy (m_id s) = true) ->
  exists w', delete_each clock rows n w = (w', Ok (n + Z.of_nat (length rows))) /\
    active_sessions w' = List.filter (unless (map m_id rows)) (active_sessions w).
Proof.
  clear jwt_decode.
  induction rows as [|s rows IH]; intros n w Hs Hnd Hrows; simpl.
  - exists w. split; [unfold se_ret; do 2 f_equal; lia|]. symmetry. by apply lfilter_id.
  - apply NoDup_cons in Hnd as [Hni Hnd]. destruct (Hrows s) as [Hin ->]; [by left|].
    destruct (delete_session_active w s Hs Hin) as (w1 & Hd & Hs1 & Ha1). unfold se_bind. rewrite Hd.
    destruct (IH (n + 1) w1 Hs1 Hnd) as (w2 & Hr & Ha2).
    + intros x Hx. destruct (Hrows x) as [Hxin Hxt]; [by right|]. split; [|done]. rewrite Ha1.
      rewrite elem_of_lfilter. split; [done|]. unfold unless.
      rewrite bool_decide_eq_false_2; [done|]. rewrite list_elem_of_singleton. intros E. apply Hni. rewrite <- E.
      apply list_elem_of_fmap. by exists x.
    + exists w2. rewrite Hr. split; [do 2 f_equal; lia|]. rewrite Ha2, Ha1.
      rewrite lfilter_lfilter. apply List.filter_ext. intros x. unfold unless. cbn [map].
      rewrite <- negb_orb, <- bool_decide_or. f_equal. apply bool_decide_ext. set_solver.
Qed.

Lemma unless_page (l : list SessionRecord) n : NoDup (map m_id l) ->
  List.filter (unless (map m_id (take n l))) l = drop n l.
Proof.
  revert n. induction l as [|s l IH]; intros n Hnd; [by destruct n|]. apply NoDup_cons in Hnd as [Hni Hnd].
  destruct n as [|n]; [by apply lfilter_id|]. cbn [take map List.filter drop].
  unfold unless at 1. rewrite bool_decide_eq_true_2 by (by left). cbn [negb]. rewrite <- (IH n Hnd).
  apply List.filter_ext_in. intros x Hx%list_elem_of_In. unfold unless. f_equal. apply bool_decide_ext. rewrite elem_of_cons.
  split; [intros [E|]; [|done]|by right]. destruct Hni. rewrite <- E. apply list_elem_of_fmap. by exists x.
Qed.
Definition mine (i : string) (w : world) : list SessionRecord :=
  List.filter (fun s => matches s [("user_id", VStr i)]) (active_sessions w).

(** A session sweep reaches exactly one page: of the user's active session and
    refresh rows the first hundred in stored order are soft-deleted and counted, every
    later one stays active, and no other user's row is touched. Up to a hundred rows it
    revokes everything. *)
Theorem session_sweep_one_page i w :
  InMemory.store_ok (sessions w) -> dget "" (sessions w) = None ->
  exists w', delete_user_sessions i w = (w', Ok (Z.of_nat (length (take 100 (mine i w))))) /\
    mine i w' = drop 100 (mine i w) /\
    List.filter (fun s => negb (matches s [("user_id", VStr i)])) (active_sessions w') =
      List.filter (fun s => negb (matches s [("user_id", VStr i)])) (active_sessions w).
Proof using clock.
  intros Hs Hne. unfold AuthStore.delete_user_sessions, ask, se_bind.
  change (InMemory.find_many "user_id" (VStr i) MAX_PAGE_SIZE (sessions w)) with (take 100 (mine i w)).
  assert (NoDup (map m_id (mine i w))) as Hnd by (by apply lfilter_NoDup, InMemory.active_models_ids).
  destruct (delete_each_run (take 100 (mine i w)) 0 w Hs) as (w' & Hr & Ha).
  - rewrite <- firstn_map. eapply sublist_NoDup; [exact Hnd|apply sublist_take].
  - intros s Hin%(subseteq_take _ _). unfold mine in Hin.
    apply elem_of_lfilter in Hin as [Hin _]. split; [done|].
    pose proof Hs as [_ Hid]. apply (InMemory.active_models_elem _ _ Hs) in Hin as (k & Hk & _).
    rewrite (Hid _ _ Hk). simpl. destruct k; [congruence|done].
  - exists w'. split; [done|]. split.
    + rewrite <- (unless_page _ 100 Hnd). set (ids := map m_id (take 100 (mine i w))) in *. unfold mine.
      rewrite Ha, !lfilter_lfilter. apply List.filter_ext. intros s. apply andb_comm.
    + rewrite Ha, lfilter_lfilter. apply List.filter_ext_in. intros s Hin%list_elem_of_In.
      destruct (matches s _) eqn:Em; [apply andb_false_r|]. rewrite andb_true_r. unfold unless.
      rewrite bool_decide_eq_false_2; [done|]. intros (s' & E & Hs'%(subseteq_take _ _))%list_elem_of_fmap.
      unfold mine in Hs'. apply elem_of_lfilter in Hs' as [Hin' Hm].
      pose proof Hs as [_ Hid]. apply (InMemory.active_models_elem _ _ Hs) in Hin as (k & Hk & _).
      apply (InMemory.active_models_elem _ _ Hs) in Hin' as (k' & Hk' & _).
      rewrite (Hid _ _ Hk), (Hid _ _ Hk') in E. congruence.
Qed.

(** ** Stored passwords *)
Notation dollar := (of_chars ["$"%char]).
(** A stored password accepts exactly the passwords with its digest: the salt and
    the iteration count are read back from the stored text, so the password it was made
    from always verifies, and another one only when PBKDF2 maps both alike. *)
Theorem password_roundtrip password candidate h w w' :
  (forall n, "$"%char ∉ chars (salt_hex n)) ->
  (forall p s n d, pbkdf2 p s n = Some d -> "$"%char ∉ chars d) ->
  hash_password password w = (w', Ok h) ->
  verify_password candidate h = true <->
  pbkdf2 candidate (salt_hex (minted w)) PBKDF2_ITERATIONS = pbkdf2 password (salt_hex (minted w)) PBKDF2_ITERATIONS.
Proof.
  intros Hsalt Hdigest H. unfold hash_password, new_salt in H. run_inv. simplify_eq.
  destruct (pbkdf2 password _ _) as [d|] eqn:Ed; [|done]. run_inv. unfold verify_password.
  set (salt := salt_hex (minted w)) in *.
  match goal with |- context [split_on _ ?t] => change t with
    ("pbkdf2_sha256" +:+ dollar +:+ "600000" +:+ dollar +:+ salt +:+ dollar +:+ d) end.
  assert ("$"%char ∉ chars "pbkdf2_sha256" /\ "$"%char ∉ chars "600000") as [H1 H2]
    by (split; by apply (bool_decide_unpack _)).
  rewrite (split_on_app _ _ _ H1), (split_on_app _ _ _ H2), (split_on_app _ salt _ (Hsalt _)), split_on_last
    by (by eapply Hdigest).
  rewrite bool_decide_eq_true_2 by done. change (int_text "600000") with (Some PBKDF2_ITERATIONS).
  apply bool_decide_eq_true.
Qed.
End service.
End Auth.

(** ** The theorems at a small deployment *)
Module Small.
Definition unary (n : nat) : string := of_chars (repeat "a"%char n).
Definition clock (n : nat) : Z := Z.of_nat n * 1000000.
Definition secret (n : nat) : string := unary (S n).
Definition digest (t : string) : string := "h" +:+ t.
Definition pbkdf2 (p _ : string) (_ : Z) : option string :=
  Some (of_chars (map (fun c => if bool_decide (c = "$"%char) then "_"%char else c) (chars p))).
Definition encode (_ : dict string val) : string := "x.y.z".
Definition decode (_ : Z) (_ : string) : option (dict string val) := None.
Definition settings : JwtSettings := mkJwt "us" "api" 900 86400.
Definition empty : world := mkWorld [] [] [] [] [] [] [] [] [] 0 0 0.

Notation perform_all := (Auth.perform_all clock secret unary unary digest pbkdf2 encode decode settings).
Definition joined : world := perform_all [Auth.RSignup "a@b.c" None "pw"] empty.
(** The tokens the signup answered with. *)
Definition cookie : string := secret 1.
Definition refresh_cookie : string := secret 3.
Definition the_user : string := "usr_".
Definition rival : Principal :=
  mkPrincipal (Some "usr_x") None "default" "default" owner BySession [] [] [] None None None.

Lemma unary_inj m n : unary m = unary n -> m = n.
Proof.
  intros E. apply (f_equal (fun s => length (chars s))) in E. unfold unary in E.
  by rewrite !chars_of_chars, !repeat_length in E.
Qed.
Lemma minted_fresh k w : (k < minted w)%nat -> Auth.fresh secret digest (digest (secret k)) w.
Proof. intros Hk n Hn E. injection E as E. apply unary_inj in E. lia. Qed.


Notation refresh := (Auth.refresh clock secret unary digest encode settings).
Definition replays : list Auth.request :=
  [Auth.RRefresh (Some refresh_cookie) "ip"; Auth.RLogin "a@b.c" "pw" false "ip"].

Lemma consumed_tokens_stay_dead_witness :
  exists w1 r, refresh (Some refresh_cookie) "ip" joined = (w1, Ok r) /\
    forall w' p, Auth.authenticate clock digest decode (Some refresh_cookie) None (perform_all replays w1) <> (w', Ok p).
Proof.
  destruct (refresh (Some refresh_cookie) "ip" joined) as [w1 [r|e]] eqn:E.
  - exists w1, r. split; [done|].
    apply (Auth.consumed_tokens_stay_dead clock secret unary unary digest pbkdf2 encode decode settings
             ltac:(done) [Auth.RSignup "a@b.c" None "pw"] empty refresh_cookie joined w1 replays).
    + by intros h s.
    + done.
    + done.
    + apply minted_fresh. vm_compute. lia.
    + left. by exists "ip", r.
  - exfalso. revert E. vm_compute. done.
Defined.

Lemma authenticate_live_witness :
  exists w' p, Auth.authenticate clock digest decode (Some cookie) None joined = (w', Ok p) /\
    exists i u, Auth.live i u joined /\ Auth.stands_for p u.
Proof.
  destruct (Auth.authenticate clock digest decode (Some cookie) None joined) as [w' [p|e]] eqn:E.
  - exists w', p. split; [done|].
    destruct (Auth.authenticate_live clock digest decode (Some cookie) None joined w' p E) as (i & u & Hl & Hs & _).
    by exists i, u.
  - exfalso. revert E. vm_compute. done.
Defined.

(** Twelve identifiers are told apart by their length. *)
Lemma twelve_ids m n : (m < 12)%nat -> (n < 12)%nat ->
  Wallet.new_id "usr" (unary m) = Wallet.new_id "usr" (unary n) -> m = n.
Proof.
  intros Hm Hn E. apply unary_inj. do 12 (destruct m as [|m]; [do 12 (destruct n as [|n]; [by vm_compute in E; simplify_eq|]); lia|]). lia.
Qed.

Definition demotions : list Auth.request :=
  [Auth.RSetRole rival the_user viewer; Auth.RDeleteUser rival the_user; Auth.RChangePassword rival "pw" "x"].
Lemma joined_one : exists u, users joined = [(the_user, InMemory.Row u)] /\ user_id u = the_user /\ m_id u = Some the_user.
Proof. eexists. split_and!; [vm_compute; reflexivity|done|done]. Qed.
Lemma joined_users i u : dget i (users joined) = Some (InMemory.Row u) -> i = the_user /\ user_id u = i /\ m_id u = Some i.
Proof.
  destruct joined_one as (u0 & -> & Hi & Hm). cbn [dget]. case_decide; [|done]. intros; by simplify_eq.
Qed.

Lemma last_owner_survives_witness : Auth.owned "default" (perform_all demotions joined).
Proof.
  apply (Auth.last_owner_survives clock secret unary unary digest pbkdf2 encode decode settings 12 twelve_ids).
  - split; [split|].
    + apply (bool_decide_unpack (NoDup _)). vm_compute. exact I.
    + intros i u Hu. by apply joined_users in Hu as (_ & _ & ?).
    + intros i u Hu. apply joined_users in Hu as (-> & ? & _). done.
  - intros n Hn. replace (drawn joined) with 2%nat in Hn by (vm_compute; reflexivity).
    destruct joined_one as (u & -> & _). cbn [dget]. rewrite decide_False; [done|].
    intros E. pose proof (twelve_ids n 0 ltac:(lia) ltac:(lia) E); lia.
  - eexists the_user, _. split; [split; vm_compute; reflexivity|vm_compute; reflexivity].
  - vm_compute. lia.
Defined.

(** A user with a hundred and one open sessions. *)
Definition open_session (k : nat) : string * InMemory.row SessionRecord :=
  (digest (secret k), InMemory.Row (mkSession (set_id (Some (digest (secret k))) (base_default 0 None))
     (digest (secret k)) the_user "default" KSession 60 0)).
Definition crowded : world := set_sessions (map open_session (seq 0 101)) empty.

Lemma crowded_ok : InMemory.store_ok (sessions crowded).
Proof.
  split.
  - apply (bool_decide_unpack (NoDup _)). vm_compute. exact I.
  - intros k s (n & [= -> ->] & _)%dget_Some_elem%list_elem_of_fmap. done.
Qed.

Lemma session_sweep_one_page_witness :
  exists w', delete_user_sessions clock the_user crowded = (w', Ok 100) /\ length (Auth.mine the_user w') = 1%nat.
Proof.
  destruct (Auth.session_sweep_one_page clock the_user crowded crowded_ok) as (w' & Hr & Hm & _).
  - vm_compute. reflexivity.
  - exists w'. rewrite Hr, Hm. split; [do 2 f_equal; vm_compute; reflexivity|vm_compute; reflexivity].
Defined.

Lemma password_roundtrip_witness :
  exists w' h, Auth.hash_password unary pbkdf2 "s$cret" empty = (w', Ok h) /\
    Auth.verify_password pbkdf2 "s$cret" h = true.
Proof.
  destruct (Auth.hash_password unary pbkdf2 "s$cret" empty) as [w' [h|e]] eqn:E.
  - exists w', h. split; [done|].
    apply (Auth.password_roundtrip unary pbkdf2 "s$cret" "s$cret" h empty w'); [| |done|done].
    + intros n. unfold unary. rewrite chars_of_chars. intros E'%list_elem_of_In%repeat_spec. done.
    + intros p salt n d [= <-]. rewrite chars_of_chars. intros (c & E' & _)%list_elem_of_fmap. by case_bool_decide.
  - exfalso. revert E. vm_compute. done.
Defined.
End Small.
