(* ===== verification/LidBuffer.v ===== *)
(** * The language detector's backend (src/voiceai/lid/base.py)

    [LIDBackend]: the audio feed queue, the reconnect state machine and the
    per-turn buffer of recognised segments. The fields of the object are grouped
    by the code that writes them. [time.time()] and [time.monotonic()] readings are
    arguments, exact rationals in seconds; what a provider's subclass supplies
    ([start], [_on_reconnect_reset]) and what other tasks do while [_reconnect]
    sleeps are the class [Provider]. *)
From S2P Require Import Prelude PyText PyVal.
From Stdlib Require Import QArith.QArith Lqa.
Close Scope Q_scope.
Open Scope Z_scope.

Notation byte := Corelib.Init.Byte.byte.

Module LIDBackend.
Definition BUFFER_SEGMENT_MAX_AGE_S : Q := Qmake 30 1.
Definition MAX_RECONNECTS : Z := 2.
Definition RECONNECT_RESET_WINDOW_S : Q := Qmake 30 1.
Definition QUEUE_MAXSIZE : nat := 20.

Record segment := mkSegment {
  seg_lang : option string;
  seg_prob : option Q;
  seg_text : string;
  seg_audio_s : Q;
  seg_ts : Q }.

(** The per-turn buffer. *)
Record buffer := mkBuffer {
  buffer_text : string;
  buffer_lang : option string;
  buffer_lang_streak : Z;
  buffer_max_segment_s : Q;
  buffer_last_segment_ts : option Q;
  buffer_lang_prob : option Q;
  buffer_segments : list segment;
  buffer_event : bool }.

(** The socket, its tasks and the reconnect books. *)
Record link := mkLink {
  ws : bool;
  sender_running : bool;
  receiver_running : bool;
  dead : bool;
  stopping : bool;
  reconnecting : bool;
  reconnect_attempts : Z;
  last_reconnect_at : Q;
  dead_drop_logged : bool;
  reconnect_running : bool }.

(** The feed queue and the health counters; [None] in the queue is the sentinel
    that stops the sender. *)
Record tap := mkTap {
  queue : list (option (list byte));
  chunks_fed : Z;
  bytes_fed : Z;
  input_bytes_per_second : Z;
  chunks_dropped : Z;
  segments_received : Z;
  unknown_frames : Z }.

Record backend := mkBackend { the_link : link; the_tap : tap; the_buffer : buffer }.

Definition empty_buffer : buffer := mkBuffer "" None 0 0%Q None None [] false.
Definition init : backend :=
  mkBackend (mkLink false false false false false false 0 0%Q false false)
    (mkTap [] 0 0 0 0 0 0) empty_buffer.

(** ** Feeding audio *)

(** [put_nowait]: [None] is [QueueFull]. *)
Definition put_nowait (x : option (list byte)) (q : list (option (list byte))) : option (list (option (list byte))) :=
  if (length q <? QUEUE_MAXSIZE)%nat then Some (q ++ [x]) else None.

Definition feed (audio_bytes : list byte) (b : backend) : backend :=
  let l := the_link b in
  let t := the_tap b in
  if dead l
  then mkBackend
         (mkLink (ws l) (sender_running l) (receiver_running l) (dead l) (stopping l) (reconnecting l)
            (reconnect_attempts l) (last_reconnect_at l) true (reconnect_running l)) t (the_buffer b)
  else match put_nowait (Some audio_bytes) (queue t) with
       | Some q =>
           mkBackend l
             (mkTap q (chunks_fed t + 1) (bytes_fed t + Z.of_nat (length audio_bytes)) (input_bytes_per_second t)
                (chunks_dropped t) (segments_received t) (unknown_frames t)) (the_buffer b)
       | None =>
           mkBackend l
             (mkTap (queue t) (chunks_fed t) (bytes_fed t) (input_bytes_per_second t) (chunks_dropped t + 1)
                (segments_received t) (unknown_frames t)) (the_buffer b)
       end.

Definition set_input_audio_format (encoding : option string) (sample_rate : Z) (b : backend) : backend :=
  let t := the_tap b in
  let rate := if contains (default "" encoding) "law" then sample_rate else 2 * sample_rate in
  mkBackend (the_link b)
    (mkTap (queue t) (chunks_fed t) (bytes_fed t) rate (chunks_dropped t) (segments_received t) (unknown_frames t))
    (the_buffer b).

Definition audio_seconds_fed (b : backend) : Q :=
  let t := the_tap b in
  if input_bytes_per_second t =? 0 then 0%Q
  else py_round 2 (inject_Z (bytes_fed t) / inject_Z (input_bytes_per_second t)).

(** ** The per-turn buffer *)

Definition fresh (cutoff : Q) (s : segment) : bool := Qle_bool cutoff (seg_ts s).
Definition buffered_text (segs : list segment) : string :=
  join " " (map seg_text (List.filter (fun s => str_true (seg_text s)) segs)).
(** [max(..., default=0.0)]: the first of the greatest. *)
Definition max_audio (segs : list segment) : Q :=
  match segs with
  | [] => 0%Q
  | s :: segs' => fold_left (fun m x => if Qltb m (seg_audio_s x) then seg_audio_s x else m) segs' (seg_audio_s s)
  end.
Definition lang_true (lang : option string) : bool := match lang with Some l => str_true l | None => false end.

(** [mono] is the [time.monotonic()] reading, [t_seg] and [t_cut] the two
    [time.time()] readings. *)
Definition accumulate (transcript : string) (lang : option string) (audio_s : option Q) (prob : option Q)
    (mono t_seg t_cut : Q) (u : buffer) : buffer :=
  if str_true transcript
  then
    let segs0 := buffer_segments u ++ [mkSegment lang prob transcript (py_round 3 (default 0%Q audio_s)) t_seg] in
    let cutoff := (t_cut - BUFFER_SEGMENT_MAX_AGE_S)%Q in
    let segs := List.filter (fresh cutoff) segs0 in
    let streak := if bool_decide (lang = buffer_lang u) then buffer_lang_streak u + 1 else 1 in
    mkBuffer (buffered_text segs)
      (if lang_true lang then lang else buffer_lang u)
      (if lang_true lang then streak else buffer_lang_streak u)
      (max_audio segs) (Some mono)
      (if lang_true lang then prob else buffer_lang_prob u)
      segs true
  else u.

Definition buffer_age_seconds (mono : Q) (u : buffer) : option Q :=
  if negb (str_true (strip (buffer_text u))) then None
  else match buffer_last_segment_ts u with
       | None => None
       | Some ts => Some (mono - ts)%Q
       end.

Definition take_turn_transcript (u : buffer) : (string * option string) * buffer :=
  ((strip (buffer_text u), buffer_lang u), empty_buffer).

(** ** Reconnecting *)

(** [_schedule_reconnect]: whether a reconnect task is started. *)
Definition schedule_reconnect (l : link) : link * bool :=
  if stopping l then (l, false)
  else if reconnecting l
  then (mkLink (ws l) (sender_running l) (receiver_running l) true (stopping l) (reconnecting l)
          (reconnect_attempts l) (last_reconnect_at l) (dead_drop_logged l) (reconnect_running l), false)
  else (mkLink (ws l) (sender_running l) (receiver_running l) true (stopping l) true
          (reconnect_attempts l) (last_reconnect_at l) (dead_drop_logged l) true, true).

Definition set_attempts (n : Z) (l : link) : link :=
  mkLink (ws l) (sender_running l) (receiver_running l) (dead l) (stopping l) (reconnecting l)
    n (last_reconnect_at l) (dead_drop_logged l) (reconnect_running l).

(** What runs beside the base class during a reconnect: [opened] is
    [_on_reconnect_reset] and the half-second sleep with whatever the other tasks
    do in it (feeding, a failing sender, a shutdown); [start] is the provider's
    [start()], its flag whether it returned. Neither writes the reconnect
    books. *)
Class Provider := {
  opened : link -> link;
  start : link -> link * bool;
  opened_attempts l : reconnect_attempts (opened l) = reconnect_attempts l;
  opened_last l : last_reconnect_at (opened l) = last_reconnect_at l;
  start_attempts l : reconnect_attempts (fst (start l)) = reconnect_attempts l;
  start_last l : last_reconnect_at (fst (start l)) = last_reconnect_at l }.

Section reconnect.
Context {P : Provider}.

(** The old tasks cancelled and awaited, the old socket closed. *)
Definition tear_down (l : link) : link :=
  mkLink (ws l) false false (dead l) (stopping l) (reconnecting l)
    (reconnect_attempts l) (last_reconnect_at l) (dead_drop_logged l) (reconnect_running l).

Definition revive (l : link) : link :=
  mkLink (ws l) (sender_running l) (receiver_running l) false (stopping l) (reconnecting l)
    (reconnect_attempts l) (last_reconnect_at l) false (reconnect_running l).

(** The [while] loop of [_reconnect]; the count is of calls to [start()]. [None]
    is the fuel running out. *)
Fixpoint reconnect_loop (fuel : nat) (l : link) (starts : Z) : option (link * Z) :=
  match fuel with
  | O => None
  | S fuel' =>
      if stopping l then Some (l, starts)
      else if MAX_RECONNECTS <=? reconnect_attempts l then Some (l, starts)
      else
        let l1 := opened (tear_down (set_attempts (reconnect_attempts l + 1) l)) in
        if stopping l1 then Some (l1, starts)
        else match start l1 with
             | (l2, true) => Some (revive l2, starts + 1)
             | (l2, false) => reconnect_loop fuel' l2 (starts + 1)
             end
  end.

Definition RECONNECT_FUEL : nat := 3.

(** [_reconnect] entered at [now], and its [finally]. *)
Definition enter_incident (now : Q) (l : link) : link :=
  mkLink (ws l) (sender_running l) (receiver_running l) (dead l) (stopping l) (reconnecting l)
    (if Qltb RECONNECT_RESET_WINDOW_S (now - last_reconnect_at l) then 0 else reconnect_attempts l)
    now (dead_drop_logged l) (reconnect_running l).
Definition leave_incident (l : link) : link :=
  mkLink (ws l) (sender_running l) (receiver_running l) (dead l) (stopping l) false
    (reconnect_attempts l) (last_reconnect_at l) (dead_drop_logged l) false.

Definition reconnect (now : Q) (l : link) : option (link * Z) :=
  match reconnect_loop RECONNECT_FUEL (enter_incident now l) 0 with
  | Some (l', n) => Some (leave_incident l', n)
  | None => None
  end.

(** Drops one after the other, each reconnect over before the next drop. *)
Fixpoint drops (times : list Q) (l : link) : option (link * Z) :=
  match times with
  | [] => Some (l, 0)
  | now :: rest =>
      match schedule_reconnect l with
      | (l1, false) => drops rest l1
      | (l1, true) =>
          match reconnect now l1 with
          | None => None
          | Some (l2, n) => (fun '(l3, m) => (l3, n + m)) <$> drops rest l2
          end
      end
  end.
End reconnect.

(** [_shutdown_connection]: the running reconnect, sender and receiver are
    cancelled, the sentinel is queued, a full queue being emptied first. *)
Definition shutdown_connection (b : backend) : backend :=
  let l := the_link b in
  let t := the_tap b in
  let q := match put_nowait None (queue t) with Some q => q | None => [None] end in
  mkBackend
    (mkLink (ws l) false false (dead l) true (reconnecting l && negb (reconnect_running l)) (reconnect_attempts l)
       (last_reconnect_at l) (dead_drop_logged l) false)
    (mkTap q (chunks_fed t) (bytes_fed t) (input_bytes_per_second t) (chunks_dropped t) (segments_received t)
       (unknown_frames t)) (the_buffer b).

(** ** The reconnect books *)

Section bounded.
Context {P : Provider}.

(** A reconnect loop with fuel for its attempts ends: alive, stopping, or at the
    cap; every [start()] is counted in the attempts. *)
Lemma reconnect_loop_ends fuel l k :
  0 <= reconnect_attempts l -> Z.max 0 (MAX_RECONNECTS - reconnect_attempts l) < Z.of_nat fuel ->
  exists l' n, reconnect_loop fuel l k = Some (l', k + n) /\ 0 <= n /\
    reconnect_attempts l + n <= reconnect_attempts l' <= Z.max (reconnect_attempts l) MAX_RECONNECTS /\
    last_reconnect_at l' = last_reconnect_at l /\
    (dead l' = false \/ stopping l' = true \/ MAX_RECONNECTS <= reconnect_attempts l').
Proof.
  revert l k. induction fuel as [|fuel IH]; intros l k H0 Hf; [lia|simpl].
  destruct (stopping l) eqn:Es; [exists l, 0; rewrite Z.add_0_r; repeat split; auto; lia|].
  destruct (Z.leb_spec MAX_RECONNECTS (reconnect_attempts l)) as [Hc|Hc];
    [exists l, 0; rewrite Z.add_0_r; repeat split; auto; lia|].
  set (l1 := opened _).
  assert (reconnect_attempts l1 = reconnect_attempts l + 1) as Ha by apply opened_attempts.
  assert (last_reconnect_at l1 = last_reconnect_at l) as Hl by (etransitivity; [apply opened_last|done]).
  destruct (stopping l1) eqn:Es1; [exists l1, 0; rewrite Z.add_0_r; repeat split; auto; lia|].
  pose proof (start_attempts l1) as Ha2. pose proof (start_last l1) as Hl2.
  destruct (start l1) as [l2 [|]]; simpl in *.
  - exists (revive l2), 1. simpl. repeat split; auto; try lia. congruence.
  - destruct (IH l2 (k + 1)) as (l3 & n & -> & Hn & Hb & Hl3 & Ho); [lia..|].
    exists l3, (n + 1). repeat split; try lia; try congruence. do 2 f_equal. lia.
Qed.

(** An incident, with its return to [reconnecting = False]. *)
Lemma reconnect_ends now l :
  0 <= reconnect_attempts l ->
  let a := reconnect_attempts (enter_incident now l) in
  exists l' n, reconnect now l = Some (l', n) /\ 0 <= n /\
    a + n <= reconnect_attempts l' <= Z.max a MAX_RECONNECTS /\
    last_reconnect_at l' = now /\ reconnecting l' = false /\
    (dead l' = false \/ stopping l' = true \/ MAX_RECONNECTS <= reconnect_attempts l').
Proof.
  intros H0 a. unfold reconnect.
  assert (0 <= a) as Ha by (unfold a, enter_incident; simpl; case_match; lia).
  destruct (reconnect_loop_ends RECONNECT_FUEL (enter_incident now l) 0) as (l' & n & -> & Hn & Hb & Hl & Ho);
    [done|unfold RECONNECT_FUEL, MAX_RECONNECTS; fold a; lia|].
  exists (leave_incident l'), n. split_and!; [done|done|apply Hb|apply Hb|exact Hl|done|exact Ho].
Qed.

Lemma drops_stopping times l : stopping l = true -> drops times l = Some (l, 0).
Proof. intros H. induction times as [|t times IH]; simpl; [done|]. unfold schedule_reconnect. by rewrite H. Qed.

(** Each drop within the window of the one before. *)
Fixpoint crowded (prev : Q) (times : list Q) : Prop :=
  match times with
  | [] => True
  | t :: rest => (t - prev <= RECONNECT_RESET_WINDOW_S)%Q /\ crowded t rest
  end.

Lemma crowded_drops times l :
  reconnecting l = false -> 0 <= reconnect_attempts l -> crowded (last_reconnect_at l) times ->
  exists l' n, drops times l = Some (l', n) /\ 0 <= n <= Z.max 0 (MAX_RECONNECTS - reconnect_attempts l).
Proof.
  revert l. induction times as [|t times IH]; intros l Hr H0; simpl; [exists l, 0; by repeat split; lia|].
  intros [Hw Hc]. unfold schedule_reconnect. rewrite Hr.
  destruct (stopping l) eqn:Es; [rewrite drops_stopping by done; exists l, 0; repeat split; lia|].
  set (l1 := mkLink _ _ _ _ _ _ _ _ _ _).
  destruct (reconnect_ends t l1) as (l2 & n & -> & Hn & Hb & Hl & Hr2 & _); [done|].
  assert (reconnect_attempts (enter_incident t l1) = reconnect_attempts l) as Ha.
  { unfold enter_incident, l1. simpl. by rewrite (proj2 (Qltb_ge _ _) Hw). }
  rewrite Ha in Hb. destruct (IH l2) as (l3 & m & -> & Hm); [done|lia|by rewrite Hl|].
  exists l3, (n + m). split; [done|]. unfold MAX_RECONNECTS in *. lia.
Qed.

(** A storm of drops, each within the window of the one before, makes at most
    [MAX_RECONNECTS] calls to [start()] in all, and each reconnect returns: alive,
    stopping, or at the cap. *)
Theorem reconnect_storm_bounded t times l :
  reconnecting l = false -> 0 <= reconnect_attempts l -> crowded t times ->
  (exists l' n, drops (t :: times) l = Some (l', n) /\ 0 <= n <= MAX_RECONNECTS) /\
  (forall now, exists l' n, reconnect now l = Some (l', n) /\ reconnecting l' = false /\
     (dead l' = false \/ stopping l' = true \/ MAX_RECONNECTS <= reconnect_attempts l')).
Proof.
  intros Hr H0 Hc. split.
  - simpl. unfold schedule_reconnect. rewrite Hr.
    destruct (stopping l) eqn:Es; [rewrite drops_stopping by done; exists l, 0; repeat split; unfold MAX_RECONNECTS; lia|].
    set (l1 := mkLink _ _ _ _ _ _ _ _ _ _).
    destruct (reconnect_ends t l1) as (l2 & n & -> & Hn & Hb & Hl & Hr2 & _); [done|].
    assert (0 <= reconnect_attempts (enter_incident t l1)) as Ha by (unfold enter_incident; simpl; case_match; lia).
    destruct (crowded_drops times l2) as (l3 & m & -> & Hm); [done|lia|by rewrite Hl|].
    exists l3, (n + m). split; [done|]. unfold MAX_RECONNECTS in *. lia.
  - intros now. destruct (reconnect_ends now l) as (l' & n & ? & ? & ? & ? & ? & ?); [done|]. by exists l', n.
Qed.
End bounded.

(** A provider whose [start()] fails twice and then succeeds. *)
#[local] Program Instance flaky : Provider := {|
  opened l := l;
  start l := (mkLink true (reconnect_attempts l =? 2) (reconnect_attempts l =? 2) (dead l) (stopping l)
                (reconnecting l) (reconnect_attempts l) (last_reconnect_at l) (dead_drop_logged l)
                (reconnect_running l), reconnect_attempts l =? 2) |}.

Lemma reconnect_storm_bounded_witness :
  (exists l' n, drops [Qmake 100 1; Qmake 110 1; Qmake 125 1] (the_link init) = Some (l', n) /\ 0 <= n <= MAX_RECONNECTS) /\
  (forall now, exists l' n, reconnect now (the_link init) = Some (l', n) /\ reconnecting l' = false /\
     (dead l' = false \/ stopping l' = true \/ MAX_RECONNECTS <= reconnect_attempts l')).
Proof. apply reconnect_storm_bounded; [done|done|]. by repeat split; vm_compute. Defined.

(** ** The buffer's books *)

Definition max_of (segs : list segment) (m : Q) : Prop :=
  (segs = [] /\ m = 0%Q) \/ ((exists s, s ∈ segs /\ m = seg_audio_s s) /\ forall s, s ∈ segs -> (seg_audio_s s <= m)%Q).

Lemma max_audio_fold segs m :
  let r := fold_left (fun m x => if Qltb m (seg_audio_s x) then seg_audio_s x else m) segs m in
  (m <= r)%Q /\ (r = m \/ exists s, s ∈ segs /\ r = seg_audio_s s) /\ forall s, s ∈ segs -> (seg_audio_s s <= r)%Q.
Proof.
  revert m. induction segs as [|x segs IH]; intros m; simpl; [split; [lra|]; split; [by left|set_solver]|].
  destruct (Qltb m (seg_audio_s x)) eqn:E; qbool.
  - destruct (IH (seg_audio_s x)) as (Hge & Hw & Hall). split; [lra|]. split.
    + destruct Hw as [->|(s & ? & ->)]; [right; exists x|right; exists s]; set_solver.
    + intros s [->|Hs]%elem_of_cons; [lra|by apply Hall].
  - destruct (IH m) as (Hge & Hw & Hall). split; [done|]. split.
    + destruct Hw as [->|(s & ? & ->)]; [by left|right; exists s; set_solver].
    + intros s [->|Hs]%elem_of_cons; [lra|by apply Hall].
Qed.

Lemma max_audio_max segs : max_of segs (max_audio segs).
Proof.
  destruct segs as [|x segs]; [by left|right]. simpl.
  destruct (max_audio_fold segs (seg_audio_s x)) as (Hge & Hw & Hall). split.
  - destruct Hw as [->|(s & ? & ->)]; [exists x|exists s]; set_solver.
  - intros s [->|Hs]%elem_of_cons; [done|by apply Hall].
Qed.

(** What an [_accumulate] is given, with its clock readings. *)
Record heard := mkHeard {
  h_text : string; h_lang : option string; h_audio_s : option Q; h_prob : option Q;
  h_mono : Q; h_ts : Q; h_cut : Q }.
Definition hear (u : buffer) (h : heard) : buffer :=
  accumulate (h_text h) (h_lang h) (h_audio_s h) (h_prob h) (h_mono h) (h_ts h) (h_cut h) u.
Definition spoken (h : heard) : bool := str_true (h_text h).
Definition segment_of (h : heard) : segment :=
  mkSegment (h_lang h) (h_prob h) (h_text h) (py_round 3 (default 0%Q (h_audio_s h))) (h_ts h).
Definition cutoff (h : heard) : Q := (h_cut h - BUFFER_SEGMENT_MAX_AGE_S)%Q.

(** The state a buffer can be in between operations. *)
Definition books (u : buffer) : Prop :=
  buffer_text u = buffered_text (buffer_segments u) /\
  buffer_max_segment_s u = max_audio (buffer_segments u) /\
  Forall (fun s => str_true (seg_text s) = true) (buffer_segments u) /\
  (buffer_segments u <> [] -> is_Some (buffer_last_segment_ts u)) /\
  (is_Some (buffer_lang u) <-> 0 < buffer_lang_streak u).

Lemma books_empty : books empty_buffer.
Proof. repeat split; simpl; done. Qed.

Lemma books_hear h u : books u -> books (hear u h).
Proof.
  intros (Ht & Hm & Hf & Hl & Hs). unfold hear, accumulate. destruct (str_true (h_text h)) eqn:E; [|by repeat split; try apply Hs].
  repeat split; simpl; try done.
  - apply Forall_forall. intros s [[Hin|Hin]%elem_of_app _]%elem_of_lfilter.
    + by apply (proj1 (Forall_forall _ _) Hf).
    + apply list_elem_of_singleton in Hin as ->. done.
  - destruct (lang_true (h_lang h)) eqn:El; [|by apply Hs]. intros H.
    case_bool_decide as Hd; [|lia]. assert (0 < buffer_lang_streak u) by (apply Hs; by rewrite <- Hd). lia.
  - destruct (lang_true (h_lang h)) eqn:El; [|by apply Hs]. intros _. destruct (h_lang h); [by eexists|done].
Qed.

Lemma books_run hs u : books u -> books (fold_left hear hs u).
Proof. revert u. induction hs as [|h hs IH]; intros u Hu; simpl; [done|]. by apply IH, books_hear. Qed.

(** With a buffer in that state, unread speech always has an age. *)
Lemma books_age mono u : books u -> str_true (strip (buffer_text u)) = true -> is_Some (buffer_age_seconds mono u).
Proof.
  intros (Ht & _ & _ & Hl & _) Hb. unfold buffer_age_seconds. rewrite Hb. simpl.
  destruct Hl as [ts ->]; [|by eexists]. intros E. rewrite Ht, E in Hb. done.
Qed.

Lemma str_true_strip s : str_true (strip s) = true -> str_true s = true.
Proof. by destruct s. Qed.

Lemma hear_segments h u :
  buffer_segments (hear u h) =
    if spoken h then List.filter (fresh (cutoff h)) (buffer_segments u ++ [segment_of h]) else buffer_segments u.
Proof. unfold hear, accumulate, spoken. by destruct (str_true (h_text h)). Qed.

(** The retained segments, up to a later cutoff. *)
Lemma run_segments c hs :
  Forall (fun h => (cutoff h <= c)%Q) hs ->
  List.filter (fresh c) (buffer_segments (fold_left hear hs empty_buffer)) =
  List.filter (fresh c) (map segment_of (List.filter spoken hs)).
Proof.
  induction hs as [|h hs IH] using rev_ind; intros Hc; [done|].
  apply Forall_app in Hc as [Hc Hh]. apply Forall_inv in Hh.
  rewrite fold_left_app. simpl. rewrite hear_segments, (List.filter_app spoken), map_app, (List.filter_app (fresh c) (map _ _)), <- (IH Hc).
  simpl. destruct (spoken h); simpl; [|by rewrite app_nil_r].
  rewrite lfilter_lfilter.
  assert (forall s, fresh (cutoff h) s && fresh c s = fresh c s) as Hf.
  { intros s. unfold fresh. destruct (Qle_bool c (seg_ts s)) eqn:E; [|by rewrite andb_false_r].
    apply Qle_bool_iff in E. rewrite andb_true_r. apply Qle_bool_iff. lra. }
  etransitivity; [apply List.filter_ext, Hf|]. apply List.filter_app.
Qed.

(** However segments were recognised since the last drain, and as long as the
    wall clock did not go back past the last of them: the buffer holds exactly the
    non-empty segments of the 30 seconds before the last; its text is theirs joined,
    and the duration the substance gate reads is the longest of theirs. The books
    of the buffer hold after every call, and unread speech has an age. *)
Theorem accumulate_window hs h mono :
  spoken h = true -> Forall (fun g => (h_cut g <= h_cut h)%Q) hs ->
  let u := fold_left hear (hs ++ [h]) empty_buffer in
  let kept := List.filter (fresh (cutoff h)) (map segment_of (List.filter spoken (hs ++ [h]))) in
  buffer_segments u = kept /\ buffer_text u = buffered_text kept /\ max_of kept (buffer_max_segment_s u) /\
  books u /\ (str_true (strip (buffer_text u)) = true -> is_Some (buffer_age_seconds mono u)).
Proof.
  intros Hs Hc u kept.
  assert (books u) as Hb by apply books_run, books_empty.
  assert (buffer_segments u = kept) as Hk.
  { unfold u, kept. rewrite fold_left_app. simpl. rewrite hear_segments, Hs.
    rewrite (List.filter_app spoken), map_app, !(List.filter_app (fresh (cutoff h))). f_equal; [|by simpl; rewrite Hs].
    apply run_segments. eapply Forall_impl; [exact Hc|]. simpl. unfold cutoff. intros. lra. }
  pose proof Hb as (Ht & Hm & _). rewrite Hk in Ht, Hm. split_and!; [done|done| |done|].
  - rewrite Hm. apply max_audio_max.
  - by apply books_age.
Qed.

(** Three utterances 20 s apart: the first has aged out. *)
Definition three_utterances : list heard :=
  [mkHeard "namaste" (Some "hi") (Some (Qmake 3 1)) (Some (Qmake 9 10)) (Qmake 5 1) (Qmake 100 1) (Qmake 100 1);
   mkHeard "ok" (Some "en") (Some (Qmake 1 2)) None (Qmake 25 1) (Qmake 120 1) (Qmake 120 1)].
Definition third_utterance : heard :=
  mkHeard "haan ji" (Some "hi") (Some (Qmake 6 5)) (Some (Qmake 8 10)) (Qmake 45 1) (Qmake 140 1) (Qmake 140 1).

Lemma accumulate_window_witness :
  let u := fold_left hear (three_utterances ++ [third_utterance]) empty_buffer in
  buffer_text u = "ok haan ji" /\
  buffer_segments u =
    List.filter (fresh (cutoff third_utterance)) (map segment_of (List.filter spoken (three_utterances ++ [third_utterance]))).
Proof.
  assert (Forall (fun g => (h_cut g <= h_cut third_utterance)%Q) three_utterances) as Hc
    by (repeat constructor; vm_compute; discriminate).
  destruct (accumulate_window three_utterances third_utterance 50%Q eq_refl Hc) as (Hk & _). split; [by vm_compute|exact Hk].
Defined.

(** ** The wake-up event

    The idle watcher waits on the event when the buffer is empty; it relies on
    the event being unset then. *)
Definition wakeable (u : buffer) : Prop :=
  buffer_event u = true -> str_true (strip (buffer_text u)) = true /\ is_Some (buffer_last_segment_ts u).

Lemma wakeable_age mono u : wakeable u -> buffer_event u = true -> is_Some (buffer_age_seconds mono u).
Proof. intros H He. destruct (H He) as [Hb [ts Hts]]. unfold buffer_age_seconds. rewrite Hb, Hts. by eexists. Qed.

(** Kept by a segment that is not blank, stamped within the window, and by a drain. *)
Lemma wakeable_hear h u :
  str_true (strip (h_text h)) = true -> (cutoff h <= h_ts h)%Q -> wakeable u -> wakeable (hear u h).
Proof.
  intros Hb Ht Hu. unfold hear, accumulate. destruct (str_true (h_text h)) eqn:Hn; [|done]. intros _. simpl.
  split; [|by eexists]. apply (join_not_blank _ (h_text h)); [|done].
  apply list_elem_of_In, in_map_iff. exists (segment_of h). split; [done|]. apply filter_In. split; [|done].
  apply filter_In. split; [|by apply Qle_bool_iff]. apply list_elem_of_In. set_solver.
Qed.

Lemma wakeable_drain u : wakeable (snd (take_turn_transcript u)).
Proof. done. Qed.

(** ** The feed queue *)

Inductive feed_op :=
| Fed (audio : list byte)
| Taken
| Died
| Format (encoding : option string) (rate : Z).

Definition feed_step (b : backend) (o : feed_op) : backend :=
  match o with
  | Fed audio => feed audio b
  | Taken =>
      let t := the_tap b in
      mkBackend (the_link b)
        (mkTap (tail (queue t)) (chunks_fed t) (bytes_fed t) (input_bytes_per_second t) (chunks_dropped t)
           (segments_received t) (unknown_frames t)) (the_buffer b)
  | Died => mkBackend (fst (schedule_reconnect (the_link b))) (the_tap b) (the_buffer b)
  | Format encoding rate => set_input_audio_format encoding rate b
  end.

(** The queue stays within its bound, the bytes queued are bytes counted, and the
    seconds billed come only from chunks that entered the queue. *)
Definition tap_ok (b : backend) : Prop :=
  (length (queue (the_tap b)) <= QUEUE_MAXSIZE)%nat /\ 0 <= chunks_fed (the_tap b) /\ 0 <= bytes_fed (the_tap b).

Lemma feed_run_ok os b : tap_ok b -> tap_ok (fold_left feed_step os b).
Proof.
  revert b. induction os as [|o os IH]; intros b Hb; simpl; [done|]. apply IH. destruct Hb as (Hq & Hc & Hf).
  destruct o as [audio| | |enc rate]; simpl; [|by repeat split; simpl; try done; destruct (queue _); simpl in *; lia| |]; [|done..].
  unfold feed, put_nowait. destruct (dead _); [done|]. destruct (Nat.ltb_spec (length (queue (the_tap b))) QUEUE_MAXSIZE) as [Hl|Hl];
    unfold tap_ok; simpl; rewrite ?length_app; simpl; repeat split; lia.
Qed.
End LIDBackend.

(** ** The Soniox backend (src/voiceai/lid/soniox.py)

    Finalised tokens are collected into a pending utterance, flushed at the
    endpoint token. *)
Module SonioxLID.
Import LIDBackend.
Definition SONIOX_ENDPOINT_TOKEN : string := "<end>".

Record token := mkToken {
  tok_text : string; is_final : bool; tok_language : option string; start_ms : option Q; end_ms : option Q }.

Record pending := mkPending {
  p_text : string;
  lang_counts : dict string Z;
  last_lang : option string;
  p_start : option Q;
  p_end : option Q }.
Definition empty_pending : pending := mkPending "" [] None None None.

(** [max(counts.values())] of a dictionary that is not empty. *)
Definition best_count (counts : dict string Z) : Z := fold_left Z.max (dvalues counts) 0.
Definition top_languages (counts : dict string Z) : list string :=
  map fst (List.filter (fun '(_, n) => n =? best_count counts) counts).
Definition dominant (p : pending) : option string :=
  match lang_counts p with
  | [] => None
  | _ =>
      let top := top_languages (lang_counts p) in
      match last_lang p with
      | Some l => if bool_decide (l ∈ top) then Some l else last top
      | None => last top
      end
  end.
Definition audio_of (p : pending) : Q :=
  match p_start p, p_end p with
  | Some a, Some b => Qmaxq 0%Q ((b - a) / 1000)
  | _, _ => 0%Q
  end.

(** [_flush_pending_segment]: the arguments of its [_accumulate], if it makes one. *)
Definition flush (p : pending) : option (string * option string * Q) * pending :=
  let text := strip (p_text p) in
  (if str_true text then Some (text, dominant p, audio_of p) else None, empty_pending).

Definition short_code (lang : string) : string := lower (default "" (head (split_on "-"%char lang))).

Definition add_token (t : token) (p : pending) : pending :=
  let '(counts, lastl) :=
    match tok_language t with
    | Some l =>
        if str_true l
        then let short := short_code l in
             (dset short (default 0 (dget short (lang_counts p)) + 1) (lang_counts p), Some short)
        else (lang_counts p, last_lang p)
    | None => (lang_counts p, last_lang p)
    end in
  let first_seen := match start_ms t with Some v => Some v | None => end_ms t end in
  mkPending (p_text p +:+ tok_text t) counts lastl
    (match first_seen, p_start p with Some v, None => Some v | _, s => s end)
    (match end_ms t, p_end p with
     | Some v, None => Some v
     | Some v, Some w => Some (Qmaxq w v)
     | None, e => e
     end).

(** The token loop of [_handle_message]: the segments it flushes, in order. *)
Fixpoint handle_tokens (toks : list token) (p : pending) : list (string * option string * Q) * pending :=
  match toks with
  | [] => ([], p)
  | t :: toks' =>
      if negb (str_true (tok_text t)) then handle_tokens toks' p
      else if bool_decide (tok_text t = SONIOX_ENDPOINT_TOKEN)
      then let '(seg, p1) := flush p in
           let '(segs, p2) := handle_tokens toks' p1 in
           (match seg with Some s => s :: segs | None => segs end, p2)
      else if negb (is_final t) then handle_tokens toks' p
      else handle_tokens toks' (add_token t p)
  end.

(** *** A segment's language is a majority language of its tokens *)

Lemma fold_max_spec l m : let r := fold_left Z.max l m in m <= r /\ (forall n, n ∈ l -> n <= r) /\ (r = m \/ r ∈ l).
Proof.
  revert m. induction l as [|x l IH]; intros m; simpl; [split_and!; [lia|set_solver|by left]|].
  destruct (IH (Z.max m x)) as (H1 & H2 & H3). split_and!; [lia| |].
  - intros n [->|Hn]%elem_of_cons; [lia|by apply H2].
  - destruct H3 as [->|]; [|right; set_solver]. destruct (Z.max_spec m x) as [[_ ->]|[_ ->]]; [right; set_solver|by left].
Qed.

Definition positive_counts (p : pending) : Prop := Forall (fun n => 0 < n) (dvalues (lang_counts p)).

Lemma add_token_positive t p : positive_counts p -> positive_counts (add_token t p).
Proof.
  unfold positive_counts, add_token. intros H. destruct (tok_language t) as [l|]; simpl; [|done].
  destruct (str_true l); simpl; [|done]. set (k := short_code l). clearbody k.
  assert (0 < default 0 (dget k (lang_counts p)) + 1) as Hn.
  { destruct (dget k (lang_counts p)) as [n|] eqn:E; simpl; [|lia]. apply dget_Some_elem in E.
    assert (0 < n) by (apply (proj1 (Forall_forall _ _) H), list_elem_of_In, in_map_iff; exists (k, n); split; [done|by apply list_elem_of_In]).
    lia. }
  revert H Hn. generalize (default 0 (dget k (lang_counts p)) + 1). intros z. unfold dvalues.
  induction (lang_counts p) as [|[k' n'] d IH]; simpl; intros H Hn; [by repeat constructor|].
  inversion_clear H. case_decide; simpl; constructor; auto.
Qed.

Definition add_tokens (toks : list token) (p : pending) : pending := fold_left (fun p t => add_token t p) toks p.

(** How many tokens of an utterance are tagged with a language. *)
Definition tagged (l : string) (t : token) : bool :=
  match tok_language t with Some x => str_true x && bool_decide (short_code x = l) | None => false end.
Definition tag_count (l : string) (toks : list token) : Z := Z.of_nat (length (List.filter (tagged l) toks)).

Lemma add_token_count l t p :
  default 0 (dget l (lang_counts (add_token t p))) = default 0 (dget l (lang_counts p)) + (if tagged l t then 1 else 0).
Proof.
  unfold add_token, tagged. destruct (tok_language t) as [x|]; simpl; [|lia]. destruct (str_true x); simpl; [|lia].
  rewrite dget_dset. case_decide as Hd; [subst; rewrite bool_decide_eq_true_2 by done; done|].
  rewrite bool_decide_eq_false_2 by congruence. lia.
Qed.

Lemma add_tokens_spec toks p :
  positive_counts p ->
  positive_counts (add_tokens toks p) /\ p_text (add_tokens toks p) = p_text p +:+ foldr (fun t s => tok_text t +:+ s) "" toks /\
  forall l, default 0 (dget l (lang_counts (add_tokens toks p))) = default 0 (dget l (lang_counts p)) + tag_count l toks.
Proof.
  revert p. induction toks as [|t toks IH]; intros p Hp; simpl.
  - split_and!; [done| |intros; unfold tag_count; simpl; lia]. apply (inj chars). rewrite chars_app. simpl. by rewrite app_nil_r.
  - destruct (IH (add_token t p)) as (H1 & H2 & H3); [by apply add_token_positive|]. split_and!; [done| |].
    + rewrite H2. replace (p_text (add_token t p)) with (p_text p +:+ tok_text t) by (unfold add_token; by repeat case_match).
      apply (inj chars). by rewrite !chars_app, app_assoc.
    + intros l. rewrite H3, add_token_count. unfold tag_count. simpl. destruct (tagged l t); simpl; lia.
Qed.

Lemma top_languages_max l counts :
  l ∈ top_languages counts -> exists n, (l, n) ∈ counts /\ n = best_count counts.
Proof.
  intros H. unfold top_languages in H. apply list_elem_of_In, in_map_iff in H as ([l' n] & Hl & Hin). simpl in Hl. subst.
  apply filter_In in Hin as [Hin Hn]. exists n. split; [by apply list_elem_of_In|lia].
Qed.

Lemma dominant_best p :
  positive_counts p -> dwf (lang_counts p) ->
  match dominant p with
  | None => lang_counts p = []
  | Some l => exists n, dget l (lang_counts p) = Some n /\ 0 < n /\
                forall l', default 0 (dget l' (lang_counts p)) <= n
  end.
Proof.
  intros Hp Hw. unfold dominant. destruct (lang_counts p) as [|[k z] d] eqn:E; [done|]. rewrite <- E in *.
  destruct (fold_max_spec (dvalues (lang_counts p)) 0) as (_ & Hge & Hbest). fold (best_count (lang_counts p)) in *.
  assert (exists l0, l0 ∈ top_languages (lang_counts p)) as [l0 Hl0].
  { assert (best_count (lang_counts p) ∈ dvalues (lang_counts p)) as Hin.
    { destruct Hbest as [H0|]; [|done]. exfalso. assert (z ∈ dvalues (lang_counts p)) as Hz by (rewrite E; simpl; set_solver).
      specialize (Hge _ Hz). pose proof (proj1 (Forall_forall _ _) Hp _ Hz). simpl in *. lia. }
    apply list_elem_of_In, in_map_iff in Hin as ([l0 n] & Hn & Hin). simpl in Hn. exists l0.
    apply list_elem_of_In, in_map_iff. exists (l0, n). split; [done|]. apply filter_In. split; [done|]. simpl. lia. }
  assert (forall l, l ∈ top_languages (lang_counts p) -> exists n, dget l (lang_counts p) = Some n /\ 0 < n /\
            forall l', default 0 (dget l' (lang_counts p)) <= n) as Htop.
  { intros l (n & Hin & Hn)%top_languages_max. exists n. split; [by apply elem_dget|].
    assert (n ∈ dvalues (lang_counts p)) as Hv
      by (apply list_elem_of_In, in_map_iff; exists (l, n); split; [done|by apply list_elem_of_In]).
    pose proof (proj1 (Forall_forall _ _) Hp _ Hv) as Hpos. simpl in Hpos. split; [done|]. intros l'.
    destruct (dget l' (lang_counts p)) as [m|] eqn:Em; simpl; [|lia]. rewrite Hn. apply Hge.
    apply dget_Some_elem in Em. apply list_elem_of_In, in_map_iff. exists (l', m). split; [done|by apply list_elem_of_In]. }
  assert (forall l, last (top_languages (lang_counts p)) = Some l -> l ∈ top_languages (lang_counts p)) as Hlast
    by (intros l H; by apply last_Some_elem_of).
  assert (is_Some (last (top_languages (lang_counts p)))) as [lz Hz]
    by (apply last_is_Some; intros H0; rewrite H0 in Hl0; set_solver).
  destruct (last_lang p) as [ll|]; [case_bool_decide; [by apply Htop|]|]; rewrite Hz; by apply Htop, Hlast.
Qed.

Lemma add_tokens_wf toks p : dwf (lang_counts p) -> dwf (lang_counts (add_tokens toks p)).
Proof.
  revert p. induction toks as [|t toks IH]; intros p Hp; simpl; [done|]. apply IH. unfold add_token.
  destruct (tok_language t) as [l|]; [destruct (str_true l)|]; [by apply dset_wf|done..].
Qed.

(** A token that is part of an utterance. *)
Definition spoken_token (t : token) : Prop :=
  str_true (tok_text t) = true /\ tok_text t <> SONIOX_ENDPOINT_TOKEN /\ is_final t = true.
Definition endpoint (t : token) : Prop := tok_text t = SONIOX_ENDPOINT_TOKEN.

Lemma handle_utterance toks e rest p :
  Forall spoken_token toks -> endpoint e ->
  handle_tokens (toks ++ e :: rest) p =
    let '(seg, p1) := flush (add_tokens toks p) in
    let '(segs, p2) := handle_tokens rest p1 in (match seg with Some s => s :: segs | None => segs end, p2).
Proof.
  intros Ht He. revert p. induction Ht as [|t toks (H1 & H2 & H3) Ht IH]; intros p; simpl.
  - by rewrite He, bool_decide_eq_true_2.
  - rewrite H1, H3, bool_decide_eq_false_2 by done. simpl. apply IH.
Qed.

(** The final tokens up to an endpoint make one segment: their text stripped, if
    anything is left, a duration that is not negative, and a language that no other
    language beats in their tags ([None] exactly when none is tagged); whatever
    follows starts from an empty utterance. *)
Theorem utterance_majority toks e rest :
  Forall spoken_token toks -> endpoint e ->
  let text := strip (foldr (fun t s => tok_text t +:+ s) "" toks) in
  exists lang dur,
    handle_tokens (toks ++ e :: rest) empty_pending =
      (let '(segs, p) := handle_tokens rest empty_pending in
       (if str_true text then (text, lang, dur) :: segs else segs, p)) /\
    (0 <= dur)%Q /\
    match lang with
    | Some l => 0 < tag_count l toks /\ forall l', tag_count l' toks <= tag_count l toks
    | None => forall l', tag_count l' toks = 0
    end.
Proof.
  intros Ht He text. set (p := add_tokens toks empty_pending).
  destruct (add_tokens_spec toks empty_pending) as (Hp & Htext & Hc); [by constructor|]. fold p in Hp, Htext, Hc.
  exists (dominant p), (audio_of p). split_and!.
  - rewrite handle_utterance by done. fold p. unfold flush.
    replace (strip (p_text p)) with text by (by rewrite Htext).
    destruct (str_true text); cbn iota beta; by destruct (handle_tokens rest empty_pending).
  - unfold audio_of. destruct (p_start p), (p_end p); [apply Qmaxq_l|apply Qle_refl..].
  - pose proof (dominant_best p Hp (add_tokens_wf toks empty_pending NoDup_nil_2)) as Hd. simpl in Hc.
    destruct (dominant p) as [l|].
    + destruct Hd as (n & Hn & Hpos & Hmax). pose proof (Hc l) as Hl. rewrite Hn in Hl. simpl in Hl.
      split; [lia|]. intros l'. specialize (Hmax l'). rewrite Hc in Hmax. lia.
    + intros l'. specialize (Hc l'). rewrite Hd in Hc. simpl in Hc. lia.
Qed.

(** Two Telugu tokens and one English, then the endpoint. *)
Definition mixed_utterance : list token :=
  [mkToken "ela " true (Some "te-IN") (Some (Qmake 100 1)) (Some (Qmake 300 1));
   mkToken "unnaru" true (Some "te-IN") (Some (Qmake 300 1)) (Some (Qmake 800 1));
   mkToken " ok" true (Some "en") (Some (Qmake 900 1)) (Some (Qmake 1100 1))].
Definition end_token : token := mkToken SONIOX_ENDPOINT_TOKEN true None None None.

Lemma utterance_majority_witness :
  exists lang dur,
    handle_tokens (mixed_utterance ++ [end_token]) empty_pending = ([("ela unnaru ok", lang, dur)], empty_pending) /\
    lang = Some "te" /\ (dur == 1)%Q /\ tag_count "te" mixed_utterance = 2.
Proof.
  assert (Forall spoken_token mixed_utterance) as Hs
    by (repeat (apply Forall_cons; split; [by split_and!|]); apply Forall_nil_2).
  destruct (utterance_majority mixed_utterance end_token [] Hs eq_refl) as (lang & dur & Hrun & _).
  exists lang, dur. split; [exact Hrun|]. vm_compute in Hrun. injection Hrun as <- <-. by repeat split; vm_compute.
Defined.
End SonioxLID.
