(* ===== verification/AsrPool.v ===== *)
(** * The transcriber pool (src/voiceai/modules/voice/asr/pool.py)

    [TranscriberPool]: the audio router and the standby keepalive, one packet and
    one round at a time; switching and reconnecting; the legacy language
    heuristic; the detector's buffer as its clients read it. A provider's
    [run()] (it connects, or raises) is a parameter. Each operation is one atomic
    step, except the two that await [run()]: [switch_lock] keeps them from each
    other, but the router, the keepalive, the heuristic, the buffer's readers and
    the health record run while they wait. *)
From S2P Require Import Prelude PyText PyVal LidBuffer.
From Stdlib Require Import QArith.QArith Lqa.
From stdpp Require Import sorting.
Close Scope Q_scope.
Open Scope Z_scope.
Open Scope voice_scope.

Module TranscriberPool.
Import LIDBackend.

Definition MAX_RECONNECTS_PER_CALL : Z := 5.
Definition LID_DEBOUNCE_COUNT : Z := 1.
Definition LID_CONFIDENCE_THRESHOLD : Q := Qmake 7 10.
Definition LID_COOLDOWN_S : Q := Qmake 3 1.
Definition REGEN_SETTLE_EXCLUDED_TRANSCRIBERS : list string := ["deepgram"].

(** A packet of the input stream: its audio when it is [bytes], its eos flag. *)
Record packet := mkPacket { pk_data : option (list byte); pk_eos : bool }.

Record latency := mkLatency {
  asr_turn_start_ms : option Q; asr_start_ms : option Q; asr_start_epoch_ms : option Q; lat_turn : string }.

(** What the pool reads and writes of a transcriber; an [option] is an attribute
    some providers lack. [transcription_task] is the task's [done()]. *)
Record transcriber := mkTranscriber {
  input_queue : list packet;
  transcription_task : option bool;
  encoding : option string;
  turn_counter : option Z;
  current_turn_id : option val;
  class_name : string;
  latencies : list latency }.

(** An entry of [multilingual_config]. *)
Record language_cfg := mkCfg { language_code : option string; language : option string }.

(** The records of [lid_detection_events]: the legacy heuristic's, the detector's
    health, and those the session appends (a Switch-LLM decision, a playback gate,
    the usage). *)
Inductive lid_event :=
| Detection (detected_lang : string) (confidence : option Q) (active : string) (target : option string)
    (would_switch : bool) (suppressed_reason : option string) (detected_at : Q)
| DetectorHealth (ts : Q) (user_turns fed dropped frames : Z) (ws_dead : bool) (reconnects : Z)
| Decision (flow outcome : string) (detected_language : option string) (detector_segments : list segment)
    (switched_to : option string)
| PlaybackGate (outcome : string) (held_ms : Q) (sequence_id : Z) (from_language : option string) (ts : Q)
| Usage (ts : Q) (detector_audio_seconds : option Q) (judge : option (list string * string * (Z * Z * Z * Z))).

Record pool := mkPool {
  transcribers : dict string transcriber;
  active_label : string;
  multilingual_config : dict string language_cfg;
  lang_to_label : dict string string;
  call_ended : bool;
  reconnect_count : Z;
  active_reconnect_count : Z;
  lid : option backend;
  lid_active_mode : bool;
  on_lid_switch : bool;
  lid_pending_lang : option string;
  lid_pending_count : Z;
  lid_last_switch_time : Q;
  lid_detection_events : list lid_event;
  detector_health_recorded : bool }.

Definition set_transcribers (ts : dict string transcriber) (p : pool) : pool :=
  mkPool ts (active_label p) (multilingual_config p) (lang_to_label p) (call_ended p) (reconnect_count p)
    (active_reconnect_count p) (lid p) (lid_active_mode p) (on_lid_switch p) (lid_pending_lang p) (lid_pending_count p)
    (lid_last_switch_time p) (lid_detection_events p) (detector_health_recorded p).
Definition set_active (label : string) (p : pool) : pool :=
  mkPool (transcribers p) label (multilingual_config p) (lang_to_label p) (call_ended p) (reconnect_count p)
    (active_reconnect_count p) (lid p) (lid_active_mode p) (on_lid_switch p) (lid_pending_lang p) (lid_pending_count p)
    (lid_last_switch_time p) (lid_detection_events p) (detector_health_recorded p).
Definition set_ended (p : pool) : pool :=
  mkPool (transcribers p) (active_label p) (multilingual_config p) (lang_to_label p) true (reconnect_count p)
    (active_reconnect_count p) (lid p) (lid_active_mode p) (on_lid_switch p) (lid_pending_lang p) (lid_pending_count p)
    (lid_last_switch_time p) (lid_detection_events p) (detector_health_recorded p).
Definition set_counts (total active : Z) (p : pool) : pool :=
  mkPool (transcribers p) (active_label p) (multilingual_config p) (lang_to_label p) (call_ended p) total
    active (lid p) (lid_active_mode p) (on_lid_switch p) (lid_pending_lang p) (lid_pending_count p)
    (lid_last_switch_time p) (lid_detection_events p) (detector_health_recorded p).
Definition set_lid (l : option backend) (p : pool) : pool :=
  mkPool (transcribers p) (active_label p) (multilingual_config p) (lang_to_label p) (call_ended p) (reconnect_count p)
    (active_reconnect_count p) l (lid_active_mode p) (on_lid_switch p) (lid_pending_lang p) (lid_pending_count p)
    (lid_last_switch_time p) (lid_detection_events p) (detector_health_recorded p).
Definition set_pending (lang : option string) (n : Z) (p : pool) : pool :=
  mkPool (transcribers p) (active_label p) (multilingual_config p) (lang_to_label p) (call_ended p) (reconnect_count p)
    (active_reconnect_count p) (lid p) (lid_active_mode p) (on_lid_switch p) lang n
    (lid_last_switch_time p) (lid_detection_events p) (detector_health_recorded p).
Definition set_last_switch (t : Q) (p : pool) : pool :=
  mkPool (transcribers p) (active_label p) (multilingual_config p) (lang_to_label p) (call_ended p) (reconnect_count p)
    (active_reconnect_count p) (lid p) (lid_active_mode p) (on_lid_switch p) (lid_pending_lang p) (lid_pending_count p)
    t (lid_detection_events p) (detector_health_recorded p).
Definition append_event (e : lid_event) (p : pool) : pool :=
  mkPool (transcribers p) (active_label p) (multilingual_config p) (lang_to_label p) (call_ended p) (reconnect_count p)
    (active_reconnect_count p) (lid p) (lid_active_mode p) (on_lid_switch p) (lid_pending_lang p) (lid_pending_count p)
    (lid_last_switch_time p) (lid_detection_events p ++ [e]) (detector_health_recorded p).
Definition set_health_recorded (p : pool) : pool :=
  mkPool (transcribers p) (active_label p) (multilingual_config p) (lang_to_label p) (call_ended p) (reconnect_count p)
    (active_reconnect_count p) (lid p) (lid_active_mode p) (on_lid_switch p) (lid_pending_lang p) (lid_pending_count p)
    (lid_last_switch_time p) (lid_detection_events p) true.

Inductive error := UnknownLabel (label : string) | KeyError (label : string) | ConnectFailed.

(** ** Creation *)

(** [a or b or ...] on strings that may be [None]. *)
Fixpoint first_true (l : list (option string)) : string :=
  match l with
  | [] => ""
  | Some s :: l' => if str_true s then s else first_true l'
  | None :: l' => first_true l'
  end.
(** [l.split("-")[0]] *)
Definition before_dash (l : string) : string := default "" (head (split_on "-"%char l)).

Definition label_map (cfgs : dict string language_cfg) : dict string string :=
  fold_left (fun m '(label, cfg) =>
    let short := before_dash (lower (first_true [language_code cfg; language cfg; Some label])) in
    if str_true short then dset short label m else m) cfgs [].

Definition create (ts : dict string transcriber) (label : string) (cfgs : dict string language_cfg)
    (active_mode callback : bool) : result error pool :=
  if dhas label ts
  then Ok (mkPool ts label cfgs (label_map cfgs) false 0 0 None active_mode callback None 0 0%Q [] false)
  else Err (UnknownLabel label).

(** ** Reading *)

Definition active_transcriber (p : pool) : SE pool error transcriber :=
  match dget (active_label p) (transcribers p) with
  | Some t => se_ret t
  | None => se_raise (KeyError (active_label p))
  end.
Definition labels (p : pool) : list string := dkeys (transcribers p).
Definition is_active_transcriber_alive (p : pool) : result error bool :=
  match dget (active_label p) (transcribers p) with
  | Some t => Ok (match transcription_task t with Some d => negb d | None => false end)
  | None => Err (KeyError (active_label p))
  end.
Definition pool_turn_id (p : pool) : option val := t ← dget (active_label p) (transcribers p); current_turn_id t.
Definition supports_regen_settle (p : pool) : bool :=
  let name := match dget (active_label p) (transcribers p) with Some t => class_name t | None => "TranscriberPool" end in
  negb (existsb (startswith (lower name)) REGEN_SETTLE_EXCLUDED_TRANSCRIBERS).

Definition order_key (d : latency) : Q :=
  match asr_turn_start_ms d with
  | Some v => v
  | None => match asr_start_ms d with
            | Some v => v
            | None => default 0%Q (asr_start_epoch_ms d)
            end
  end.
Definition turn_latencies (p : pool) : list latency :=
  sort_by (fun a b => Qle_bool (order_key a) (order_key b)) (concat (map latencies (dvalues (transcribers p)))).

(** The detector's buffer through the pool. *)
Definition take_lid_transcript (p : pool) : (string * option string) * pool :=
  match lid p with
  | None => (("", None), p)
  | Some b => let '(r, u) := take_turn_transcript (the_buffer b) in
              (r, set_lid (Some (mkBackend (the_link b) (the_tap b) u)) p)
  end.
Definition lid_buffer_age (mono : Q) (p : pool) : option Q := b ← lid p; buffer_age_seconds mono (the_buffer b).
Definition lid_buffer_language (p : pool) : option string := b ← lid p; buffer_lang (the_buffer b).
Definition lid_buffer_event (p : pool) : option bool := (fun b => buffer_event (the_buffer b)) <$> lid p.
Definition lid_buffer_language_confidence (p : pool) : option Q := b ← lid p; buffer_lang_prob (the_buffer b).
Definition lid_buffer_segments (p : pool) : list segment :=
  match lid p with Some b => buffer_segments (the_buffer b) | None => [] end.
Definition lid_buffer_max_segment_seconds (p : pool) : Q :=
  match lid p with Some b => buffer_max_segment_s (the_buffer b) | None => 0%Q end.
Definition lid_audio_seconds (p : pool) : option Q := audio_seconds_fed <$> lid p.

(** ** Routing audio *)

Definition enqueue (k : packet) (t : transcriber) : transcriber :=
  mkTranscriber (input_queue t ++ [k]) (transcription_task t) (encoding t) (turn_counter t) (current_turn_id t)
    (class_name t) (latencies t).

(** One turn of [_audio_router]. *)
Definition route (k : packet) : SE pool error unit :=
  se_modify (fun p => if pk_eos k then set_ended p else p) ;;;
  p <- se_get ;;
  t <- active_transcriber p ;;
  se_modify (fun p => set_transcribers (dset (active_label p) (enqueue k t) (transcribers p)) p) ;;;
  se_modify (fun p => match lid p, pk_data k with
                      | Some b, Some (c :: cs) => set_lid (Some (feed (c :: cs) b)) p
                      | _, _ => p
                      end).

Definition silence_frame (enc : string) : list byte :=
  if bool_decide (enc = "mulaw") then repeat Corelib.Init.Byte.xff 320 else repeat Corelib.Init.Byte.x00 320.
Definition silence (t : transcriber) : packet :=
  mkPacket (Some (silence_frame (default "linear16" (encoding t)))) false.

(** One round of [_standby_keepalive]. *)
Definition keep_alive (p : pool) (lt : string * transcriber) : string * transcriber :=
  let '(label, t) := lt in
  if bool_decide (label = active_label p) then lt
  else if bool_decide (transcription_task t = Some true) then lt
  else (label, enqueue (silence t) t).
Definition keepalive_round (p : pool) : pool := set_transcribers (map (keep_alive p) (transcribers p)) p.

(** ** The legacy heuristic *)

Definition active_lang (p : pool) : string :=
  let cfg := default (mkCfg None None) (dget (active_label p) (multilingual_config p)) in
  lower (before_dash (first_true [language_code cfg; language cfg; Some (active_label p)])).

Definition record_detection (lang : string) (conf : option Q) (target : option string) (would : bool)
    (reason : option string) (at_s : Q) : SE pool error unit :=
  se_modify (fun p => append_event (Detection lang conf (active_label p) target would reason at_s) p).

Definition below_threshold (conf : option Q) : bool :=
  match conf with Some c => Qltb c LID_CONFIDENCE_THRESHOLD | None => false end.

(** [_handle_lid_signal]: [now] is the monotonic reading, [at_s] the wall clock;
    the label [on_lid_switch] is called with, when it is. *)
Definition handle_lid_signal (lang : string) (conf : option Q) (now at_s : Q) : SE pool error (option string) :=
  p <- se_get ;;
  if below_threshold conf
  then record_detection lang conf None false (Some "low_confidence") at_s ;;; se_ret None
  else match dget lang (lang_to_label p) with
  | None => record_detection lang conf None false (Some "unsupported_language") at_s ;;; se_ret None
  | Some target =>
    if bool_decide (lang = active_lang p)
    then se_modify (set_pending None 0) ;;;
         record_detection lang conf None false (Some "already_active") at_s ;;; se_ret None
    else if Qltb (now - lid_last_switch_time p) LID_COOLDOWN_S
    then record_detection lang conf (Some target) false (Some "cooldown") at_s ;;; se_ret None
    else
      let n := if bool_decide (lid_pending_lang p = Some lang) then lid_pending_count p + 1 else 1 in
      se_modify (set_pending (Some lang) n) ;;;
      if n <? LID_DEBOUNCE_COUNT
      then record_detection lang conf (Some target) false (Some "debounce_pending") at_s ;;; se_ret None
      else if bool_decide (target = active_label p) then se_ret None
      else
        se_modify (set_pending None 0) ;;;
        se_modify (set_last_switch now) ;;;
        if negb (lid_active_mode p)
        then record_detection lang conf (Some target) false (Some "shadow_mode") at_s ;;; se_ret None
        else record_detection lang conf (Some target) true None at_s ;;;
             se_ret (if on_lid_switch p then Some target else None)
  end.

(** ** Health *)

Definition record_detector_health (ts : Q) (p : pool) : pool :=
  match lid p with
  | None => p
  | Some b =>
      if detector_health_recorded p then p
      else if 0 <? segments_received (the_tap b) then p
      else
        let user_turns := match dget (active_label p) (transcribers p) with
                          | Some t => default 0 (turn_counter t)
                          | None => 0
                          end in
        if user_turns <? 1 then p
        else append_event (DetectorHealth ts user_turns (chunks_fed (the_tap b)) (chunks_dropped (the_tap b))
                             (unknown_frames (the_tap b)) (dead (the_link b)) (reconnect_attempts (the_link b)))
               (set_health_recorded p)
  end.

(** ** What needs no lock *)

(** The steps other tasks take at any time. *)
Inductive free_op :=
| Route (k : packet)
| Keepalive
| Signal (lang : string) (conf : option Q) (now at_s : Q)
| TakeLid
| Health (ts : Q).

Definition free (f : free_op) (p : pool) : pool :=
  match f with
  | Route k => fst (route k p)
  | Keepalive => keepalive_round p
  | Signal lang conf now at_s => fst (handle_lid_signal lang conf now at_s p)
  | TakeLid => snd (take_lid_transcript p)
  | Health ts => record_detector_health ts p
  end.
Definition free_all (fs : list free_op) (p : pool) : pool := fold_left (fun p f => free f p) fs p.

(** ** Switching and reconnecting *)

Section providers.
(** A transcriber's [run()]: the transcriber after it, and whether it returned. *)
Variable run : transcriber -> transcriber * bool.

(** What [run()] does to the transcriber of this label, whose object the caller
    holds: no operation takes a label out of the pool. *)
Definition dial (label : string) : SE pool error bool :=
  p <- se_get ;;
  match dget label (transcribers p) with
  | None => se_raise (KeyError label)
  | Some t =>
      let '(t', ok) := run t in
      se_modify (fun p => set_transcribers (dset label t' (transcribers p)) p) ;;; se_ret ok
  end.

(** [await transcriber.run()] under [switch_lock]: the other tasks' steps before
    it takes effect, and those after, before the caller resumes. *)
Definition run_transcriber (early late : list free_op) (label : string) : SE pool error bool :=
  se_modify (free_all early) ;;;
  ok <- dial label ;;
  se_modify (free_all late) ;;;
  se_ret ok.

Definition inherit (old target : transcriber) : transcriber :=
  mkTranscriber (input_queue target) (transcription_task target) (encoding target)
    (match turn_counter target with Some _ => Some (default 0 (turn_counter old)) | None => None end)
    (match current_turn_id target, current_turn_id old with
     | Some _, Some VNone => current_turn_id target
     | Some _, Some v => Some v
     | _, _ => current_turn_id target
     end)
    (class_name target) (latencies target).

(** The end of a switch: the turn carried over from the [old] transcriber. *)
Definition hand_over (old label : string) : SE pool error unit :=
  p <- se_get ;;
  match dget old (transcribers p) with
  | None => se_raise (KeyError old)
  | Some old_transcriber =>
      se_modify (fun p =>
        match dget label (transcribers p) with
        | Some target =>
            set_active label (set_transcribers (dset label (inherit old_transcriber target) (transcribers p)) p)
        | None => p
        end)
  end.

Definition switch (early late : list free_op) (label : string) : SE pool error unit :=
  p <- se_get ;;
  if bool_decide (label = active_label p) then se_ret tt
  else match dget label (transcribers p) with
       | None => se_raise (UnknownLabel label)
       | Some target =>
           (if bool_decide (transcription_task target = Some true) && negb (call_ended p)
            then up <- run_transcriber early late label ;;
                 if (up : bool)
                 then se_modify (fun p => set_counts (reconnect_count p + 1) (active_reconnect_count p) p)
                 else se_raise ConnectFailed
            else se_ret tt) ;;;
           hand_over (active_label p) label
       end.

Definition reconnect_active (early late : list free_op) : SE pool error bool :=
  p <- se_get ;;
  if call_ended p then se_ret false
  else if MAX_RECONNECTS_PER_CALL <=? active_reconnect_count p then se_ret false
  else
    up <- run_transcriber early late (active_label p) ;;
    if (up : bool)
    then se_modify (fun p => set_counts (reconnect_count p + 1) (active_reconnect_count p + 1) p) ;;; se_ret true
    else se_ret false.

(** ** Runs *)

(** A step that needs no lock, or an operation that holds it to its end, with what
    the other tasks do while it awaits [run()]. *)
Inductive op :=
| Free (f : free_op)
| Switch (early late : list free_op) (label : string)
| ReconnectActive (early late : list free_op).
#[local] Coercion Free : free_op >-> op.

Definition perform (o : op) (p : pool) : pool :=
  match o with
  | Free f => free f p
  | Switch early late label => fst (switch early late label p)
  | ReconnectActive early late => fst (reconnect_active early late p)
  end.
Definition perform_all (os : list op) (p : pool) : pool := fold_left (fun p o => perform o p) os p.

(** How many times the session was answered that the active transcriber was
    connected again. *)
Fixpoint reconnected (os : list op) (p : pool) : Z :=
  match os with
  | [] => 0
  | o :: os' =>
      match o with
      | ReconnectActive early late => match snd (reconnect_active early late p) with Ok true => 1 | _ => 0 end
      | _ => 0
      end + reconnected os' (perform o p)
  end.

End providers.

(** ** Membership and budgets *)

Definition ok (ks : list string) (p : pool) : Prop :=
  labels p = ks /\ active_label p ∈ ks /\
  0 <= active_reconnect_count p <= MAX_RECONNECTS_PER_CALL /\ active_reconnect_count p <= reconnect_count p.

Lemma ok_ts ks ts p : dkeys ts = ks -> ok ks p -> ok ks (set_transcribers ts p).
Proof. intros <- (_ & ? & [? ?] & ?). unfold ok. by split_and!. Qed.

Lemma dset_same_keys {V} (k : string) (v w : V) d : dget k d = Some w -> dkeys (dset k v d) = dkeys d.
Proof. intros H. rewrite dset_keys. unfold dhas. by rewrite H. Qed.

Lemma ok_set ks label t w p :
  ok ks p -> dget label (transcribers p) = Some w -> ok ks (set_transcribers (dset label t (transcribers p)) p).
Proof. intros H Hw. apply ok_ts; [|done]. rewrite (dset_same_keys _ _ _ _ Hw). apply H. Qed.

Lemma ok_get ks label p : ok ks p -> label ∈ ks -> exists t, dget label (transcribers p) = Some t.
Proof.
  intros (Hl & _) Hin. destruct (dget _ _) as [t|] eqn:E; [by exists t|].
  apply dget_None in E. unfold labels in Hl. by rewrite Hl in E.
Qed.

Lemma ok_active ks p : ok ks p -> exists t, dget (active_label p) (transcribers p) = Some t.
Proof. intros H. eapply ok_get; [done|apply H]. Qed.

Lemma ok_key ks label p w : ok ks p -> dget label (transcribers p) = Some w -> label ∈ ks.
Proof.
  intros (<- & _) H. unfold labels. destruct (decide (label ∈ dkeys (transcribers p))) as [|Hn]; [done|].
  apply dget_None in Hn. congruence.
Qed.

Ltac pool_step :=
  unfold se_bind, se_modify, se_get, se_ret, se_raise; simpl.

(** [ok] of a state whose relevant fields are those of one that is [ok]. *)
Ltac okay := unfold ok, labels in *; simpl in *; destruct_and?; split_and!; (done || lia).

Lemma route_run ks k p :
  ok ks p -> exists t l, dget (active_label p) (transcribers p) = Some t /\
    route k p = (set_lid l (set_transcribers (dset (active_label p) (enqueue k t) (transcribers p))
                              (if pk_eos k then set_ended p else p)), Ok tt).
Proof.
  intros H. destruct (ok_active _ _ H) as [t Ht]. unfold route, active_transcriber. pool_step.
  destruct (pk_eos k); simpl; rewrite Ht; simpl;
    destruct (lid p) as [b|], (pk_data k) as [[|c cs]|]; by eexists _, _; split; [done|destruct p].
Qed.
(** What the heuristic leaves alone. *)
Lemma signal_frame lang conf now at_s p :
  let p' := fst (handle_lid_signal lang conf now at_s p) in
  transcribers p' = transcribers p /\ active_label p' = active_label p /\ call_ended p' = call_ended p /\
  reconnect_count p' = reconnect_count p /\ active_reconnect_count p' = active_reconnect_count p /\
  lang_to_label p' = lang_to_label p /\ multilingual_config p' = multilingual_config p /\
  lid_active_mode p' = lid_active_mode p /\ on_lid_switch p' = on_lid_switch p.
Proof.
  unfold handle_lid_signal, record_detection. pool_step.
  repeat (case_match; simpl); by split_and!.
Qed.

Lemma keepalive_keys p : dkeys (transcribers (keepalive_round p)) = dkeys (transcribers p).
Proof.
  unfold keepalive_round, dkeys. simpl. rewrite map_map. apply map_ext. intros [l t]. simpl.
  by repeat case_bool_decide.
Qed.

(** The part of a pool its membership and its budgets depend on. *)
Definition frame (p : pool) : list string * string * Z * Z :=
  (labels p, active_label p, active_reconnect_count p, reconnect_count p).

Lemma ok_frame ks p q : frame q = frame p -> ok ks p -> ok ks q.
Proof. intros [= H1 H2 H3 H4]. unfold ok. by rewrite H1, H2, H3, H4. Qed.

Lemma free_frame f p : frame (free f p) = frame p.
Proof.
  unfold frame. destruct f as [k| |lang conf now at_s| |ts]; cbn [free].
  - unfold route, active_transcriber, labels. pool_step.
    destruct (pk_eos k); simpl; destruct (dget _ _) eqn:Et; simpl; try done;
      (destruct (lid p), (pk_data k) as [[|]|]; simpl; by rewrite (dset_same_keys _ _ _ _ Et)).
  - unfold labels. by rewrite keepalive_keys.
  - destruct (signal_frame lang conf now at_s p) as (Ht & Ha & _ & Hr & Hc & _). unfold labels. by rewrite Ht, Ha, Hr, Hc.
  - unfold take_lid_transcript. destruct (lid p); [|done]. unfold take_turn_transcript. done.
  - unfold record_detector_health. repeat case_match; done.
Qed.

Lemma free_all_frame fs p : frame (free_all fs p) = frame p.
Proof.
  revert p. induction fs as [|f fs IH]; intros p; [done|]. cbn [free_all fold_left].
  etrans; [apply IH|apply free_frame].
Qed.

(** [run()] and the steps beside it end in a pool with the same frame. *)
Lemma run_transcriber_frame run early late label ks p :
  ok ks p -> label ∈ ks ->
  exists q up, run_transcriber run early late label p = (q, Ok up) /\ frame q = frame p.
Proof.
  intros Hok Hin. unfold run_transcriber, dial. pool_step. pose proof (free_all_frame early p) as Hf.
  destruct (ok_frame ks p _ Hf Hok) as (Hl & _).
  destruct (dget label (transcribers (free_all early p))) as [t|] eqn:Et.
  2: { apply dget_None in Et. unfold labels in Hl. by rewrite Hl in Et. }
  destruct (run t) as [t' up]. simpl. eexists _, up. split; [done|]. rewrite free_all_frame. rewrite <- Hf.
  unfold frame, labels. simpl. by rewrite (dset_same_keys _ _ _ _ Et).
Qed.

Lemma hand_over_run old label ks p :
  ok ks p -> old ∈ ks -> label ∈ ks ->
  exists q, hand_over old label p = (q, Ok tt) /\ ok ks q /\
    active_reconnect_count q = active_reconnect_count p /\ active_label q = label.
Proof.
  intros Hok Ho Hl. unfold hand_over. pool_step.
  destruct (ok_get _ _ _ Hok Ho) as [o ->], (ok_get _ _ _ Hok Hl) as [t Ht]. rewrite Ht.
  eexists. split; [done|]. pose proof (ok_set ks label (inherit o t) t p Hok Ht) as (? & ? & ? & ?). split_and!; [okay|done..].
Qed.

(** What a switch comes to, whatever runs beside it. *)
Lemma switch_outcome run early late label ks p :
  ok ks p ->
  let '(p', r) := switch run early late label p in
  ok ks p' /\ active_reconnect_count p' = active_reconnect_count p /\
  match r with
  | Ok _ => label ∈ ks /\ active_label p' = label
  | Err (UnknownLabel l) => l = label /\ label ∉ ks /\ p' = p
  | Err ConnectFailed => label ∈ ks /\ active_label p' = active_label p
  | Err (KeyError _) => False
  end.
Proof.
  intros Hok. unfold switch. pool_step. case_bool_decide as Ha; [subst; split_and!; try done; apply Hok|].
  destruct (dget label (transcribers p)) as [target|] eqn:Et.
  2: { split_and!; try done. destruct Hok as (<- & _). by apply dget_None. }
  pose proof (ok_key _ _ _ _ Hok Et) as Hin. pose proof Hok as (_ & Hact & _).
  destruct (bool_decide _ && _).
  - destruct (run_transcriber_frame run early late label ks p Hok Hin) as (q & up & Hr & Hq). rewrite Hr.
    pose proof (ok_frame ks p q Hq Hok) as Hokq. injection Hq as Hl Hac Hc Hn. destruct up; simpl; [|by split_and!].
    destruct (hand_over_run (active_label p) label ks (set_counts (reconnect_count q + 1) (active_reconnect_count q) q))
      as (q' & -> & ? & Hc' & ?); [okay|done..|]. simpl in Hc'. split_and!; try done. congruence.
  - simpl. destruct (hand_over_run (active_label p) label ks p Hok Hact Hin) as (q & -> & ? & ? & ?). by split_and!.
Qed.

(** A reconnect is counted as active exactly when it is answered. *)
Lemma reconnect_active_run run early late ks p :
  ok ks p ->
  ok ks (fst (reconnect_active run early late p)) /\
  active_reconnect_count (fst (reconnect_active run early late p)) =
    active_reconnect_count p + match snd (reconnect_active run early late p) with Ok true => 1 | _ => 0 end /\
  (call_ended p = true -> reconnect_active run early late p = (p, Ok false)).
Proof.
  intros H. unfold reconnect_active. pool_step.
  destruct (call_ended p) eqn:Ec; simpl; [split_and!; try done; lia|].
  destruct (Z.leb_spec MAX_RECONNECTS_PER_CALL (active_reconnect_count p)) as [|Hlt]; simpl; [split_and!; try done; lia|].
  destruct (run_transcriber_frame run early late (active_label p) ks p H) as (q & up & -> & Hq); [apply H|].
  pose proof (ok_frame ks p q Hq H) as Hokq. injection Hq as Hl Ha Hc Hr.
  destruct up; simpl; split_and!; try done; try lia. okay.
Qed.

Lemma perform_ok run o ks p : ok ks p -> ok ks (perform run o p).
Proof.
  intros H. destruct o as [f|early late label|early late]; simpl.
  - eapply ok_frame; [apply free_frame|done].
  - pose proof (switch_outcome run early late label ks p H) as Ho. destruct (switch _ _ _ _ _). apply Ho.
  - by apply reconnect_active_run.
Qed.

Lemma perform_all_ok run os ks p : ok ks p -> ok ks (perform_all run os p).
Proof. revert p. induction os as [|o os IH]; intros p H; simpl; [done|]. by apply IH, perform_ok. Qed.

Lemma reconnected_counted run os ks p :
  ok ks p -> active_reconnect_count (perform_all run os p) = active_reconnect_count p + reconnected run os p.
Proof.
  revert p. induction os as [|o os IH]; intros p H; [simpl; lia|]. cbn [perform_all fold_left reconnected].
  unfold perform_all in IH. rewrite IH by by apply perform_ok.
  assert (active_reconnect_count (perform run o p) = active_reconnect_count p +
    match o with ReconnectActive early late => match snd (reconnect_active run early late p) with Ok true => 1 | _ => 0 end | _ => 0 end) as ->; [|lia].
  destruct o as [f|early late label|early late]; simpl.
  - pose proof (free_frame f p) as [= _ _ -> _]. lia.
  - pose proof (switch_outcome run early late label ks p H) as Ho. destruct (switch _ _ _ _ _). simpl. destruct Ho as (_ & -> & _). lia.
  - by apply reconnect_active_run with ks.
Qed.

Lemma create_ok ts label cfgs m cb p : create ts label cfgs m cb = Ok p -> ok (dkeys ts) p.
Proof.
  unfold create, dhas. destruct (dget label ts) as [t|] eqn:E; [|done]. intros [= <-]. unfold ok, labels, MAX_RECONNECTS_PER_CALL.
  simpl. split_and!; try done. destruct (decide (label ∈ dkeys ts)) as [|Hn]; [done|]. apply dget_None in Hn. congruence.
Qed.

(** C37: Whatever is done to a pool, and whatever the router and the other tasks do
    while a switch or a reconnect awaits [run()]: its labels are those it was made
    with, the active one is among them, so the router never fails on a packet, not
    even within such a wait; a switch is refused as unknown exactly for a label
    outside them; and over its whole life at most [MAX_RECONNECTS_PER_CALL]
    requests to reconnect the transcriber that died while active are answered
    with a new connection. *)
Theorem pool_run_budgets run os ts label cfgs m cb p :
  create ts label cfgs m cb = Ok p ->
  let p' := perform_all run os p in
  labels p' = dkeys ts /\ active_label p' ∈ dkeys ts /\
  reconnected run os p = active_reconnect_count p' /\ reconnected run os p <= MAX_RECONNECTS_PER_CALL /\
  reconnected run os p <= reconnect_count p' /\
  (forall k, snd (route k p') = Ok tt) /\
  (forall k early late l, l ∈ dkeys ts -> snd (route k (free_all early p')) = Ok tt /\
     snd (route k (fst (run_transcriber run early late l p'))) = Ok tt) /\
  (forall early late l, snd (switch run early late l p') = Err (UnknownLabel l) <-> l ∉ dkeys ts).
Proof.
  intros Hc p'. pose proof (create_ok _ _ _ _ _ _ Hc) as Hok0.
  assert (ok (dkeys ts) p') as Hok by by apply perform_all_ok.
  assert (reconnected run os p = active_reconnect_count p') as Hn.
  { unfold p'. rewrite (reconnected_counted run os (dkeys ts) p Hok0).
    unfold create in Hc. destruct (dhas label ts); [|done]. injection Hc as <-. simpl. lia. }
  assert (forall k q, frame q = frame p' -> snd (route k q) = Ok tt) as Hroute.
  { intros k q Hq. destruct (route_run _ k _ (ok_frame _ _ _ Hq Hok)) as (t & l & _ & ->). done. }
  rewrite Hn. pose proof Hok as (Hl & Ha & Hb & Hr). split_and!; try done; try lia.
  - intros k. by apply Hroute.
  - intros k early late l Hin. split; [apply Hroute, free_all_frame|].
    destruct (run_transcriber_frame run early late l _ p' Hok Hin) as (q & up & -> & Hq). by apply Hroute.
  - intros early late l. pose proof (switch_outcome run early late l _ p' Hok) as Ho.
    destruct (switch run early late l p') as [p'' [u|e]]; simpl; destruct Ho as (_ & _ & Ho).
    + destruct Ho. by split.
    + destruct e; [destruct Ho as (-> & ? & _); by split|done|destruct Ho; by split].
Qed.

Lemma free_ended f p : call_ended p = true -> call_ended (free f p) = true.
Proof.
  intros Hc. destruct f as [k| |lang conf now at_s| |ts]; cbn [free]; try done.
  - unfold route, active_transcriber. pool_step. by repeat (case_match; simpl in *; simplify_eq).
  - by destruct (signal_frame lang conf now at_s p) as (_ & _ & -> & _).
  - unfold take_lid_transcript. by repeat (case_match; simplify_eq/=).
  - unfold record_detector_health. by repeat (case_match; simplify_eq/=).
Qed.

Lemma ended_step run run' o p :
  call_ended p = true ->
  perform run o p = perform run' o p /\ call_ended (perform run o p) = true /\
  reconnect_count (perform run o p) = reconnect_count p.
Proof.
  intros Hc. destruct o as [f|early late label|early late]; cbn [perform].
  - split; [done|]. split; [by apply free_ended|]. by pose proof (free_frame f p) as [= _ _ _ ?].
  - unfold switch. pool_step. rewrite Hc. case_bool_decide; [done|]. destruct (dget label _); simpl; [|done].
    rewrite andb_false_r. split; [done|]. unfold hand_over. pool_step. repeat (case_match; simpl in *; simplify_eq); by split.
  - unfold reconnect_active. pool_step. by rewrite Hc.
Qed.

Lemma ended_run run run' os p :
  call_ended p = true ->
  perform_all run os p = perform_all run' os p /\ reconnect_count (perform_all run os p) = reconnect_count p.
Proof.
  revert p. induction os as [|o os IH]; intros p Hc; simpl; [done|].
  destruct (ended_step run run' o p Hc) as (<- & He & Hn). destruct (IH _ He) as [-> ->]. by rewrite Hn.
Qed.

(** Once the end-of-stream packet is routed, no connection is begun again: what [run()] would do makes no difference to any later run, and the
    reconnects are not counted up. *)
Theorem no_reconnect_after_eos run run' before k after ts label cfgs m cb p0 :
  create ts label cfgs m cb = Ok p0 -> pk_eos k = true ->
  let p := perform_all run (before ++ [Free (Route k)]) p0 in
  call_ended p = true /\
  perform_all run after p = perform_all run' after p /\ reconnect_count (perform_all run after p) = reconnect_count p.
Proof.
  intros Hcr Hk p. assert (call_ended p = true) as Hc; [|by split; [|apply ended_run]].
  unfold p, perform_all. rewrite fold_left_app. simpl.
  destruct (route_run (dkeys ts) k (perform_all run before p0)) as (t & l & _ & Hr);
    [apply perform_all_ok; by eapply create_ok|].
  unfold perform_all in Hr. rewrite Hr, Hk. done.
Qed.

(** ** The heuristic's requests *)

(** What the heuristic asks for, without the pending count. *)
Definition may_request (lang : string) (conf : option Q) (now : Q) (p : pool) : option string :=
  target ← dget lang (lang_to_label p);
  if negb (below_threshold conf) && negb (bool_decide (lang = active_lang p)) &&
     negb (Qltb (now - lid_last_switch_time p) LID_COOLDOWN_S) && negb (bool_decide (target = active_label p)) &&
     lid_active_mode p && on_lid_switch p
  then Some target else None.

Definition counted (p : pool) : Prop := 0 <= lid_pending_count p.

Lemma signal_exact lang conf now at_s p :
  counted p ->
  snd (handle_lid_signal lang conf now at_s p) = Ok (may_request lang conf now p) /\
  counted (fst (handle_lid_signal lang conf now at_s p)) /\
  (lid_active_mode p = true ->
   lid_last_switch_time (fst (handle_lid_signal lang conf now at_s p)) =
     if negb (below_threshold conf) && negb (bool_decide (lang = active_lang p)) &&
        negb (Qltb (now - lid_last_switch_time p) LID_COOLDOWN_S) &&
        match dget lang (lang_to_label p) with Some t => negb (bool_decide (t = active_label p)) | None => false end
     then now else lid_last_switch_time p).
Proof.
  intros Hp. unfold handle_lid_signal, may_request, record_detection, counted in *. pool_step.
  destruct (below_threshold conf); simpl; [by destruct (dget lang _)|].
  destruct (dget lang (lang_to_label p)) as [target|]; simpl; [|by rewrite andb_false_r].
  case_bool_decide; simpl; [done|].
  destruct (Qltb _ _); simpl; [done|].
  set (n := if bool_decide _ then _ else _).
  assert (0 < n) as Hn by (unfold n; case_bool_decide; lia).
  replace (n <? LID_DEBOUNCE_COUNT) with false by (unfold LID_DEBOUNCE_COUNT; lia). simpl.
  case_bool_decide; simpl; [split_and!; try done; lia|].
  destruct (lid_active_mode p); simpl; [|done]. by destruct (on_lid_switch p).
Qed.

(** The callback requests of a run, with the time of each. *)
Fixpoint asked (fs : list free_op) (p : pool) : list (Q * string) :=
  match fs with
  | [] => []
  | f :: fs' =>
      match f with
      | Signal lang conf now at_s =>
          match snd (handle_lid_signal lang conf now at_s p) with
          | Ok (Some target) => [(now, target)]
          | _ => []
          end
      | _ => []
      end ++ asked fs' (free f p)
  end.
(** Those made while [run()] is awaited. *)
Definition asked_beside run (early late : list free_op) (label : string) (p : pool) : list (Q * string) :=
  asked early p ++ asked late (fst (dial run label (free_all early p))).
Definition asked_in run (o : op) (p : pool) : list (Q * string) :=
  match o with
  | Free f => asked [f] p
  | Switch early late label =>
      match dget label (transcribers p) with
      | Some target =>
          if negb (bool_decide (label = active_label p)) && bool_decide (transcription_task target = Some true) &&
             negb (call_ended p)
          then asked_beside run early late label p else []
      | None => []
      end
  | ReconnectActive early late =>
      if call_ended p || (MAX_RECONNECTS_PER_CALL <=? active_reconnect_count p) then []
      else asked_beside run early late (active_label p) p
  end.
Fixpoint requests (run : transcriber -> transcriber * bool) (os : list op) (p : pool) : list (Q * string) :=
  match os with
  | [] => []
  | o :: os' => asked_in run o p ++ requests run os' (perform run o p)
  end.

(** The heuristic's state; an operation without a signal keeps it. *)
Definition heuristic (p : pool) : option string * Z * Q * bool :=
  (lid_pending_lang p, lid_pending_count p, lid_last_switch_time p, lid_active_mode p).

Definition spaced (a b : Q * string) : Prop := (fst a + LID_COOLDOWN_S <= fst b)%Q.

(** The requests [l] made on the way from [p] to [q]. *)
Record spacing (p : pool) (l : list (Q * string)) (q : pool) : Prop := {
  sp_counted : counted p -> counted q;
  sp_mode : lid_active_mode q = lid_active_mode p;
  sp_shadow : counted p -> lid_active_mode p = false -> l = [];
  sp_active : counted p -> lid_active_mode p = true ->
    (lid_last_switch_time p <= lid_last_switch_time q)%Q /\ StronglySorted spaced l /\
    Forall (fun r => lid_last_switch_time p + LID_COOLDOWN_S <= fst r)%Q l /\
    Forall (fun r => fst r <= lid_last_switch_time q)%Q l }.

Lemma spacing_app p l1 q l2 r : spacing p l1 q -> spacing q l2 r -> spacing p (l1 ++ l2) r.
Proof.
  intros [Hc1 Hm1 Hs1 Ha1] [Hc2 Hm2 Hs2 Ha2]. split.
  - auto.
  - congruence.
  - intros Hc Hm. rewrite Hs1, Hs2 by (auto; congruence). done.
  - intros Hc Hm. destruct (Ha1 Hc Hm) as (Ht1 & Hl1 & Hf1 & Hg1).
    destruct (Ha2 (Hc1 Hc)) as (Ht2 & Hl2 & Hf2 & Hg2); [congruence|].
    split_and!; [lra| |apply Forall_app..].
    + apply StronglySorted_app. split_and!; [|done..]. intros a b Ha Hb. rewrite Forall_forall in Hg1, Hf2.
      specialize (Hg1 _ Ha). specialize (Hf2 _ Hb). unfold spaced. simpl in *. lra.
    + split; [done|]. eapply Forall_impl; [exact Hf2|]. simpl. intros. lra.
    + split; [|done]. eapply Forall_impl; [exact Hg1|]. simpl. intros. lra.
Qed.

Lemma spacing_keep p q : heuristic q = heuristic p -> spacing p [] q.
Proof.
  intros [= _ Hn Ht Hm]. split; [unfold counted; by rewrite Hn|done..|]. intros _ _. rewrite Ht.
  split_and!; [lra|constructor..].
Qed.

Lemma spacing_free f p : spacing p (asked [f] p) (free f p).
Proof.
  destruct f as [k| |lang conf now at_s| |ts]; cbn [asked app free]; try apply spacing_keep.
  - unfold route, active_transcriber. pool_step. by repeat (case_match; simpl in *; simplify_eq).
  - done.
  - rewrite app_nil_r. set (q := fst _).
    destruct (signal_frame lang conf now at_s p) as (_ & _ & _ & _ & _ & _ & _ & Hm & _).
    assert (counted p -> _) as Hx by exact (signal_exact lang conf now at_s p). fold q in Hx, Hm.
    unfold may_request in Hx.
    split; [intros Hp; apply Hx, Hp|done| |]; intros Hp Ea; destruct (Hx Hp) as (Hr & _ & Ht); rewrite Hr.
    + destruct (dget lang _); simpl; [|done]. by rewrite Ea, !andb_false_r.
    + specialize (Ht Ea). rewrite Ea in *. destruct (dget lang _) as [target|]; simpl in *.
      2: { rewrite andb_false_r in Ht. rewrite Ht. split_and!; [lra|constructor..]. }
      rewrite andb_true_r. destruct (_ && negb (bool_decide (target = active_label p))) eqn:Eb; simpl.
      * apply andb_prop in Eb as [[_ Hq]%andb_prop _]. apply negb_true_iff in Hq. qbool. rewrite Ht.
        unfold LID_COOLDOWN_S in *. destruct (on_lid_switch p); split_and!; repeat constructor; simpl; lra.
      * rewrite Ht. split_and!; [lra|constructor..].
  - unfold take_lid_transcript. by repeat (case_match; simplify_eq/=).
  - unfold record_detector_health. by repeat (case_match; simplify_eq/=).
Qed.

Lemma spacing_free_all fs p : spacing p (asked fs p) (free_all fs p).
Proof.
  revert p. induction fs as [|f fs IH]; intros p; [by apply spacing_keep|].
  replace (asked (f :: fs) p) with (asked [f] p ++ asked fs (free f p))
    by (cbn [asked]; by rewrite app_nil_r).
  eapply spacing_app; [apply spacing_free|apply IH].
Qed.

Lemma run_transcriber_to run early late label p :
  is_Some (dget label (transcribers p)) ->
  exists up, run_transcriber run early late label p = (free_all late (fst (dial run label (free_all early p))), Ok up) /\
    heuristic (fst (dial run label (free_all early p))) = heuristic (free_all early p).
Proof.
  intros [t0 Ht0]. unfold run_transcriber, dial. pool_step.
  destruct (dget label (transcribers (free_all early p))) as [t|] eqn:Et.
  - destruct (run t) as [t' up]. simpl. by exists up.
  - apply dget_None in Et. pose proof (free_all_frame early p) as [= Hl _ _ _]. unfold labels in Hl. rewrite Hl in Et.
    apply dget_None in Et. congruence.
Qed.

Lemma spacing_beside run early late label p :
  is_Some (dget label (transcribers p)) ->
  spacing p (asked_beside run early late label p) (fst (run_transcriber run early late label p)).
Proof.
  intros H. destruct (run_transcriber_to run early late label p H) as (up & -> & Hk). unfold asked_beside.
  eapply spacing_app; [apply spacing_free_all|].
  apply (spacing_app _ [] (fst (dial run label (free_all early p)))); [by apply spacing_keep|apply spacing_free_all].
Qed.

Lemma hand_over_heuristic old label p : heuristic (fst (hand_over old label p)) = heuristic p.
Proof. unfold hand_over. pool_step. by repeat (case_match; simpl in *; simplify_eq). Qed.

Lemma spacing_perform run o ks p : ok ks p -> spacing p (asked_in run o p) (perform run o p).
Proof.
  intros Hok. destruct o as [f|early late label|early late]; cbn [asked_in perform]; [apply spacing_free|..].
  - unfold switch. pool_step. case_bool_decide as Ha; simpl; [destruct (dget _ _); by apply spacing_keep|].
    destruct (dget label (transcribers p)) as [target|] eqn:Et; [|by apply spacing_keep].
    destruct (bool_decide _ && negb _); simpl; [|by apply spacing_keep, hand_over_heuristic].
    pose proof (spacing_beside run early late label p ltac:(by eexists)) as Hs.
    destruct (run_transcriber run early late label p) as [q [up|e]] eqn:Er; simpl; [|exact Hs]. destruct up; simpl; [|exact Hs].
    rewrite <- (app_nil_r (asked_beside _ _ _ _ _)). eapply spacing_app; [exact Hs|]. apply spacing_keep. by rewrite hand_over_heuristic.
  - unfold reconnect_active. pool_step. destruct (call_ended p); simpl; [by apply spacing_keep|].
    destruct (_ <=? _); simpl; [by apply spacing_keep|].
    pose proof (spacing_beside run early late (active_label p) p (ok_active _ _ Hok)) as Hs.
    destruct (run_transcriber run early late (active_label p) p) as [q [up|e]] eqn:Er; simpl; [|exact Hs]. destruct up; simpl; [|exact Hs].
    rewrite <- (app_nil_r (asked_beside _ _ _ _ _)). eapply spacing_app; [exact Hs|]. by apply spacing_keep.
Qed.

Lemma requests_spacing run os ks p : ok ks p -> spacing p (requests run os p) (perform_all run os p).
Proof.
  revert p. induction os as [|o os IH]; intros p Hok; cbn [requests]; [by apply spacing_keep|].
  eapply spacing_app; [by eapply spacing_perform|]. apply IH. by apply perform_ok.
Qed.

(** The heuristic, with its pending count, asks for a switch exactly when the
    detection is confident enough or unscored, of a supported language other than
    the active one, the cooldown is over and the target is another transcriber, in
    active mode with a callback; and over any run of the pool two requests are at
    least [LID_COOLDOWN_S] apart. *)
Theorem lid_requests_exact run os ts label cfgs m cb p :
  create ts label cfgs m cb = Ok p ->
  let p' := perform_all run os p in
  (forall lang conf now at_s, snd (handle_lid_signal lang conf now at_s p') = Ok (may_request lang conf now p')) /\
  StronglySorted spaced (requests run os p).
Proof.
  intros Hc p'. assert (counted p) as Hp by (unfold create in Hc; case_match; simplify_eq/=; done).
  destruct (requests_spacing run os _ p (create_ok _ _ _ _ _ _ Hc)) as [Hn _ Hs Ha]. split.
  - intros lang conf now at_s. apply signal_exact. by apply Hn.
  - destruct (lid_active_mode p) eqn:Em; [by apply Ha|]. rewrite Hs by done. constructor.
Qed.

(** ** Delivery *)

Definition queue_of (label : string) (p : pool) : list packet :=
  match dget label (transcribers p) with Some t => input_queue t | None => [] end.

Lemma dget_map_keep label p d :
  dget label (map (keep_alive p) d) = (fun t => snd (keep_alive p (label, t))) <$> dget label d.
Proof.
  induction d as [|[l t] d IH]; [done|]. cbn [map].
  replace (keep_alive p (l, t)) with (l, snd (keep_alive p (l, t))) by (simpl; by repeat case_bool_decide).
  cbn [dget]. case_decide as Hd; [by subst|exact IH].
Qed.

(** A routed packet reaches the active transcriber's queue and no other, at its
    end, and its audio the detector's tap; a keepalive round reaches every standby
    whose connection is not known to be down, and never the active one. *)
Theorem delivery_exact run os ts lbl cfgs m cb p k label :
  create ts lbl cfgs m cb = Ok p ->
  let p' := perform_all run os p in
  queue_of label (fst (route k p')) = queue_of label p' ++ (if bool_decide (label = active_label p') then [k] else []) /\
  lid (fst (route k p')) = match lid p', pk_data k with
                           | Some b, Some (c :: cs) => Some (feed (c :: cs) b)
                           | l, _ => l
                           end /\
  queue_of label (keepalive_round p') = queue_of label p' ++
    match dget label (transcribers p') with
    | Some t => if bool_decide (label = active_label p') || bool_decide (transcription_task t = Some true) then []
                else [silence t]
    | None => []
    end.
Proof.
  intros Hc p'. assert (ok (dkeys ts) p') as Hok by (apply perform_all_ok; by eapply create_ok). clearbody p'. split_and!.
  - destruct (route_run _ k _ Hok) as (t & l & Ht & ->). unfold queue_of. simpl. rewrite dget_dset.
    case_bool_decide as Hd; [subst|]; [rewrite decide_True, Ht by done; done|by rewrite decide_False, app_nil_r by done].
  - destruct (ok_active _ _ Hok) as [t Ht]. unfold route, active_transcriber. pool_step.
    destruct (pk_eos k); simpl; rewrite Ht; simpl; destruct (lid p') as [b|] eqn:El, (pk_data k) as [[|]|]; simpl; try rewrite El; done.
  - unfold queue_of, keepalive_round. simpl. rewrite dget_map_keep. destruct (dget label _) as [t|]; simpl; [|done].
    repeat case_bool_decide; simpl; by rewrite ?app_nil_r.
Qed.

(** ** A concrete pool: Hindi and English, the Hindi socket down *)
Module Example.
Definition hi : transcriber := mkTranscriber [] (Some true) None (Some 0) None "SarvamTranscriber" [].
Definition en : transcriber := mkTranscriber [] (Some false) (Some "mulaw") (Some 3) None "DeepgramTranscriber" [].
Definition cfgs : dict string language_cfg :=
  [("hindi", mkCfg (Some "hi-IN") None); ("english", mkCfg None (Some "en"))].
Definition connects (t : transcriber) : transcriber * bool :=
  (mkTranscriber (input_queue t) (Some false) (encoding t) (turn_counter t) (current_turn_id t) (class_name t) (latencies t), true).
Definition refuses (t : transcriber) : transcriber * bool := (t, false).
Definition start : pool :=
  mkPool [("hindi", hi); ("english", en)] "english" cfgs [("hi", "hindi"); ("en", "english")] false 0 0 None true true
    None 0 0%Q [] false.
Definition audio : packet := mkPacket (Some [Corelib.Init.Byte.x01]) false.
Definition eos : packet := mkPacket None true.

Lemma created : create [("hindi", hi); ("english", en)] "english" cfgs true true = Ok start.
Proof. by vm_compute. Qed.

(** A switch with a packet coming in as it waits, then a connection that dies seven times. *)
Definition day : list op := Switch [Route audio] [Keepalive] "hindi" :: repeat (ReconnectActive [] [Route audio]) 7.

Lemma pool_run_budgets_witness :
  let p' := perform_all connects day start in
  labels p' = ["hindi"; "english"] /\ active_label p' = "hindi" /\ reconnected connects day start = 5 /\
  reconnect_count p' = 6 /\ reconnected connects day start <= MAX_RECONNECTS_PER_CALL.
Proof.
  intros p'. destruct (pool_run_budgets connects day _ _ _ _ _ _ created) as (Hl & _ & _ & Hb & _).
  split_and!; [exact Hl|by vm_compute..|exact Hb].
Defined.

Lemma no_reconnect_after_eos_witness :
  let p := perform_all connects ([Free (Route audio)] ++ [Free (Route eos)]) start in
  call_ended p = true /\
  perform_all connects [Switch [] [Route audio] "hindi"; ReconnectActive [] []] p = perform_all refuses [Switch [] [Route audio] "hindi"; ReconnectActive [] []] p /\
  reconnect_count (perform_all connects [Switch [] [Route audio] "hindi"; ReconnectActive [] []] p) = reconnect_count p.
Proof. by apply (no_reconnect_after_eos connects refuses _ _ _ _ _ _ _ _ _ created). Defined.

(** Two Hindi detections a second apart, then one after the cooldown. *)
Definition heard_hindi : list op :=
  map Free [Signal "hi" (Some (Qmake 9 10)) (Qmake 10 1) 0%Q; Signal "hi" None (Qmake 11 1) 0%Q;
            Signal "hi" (Some (Qmake 1 2)) (Qmake 12 1) 0%Q; Signal "hi" None (Qmake 14 1) 0%Q].
Lemma lid_requests_exact_witness :
  requests connects heard_hindi start = [(Qmake 10 1, "hindi"); (Qmake 14 1, "hindi")] /\
  StronglySorted spaced (requests connects heard_hindi start).
Proof.
  split; [by vm_compute|].
  destruct (lid_requests_exact connects heard_hindi _ _ _ _ _ _ created) as [_ H]. exact H.
Defined.

Lemma delivery_exact_witness :
  let p' := perform_all connects [Switch [Route audio] [] "hindi"] start in
  queue_of "hindi" (fst (route audio p')) = queue_of "hindi" p' ++ [audio] /\
  queue_of "english" (fst (route audio p')) = queue_of "english" p'.
Proof.
  destruct (delivery_exact connects [Switch [Route audio] [] "hindi"] _ _ _ _ _ _ audio "hindi" created) as (H & _).
  split; [rewrite H; by vm_compute|by vm_compute].
Defined.
End Example.
End TranscriberPool.
