(* ===== verification/Judge.v ===== *)
(** * The language judge (src/voiceai/helpers/language_switcher.py)

    [LanguageSwitcher] without its prompts: credentials and the choice of the
    model, the runtime fallback, the usage tally, the hedged request and the
    verdict of a decide. The environment ([os.getenv]) and the model's replies are
    arguments. *)
From S2P Require Import Prelude PyText PyVal.
From Stdlib Require Import QArith.QArith Lqa.
Close Scope Q_scope.
Open Scope Z_scope.

Module LanguageSwitcher.
Definition DEFAULT_LANGUAGE_SWITCH_LLM : string := "claude-haiku-4-5-20251001".
Definition DEFAULT_MODEL : string := "anthropic/" +:+ DEFAULT_LANGUAGE_SWITCH_LLM.
Definition RUNTIME_FALLBACK_AFTER : Z := 2.

Section environment.
Variable getenv : string -> option string.

(** [os.getenv(k) or ""] *)
Definition env_or (k : string) : string := default "" (getenv k).
(** [a or b] on strings. *)
Definition str_or (a b : string) : string := if str_true a then a else b.

(** [resolve_switch_llm_credentials]: key, base and version. *)
Definition resolve_switch_llm_credentials (model : string) : string * string * string :=
  let key := env_or "LANGUAGE_SWITCH_LLM_API_KEY" in
  let base := env_or "LANGUAGE_SWITCH_LLM_API_BASE" in
  let version := env_or "LANGUAGE_SWITCH_LLM_API_VERSION" in
  if startswith model "bedrock/" then ("", base, version)
  else if startswith model "azure/"
  then (str_or key (env_or "AZURE_OPENAI_API_KEY"), str_or base (env_or "AZURE_OPENAI_ENDPOINT"),
        str_or version (str_or (env_or "AZURE_OPENAI_API_VERSION") "2024-12-01-preview"))
  else if startswith model "anthropic/" || startswith model "claude"
  then (str_or key (env_or "ANTHROPIC_API_KEY"), base, version)
  else (str_or key (env_or "OPENAI_API_KEY"), base, version).

Record usage := mkUsage { input_tokens : Z; output_tokens : Z; cached_tokens : Z }.
Definition no_usage : usage := mkUsage 0 0 0.
Definition add_usage (a b : usage) : usage :=
  mkUsage (input_tokens a + input_tokens b) (output_tokens a + output_tokens b) (cached_tokens a + cached_tokens b).

Record switcher := mkSwitcher {
  available_labels : list string;
  explicit_only : bool;
  model : string;
  llm_key : string;
  is_bedrock : bool;
  has_credentials : bool;
  requests : Z;
  totals : usage;
  models_used : list string;
  last_usage : option usage;
  hedge_won : bool;
  last_generate_errored : bool;
  consecutive_failures : Z;
  runtime_fallback_done : bool }.

(** The model asked for, with the provider prefix of a bare claude name. *)
Definition chosen_model (asked : option string) : string :=
  let m := str_or (default "" asked) (default DEFAULT_LANGUAGE_SWITCH_LLM (getenv "LANGUAGE_SWITCH_LLM")) in
  if startswith m "claude" && negb (contains m "/") then "anthropic/" +:+ m else m.

(** [__init__] *)
Definition create (labels : list string) (asked : option string) (explicit : bool) : switcher :=
  let m := chosen_model asked in
  let '(key, _, _) := resolve_switch_llm_credentials m in
  let bedrock := startswith m "bedrock/" in
  let '(fb_key, _, _) := resolve_switch_llm_credentials DEFAULT_MODEL in
  let fall_back := negb (str_true (strip key)) && negb bedrock && negb (bool_decide (m = DEFAULT_MODEL)) && str_true (strip fb_key) in
  let m' := if fall_back then DEFAULT_MODEL else m in
  let key' := if fall_back then fb_key else key in
  mkSwitcher labels explicit m' key' bedrock (str_true (strip key') || bedrock) 0 no_usage [] None false false 0 false.

Definition tally_usage (u : option usage) (s : switcher) : switcher :=
  let used := if bool_decide (model s ∈ models_used s) then models_used s else models_used s ++ [model s] in
  match u with
  | None => mkSwitcher (available_labels s) (explicit_only s) (model s) (llm_key s) (is_bedrock s) (has_credentials s)
              (requests s + 1) (totals s) used (last_usage s) (hedge_won s) (last_generate_errored s)
              (consecutive_failures s) (runtime_fallback_done s)
  | Some u => mkSwitcher (available_labels s) (explicit_only s) (model s) (llm_key s) (is_bedrock s) (has_credentials s)
              (requests s + 1) (add_usage (totals s) u) used (Some u) (hedge_won s) (last_generate_errored s)
              (consecutive_failures s) (runtime_fallback_done s)
  end.

Definition set_failures (n : Z) (s : switcher) : switcher :=
  mkSwitcher (available_labels s) (explicit_only s) (model s) (llm_key s) (is_bedrock s) (has_credentials s)
    (requests s) (totals s) (models_used s) (last_usage s) (hedge_won s) (last_generate_errored s)
    n (runtime_fallback_done s).
Definition set_generate (won errored : bool) (s : switcher) : switcher :=
  mkSwitcher (available_labels s) (explicit_only s) (model s) (llm_key s) (is_bedrock s) (has_credentials s)
    (requests s) (totals s) (models_used s) (last_usage s) won errored
    (consecutive_failures s) (runtime_fallback_done s).

Definition note_failure (s : switcher) : switcher :=
  let s := set_failures (consecutive_failures s + 1) s in
  if runtime_fallback_done s || (consecutive_failures s <? RUNTIME_FALLBACK_AFTER) then s
  else if bool_decide (model s = DEFAULT_MODEL) then s
  else
    let '(key, _, _) := resolve_switch_llm_credentials DEFAULT_MODEL in
    if negb (str_true (strip key)) then s
    else mkSwitcher (available_labels s) (explicit_only s) DEFAULT_MODEL key false (has_credentials s)
           (requests s) (totals s) (models_used s) (last_usage s) (hedge_won s) (last_generate_errored s)
           (consecutive_failures s) true.

(** ** The hedged request *)

(** How an attempt ends: the parsed reply ([VNone] for a JSON null) with its usage,
    or an exception; a reply that does not parse is tallied before it raises. *)
Inductive attempt := Reply (v : val) (u : option usage) | Failed (tallied : option (option usage)).

(** The winner among the tasks an [asyncio.wait] reports done, in the order the
    set is iterated; the flag marks the second attempt. *)
Definition pick_winner (done : list (bool * attempt)) : option (bool * val) :=
  fold_left (fun w '(second, a) =>
    match a with
    | Failed _ => w
    | Reply v _ => if match w with None => true | Some _ => false end || second then Some (second, v) else w
    end) done None.

Definition tally (a : attempt) (s : switcher) : switcher :=
  match a with
  | Reply _ u | Failed (Some u) => tally_usage u s
  | Failed None => s
  end.
Definition tally_all (done : list (bool * attempt)) (s : switcher) : switcher :=
  fold_left (fun s '(_, a) => tally a s) done s.

(** The loop over the batches of completed attempts: the reply, and whether both
    failed. [None]: the batches do not cover the pending attempts. *)
Fixpoint await_first (pending : nat) (batches : list (list (bool * attempt))) (s : switcher)
    : option (switcher * option val) :=
  match pending with
  | O => Some (set_generate (hedge_won s) true s, None)
  | _ =>
      match batches with
      | [] => None
      | done :: rest =>
          let s := tally_all done s in
          match pick_winner done with
          | Some (second, v) => Some (set_generate second (last_generate_errored s) s, Some v)
          | None => await_first (pending - length done) rest s
          end
      end
  end.

(** [_hedged_generate]. [first]: the first attempt when the hedge timer is over,
    [None] if still running; [alone] is its end when hedging is off. [Err] is the
    exception that propagates then. *)
Definition hedged_generate (hedge_after : Q) (alone : attempt) (first : option attempt)
    (batches : list (list (bool * attempt))) (s : switcher) : option (switcher * result unit (option val)) :=
  let s := set_generate false false s in
  if Qle_bool hedge_after 0
  then match alone with
       | Reply v _ => Some (tally alone s, Ok (Some v))
       | Failed _ => Some (tally alone s, Err tt)
       end
  else match first with
       | Some (Reply v u) => Some (tally_usage u s, Ok (Some v))
       | Some (Failed t) => (fun '(s', r) => (s', Ok r)) <$> await_first 2 ([(false, Failed t)] :: batches) s
       | None => (fun '(s', r) => (s', Ok r)) <$> await_first 2 batches s
       end.

(** [decide], from its reply to its bookkeeping: the answer to the caller. *)
Definition decide (detector_transcript : string) (generate : switcher -> option (switcher * result unit (option val)))
    (s : switcher) : option (switcher * option val) :=
  if negb (str_true (strip detector_transcript)) then Some (s, None)
  else
    let s := mkSwitcher (available_labels s) (explicit_only s) (model s) (llm_key s) (is_bedrock s) (has_credentials s)
               (requests s) (totals s) (models_used s) None (hedge_won s) (last_generate_errored s)
               (consecutive_failures s) (runtime_fallback_done s) in
    match generate s with
    | None => None
    | Some (s', Err _) => Some (note_failure s', None)
    | Some (s', Ok (Some VNone)) | Some (s', Ok None) =>
        Some (if last_generate_errored s' then note_failure s' else set_failures 0 s', None)
    | Some (s', Ok (Some v)) => Some (set_failures 0 s', Some v)
    end.



(** ** What the bookkeeping keeps *)

Definition core (s : switcher) : string * Z * bool := (model s, consecutive_failures s, runtime_fallback_done s).
Definition is_reply (a : attempt) : bool := match a with Reply _ _ => true | Failed _ => false end.

Lemma tally_core a s : core (tally a s) = core s /\ last_generate_errored (tally a s) = last_generate_errored s.
Proof. destruct a as [v u|[u|]]; simpl; try done; unfold tally_usage; by destruct u. Qed.

Lemma tally_all_core (done : list (bool * attempt)) s : core (tally_all done s) = core s /\ last_generate_errored (tally_all done s) = last_generate_errored s.
Proof.
  revert s. induction done as [|[b a] done IH]; intros s; simpl; [by split|].
  destruct (IH (tally a s)) as [-> ->]. apply tally_core.
Qed.

Lemma pick_winner_go (done : list (bool * attempt)) (w : option (bool * val)) :
  let r := fold_left (fun w '(second, a) =>
    match a with
    | Failed _ => w
    | Reply v _ => if match w with None => true | Some _ => false end || second then Some (second, v) else w
    end) done w in
  match r with
  | None => w = None /\ forallb (fun x => negb (is_reply (snd x))) done = true
  | Some (second, v) => w = Some (second, v) \/ exists u, (second, Reply v u) ∈ done
  end.
Proof.
  revert w. induction done as [|[b [v u|t]] done IH]; intros w; cbn [fold_left].
  - destruct w as [[]|]; [by left|done].
  - match goal with |- context [fold_left _ done ?x] => set (w1 := x) end. specialize (IH w1). destruct (fold_left _ done w1) as [[sec v']|].
    + destruct IH as [Hw|[u' Hu]]; [|right; exists u'; set_solver]. unfold w1 in Hw. destruct w as [[]|]; simpl in Hw.
      * destruct b; simplify_eq; [right; exists u; set_solver|by left].
      * simplify_eq. right. exists u. set_solver.
    + destruct IH as [Hw _]. unfold w1 in Hw. destruct w; destruct b; done.
  - specialize (IH w). destruct (fold_left _ done w) as [[sec v']|]; simpl.
    + destruct IH as [|[u' Hu]]; [by left|right; exists u'; set_solver].
    + done.
Qed.

Lemma pick_winner_spec (done : list (bool * attempt)) :
  match pick_winner done with
  | None => forallb (fun x => negb (is_reply (snd x))) done = true
  | Some (second, v) => exists u, (second, Reply v u) ∈ done
  end.
Proof.
  pose proof (pick_winner_go done None) as H. unfold pick_winner. destruct (fold_left _ done None) as [[sec v]|]; [|by destruct H].
  destruct H as [|]; done.
Qed.

(** Every attempt of a schedule failed. *)
Definition all_failed (batches : list (list (bool * attempt))) : bool :=
  forallb (forallb (fun x => negb (is_reply (snd x)))) batches.

Lemma pick_winner_reply (done : list (bool * attempt)) second v u :
  (second, Reply v u) ∈ done -> forallb (fun x => negb (is_reply (snd x))) done = false.
Proof.
  intros H. apply not_true_iff_false. intros Hf. rewrite forallb_forall in Hf.
  specialize (Hf (second, Reply v u)). rewrite <- list_elem_of_In in Hf. by specialize (Hf H).
Qed.

(** A schedule that completes the pending attempts is enough. *)
Lemma await_first_spec n (batches : list (list (bool * attempt))) s :
  length (concat batches) = n ->
  exists s' r, await_first n batches s = Some (s', r) /\ core s' = core s /\
    if all_failed batches then r = None /\ last_generate_errored s' = true
    else (exists v second u, r = Some v /\ (second, Reply v u) ∈ concat batches /\ hedge_won s' = second) /\
         last_generate_errored s' = last_generate_errored s.
Proof.
  revert n s. induction batches as [|done rest IH]; intros n s Hn; simpl in Hn.
  { subst n. simpl. by eexists _, _. }
  destruct n as [|n].
  { destruct done; [|done]. simpl in *. eexists _, _. split; [done|]. split; [done|].
    apply nil_length_inv in Hn as Ec.
    assert (all_failed rest = true) as ->; [|done]. clear -Ec. unfold all_failed.
    induction rest as [|d rest IH]; simpl in *; [done|]. destruct d; [|done]. simpl. by apply IH. }
  simpl await_first. pose proof (pick_winner_spec done) as Hp.
  destruct (tally_all_core done s) as [Hc He]. destruct (pick_winner done) as [[second v]|] eqn:Ew.
  - destruct Hp as [u Hu]. eexists _, _. split; [done|]. split; [exact Hc|].
    assert (all_failed (done :: rest) = false) as -> by (unfold all_failed; simpl; by rewrite (pick_winner_reply _ _ _ _ Hu)).
    split; [|exact He]. exists v, second, u. simpl. set_solver.
  - rewrite length_app in Hn.
    assert (all_failed (done :: rest) = all_failed rest) as -> by (unfold all_failed; simpl; by rewrite Hp).
    destruct (IH (S n - length done)%nat (tally_all done s)) as (s' & r & Hr & Hc' & Ho); [lia|].
    exists s', r. split; [exact Hr|]. rewrite Hc', Hc. split; [done|].
    destruct (all_failed rest); [done|]. rewrite He in Ho. destruct Ho as [(v & sec & u & ? & ? & ?) ?]. split; [|done].
    exists v, sec, u. set_solver.
Qed.

(** ** Runs of decides *)

(** A decide as its environment answers it: the transcript, the hedge delay, the
    end of the only attempt when hedging is off, of the first when the timer is
    over, and the batches after. *)
Record request := mkRequest {
  rq_transcript : string;
  rq_hedge : Q;
  rq_alone : attempt;
  rq_first : option attempt;
  rq_batches : list (list (bool * attempt)) }.
Definition run_decide (rq : request) : switcher -> option (switcher * option val) :=
  decide (rq_transcript rq) (hedged_generate (rq_hedge rq) (rq_alone rq) (rq_first rq) (rq_batches rq)).

(** The attempts started are all among those that end. *)
Definition covered (rq : request) : Prop :=
  match rq_first rq with
  | Some (Reply _ _) => True
  | Some (Failed _) => length (concat (rq_batches rq)) = 1%nat
  | None => length (concat (rq_batches rq)) = 2%nat
  end.
Definition asked (rq : request) : bool := str_true (strip (rq_transcript rq)).
Definition failed (rq : request) : bool :=
  if Qle_bool (rq_hedge rq) 0 then negb (is_reply (rq_alone rq))
  else match rq_first rq with
       | Some (Reply _ _) => false
       | _ => all_failed (rq_batches rq)
       end.
(** A reply one of the attempts made. *)
Definition replied (rq : request) (v : val) : Prop :=
  exists u, rq_alone rq = Reply v u \/ rq_first rq = Some (Reply v u) \/ exists second, (second, Reply v u) ∈ concat (rq_batches rq).

Lemma hedged_generate_spec rq s :
  covered rq ->
  exists s' r, hedged_generate (rq_hedge rq) (rq_alone rq) (rq_first rq) (rq_batches rq) s = Some (s', r) /\ core s' = core s /\
    if failed rq then r = Err tt \/ (r = Ok None /\ last_generate_errored s' = true)
    else (exists v, r = Ok (Some v) /\ replied rq v) /\ last_generate_errored s' = false.
Proof.
  intros Hc. unfold hedged_generate, failed. destruct (Qle_bool (rq_hedge rq) 0).
  { destruct (rq_alone rq) as [v u|t] eqn:Ea; eexists _, _; (split; [done|]).
    - destruct (tally_core (Reply v u) (set_generate false false s)) as [-> ->]. split; [done|]. split; [|done].
      exists v. split; [done|]. exists u. by left.
    - destruct (tally_core (Failed t) (set_generate false false s)) as [-> _]. split; [done|by left]. }
  unfold covered in Hc. destruct (rq_first rq) as [[v u|t]|] eqn:Ef.
  - eexists _, _. split; [done|]. destruct (tally_core (Reply v u) (set_generate false false s)) as [H1 H2]. simpl in H1, H2.
    rewrite H1, H2. split; [done|]. split; [|done]. exists v. split; [done|]. exists u. auto.
  - destruct (await_first_spec 2 ([(false, Failed t)] :: rq_batches rq) (set_generate false false s)) as (s' & r & -> & Hcr & Ho);
      [simpl; by rewrite Hc|].
    eexists _, _. split; [done|]. split; [exact Hcr|].
    change (all_failed ([(false, Failed t)] :: rq_batches rq)) with (all_failed (rq_batches rq)) in Ho.
    destruct (all_failed (rq_batches rq)); [destruct Ho as [-> ?]; by right|].
    destruct Ho as [(v & sec & u & -> & Hin & _) He]. split; [|exact He]. exists v. split; [done|]. exists u. right; right. exists sec.
    simpl in Hin. set_solver.
  - destruct (await_first_spec 2 (rq_batches rq) (set_generate false false s)) as (s' & r & -> & Hcr & Ho); [done|].
    eexists _, _. split; [done|]. split; [exact Hcr|].
    destruct (all_failed (rq_batches rq)); [destruct Ho as [-> ?]; by right|].
    destruct Ho as [(v & sec & u & -> & Hin & _) He]. split; [|exact He]. exists v. split; [done|]. exists u. right; right. by exists sec.
Qed.

(** A failed decide, on the model and the failure count. *)
Definition usable : bool := let '(key, _, _) := resolve_switch_llm_credentials DEFAULT_MODEL in str_true (strip key).
Definition fail_core (c : string * Z * bool) : string * Z * bool :=
  let '(m, n, done) := c in
  if negb done && (RUNTIME_FALLBACK_AFTER <=? n + 1) && negb (bool_decide (m = DEFAULT_MODEL)) && usable
  then (DEFAULT_MODEL, n + 1, true) else (m, n + 1, done).

Lemma note_failure_core s : core (note_failure s) = fail_core (core s).
Proof.
  unfold note_failure, fail_core, core, usable. cbn -[resolve_switch_llm_credentials DEFAULT_MODEL].
  destruct (resolve_switch_llm_credentials DEFAULT_MODEL) as [[key base] version].
  destruct (runtime_fallback_done s) eqn:Ed; simpl; [by rewrite Ed|].
  rewrite Z.leb_antisym. destruct (_ <? RUNTIME_FALLBACK_AFTER); simpl; [by rewrite Ed|].
  case_bool_decide; simpl; [by rewrite Ed|]. destruct (str_true (strip key)); simpl; [done|by rewrite Ed].
Qed.

Lemma decide_spec rq s :
  covered rq ->
  exists s' r, run_decide rq s = Some (s', r) /\
    core s' = (if asked rq then if failed rq then fail_core (core s) else (model s, 0, runtime_fallback_done s) else core s) /\
    (forall v, r = Some v -> asked rq = true /\ failed rq = false /\ replied rq v) /\
    (r = None -> asked rq = false \/ failed rq = true \/ replied rq VNone).
Proof.
  intros Hc. unfold run_decide, decide. fold (asked rq). destruct (asked rq); simpl; [|by eexists _, _; split; [done|split_and!; [done|intros|left]]].
  set (s0 := mkSwitcher _ _ _ _ _ _ _ _ _ _ _ _ _ _).
  destruct (hedged_generate_spec rq s0 Hc) as (s' & r & -> & Hcore & Ho).
  assert (core (set_failures 0 s') = (model s, 0, runtime_fallback_done s)) as H0 by (injection Hcore as Hm _ Hd; unfold core; simpl; by rewrite Hm, Hd).
  assert (core (note_failure s') = fail_core (core s)) as Hf by (rewrite note_failure_core, Hcore; done).
  destruct (failed rq).
  - destruct Ho as [->|[-> He]]; [|rewrite He]; (eexists _, _; split; [done|]; split_and!; [done|done|auto]).
  - destruct Ho as [(v & -> & Hv) He]. rewrite He. destruct v; (eexists _, _; split; [done|]; split_and!; [done|..]);
      try (by intros ? [= <-]); try done; by right; right.
Qed.

Fixpoint run_decides (rqs : list request) (s : switcher) : option switcher :=
  match rqs with
  | [] => Some s
  | rq :: rqs' => match run_decide rq s with Some (s', _) => run_decides rqs' s' | None => None end
  end.

(** Two [true] next to each other, after [prev]. *)
Fixpoint two_from (prev : bool) (l : list bool) : bool :=
  match l with
  | [] => false
  | b :: l' => prev && b || two_from b l'
  end.
Definition two_in_a_row : list bool -> bool := two_from false.

(** The outcomes of the decides that reach the judge. *)
Definition outcomes (rqs : list request) : list bool := map failed (List.filter asked rqs).

Lemma fallback_from rqs s prev :
  Forall covered rqs -> 0 <= consecutive_failures s ->
  (prev = true <-> 0 < consecutive_failures s) ->
  (runtime_fallback_done s = true -> model s = DEFAULT_MODEL) ->
  (2 <= consecutive_failures s -> model s = DEFAULT_MODEL \/ usable = false) ->
  exists s', run_decides rqs s = Some s' /\
    model s' = if two_from prev (outcomes rqs) && usable then DEFAULT_MODEL else model s.
Proof.
  revert s prev. induction rqs as [|rq rqs IH]; intros s prev Hc Hn Hp Hd H2; [by exists s|].
  inversion_clear Hc as [|? ? Hrq Hrqs]. destruct (decide_spec rq s Hrq) as (s1 & r & Hrun & Hcore & _).
  cbn [run_decides]. rewrite Hrun. unfold outcomes. cbn [List.filter]. destruct (asked rq) eqn:Ea.
  2: { injection Hcore as Hm Hcf Hdn. rewrite <- Hm. apply IH; [done|by rewrite Hcf..| |]; by rewrite ?Hdn, ?Hcf, Hm. }
  cbn [map two_from]. destruct (failed rq) eqn:Ef.
  2: { injection Hcore as Hm Hcf Hdn. rewrite andb_false_r, <- Hm. cbn [orb]. apply IH; rewrite ?Hcf, ?Hdn, ?Hm; try done; lia. }
  rewrite andb_true_r. unfold fail_core, core in Hcore. unfold RUNTIME_FALLBACK_AFTER in Hcore.
  destruct (negb (runtime_fallback_done s) && (2 <=? consecutive_failures s + 1) && negb (bool_decide (model s = DEFAULT_MODEL)) && usable) eqn:Eb.
  - injection Hcore as Hm Hcf Hdn. apply andb_prop in Eb as [[[_ Hge]%andb_prop Hne]%andb_prop Hu].
    assert (prev = true) as -> by (apply Hp; lia). rewrite Hu. cbn [orb andb].
    destruct (IH s1 true) as (s' & -> & Hs'); [done|rewrite Hcf; lia|rewrite Hcf; split; lia|done|by left|].
    exists s'. split; [done|]. rewrite Hs', Hm. by destruct (_ && usable).
  - injection Hcore as Hm Hcf Hdn.
    assert (prev = true -> model s = DEFAULT_MODEL \/ usable = false) as Hstay.
    { intros Hpt. apply Hp in Hpt. replace (2 <=? consecutive_failures s + 1) with true in Eb by lia. rewrite andb_true_r in Eb.
      destruct (runtime_fallback_done s); [left; by apply Hd|]. simpl in Eb. case_bool_decide; [by left|]. by right. }
    destruct (IH s1 true) as (s' & -> & Hs'); [done|rewrite Hcf; lia|rewrite Hcf; split; lia|by rewrite Hdn, Hm| |].
    { rewrite Hcf, Hm. intros Hge. apply Hstay, Hp. lia. }
    exists s'. split; [done|]. fold (outcomes rqs). rewrite Hs', Hm. destruct prev; [|done].
    destruct (Hstay eq_refl) as [->| ->]; [by repeat case_match|by rewrite !andb_false_r].
Qed.

(** However the requests of a call end, every decide returns: with a reply one of
    its attempts made, or nothing exactly when the transcript is blank, every
    attempt failed, or the reply is a null. The judge's model changes exactly when
    two decides in a row fail (blank transcripts apart) and the default model has
    a key, and only to the default model. *)
Theorem judge_fallback_exact rqs labels want explicit :
  Forall covered rqs ->
  let s := create labels want explicit in
  (exists s', run_decides rqs s = Some s' /\
     model s' = if two_in_a_row (outcomes rqs) && usable then DEFAULT_MODEL else model s) /\
  (forall rq t, rq ∈ rqs -> exists t' r, run_decide rq t = Some (t', r) /\
     (forall v, r = Some v -> asked rq = true /\ failed rq = false /\ replied rq v) /\
     (r = None -> asked rq = false \/ failed rq = true \/ replied rq VNone)).
Proof.
  intros Hc s. split.
  - assert (consecutive_failures s = 0 /\ runtime_fallback_done s = false) as [H0 Hd].
    { unfold s, create. destruct (resolve_switch_llm_credentials (chosen_model want)) as [[? ?] ?].
      by destruct (resolve_switch_llm_credentials DEFAULT_MODEL) as [[? ?] ?]. }
    apply fallback_from; [done|rewrite H0; lia|rewrite H0; by split|by rewrite Hd|rewrite H0; lia].
  - intros rq t Hin. destruct (decide_spec rq t) as (t' & r & ? & _ & ? & ?); [by apply (proj1 (Forall_forall _ _) Hc)|].
    by exists t', r.
Qed.
End environment.

(** An Azure judge that fails twice, with an Anthropic key in the environment. *)
Definition azure_env (k : string) : option string :=
  if bool_decide (k = "AZURE_OPENAI_API_KEY") then Some "az"
  else if bool_decide (k = "ANTHROPIC_API_KEY") then Some "an" else None.
Definition failing : request := mkRequest "namaste" (Qmake 9 5) (Failed None) None [[(false, Failed None)]; [(true, Failed None)]].
Definition answering : request :=
  mkRequest "namaste" (Qmake 9 5) (Failed None) None [[(false, Failed None)]; [(true, Reply (VDict []) None)]].

Lemma judge_fallback_exact_witness :
  (exists s', run_decides azure_env [failing; answering; failing; failing; answering] (create azure_env ["hi"; "en"] (Some "azure/gpt") false) = Some s' /\
     model s' = DEFAULT_MODEL) /\
  model (create azure_env ["hi"; "en"] (Some "azure/gpt") false) = "azure/gpt".
Proof.
  assert (Forall covered [failing; answering; failing; failing; answering]) as Hc by (repeat (apply Forall_cons; split; [done|]); apply Forall_nil_2).
  destruct (judge_fallback_exact azure_env _ ["hi"; "en"] (Some "azure/gpt") false Hc) as [(s' & Hs & Hm) _].
  split; [|by vm_compute]. exists s'. split; [exact Hs|]. rewrite Hm. by vm_compute.
Defined.
End LanguageSwitcher.
