(* ===== verification/LidGate.v ===== *)
(** * Detector evidence, the playback gate and the idle watcher
      (src/voiceai/modules/voice/session/language/lid_gate.py)

    A gate is an object the session points to and the switch path may hold on to
    after the session has dropped it, so gates live in a store. [time] readings and
    the environment's thresholds are arguments; [task_done] tells which decision
    tasks are done. *)
From S2P Require Import Prelude PyText PyVal LidBuffer AsrPool Judge.
From Stdlib Require Import QArith.QArith Lqa.
Close Scope Q_scope.
Open Scope Z_scope.

Module LidGate.
Import LIDBackend TranscriberPool LanguageSwitcher.

Definition LANGUAGE_SWITCH_MAX_HOLD_S : Q := Qmake 4 1.
Definition LANGUAGE_SWITCH_MIN_SEGMENT_AUDIO_S : Q := Qmake 7 10.
Definition LANGUAGE_SWITCH_SPEAKING_STALE_CAP_S : Q := Qmake 5 2.

Notation task := nat (only parsing).

Record gate := mkGate {
  g_sequence_id : Z;
  g_task : task;
  g_armed_at : Q;
  g_language : option string;
  g_deadline : Q;
  g_recorded : bool }.

(** [tools["transcriber"]] *)
Inductive tool := NoTranscriber | SingleTranscriber | Pool (p : pool).

Record session := mkSession {
  gates : list gate;
  lid_playback_gate : option nat;
  transcriber_tool : tool;
  synth_labels : option (list string);
  s_language : option string;
  hangup_triggered : bool;
  end_call_in_progress : bool;
  has_transfer : bool;
  conversation_ended : bool;
  language_switcher : option switcher;
  callee_speaking : bool }.

Definition with_gates (gs : list gate) (g : option nat) (s : session) : session :=
  mkSession gs g (transcriber_tool s) (synth_labels s) (s_language s) (hangup_triggered s) (end_call_in_progress s)
    (has_transfer s) (conversation_ended s) (language_switcher s) (callee_speaking s).
Definition with_tool (t : tool) (s : session) : session :=
  mkSession (gates s) (lid_playback_gate s) t (synth_labels s) (s_language s) (hangup_triggered s) (end_call_in_progress s)
    (has_transfer s) (conversation_ended s) (language_switcher s) (callee_speaking s).

(** [_should_ignore_transcriber_input] (lifecycle/hangup.py). *)
Definition should_ignore_transcriber_input (s : session) : bool :=
  hangup_triggered s || end_call_in_progress s || has_transfer s.

(** ** Telemetry *)

(** [record_lid_event]: the event is stamped, and dropped without a pool. *)
Definition record_lid_event (mk : Q -> lid_event) (ts : Q) (s : session) : session :=
  match transcriber_tool s with
  | Pool p => with_tool (Pool (append_event (mk ts) p)) s
  | _ => s
  end.

Definition is_usage (e : lid_event) : bool := match e with Usage _ _ _ => true | _ => false end.
Definition is_gate_record (e : lid_event) : bool := match e with PlaybackGate _ _ _ _ _ => true | _ => false end.

Definition judge_record (j : switcher) : list string * string * (Z * Z * Z * Z) :=
  (match models_used j with [] => [model j] | l => l end, model j,
   (requests j, input_tokens (totals j), output_tokens (totals j), cached_tokens (totals j))).

Definition record_lid_usage (ts : Q) (sw : option switcher) (p : pool) : pool :=
  if existsb is_usage (lid_detection_events p) then p
  else
    let seconds := lid_audio_seconds p in
    let silent := match seconds with Some q => Qeq_bool q 0 | None => true end in
    match sw with
    | None => if silent then p else append_event (Usage ts seconds None) p
    | Some j => append_event (Usage ts seconds (Some (judge_record j))) p
    end.

(** [snapshot_lid_events]: the health record first, then the usage. *)
Definition snapshot_lid_events (ts_health ts_usage : Q) (s : session) : list lid_event * session :=
  match transcriber_tool s with
  | Pool p =>
      let p' := record_lid_usage ts_usage (language_switcher s) (record_detector_health ts_health p) in
      (lid_detection_events p', with_tool (Pool p') s)
  | _ => ([], s)
  end.

(** ** The playback gate *)

Definition system_sequence (sequence_id : option Z) : bool :=
  match sequence_id with None => true | Some i => i =? -1 end.

(** [armed] and [now] are the two monotonic readings. *)
Definition arm_lid_playback_gate (max_hold : Q) (sequence_id : option Z) (t : task) (armed now : Q) (s : session) : session :=
  match sequence_id with
  | Some i =>
      if i =? -1 then s
      else with_gates (gates s ++ [mkGate i t armed (s_language s) (now + max_hold) false]) (Some (length (gates s))) s
  | None => s
  end.

Definition held_ms (g : gate) (now : Q) : Q := py_round 1 ((now - g_armed_at g) * 1000).
Definition mark_recorded (g : gate) : gate :=
  mkGate (g_sequence_id g) (g_task g) (g_armed_at g) (g_language g) (g_deadline g) true.

(** [release_lid_playback_gate] on the gate object [i]. *)
Definition release_lid_playback_gate (i : nat) (outcome : string) (clear : bool) (now ts : Q) (s : session) : session :=
  let s1 := if clear then with_gates (gates s) None s else s in
  match gates s1 !! i with
  | None => s1
  | Some g =>
      if g_recorded g then s1
      else record_lid_event (PlaybackGate outcome (held_ms g now) (g_sequence_id g) (g_language g)) ts
             (with_gates (<[i := mark_recorded g]> (gates s1)) (lid_playback_gate s1) s1)
  end.

Definition lid_playback_gate_holds (task_done : task -> bool) (sequence_id : option Z) (now ts : Q) (s : session)
    : bool * session :=
  match lid_playback_gate s, language_switcher s with
  | Some i, Some _ =>
      match gates s !! i with
      | None => (false, s)
      | Some g =>
          if system_sequence sequence_id || negb (bool_decide (sequence_id = Some (g_sequence_id g))) then (false, s)
          else if hangup_triggered s || conversation_ended s || should_ignore_transcriber_input s
          then (false, release_lid_playback_gate i "teardown" true now ts s)
          else if task_done (g_task g) then (false, release_lid_playback_gate i "decided" true now ts s)
          else if Qle_bool (g_deadline g) now then (false, release_lid_playback_gate i "expired" true now ts s)
          else (true, s)
      end
  | _, _ => (false, s)
  end.

(** ** Evidence *)

(** [(lang or "").split("-")[0].lower()] *)
Definition short_of (lang : option string) : string := lower (before_dash (default "" lang)).

(** [max(durations) if durations else 0.0] *)
Definition longest (segs : list segment) : Q := max_audio segs.

Definition detected_lang_duration (detected : option string) (segs : list segment) : Q :=
  longest (List.filter (fun s => bool_decide (short_of (seg_lang s) = short_of detected)) segs).

(** [turns[-limit:]]; a zero limit slices nothing off. *)
Definition last_turns {A} (limit : nat) (l : list A) : list A :=
  match limit with O => l | _ => drop (length l - limit) l end.

Definition turn_of (e : lid_event) : option (string * Q * option string) :=
  match e with
  | Decision flow _ (Some lang) segs switched =>
      if bool_decide (flow = "llm_switch") && str_true lang
      then Some (lang, detected_lang_duration (Some lang) segs, switched) else None
  | _ => None
  end.
Definition recent_detected_turns (limit : nat) (p : pool) : list (string * Q * option string) :=
  last_turns limit (omap turn_of (lid_detection_events p)).

Definition corroborating (min_prob min_segment_s : Q) (short : string) (s : segment) : bool :=
  bool_decide (short_of (seg_lang s) = short) &&
  match seg_prob s with
  | None => false
  | Some prob => Qle_bool min_prob prob && Qle_bool min_segment_s (seg_audio_s s)
  end.
Definition detector_corroborates (min_prob min_segment_s : Q) (segs : list segment) (target : string) : bool :=
  if str_true target then existsb (corroborating min_prob min_segment_s (short_of (Some target))) segs else false.

Fixpoint evidence (active_short : string) (segs : list segment) (saw : bool) (foreign : list string) (mx : Q)
    : bool * list string * Q :=
  match segs with
  | [] => (saw, foreign, mx)
  | s :: rest =>
      let lang := short_of (seg_lang s) in
      if negb (str_true lang) then evidence active_short rest saw foreign mx
      else if bool_decide (lang = active_short) then evidence active_short rest true foreign mx
      else evidence active_short rest true
             (if bool_decide (lang ∈ foreign) then foreign else foreign ++ [lang])
             (if Qltb mx (seg_audio_s s) then seg_audio_s s else mx)
  end.
(** The segments as [lid_buffer_segments] answers them; [None] when it raises
    [AttributeError] or [TypeError]. *)
Definition buffered_language_evidence (read : option (list segment)) (active_short : string) : bool * list string * Q :=
  match read with
  | Some segs => evidence active_short segs false [] 0%Q
  | None => (false, [], 0%Q)
  end.

Definition detector_language_mismatch (min_segment_s : Q) (s : session) : bool :=
  match transcriber_tool s with
  | Pool p =>
      let '(_, foreign, mx) := buffered_language_evidence (Some (lid_buffer_segments p)) (short_of (s_language s)) in
      match List.find (fun l => bool_decide (l ∈ labels p)) foreign with
      | None => false
      | Some detected =>
          if Qltb mx min_segment_s then false
          else match synth_labels s with
               | Some ls => bool_decide (detected ∈ ls)
               | None => true
               end
      end
  | _ => false
  end.

(** ** The idle watcher, one iteration *)

Inductive action :=
| Exit
| Sleep (seconds : Q)
| WaitEvent (timeout : Q)
| Decided (then_sleep : option Q).

Definition clear_event (p : pool) : pool :=
  match lid p with
  | None => p
  | Some b =>
      let u := the_buffer b in
      set_lid (Some (mkBackend (the_link b) (the_tap b)
        (mkBuffer (buffer_text u) (buffer_lang u) (buffer_lang_streak u) (buffer_max_segment_s u)
           (buffer_last_segment_ts u) (buffer_lang_prob u) (buffer_segments u) false))) p
  end.

Section watcher.
Variables idle_flush_s mismatch_idle_flush_s : Q.
(** [handle_language_switch], with whatever runs until it returns. *)
Variable handle_language_switch : session -> session.

Definition lid_idle_watcher (now : Q) (s : session) (skip_logged : bool) : action * session * bool :=
  if conversation_ended s then (Exit, s, skip_logged)
  else if should_ignore_transcriber_input s then (Sleep (Qmake 1 2), s, skip_logged)
  else match transcriber_tool s with
  | Pool p =>
      match lid_buffer_age now p with
      | None =>
          match lid_buffer_event p with
          | None => (Sleep (Qmake 1 2), s, false)
          | Some _ => (WaitEvent 2, s, false)
          end
      | Some age =>
          let '(saw_tags, foreign, _) := buffered_language_evidence (Some (lid_buffer_segments p)) (short_of (s_language s)) in
          let mismatch := match foreign with [] => false | _ => true end in
          let threshold := if mismatch then mismatch_idle_flush_s else idle_flush_s in
          let nothing_to_decide := saw_tags && negb mismatch in
          if callee_speaking s && Qltb age LANGUAGE_SWITCH_SPEAKING_STALE_CAP_S then (Sleep (Qmake 1 10), s, skip_logged)
          else if Qle_bool threshold age && negb nothing_to_decide
          then
            let s' := handle_language_switch s in
            let drained := match transcriber_tool s' with
                           | Pool p' => match lid_buffer_age now p' with None => true | Some _ => false end
                           | _ => true
                           end in
            (Decided (if drained then None else Some (Qmake 1 10)), s', skip_logged)
          else
            let quiet := nothing_to_decide && Qle_bool threshold age in
            let remaining := if quiet then 2%Q else Qmaxq (threshold - age) (Qmake 1 20) in
            match lid_buffer_event p with
            | None => (Sleep remaining, s, skip_logged || quiet)
            | Some _ => (WaitEvent remaining, with_tool (Pool (clear_event p)) s, skip_logged || quiet)
            end
      end
  | _ => (Sleep (Qmake 1 2), s, skip_logged)
  end.
End watcher.

(** ** The poll *)

(** A poll holds the audio exactly when this turn's gate is armed, a judge is
    there, the call is not ending, the decision task is still running and the
    deadline is ahead; holding changes nothing, and every other poll of the gate's
    own sequence opens it. So no gate holds past its deadline, nor once its
    decision is made, nor a goodbye. *)
Theorem gate_poll_exact task_done sequence_id now ts s :
  let '(holds, s') := lid_playback_gate_holds task_done sequence_id now ts s in
  (holds = true <->
     is_Some (language_switcher s) /\ should_ignore_transcriber_input s = false /\ conversation_ended s = false /\
     exists i g, lid_playback_gate s = Some i /\ gates s !! i = Some g /\
       sequence_id = Some (g_sequence_id g) /\ g_sequence_id g <> -1 /\
       task_done (g_task g) = false /\ (now < g_deadline g)%Q) /\
  (holds = true -> s' = s) /\
  (holds = false -> s' = s \/ lid_playback_gate s' = None).
Proof.
  unfold lid_playback_gate_holds, should_ignore_transcriber_input.
  destruct (lid_playback_gate s) as [i|] eqn:Ei; [|split_and!; [split; [done|naive_solver]|done|by left]].
  destruct (language_switcher s) as [j|] eqn:Ej; [|split_and!; [split; [done|intros ([? ?] & _); done]|done|by left]].
  destruct (gates s !! i) as [g|] eqn:Eg; [|split_and!; [split; [done|naive_solver]|done|by left]].
  destruct (_ || negb (bool_decide _)) eqn:Es.
  { split_and!; [split; [done|]|done|by left]. intros (_ & _ & _ & i' & g' & [= <-] & Hg & Hseq & Hne & _). simplify_eq.
    rewrite bool_decide_eq_true_2 in Es by done. simpl in Es. lia. }
  apply orb_false_elim in Es as [Hsys Hseq]. apply negb_false_iff, bool_decide_eq_true in Hseq. subst sequence_id.
  simpl in Hsys. apply Z.eqb_neq in Hsys.
  assert (forall o, lid_playback_gate (release_lid_playback_gate i o true now ts s) = None) as Hr.
  { intros o. unfold release_lid_playback_gate, record_lid_event. simpl. rewrite Eg. by repeat (case_match; simpl). }
  destruct (hangup_triggered s || conversation_ended s || _) eqn:Et.
  { split_and!; [split; [done|]|done|by right]. intros (_ & Hi & He & _). rewrite Hi, He in Et.
    apply orb_false_elim in Hi as [Hi _]. apply orb_false_elim in Hi as [Hi _]. by rewrite Hi in Et. }
  apply orb_false_elim in Et as [[_ He]%orb_false_elim Hi].
  destruct (task_done (g_task g)) eqn:Ed; [split_and!; [split; [done|naive_solver]|done|by right]|].
  destruct (Qle_bool (g_deadline g) now) eqn:Eq; qbool.
  - split_and!; [split; [done|]|done|by right]. intros (_ & _ & _ & i' & g' & [= <-] & Hg & _ & _ & _ & Hlt). simplify_eq. lra.
  - split_and!; [|done..]. split; [intros _|done]. split_and!; [by eexists|done|done|]. by exists i, g.
Qed.

(** ** Telemetry: one record per gate, one usage record per call *)

Inductive gate_op :=
| Arm (max_hold : Q) (sequence_id : option Z) (t : task) (armed now : Q)
| Poll (task_done : task -> bool) (sequence_id : option Z) (now ts : Q)
| Release (i : nat) (outcome : string) (clear : bool) (now ts : Q)
| DropGate
| Snapshot (ts_health ts_usage : Q)
| OnPool (o : op).

Section telemetry.
Variable run : transcriber -> transcriber * bool.

Definition gate_step (s : session) (o : gate_op) : session :=
  match o with
  | Arm max_hold sequence_id t armed now => arm_lid_playback_gate max_hold sequence_id t armed now s
  | Poll task_done sequence_id now ts => snd (lid_playback_gate_holds task_done sequence_id now ts s)
  | Release i outcome clear now ts => release_lid_playback_gate i outcome clear now ts s
  | DropGate => with_gates (gates s) None s
  | Snapshot ts_health ts_usage => snd (snapshot_lid_events ts_health ts_usage s)
  | OnPool o => match transcriber_tool s with Pool p => with_tool (Pool (perform run o p)) s | _ => s end
  end.
End telemetry.

Definition events (s : session) : list lid_event :=
  match transcriber_tool s with Pool p => lid_detection_events p | _ => [] end.
Definition record_key (e : lid_event) : option (Z * option string) :=
  match e with PlaybackGate _ _ i l _ => Some (i, l) | _ => None end.
Definition gate_key (g : gate) : option (Z * option string) :=
  if g_recorded g then Some (g_sequence_id g, g_language g) else None.

(** The gate records are those of the recorded gates, one each. *)
Definition recorded_once (s : session) : Prop :=
  match transcriber_tool s with
  | Pool _ => Permutation (omap record_key (events s)) (omap gate_key (gates s)) /\
              (length (List.filter is_usage (events s)) <= 1)%nat
  | _ => True
  end.

Lemma omap_record_key_app l e : omap record_key (l ++ [e]) = omap record_key l ++ match record_key e with Some k => [k] | None => [] end.
Proof. rewrite omap_app. simpl. by destruct (record_key e). Qed.

Lemma gate_recorded gs i g :
  gs !! i = Some g -> g_recorded g = false ->
  Permutation (omap gate_key (<[i := mark_recorded g]> gs)) ((g_sequence_id g, g_language g) :: omap gate_key gs).
Proof.
  intros Hi Hg. pose proof (list_elem_of_split_length gs i g Hi) as (l1 & l2 & -> & Hl). subst i.
  rewrite insert_app_r_alt, Nat.sub_diag by lia. cbn [list_insert].
  rewrite !omap_app. cbn [omap list_omap].
  replace (gate_key g) with (@None (Z * option string)) by (unfold gate_key; by rewrite Hg).
  change (gate_key (mark_recorded g)) with (Some (g_sequence_id g, g_language g)). simpl. by rewrite Permutation_middle.
Qed.

Lemma release_ok i outcome clear now ts s : recorded_once s -> recorded_once (release_lid_playback_gate i outcome clear now ts s).
Proof.
  unfold release_lid_playback_gate. set (s1 := if clear then _ else s).
  assert (gates s1 = gates s /\ transcriber_tool s1 = transcriber_tool s) as [Hg Ht] by by destruct clear.
  intros H. assert (recorded_once s1) as H1 by (unfold recorded_once, events in *; by rewrite Hg, Ht).
  destruct (gates s1 !! i) as [g|] eqn:Eg; [|done]. destruct (g_recorded g) eqn:Er; [done|].
  unfold record_lid_event. cbn [transcriber_tool with_gates]. destruct (transcriber_tool s1) as [| |p] eqn:Ep;
    [by unfold recorded_once; simpl; rewrite Ep..|].
  unfold recorded_once, events in *. rewrite Ep in H1. simpl. destruct H1 as [Hp Hu]. split.
  - rewrite omap_record_key_app, gate_recorded by done. simpl. rewrite Hp. by rewrite Permutation_app_comm.
  - by rewrite List.filter_app, app_nil_r.
Qed.

(** What the pool's own operations add to the records. *)
Definition records_of (p : pool) : list (Z * option string) * list lid_event :=
  (omap record_key (lid_detection_events p), List.filter is_usage (lid_detection_events p)).

Lemma free_records f p : records_of (free f p) = records_of p.
Proof.
  unfold records_of. destruct f as [k| |lang conf now at_s| |ts]; cbn [free]; try done.
  - unfold route, active_transcriber. pool_step. by repeat (case_match; simpl in *; simplify_eq).
  - unfold handle_lid_signal, record_detection. pool_step.
    repeat (case_match; simpl); by rewrite ?omap_record_key_app, ?List.filter_app, ?app_nil_r.
  - unfold take_lid_transcript. by repeat (case_match; simplify_eq/=).
  - unfold record_detector_health. repeat (case_match; simpl; try done).
    by rewrite omap_record_key_app, List.filter_app, !app_nil_r.
Qed.

Lemma free_all_records fs p : records_of (free_all fs p) = records_of p.
Proof.
  revert p. induction fs as [|f fs IH]; intros p; [done|]. cbn [free_all fold_left].
  etrans; [apply IH|apply free_records].
Qed.

Lemma run_transcriber_records run early late label p :
  records_of (fst (run_transcriber run early late label p)) = records_of p.
Proof.
  unfold run_transcriber, dial. pool_step. destruct (dget label _) as [t|]; simpl; [|apply free_all_records].
  destruct (run t) as [t' up]. simpl. rewrite free_all_records. exact (free_all_records early p).
Qed.

Lemma perform_records run o p : records_of (perform run o p) = records_of p.
Proof.
  destruct o as [f|early late label|early late]; cbn [perform]; [apply free_records|..].
  - unfold switch, hand_over. pool_step. case_bool_decide; [done|]. destruct (dget label _); [|done].
    destruct (bool_decide _ && _); simpl; [|by repeat (case_match; simpl in *; simplify_eq)].
    rewrite <- (run_transcriber_records run early late label p).
    destruct (run_transcriber run early late label p) as [q [[|]|]]; simpl; try done.
    by repeat (case_match; simpl in *; simplify_eq).
  - unfold reconnect_active. pool_step. destruct (call_ended p); [done|]. destruct (_ <=? _); [done|].
    rewrite <- (run_transcriber_records run early late (active_label p) p).
    by destruct (run_transcriber run early late (active_label p) p) as [q [[|]|]].
Qed.

Lemma usage_once ts sw p :
  (length (List.filter is_usage (lid_detection_events p)) <= 1)%nat ->
  (length (List.filter is_usage (lid_detection_events (record_lid_usage ts sw p))) <= 1)%nat /\
  omap record_key (lid_detection_events (record_lid_usage ts sw p)) = omap record_key (lid_detection_events p).
Proof.
  intros H. unfold record_lid_usage. destruct (existsb is_usage _) eqn:E; [done|].
  assert (List.filter is_usage (lid_detection_events p) = []) as H0.
  { apply lfilter_none. intros e He. apply not_true_iff_false. intros Ht. apply not_true_iff_false in E. apply E, existsb_exists.
    exists e. by rewrite <- list_elem_of_In. }
  destruct sw as [j|]; [|case_match; [done|]]; simpl;
    by rewrite List.filter_app, H0, omap_record_key_app, app_nil_r.
Qed.

Lemma gate_step_ok run o s : recorded_once s -> recorded_once (gate_step run s o).
Proof.
  intros H. destruct o as [mh [sq|] t armed now|done sq now ts|i out clear now ts| |th tu|o]; cbn [gate_step]; try done.
  - unfold arm_lid_playback_gate. destruct (sq =? -1); [done|]. unfold recorded_once, events in *. simpl.
    destruct (transcriber_tool s); try done. rewrite omap_app. simpl. by rewrite app_nil_r.
  - exact H.
  - unfold lid_playback_gate_holds. repeat (case_match; simpl; try done); by apply release_ok.
  - by apply release_ok.
  - exact H.
  - unfold snapshot_lid_events. destruct (transcriber_tool s) as [| |p] eqn:Ep; try done.
    unfold recorded_once, events in *. rewrite Ep in H. simpl. destruct H as [Hp Hu].
    pose proof (free_records (Health th) p) as [= Hk Hf]. cbn [free] in Hk, Hf.
    destruct (usage_once tu (language_switcher s) (record_detector_health th p)) as [Hu' Hk']; [by rewrite Hf|].
    by rewrite Hk', Hk.
  - destruct (transcriber_tool s) as [| |p] eqn:Ep; try done. unfold recorded_once, events in *. rewrite Ep in H. simpl.
    pose proof (perform_records run o p) as [= -> ->]. done.
Qed.

(** Over any run of arming, polling, releasing (the switch path keeps a reference
    to the gate and releases it without clearing), dropping, snapshots and pool
    operations: the playback-gate records of the pool are those of the gates marked
    recorded, exactly one each, and there is at most one usage record. *)
Theorem one_record_per_gate run os s p :
  transcriber_tool s = Pool p -> gates s = [] -> lid_detection_events p = [] ->
  let s' := fold_left (gate_step run) os s in
  Permutation (omap record_key (events s')) (omap gate_key (gates s')) /\
  (length (List.filter is_usage (events s')) <= 1)%nat.
Proof.
  intros Ht Hg He s'.
  assert (recorded_once s' /\ exists p', transcriber_tool s' = Pool p') as [Hr [p' Hp']];
    [|by unfold recorded_once in Hr; rewrite Hp' in Hr].
  assert (recorded_once s) as H0 by (unfold recorded_once, events; rewrite Ht, Hg, He; split; [done|simpl; lia]).
  clear Hg He. unfold s'. clear s'. revert s p Ht H0. induction os as [|o os IH]; intros s p Ht H0; simpl; [by split; [|exists p]|].
  assert (exists p1, transcriber_tool (gate_step run s o) = Pool p1) as [p1 Hp1];
    [|by apply (IH _ p1); [|by apply gate_step_ok]].
  assert (forall i out cl now ts, exists q, transcriber_tool (release_lid_playback_gate i out cl now ts s) = Pool q) as Hrel.
  { intros. unfold release_lid_playback_gate, record_lid_event. destruct cl; simpl; rewrite Ht; repeat (case_match; simpl); by eexists. }
  destruct o as [mh [sq|] t armed now|dn sq now ts|i out clear now ts| |th tu|o]; cbn [gate_step]; try (by exists p).
  - unfold arm_lid_playback_gate. case_match; by exists p.
  - unfold lid_playback_gate_holds. repeat (case_match; simpl; try by eexists); apply Hrel.
  - apply Hrel.
  - unfold snapshot_lid_events. rewrite Ht. by eexists.
  - rewrite Ht. by eexists.
Qed.

(** ** Evidence *)

(** A segment tagged with another language than the active one. *)
Definition foreign_segment (active_short : string) (s : segment) : bool :=
  str_true (short_of (seg_lang s)) && negb (bool_decide (short_of (seg_lang s) = active_short)).

Lemma evidence_spec active segs saw foreign mx :
  NoDup foreign ->
  let '(saw', foreign', mx') := evidence active segs saw foreign mx in
  saw' = saw || existsb (fun s => str_true (short_of (seg_lang s))) segs /\
  NoDup foreign' /\
  (forall l, l ∈ foreign' <-> l ∈ foreign \/ exists s, s ∈ segs /\ foreign_segment active s = true /\ short_of (seg_lang s) = l) /\
  (mx <= mx')%Q /\ (forall s, s ∈ segs -> foreign_segment active s = true -> (seg_audio_s s <= mx')%Q) /\
  (mx' = mx \/ exists s, s ∈ segs /\ foreign_segment active s = true /\ mx' = seg_audio_s s).
Proof.
  revert saw foreign mx. induction segs as [|s segs IH]; intros saw foreign mx Hn.
  { simpl. rewrite orb_false_r. split_and!; try done; [|lra|set_solver|by left]. intros l. split; [by left|].
    intros [?|(s & Hs & _)]; [done|set_solver]. }
  simpl. unfold foreign_segment. set (sh := short_of (seg_lang s)).
  assert (forall (P : segment -> Prop), (exists x, x ∈ s :: segs /\ P x) <-> P s \/ exists x, x ∈ segs /\ P x) as Hex.
  { intros P. split; [intros (x & [->|Hx]%elem_of_cons & HP); [by left|right; by exists x]|].
    intros [HP|(x & Hx & HP)]; [exists s|exists x]; set_solver. }
  destruct (str_true sh) eqn:Et; simpl; [case_bool_decide as Ha; simpl|].
  - specialize (IH true foreign mx Hn). destruct (evidence _ _ _ _ _) as [[saw' f'] m'].
    destruct IH as (-> & ? & Hf & ? & Hm & Hw). rewrite orb_true_r. split_and!; try done.
    + intros l. rewrite Hf, Hex. fold sh. rewrite Et, bool_decide_eq_true_2 by done. simpl.
      assert (~ false = true) by done. tauto.
    + intros x [->|Hx]%elem_of_cons; [fold sh; by rewrite Et, bool_decide_eq_true_2|by apply Hm].
    + destruct Hw as [->|(x & ? & ? & ->)]; [by left|right; exists x; set_solver].
  - set (f1 := if bool_decide (sh ∈ foreign) then foreign else foreign ++ [sh]).
    set (m1 := if Qltb mx (seg_audio_s s) then seg_audio_s s else mx).
    assert (NoDup f1 /\ forall l, l ∈ f1 <-> l ∈ foreign \/ l = sh) as [Hn1 Hf1].
    { unfold f1. case_bool_decide; [split; [done|naive_solver]|]. split; [|set_solver].
      apply NoDup_app. split_and!; [done|set_solver|apply NoDup_singleton]. }
    assert ((mx <= m1)%Q /\ (seg_audio_s s <= m1)%Q /\ (m1 = mx \/ m1 = seg_audio_s s)) as (Hm1 & Hm2 & Hm3).
    { unfold m1. destruct (Qltb mx (seg_audio_s s)) eqn:E; qbool; split_and!; try lra; auto. }
    specialize (IH true f1 m1 Hn1). destruct (evidence _ _ _ _ _) as [[saw' f'] m'].
    destruct IH as (-> & ? & Hf & ? & Hm & Hw). rewrite orb_true_r. split_and!; try done; [|lra| |].
    + intros l. rewrite Hf, Hf1, Hex. fold sh. rewrite Et, bool_decide_eq_false_2 by done. simpl.
      assert (sh = l <-> l = sh) by by split. assert (true = true) by done. tauto.
    + intros x [->|Hx]%elem_of_cons; [lra|by apply Hm].
    + destruct Hw as [->|(x & ? & ? & ->)]; [|right; exists x; set_solver]. destruct Hm3 as [->| ->]; [by left|].
      right. exists s. fold sh. rewrite Et, bool_decide_eq_false_2 by done. set_solver.
  - specialize (IH saw foreign mx Hn). destruct (evidence _ _ _ _ _) as [[saw' f'] m'].
    destruct IH as (-> & ? & Hf & ? & Hm & Hw). split_and!; try done.
    + intros l. rewrite Hf, Hex. fold sh. rewrite Et. simpl. assert (~ false = true) by done. tauto.
    + intros x [->|Hx]%elem_of_cons; [fold sh; by rewrite Et|by apply Hm].
    + destruct Hw as [->|(x & ? & ? & ->)]; [by left|right; exists x; set_solver].
Qed.

(** A segment that corroborates a target other than the active language is itself
    foreign evidence of that language, long enough for the substance gate. *)
Lemma corroborated_is_foreign min_prob min_s active segs target :
  detector_corroborates min_prob min_s segs target = true ->
  short_of (Some target) <> "" -> short_of (Some target) <> active ->
  exists s, s ∈ segs /\ foreign_segment active s = true /\ short_of (seg_lang s) = short_of (Some target) /\
    (min_s <= seg_audio_s s)%Q /\ exists prob, seg_prob s = Some prob /\ (min_prob <= prob)%Q.
Proof.
  unfold detector_corroborates. destruct (str_true target); [|done]. intros (s & Hs & H)%existsb_exists Hne Hna.
  unfold corroborating in H. apply andb_prop in H as [Hl H]. apply bool_decide_eq_true in Hl.
  destruct (seg_prob s) as [prob|] eqn:Ep; [|done]. apply andb_prop in H as [Hp Ha]. qbool.
  exists s. rewrite list_elem_of_In. split_and!; try done; [|by exists prob].
  unfold foreign_segment. rewrite Hl, bool_decide_eq_false_2 by done. rewrite andb_true_r.
  apply not_false_iff_true. by rewrite str_true_false.
Qed.

(** What the idle watcher, the mismatch probe and the judge read of the buffer:
    whether any segment is tagged; the foreign languages, each once, exactly those
    of a tagged segment of another language; the longest foreign segment, never an
    active-language one's. A detector that corroborates a foreign target by one
    confident segment has evidence of it in the same buffer that passes the
    substance gate. *)
Theorem evidence_exact active segs min_prob min_s target :
  let '(saw, foreign, mx) := buffered_language_evidence (Some segs) active in
  saw = existsb (fun s => str_true (short_of (seg_lang s))) segs /\ NoDup foreign /\
  (forall l, l ∈ foreign <-> exists s, s ∈ segs /\ foreign_segment active s = true /\ short_of (seg_lang s) = l) /\
  (0 <= mx)%Q /\ (forall s, s ∈ segs -> foreign_segment active s = true -> (seg_audio_s s <= mx)%Q) /\
  (mx = 0%Q \/ exists s, s ∈ segs /\ foreign_segment active s = true /\ mx = seg_audio_s s) /\
  (detector_corroborates min_prob min_s segs target = true ->
   short_of (Some target) <> "" -> short_of (Some target) <> active ->
   short_of (Some target) ∈ foreign /\ (min_s <= mx)%Q).
Proof.
  unfold buffered_language_evidence. pose proof (evidence_spec active segs false [] 0%Q (NoDup_nil_2)) as H.
  destruct (evidence _ _ _ _ _) as [[saw foreign] mx]. destruct H as (Hs & Hn & Hf & H0 & Hm & Hw).
  assert (forall l, l ∈ foreign <-> exists s, s ∈ segs /\ foreign_segment active s = true /\ short_of (seg_lang s) = l) as Hf'
    by (intros l; rewrite Hf; split; [by intros [?%elem_of_nil|]|by right]).
  split_and!; try done. intros Hc Hne Hna.
  destruct (corroborated_is_foreign _ _ _ _ _ Hc Hne Hna) as (s & Hin & Hfs & Hl & Ha & _). split.
  - apply Hf'. by exists s.
  - specialize (Hm _ Hin Hfs). lra.
Qed.

(** ** The watcher *)

(** The event of the detector's buffer is unset while the buffer is empty. *)
Definition awake_ok (s : session) : Prop :=
  match transcriber_tool s with
  | Pool p => match lid p with Some b => wakeable (the_buffer b) | None => True end
  | _ => True
  end.
Definition event_unset (s : session) : Prop :=
  match transcriber_tool s with Pool p => lid_buffer_event p <> Some true | _ => False end.

(** An iteration that gives the event loop a turn: the watcher ends, sleeps, or
    waits on an event that is not set yet. *)
Definition yields (a : action) (s : session) : Prop :=
  match a with
  | Exit => True
  | Sleep q => (0 < q)%Q
  | WaitEvent q => (0 < q)%Q /\ event_unset s
  | Decided (Some q) => (0 < q)%Q
  | Decided None => False
  end.

Lemma clear_event_unset p : lid_buffer_event (clear_event p) <> Some true.
Proof. unfold lid_buffer_event, clear_event. destruct (lid p) as [b|] eqn:E; simpl; [done|by rewrite E]. Qed.

Lemma empty_unset now p :
  match lid p with Some b => wakeable (the_buffer b) | None => True end -> lid_buffer_age now p = None ->
  lid_buffer_event p <> Some true.
Proof.
  unfold lid_buffer_age, lid_buffer_event. destruct (lid p) as [b|]; simpl; [|done]. intros Hw Ha [= He].
  destruct (wakeable_age now _ Hw He) as [q Hq]. by rewrite Hq in Ha.
Qed.

Section watcher_proofs.
Context (idle mismatch : Q) (handle : session -> session).
(** The decision path keeps the event's meaning: it drains the buffer, clearing the
    event, or sets it over a buffer that holds speech. *)
Context (handle_ok : forall s, awake_ok s -> awake_ok (handle s)).

Lemma watcher_step now s sk :
  awake_ok s ->
  let '(a, s', _) := lid_idle_watcher idle mismatch handle now s sk in
  awake_ok s' /\
  (yields a s' \/ (a = Decided None /\
     match transcriber_tool s' with Pool p => lid_buffer_age now p = None | _ => True end)).
Proof.
  intros Hok. unfold lid_idle_watcher.
  destruct (conversation_ended s); [by split; [|left]|].
  destruct (should_ignore_transcriber_input s); [by split; [|left]|].
  destruct (transcriber_tool s) as [| |p] eqn:Et; [by split; [|left]..|].
  unfold awake_ok in Hok. rewrite Et in Hok.
  destruct (lid_buffer_age now p) as [age|] eqn:Ea.
  2: { destruct (lid_buffer_event p) eqn:Ee; (split; [unfold awake_ok; by rewrite Et|left; simpl; try done]).
       split; [done|]. unfold event_unset. rewrite Et. by apply (empty_unset now). }
  destruct (buffered_language_evidence _ _) as [[saw foreign] mx].
  destruct (_ && Qltb age _); [split; [unfold awake_ok; by rewrite Et|by left]|].
  assert (awake_ok s) as Hs by (unfold awake_ok; by rewrite Et).
  destruct (Qle_bool _ age && negb _) eqn:Ef.
  - split; [by apply handle_ok|]. destruct (transcriber_tool (handle s)) as [| |p'] eqn:Et'; [by right..|].
    destruct (lid_buffer_age now p') eqn:Ea'; [by left|by right].
  - set (quiet := _ && Qle_bool _ age).
    set (remaining := if quiet then 2%Q else Qmaxq _ (Qmake 1 20)).
    assert (0 < remaining)%Q as Hr.
    { unfold remaining. destruct quiet; [lra|]. match goal with |- (_ < Qmaxq ?a ?b)%Q => pose proof (Qmaxq_r a b) end. lra. }
    destruct (lid_buffer_event p) eqn:Ee; split; try done; [|left; split; [done|]|by left].
    + unfold awake_ok. simpl. unfold clear_event. destruct (lid p) as [be|] eqn:El; simpl; [|by rewrite El]. by intros ?.
    + unfold event_unset. simpl. apply clear_event_unset.
Qed.

(** The idle watcher never spins: an iteration ends the watcher, sleeps, or waits
    on an event that is not set; or it decides, the decision drains the buffer, and
    the next iteration does so. *)
Theorem watcher_yields now sk s :
  awake_ok s ->
  let '(a, s1, sk1) := lid_idle_watcher idle mismatch handle now s sk in
  awake_ok s1 /\
  (yields a s1 \/
   (a = Decided None /\
    let '(a2, s2, _) := lid_idle_watcher idle mismatch handle now s1 sk1 in yields a2 s2)).
Proof.
  intros Hok. pose proof (watcher_step now s sk Hok) as H.
  destruct (lid_idle_watcher idle mismatch handle now s sk) as [[a s1] sk1]. destruct H as [H1 [Hy|[-> Ha]]]; [by split; [|left]|].
  split; [done|right]. split; [done|]. pose proof (watcher_step now s1 sk1 H1) as H2.
  unfold lid_idle_watcher in *. destruct (conversation_ended s1); [done|].
  destruct (should_ignore_transcriber_input s1); [done|].
  destruct (transcriber_tool s1) as [| |p] eqn:Et; [done..|]. rewrite Ha in *.
  destruct (lid_buffer_event p) eqn:Ee; [|done]. split; [done|]. unfold event_unset. rewrite Et.
  apply (empty_unset now); [|done]. unfold awake_ok in H1. by rewrite Et in H1.
Qed.
End watcher_proofs.

(** ** A concrete call: English active, a Hindi sentence in the buffer *)
Module Example.
Definition hindi_heard : heard :=
  mkHeard "mujhe hindi mein baat karni hai" (Some "hi") (Some (Qmake 5 2)) (Some (Qmake 9 10))
    (Qmake 100 1) (Qmake 1000 1) (Qmake 1000 1).
Definition tapped : pool :=
  set_lid (Some (mkBackend (the_link init) (the_tap init) (hear empty_buffer hindi_heard))) TranscriberPool.Example.start.
Definition call : session :=
  mkSession [] None (Pool (set_active "english" tapped)) (Some ["hindi"; "english"]) (Some "english") false false false false
    (Some (LanguageSwitcher.create (fun _ => None) ["hindi"; "english"] None false)) false.
(** The decision path of this example drains the buffer and stays. *)
Definition drains (s : session) : session :=
  match transcriber_tool s with Pool p => with_tool (Pool (snd (take_lid_transcript p))) s | _ => s end.
Definition undecided : task -> bool := fun _ => false.
Definition gate_run : list gate_op :=
  [Arm LANGUAGE_SWITCH_MAX_HOLD_S (Some 7) 0%nat (Qmake 10 1) (Qmake 10 1); Poll undecided (Some 7) (Qmake 11 1) 0%Q;
   Release 0 "decided" false (Qmake 12 1) 0%Q; Poll undecided (Some 7) (Qmake 15 1) 0%Q; Snapshot 0%Q 0%Q; Snapshot 0%Q 0%Q].

Lemma one_record_per_gate_witness :
  let s' := fold_left (gate_step TranscriberPool.Example.connects) gate_run call in
  omap record_key (events s') = [(7, Some "english")] /\ lid_playback_gate s' = None /\
  (length (List.filter is_usage (events s')) <= 1)%nat.
Proof.
  intros s'. destruct (one_record_per_gate TranscriberPool.Example.connects gate_run call _ eq_refl eq_refl eq_refl) as [_ Hu].
  split_and!; [by vm_compute..|exact Hu].
Defined.

Lemma drains_ok s : awake_ok s -> awake_ok (drains s).
Proof.
  unfold awake_ok, drains. destruct (transcriber_tool s) as [| |p] eqn:Et; simpl; [by rewrite Et..|].
  unfold take_lid_transcript. destruct (lid p) as [b|] eqn:El; simpl; [done|by rewrite El].
Qed.

Lemma watcher_yields_witness :
  let '(a, s1, _) := lid_idle_watcher 2%Q (Qmake 6 5) drains (Qmake 103 1) call false in
  a = Decided None /\ awake_ok s1.
Proof.
  assert (awake_ok call) as Hok by (intros _; split; [by vm_compute|by eexists]).
  pose proof (watcher_yields 2%Q (Qmake 6 5) drains drains_ok (Qmake 103 1) false call Hok) as H.
  revert H. destruct (lid_idle_watcher 2%Q (Qmake 6 5) drains (Qmake 103 1) call false) as [[a s1] sk1] eqn:E.
  intros [H1 _]. split; [|exact H1]. vm_compute in E. by injection E as <- _ _.
Defined.
End Example.
End LidGate.
