(* ===== verification/CallScreening.v ===== *)
(** * Call screening and turn text (src/voiceai/modules/voice/static_methods.py)

    The pure steps of the call runtime: phone numbers and DIDs, the inbound
    screening pipeline (blocklist, spam, caller match, greeting), the code-readout
    gate and the trailing utterance. Strings are on U+0000..U+00FF, and the
    character classes of [re] and of [str.isdigit] are written out on that range. *)
From S2P Require Import Prelude PyText PyVal LidBuffer.
From Stdlib Require Import QArith.QArith Lqa.
Close Scope Q_scope.
Open Scope Z_scope.

Module CallScreening.
Definition code (c : ascii) : Z := Z.of_nat (Stdlib.Strings.Ascii.nat_of_ascii c).
Definition between (a b : Z) (c : ascii) : bool := (a <=? code c) && (code c <=? b).
(** [\d]: the decimal digits of the range. *)
Definition is_decimal (c : ascii) : bool := between 48 57 c.
(** [str.isdigit] has the superscripts too. *)
Definition is_digit (c : ascii) : bool := is_decimal c || between 178 179 c || (code c =? 185).
Definition is_alpha (c : ascii) : bool :=
  between 65 90 c || between 97 122 c || (code c =? 170) || (code c =? 181) || (code c =? 186) ||
  between 192 214 c || between 216 246 c || between 248 255 c.
(** [\w] *)
Definition is_word (c : ascii) : bool := is_alpha c || is_digit c || between 188 190 c || (code c =? 95).

Definition keep (p : ascii -> bool) (s : string) : string := of_chars (List.filter p (chars s)).
(** [s.isdigit()] *)
Definition isdigit (s : string) : bool :=
  match chars s with [] => false | l => forallb is_digit l end.

(** ** The code-readout gate *)

(** [re.findall(r"\w+", s)] *)
Fixpoint words_from (cur : text) (l : text) : list text :=
  match l with
  | [] => match cur with [] => [] | _ => [reverse cur] end
  | c :: l' =>
      if is_word c then words_from (c :: cur) l'
      else match cur with [] => words_from [] l' | _ => reverse cur :: words_from [] l' end
  end.
Definition word_tokens (s : string) : list text := words_from [] (chars s).

Definition is_alphanumeric_readout (s : string) : bool :=
  match word_tokens s with
  | [] => false
  | tokens =>
      let code_tokens := List.filter (existsb is_digit) tokens in
      (1 <=? length code_tokens)%nat && (length tokens - length code_tokens <=? 2)%nat
  end.

(** ** The trailing utterance *)
Import LIDBackend.

(** The [reversed] loop: [tail] is in the order the segments were spoken. *)
Fixpoint trailing_from (gap_seconds : Q) (segs_rev : list segment) (tail : list string) (prev_start : option Q)
    (tail_lang : option string) : list string :=
  match segs_rev with
  | [] => tail
  | seg :: rest =>
      let stop := match prev_start with
                  | None => false
                  | Some start =>
                      Qltb gap_seconds (start - seg_ts seg) ||
                      (lang_true tail_lang && lang_true (seg_lang seg) && negb (bool_decide (seg_lang seg = tail_lang)))
                  end in
      if stop then tail
      else
        let has := str_true (seg_text seg) in
        trailing_from gap_seconds rest (if has then seg_text seg :: tail else tail)
          (Some (seg_ts seg - seg_audio_s seg)%Q)
          (if has then if lang_true tail_lang then tail_lang else seg_lang seg else tail_lang)
  end.
Definition TRAILING_GAP_S : Q := Qmake 4 1.
Definition trailing_utterance_text (segs : list segment) (gap_seconds : Q) : string :=
  strip (join " " (trailing_from gap_seconds (reverse segs) [] None None)).

(** ** Numbers *)

(** [asr_id_to_int]: on a string, its digits read as an integer; [int] refuses the
    superscripts that [isdigit] lets through. *)
Definition asr_id_to_int (v : val) : result exn val :=
  match v with
  | VStr s =>
      let digits := keep is_digit s in
      if str_true digits then match int_text digits with Some z => Ok (VInt z) | None => Err ValueError end else Ok VNone
  | _ => Ok v
  end.

Definition normalize_did_digits (raw : option string) : option string :=
  match raw with
  | None => None
  | Some s => let digits := keep is_decimal s in if str_true digits then Some digits else None
  end.

Definition RECIPIENT_MIN_DIGITS : nat := 10.
Definition RECIPIENT_MAX_DIGITS : nat := 15.
Definition INDIA_COUNTRY_CODE : string := "91".
Definition INDIA_FULL_LENGTH : nat := 12.

Definition validate_recipient_number (to_number : option string) : result exn string :=
  let digits := keep is_decimal (default "" to_number) in
  let n := str_len digits in
  if negb ((RECIPIENT_MIN_DIGITS <=? n)%nat && (n <=? RECIPIENT_MAX_DIGITS)%nat) then Err ValueError
  else if startswith digits INDIA_COUNTRY_CODE && negb (n =? INDIA_FULL_LENGTH)%nat then Err ValueError
  else Ok digits.

Fixpoint did_list_from (seen : list string) (raw : list (option string)) : list string :=
  match raw with
  | [] => []
  | entry :: rest =>
      match normalize_did_digits entry with
      | Some d => if bool_decide (d ∈ seen) then did_list_from seen rest else d :: did_list_from (d :: seen) rest
      | None => did_list_from seen rest
      end
  end.
Definition normalize_did_list (raw : list (option string)) : list string := did_list_from [] raw.

(** ** Inbound screening *)

Definition E164_MIN_DIGITS : nat := 7.
Definition E164_MAX_DIGITS : nat := 15.
(** The class [[\s\-().]] that is stripped. *)
Definition separator (c : ascii) : bool :=
  is_space c || existsb (fun z => code c =? z) [45; 40; 41; 46].

(** A value that is not a [str] never parses. *)
Definition normalize_e164 (raw : val) : option string :=
  match raw with
  | VStr s =>
      match List.filter (fun c => negb (separator c)) (chars s) with
      | c :: digits =>
          if (code c =? 43) && isdigit (of_chars digits) &&
             (E164_MIN_DIGITS <=? length digits)%nat && (length digits <=? E164_MAX_DIGITS)%nat
          then Some (of_chars (c :: digits)) else None
      | [] => None
      end
  | _ => None
  end.

Definition is_blocklisted (caller : val) (blocklist : list val) : bool :=
  match normalize_e164 caller with
  | None => false
  | Some n => existsb (fun entry => bool_decide (normalize_e164 entry = Some n)) blocklist
  end.

Definition spam_verdict (spam_protection : bool) : string * string :=
  ("passed", if spam_protection then "spam_engine_unavailable" else "spam_protection_disabled").

(** A caller match: matched, context and reason. *)
Record matched := mkMatched { m_matched : bool; m_context : val; m_reason : string }.
Definition no_match (reason : string) : matched := mkMatched false VNone reason.
Definition hit (context : val) : matched := mkMatched true context "match_found".

(** The reference of a source: a string, a mapping, an iterable of rows, another
    object, or none. *)
Inductive reference := RefNone | RefStr (s : string) | RefDict (rows : list (val * val)) | RefList (rows : list val) | RefOther.

Definition row_matches (caller : string) (v : val) : bool := bool_decide (normalize_e164 v = Some caller).

(** The scan of an iterable; [saw_row]: a mapping was among the rows before. *)
Fixpoint scan_rows (caller : string) (rows : list val) (saw_row : bool) : matched :=
  match rows with
  | [] => no_match (if saw_row then "ref_unsupported" else "no_match")
  | VDict _ :: rest => scan_rows caller rest true
  | v :: rest => if row_matches caller v then hit VNone else scan_rows caller rest saw_row
  end.
Definition match_offline (ref : reference) (caller : string) : matched :=
  match ref with
  | RefNone => no_match "ref_missing"
  | RefStr s => if str_true (strip s) then scan_rows caller [VStr s] false else no_match "ref_missing"
  | RefDict rows =>
      match List.find (fun kv => row_matches caller (fst kv)) rows with
      | Some (_, value) => hit value
      | None => no_match "no_match"
      end
  | RefList rows => scan_rows caller rows false
  | RefOther => no_match "ref_unsupported"
  end.

Definition is_valid_timeout (timeout_s : val) : bool :=
  match timeout_s with
  | VInt z => 0 <? z
  | VFloat (Fin q) => Qltb 0 q
  | _ => false
  end.
Definition looks_like_http_url (url : string) : bool :=
  existsb (fun p => startswith (lower (strip url)) p && (str_len p <? str_len (strip url))%nat) ["http://"; "https://"].

(** The injected fetch: a payload, a timeout, or another exception. *)
Inductive fetched := Payload (v : val) | FetchTimeout | FetchFailed.

(** [_match_via_api], with the calls it makes of the fetch. *)
Definition match_via_api (ref : reference) (caller : string) (fetch : option (string -> string -> val -> fetched)) (timeout_s : val)
    : matched * list (string * string * val) :=
  match ref with
  | RefStr s =>
      let url := strip s in
      if negb (str_true url) then (no_match "ref_missing", [])
      else if negb (looks_like_http_url url) then (no_match "unsafe_url", [])
      else match fetch with
           | None => (no_match "fetch_missing", [])
           | Some f =>
               if negb (is_valid_timeout timeout_s) then (no_match "timeout_invalid", [])
               else (match f url caller timeout_s with
                     | FetchTimeout => no_match "fetch_timeout"
                     | FetchFailed => no_match "fetch_error"
                     | Payload v => if truthy v then hit v else no_match "no_match"
                     end, [(url, caller, timeout_s)])
           end
  | _ => (no_match "ref_missing", [])
  end.

Definition caller_match_context (source : option string) (ref : reference) (caller : val)
    (fetch : option (string -> string -> val -> fetched)) (timeout_s : val) : matched * list (string * string * val) :=
  let src := lower (strip (default "" source)) in
  if negb (str_true src) || bool_decide (src = "none") then (no_match "source_none", [])
  else match normalize_e164 caller with
       | None => (no_match "caller_unparseable", [])
       | Some c =>
           if bool_decide (src = "csv") || bool_decide (src = "sheets") then (match_offline ref c, [])
           else if bool_decide (src = "api") then match_via_api ref c fetch timeout_s
           else (no_match "unknown_source", [])
       end.

Definition resolve_greeting (inbound_greeting agent_welcome : option string) : option string :=
  match inbound_greeting with
  | Some g => if str_true (strip g) then Some g else agent_welcome
  | None => agent_welcome
  end.

(** ** Digits *)

Lemma chars_keep p s : chars (keep p s) = List.filter p (chars s).
Proof. unfold keep. apply chars_of_chars. Qed.

Lemma keep_idem p s : keep p (keep p s) = keep p s.
Proof.
  unfold keep. rewrite chars_of_chars. f_equal. apply lfilter_id. intros c [_ H]%elem_of_lfilter. exact H.
Qed.

(** A dialable recipient: the digits of the number, 10 to 15 of them, 12 when the
    number starts with the country code of India. *)
Definition dialable (digits : string) : Prop :=
  Forall (fun c => is_decimal c = true) (chars digits) /\
  (RECIPIENT_MIN_DIGITS <= str_len digits <= RECIPIENT_MAX_DIGITS)%nat /\
  (is_prefix INDIA_COUNTRY_CODE digits -> str_len digits = INDIA_FULL_LENGTH).

(** Validation answers the digits of the number when they are dialable and
    raises [ValueError] exactly when they are not; what it answers validates to
    itself. *)
Theorem recipient_exact to_number :
  let digits := keep is_decimal (default "" to_number) in
  match validate_recipient_number to_number with
  | Ok d => d = digits /\ dialable d /\ validate_recipient_number (Some d) = Ok d
  | Err e => e = ValueError /\ ~ dialable digits
  end.
Proof.
  intros digits.
  assert (forall s, keep is_decimal (default "" s) = digits -> validate_recipient_number s = validate_recipient_number to_number) as Hv
    by (intros s Hs; unfold validate_recipient_number; by rewrite Hs).
  assert (Forall (fun c => is_decimal c = true) (chars digits)) as Hd.
  { unfold digits. rewrite chars_keep. apply Forall_forall. by intros c [_ H]%elem_of_lfilter. }
  specialize (Hv (Some digits) ltac:(unfold digits; simpl; apply keep_idem)).
  destruct (validate_recipient_number to_number) as [d|e] eqn:E; unfold validate_recipient_number in E; cbv zeta in E; fold digits in E;
    (destruct (negb (_ && _)) eqn:Hl in E; [|destruct (startswith digits INDIA_COUNTRY_CODE && negb _) eqn:Hi in E]); simplify_eq.
  - apply negb_false_iff, andb_prop in Hl as [H1%Nat.leb_le H2%Nat.leb_le].
    split; [done|]. split; [|exact Hv]. split; [done|]. split; [done|]. intros Hs%startswith_spec. rewrite Hs in Hi.
    simpl in Hi. by apply negb_false_iff, Nat.eqb_eq in Hi.
  - split; [done|]. intros (_ & Hb & _). apply negb_true_iff, andb_false_iff in Hl. destruct Hl as [Hl|Hl]; apply Nat.leb_gt in Hl; lia.
  - split; [done|]. intros (_ & _ & Hin). apply andb_prop in Hi as [Hs Hn]. apply startswith_spec in Hs.
    rewrite (Hin Hs), Nat.eqb_refl in Hn. done.
Qed.

(** ** DID lists *)

Lemma did_list_spec seen raw :
  NoDup (did_list_from seen raw) /\
  (forall d, d ∈ did_list_from seen raw <-> d ∉ seen /\ exists e, e ∈ raw /\ normalize_did_digits e = Some d) /\
  did_list_from seen raw `sublist_of` omap normalize_did_digits raw.
Proof.
  revert seen. induction raw as [|e raw IH]; intros seen; [split_and!; [constructor|set_solver|constructor]|].
  cbn [did_list_from omap list_omap]. destruct (normalize_did_digits e) as [d|] eqn:Ed.
  - case_bool_decide as Hs.
    + destruct (IH seen) as (Hn & Hm & Hsub). split_and!; [done| |by constructor]. intros x. rewrite Hm. set_solver.
    + destruct (IH (d :: seen)) as (Hn & Hm & Hsub). split_and!.
      * constructor; [|done]. rewrite Hm. set_solver.
      * intros x. rewrite elem_of_cons, Hm, not_elem_of_cons. destruct (decide (x = d)) as [->|]; set_solver.
      * by constructor.
  - destruct (IH seen) as (Hn & Hm & Hsub). split_and!; [done| |done]. intros x. rewrite Hm. set_solver.
Qed.

Lemma did_list_fixed seen l :
  NoDup l -> (forall d, d ∈ l -> d ∉ seen /\ normalize_did_digits (Some d) = Some d) -> did_list_from seen (map Some l) = l.
Proof.
  revert seen. induction l as [|d l IH]; intros seen Hn H; [done|]. cbn [map did_list_from].
  apply NoDup_cons in Hn as [Hd Hn]. destruct (H d) as [Hs ->]; [set_solver|].
  rewrite bool_decide_eq_false_2 by done. f_equal. apply IH; [done|]. intros x Hx. destruct (H x); [set_solver|]. split; [|done]. set_solver.
Qed.

(** The DIDs of a list are its entries' digits, each once, in the order of their
    first entries; entries without digits vanish, and a normalized list is
    normalized to itself. *)
Theorem did_list_exact raw :
  let dids := normalize_did_list raw in
  NoDup dids /\ dids `sublist_of` omap normalize_did_digits raw /\
  (forall d, d ∈ dids <-> exists e, e ∈ raw /\ normalize_did_digits e = Some d) /\
  normalize_did_list (map Some dids) = dids.
Proof.
  intros dids. destruct (did_list_spec [] raw) as (Hn & Hm & Hs). fold (normalize_did_list raw) dids in Hn, Hm, Hs.
  split_and!; [done|done|set_solver|]. apply did_list_fixed; [done|]. intros d Hd. split; [set_solver|].
  apply Hm in Hd as (_ & [s|] & _ & He); [|done]. unfold normalize_did_digits in *.
  destruct (str_true (keep is_decimal s)) eqn:E; [|done]. injection He as <-. by rewrite keep_idem, E.
Qed.

(** ** Screening *)

(** An E.164 number parses to itself, so comparing parsed numbers is comparing
    numbers, whatever separators either side was written with. *)
Lemma e164_canonical v n : normalize_e164 v = Some n -> normalize_e164 (VStr n) = Some n.
Proof.
  destruct v as [| | | |s| |]; cbn [normalize_e164]; try done.
  destruct (List.filter _ (chars s)) as [|c digits] eqn:E; [done|].
  destruct (_ && _) eqn:Hok; [|done]. intros Hn. apply (inj Some) in Hn. subst n. rewrite chars_of_chars.
  assert (List.filter (fun c => negb (separator c)) (c :: digits) = c :: digits) as ->; [|by rewrite Hok].
  rewrite <- E. apply lfilter_id. by intros x [_ H]%elem_of_lfilter.
Qed.

(** Two spellings that differ in separators only. *)
Lemma e164_separators s t :
  List.filter (fun c => negb (separator c)) (chars s) = List.filter (fun c => negb (separator c)) (chars t) ->
  normalize_e164 (VStr s) = normalize_e164 (VStr t).
Proof. intros H. simpl. by rewrite H. Qed.

Lemma scan_rows_spec caller rows saw :
  let r := scan_rows caller rows saw in
  (m_matched r = true <-> exists v, v ∈ rows /\ normalize_e164 v = Some caller) /\
  m_context r = VNone /\ (m_matched r = true -> m_reason r = "match_found").
Proof.
  revert saw. induction rows as [|v rows IH]; intros saw; simpl; [split_and!; [split; [done|set_solver]|done|done]|].
  assert (normalize_e164 v <> Some caller -> (exists x, x ∈ v :: rows /\ normalize_e164 x = Some caller) <->
            exists x, x ∈ rows /\ normalize_e164 x = Some caller) as Hex.
  { intros Hn. split; [intros (x & [->|Hx]%elem_of_cons & H); [done|by exists x]|intros (x & Hx & H); exists x; set_solver]. }
  destruct v as [|b|z|f|s|l|d];
    try (unfold row_matches; simpl; rewrite Hex by done; apply IH).
  unfold row_matches. case_bool_decide as Hb; [|rewrite Hex by done; apply IH].
  simpl. split_and!; [split; [intros _; exists (VStr s); set_solver|done]|done|done].
Qed.

(** The numbers a source matches against. *)
Definition candidates (ref : reference) : list val :=
  match ref with
  | RefStr s => if str_true (strip s) then [VStr s] else []
  | RefDict rows => map fst rows
  | RefList rows => rows
  | RefNone | RefOther => []
  end.

Lemma match_offline_spec ref caller :
  let r := match_offline ref caller in
  (m_matched r = true <-> exists v, v ∈ candidates ref /\ normalize_e164 v = Some caller) /\
  (m_matched r = true -> m_reason r = "match_found") /\ (m_matched r = false -> m_context r = VNone).
Proof.
  destruct ref as [|s|rows|rows|]; simpl; try (split_and!; [split; [done|set_solver]|done|done]).
  - destruct (str_true (strip s)); [|split_and!; [split; [done|set_solver]|done|done]].
    destruct (scan_rows_spec caller [VStr s] false) as (H & Hc & Hr). simpl in *. split_and!; [done|done|by intros _].
  - destruct (List.find _ rows) as [[k v]|] eqn:E; simpl.
    + apply find_some in E as [Hin Hk]. apply bool_decide_eq_true in Hk. split_and!; [|done|done].
      split; [intros _|done]. exists k. split; [|done]. apply list_elem_of_In, in_map_iff. by exists (k, v).
    + split_and!; [split; [done|]|done|done]. intros (v & Hv & Hn). exfalso.
      apply list_elem_of_In, in_map_iff in Hv as ([k w] & Hk & Hin). simpl in Hk. subst v.
      pose proof (find_none _ _ E _ Hin) as Hf. unfold row_matches in Hf. simpl in Hf. by apply bool_decide_eq_false in Hf.
  - destruct (scan_rows_spec caller rows false) as (H & Hc & Hr). split_and!; [done|done|by intros _].
Qed.

(** The claims about an answer without a match and without a call. *)
Ltac fails_open := split_and!; [done|done|done|simpl; lia|intros ? ? ? Hin; by apply elem_of_nil in Hin].

(** Caller matching always answers, and fails open: the answer is no match with a
    reason and no context, unless the parsed caller is one of the source's parsed
    numbers (offline sources) or the fetch answered a payload (api). The fetch is
    called at most once, only for the api source, with the parsed caller and a
    timeout that is finite and positive. *)
Theorem screening_fails_open source ref caller fetch timeout_s :
  let '(r, calls) := caller_match_context source ref caller fetch timeout_s in
  let src := lower (strip (default "" source)) in
  (m_matched r = false -> m_context r = VNone) /\ (m_matched r = true -> m_reason r = "match_found") /\
  (m_matched r = true -> exists c, normalize_e164 caller = Some c /\
     ((src ∈ ["csv"; "sheets"] /\ exists v, v ∈ candidates ref /\ normalize_e164 v = Some c) \/
      (src = "api" /\ exists f url, fetch = Some f /\ f url c timeout_s = Payload (m_context r) /\ truthy (m_context r) = true))) /\
  (length calls <= 1)%nat /\
  (forall url c t, (url, c, t) ∈ calls -> src = "api" /\ normalize_e164 caller = Some c /\ t = timeout_s /\ is_valid_timeout t = true).
Proof.
  unfold caller_match_context.
  assert (forall reason, (m_matched (no_match reason) = false -> m_context (no_match reason) = VNone)) as Hno by done.
  set (src := lower (strip (default "" source))).
  destruct (negb (str_true src) || _); [fails_open|].
  destruct (normalize_e164 caller) as [c|] eqn:Ec; [|fails_open].
  destruct (bool_decide (src = "csv") || bool_decide (src = "sheets")) eqn:Eo.
  { destruct (match_offline_spec ref c) as (Hm & Hr & Hc). split_and!; try done; [|simpl; lia|set_solver].
    intros H. exists c. split; [done|]. left. split; [|by apply Hm].
    apply orb_prop in Eo as [E%bool_decide_eq_true|E%bool_decide_eq_true]; rewrite E; set_solver. }
  destruct (bool_decide (src = "api")) eqn:Ea; [apply bool_decide_eq_true in Ea|fails_open].
  unfold match_via_api. destruct ref as [|s|rows|rows|]; try (fails_open).
  destruct (negb (str_true (strip s))); [fails_open|].
  destruct (negb (looks_like_http_url _)); [fails_open|].
  destruct fetch as [f|]; [|fails_open].
  destruct (is_valid_timeout timeout_s) eqn:Et; [|fails_open]. simpl.
  assert (forall url c' t, (url, c', t) ∈ [(strip s, c, timeout_s)] -> src = "api" /\ Some c = Some c' /\ t = timeout_s /\ is_valid_timeout t = true) as Hcalls
    by (intros url c' t Hin; apply list_elem_of_singleton in Hin; simplify_eq; by split_and!).
  destruct (f (strip s) c timeout_s) as [v| |] eqn:Ef; [|split_and!; try done; simpl; lia..].
  destruct (truthy v) eqn:Ev; [|split_and!; try done; simpl; lia].
  split_and!; try done. intros _. exists c. split; [done|]. right. split; [done|]. by exists f, (strip s).
Qed.

(** A caller is blocked exactly when it parses to the number some entry parses to;
    a parsed number parses to itself, and separators on either side do not matter. *)
Theorem blocklist_exact caller entries s t :
  (is_blocklisted caller entries = true <->
     exists n e, normalize_e164 caller = Some n /\ e ∈ entries /\ normalize_e164 e = Some n /\ normalize_e164 (VStr n) = Some n) /\
  (List.filter (fun c => negb (separator c)) (chars s) = List.filter (fun c => negb (separator c)) (chars t) ->
   is_blocklisted (VStr s) entries = is_blocklisted (VStr t) entries).
Proof.
  split.
  - unfold is_blocklisted. destruct (normalize_e164 caller) as [n|] eqn:En; [|split; [done|naive_solver]].
    rewrite existsb_exists. split.
    + intros (e & Hin & He%bool_decide_eq_true). exists n, e. rewrite list_elem_of_In. split_and!; try done. by eapply e164_canonical.
    + intros (n' & e & [= <-] & Hin & He & _). exists e. rewrite <- list_elem_of_In. split; [done|]. by apply bool_decide_eq_true.
  - intros H%e164_separators. unfold is_blocklisted. by rewrite H.
Qed.

(** ** The trailing utterance *)

Definition texts (segs : list segment) : list string := map seg_text (List.filter (fun s => str_true (seg_text s)) segs).
(** The language of an utterance: that of its last segment that has text and a tag. *)
Fixpoint utterance_lang (segs : list segment) : option string :=
  match segs with
  | [] => None
  | s :: rest =>
      let l := utterance_lang rest in
      if str_true (seg_text s) then if lang_true l then l else seg_lang s else l
  end.
Definition starts_at (s : segment) : Q := (seg_ts s - seg_audio_s s)%Q.
(** A segment that does not belong to the utterance that follows it: a silence
    longer than the gap, or another language. *)
Definition breaks (gap : Q) (a : segment) (t : list segment) : bool :=
  match t with
  | [] => false
  | b :: _ => Qltb gap (starts_at b - seg_ts a) ||
              (lang_true (utterance_lang t) && lang_true (seg_lang a) && negb (bool_decide (seg_lang a = utterance_lang t)))
  end.

Lemma trailing_from_spec gap segs_rev t :
  exists pre tl,
    trailing_from gap segs_rev (texts t) (starts_at <$> head t) (utterance_lang t) = texts tl /\
    reverse segs_rev ++ t = pre ++ tl /\
    (exists mid, tl = mid ++ t /\ forall a u v, mid = v ++ a :: u -> breaks gap a (u ++ t) = false) /\
    (forall a pre', pre = pre' ++ [a] -> breaks gap a tl = true).
Proof.
  revert t. induction segs_rev as [|s rest IH]; intros t; cbn [trailing_from].
  { exists [], t. split_and!; [done|by rewrite reverse_nil|exists []; split; [done|]; by intros a u [|]|by intros a [|]]. }
  assert (match starts_at <$> head t with
          | None => false
          | Some start => Qltb gap (start - seg_ts s) ||
              (lang_true (utterance_lang t) && lang_true (seg_lang s) && negb (bool_decide (seg_lang s = utterance_lang t)))
          end = breaks gap s t) as -> by (by destruct t).
  destruct (breaks gap s t) eqn:Eb.
  - exists (reverse (s :: rest)), t. split_and!; [done|done|exists []; split; [done|]; by intros a u [|]|].
    intros a pre' Hpre. rewrite reverse_cons in Hpre. by apply app_inj_tail in Hpre as [_ <-].
  - destruct (IH (s :: t)) as (pre & tl & Hrun & Hsplit & (mid & Hmid & Hin) & Hout). exists pre, tl. split_and!; [|by rewrite reverse_cons, <- app_assoc| |done].
    + rewrite <- Hrun. unfold texts. simpl. by destruct (str_true (seg_text s)).
    + exists (mid ++ [s]). split; [by rewrite <- app_assoc|]. intros a u v Hmv.
      destruct u as [|b u] using rev_ind; [apply app_inj_tail in Hmv as [_ <-]; exact Eb|].
      rewrite app_comm_cons, app_assoc in Hmv. apply app_inj_tail in Hmv as [-> <-]. rewrite <- app_assoc. by apply (Hin a u v).
Qed.

(** The text a switched call answers is that of the last stretch of detector
    segments with no silence over the gap and no change of language in it, cut at
    the first segment from the end that breaks either; with segments, at least the
    last one is in it. *)
Theorem trailing_exact segs gap :
  exists pre tl, segs = pre ++ tl /\ trailing_utterance_text segs gap = strip (join " " (texts tl)) /\
    (forall a u v, tl = v ++ a :: u -> breaks gap a u = false) /\
    (forall a pre', pre = pre' ++ [a] -> breaks gap a tl = true) /\
    (segs <> [] -> tl <> []).
Proof.
  destruct (trailing_from_spec gap (reverse segs) []) as (pre & tl & Hrun & Hsplit & (mid & Hmid & Hin) & Hout).
  rewrite reverse_involutive, app_nil_r in Hsplit. rewrite app_nil_r in Hmid. subst mid.
  exists pre, tl. split_and!; [done| | |done|].
  - unfold trailing_utterance_text. change (trailing_from gap (reverse segs) [] None None = texts tl) in Hrun. by rewrite Hrun.
  - intros a u v H. specialize (Hin a u v H). by rewrite app_nil_r in Hin.
  - intros Hne ->. rewrite app_nil_r in Hsplit. subst pre. destruct segs as [|s segs] using rev_ind; [done|].
    by specialize (Hout s segs eq_refl).
Qed.
End CallScreening.
