(* ===== verification/LangSwitch.v ===== *)
(** * The language-switch decision (src/voiceai/modules/voice/session/language/switcher.py)

    [run_language_switch] from its entry checks to the prepared follow-up, with
    [switch_language] and the prompt directive it installs. Each [await] is a
    field of [Environment]: whatever the other tasks of the call do to the session
    until it returns. Thresholds read from the environment are arguments. *)
From S2P Require Import Prelude PyText PyVal History LidBuffer AsrPool Judge LidGate CallScreening.
From Stdlib Require Import QArith.QArith Lqa.
Close Scope Q_scope.
Open Scope Z_scope.
Open Scope voice_scope.

Module LangSwitch.
Import LIDBackend TranscriberPool LidGate CallScreening.

(** ** The standing language order *)

Definition newline : string := of_chars ["010"%char].
Definition NOTE_HEADING : string := "## Language note:".
Definition NOTE_MARKER : string := newline +:+ newline +:+ NOTE_HEADING.

Section directive.
(** The paragraph of the order for a label; its text is prose outside the range of
    the strings here. *)
Variable order_text : string -> string.
Definition language_directive (label : string) : string := NOTE_HEADING +:+ newline +:+ order_text label.

(** The prompt a directive is put on: the language's variant, or the current prompt
    up to the note it carries. *)
Definition prompt_base (variants : dict string string) (label current : string) : string :=
  match dget label variants with
  | Some v => v
  | None => match find current NOTE_MARKER with
            | Some i => str_take i current
            | None => current
            end
  end.
Definition directed_prompt (variants : dict string string) (label : string) (note : option string) (current : string) : string :=
  let order := match note with Some n => if str_true n then n else language_directive label | None => language_directive label end in
  prompt_base variants label current +:+ newline +:+ newline +:+ order.

End directive.

(** ** The judge's verdict *)

(** An entry of the verdict's [languages] that is a dictionary. *)
Record decision := mkDecision {
  target_language : option string;
  target_confidence : val;
  languages : list (option (string * val));
  explicit_request : bool;
  request_status : option string;
  detected_language : option string }.








(** ** The session *)

(** [_inflight_response_activity()] *)
Record activity := mkActivity {
  response_in_pipeline : bool; audio_playing : bool; pending_marks : bool; pending_sequences : bool;
  pending_generation : bool }.

(** What a run of the decision has asked, recorded and done to the caller, in order. *)
Inductive effect :=
| AskedJudge
| Emitted (outcome : string)
| CleanedDownstream
| AppliedSwitch (label : string)
| CalledHandoff (label : string)
| SpokeFollowup (text : string)
| PreparedFollowup.

Record state := mkState {
  call : session;
  synth_active : string;
  chat : History.history;
  in_flight : activity;
  function_call_in_flight : bool;
  user_spoke : bool;
  system_prompt : string;
  language_switch_events : list (string * option string * string);
  effects : list effect }.

Definition with_call (f : session -> session) (s : state) : state :=
  mkState (f (call s)) (synth_active s) (chat s) (in_flight s) (function_call_in_flight s) (user_spoke s)
    (system_prompt s) (language_switch_events s) (effects s).
Definition with_chat (f : History.history -> History.history) (s : state) : state :=
  mkState (call s) (synth_active s) (f (chat s)) (in_flight s) (function_call_in_flight s) (user_spoke s)
    (system_prompt s) (language_switch_events s) (effects s).
Definition with_prompt (p : string) (s : state) : state :=
  mkState (call s) (synth_active s) (chat s) (in_flight s) (function_call_in_flight s) (user_spoke s)
    p (language_switch_events s) (effects s).
Definition with_synth (l : string) (s : state) : state :=
  mkState (call s) l (chat s) (in_flight s) (function_call_in_flight s) (user_spoke s)
    (system_prompt s) (language_switch_events s) (effects s).
Definition log_switch (e : string * option string * string) (s : state) : state :=
  mkState (call s) (synth_active s) (chat s) (in_flight s) (function_call_in_flight s) (user_spoke s)
    (system_prompt s) (language_switch_events s ++ [e]) (effects s).
Definition log_effect (e : effect) (s : state) : state :=
  mkState (call s) (synth_active s) (chat s) (in_flight s) (function_call_in_flight s) (user_spoke s)
    (system_prompt s) (language_switch_events s) (effects s ++ [e]).

Definition set_language (l : option string) (c : session) : session :=
  mkSession (gates c) (lid_playback_gate c) (transcriber_tool c) (synth_labels c) l (hangup_triggered c)
    (end_call_in_progress c) (has_transfer c) (conversation_ended c) (language_switcher c) (callee_speaking c).


Inductive error := PoolError (e : TranscriberPool.error) | UnknownVoice (label : string) | BadConfidence (e : exn)
  | BadHistory (e : history_error).

Definition lift_pool {A} (c : SE pool TranscriberPool.error A) : SE state error unit := fun s =>
  match transcriber_tool (call s) with
  | Pool p => match c p with
              | (p', Ok _) => (with_call (with_tool (Pool p')) s, Ok tt)
              | (p', Err e) => (with_call (with_tool (Pool p')) s, Err (PoolError e))
              end
  | _ => (s, Ok tt)
  end.

(** [SynthesizerPool.switch] (tts/pool.py); without a pool nothing is switched. *)
Definition switch_voice (label : string) : SE state error unit := fun s =>
  match synth_labels (call s) with
  | None => (s, Ok tt)
  | Some ls => if bool_decide (label = synth_active s) then (s, Ok tt)
               else if bool_decide (label ∈ ls) then (with_synth label s, Ok tt)
               else (s, Err (UnknownVoice label))
  end.

(** The poke of the idle watcher: the event is set over a buffer that holds speech. *)
Definition set_event (p : pool) : pool :=
  match lid p with
  | None => p
  | Some b =>
      let u := the_buffer b in
      set_lid (Some (mkBackend (the_link b) (the_tap b)
        (mkBuffer (buffer_text u) (buffer_lang u) (buffer_lang_streak u) (buffer_max_segment_s u)
           (buffer_last_segment_ts u) (buffer_lang_prob u) (buffer_segments u) true))) p
  end.
Definition poke (mono : Q) (c : session) : session :=
  match transcriber_tool c with
  | Pool p => match lid_buffer_age mono p with Some _ => with_tool (Pool (set_event p)) c | None => c end
  | _ => c
  end.

(** How the spoken-ahead follow-up ends. *)
Inductive speculation := NotStarted | Unavailable | Spoken (text : string).

(** The awaits of the decision: what runs beside it until each returns. *)
Class Environment := {
  order_text : string -> string;
  variants : dict string string;
  run_transcriber_task : transcriber -> transcriber * bool;
  beside_run : list free_op * list free_op;
  settle : state -> state;
  decide : string -> string -> state -> state * option (option decision);
  cleanup : state -> state;
  audio_gap : state -> state;
  handoff : string -> state -> state;
  speculate : state -> state * speculation;
  synthesize : string -> state -> state }.

Section decision.
Context {E : Environment}.

Definition apply_language_directive (label : string) (note : option string) (s : state) : state :=
  let p := directed_prompt order_text variants label note (system_prompt s) in
  with_prompt p (with_chat (History.update_system_prompt p) s).

(** [switch_language] of both pools. *)
Definition switch_language (label triggered_by : string) (note : option string) (mono : Q) : SE state error unit :=
  se_modify (fun s => log_switch (label, s_language (call s), triggered_by) s) ;;;
  lift_pool (switch run_transcriber_task beside_run.1 beside_run.2 label) ;;;
  switch_voice label ;;;
  se_modify (with_call (set_language (Some label))) ;;;
  se_modify (with_call (poke mono)) ;;;
  se_modify (apply_language_directive label note).

(** [emit_lid_decision]: the record of this firing. *)
Definition emit (outcome : string) (d : option decision) (segs : list segment) (switched_to : option string) : SE state error unit :=
  se_modify (log_effect (Emitted outcome)) ;;;
  se_modify (with_call (fun c =>
    match transcriber_tool c with
    | Pool p => with_tool (Pool (append_event
                  (Decision "llm_switch" outcome (d' ← d; detected_language d') segs switched_to) p)) c
    | _ => c
    end)).



(** An await: the session as the other tasks leave it, the log of this run kept. *)
Definition keep_log (s s' : state) : state :=
  mkState (call s') (synth_active s') (chat s') (in_flight s') (function_call_in_flight s') (user_spoke s')
    (system_prompt s') (language_switch_events s') (effects s).








(** ** What a run logs *)

(** The effects a computation adds to the log, with its outcome. *)
Definition emits {A} (c : SE state error A) (P : list effect -> result error A -> Prop) : Prop :=
  forall s, exists l, effects (fst (c s)) = effects s ++ l /\ P l (snd (c s)).



Lemma emits_raise {A} (e : error) : emits (@se_raise state error A e) (fun l r => l = [] /\ r = Err e).
Proof. intros s. exists []. simpl. by rewrite app_nil_r. Qed.







(** The record an emission stands for, in the pool that serves the call. *)
Lemma emit_appends o d segs sw s p :
  transcriber_tool (call s) = Pool p ->
  exists q, transcriber_tool (call (fst (emit o d segs sw s))) = Pool q /\
    lid_detection_events q =
      lid_detection_events p ++ [Decision "llm_switch" o (d' ← d; detected_language d') segs sw].
Proof. intros Hp. unfold emit, se_bind, se_modify. simpl. rewrite Hp. by eexists. Qed.


Lemma env_await_quiet f s : effects (keep_log s (f s)) = effects s.
Proof. done. Qed.
















(** ** Authorization *)




Definition log_after {A} (c : SE state error A) (s : state) (P : list effect -> result error A -> Prop) : Prop :=
  exists l, effects (fst (c s)) = effects s ++ l /\ P l (snd (c s)).

Lemma log_of {A} (c : SE state error A) P s : emits c P -> log_after c s P.
Proof. intros H. apply H. Qed.









(** ** The switch of both pools *)

Definition voice_known (label : string) (s : state) : Prop :=
  match synth_labels (call s) with Some ls => label = synth_active s \/ label ∈ ls | None => True end.

(** When it returns, [switch_language] has put the transcriber, the voice and the
    call in the language; when the transcriber refuses (unknown label, connection
    lost), voice and language stay. The only other error is a voice pool without
    the label: then the language stays, but the transcriber has already changed. *)
Theorem switch_language_outcome label by_ note mono s p ks :
  transcriber_tool (call s) = Pool p -> ok ks p ->
  let '(s', r) := switch_language label by_ note mono s in
  (exists p', transcriber_tool (call s') = Pool p' /\ ok ks p' /\
    match r with
    | Ok _ => label ∈ ks /\ voice_known label s /\ active_label p' = label /\ s_language (call s') = Some label /\
              (is_Some (synth_labels (call s)) -> synth_active s' = label)
    | Err (PoolError _) => active_label p' = active_label p /\ s_language (call s') = s_language (call s) /\ synth_active s' = synth_active s
    | Err (UnknownVoice l) => l = label /\ ~ voice_known label s /\ active_label p' = label /\
        s_language (call s') = s_language (call s) /\ synth_active s' = synth_active s /\ system_prompt s' = system_prompt s
    | Err _ => False
    end) /\
  (forall l, r = Err (UnknownVoice l) <-> l = label /\ ~ voice_known label s /\ snd (switch run_transcriber_task beside_run.1 beside_run.2 label p) = Ok tt).
Proof.
  intros Hp Hok. pose proof (switch_outcome run_transcriber_task beside_run.1 beside_run.2 label ks p Hok) as Hs.
  unfold switch_language, lift_pool, switch_voice, se_bind, se_modify. simpl. rewrite Hp.
  destruct (switch run_transcriber_task beside_run.1 beside_run.2 label p) as [p' r] eqn:Esw. destruct Hs as (Hok' & _ & Hr).
  destruct r as [u|e]; simpl.
  2: { split; [|intros l; split; [done|intros (_ & _ & ?); done]]. exists p'.
       assert (active_label p' = active_label p) as Ha by (destruct e; [by destruct Hr as (_ & _ & ->)|by destruct Hr..]).
       by split_and!. }
  destruct Hr as [Hin Ha].
  assert (forall c, exists q, transcriber_tool (poke mono (set_language (Some label) (with_tool (Pool p') c))) = Pool q /\
            ok ks q /\ active_label q = label) as Hpoke.
  { intros c. unfold poke. simpl. destruct (lid_buffer_age mono p'); simpl; [|by exists p'].
    exists (set_event p'). unfold set_event. destruct (lid p'); [|done]. split; [done|]. split; [|done]. by unfold ok in *. }
  assert (forall c, s_language (poke mono c) = s_language c) as Hlang by (intros c; unfold poke; by repeat case_match).
  unfold voice_known. destruct (synth_labels (call s)) as [ls|] eqn:Esy; simpl.
  - case_bool_decide as Hact; [|case_bool_decide as Hls]; simpl.
    + destruct (Hpoke (call s)) as (q & Hq & Hokq & Haq). split; [|naive_solver]. exists q. rewrite Hq, Hlang. split_and!; try done; by left.
    + destruct (Hpoke (call s)) as (q & Hq & Hokq & Haq). split; [|naive_solver]. exists q. rewrite Hq, Hlang. split_and!; try done. by right.
    + assert (~ (label = synth_active s \/ label ∈ ls)) as Hno by (by intros [?|?]).
      split; [by exists p'; split_and!|]. intros l; split; [intros [= <-]; by destruct u|by intros (-> & _)].
  - destruct (Hpoke (call s)) as (q & Hq & Hokq & Haq). split; [|naive_solver]. exists q. rewrite Hq, Hlang. split_and!; try done.
Qed.
End decision.

Module Example.
(** A transcriber pool for English and Hindi beside a voice pool without Hindi, and
    no other task. *)
Instance alone : Environment := {|
  order_text := fun l => l; variants := []; run_transcriber_task := TranscriberPool.Example.connects; beside_run := ([], []); settle := id;
  LangSwitch.decide := fun _ _ s => (s, None); cleanup := id; audio_gap := id; handoff := fun _ => id;
  speculate := fun s => (s, NotStarted); synthesize := fun _ => id |}.
Definition start : state :=
  mkState (mkSession [] None (Pool TranscriberPool.Example.start) (Some ["english"]) (Some "english") false false false false None false)
    "english" (History.create None) (mkActivity false false false false false) false false "You are helpful." [] [].

Lemma switch_language_outcome_witness :
  let '(s', r) := switch_language "hindi" "tool" None 0%Q start in
  r = Err (UnknownVoice "hindi") /\ s_language (call s') = Some "english" /\
  match transcriber_tool (call s') with Pool p => active_label p = "hindi" | _ => False end.
Proof.
  pose proof (switch_language_outcome "hindi" "tool" None 0%Q start TranscriberPool.Example.start _ eq_refl
    (create_ok _ _ _ _ _ _ TranscriberPool.Example.created)) as H.
  revert H. destruct (switch_language "hindi" "tool" None 0%Q start) as [s' r] eqn:E. intros [(p' & Hp & _ & Hr) Hu].
  assert (r = Err (UnknownVoice "hindi")) as ->.
  { apply Hu. split_and!; [done| |by vm_compute]. unfold voice_known. simpl. set_solver. }
  destruct Hr as (_ & _ & Ha & Hl & _). rewrite Hp, Ha, Hl. done.
Defined.
End Example.
End LangSwitch.
