(* ===== verification/Voicemail.v ===== *)
(** * Voicemail detection (src/voiceai/agent_manager/voicemail_handler.py)

    When a check of the caller's transcript is started, and what its answer is
    taken for. The clock readings are arguments, in the order the code takes them;
    the checks themselves run beside the call, and [done] of the one in flight is
    part of the state. *)
From S2P Require Import Prelude PyText PyVal.
From Stdlib Require Import QArith.QArith Lqa Qround.
Close Scope Q_scope.
Open Scope Z_scope.

Module VoicemailHandler.

Record handler := mkHandler {
  enabled : bool;
  detected : bool;
  check_task : option bool;
  check_count : Z;
  detection_start_time : option Q;
  last_check_time : option Q;
  check_interval : Q;
  min_transcript_length : nat;
  detection_duration : Q }.

(** [__init__]; [check_task] is the [done()] of the task, when there is one. *)
Definition init (voicemail output_tool_available : bool) (interval : Q) (min_words : nat) (duration : Q) : handler :=
  mkHandler (voicemail && output_tool_available) false None 0 None None interval min_words duration.

Definition set_detected (h : handler) : handler :=
  mkHandler (enabled h) true (check_task h) (check_count h) (detection_start_time h) (last_check_time h)
    (check_interval h) (min_transcript_length h) (detection_duration h).
Definition set_task (t : option bool) (h : handler) : handler :=
  mkHandler (enabled h) (detected h) t (check_count h) (detection_start_time h) (last_check_time h)
    (check_interval h) (min_transcript_length h) (detection_duration h).
Definition set_start (t : Q) (h : handler) : handler :=
  mkHandler (enabled h) (detected h) (check_task h) (check_count h) (Some t) (last_check_time h)
    (check_interval h) (min_transcript_length h) (detection_duration h).

Definition in_progress (h : handler) : bool := match check_task h with Some d => negb d | None => false end.

(** [should_check]; the window opens with the first call that gets there. *)
Definition should_check (message : string) (is_final : bool) (now : Q) (h : handler) : handler * bool :=
  if negb (enabled h) then (h, false)
  else if detected h then (h, false)
  else if in_progress h then (h, false)
  else
    let h := match detection_start_time h with None => set_start now h | Some _ => h end in
    let elapsed := (now - default now (detection_start_time h))%Q in
    if Qltb (detection_duration h) elapsed then (h, false)
    else if negb is_final
    then
      if match last_check_time h with
         | Some t => if Qeq_bool t 0 then false else Qltb (now - t)%Q (check_interval h)
         | None => false
         end then (h, false)
      else if (length (PyText.split (strip message)) <? min_transcript_length h)%nat then (h, false)
      else (h, true)
    else (h, true).

(** [trigger_check]; [stamp] is its own reading. *)
Definition trigger_check (message : string) (is_final : bool) (now stamp : Q) (h : handler) : handler * bool :=
  match should_check message is_final now h with
  | (h, false) => (h, false)
  | (h, true) =>
      (mkHandler (enabled h) (detected h) (Some false) (check_count h + 1) (detection_start_time h) (Some stamp)
         (check_interval h) (min_transcript_length h) (detection_duration h), true)
  end.

(** What [check_for_voicemail] comes to: an answer, an exception, or the method is
    missing. *)
Inductive reply := Answer (v : val) | Raised | Unsupported.

(** [str(d.get("is_voicemail", "")).lower() == "yes"]: no other value prints as a
    yes. *)
Definition is_voicemail (v : val) : bool :=
  match v with
  | VDict d => match dget "is_voicemail" d with
               | Some (VStr s) => bool_decide (lower s = "yes")
               | _ => false
               end
  | _ => false
  end.

(** [_background_check] up to [_handle_detected]: the handler and whether the call
    is to be hung up. *)
Definition background_check (r : reply) (h : handler) : handler * bool :=
  match r with
  | Answer v => if is_voicemail v then (set_detected h, true) else (h, false)
  | Raised | Unsupported => (h, false)
  end.

Definition finish_check (h : handler) : handler :=
  match check_task h with Some _ => set_task (Some true) h | None => h end.

Definition cancel_task (h : handler) : handler := if in_progress h then set_task None h else h.

(** ** Runs *)

(** A transcript, the end of the check in flight, and the cancellation at the end
    of the call. *)
Inductive op :=
| Transcript (message : string) (is_final : bool) (now stamp : Q)
| Completed (r : reply)
| Cancelled.

(** A check that was started. *)
Record launch := mkLaunch { l_now : Q; l_stamp : Q; l_final : bool }.

(** The launches, newest first. *)
Definition step (st : handler * list launch) (o : op) : handler * list launch :=
  let '(h, ls) := st in
  match o with
  | Transcript m f now stamp =>
      let '(h', started) := trigger_check m f now stamp h in
      (h', if started then mkLaunch now stamp f :: ls else ls)
  | Completed r => if in_progress h then (finish_check (fst (background_check r h)), ls) else st
  | Cancelled => (cancel_task h, ls)
  end.
Definition run (ops : list op) (h : handler) : handler * list launch := fold_left step ops (h, []).

Definition readings (o : op) : list Q := match o with Transcript _ _ now stamp => [now; stamp] | _ => [] end.

(** ** Lemmas *)

Lemma should_check_cases m f now h :
  let '(h', b) := should_check m f now h in
  enabled h' = enabled h /\ detected h' = detected h /\ check_task h' = check_task h /\ check_count h' = check_count h /\
  last_check_time h' = last_check_time h /\ check_interval h' = check_interval h /\
  detection_duration h' = detection_duration h /\
  (h' = h \/ detection_start_time h = None /\ detection_start_time h' = Some now) /\
  (b = true -> enabled h = true /\ detected h = false /\ in_progress h = false /\
     exists start, detection_start_time h' = Some start /\ (now - start <= detection_duration h)%Q /\
     (f = false -> forall t, last_check_time h = Some t -> Qeq_bool t 0 = false -> (check_interval h <= now - t)%Q)).
Proof.
  unfold should_check. destruct (enabled h) eqn:He; simpl; [|split_and!; auto; done].
  destruct (detected h) eqn:Hd; [split_and!; auto; done|]. destruct (in_progress h) eqn:Hp; [split_and!; auto; done|].
  set (h1 := match detection_start_time h with None => _ | Some _ => _ end).
  assert (enabled h1 = true /\ detected h1 = false /\ check_task h1 = check_task h /\ check_count h1 = check_count h /\
    last_check_time h1 = last_check_time h /\ check_interval h1 = check_interval h /\ detection_duration h1 = detection_duration h /\
    (h1 = h \/ detection_start_time h = None /\ detection_start_time h1 = Some now) /\
    exists start, detection_start_time h1 = Some start) as (E1 & E2 & E3 & E4 & E5 & E6 & E7 & E8 & start & E9).
  { unfold h1. destruct (detection_start_time h) eqn:Es; split_and!; eauto. }
  rewrite E9, E7. simpl. destruct (Qltb _ _) eqn:Hw; [split_and!; auto; done|]. qbool. rewrite E5, E6.
  assert (forall P : Prop, P -> true = true -> P) as Hok by auto.
  destruct f; simpl; [split_and!; auto; intros _; split_and!; auto; eauto using Qlt_le_weak|].
  - exists start. split_and!; [done..|by intros].
  - destruct (match last_check_time h with Some t => _ | None => _ end) eqn:Hg; [split_and!; auto; done|].
    destruct (_ <? _)%nat; [split_and!; auto; done|]. split_and!; auto. intros _. split_and!; auto. exists start.
    split_and!; [done..|]. intros _ t Ht Hz. rewrite Ht, Hz in Hg. by qbool.
Qed.

(** The books of a run: the launches so far against the window, the interval and
    the clock [t]. *)
Definition spaced (interval : Q) (newer older : launch) : Prop :=
  (l_stamp older <= l_now newer)%Q /\ (l_final newer = false -> (interval <= l_now newer - l_stamp older)%Q).
Fixpoint chained (interval : Q) (ls : list launch) : Prop :=
  match ls with
  | a :: (b :: _) as rest => spaced interval a b /\ chained interval rest
  | _ => True
  end.

(** The readings of the clock never go back. *)
Fixpoint in_order (t : Q) (ops : list op) : Prop :=
  match ops with
  | [] => True
  | Transcript _ _ now stamp :: rest => (t <= now)%Q /\ (now <= stamp)%Q /\ in_order stamp rest
  | _ :: rest => in_order t rest
  end.

Definition in_window (start duration : Q) (l : launch) : Prop := (start <= l_now l)%Q /\ (l_now l - start <= duration)%Q.

Definition books (interval duration t : Q) (st : handler * list launch) : Prop :=
  let '(h, ls) := st in
  check_interval h = interval /\ detection_duration h = duration /\ check_count h = Z.of_nat (length ls) /\
  last_check_time h = l_stamp <$> head ls /\ chained interval ls /\ Forall (fun l => (0 < l_stamp l)%Q /\ (l_now l <= l_stamp l)%Q) ls /\
  (forall l, l ∈ ls -> (l_stamp l <= t)%Q) /\
  match detection_start_time h with
  | None => ls = []
  | Some start => (start <= t)%Q /\ Forall (in_window start duration) ls
  end.

Lemma books_later interval duration t t' st : (t <= t')%Q -> books interval duration t st -> books interval duration t' st.
Proof.
  intros Ht. destruct st as [h ls]. intros (H1 & H2 & H3 & H4 & H5 & H6 & H7 & H8). split_and!; try done.
  - intros l Hl. specialize (H7 l Hl). lra.
  - destruct (detection_start_time h); [|done]. destruct H8. split; [lra|done].
Qed.

Lemma books_transcript interval duration t m f now stamp st :
  (0 < t)%Q -> (t <= now)%Q -> (now <= stamp)%Q ->
  books interval duration t st -> books interval duration stamp (step st (Transcript m f now stamp)).
Proof.
  intros Ht Hn Hst. destruct st as [h ls]. intros (H1 & H2 & H3 & H4 & H5 & H6 & H7 & H8). simpl.
  unfold trigger_check. pose proof (should_check_cases m f now h) as Hc.
  destruct (should_check m f now h) as [h1 b]. destruct Hc as (_ & _ & _ & C4 & C5 & C6 & C7 & C8 & C9).
  assert (forall l, l ∈ ls -> (l_stamp l <= stamp)%Q) as Hs by (intros l Hl; specialize (H7 l Hl); lra).
  assert (match detection_start_time h1 with None => ls = [] | Some start => (start <= now)%Q /\ Forall (in_window start duration) ls end) as Hw.
  { destruct C8 as [->|[Hno ->]].
    - destruct (detection_start_time h); [|done]. destruct H8; split; [lra|done].
    - rewrite Hno in H8. subst ls. split; [lra|constructor]. }
  destruct b; simpl.
  2: { split_and!; try congruence; try done. destruct (detection_start_time h1); [|done]. destruct Hw; split; [lra|done]. }
  destruct (C9 eq_refl) as (_ & _ & _ & start & Es & Hin & Hgap). rewrite Es in Hw |- *. destruct Hw as [Hle Hw].
  split_and!; try congruence; [cbn [length]; lia|..].
  - destruct ls as [|l ls]; [done|]. split; [|done]. unfold spaced. simpl.
    assert (l_stamp l <= t)%Q by (apply H7; left). split; [lra|]. intros ->. rewrite <- H1. apply Hgap; [done|by rewrite H4|].
    inversion H6 as [|?? [Hp _] _]; subst. destruct (Qeq_bool (l_stamp l) 0) eqn:E; [|done]. apply Qeq_bool_iff in E. lra.
  - constructor; [|done]. simpl. split; lra.
  - intros l. rewrite elem_of_cons. intros [->|Hl]; [simpl; lra|by apply Hs].
  - lra.
  - constructor; [|done]. unfold in_window. simpl. rewrite <- H2. split; lra.
Qed.

Lemma books_idle interval duration t o st :
  (forall m f n s, o <> Transcript m f n s) -> books interval duration t st -> books interval duration t (step st o).
Proof.
  intros Ho. destruct st as [h ls]. destruct o as [m f n s|r|]; [by destruct (Ho m f n s)|..]; simpl; intros H.
  - destruct h as [? ? [[]|] ? ? ? ? ? ?]; [exact H| |exact H]. destruct r as [v| |]; [|exact H..]. simpl. destruct (is_voicemail v); exact H.
  - unfold cancel_task. destruct (in_progress h); exact H.
Qed.

Lemma vm_books_run interval duration ops : forall t st,
  (0 < t)%Q -> in_order t ops -> books interval duration t st -> exists t', books interval duration t' (fold_left step ops st).
Proof.
  induction ops as [|o ops IH]; intros t st Ht Ho H; simpl; [by exists t|].
  destruct o as [m f now stamp|r|]; simpl in Ho.
  - destruct Ho as (H1 & H2 & Ho). apply (IH stamp); [lra|done|]. by apply (books_transcript _ _ t).
  - apply (IH t); [done..|]. by apply books_idle.
  - apply (IH t); [done..|]. by apply books_idle.
Qed.

(** Interim launches alone fit the window: the first and the last are at most a
    window apart, and each of them an interval after the one before. *)
Lemma interim_span interval start duration a ls :
  (0 <= interval)%Q -> chained interval (a :: ls) -> Forall (fun l => l_final l = false) (a :: ls) ->
  Forall (fun l => (0 < l_stamp l)%Q /\ (l_now l <= l_stamp l)%Q) (a :: ls) -> Forall (in_window start duration) (a :: ls) ->
  (start + inject_Z (Z.of_nat (length ls)) * interval <= l_now a)%Q.
Proof.
  intros Hi. revert a. induction ls as [|b ls IH]; intros a Hc Hf Hs Hw.
  { inversion_clear Hw as [|?? [Hlo _] _]. change (inject_Z (Z.of_nat (length []))) with 0%Q. lra. }
  destruct Hc as [[_ Hgap] Hc]. inversion_clear Hf as [|?? Ha Hf']. inversion_clear Hs as [|?? _ Hs']. inversion_clear Hw as [|?? _ Hw'].
  specialize (IH b Hc Hf' Hs' Hw'). inversion_clear Hs' as [|?? [_ Hb] _]. specialize (Hgap Ha).
  assert (inject_Z (Z.of_nat (length (b :: ls))) == inject_Z (Z.of_nat (length ls)) + 1)%Q as ->.
  { cbn [length]. rewrite Nat2Z.inj_succ, <- Z.add_1_r, inject_Z_plus. reflexivity. }
  lra.
Qed.

Lemma detected_no_launch ops : forall h ls, detected h = true -> snd (fold_left step ops (h, ls)) = ls.
Proof.
  induction ops as [|o ops IH]; intros h ls Hd; [done|]. simpl. destruct o as [m f now stamp|r|]; simpl.
  - unfold trigger_check, should_check. rewrite Hd. destruct (enabled h); simpl; by apply IH.
  - destruct (in_progress h); [|by apply IH]. apply IH. unfold finish_check. destruct r as [v| |]; simpl; [destruct (is_voicemail v)|..]; by case_match.
  - apply IH. unfold cancel_task. by destruct (in_progress h).
Qed.

(** Over any sequence of transcripts, check ends and cancellations on a clock that
    never goes back: every check is counted and started inside one detection
    window, an interim one at least an interval after the check before it, so
    interim transcripts alone start at most a window's worth of them; none starts
    while another runs, and after a positive answer none starts at all. *)
Theorem voicemail_checks_bounded voicemail output interval words duration t ops :
  (0 < t)%Q -> (0 <= interval)%Q -> in_order t ops ->
  let '(h, ls) := run ops (init voicemail output interval words duration) in
  check_count h = Z.of_nat (length ls) /\ chained interval ls /\
  (exists start, Forall (in_window start duration) ls) /\
  (Forall (fun l => l_final l = false) ls -> ls = [] \/ (inject_Z (Z.of_nat (length ls) - 1) * interval <= duration)%Q) /\
  (in_progress h = true -> forall m f now stamp,
     snd (run (ops ++ [Transcript m f now stamp]) (init voicemail output interval words duration)) = ls /\
     forall v rest, is_voicemail v = true ->
       snd (run (ops ++ Completed (Answer v) :: rest) (init voicemail output interval words duration)) = ls).
Proof.
  intros Ht Hi Ho. set (h0 := init _ _ _ _ _).
  assert (books interval duration t (h0, [])) as H0 by (split_and!; try done; by intros l ?%not_elem_of_nil).
  destruct (vm_books_run interval duration ops t _ Ht Ho H0) as [t' Hb]. change (fold_left step ops (h0, [])) with (run ops h0) in Hb.
  destruct (run ops h0) as [h ls] eqn:Er. destruct Hb as (_ & _ & H3 & _ & H5 & H6 & _ & H8).
  assert (exists start, Forall (in_window start duration) ls) as [start Hw].
  { destruct (detection_start_time h) as [start|]; [exists start; apply H8|exists 0%Q; by subst ls]. }
  split_and!; try done.
  - by exists start.
  - intros Hf. destruct ls as [|a ls]; [by left|right]. pose proof (interim_span _ _ _ _ _ Hi H5 Hf H6 Hw) as Hspan.
    inversion_clear Hw as [|?? [_ Hhi] _]. replace (Z.of_nat (length (a :: ls)) - 1) with (Z.of_nat (length ls)) by (simpl; lia). lra.
  - intros Hp m f now stamp. unfold run in *. rewrite !fold_left_app, Er. split.
    + simpl. unfold trigger_check, should_check. rewrite Hp. by destruct (enabled h), (detected h).
    + intros v rest Hv. rewrite fold_left_app, Er. simpl. rewrite Hp, Hv. apply detected_no_launch. unfold finish_check. simpl. by destruct (check_task h).
Qed.

(** Two interim transcripts in a window of thirty seconds: the second comes too
    soon after the first. *)
Definition greeting : string := "hello you have reached the voice mailbox of".
Definition soon : list op :=
  [Transcript greeting false (Qmake 100 1) (Qmake 100 1); Completed Raised; Transcript greeting false (Qmake 104 1) (Qmake 104 1);
   Transcript greeting false (Qmake 108 1) (Qmake 109 1)].
Definition yes : val := VDict [("is_voicemail", VStr "Yes")].

Lemma voicemail_checks_bounded_witness :
  let '(h, ls) := run soon (init true true (Qmake 7 1) 7 (Qmake 30 1)) in
  map l_now ls = [Qmake 108 1; Qmake 100 1] /\ check_count h = 2 /\
  snd (run (soon ++ [Completed (Answer yes); Transcript greeting true (Qmake 110 1) (Qmake 110 1)])
         (init true true (Qmake 7 1) 7 (Qmake 30 1))) = ls.
Proof.
  pose proof (voicemail_checks_bounded true true (Qmake 7 1) 7 (Qmake 30 1) 1 soon) as H. revert H.
  destruct (run soon (init true true (Qmake 7 1) 7 (Qmake 30 1))) as [h ls] eqn:E. intros H.
  assert ((h, ls) = run soon (init true true (Qmake 7 1) 7 (Qmake 30 1))) as E' by (by symmetry). vm_compute in E'. simplify_eq.
  destruct H as (_ & _ & _ & _ & H); [done|done|by vm_compute|].
  split_and!; [done|done|]. apply (H eq_refl "" true 0%Q 0%Q). by vm_compute.
Defined.
End VoicemailHandler.
