(* ===== verification/Lifecycle.v ===== *)
(** * The end of a call (src/voiceai/modules/voice/session/lifecycle/hangup.py)

    The hang-up, the teardown and the completion watchdog, with
    [_hangup_after_goodbye] (s2s_runner.py), the watchdog's predicates
    (agent_manager/task_manager.py) and the observer of the goodbye's mark
    (turn/output_loop.py). They run as tasks of one event loop: a task is the
    [pc] of the await it is suspended at, [resume] runs it to its next await, and
    a run of the call is any interleaving of resumptions, external events and
    cancellations. One clock reading is taken per resumption. *)
From S2P Require Import Prelude PyText PyVal Interruption Voicemail.
From Stdlib Require Import QArith.QArith Lqa.
Close Scope Q_scope.
Open Scope Z_scope.

Module CallLifecycle.
Import VoicemailHandler.

Inductive HangupReason :=
| LLM_PROMPTED_HANGUP | VOICEMAIL_DETECTED | WEB_CALL_MAX_DURATION_REACHED | TELEPHONY_CALL_MAX_DURATION_REACHED
| INACTIVITY_TIMEOUT | TRANSCRIBER_ERROR | TRANSCRIBER_CONNECTION_ERROR | SYNTHESIZER_ERROR | LLM_ERROR | END_CALL_TOOL | S2S_ERROR.

Record config := mkConfig {
  task_config : val;
  is_web_based_call : bool;
  turn_based_conversation : bool;
  is_s2s : bool;
  has_output : bool;
  has_transcriber : bool;
  start_time : Q;
  hang_conversation_after : Q;
  trigger_user_online_message_after : Q;
  repeat_after_silence_seconds : Q;
  hangup_mark_event_timeout : Q;
  check_if_user_online : bool }.

(** The flags of [CallLifecycle]. *)
Record flags := mkFlags {
  hangup_triggered : bool;
  hangup_triggered_at : option Q;
  hangup_decision_at : option Q;
  hangup_processing : bool;
  hangup_message_queued : bool;
  conversation_ended : bool;
  end_of_conversation_in_progress : bool;
  end_call_in_progress : bool;
  ended_by_assistant : bool }.

(** What the rest of the call writes. [llm_task] and [execute_function_call_task]
    are the [done()] of the task, when there is one; [hangup_sent] is [None] when
    the output tool raises. *)
Record world := mkWorld {
  voicemail_handler : handler;
  interruption_manager : Interruption.manager;
  call_hangup_message : option string;
  hangup_sent : option bool;
  llm_task : option bool;
  execute_function_call_task : option bool;
  s2s_tool_tasks : list bool;
  last_transmitted_timestamp : Q;
  last_spoken_human_word : Q;
  response_in_pipeline : bool;
  synthesis_awaiting_first_audio : bool;
  asked_if_user_is_still_there : bool;
  audio_being_played : bool;
  audio_playing_until : Q;
  hangup_detail : option HangupReason;
  s2s_hangup_after_response : bool }.

(** What the lifecycle does to the call, in order. *)
Inductive action :=
| CleanedDownstream
| GoodbyeSynthesized (text : string)
| GoodbyeRecorded (text : option string)
| LlmCancelled
| EndOfStreamFlushed
| OutputClosed
| InputStopped
| TranscriberToggled
| VoicemailCancelled
| GoodbyeAsked (text : string)
| SilenceInjected
| AskedIfOnline
| PlaybackCleared.

(** The awaits. [web] is [web_call_timeout]; [in_llm] tells that the task is the
    session's [llm_task]. *)
Inductive pc :=
| EndWaiting (web in_llm : bool)
| EndPolling (web in_llm : bool)
| EndFlushing (web : bool)
| EndStopping (web : bool)
| EndToggling (web : bool)
| EndSettling (web : bool)
| HangupWaiting (message : string)
| HangupCleaning (message : string)
| HangupSynthesizing
| GoodbyeAsking
| GoodbyeTimer
| WatchSleeping
| WatchInjecting
| WatchPrompting
| WatchSynthesizing
| WatchClearing.

Record state := mkState { fl : flags; wd : world; log : list action; threads : list pc }.
Definition with_flags (f : flags -> flags) (s : state) : state := mkState (f (fl s)) (wd s) (log s) (threads s).
Definition with_world (f : world -> world) (s : state) : state := mkState (fl s) (f (wd s)) (log s) (threads s).
Definition act (a : action) (s : state) : state := mkState (fl s) (wd s) (log s ++ [a]) (threads s).

(** ** Assignments to the session *)

Definition mark_decided (now : Q) (f : flags) : flags :=
  mkFlags (hangup_triggered f) (hangup_triggered_at f) (Some (default now (hangup_decision_at f))) (hangup_processing
    f) (hangup_message_queued f) (conversation_ended f) (end_of_conversation_in_progress f) (end_call_in_progress f)
    (ended_by_assistant f).
Definition mark_triggered (f : flags) : flags :=
  mkFlags true (hangup_triggered_at f) (hangup_decision_at f) (hangup_processing f) (hangup_message_queued f)
    (conversation_ended f) (end_of_conversation_in_progress f) (end_call_in_progress f) (ended_by_assistant f).
Definition mark_processing (f : flags) : flags :=
  mkFlags true (hangup_triggered_at f) (hangup_decision_at f) true (hangup_message_queued f) (conversation_ended f)
    (end_of_conversation_in_progress f) (end_call_in_progress f) (ended_by_assistant f).
Definition mark_queued (b : bool) (f : flags) : flags :=
  mkFlags (hangup_triggered f) (hangup_triggered_at f) (hangup_decision_at f) (hangup_processing f) b
    (conversation_ended f) (end_of_conversation_in_progress f) (end_call_in_progress f) (ended_by_assistant f).
Definition mark_triggered_at (now : Q) (f : flags) : flags :=
  mkFlags (hangup_triggered f) (Some now) (hangup_decision_at f) (hangup_processing f) (hangup_message_queued f)
    (conversation_ended f) (end_of_conversation_in_progress f) (end_call_in_progress f) (ended_by_assistant f).
Definition mark_ending (f : flags) : flags :=
  mkFlags (hangup_triggered f) (hangup_triggered_at f) (hangup_decision_at f) (hangup_processing f)
    (hangup_message_queued f) (conversation_ended f) true (end_call_in_progress f) (ended_by_assistant f).
Definition mark_ended (f : flags) : flags :=
  mkFlags (hangup_triggered f) (hangup_triggered_at f) (hangup_decision_at f) (hangup_processing f)
    (hangup_message_queued f) true (end_of_conversation_in_progress f) (end_call_in_progress f) true.
Definition mark_end_call (b : bool) (f : flags) : flags :=
  mkFlags (hangup_triggered f) (hangup_triggered_at f) (hangup_decision_at f) (hangup_processing f)
    (hangup_message_queued f) (conversation_ended f) (end_of_conversation_in_progress f) b (ended_by_assistant f).

Definition set_voicemail (h : handler) (w : world) : world :=
  mkWorld h (interruption_manager w) (call_hangup_message w) (hangup_sent w) (llm_task w) (execute_function_call_task
    w) (s2s_tool_tasks w) (last_transmitted_timestamp w) (last_spoken_human_word w) (response_in_pipeline w)
    (synthesis_awaiting_first_audio w) (asked_if_user_is_still_there w) (audio_being_played w) (audio_playing_until w)
    (hangup_detail w) (s2s_hangup_after_response w).
Definition set_interruption (m : Interruption.manager) (w : world) : world :=
  mkWorld (voicemail_handler w) m (call_hangup_message w) (hangup_sent w) (llm_task w) (execute_function_call_task w)
    (s2s_tool_tasks w) (last_transmitted_timestamp w) (last_spoken_human_word w) (response_in_pipeline w)
    (synthesis_awaiting_first_audio w) (asked_if_user_is_still_there w) (audio_being_played w) (audio_playing_until w)
    (hangup_detail w) (s2s_hangup_after_response w).
Definition set_hangup_sent (w : world) : world :=
  mkWorld (voicemail_handler w) (interruption_manager w) (call_hangup_message w) (Some true) (llm_task w)
    (execute_function_call_task w) (s2s_tool_tasks w) (last_transmitted_timestamp w) (last_spoken_human_word w)
    (response_in_pipeline w) (synthesis_awaiting_first_audio w) (asked_if_user_is_still_there w) (audio_being_played w)
    (audio_playing_until w) (hangup_detail w) (s2s_hangup_after_response w).
Definition set_llm_task (t : option bool) (w : world) : world :=
  mkWorld (voicemail_handler w) (interruption_manager w) (call_hangup_message w) (hangup_sent w) t
    (execute_function_call_task w) (s2s_tool_tasks w) (last_transmitted_timestamp w) (last_spoken_human_word w)
    (response_in_pipeline w) (synthesis_awaiting_first_audio w) (asked_if_user_is_still_there w) (audio_being_played w)
    (audio_playing_until w) (hangup_detail w) (s2s_hangup_after_response w).
Definition set_asked (w : world) : world :=
  mkWorld (voicemail_handler w) (interruption_manager w) (call_hangup_message w) (hangup_sent w) (llm_task w)
    (execute_function_call_task w) (s2s_tool_tasks w) (last_transmitted_timestamp w) (last_spoken_human_word w)
    (response_in_pipeline w) (synthesis_awaiting_first_audio w) true (audio_being_played w) (audio_playing_until w)
    (hangup_detail w) (s2s_hangup_after_response w).
Definition set_not_playing (w : world) : world :=
  mkWorld (voicemail_handler w) (interruption_manager w) (call_hangup_message w) (hangup_sent w) (llm_task w)
    (execute_function_call_task w) (s2s_tool_tasks w) (last_transmitted_timestamp w) (last_spoken_human_word w)
    (response_in_pipeline w) (synthesis_awaiting_first_audio w) (asked_if_user_is_still_there w) false
    (audio_playing_until w) (hangup_detail w) (s2s_hangup_after_response w).
Definition set_detail (r : HangupReason) (w : world) : world :=
  mkWorld (voicemail_handler w) (interruption_manager w) (call_hangup_message w) (hangup_sent w) (llm_task w)
    (execute_function_call_task w) (s2s_tool_tasks w) (last_transmitted_timestamp w) (last_spoken_human_word w)
    (response_in_pipeline w) (synthesis_awaiting_first_audio w) (asked_if_user_is_still_there w) (audio_being_played w)
    (audio_playing_until w) (Some r) (s2s_hangup_after_response w).
Definition set_s2s_hangup (b : bool) (w : world) : world :=
  mkWorld (voicemail_handler w) (interruption_manager w) (call_hangup_message w) (hangup_sent w) (llm_task w)
    (execute_function_call_task w) (s2s_tool_tasks w) (last_transmitted_timestamp w) (last_spoken_human_word w)
    (response_in_pipeline w) (synthesis_awaiting_first_audio w) (asked_if_user_is_still_there w) (audio_being_played w)
    (audio_playing_until w) (hangup_detail w) b.

(** [task is not None and not task.done()] *)
Definition running (t : option bool) : bool := match t with Some d => negb d | None => false end.

Section operations.
Variable cfg : config.

(** ** Teardown *)

(** What follows [process_end_of_conversation] in its caller: only the web arm of
    the watchdog, the one that passes [web_call_timeout], has anything left to do. *)
Definition after_end (web : bool) (s : state) : state :=
  if web then with_world (set_detail WEB_CALL_MAX_DURATION_REACHED) s else s.

(** [process_end_of_conversation] up to [wait_for_current_message]. *)
Definition process_end_of_conversation (web in_llm : bool) (s : state) : state * list pc :=
  if end_of_conversation_in_progress (fl s) || conversation_ended (fl s) then (after_end web s, [])
  else (with_flags mark_ending s, [EndWaiting web in_llm]).

Definition finish_end (web : bool) (s : state) : state * list pc :=
  let s := if in_progress (voicemail_handler (wd s))
           then act VoicemailCancelled (with_world (fun w => set_voicemail (cancel_task (voicemail_handler w)) w) s) else s in
  (after_end web s, []).
Definition toggle_transcriber (web : bool) (s : state) : state * list pc :=
  if has_transcriber cfg && negb (turn_based_conversation cfg) then (act TranscriberToggled s, [EndToggling web])
  else finish_end web s.
Definition stop_io (web : bool) (s : state) : state * list pc :=
  (act InputStopped (if has_output cfg then act OutputClosed s else s), [EndStopping web]).

(** From the wait for the goodbye on. *)
Definition close_conversation (web in_llm : bool) (s : state) : state * list pc :=
  let s := if hangup_message_queued (fl s) && negb web then act (GoodbyeRecorded (call_hangup_message (wd s))) s else s in
  let s := with_flags mark_ended s in
  let s := if running (llm_task (wd s))
           then with_world (set_llm_task None) (if in_llm then s else act LlmCancelled s) else s in
  if turn_based_conversation cfg && has_output cfg then (act EndOfStreamFlushed s, [EndFlushing web]) else stop_io web s.

(** The [while] over [hangup_sent()]: another half second, or on. *)
Definition poll_goodbye (web in_llm : bool) (s : state) : state * list pc :=
  if hangup_triggered (fl s) && hangup_message_queued (fl s)
  then match hangup_sent (wd s) with
       | Some false => (s, [EndPolling web in_llm])
       | Some true | None => close_conversation web in_llm s
       end
  else close_conversation web in_llm s.

(** ** The hang-up *)

(** [enter_hangup_state] *)
Definition enter_hangup_state (now : Q) (s : state) : state :=
  with_world (fun w => set_interruption (Interruption.on_user_speech_ended now false 0 None (interruption_manager w)) w)
    (with_flags (fun f => mark_decided now (mark_triggered f)) s).

Definition goodbye (s : state) : option string :=
  if detected (voicemail_handler (wd s)) then Some "" else call_hangup_message (wd s).
Definition spoken (m : option string) : option string :=
  match m with Some t => if str_true t && str_true (strip t) then Some t else None | None => None end.

(** [process_call_hangup] up to its first await. *)
Definition process_call_hangup (in_llm : bool) (now : Q) (s : state) : state * list pc :=
  let s := with_flags (mark_decided now) s in
  if hangup_processing (fl s) || conversation_ended (fl s) then (s, [])
  else
    let s := with_flags mark_processing s in
    if is_s2s cfg
    then process_end_of_conversation false in_llm (with_flags (fun f => mark_triggered_at now (mark_queued false f)) s)
    else match spoken (goodbye s) with
         | None => process_end_of_conversation false in_llm (with_flags (fun f => mark_triggered_at now (mark_queued false f)) s)
         | Some m => (with_flags (mark_queued true) s, [HangupWaiting m])
         end.

(** [_hangup_after_goodbye] *)
Definition hangup_after_goodbye (reason : HangupReason) (now : Q) (s : state) : state * list pc :=
  let s := with_world (set_detail reason) s in
  match spoken (goodbye s) with
  | Some m => if is_s2s cfg then (act (GoodbyeAsked m) (with_world (set_s2s_hangup true) s), [GoodbyeAsking])
              else process_call_hangup false now s
  | None => process_call_hangup false now s
  end.

(** ** The watchdog *)

(** [_max_call_duration_s]; the conversion of an integer beyond the float range
    raises. *)
Definition field (k : string) (v : val) : val := match v with VDict d => default VNone (dget k d) | _ => VNone end.
Definition max_call_duration_s (c : val) : result exn (option pyfloat) :=
  let inner := match c with VDict d => default (VDict []) (dget "task_config" d) | _ => VDict [] end in
  match field "call_terminate" inner with
  | VInt z => if z <=? 0 then Ok None
              else match to_float (VInt z) with Ok f => Ok (Some f) | Err e => Err e end
  | VFloat f => if num_cmp OpLe f (Fin 0) then Ok None else Ok (Some f)
  | _ => Ok None
  end.

(** [compute_last_ai_audio_timestamp] *)
Definition compute_last_ai_audio_timestamp (now : Q) (w : world) : Q :=
  Qmaxq (last_transmitted_timestamp w) (Qminq now (audio_playing_until w)).

Definition has_pending_generation (w : world) : bool :=
  running (llm_task w) || running (execute_function_call_task w) || existsb negb (s2s_tool_tasks w).

(** The two silences; [None] is the infinite one. *)
Definition ai_silence (now : Q) (w : world) : Q := (now - compute_last_ai_audio_timestamp now w)%Q.
Definition user_silence (now : Q) (w : world) : option Q :=
  if Qltb 0 (last_spoken_human_word w) then Some (now - last_spoken_human_word w)%Q else None.
Definition longer (d : option Q) (q : Q) : bool := match d with Some x => Qltb q x | None => true end.
Definition both_silent (q now : Q) (w : world) : bool := Qltb q (ai_silence now w) && longer (user_silence now w) q.

Definition STALL_HANGUP_FLOOR_S : Q := Qmake 20 1.
Definition should_stall_hangup (now : Q) (w : world) : bool :=
  if Qle_bool (hang_conversation_after cfg) 0 then false
  else negb (audio_being_played w) && negb (has_pending_generation w) &&
       both_silent (Qmaxq (hang_conversation_after cfg) STALL_HANGUP_FLOOR_S) now w.
Definition pipeline_busy (w : world) : bool :=
  audio_being_played w || response_in_pipeline w || synthesis_awaiting_first_audio w.

(** What a tick of [check_for_completion] does, and its conditions in order. *)
Inductive verdict :=
| WebCap | TelephonyCap | Idle | HangupOver | GoodbyeOverdue | GoodbyePending | Stalled | Busy | RepeatSilence | Inactive
| AskOnline | Quiet.

Definition over_cap (cap : option pyfloat) (now : Q) : bool :=
  match cap with Some c => num_cmp OpGe (Fin (now - start_time cfg)) c | None => false end.
Definition silence_due (now : Q) (w : world) : bool :=
  negb (Qeq_bool (repeat_after_silence_seconds cfg) 0) && both_silent (repeat_after_silence_seconds cfg) now w &&
  negb (response_in_pipeline w) && negb (has_pending_generation w).
Definition watch_verdict (cap : option pyfloat) (now : Q) (s : state) : verdict :=
  let w := wd s in
  if is_web_based_call cfg && over_cap cap now then WebCap
  else if negb (is_web_based_call cfg) && over_cap cap now then TelephonyCap
  else if Qeq_bool (last_transmitted_timestamp w) 0 then Idle
  else if hangup_triggered (fl s)
  then
    if conversation_ended (fl s) then HangupOver
    else match hangup_triggered_at (fl s) with
         | Some t => if Qeq_bool t 0 then GoodbyePending
                     else if Qltb (hangup_mark_event_timeout cfg) (now - t) then GoodbyeOverdue else GoodbyePending
         | None => GoodbyePending
         end
  else if should_stall_hangup now w then Stalled
  else if pipeline_busy w then Busy
  else if silence_due now w then RepeatSilence
  else if Qltb 0 (hang_conversation_after cfg) && both_silent (hang_conversation_after cfg) now w then Inactive
  else if both_silent (trigger_user_online_message_after cfg) now w && negb (asked_if_user_is_still_there w) &&
          negb (has_pending_generation w) then AskOnline
  else Quiet.

(** One tick of [check_for_completion]: the watchdog sleeps again, waits for what
    it started, or is over. *)
Definition check_for_completion (now : Q) (s : state) : state * list pc :=
  match max_call_duration_s (task_config cfg) with
  | Err _ => (s, [])
  | Ok cap =>
      match watch_verdict cap now s with
      | WebCap => process_end_of_conversation true false s
      | TelephonyCap => hangup_after_goodbye TELEPHONY_CALL_MAX_DURATION_REACHED now s
      | HangupOver => (s, [])
      | GoodbyeOverdue => process_end_of_conversation false false (if has_output cfg then with_world set_hangup_sent s else s)
      | Stalled | Inactive => hangup_after_goodbye INACTIVITY_TIMEOUT now s
      | Idle | GoodbyePending | Busy | Quiet => (s, [WatchSleeping])
      | RepeatSilence => (act SilenceInjected s, [WatchInjecting])
      | AskOnline =>
          let s := with_world set_asked s in
          if check_if_user_online cfg
          then (act AskedIfOnline s, [if is_s2s cfg then WatchPrompting else WatchSynthesizing])
          else (act PlaybackCleared s, [WatchClearing])
      end
  end.

(** ** The loop *)

Definition resume (now : Q) (p : pc) (s : state) : state * list pc :=
  match p with
  | EndWaiting web in_llm | EndPolling web in_llm => poll_goodbye web in_llm s
  | EndFlushing web => stop_io web s
  | EndStopping web => toggle_transcriber web s
  | EndToggling web => (s, [EndSettling web])
  | EndSettling web => finish_end web s
  | HangupWaiting m => (act CleanedDownstream s, [HangupCleaning m])
  | HangupCleaning m => (act (GoodbyeSynthesized m) s, [HangupSynthesizing])
  | HangupSynthesizing => (with_flags (mark_triggered_at now) s, [])
  | GoodbyeAsking => (s, [GoodbyeTimer])
  | GoodbyeTimer =>
      if s2s_hangup_after_response (wd s) && negb (conversation_ended (fl s))
      then process_call_hangup false now (with_world (set_s2s_hangup false) s) else (s, [])
  | WatchSleeping => check_for_completion now s
  | WatchInjecting | WatchPrompting | WatchClearing => (s, [WatchSleeping])
  | WatchSynthesizing => (act PlaybackCleared (with_world set_not_playing s), [WatchClearing])
  end.

(** The positive answer of a voicemail check. *)
Definition voicemail_answered (r : reply) (now : Q) (s : state) : state * list pc :=
  let '(h, found) := background_check r (voicemail_handler (wd s)) in
  let s := with_world (set_voicemail h) s in
  if found then process_call_hangup false now (with_world (set_detail VOICEMAIL_DETECTED) s) else (s, []).

(** What can happen to a call: a task goes on, a task is cancelled or its await
    raises, or another part of the call enters the lifecycle or writes its own
    state. *)
Inductive event :=
| Resume (i : nat) (now : Q)
| Kill (i : nat)
| World (w : world)
| Hangup (in_llm : bool) (now : Q)
| EndConversation (in_llm : bool)
| EnterHangup (now : Q)
| EndCall (b : bool)
| GoodbyeMark
| VoicemailAnswered (r : reply) (now : Q).

Definition splice (i : nat) (ps ts : list pc) : list pc := take i ts ++ ps ++ drop (S i) ts.
Definition add_threads (sp : state * list pc) : state :=
  let '(s, ps) := sp in mkState (fl s) (wd s) (log s) (threads s ++ ps).

Definition exec (e : event) (s : state) : state :=
  match e with
  | Resume i now =>
      match threads s !! i with
      | None => s
      | Some p => let '(s', ps) := resume now p s in mkState (fl s') (wd s') (log s') (splice i ps (threads s))
      end
  | Kill i => mkState (fl s) (wd s) (log s) (delete i (threads s))
  | World w => mkState (fl s) w (log s) (threads s)
  | Hangup in_llm now => add_threads (process_call_hangup in_llm now s)
  | EndConversation in_llm => add_threads (process_end_of_conversation false in_llm s)
  | EnterHangup now => enter_hangup_state now s
  | EndCall b => with_flags (mark_end_call b) s
  | GoodbyeMark => add_threads (process_end_of_conversation false false (with_world set_hangup_sent s))
  | VoicemailAnswered r now => add_threads (voicemail_answered r now s)
  end.
Definition run (es : list event) (s : state) : state := fold_left (fun s e => exec e s) es s.

(** [CallLifecycle.__init__], with the watchdog started. *)
Definition no_flags : flags := mkFlags false None None false false false false false false.
Definition start (w : world) : state := mkState no_flags w [] [WatchSleeping].

(** ** Order and multiplicity of what is done to the call *)

(** The place of an action in the teardown, and the place a teardown task has
    reached; likewise for the goodbye. *)
Definition teardown_rank (a : action) : option nat :=
  match a with
  | GoodbyeRecorded _ => Some 0%nat | LlmCancelled => Some 1%nat | EndOfStreamFlushed => Some 2%nat | OutputClosed => Some 3%nat
  | InputStopped => Some 4%nat | TranscriberToggled => Some 5%nat | VoicemailCancelled => Some 6%nat | _ => None
  end.
Definition teardown_place (p : pc) : option nat :=
  match p with
  | EndWaiting _ _ | EndPolling _ _ => Some 0%nat | EndFlushing _ => Some 3%nat | EndStopping _ => Some 5%nat
  | EndToggling _ | EndSettling _ => Some 6%nat | _ => None
  end.
Definition goodbye_rank (a : action) : option nat :=
  match a with CleanedDownstream => Some 0%nat | GoodbyeSynthesized _ => Some 1%nat | _ => None end.
Definition goodbye_place (p : pc) : option nat :=
  match p with HangupWaiting _ => Some 0%nat | HangupCleaning _ => Some 1%nat | HangupSynthesizing => Some 2%nat | _ => None end.

(** One lane: its actions in strict order, at most one task in it, the task ahead
    of every action done, and nothing before it is started. *)
Definition lane (rank : action -> option nat) (place : pc -> option nat) (started : bool) (l : list action) (ts : list pc) : Prop :=
  StronglySorted lt (omap rank l) /\ (length (omap place ts) <= 1)%nat /\
  (started = false -> omap rank l = [] /\ omap place ts = []) /\
  (forall b r, b ∈ omap place ts -> r ∈ omap rank l -> (r < b)%nat).

(** What a task at place [p] may do to its lane until its next await. *)
Definition legal (rank : action -> option nat) (place : pc -> option nat) (before after : bool) (p : option nat)
    (l : list action) (ps : list pc) : Prop :=
  match p with
  | None => omap rank l = [] /\ (omap place ps = [] /\ (before = true -> after = true) \/
                                 before = false /\ after = true /\ omap place ps = [0%nat])
  | Some b => after = before /\ StronglySorted lt (omap rank l) /\ Forall (fun r => b <= r)%nat (omap rank l) /\
              (omap place ps = [] \/ exists b', omap place ps = [b'] /\ (b <= b')%nat /\ Forall (fun r => r < b')%nat (omap rank l))
  end.

Lemma sorted_app l1 l2 :
  StronglySorted lt l1 -> StronglySorted lt l2 -> (forall x y, x ∈ l1 -> y ∈ l2 -> (x < y)%nat) -> StronglySorted lt (l1 ++ l2).
Proof.
  intros H1 H2 H. induction l1 as [|a l1 IH]; [done|]. simpl. apply StronglySorted_inv in H1 as [H1 Ha]. constructor.
  - apply IH; [done|]. intros x y Hx. apply H. by right.
  - apply Forall_app. split; [done|]. apply Forall_forall. intros y Hy. apply H; [left|done].
Qed.

Lemma omap_first {A B} (f : A -> option B) (x : A) l : omap f (x :: l) = match f x with Some b => b :: omap f l | None => omap f l end.
Proof. done. Qed.

Lemma lane_step rank place before after l ts l1 p l2 l' ps :
  ts = l1 ++ p :: l2 -> lane rank place before l ts -> legal rank place before after (place p) l' ps ->
  lane rank place after (l ++ l') (l1 ++ ps ++ l2).
Proof.
  intros -> (Hs & Hn & Hf & Hlt) Hl. unfold lane. rewrite !omap_app, omap_first in *. destruct (place p) as [b|] eqn:Ep; simpl in Hl.
  - destruct Hl as (-> & Hs' & Hge & Hbs). rewrite length_app in Hn. simpl in Hn.
    assert (omap place l1 = []) as E1 by (apply length_zero_iff_nil; lia).
    assert (omap place l2 = []) as E2 by (apply length_zero_iff_nil; lia).
    rewrite E1, E2, app_nil_r in *. simpl in *. rewrite Forall_forall in Hge.
    assert (forall r, r ∈ omap rank l -> (r < b)%nat) as Hb by (intros r Hr; apply Hlt; [left|done]).
    split_and!.
    + apply sorted_app; [done..|]. intros x y Hx Hy. specialize (Hb x Hx). specialize (Hge y Hy). lia.
    + destruct Hbs as [->|(b' & -> & _)]; simpl; lia.
    + intros ->. by destruct Hf.
    + intros b' r Hb' Hr. destruct Hbs as [Hbs|(b'' & Hbs & Hle & Hr')]; rewrite Hbs in Hb'; [by apply elem_of_nil in Hb'|].
      apply list_elem_of_singleton in Hb' as ->. rewrite Forall_forall in Hr'. apply elem_of_app in Hr as [Hr|Hr]; [|by apply Hr'].
      specialize (Hb r Hr). lia.
  - destruct Hl as (-> & Hbs). rewrite app_nil_r. destruct Hbs as [[-> Hm]|(-> & -> & ->)]; simpl.
    + split_and!; [done..| |done]. intros ->. destruct before; [by specialize (Hm eq_refl)|]. by apply Hf.
    + destruct (Hf eq_refl) as [E1 E2]. rewrite E1. apply app_eq_nil in E2 as [E2 E3]. rewrite E2, E3. split_and!; [constructor|simpl; lia|done|].
      intros b r _ Hr. by apply elem_of_nil in Hr.
Qed.

Lemma lane_spawn rank place before after l ts l' ps :
  lane rank place before l ts -> legal rank place before after None l' ps -> lane rank place after (l ++ l') (ts ++ ps).
Proof.
  intros H Hl. (* a finished task at the end of the list *)
  destruct H as (Hs & Hn & Hf & Hlt). destruct Hl as (Hr & Hbs). unfold lane. rewrite !omap_app, Hr, app_nil_r.
  destruct Hbs as [[-> Hm]|(-> & -> & ->)].
  - rewrite app_nil_r. split_and!; [done..| |done]. intros ->. destruct before; [by specialize (Hm eq_refl)|]. by apply Hf.
  - destruct (Hf eq_refl) as [E1 E2]. rewrite E1, E2. split_and!; [constructor|simpl; lia|done|]. intros b r _ H. by apply elem_of_nil in H.
Qed.

Lemma lane_kill rank place started l ts i : lane rank place started l ts -> lane rank place started l (delete i ts).
Proof.
  intros (Hs & Hn & Hf & Hlt). assert (sublist (omap place (delete i ts)) (omap place ts)) as Hsub.
  { clear. revert i. induction ts as [|t ts IH]; intros [|i]; simpl; try done.
    - by destruct (place t); [apply sublist_cons|].
    - destruct (place t); [by constructor|done]. }
  split_and!; [done| | |].
  - apply sublist_length in Hsub. lia.
  - intros H. destruct (Hf H) as [? E]. split; [done|]. rewrite E in Hsub. by apply sublist_nil_r in Hsub.
  - intros b r Hb. apply Hlt. by eapply elem_of_sublist.
Qed.

(** Both lanes at once, for the state a resumption or an event leaves. *)
Definition moves (s : state) (p : option pc) (sp : state * list pc) : Prop :=
  let '(s', ps) := sp in
  exists l, log s' = log s ++ l /\ threads s' = threads s /\
    legal teardown_rank teardown_place (end_of_conversation_in_progress (fl s)) (end_of_conversation_in_progress (fl s'))
      (p ≫= teardown_place) l ps /\
    legal goodbye_rank goodbye_place (hangup_processing (fl s)) (hangup_processing (fl s')) (p ≫= goodbye_place) l ps.

Local Ltac legal_lane :=
  unfold legal; simpl;
  first [ split; [done|]; left; split; [done|intros; congruence]
        | split; [done|]; right; split_and!; done
        | split_and!; [done|repeat constructor; lia|repeat constructor; lia|
            first [ by left | right; eexists; split_and!; [reflexivity|lia|repeat constructor; lia] ] ] ].
Local Ltac still := exists []; refine (conj _ (conj _ (conj _ _))); [by rewrite app_nil_r|done|legal_lane|legal_lane].
Local Ltac acted := eexists; refine (conj _ (conj _ (conj _ _))); [by rewrite <- ?app_assoc|done|legal_lane|legal_lane].

(** A task outside both lanes, or none. *)
Definition outside (p : option pc) : Prop := p ≫= teardown_place = None /\ p ≫= goodbye_place = None.

Lemma moves_world f s p s' ps : moves s p (s', ps) -> moves (with_world f s) p (s', ps).
Proof. done. Qed.

Lemma end_moves web in_llm p s : outside p -> moves s p (process_end_of_conversation web in_llm s).
Proof.
  intros [H1 H2]. unfold moves, process_end_of_conversation, after_end. rewrite H1, H2.
  destruct (end_of_conversation_in_progress (fl s)) eqn:Ep; simpl; [|destruct (conversation_ended (fl s)); simpl];
    destruct web; simpl; rewrite ?Ep; still.
Qed.

Lemma hangup_moves in_llm now p s : outside p -> moves s p (process_call_hangup in_llm now s).
Proof.
  intros Ho. pose proof Ho as [H1 H2]. unfold process_call_hangup. simpl.
  destruct (hangup_processing (fl s)) eqn:Ep; simpl; [|destruct (conversation_ended (fl s)) eqn:Ee; simpl].
  1,2: unfold moves; simpl; rewrite H1, H2, Ep; still.
  assert (forall q, moves s p (process_end_of_conversation false in_llm
            (with_flags (fun f => mark_triggered_at now (mark_queued q f)) (with_flags mark_processing (with_flags (mark_decided now) s))))) as He.
  { intros q. unfold moves, process_end_of_conversation. simpl. rewrite H1, H2, Ep, Ee.
    destruct (end_of_conversation_in_progress (fl s)) eqn:Ei; simpl; rewrite ?Ei; still. }
  destruct (is_s2s cfg); [apply He|]. destruct (spoken _); [|apply He].
  unfold moves. simpl. rewrite H1, H2, Ep. still.
Qed.

Lemma after_goodbye_moves reason now p s : outside p -> moves s p (hangup_after_goodbye reason now s).
Proof.
  intros Ho. unfold hangup_after_goodbye. destruct (spoken _); [destruct (is_s2s cfg)|]; try by apply (hangup_moves false now p (with_world (set_detail reason) s)).
  destruct Ho as [H1 H2]. unfold moves. simpl. rewrite H1, H2. acted.
Qed.

Lemma watch_moves now p s : outside p -> moves s p (check_for_completion now s).
Proof.
  intros Ho. pose proof Ho as [H1 H2]. unfold check_for_completion.
  assert (forall ps, omap teardown_place ps = [] -> omap goodbye_place ps = [] -> moves s p (s, ps)) as Hidle.
  { intros ps E1 E2. unfold moves. rewrite H1, H2. exists []. rewrite app_nil_r. unfold legal. rewrite E1, E2. by split_and!; auto. }
  destruct (max_call_duration_s _); [|by apply Hidle].
  destruct (watch_verdict _ _ _); try (by apply Hidle); try (by apply end_moves); try (by apply after_goodbye_moves).
  - destruct (has_output cfg); [|by apply end_moves]. by apply (end_moves false false p (with_world set_hangup_sent s)).
  - unfold moves. simpl. rewrite H1, H2. acted.
  - destruct (check_if_user_online cfg); [destruct (is_s2s cfg)|];
      unfold moves; simpl; rewrite H1, H2; acted.
Qed.

Lemma close_moves web in_llm p s :
  teardown_place p = Some 0%nat -> goodbye_place p = None -> moves s (Some p) (close_conversation web in_llm s).
Proof.
  intros H1 H2. unfold moves, close_conversation, stop_io. simpl. rewrite H1, H2.
  destruct (hangup_message_queued (fl s)), web; simpl; destruct (running (llm_task (wd s))); simpl; destruct in_llm; simpl;
    destruct (turn_based_conversation cfg), (has_output cfg); simpl; acted.
Qed.

Lemma poll_moves web in_llm p s :
  teardown_place p = Some 0%nat -> goodbye_place p = None -> moves s (Some p) (poll_goodbye web in_llm s).
Proof.
  intros H1 H2. unfold poll_goodbye. destruct (_ && _); [|by apply close_moves]. destruct (hangup_sent (wd s)) as [[]|]; try by apply close_moves.
  unfold moves. simpl. rewrite H1, H2. still.
Qed.

Lemma finish_moves web p s :
  teardown_place p = Some 5%nat \/ teardown_place p = Some 6%nat -> goodbye_place p = None -> moves s (Some p) (finish_end web s).
Proof.
  intros H1 H2. unfold moves, finish_end, after_end. simpl. rewrite H2.
  destruct H1 as [H1|H1]; rewrite H1; destruct (in_progress _), web; simpl; (acted || still).
Qed.

Lemma resume_moves now p s : moves s (Some p) (resume now p s).
Proof.
  destruct p; cbn [resume]; try (by apply poll_moves); try (unfold moves; simpl; acted); try (unfold moves; simpl; still).
  - unfold moves, stop_io. destruct (has_output cfg); simpl; acted.
  - unfold toggle_transcriber. destruct (_ && _); [unfold moves; simpl; acted|]. apply finish_moves; auto.
  - apply finish_moves; auto.
  - destruct (_ && _); [|unfold moves; simpl; still]. by apply (hangup_moves false now (Some GoodbyeTimer) (with_world (set_s2s_hangup false) s)).
  - by apply watch_moves.
Qed.

(** The invariant of every run. *)
Definition orderly (s : state) : Prop :=
  lane teardown_rank teardown_place (end_of_conversation_in_progress (fl s)) (log s) (threads s) /\
  lane goodbye_rank goodbye_place (hangup_processing (fl s)) (log s) (threads s).

Lemma spawn_orderly s sp : moves s None sp -> orderly s -> orderly (add_threads sp).
Proof.
  destruct sp as [s' ps]. intros (l & Hl & Ht & H1 & H2) [L1 L2]. unfold orderly. simpl. rewrite Hl, Ht.
  split; by eapply lane_spawn.
Qed.

Lemma exec_orderly e s : orderly s -> orderly (exec e s).
Proof.
  intros H. destruct e; simpl.
  - destruct (threads s !! i) as [p|] eqn:Ep; [|done]. pose proof (resume_moves now p s) as Hm.
    destruct (resume now p s) as [s' ps]. destruct Hm as (l & Hl & _ & H1 & H2). destruct H as [L1 L2].
    unfold orderly. simpl. rewrite Hl. unfold splice.
    split; eapply lane_step; try done; by rewrite take_drop_middle.
  - destruct H. split; by apply lane_kill.
  - done.
  - apply (spawn_orderly s); [by apply hangup_moves|done].
  - apply (spawn_orderly s); [by apply end_moves|done].
  - done.
  - done.
  - apply (spawn_orderly s); [|done]. by apply (end_moves false false None (with_world set_hangup_sent s)).
  - apply (spawn_orderly s); [|done]. unfold voicemail_answered. destruct (background_check _ _) as [h []].
    + by apply (hangup_moves false now None (with_world (set_detail VOICEMAIL_DETECTED) (with_world (set_voicemail h) s))).
    + unfold moves. simpl. still.
Qed.

Lemma run_orderly es : forall s, orderly s -> orderly (run es s).
Proof. induction es as [|e es IH]; intros s H; [done|]. by apply IH, exec_orderly. Qed.

Lemma start_orderly w : orderly (start w).
Proof. split; (split_and!; [constructor|simpl; lia|done|intros b r Hb; by apply elem_of_nil in Hb]). Qed.

(** C34: However the tasks, the events and the cancellations interleave: the teardown
    and the goodbye are each done in one order, no action of theirs twice, by one
    task at a time, and not at all before they are entered. *)
Theorem teardown_once es w :
  let s := run es (start w) in
  StronglySorted lt (omap teardown_rank (log s)) /\ StronglySorted lt (omap goodbye_rank (log s)) /\
  (length (omap teardown_place (threads s)) <= 1)%nat /\ (length (omap goodbye_place (threads s)) <= 1)%nat /\
  (end_of_conversation_in_progress (fl s) = false -> omap teardown_rank (log s) = []) /\
  (hangup_processing (fl s) = false -> omap goodbye_rank (log s) = []).
Proof.
  intros s. destruct (run_orderly es _ (start_orderly w)) as [(A1 & A2 & A3 & _) (B1 & B2 & B3 & _)]. fold s in A1, A2, A3, B1, B2, B3.
  split_and!; try done; intros H; [by apply A3|by apply B3].
Qed.

(** ** The teardown waits for the goodbye *)

Definition ended (s : state) : bool := conversation_ended (fl s).

Lemma process_end_ended web in_llm s : ended (fst (process_end_of_conversation web in_llm s)) = ended s.
Proof. unfold process_end_of_conversation, after_end. by repeat case_match. Qed.

Lemma hangup_ended in_llm now s : ended (fst (process_call_hangup in_llm now s)) = ended s.
Proof. unfold process_call_hangup. simpl. repeat case_match; try done; by rewrite process_end_ended. Qed.

Lemma after_goodbye_ended r now s : ended (fst (hangup_after_goodbye r now s)) = ended s.
Proof. unfold hangup_after_goodbye. repeat case_match; try done; by rewrite hangup_ended. Qed.

Lemma watch_ended now s : ended (fst (check_for_completion now s)) = ended s.
Proof.
  unfold check_for_completion. destruct (max_call_duration_s _); [|done].
  destruct (watch_verdict _ _ _); try done; try apply process_end_ended; try apply after_goodbye_ended; try by repeat case_match.
  rewrite process_end_ended. by case_match.
Qed.

Definition awaits_goodbye (p : pc) : Prop := exists web in_llm, p = EndWaiting web in_llm \/ p = EndPolling web in_llm.

Lemma resume_ended now p s : awaits_goodbye p \/ ended (fst (resume now p s)) = ended s.
Proof.
  destruct p; try (left; eexists _, _; eauto; done); right; cbn [resume]; try done.
  - unfold stop_io. by case_match.
  - unfold toggle_transcriber, finish_end, after_end. by repeat case_match.
  - unfold finish_end, after_end. by repeat case_match.
  - case_match; [|done]. by rewrite hangup_ended.
  - apply watch_ended.
Qed.

Lemma ended_spawn sp : ended (add_threads sp) = ended (fst sp).
Proof. by destruct sp. Qed.

(** A conversation ends only by the teardown task, when it finds that no goodbye is
    queued, that its last chunk was sent, or that the output cannot tell. *)
Theorem teardown_waits e s :
  ended s = false -> ended (exec e s) = true ->
  (hangup_triggered (fl s) && hangup_message_queued (fl s) = true -> hangup_sent (wd s) <> Some false) /\
  exists i now p, e = Resume i now /\ threads s !! i = Some p /\ awaits_goodbye p.
Proof.
  intros Hs. destruct e; cbn [exec]; try (unfold ended in *; simpl; congruence).
  - destruct (threads s !! i) as [p|] eqn:Ep; [|by rewrite Hs]. destruct (resume_ended now p s) as [Ha|He].
    + intros He. split; [|by exists i, now, p]. intros Hq Hno. destruct Ha as (web & in_llm & [->| ->]); cbn [resume] in He;
        unfold poll_goodbye in He; rewrite Hq, Hno in He; unfold ended in *; simpl in He; congruence.
    + destruct (resume now p s) as [s' ps]. unfold ended in *. simpl in *. congruence.
  - rewrite ended_spawn, hangup_ended. congruence.
  - rewrite ended_spawn, process_end_ended. congruence.
  - rewrite ended_spawn, process_end_ended. unfold ended in *. simpl. congruence.
  - rewrite ended_spawn. unfold voicemail_answered. destruct (background_check _ _) as [h []]; [rewrite hangup_ended|]; unfold ended in *; simpl; congruence.
Qed.

(** ** The watchdog as the backstop of the goodbye *)

Lemma resume_at k now p s s' ps : threads s !! k = Some p -> resume now p s = (s', ps) ->
  exec (Resume k now) s = mkState (fl s') (wd s') (log s') (splice k ps (threads s)).
Proof. intros H1 H2. simpl. by rewrite H1, H2. Qed.

Lemma splice_at k p ps ts : ts !! k = Some p -> (splice k ps ts) !! k = head (ps ++ drop (S k) ts).
Proof.
  intros H. unfold splice. assert (k < length ts)%nat by (by eapply lookup_lt_Some).
  rewrite lookup_app_r by (rewrite length_take; lia). rewrite length_take, Nat.min_l, Nat.sub_diag by lia. by destruct (ps ++ _).
Qed.

Definition hung_up (s : state) : Prop := ended s = true /\ InputStopped ∈ log s.

Lemma resume_keeps now p s : exists l, log (fst (resume now p s)) = log s ++ l.
Proof. pose proof (resume_moves now p s) as H. destruct (resume now p s) as [s' ps]. destruct H as (l & H & _). by exists l. Qed.

Lemma resume_hung_up k now s : hung_up s -> hung_up (exec (Resume k now) s).
Proof.
  intros [H1 H2]. simpl. destruct (threads s !! k) as [p|]; [|done].
  destruct (resume_keeps now p s) as [l Hl]. pose proof (resume_ended now p s) as He.
  destruct (resume now p s) as [s' ps] eqn:Er. simpl in *. split; simpl; [|rewrite Hl; set_solver].
  destruct He as [(web & in_llm & Hp)|He]; [|unfold ended in *; simpl; congruence].
  destruct Hp as [-> | ->]; cbn [resume] in Er; unfold poll_goodbye, close_conversation, stop_io in Er;
    unfold ended in *; repeat case_match; simplify_eq; simpl; done.
Qed.

(** With the goodbye known as sent, two resumptions of the teardown hang up. *)
Lemma teardown_hangs_up k p n1 n2 s :
  threads s !! k = Some p -> awaits_goodbye p -> hangup_sent (wd s) = Some true -> hung_up (run [Resume k n1; Resume k n2] s).
Proof.
  intros Hk (web & in_llm & Hp) Hsent. unfold run. cbn [fold_left].
  assert (resume n1 p s = close_conversation web in_llm s) as Hr.
  { destruct Hp as [-> | ->]; cbn [resume]; unfold poll_goodbye; rewrite Hsent; by case_match. }
  destruct (close_conversation web in_llm s) as [s1 ps] eqn:Ec.
  rewrite (resume_at k n1 p s s1 ps Hk Hr). unfold close_conversation in Ec.
  set (sa := with_flags mark_ended _) in Ec. set (sb := if running _ then _ else _) in Ec.
  assert (ended sb = true) as Hsb by (unfold sb; by repeat case_match).
  clearbody sb. destruct (_ && _) in Ec; simplify_eq.
  - pose proof (splice_at k p [EndFlushing web] (threads s) Hk) as Hs. simpl in Hs |- *. rewrite Hs. cbn [resume].
    unfold stop_io. destruct (has_output cfg); split; simpl; try done; set_solver.
  - apply resume_hung_up. unfold stop_io in Ec. destruct (has_output cfg) in Ec; simplify_eq; split; simpl; try done; set_solver.
Qed.

(** C35: While the watchdog sleeps on a call in its hang-up (audio was transmitted, the
    duration cap is not reached), the tick that finds the goodbye's mark overdue
    leaves a teardown that hangs up at its next resumptions, whether it was already
    waiting or starts now. *)
Theorem goodbye_backstop s i now cap t :
  threads s !! i = Some WatchSleeping -> max_call_duration_s (task_config cfg) = Ok cap -> over_cap cap now = false ->
  Qeq_bool (last_transmitted_timestamp (wd s)) 0 = false -> has_output cfg = true ->
  hangup_triggered (fl s) = true -> ended s = false -> hangup_triggered_at (fl s) = Some t -> Qeq_bool t 0 = false ->
  Qltb (hangup_mark_event_timeout cfg) (now - t) = true ->
  (end_of_conversation_in_progress (fl s) = true -> exists j p, threads s !! j = Some p /\ awaits_goodbye p) ->
  exists k, forall n1 n2, hung_up (run [Resume i now; Resume k n1; Resume k n2] s).
Proof.
  intros Hi Hcap Hover Htx Hout Htr Hend Hat Ht Hdue Hwait. change (conversation_ended (fl s) = false) in Hend.
  assert (watch_verdict cap now s = GoodbyeOverdue) as Hv.
  { unfold watch_verdict. rewrite Hover, !andb_false_r, Htx, Htr, Hend, Hat, Ht, Hdue. done. }
  assert (resume now WatchSleeping s = process_end_of_conversation false false (with_world set_hangup_sent s)) as Hr.
  { cbn [resume]. unfold check_for_completion. by rewrite Hcap, Hv, Hout. }
  unfold process_end_of_conversation in Hr. simpl in Hr. rewrite Hend in Hr.
  destruct (end_of_conversation_in_progress (fl s)) eqn:Ep; simpl in Hr.
  - destruct (Hwait eq_refl) as (j & p & Hj & Ha).
    assert (i <> j) as Hne by (intros ->; rewrite Hi in Hj; destruct Ha as (? & ? & [?|?]); congruence).
    exists (if decide (j < i) then j else j - 1)%nat. intros n1 n2.
    change (hung_up (run [Resume (if decide (j < i)%nat then j else (j - 1)%nat) n1; Resume (if decide (j < i)%nat then j else (j - 1)%nat) n2] (exec (Resume i now) s))).
    apply (teardown_hangs_up _ p); [|done|]; rewrite (resume_at i now _ s _ _ Hi Hr); [|done].
    simpl. unfold splice. simpl. rewrite <- delete_take_drop. destruct (decide (j < i)%nat).
    + by rewrite list_lookup_delete_lt.
    + rewrite list_lookup_delete_ge by lia. by replace (S (j - 1)) with j by lia.
  - exists i. intros n1 n2. change (hung_up (run [Resume i n1; Resume i n2] (exec (Resume i now) s))).
    apply (teardown_hangs_up _ (EndWaiting false false)); [|by eexists _, _; left|]; rewrite (resume_at i now _ s _ _ Hi Hr); [|done].
    simpl. by rewrite (splice_at i _ _ _ Hi).
Qed.

(** What the call's own tasks and the rest of its state can do, as opposed to a new
    entry into the lifecycle. *)
Definition internal (e : event) : Prop := match e with Resume _ _ | Kill _ | World _ => True | _ => False end.

Lemma internal_idle es : forall s, Forall internal es -> threads s = [] -> fl (run es s) = fl s /\ threads (run es s) = [].
Proof.
  induction es as [|e es IH]; intros s He Ht; [done|]. inversion_clear He as [|?? Hi He'].
  change (run (e :: es) s) with (run es (exec e s)).
  assert (fl (exec e s) = fl s /\ threads (exec e s) = []) as [E1 E2].
  { destruct e; try done; simpl; rewrite Ht; [rewrite lookup_nil|]; done. }
  destruct (IH (exec e s) He' E2) as [-> ->]. done.
Qed.

(** The duration cap takes the backstop away: on a telephony call whose goodbye is
    already under way, the tick that finds the cap reached changes none of the
    hang-up's flags and is the watchdog's last. With no other task left, nothing in
    the call ends it any more, however late the goodbye's mark is. *)
Theorem cap_loses_backstop s now c es :
  threads s = [WatchSleeping] -> max_call_duration_s (task_config cfg) = Ok (Some c) -> over_cap (Some c) now = true ->
  is_web_based_call cfg = false -> is_s2s cfg = false ->
  hangup_processing (fl s) = true -> hangup_decision_at (fl s) <> None -> ended s = false -> Forall internal es ->
  let s' := run es (exec (Resume 0 now) s) in fl s' = fl s /\ threads s' = [] /\ ended s' = false.
Proof.
  intros Ht Hcap Hover Hweb Hs2s Hp Hd He Hes s'. unfold ended.
  assert (exists s1, resume now WatchSleeping s = (s1, []) /\ fl s1 = fl s) as (s1 & Hr & Hfl).
  { cbn [resume]. unfold check_for_completion. rewrite Hcap. unfold watch_verdict. rewrite Hweb, Hover. simpl.
    unfold hangup_after_goodbye, process_call_hangup. rewrite Hs2s. simpl. rewrite Hp. simpl.
    destruct (fl s) as [a b [d|] p q e ip ec ea] eqn:Ef; [|done].
    destruct (spoken _); (eexists; split; [done|simpl; by rewrite Ef]). }
  assert (exec (Resume 0 now) s = mkState (fl s1) (wd s1) (log s1) []) as Hx.
  { rewrite (resume_at 0 now WatchSleeping s s1 []); [by rewrite Ht|by rewrite Ht|done]. }
  unfold s'. rewrite Hx. destruct (internal_idle es (mkState (fl s1) (wd s1) (log s1) []) Hes eq_refl) as [-> ->]. simpl.
  rewrite Hfl. done.
Qed.

(** ** When the watchdog gives a silent call up *)

(** The agent was not heard, and the caller not recognized, for [q] seconds. *)
Definition silent_for (q now : Q) (w : world) : Prop :=
  (last_transmitted_timestamp w + q < now)%Q /\ (audio_playing_until w + q < now)%Q /\
  ((0 < last_spoken_human_word w)%Q -> (last_spoken_human_word w + q < now)%Q).

Lemma both_silent_spec q now w : (0 <= q)%Q -> both_silent q now w = true <-> silent_for q now w.
Proof.
  intros Hq. unfold both_silent, silent_for, ai_silence, compute_last_ai_audio_timestamp, user_silence, longer, Qmaxq, Qminq.
  rewrite andb_true_iff, Qltb_lt.
  destruct (Qle_bool now (audio_playing_until w)) eqn:E1; destruct (Qle_bool _ (last_transmitted_timestamp w)) eqn:E2;
    destruct (Qltb 0 (last_spoken_human_word w)) eqn:E3; qbool; rewrite ?Qltb_lt;
    (split; [intros [H1 H2]|intros (H1 & H2 & H3)]); split_and!; try done; try lra; intros; try lra; specialize (H3 ltac:(done)); lra.
Qed.

Lemma silent_weaken q q' now w : silent_for q now w -> (q' <= q)%Q -> silent_for q' now w.
Proof. intros (S1 & S2 & S3) Hq. unfold silent_for. split_and!; [lra..|]. intros H. specialize (S3 H). lra. Qed.

(** Outside a hang-up and under the cap, a tick hangs a silent call up exactly
    when the inactivity limit is on, no agent audio plays, and both sides were
    silent past it, with either nothing in flight and the stall floor passed too
    (whatever the pipeline flags say), or an idle pipeline and no silence prompt
    due. *)
Theorem inactivity_exact cap now s :
  over_cap cap now = false -> Qeq_bool (last_transmitted_timestamp (wd s)) 0 = false -> hangup_triggered (fl s) = false ->
  let w := wd s in
  (watch_verdict cap now s = Stalled \/ watch_verdict cap now s = Inactive <->
   (0 < hang_conversation_after cfg)%Q /\ audio_being_played w = false /\ silent_for (hang_conversation_after cfg) now w /\
   (has_pending_generation w = false /\ silent_for STALL_HANGUP_FLOOR_S now w \/
    response_in_pipeline w = false /\ synthesis_awaiting_first_audio w = false /\ silence_due now w = false)).
Proof.
  intros Hcap Htx Htr w. unfold watch_verdict. fold w. rewrite Hcap, !andb_false_r, Htr. unfold w. rewrite Htx. fold w.
  set (h := hang_conversation_after cfg).
  assert (should_stall_hangup now w = true <->
    (0 < h)%Q /\ audio_being_played w = false /\ has_pending_generation w = false /\ silent_for h now w /\ silent_for STALL_HANGUP_FLOOR_S now w) as Hst.
  { unfold should_stall_hangup. fold h. destruct (Qle_bool h 0) eqn:Eh; qbool; [split; [done|intros (? & _); lra]|].
    rewrite !andb_true_iff, !negb_true_iff. rewrite both_silent_spec by (unfold STALL_HANGUP_FLOOR_S, Qmaxq; case_match; lra).
    pose proof (Qmaxq_l h STALL_HANGUP_FLOOR_S) as M1. pose proof (Qmaxq_r h STALL_HANGUP_FLOOR_S) as M2.
    assert (Qmaxq h STALL_HANGUP_FLOOR_S = h \/ Qmaxq h STALL_HANGUP_FLOOR_S = STALL_HANGUP_FLOOR_S) as M by (unfold Qmaxq; case_match; auto).
    split.
    - intros [[Ha Hp] S]. refine (conj Eh (conj Ha (conj Hp (conj _ _)))); by eapply silent_weaken.
    - intros (_ & Ha & Hp & S1 & S2). refine (conj (conj Ha Hp) _). by destruct M as [-> | ->]. }
  destruct (should_stall_hangup now w) eqn:Es.
  { destruct Hst as [Hst _]. destruct (Hst eq_refl) as (? & ? & ? & ? & ?). split; [|by left]. intros _. split_and!; try done. by left. }
  assert (~ ((0 < h)%Q /\ audio_being_played w = false /\ has_pending_generation w = false /\ silent_for h now w /\ silent_for STALL_HANGUP_FLOOR_S now w)) as Hno
    by (intros H; by apply Hst in H).
  unfold pipeline_busy. destruct (audio_being_played w); simpl; [split; [by intros [?|?]|by intros (_ & ? & _)]|].
  destruct (response_in_pipeline w); simpl.
  { split; [by intros [?|?]|]. intros (H1 & H2 & H3 & [[? ?]|[? _]]); [|done]. exfalso; apply Hno. by split_and!. }
  destruct (synthesis_awaiting_first_audio w); simpl.
  { split; [by intros [?|?]|]. intros (H1 & H2 & H3 & [[? ?]|[_ [? _]]]); [|done]. exfalso; apply Hno. by split_and!. }
  destruct (silence_due now w).
  { split; [by intros [?|?]|]. intros (H1 & H2 & H3 & [[? ?]|[_ [_ ?]]]); [|done]. exfalso; apply Hno. by split_and!. }
  destruct (Qltb 0 h) eqn:Eh; simpl; qbool.
  - destruct (both_silent h now w) eqn:Eb.
    + apply both_silent_spec in Eb; [|lra]. split; [intros _|by right]. refine (conj Eh (conj eq_refl (conj Eb _))). by right.
    + split; [intros [H|H]; by destruct (_ && _) in H|]. intros (_ & _ & H & _). apply both_silent_spec in H; [congruence|lra].
  - split; [intros [H|H]; by destruct (_ && _) in H|]. intros (? & _). lra.
Qed.
End operations.

Module Example.
(** A telephony call with a ten-minute cap; the clock starts at 1000. *)
Definition cfg : config :=
  mkConfig (VDict [("task_config", VDict [("call_terminate", VInt 600)])]) false false false true true
    (Qmake 1000 1) (Qmake 30 1) (Qmake 10 1) 0 (Qmake 10 1) true.
Definition quiet : world :=
  mkWorld (init true true (Qmake 7 1) 7 (Qmake 30 1)) (Interruption.init 3 [] 100 100 100) (Some "Goodbye!") (Some false) None None []
    (Qmake 1500 1) (Qmake 1400 1) false false false false (Qmake 1510 1) None false.
(** The goodbye is spoken at [t] and its mark never comes back. *)
Definition saying_goodbye (t : Q) : state :=
  run cfg [Hangup false t; Resume 1 t; Resume 1 t; Resume 1 t] (start quiet).

Lemma teardown_waits_witness :
  let s := exec cfg GoodbyeMark (saying_goodbye (Qmake 1580 1)) in
  ended (exec cfg (Resume 1 (Qmake 1582 1)) s) = true /\ hangup_sent (wd s) <> Some false.
Proof.
  intros s. destruct (teardown_waits cfg (Resume 1 (Qmake 1582 1)) s) as [H _]; [by vm_compute..|].
  split; [by vm_compute|]. apply H. by vm_compute.
Defined.

(** Eleven seconds later, under the cap, the watchdog ends the call. *)
Lemma goodbye_backstop_witness :
  exists k, forall n1 n2, hung_up (run cfg [Resume 0 (Qmake 1591 1); Resume k n1; Resume k n2] (saying_goodbye (Qmake 1580 1))).
Proof.
  apply (goodbye_backstop cfg (saying_goodbye (Qmake 1580 1)) 0 (Qmake 1591 1) (Some (Fin (Qmake 600 1))) (Qmake 1580 1)); try by vm_compute.
Defined.

(** Spoken three seconds before the cap, it is never ended, whatever time passes. *)
Lemma cap_loses_backstop_witness :
  let s := saying_goodbye (Qmake 1597 1) in
  let s' := run cfg [World quiet; Resume 0 (Qmake 9000 1)] (exec cfg (Resume 0 (Qmake 1601 1)) s) in
  hangup_triggered (fl s') = true /\ ended s' = false /\ threads s' = [].
Proof.
  destruct (cap_loses_backstop cfg (saying_goodbye (Qmake 1597 1)) (Qmake 1601 1) (Fin (Qmake 600 1))
              [World quiet; Resume 0 (Qmake 9000 1)]) as (H1 & H2 & H3); [by vm_compute..|by repeat constructor|].
  cbv zeta. rewrite H1, H2, H3. split_and!; reflexivity.
Defined.

(** The agent's audio played until 1510 and the caller was last recognized at 1400. *)
Lemma inactivity_exact_witness :
  watch_verdict cfg (Some (Fin (Qmake 600 1))) (Qmake 1550 1) (start quiet) = Stalled /\
  silent_for (Qmake 30 1) (Qmake 1550 1) quiet.
Proof.
  destruct (inactivity_exact cfg (Some (Fin (Qmake 600 1))) (Qmake 1550 1) (start quiet)) as [H _]; [by vm_compute..|].
  assert (watch_verdict cfg (Some (Fin (Qmake 600 1))) (Qmake 1550 1) (start quiet) = Stalled) as Hv by (by vm_compute).
  destruct (H (or_introl Hv)) as (_ & _ & Hs & _). split; [exact Hv|exact Hs].
Defined.
End Example.
End CallLifecycle.
