(* ===== verification/OutputLoop.v ===== *)
(** * The output loop (src/voiceai/modules/voice/session/turn/output_loop.py)

    [process_output_loop]: the decision about each frame of audio and what is done
    with it, over the interruption manager, the language gate and the staged
    history; [enqueue_chunk]; the wait for the playout. A frame is tried again
    until it is sent or dropped; between two tries the other tasks of the call run.
    One reading of each clock is taken per try; the pacing sleep after a frame and
    the frames that end the conversation (Lifecycle) are left out. *)
From S2P Require Import Prelude PyText PyVal History Marks Interruption HistorySync GraphNav LidGate.
From Stdlib Require Import QArith.QArith Lqa.
Close Scope Q_scope.
Open Scope Z_scope.

Module OutputLoop.

Definition STUCK_AUDIO_GATE_RELEASE_S : Q := Qmake 3 1.
Definition NON_NODE_RESPONSE_CATEGORIES : list string :=
  ["is_user_online_message"; "filler"; "backchanneling"; "agent_welcome_message"; "handoff"].

Inductive payload := Bytes (l : list Corelib.Init.Byte.byte) | Text (s : string).
(** A packet of the output queue; the flags are [False] when the key is missing. *)
Record packet := mkPacket {
  data : payload;
  sequence_id : option Z;
  message_category : option string;
  format : option string;
  end_of_llm_stream : bool;
  end_of_synthesizer_stream : bool;
  chunk_id : option Z;
  is_first_chunk : bool;
  is_first_chunk_of_entire_response : bool;
  is_final_chunk_of_entire_response : bool }.

Record blocked_event := mkBlocked { be_sequence_id : Z; be_ts_ms : Q; be_is_audio_playing : bool; be_response_in_pipeline : bool }.
Record recording := mkRecording { rc_data : payload; rc_start_time : Q; rc_duration : Q }.

(** What the loop reads and writes of the session; [played] is what the output
    tool was handed. *)
Record session := mkSession {
  im : Interruption.manager;
  lid : LidGate.session;
  sync : HistorySync.session;
  response_in_pipeline : bool;
  synthesis_awaiting_first_audio : bool;
  audio_being_played : bool;
  turn_audio_flushed : bool;
  asked_if_user_is_still_there : bool;
  blocked_audio_events : list blocked_event;
  agent_end_timestamps : dict Z Q;
  graph_agent : option GraphNav.agent;
  played : list packet;
  recorded : list recording }.

Definition set_im (v : Interruption.manager) (s : session) : session :=
  mkSession v (lid s) (sync s) (response_in_pipeline s) (synthesis_awaiting_first_audio s) (audio_being_played s)
    (turn_audio_flushed s) (asked_if_user_is_still_there s) (blocked_audio_events s) (agent_end_timestamps s)
    (graph_agent s) (played s) (recorded s).
Definition set_lid (v : LidGate.session) (s : session) : session :=
  mkSession (im s) v (sync s) (response_in_pipeline s) (synthesis_awaiting_first_audio s) (audio_being_played s)
    (turn_audio_flushed s) (asked_if_user_is_still_there s) (blocked_audio_events s) (agent_end_timestamps s)
    (graph_agent s) (played s) (recorded s).
Definition set_sync (v : HistorySync.session) (s : session) : session :=
  mkSession (im s) (lid s) v (response_in_pipeline s) (synthesis_awaiting_first_audio s) (audio_being_played s)
    (turn_audio_flushed s) (asked_if_user_is_still_there s) (blocked_audio_events s) (agent_end_timestamps s)
    (graph_agent s) (played s) (recorded s).
Definition set_response_in_pipeline (v : bool) (s : session) : session :=
  mkSession (im s) (lid s) (sync s) v (synthesis_awaiting_first_audio s) (audio_being_played s) (turn_audio_flushed
    s) (asked_if_user_is_still_there s) (blocked_audio_events s) (agent_end_timestamps s) (graph_agent s) (played s)
    (recorded s).
Definition set_synthesis_awaiting_first_audio (v : bool) (s : session) : session :=
  mkSession (im s) (lid s) (sync s) (response_in_pipeline s) v (audio_being_played s) (turn_audio_flushed s)
    (asked_if_user_is_still_there s) (blocked_audio_events s) (agent_end_timestamps s) (graph_agent s) (played s)
    (recorded s).
Definition set_audio_being_played (v : bool) (s : session) : session :=
  mkSession (im s) (lid s) (sync s) (response_in_pipeline s) (synthesis_awaiting_first_audio s) v (turn_audio_flushed
    s) (asked_if_user_is_still_there s) (blocked_audio_events s) (agent_end_timestamps s) (graph_agent s) (played s)
    (recorded s).
Definition set_turn_audio_flushed (v : bool) (s : session) : session :=
  mkSession (im s) (lid s) (sync s) (response_in_pipeline s) (synthesis_awaiting_first_audio s) (audio_being_played
    s) v (asked_if_user_is_still_there s) (blocked_audio_events s) (agent_end_timestamps s) (graph_agent s) (played
    s) (recorded s).
Definition set_asked_if_user_is_still_there (v : bool) (s : session) : session :=
  mkSession (im s) (lid s) (sync s) (response_in_pipeline s) (synthesis_awaiting_first_audio s) (audio_being_played
    s) (turn_audio_flushed s) v (blocked_audio_events s) (agent_end_timestamps s) (graph_agent s) (played s)
    (recorded s).
Definition set_blocked_audio_events (v : list blocked_event) (s : session) : session :=
  mkSession (im s) (lid s) (sync s) (response_in_pipeline s) (synthesis_awaiting_first_audio s) (audio_being_played
    s) (turn_audio_flushed s) (asked_if_user_is_still_there s) v (agent_end_timestamps s) (graph_agent s) (played s)
    (recorded s).
Definition set_agent_end_timestamps (v : dict Z Q) (s : session) : session :=
  mkSession (im s) (lid s) (sync s) (response_in_pipeline s) (synthesis_awaiting_first_audio s) (audio_being_played
    s) (turn_audio_flushed s) (asked_if_user_is_still_there s) (blocked_audio_events s) v (graph_agent s) (played s)
    (recorded s).
Definition set_graph_agent (v : option GraphNav.agent) (s : session) : session :=
  mkSession (im s) (lid s) (sync s) (response_in_pipeline s) (synthesis_awaiting_first_audio s) (audio_being_played
    s) (turn_audio_flushed s) (asked_if_user_is_still_there s) (blocked_audio_events s) (agent_end_timestamps s) v
    (played s) (recorded s).
Definition set_played (v : list packet) (s : session) : session :=
  mkSession (im s) (lid s) (sync s) (response_in_pipeline s) (synthesis_awaiting_first_audio s) (audio_being_played
    s) (turn_audio_flushed s) (asked_if_user_is_still_there s) (blocked_audio_events s) (agent_end_timestamps s)
    (graph_agent s) v (recorded s).
Definition set_recorded (v : list recording) (s : session) : session :=
  mkSession (im s) (lid s) (sync s) (response_in_pipeline s) (synthesis_awaiting_first_audio s) (audio_being_played
    s) (turn_audio_flushed s) (asked_if_user_is_still_there s) (blocked_audio_events s) (agent_end_timestamps s)
    (graph_agent s) (played s) v.

(** ** Audio durations *)

Definition payload_len (p : payload) : Z := match p with Bytes l => Z.of_nat (length l) | Text s => Z.of_nat (str_len s) end.

(** [calculate_audio_duration], sixteen bits and one channel. *)
Definition calculate_audio_duration (size_bytes sampling_rate : Z) (fmt : string) : option Q :=
  let bytes_per_sample := if bool_decide (fmt = "mulaw") || bool_decide (fmt = "ulaw") then 1 else 2 in
  if sampling_rate =? 0 then None else Some (inject_Z size_bytes / inject_Z bytes_per_sample / inject_Z sampling_rate)%Q.

Section loop.
Variable sampling_rate : Z.
Variable should_record : bool.
Variable conversation_start_ms : Q.
(** Which decision tasks of the language gate are done. *)
Variable task_done : nat -> bool.

Definition since_start_ms (now : Q) : Q := py_round 2 (now * 1000 - conversation_start_ms).
Definition frame_duration (m : packet) : option Q :=
  match format m with Some f => calculate_audio_duration (payload_len (data m)) sampling_rate f | None => None end.

Definition is_hangup_message (m : packet) : bool := bool_decide (message_category m = Some "agent_hangup").
Definition end_of_stream (m : packet) : bool := end_of_llm_stream m || end_of_synthesizer_stream m.
Definition is_null_byte (p : payload) : bool := match p with Bytes [Corelib.Init.Byte.x00] => true | _ => false end.
Definition history_length (s : session) : Z := Z.of_nat (History.len (HistorySync.conversation_history (sync s))).

(** The status of a frame: the goodbye is always sent; the language gate only
    downgrades a [SEND]. *)
Definition audio_status (now mono : Q) (m : packet) (s : session) : session * Interruption.audio_status :=
  if is_hangup_message m then (s, Interruption.SEND)
  else
    let st := match sequence_id m with
              | Some q => Interruption.get_audio_send_status now now q (history_length s) (im s)
              | None => Interruption.BLOCK
              end in
    match st with
    | Interruption.SEND =>
        let '(holds, l) := LidGate.lid_playback_gate_holds task_done (sequence_id m) mono now (lid s) in
        (set_lid l s, if holds then Interruption.WAIT else Interruption.SEND)
    | _ => (s, st)
    end.

Definition on_sync (f : Z -> HistorySync.session -> HistorySync.session) (q : option Z) (s : session) : session :=
  match q with Some q => set_sync (f q (sync s)) s | None => s end.
Definition clear_pipeline (s : session) : session := set_synthesis_awaiting_first_audio false (set_response_in_pipeline false s).
Definition play (m : packet) (s : session) : session := set_played (played s ++ [m]) s.

Definition mark_sent (q : Z) (h : HistorySync.session) : HistorySync.session :=
  HistorySync.mkSession (HistorySync.conversation_history h) (HistorySync.mark_event_meta_data h) (HistorySync.input h)
    (HistorySync.turn_msg_map h) (HistorySync.interruption_hint h) (HistorySync.pending_assistant_history h)
    (HistorySync.committed_assistant_sequences h)
    (if bool_decide (q ∈ HistorySync.sent_audio_sequences h) then HistorySync.sent_audio_sequences h
     else q :: HistorySync.sent_audio_sequences h) (HistorySync.blocked_sequences h).
Definition mark_blocked (q : Z) (h : HistorySync.session) : HistorySync.session :=
  HistorySync.mkSession (HistorySync.conversation_history h) (HistorySync.mark_event_meta_data h) (HistorySync.input h)
    (HistorySync.turn_msg_map h) (HistorySync.interruption_hint h) (HistorySync.pending_assistant_history h)
    (HistorySync.committed_assistant_sequences h) (HistorySync.sent_audio_sequences h)
    (q :: HistorySync.blocked_sequences h).

(** The [SEND] branch up to the end of the decision loop. *)
Definition send (now : Q) (m : packet) (s : session) : session :=
  let s := on_sync mark_sent (sequence_id m) s in
  let s := on_sync HistorySync.commit_staged_assistant_history (sequence_id m) s in
  let s := clear_pipeline (set_audio_being_played true s) in
  let s := play m s in
  let s := match sequence_id m, data m with
           | Some q, Bytes _ => if q =? -1 then s else set_im (Interruption.on_agent_speech_started now q (im s)) s
           | _, _ => s
           end in
  match frame_duration m with
  | Some d => if should_record then set_recorded (recorded s ++ [mkRecording (data m) now d]) s else s
  | None => s
  end.

(** What follows a frame that was sent. *)
Definition after_send (now : Q) (m : packet) (s : session) : session :=
  if end_of_stream m
  then
    let s := set_turn_audio_flushed true s in
    let s :=
      if end_of_synthesizer_stream m
      then
        let s := match sequence_id m with
                 | Some q => set_agent_end_timestamps (dset q (since_start_ms now) (agent_end_timestamps s)) s
                 | None => s
                 end in
        let s := set_im (Interruption.on_agent_speech_ended now
                           (Interruption.on_successful_response_delivered (sequence_id m) (im s))) s in
        match graph_agent s with
        | Some a => if bool_decide (default "" (message_category m) ∈ NON_NODE_RESPONSE_CATEGORIES) then s
                    else set_graph_agent (Some (GraphNav.mark_first_response_delivered a)) s
        | None => s
        end
      else s in
    if bool_decide (message_category m = Some "is_user_online_message") then s else set_asked_if_user_is_still_there false s
  else s.

(** The [BLOCK] branch. *)
Definition block (now : Q) (m : packet) (s : session) : session :=
  let s := match sequence_id m with
           | Some q =>
               if bool_decide (q ∈ HistorySync.blocked_sequences (sync s)) then s
               else set_blocked_audio_events (blocked_audio_events s ++
                      [mkBlocked q (since_start_ms now) (audio_being_played s) (response_in_pipeline s)])
                      (set_sync (mark_blocked q (sync s)) s)
           | None => s
           end in
  let s := on_sync HistorySync.drop_staged_assistant_history (sequence_id m) s in
  let s := if is_null_byte (data m) then play m s else s in
  if end_of_stream m then clear_pipeline (set_turn_audio_flushed true s) else s.

(** One try of a frame. [Released] tries again at once, [Held] after 50 ms. *)
Inductive outcome := Sent | Dropped | Held | Released.
Definition attempt (now mono : Q) (m : packet) (s : session) : session * outcome :=
  match audio_status now mono m s with
  | (s, Interruption.SEND) => (after_send now m (send now m s), Sent)
  | (s, Interruption.BLOCK) => (block now m s, Dropped)
  | (s, Interruption.WAIT) =>
      if Qltb STUCK_AUDIO_GATE_RELEASE_S (Interruption.user_speech_staleness_s now (im s))
      then (set_im (Interruption.on_user_speech_ended now false 0 None (im s)) s, Released)
      else (s, Held)
  end.

(** The tries of one frame, each after what the other tasks did meanwhile; what is
    left of the tries is returned. [None]: they ran out before a decision. *)
Record try := mkTry { other_tasks : session -> session; t_now : Q; t_mono : Q }.
Fixpoint deliver (m : packet) (tries : list try) (s : session) : session * option (bool * list try) :=
  match tries with
  | [] => (s, None)
  | t :: rest =>
      match attempt (t_now t) (t_mono t) m (other_tasks t s) with
      | (s', Sent) => (s', Some (true, rest))
      | (s', Dropped) => (s', Some (false, rest))
      | (s', Held) | (s', Released) => deliver m rest s'
      end
  end.

(** Whether the loop delays before it takes the next frame. *)
Definition delays_next (now : Q) (welcome_message_played : bool) (s : session) : bool * Q :=
  Interruption.should_delay_output now welcome_message_played (im s).
End loop.

(** ** Chunks *)

(** [enqueue_chunk]: the packet put on the queue, and the caller's meta info with
    its chunk id. *)
Definition enqueue_chunk (chunk : list Corelib.Init.Byte.byte) (i number_of_chunks : Z) (meta : packet) : packet * packet :=
  let meta := mkPacket (data meta) (sequence_id meta) (message_category meta) (format meta) (end_of_llm_stream meta)
                (end_of_synthesizer_stream meta) (Some i) (is_first_chunk meta) (is_first_chunk_of_entire_response meta)
                (is_final_chunk_of_entire_response meta) in
  let first := if (i =? 0) && is_first_chunk meta then true else is_first_chunk_of_entire_response meta in
  let last := (i =? number_of_chunks - 1) && (bool_decide (sequence_id meta = Some (-1)) || end_of_synthesizer_stream meta) in
  let preloaded := bool_decide (message_category meta = Some "agent_welcome_message") || bool_decide (message_category meta = Some "handoff") in
  (mkPacket (Bytes chunk) (sequence_id meta) (message_category meta) (format meta) (end_of_llm_stream meta)
     (end_of_synthesizer_stream meta) (Some i) (is_first_chunk meta)
     (if preloaded then true else if last then false else first)
     (if preloaded || last then true else is_final_chunk_of_entire_response meta), meta).

(** ** The wait for the playout *)

(** The marks still out, in the order they were sent. *)
Definition live_marks (s : Marks.state) : list Marks.mark := omap (fun '(_, i) => Marks.objects s !! i) (Marks.mark_event_meta_data s).

Definition is_pre_mark (m : Marks.mark) : bool := bool_decide (Marks.mk_type m = Some "pre_mark_message").
Definition text_true (t : option string) : bool := match t with Some t => str_true t | None => false end.

(** The checks of [wait_for_current_message] that end the wait at once. *)
Definition drained (ms : list Marks.mark) : bool :=
  match ms with
  | [] => true
  | first :: rest =>
      (match rest with
       | [] => is_pre_mark first
       | [second] => bool_decide (Marks.mk_type first = Some "agent_hangup") && bool_decide (Marks.mk_text_synthesized first = Some "") &&
                     is_pre_mark second
       | _ => false
       end) ||
      text_true (Marks.mk_text_synthesized first) && bool_decide (Marks.mk_is_final_chunk first = Some true)
  end.

(** The audio time of the marks sent and not yet acknowledged. *)
Definition playing_time (m : Marks.mark) : Q :=
  if negb (is_pre_mark m) && match Marks.mk_sent_ts m with Some t => negb (Qeq_bool t 0) | None => false end
  then default 0%Q (Marks.mk_duration m) else 0%Q.
Definition remaining_duration (ms : list Marks.mark) : Q := foldr (fun m q => (playing_time m + q)%Q) 0%Q ms.
Definition drain_deadline (grace entry : Q) (ms : list Marks.mark) : Q := (entry + remaining_duration ms + grace)%Q.

(** One turn of the loop: over, or the longest it sleeps for a change of the marks. *)
Definition drain_check (grace entry now : Q) (conversation_ended : bool) (ms : list Marks.mark) : option Q :=
  if conversation_ended then None
  else if drained ms then None
  else let remaining := (drain_deadline grace entry ms - now)%Q in
       if Qle_bool remaining 0 then None else Some remaining.

(** The wait over the wake-ups of the loop: how many there were before it ended,
    [None] if they run out first. *)
Record wakeup := mkWakeup { w_now : Q; w_ended : bool; w_marks : list Marks.mark }.
Fixpoint wait_for_current_message (grace entry : Q) (ws : list wakeup) : option nat :=
  match ws with
  | [] => None
  | w :: rest => match drain_check grace entry (w_now w) (w_ended w) (w_marks w) with
                 | None => Some 0%nat
                 | Some _ => S <$> wait_for_current_message grace entry rest
                 end
  end.

(** ** What reaches the caller *)

Section loop_proofs.
Variable sampling_rate : Z.
Variable should_record : bool.
Variable conversation_start_ms : Q.
Variable task_done : nat -> bool.
Notation attempt := (attempt sampling_rate should_record conversation_start_ms task_done).
Notation deliver := (deliver sampling_rate should_record conversation_start_ms task_done).

(** What the two gates together say of a frame. *)
Definition cleared (now mono : Q) (m : packet) (s : session) : Prop :=
  exists q, sequence_id m = Some q /\ Interruption.get_audio_send_status now now q (history_length s) (im s) = Interruption.SEND /\
            fst (LidGate.lid_playback_gate_holds task_done (Some q) mono now (lid s)) = false.
Definition stale (m : packet) (s : session) : Prop :=
  match sequence_id m with Some q => q ∉ Interruption.sequence_ids (im s) | None => True end.

Lemma block_status now q hl i : Interruption.get_audio_send_status now now q hl i = Interruption.BLOCK <-> q ∉ Interruption.sequence_ids i.
Proof.
  unfold Interruption.get_audio_send_status. case_bool_decide; simpl; [|done]. split; [|done]. repeat case_match; done.
Qed.

Lemma audio_status_spec now mono m s :
  let '(s', st) := audio_status task_done now mono m s in
  played s' = played s /\ sync s' = sync s /\ im s' = im s /\
  (st = Interruption.SEND <-> is_hangup_message m = true \/ cleared now mono m s) /\
  (st = Interruption.BLOCK <-> is_hangup_message m = false /\ stale m s).
Proof.
  unfold audio_status, cleared, stale. destruct (is_hangup_message m); [by split_and!; naive_solver|].
  destruct (sequence_id m) as [q|]; [|split_and!; naive_solver].
  pose proof (block_status now q (history_length s) (im s)) as Hb.
  destruct (Interruption.get_audio_send_status now now q (history_length s) (im s)) eqn:Eg; simpl.
  - destruct (LidGate.lid_playback_gate_holds task_done (Some q) mono now (lid s)) as [[] l] eqn:El; simpl;
      (split_and!; [done..| |]); try (split; [done|]; intros [_ H]; by apply Hb in H).
    + split; [done|]. intros [?|(q' & [= <-] & _ & H)]; [done|]. by rewrite El in H.
    + split; [intros _; right|done]. exists q. by rewrite El.
  - split_and!; try done; [split; [done|]|split; [|done]; intros _; split; [done|by apply Hb]].
    intros [?|(q' & [= <-] & H & _)]; [done|congruence].
  - split_and!; try done; [split; [done|]|split; [done|]; intros [_ H]; by apply Hb in H].
    intros [?|(q' & [= <-] & H & _)]; [done|congruence].
Qed.

Lemma after_send_played now m s : played (after_send conversation_start_ms now m s) = played s.
Proof. unfold after_send. by repeat case_match. Qed.
Lemma after_send_sync now m s : sync (after_send conversation_start_ms now m s) = sync s.
Proof. unfold after_send. by repeat case_match. Qed.
Lemma send_played now m s : played (send sampling_rate should_record now m s) = played s ++ [m].
Proof. unfold send, on_sync. by repeat case_match. Qed.
Lemma send_sync now m s :
  sync (send sampling_rate should_record now m s) =
  sync (on_sync HistorySync.commit_staged_assistant_history (sequence_id m) (on_sync mark_sent (sequence_id m) s)).
Proof. unfold send. by repeat case_match. Qed.
Lemma block_played now m s : played (block conversation_start_ms now m s) = if is_null_byte (data m) then played s ++ [m] else played s.
Proof. unfold block, on_sync. by repeat case_match. Qed.

(** One try of a frame hands the caller exactly this: the frame, when it is the
    goodbye or both gates let it through; the end-of-stream null byte of a frame
    that is dropped; otherwise nothing. It is dropped exactly when it is not the
    goodbye and its sequence was invalidated. *)
Theorem frame_fate_exact now mono m s :
  let '(s', o) := attempt now mono m s in
  (o = Sent <-> is_hangup_message m = true \/ cleared now mono m s) /\
  (o = Dropped <-> is_hangup_message m = false /\ stale m s) /\
  played s' = match o with
              | Sent => played s ++ [m]
              | Dropped => if is_null_byte (data m) then played s ++ [m] else played s
              | Held | Released => played s
              end.
Proof.
  unfold OutputLoop.attempt. pose proof (audio_status_spec now mono m s) as H.
  destruct (audio_status task_done now mono m s) as [s' []]; destruct H as (Hp & _ & _ & Hs & Hb).
  - split_and!; [naive_solver|naive_solver|]. by rewrite after_send_played, send_played, Hp.
  - split_and!; [naive_solver|naive_solver|]. by rewrite block_played, Hp.
  - destruct (Qltb _ _); simpl; split_and!; try done; naive_solver.
Qed.

(** ** The staged turn follows its first frame *)

(** The other tasks leave the staging of sequence [q] as it is. *)
Definition leaves_alone (q : Z) (f : session -> session) : Prop := forall s,
  dget q (HistorySync.pending_assistant_history (sync (f s))) = dget q (HistorySync.pending_assistant_history (sync s)) /\
  (q ∈ HistorySync.committed_assistant_sequences (sync (f s)) <-> q ∈ HistorySync.committed_assistant_sequences (sync s)) /\
  (dwf (HistorySync.pending_assistant_history (sync s)) -> dwf (HistorySync.pending_assistant_history (sync (f s)))).

(** The frames of the queue one after the other, with what became of each; a frame
    without a decision holds up the rest. *)
Fixpoint play_frames (frames : list (packet * list try)) (s : session) : session * list (packet * bool) :=
  match frames with
  | [] => (s, [])
  | (m, tries) :: rest =>
      match deliver m tries s with
      | (s', Some (sent, _)) => let '(s'', fates) := play_frames rest s' in (s'', (m, sent) :: fates)
      | (s', None) => (s', [])
      end
  end.

Definition books (q : Z) (pending : option HistorySync.staged) (committed : bool) (s : session) : Prop :=
  dwf (HistorySync.pending_assistant_history (sync s)) /\
  dget q (HistorySync.pending_assistant_history (sync s)) = pending /\
  bool_decide (q ∈ HistorySync.committed_assistant_sequences (sync s)) = committed.

Lemma books_others q p c f s : leaves_alone q f -> books q p c s -> books q p c (f s).
Proof.
  intros Hf (H1 & H2 & H3). destruct (Hf s) as (E1 & E2 & E3). split_and!; [by apply E3|by rewrite E1|].
  rewrite <- H3. by apply bool_decide_ext.
Qed.

Definition same_books (s s' : session) : Prop :=
  HistorySync.pending_assistant_history (sync s') = HistorySync.pending_assistant_history (sync s) /\
  HistorySync.committed_assistant_sequences (sync s') = HistorySync.committed_assistant_sequences (sync s).
Lemma books_same q p c s s' : same_books s s' -> books q p c s -> books q p c s'.
Proof. intros [E1 E2] H. unfold books in *. by rewrite E1, E2. Qed.

Lemma sync_same s s' : sync s' = sync s -> same_books s s'.
Proof. intros H. unfold same_books. by rewrite H. Qed.

Lemma commit_staging k h :
  let h' := HistorySync.commit_staged_assistant_history k h in
  HistorySync.pending_assistant_history h' = HistorySync.pending_assistant_history h /\
  HistorySync.committed_assistant_sequences h' = HistorySync.committed_assistant_sequences h /\
  (k ∈ HistorySync.committed_assistant_sequences h \/ dget k (HistorySync.pending_assistant_history h) = None) \/
  k ∉ HistorySync.committed_assistant_sequences h /\ is_Some (dget k (HistorySync.pending_assistant_history h)) /\
  HistorySync.pending_assistant_history h' = ddel k (HistorySync.pending_assistant_history h) /\
  HistorySync.committed_assistant_sequences h' = k :: HistorySync.committed_assistant_sequences h.
Proof.
  unfold HistorySync.commit_staged_assistant_history. case_bool_decide as Hk; [left; auto|].
  destruct (dget k _) as [g|] eqn:Eg; [|left; auto]. right. split_and!; [done|by eexists|..]; by repeat case_match.
Qed.

(** What a decision on a frame makes of the staging of [q]. *)
Definition booked (q : Z) (m : packet) (sent : bool) (pc : option HistorySync.staged * bool) : option HistorySync.staged * bool :=
  let '(p, c) := pc in
  if bool_decide (sequence_id m = Some q)
  then (None, if sent then match p with Some _ => true | None => c end else c)
  else (p, c).

Lemma send_books q p c now m s :
  (p = None \/ c = false) -> books q p c s ->
  let '(p', c') := booked q m true (p, c) in
  books q p' c' (after_send conversation_start_ms now m (send sampling_rate should_record now m s)).
Proof.
  intros Hpc H. unfold booked.
  destruct (sequence_id m) as [k|] eqn:Ek.
  2: { rewrite bool_decide_false by done. apply (books_same q p c s); [|done]. apply sync_same. by rewrite after_send_sync, send_sync, Ek. }
  set (sb := after_send _ _ _ _). assert (sync sb = HistorySync.commit_staged_assistant_history k (mark_sent k (sync s))) as Hsync
    by (unfold sb; by rewrite after_send_sync, send_sync, Ek).
  clearbody sb. destruct H as (H1 & H2 & H3).
  pose proof (commit_staging k (mark_sent k (sync s))) as Hc. cbv zeta in Hc. rewrite <- Hsync in Hc. simpl in Hc.
  destruct (decide (k = q)) as [->|Hkq]; [rewrite bool_decide_true by done|rewrite bool_decide_false by congruence].
  - destruct Hc as [(E1 & E2 & E3)|(E0 & Eg & E1 & E2)]; unfold books; rewrite E1, E2.
    + assert (p = None) as ->.
      { rewrite <- H2. destruct E3 as [E3|E3]; [|done]. rewrite bool_decide_true in H3 by done. destruct Hpc; [congruence|subst; done]. }
      exact (conj H1 (conj H2 H3)).
    + rewrite H2 in Eg. destruct Eg as [g ->].
      refine (conj (ddel_wf _ _ H1) (conj (dget_ddel_eq _ _ H1) _)). apply bool_decide_eq_true. left.
  - destruct Hc as [(E1 & E2 & E3)|(E0 & Eg & E1 & E2)]; unfold books; rewrite E1, E2; [exact (conj H1 (conj H2 H3))|].
    refine (conj (ddel_wf _ _ H1) (conj _ _)); [by rewrite dget_ddel_ne|]. rewrite <- H3. apply bool_decide_ext. set_solver.
Qed.

Lemma block_books q p c now m s :
  books q p c s -> let '(p', c') := booked q m false (p, c) in books q p' c' (block conversation_start_ms now m s).
Proof.
  intros (H1 & H2 & H3). unfold booked.
  destruct (sequence_id m) as [k|] eqn:Ek.
  2: { rewrite bool_decide_false by done. apply (books_same q p c s); [|exact (conj H1 (conj H2 H3))].
       unfold block, on_sync. rewrite Ek. apply sync_same. by repeat case_match. }
  assert (HistorySync.pending_assistant_history (sync (block conversation_start_ms now m s)) =
            ddel k (HistorySync.pending_assistant_history (sync s)) /\
          HistorySync.committed_assistant_sequences (sync (block conversation_start_ms now m s)) =
            HistorySync.committed_assistant_sequences (sync s)) as [E1 E2].
  { unfold block, on_sync. rewrite Ek. by repeat case_match. }
  destruct (decide (k = q)) as [->|Hkq]; [rewrite bool_decide_true by done|rewrite bool_decide_false by congruence];
    unfold books; rewrite E1, E2.
  - exact (conj (ddel_wf _ _ H1) (conj (dget_ddel_eq _ _ H1) H3)).
  - refine (conj (ddel_wf _ _ H1) (conj _ H3)). by rewrite dget_ddel_ne.
Qed.

Lemma deliver_books q m tries : forall p c s,
  Forall (fun t => leaves_alone q (other_tasks t)) tries -> (p = None \/ c = false) -> books q p c s ->
  match deliver m tries s with
  | (s', None) => books q p c s'
  | (s', Some (sent, _)) => let '(p', c') := booked q m sent (p, c) in books q p' c' s'
  end.
Proof.
  induction tries as [|t tries IH]; intros p c s Hf Hpc H; [done|]. simpl. inversion_clear Hf as [|?? Ht Hf'].
  apply (books_others _ _ _ _ _ Ht) in H. unfold OutputLoop.attempt.
  pose proof (audio_status_spec (t_now t) (t_mono t) m (other_tasks t s)) as Hs.
  destruct (audio_status task_done _ _ _ _) as [s' []]; destruct Hs as (_ & Es & _);
    apply (books_same _ _ _ _ s') in H; try by apply sync_same.
  - by apply send_books.
  - by apply block_books.
  - destruct (Qltb _ _); by apply IH.
Qed.

(** A staged turn whose sequence was never committed follows the first of its
    frames that is decided: sent, the turn is committed to the history and its
    staging is over; dropped, the staging is gone and the turn never committed;
    undecided, it stays staged. Frames after the first change nothing of it. *)
Theorem staged_follows_first_frame q g frames s :
  dwf (HistorySync.pending_assistant_history (sync s)) ->
  dget q (HistorySync.pending_assistant_history (sync s)) = Some g ->
  q ∉ HistorySync.committed_assistant_sequences (sync s) ->
  Forall (fun f => Forall (fun t => leaves_alone q (other_tasks t)) (snd f)) frames ->
  let '(s', fates) := play_frames frames s in
  match List.find (fun f => bool_decide (sequence_id (fst f) = Some q)) fates with
  | None => books q (Some g) false s'
  | Some (_, sent) => books q None sent s'
  end.
Proof.
  intros H1 H2 H3 Hf. assert (books q (Some g) false s) as H by (refine (conj H1 (conj H2 _)); by apply bool_decide_eq_false).
  clear H1 H2 H3. revert s H.
  assert (forall fs c s, Forall (fun f => Forall (fun t => leaves_alone q (other_tasks t)) (snd f)) fs ->
            books q None c s -> books q None c (fst (play_frames fs s))) as Hrest.
  { clear. induction fs as [|[m tries] fs IH]; intros c s Hf H; [done|]. inversion_clear Hf as [|?? Ht Hf']. simpl in *.
    pose proof (deliver_books q m tries None c s Ht (or_introl eq_refl) H) as Hd.
    destruct (deliver m tries s) as [s1 [[sent left]|]]; [|done]. 
    assert (books q None c s1) as H' by (unfold booked in Hd; by destruct (bool_decide _), sent).
    specialize (IH c s1 Hf' H'). by destruct (play_frames fs s1). }
  induction frames as [|[m tries] frames IH]; intros s H; [done|]. inversion_clear Hf as [|?? Ht Hf']. simpl in *.
  pose proof (deliver_books q m tries (Some g) false s Ht (or_intror eq_refl) H) as Hd.
  destruct (deliver m tries s) as [s1 [[sent left]|]]; [|done]. unfold booked in Hd.
  destruct (bool_decide (sequence_id m = Some q)) eqn:Eq.
  - assert (books q None sent s1) as H' by (by destruct sent). specialize (Hrest frames sent s1 Hf' H').
    destruct (play_frames frames s1) as [s2 fates]. simpl in *. by rewrite Eq.
  - specialize (IH Hf' s1 Hd). destruct (play_frames frames s1) as [s2 fates]. simpl. by rewrite Eq.
Qed.

(** ** No frame is held for ever *)

(** Everything that can hold a frame has had its time by [now] and [mono]. *)
Definition ripe (now mono : Q) (s : session) : Prop :=
  let i := im s in
  (Interruption.callee_speaking i = true -> (STUCK_AUDIO_GATE_RELEASE_S < Interruption.user_speech_staleness_s now i)%Q) /\
  (forall t, Interruption.last_interruption_ts_ms i = Some t -> (inject_Z (Interruption.interruption_backoff_period i) <= Interruption.ms now - t)%Q) /\
  (inject_Z (Interruption.incremental_delay i) <= Interruption.ms now - Interruption.utterance_end_time i)%Q /\
  (forall k g, LidGate.lid_playback_gate (lid s) = Some k -> LidGate.gates (lid s) !! k = Some g -> (LidGate.g_deadline g <= mono)%Q).

Lemma silent_status now q hl i :
  Interruption.callee_speaking i = false ->
  (forall t, Interruption.last_interruption_ts_ms i = Some t -> (inject_Z (Interruption.interruption_backoff_period i) <= Interruption.ms now - t)%Q) ->
  (inject_Z (Interruption.incremental_delay i) <= Interruption.ms now - Interruption.utterance_end_time i)%Q ->
  Interruption.get_audio_send_status now now q hl i <> Interruption.WAIT.
Proof.
  intros Hs Hb Hg. unfold Interruption.get_audio_send_status. case_bool_decide; [|done]. simpl. rewrite Hs.
  assert ((if 2 <? hl then
             let since := Interruption.get_time_since_utterance_end now i in
             if negb (Interruption.is_minus_one since) && Qltb since (inject_Z (Interruption.incremental_delay i))
             then Interruption.WAIT else Interruption.SEND else Interruption.SEND) <> Interruption.WAIT) as Hgrace.
  { destruct (2 <? hl); [|done]. unfold Interruption.get_time_since_utterance_end. cbv zeta.
    destruct (Interruption.is_minus_one (Interruption.utterance_end_time i));
      [by replace (Interruption.is_minus_one Interruption.minus_one) with true by reflexivity|].
    destruct (_ && _) eqn:E; [apply andb_true_iff in E as [_ E]; qbool; lra|done]. }
  destruct (Interruption.last_interruption_ts_ms i) as [t|]; [|exact Hgrace].
  specialize (Hb t eq_refl). destruct (_ && _) eqn:E; [apply andb_true_iff in E as [_ E]; qbool; lra|exact Hgrace].
Qed.

Lemma overdue_gate q mono now l :
  (forall k g, LidGate.lid_playback_gate l = Some k -> LidGate.gates l !! k = Some g -> (LidGate.g_deadline g <= mono)%Q) ->
  fst (LidGate.lid_playback_gate_holds task_done q mono now l) = false.
Proof.
  intros H. unfold LidGate.lid_playback_gate_holds. destruct (LidGate.lid_playback_gate l) as [k|]; [|done].
  destruct (LidGate.language_switcher l); [|done]. destruct (LidGate.gates l !! k) as [g|] eqn:Eg; [|done].
  specialize (H k g eq_refl Eg). apply Qle_bool_iff in H. by repeat (case_match; try done).
Qed.

Lemma quiet_status now mono m s :
  Interruption.callee_speaking (im s) = false -> ripe now mono s -> snd (audio_status task_done now mono m s) <> Interruption.WAIT.
Proof.
  intros Hs (_ & Hb & Hg & Hl). unfold audio_status. destruct (is_hangup_message m); [done|]. destruct (sequence_id m) as [q|]; [|done].
  pose proof (silent_status now q (history_length s) (im s) Hs Hb Hg) as Hw. pose proof (overdue_gate (Some q) mono now (lid s) Hl) as Ho.
  destruct (Interruption.get_audio_send_status _ _ _ _ _); try done.
  destruct (LidGate.lid_playback_gate_holds _ _ _ _ _) as [holds l]. simpl in Ho. by subst holds.
Qed.

Lemma speaking_released now i :
  Interruption.callee_speaking (Interruption.on_user_speech_ended now false 0 None i) = false /\
  Interruption.last_interruption_ts_ms (Interruption.on_user_speech_ended now false 0 None i) = Interruption.last_interruption_ts_ms i /\
  Interruption.interruption_backoff_period (Interruption.on_user_speech_ended now false 0 None i) = Interruption.interruption_backoff_period i /\
  Interruption.incremental_delay (Interruption.on_user_speech_ended now false 0 None i) = Interruption.incremental_delay i /\
  Interruption.utterance_end_time (Interruption.on_user_speech_ended now false 0 None i) = Interruption.utterance_end_time i.
Proof. unfold Interruption.on_user_speech_ended, Interruption.close_open_event. destruct (Interruption.positive _); simpl; by repeat case_match. Qed.

(** Once the speech flag has gone stale, the backoff of the last barge-in and the
    grace of the last utterance are over and the language gate is overdue, a frame
    is decided within two tries: the first may only release the stuck gate. *)
Theorem frame_decided m s t1 t2 :
  other_tasks t1 = id -> other_tasks t2 = id -> (t_now t1 <= t_now t2)%Q -> (t_mono t1 <= t_mono t2)%Q ->
  ripe (t_now t1) (t_mono t1) s -> is_Some (snd (deliver m [t1; t2] s)).
Proof.
  intros O1 O2 Hn Hm Hr. simpl. rewrite O1, O2. simpl.
  unfold OutputLoop.attempt at 1. pose proof (audio_status_spec (t_now t1) (t_mono t1) m s) as Hs.
  pose proof (quiet_status (t_now t1) (t_mono t1) m s) as Hq.
  destruct (audio_status task_done (t_now t1) (t_mono t1) m s) as [s1 [| |]] eqn:Ea; [by eexists..|].
  destruct Hs as (_ & _ & Ei & _). simpl in Hq.
  destruct (Interruption.callee_speaking (im s)) eqn:Hc; [|by destruct (Hq eq_refl Hr)].
  assert (lid s1 = lid s \/ s1 = s) as Hlid.
  { unfold audio_status in Ea. destruct (is_hangup_message m); [done|]. destruct (sequence_id m); [|done].
    unfold Interruption.get_audio_send_status in Ea. rewrite Hc in Ea. destruct (negb _) in Ea; simplify_eq; by right. }
  assert (lid s1 = lid s) as El by (destruct Hlid as [?| ->]; done). clear Hlid.
  destruct Hr as (Hst & Hb & Hg & Hl). pose proof (Hst Hc) as Hst'. rewrite Ei. rewrite (proj2 (Qltb_lt _ _) Hst').
  set (s2 := set_im _ s1). destruct (speaking_released (t_now t1) (im s)) as (R1 & R2 & R3 & R4 & R5).
  assert (snd (audio_status task_done (t_now t2) (t_mono t2) m s2) <> Interruption.WAIT) as Hw.
  { apply quiet_status; [done|]. unfold ripe. simpl. rewrite R1, R2, R3, R4, R5, El. unfold Interruption.ms in *. split_and!; [done| | |].
    - intros t Ht. specialize (Hb t Ht). lra.
    - lra.
    - intros k g Hk Hg'. specialize (Hl k g Hk Hg'). lra. }
  revert Hw. unfold OutputLoop.attempt.
  destruct (audio_status task_done (t_now t2) (t_mono t2) m s2) as [s3 []]; intros Hw; [by eexists..|by destruct Hw].
Qed.
End loop_proofs.

(** ** The wait for the playout is bounded *)

Lemma playing_time_pos m : (forall d, Marks.mk_duration m = Some d -> (0 <= d)%Q) -> (0 <= playing_time m)%Q.
Proof. intros H. unfold playing_time. destruct (_ && _); [|lra]. destruct (Marks.mk_duration m) as [d|]; simpl; [by apply H|lra]. Qed.

Definition timed (m : Marks.mark) : Prop := forall d, Marks.mk_duration m = Some d -> (0 <= d)%Q.

Lemma remaining_sublist l1 l2 : sublist l1 l2 -> Forall timed l2 -> (0 <= remaining_duration l1)%Q /\ (remaining_duration l1 <= remaining_duration l2)%Q.
Proof.
  induction 1 as [|x l1 l2 _ IH|x l1 l2 _ IH]; intros H; simpl; [lra|..]; inversion_clear H as [|?? Hx H'];
    destruct (IH H') as [IH1 IH2]; pose proof (playing_time_pos x Hx); lra.
Qed.

(** While marks are only acknowledged and none is added, the wait is over at the
    first wake-up past the playing time of the marks it found plus the grace,
    whether or not another acknowledgement ever comes; and it gives up no sooner
    than that unless the conversation ended, the marks are drained, or the audio
    still out would be over. *)
Theorem playout_wait_bounded grace entry ms0 ws w n :
  Forall timed ms0 -> Forall (fun w => sublist (w_marks w) ms0) ws ->
  ws !! n = Some w -> (drain_deadline grace entry ms0 <= w_now w)%Q ->
  exists k v, wait_for_current_message grace entry ws = Some k /\ (k <= n)%nat /\ ws !! k = Some v /\
    (w_ended v = true \/ drained (w_marks v) = true \/ (drain_deadline grace entry (w_marks v) <= w_now v)%Q).
Proof.
  intros Ht Hs. revert n. induction ws as [|v ws IH]; intros n Hn Hd; [done|]. inversion_clear Hs as [|?? Hv Hs']. simpl.
  unfold drain_check at 1. destruct (w_ended v) eqn:Ee; [exists 0%nat, v; split_and!; auto; lia|].
  destruct (drained (w_marks v)) eqn:Edr; [exists 0%nat, v; split_and!; auto; lia|].
  destruct (Qle_bool _ 0) eqn:Eq; qbool.
  - exists 0%nat, v. split_and!; [done|lia|done|]. right; right. lra.
  - destruct n as [|n]; simpl in Hn.
    + simplify_eq. destruct (remaining_sublist _ _ Hv Ht) as [_ Hr]. unfold drain_deadline in *. lra.
    + destruct (IH Hs' n Hn Hd) as (k & u & -> & Hk & Hu & Hw). exists (S k), u. split_and!; [done|lia|done|done].
Qed.
Module Example.
(** A call with one staged reply, sequence 1, on an idle language gate. *)
Definition reply : HistorySync.staged := HistorySync.mkStaged "Hello there" (Some 1) None None.
Definition staging : HistorySync.session :=
  HistorySync.mkSession (History.create None) Marks.init (HistorySync.mkInput [] [] None None "" 0%Q) [] None [(1, reply)] [] [] [].
Definition no_gate : LidGate.session :=
  LidGate.mkSession [] None LidGate.NoTranscriber None (Some "en") false false false false None false.
Definition listening : Interruption.manager :=
  Interruption.set_sequence_ids {[ -1; 1 ]} (Interruption.init 3 [] 100 100 0).
Definition call : session := mkSession listening no_gate staging true true false false false [] [] None [] [].
Definition frame : packet := mkPacket (Bytes [Corelib.Init.Byte.x01]) (Some 1) None (Some "mulaw") false false None false false false.
Definition barge_in (s : session) : session := set_im (Interruption.invalidate_pending_responses (im s)) s.
Definition at_time (f : session -> session) (t : Q) : try := mkTry f t t.

Lemma barge_in_leaves_alone : leaves_alone 1 barge_in.
Proof. by intros s. Qed.
Lemma nothing_leaves_alone : leaves_alone 1 id.
Proof. by intros s. Qed.

(** The first frame is sent, the caller barges in, the second is dropped. *)
Lemma staged_follows_first_frame_witness :
  let '(s', fates) := play_frames 8000 false 0%Q (fun _ => false)
                        [(frame, [at_time id (Qmake 10 1)]); (frame, [at_time barge_in (Qmake 11 1)])] call in
  map snd fates = [true; false] /\ books 1 None true s'.
Proof.
  pose proof (staged_follows_first_frame 8000 false 0%Q (fun _ => false) 1 reply
    [(frame, [at_time id (Qmake 10 1)]); (frame, [at_time barge_in (Qmake 11 1)])] call) as H.
  revert H. destruct (play_frames _ _ _ _ _ call) as [s' fates] eqn:E. intros H.
  assert (map snd fates = [true; false] /\ map fst fates = [frame; frame]) as [Hf Hm].
  { replace fates with (snd (play_frames 8000 false 0%Q (fun _ => false)
      [(frame, [at_time id (Qmake 10 1)]); (frame, [at_time barge_in (Qmake 11 1)])] call)) by (by rewrite E). split; reflexivity. }
  split; [exact Hf|]. destruct fates as [|[m1 b1] [|[m2 b2] [|]]]; try discriminate. simpl in Hf, Hm. simplify_eq.
  apply H; [repeat constructor; set_solver|reflexivity|set_solver|].
  apply Forall_cons; split; [|apply Forall_cons; split; [|constructor]]; apply Forall_cons; (split; [|constructor]);
    [apply nothing_leaves_alone|apply barge_in_leaves_alone].
Defined.

(** The caller's speech flag is stuck since 5; at 9 the gate is released. *)
Definition stuck : session :=
  set_im (Interruption.set_callee_speaking true (Interruption.set_callee_speaking_start_time (Qmake 5 1) listening)) call.
Lemma frame_decided_witness :
  snd (deliver 8000 false 0%Q (fun _ => false) frame [at_time id (Qmake 9 1); at_time id (Qmake 9 1)] stuck) = Some (true, []).
Proof.
  assert (is_Some (snd (deliver 8000 false 0%Q (fun _ => false) frame [at_time id (Qmake 9 1); at_time id (Qmake 9 1)] stuck))) as [r Hr].
  { apply (frame_decided 8000 false 0%Q (fun _ => false) frame stuck (at_time id (Qmake 9 1)) (at_time id (Qmake 9 1)));
      [done|done|simpl; lra|simpl; lra|]. unfold ripe. split_and!; [intros _; reflexivity|by intros|by vm_compute|done]. }
  rewrite Hr. f_equal. assert (Some r = Some (true, [])) as Hx by (rewrite <- Hr; reflexivity). by injection Hx.
Defined.

(** Two marks of a second each; one is acknowledged, the other never: with two
    seconds of grace the wait is over at the wake-up four seconds in. *)
Definition sent_mark : Marks.mark :=
  Marks.mkMark None (Some 1) None None None None None (Some (Qmake 10 1)) (Some (Qmake 1 1)) None None None false false.
Definition wakeups : list wakeup :=
  [mkWakeup (Qmake 10 1) false [sent_mark; sent_mark]; mkWakeup (Qmake 11 1) false [sent_mark]; mkWakeup (Qmake 14 1) false [sent_mark]].
Lemma playout_wait_bounded_witness :
  exists k, wait_for_current_message (Qmake 2 1) (Qmake 10 1) wakeups = Some k /\ k = 2%nat.
Proof.
  destruct (playout_wait_bounded (Qmake 2 1) (Qmake 10 1) [sent_mark; sent_mark] wakeups (mkWakeup (Qmake 14 1) false [sent_mark]) 2)
    as (k & v & Hk & _); [| |done|by vm_compute|].
  - repeat constructor; intros d [= <-]; by vm_compute.
  - repeat constructor.
  - exists k. split; [exact Hk|]. assert (Some k = Some 2%nat) as Hx by (rewrite <- Hk; reflexivity). by injection Hx.
Defined.
End Example.
End OutputLoop.
