(* ===== verification/ToolExec.v ===== *)
(** * Guarded execution of an agent's tools (src/voiceai/modules/tools)

    [ToolExecutor.execute_tool] (executor.py) with the credential resolver
    ([ToolAuthResolver], auth_resolver.py), the pure checks
    (static_methods.py, exceptions.py), the secret redaction
    (common/security.py) and the part of the MCP client the executor calls
    (adapters/mcp/client.py).

    Two readings of the clock with no interaction between them agree, so a
    duration that the code measures twice in a row is measured once.
    Everything outside the process (tool rows, SSRF verdicts, the Redis cache,
    the credential store, HTTP servers, the audit collection, the clock and
    the identifier supply) is an [environment]: a function of the trace of the
    interactions so far. Each interaction is recorded in the trace with its
    answer, so the theorems speak of what was asked and in which order. *)
From S2P Require Import Prelude PyText PyVal.
From Stdlib Require Import QArith.QArith.
Close Scope Q_scope.
Open Scope nat_scope.
Open Scope voice_scope.

Module ToolExec.

(** ** Constants (constants.py, common/constants.py) *)
Definition RETRY_ONCE : nat := 1.
Definition EXECUTOR_RESPONSE_MAX_CHARS : nat := 2000.
Definition TOOL_TIMEOUT_MIN_S : Z := 1.
Definition TOOL_TIMEOUT_MAX_S : Z := 120.
Definition HTTP_UNAUTHORIZED : Z := 401.
Definition AUTHORIZATION_HEADER : string := "authorization".
Definition AUTH_API_KEY_HEADER : string := "API-KEY".
Definition DEFAULT_API_KEY_HEADER : string := "X-API-Key".
Definition AUTH_CACHE_TTL_S : Z := 300.
Definition REDACTED_VALUE : string := "***".
Definition SECRET_KEY_PATTERN : list string :=
  ["api_key"; "apikey"; "token"; "secret"; "password"; "authorization"; "credential"].

(** ** Redaction (common/security.py) *)

(** [SECRET_KEY_PATTERN.search(key)]: an alternation of literals, ignoring case. *)
Definition secret_key (key : string) : bool :=
  existsb (fun p => contains (lower key) p) SECRET_KEY_PATTERN.

Fixpoint redact_item (item : val) : val :=
  match item with
  | VDict d =>
      VDict ((fix go (d : dict string val) : dict string val :=
                match d with
                | [] => []
                | (k, v) :: d' => (k, if secret_key k then VStr REDACTED_VALUE else redact_item v) :: go d'
                end) d)
  | VList l => VList ((fix go (l : list val) : list val :=
                         match l with [] => [] | v :: l' => redact_item v :: go l' end) l)
  | v => v
  end.

Definition redact_value (key : string) (value : val) : val :=
  if secret_key key then VStr REDACTED_VALUE else redact_item value.

Definition redact_secrets (mapping : dict string val) : dict string val :=
  map (fun kv => (kv.1, redact_value kv.1 kv.2)) mapping.

(** ** Pure checks (static_methods.py) *)
Definition matches_json_type (value : val) (expected : string) : bool :=
  if decide (expected = "boolean") then match value with VBool _ => true | _ => false end
  else if decide (expected = "integer") then match value with VInt _ => true | _ => false end
  else if decide (expected = "number") then match value with VInt _ | VFloat _ => true | _ => false end
  else if decide (expected = "string") then match value with VStr _ => true | _ => false end
  else if decide (expected = "array") then match value with VList _ => true | _ => false end
  else if decide (expected = "object") then match value with VDict _ => true | _ => false end
  else if decide (expected = "null") then match value with VNone => true | _ => false end
  else true.

Definition required_problem (args : dict string val) (name : val) : list string :=
  match name with
  | VStr n => if dhas n args then [] else ["missing required: " +:+ n]
  | _ => []
  end.

Definition property_problem (args : dict string val) (p : string * val) : list string :=
  match dget p.1 args with
  | None => []
  | Some v =>
      match p.2 with
      | VDict subschema =>
          match dget "type" subschema with
          | Some (VStr expected) =>
              if matches_json_type v expected then [] else [p.1 +:+ ": expected " +:+ expected]
          | _ => []
          end
      | _ => []
      end
  end.

Definition validate_arguments (schema args : dict string val) : list string :=
  (match dget "required" schema with
   | Some (VList required) => concat (map (required_problem args) required)
   | _ => []
   end) ++
  (match dget "properties" schema with
   | Some (VDict properties) => concat (map (property_problem args) properties)
   | _ => []
   end).

(** [s.partition(":")]: what precedes the first colon, whether there is one,
    and what follows. *)
Definition partition_colon (s : string) : string * bool * string :=
  match find s ":" with
  | Some n => (str_take n s, true, of_chars (drop (S n) (chars s)))
  | None => (s, false, "")
  end.

Definition strip_mcp_prefix (namespaced : string) : string :=
  if startswith namespaced "mcp:"
  then let rest := of_chars (drop 4 (chars namespaced)) in
       let '(_, separator, canonical) := partition_colon rest in
       if separator then canonical else rest
  else namespaced.

(** ** Errors (errors.py, common/errors.py)

    The text of a message is kept symbolic: which one it is and what it names. *)
Inductive message : Type :=
| MDenied (tool_id agent_id : string)
| MNotFound (tool_id : string)
| MBadArguments (tool_id : string) (problems : list string)
| MUnsafe (tool_id : string)
| MNoStore (auth_ref : string)
| MUnknownCredential (auth_ref : string)
| MNoSecret (auth_ref : string)
| MQueryOverMcp
| MMcpUnreachable
| MMcpNotJson
| MMcpRefused
| MText (s : string)
| MOpaque (error_id : string).

Inductive error_class : Type := ToolDeniedError | ToolNotFoundError | ToolExecutionError | OtherAppError (internal : bool).

Record app_error := AppError {
  ae_class : error_class;
  ae_message : message;
  ae_error_id : string }.

Definition public_message (e : app_error) : message :=
  match ae_class e with
  | OtherAppError true => MOpaque (ae_error_id e)
  | _ => ae_message e
  end.

(** What may be raised: an [AppError], an [httpx] failure, another [Exception]
    ([Plain]) or a [BaseException] that is none, such as a cancellation. *)
Inductive raised : Type :=
| App (e : app_error)
| HttpxTimeout
| HttpxError (name : string)
| Plain (name : string)
| Cancelled.

Definition is_exception (e : raised) : bool := match e with Cancelled => false | _ => true end.

(** ** Data (models.py, executor.py, auth_resolver.py) *)
Inductive tool_kind : Type := KFunction | KWebhook | KInternal.

Record ToolDefinition := Tool {
  t_tool_id : string;
  t_kind : tool_kind;
  t_name : string;
  t_parameters : dict string val;
  t_url : option string;
  t_method : string;
  t_auth_ref : option string;
  t_timeout_s : Z;
  t_meta : dict string val }.

Record AgentSnapshot := Snapshot { agent_id : string; tool_refs : list string }.

Record AuthParams := Auth { headers : dict string string; query : dict string string }.

(** [SMessage m] stands for the first 500 characters of the text of [m]. *)
Inductive summary : Type :=
| SHttp (status ms : Z)
| SMcp (tool : string) (ms : Z)
| SInternal (name : string) (ms : Z)
| STimeout (timeout_s : Z)
| SUnreachable
| SMessage (m : message).

(** [data]: a mapping, a bounded text, or the bounded [str] of a JSON value. *)
Inductive payload : Type :=
| PMapping (d : dict string val)
| PText (s : string)
| PStrOf (v : val).

Record ToolExecutionResult := Result {
  r_tool_id : string;
  r_agent_id : string;
  r_success : bool;
  r_summary : summary;
  r_data : payload;
  r_fingerprint : string;
  r_ms : Z;
  r_error_id : option string }.

Record ToolExecutionLog := Log {
  l_tool_id : string;
  l_agent_id : string;
  l_arguments : dict string val;
  l_summary : summary;
  l_success : bool;
  l_ms : Z;
  l_error_id : option string;
  l_tenant : string }.

Record request := Request {
  q_method : string;
  q_url : string;
  q_headers : dict string string;
  q_params : dict string val;
  q_json : option val;
  q_timeout_s : Z }.

(** [rs_json]: what [response.json()] decodes, [None] where it raises;
    [rs_events]: what [parse_sse_events] reads in the body. *)
Record response := Response {
  rs_status : Z;
  rs_json : option val;
  rs_text : string;
  rs_sse : bool;
  rs_events : list val;
  rs_session : option string }.

(** A cached text, by what [json.loads] makes of it ([None]: it raises). *)
Inductive cached : Type := NoText | Text (parsed : option val).

(** ** The trace *)
Inductive event : Type :=
| ETool (tool_id : string) (r : result raised (option ToolDefinition))
| EGuard (url : string) (r : result raised bool)
| ECacheGet (auth_ref : string) (r : result raised cached)
| ECacheSet (auth_ref : string) (ttl : Z) (params : AuthParams) (r : result raised unit)
| ECacheDel (auth_ref : string) (r : result raised unit)
| ECredential (auth_ref : string) (r : result raised (option (dict string val)))
| EHttp (q : request) (r : result raised response)
| EAudit (row : ToolExecutionLog) (r : result raised unit).

Definition trace := list event.
Definition tx := SE trace raised.

Record environment := Environment {
  env_tool : trace -> string -> result raised (option ToolDefinition);
  env_guard : trace -> string -> result raised bool;
  env_cache_get : trace -> string -> result raised cached;
  env_cache_set : trace -> string -> AuthParams -> result raised unit;
  env_cache_del : trace -> string -> result raised unit;
  env_credential : trace -> string -> result raised (option (dict string val));
  env_http : trace -> request -> result raised response;
  env_audit : trace -> ToolExecutionLog -> result raised unit;
  env_clock : trace -> Q;
  env_id : trace -> string }.

(** One interaction: the answer is recorded, then returned or raised. *)
Definition ask {A} (mk : result raised A -> event) (answer : trace -> result raised A) : tx A :=
  fun tr => (tr ++ [mk (answer tr)], answer tr).

(** [try: c except ...: h] *)
Definition try_except {A} (c : tx A) (h : raised -> tx A) : tx A :=
  fun tr => match c tr with (tr', Err e) => h e tr' | ok => ok end.

Definition guard_raise (ok : bool) (e : tx unit) : tx unit := if ok then se_ret tt else e.

(** ** Base64 of the UTF-8 bytes of a text *)
Definition utf8_char (c : ascii) : list N :=
  let n := Ascii.N_of_ascii c in
  if (n <? 128)%N then [n] else [192 + n / 64; 128 + n mod 64]%N.

Definition utf8 (s : string) : list N := concat (map utf8_char (chars s)).

Definition b64_char (n : N) : ascii :=
  Ascii.ascii_of_N (if n <? 26 then n + 65 else if n <? 52 then n + 71 else if n <? 62 then n - 4
              else if n =? 62 then 43 else 47)%N.

Fixpoint b64encode (l : list N) : text :=
  match l with
  | a :: b :: c :: l' =>
      b64_char (a / 4) :: b64_char (a mod 4 * 16 + b / 16) ::
      b64_char (b mod 16 * 4 + c / 64) :: b64_char (c mod 64) :: b64encode l'
  | [a; b] => [b64_char (a / 4); b64_char (a mod 4 * 16 + b / 16); b64_char (b mod 16 * 4); Ascii.ascii_of_N 61]%N
  | [a] => [b64_char (a / 4); b64_char (a mod 4 * 16); Ascii.ascii_of_N 61; Ascii.ascii_of_N 61]%N
  | [] => []
  end%N.

(** ** Rendering a credential (auth_resolver.py) *)
Definition str_field (k : string) (d : dict string val) : option string :=
  match dget k d with
  | Some (VStr s) => if str_true s then Some s else None
  | _ => None
  end.

(** [{str(key): value for ... if isinstance(value, str)}] *)
Definition str_values (d : dict string val) : dict string string :=
  omap (fun kv => match kv.2 with VStr s => Some (kv.1, s) | _ => None end) d.

Definition nonempty {A} (l : list A) : bool := match l with [] => false | _ => true end.

Definition headers_field (d : dict string val) : option (dict string string) :=
  match dget "headers" d with
  | Some (VDict raw) => let h := str_values raw in if nonempty h then Some h else None
  | _ => None
  end.

Definition bearer (token : string) : AuthParams := Auth [(AUTHORIZATION_HEADER, "Bearer " +:+ token)] [].

Definition legacy_auth_params (material : dict string val) : option AuthParams :=
  match str_field "token" material with
  | Some token => Some (bearer token)
  | None =>
      match str_field "api_key" material with
      | Some key => Some (Auth [(AUTH_API_KEY_HEADER, key)] [])
      | None => match headers_field material with Some h => Some (Auth h []) | None => None end
      end
  end.

Definition api_key_params (auth_config : dict string val) (key : string) : AuthParams :=
  let name := default DEFAULT_API_KEY_HEADER (str_field "name" auth_config) in
  match dget "location" auth_config with
  | Some (VStr location) => if decide (location = "query") then Auth [] [(name, key)] else Auth [(name, key)] []
  | _ => Auth [(name, key)] []
  end.

Definition basic_params (auth_config material : dict string val) : option AuthParams :=
  match default (VStr "") (dget "username" auth_config), str_field "password" material with
  | VStr username, Some password =>
      Some (Auth [(AUTHORIZATION_HEADER,
                   "Basic " +:+ of_chars (b64encode (utf8 (username +:+ ":" +:+ password))))] [])
  | _, _ => None
  end.

(** [_auth_params_for]; [None] where it raises "carries no usable secret shape". *)
Definition auth_params_for (credential_type : option string) (auth_config material : dict string val)
    : option AuthParams :=
  match credential_type with
  | None => legacy_auth_params material
  | Some t =>
      if decide (t = "none") then Some (Auth [] [])
      else if decide (t = "bearer" \/ t = "oauth2")
      then match str_field "token" material with Some token => Some (bearer token) | None => None end
      else if decide (t = "api_key")
      then match str_field "api_key" material with Some key => Some (api_key_params auth_config key) | None => None end
      else if decide (t = "basic") then basic_params auth_config material
      else if decide (t = "custom")
      then match headers_field material with Some h => Some (Auth h []) | None => None end
      else None
  end.

Definition dict_or_empty (v : option val) : dict string val := match v with Some (VDict d) => d | _ => [] end.
Definition str_or_none (v : option val) : option string := match v with Some (VStr s) => Some s | _ => None end.

(** An envelope rendered the way [resolve_auth] reads it. *)
Definition render_credential (credential : dict string val) : option AuthParams :=
  auth_params_for (str_or_none (dget "credential_type" credential))
    (dict_or_empty (dget "auth_config" credential))
    (List.filter (fun kv => negb (bool_decide (kv.1 ∈ ["credential_type"; "auth_config"]))) credential).

(** What [_cache_read] makes of a cached text. *)
Definition parse_cached (c : cached) : option AuthParams :=
  match c with
  | Text (Some (VDict parsed)) =>
      match dget "headers" parsed, dget "query" parsed with
      | Some (VDict _), _ | _, Some (VDict _) =>
          let params := Auth (str_values (dict_or_empty (dget "headers" parsed)))
                             (str_values (dict_or_empty (dget "query" parsed))) in
          if nonempty (headers params) || nonempty (query params) then Some params else None
      | _, _ => let h := str_values parsed in if nonempty h then Some (Auth h []) else None
      end
  | _ => None
  end.

Section executor.
Context (E : environment) (has_cache has_store : bool) (fingerprint_tool_call : string -> dict string val -> string).

Definition raise_app {A} (c : error_class) (m : message) : tx A :=
  fun tr => (tr, Err (App (AppError c m (env_id E tr)))).

Definition new_error_id : tx string := fun tr => (tr, Ok (env_id E tr)).
Definition clock : tx Q := fun tr => (tr, Ok (env_clock E tr)).

(** [_elapsed_ms] *)
Definition elapsed_ms (started : Q) : tx Z :=
  now <- clock ;;
  se_ret (Z.max 0 (py_trunc ((now - started) * inject_Z 1000)%Q)).

(** ** The resolver (auth_resolver.py) *)

(** [except Exception]: a best-effort cache operation swallows what it raises. *)
Definition best_effort {A} (c : tx A) (degraded : A) : tx A :=
  try_except c (fun e => if is_exception e then se_ret degraded else se_raise e).

Definition invalidate_credential_cache (credential_id : string) : tx unit :=
  if has_cache
  then best_effort (ask (ECacheDel credential_id) (fun tr => env_cache_del E tr credential_id)) tt
  else se_ret tt.

Definition cache_read (auth_ref : string) : tx (option AuthParams) :=
  if has_cache
  then raw <- best_effort (ask (ECacheGet auth_ref) (fun tr => env_cache_get E tr auth_ref)) NoText ;;
       se_ret (parse_cached raw)
  else se_ret None.

Definition cache_write (auth_ref : string) (params : AuthParams) : tx unit :=
  if has_cache
  then best_effort (ask (ECacheSet auth_ref AUTH_CACHE_TTL_S params)
                        (fun tr => env_cache_set E tr auth_ref params)) tt
  else se_ret tt.

Definition load_credential (auth_ref : string) : tx (dict string val) :=
  if has_store
  then credential <- ask (ECredential auth_ref) (fun tr => env_credential E tr auth_ref) ;;
       match credential with
       | None => raise_app ToolExecutionError (MUnknownCredential auth_ref)
       | Some c => se_ret c
       end
  else raise_app ToolExecutionError (MNoStore auth_ref).

Definition resolve_from_store (ref : string) : tx AuthParams :=
  credential <- load_credential ref ;;
  match render_credential credential with
  | None => raise_app ToolExecutionError (MNoSecret ref)
  | Some params => cache_write ref params ;;; se_ret params
  end.

Definition resolve_auth (tool : ToolDefinition) (force_refresh : bool) : tx AuthParams :=
  match t_auth_ref tool with
  | None => se_ret (Auth [] [])
  | Some ref =>
      hit <- (if force_refresh then se_ret None else cache_read ref) ;;
      match hit with
      | Some params => se_ret params
      | None => resolve_from_store ref
      end
  end.

(** ** Results (executor.py); pydantic refuses an empty [tool_id] or [agent_id] *)
Definition mk_result (r : ToolExecutionResult) : tx ToolExecutionResult :=
  if str_true (r_tool_id r) && str_true (r_agent_id r) then se_ret r else se_raise (Plain "ValidationError").

(** [_clamp_timeout] *)
Definition clamp_timeout (timeout_s : Z) : Z := Z.max TOOL_TIMEOUT_MIN_S (Z.min timeout_s TOOL_TIMEOUT_MAX_S).

(** [httpx.codes.is_success] *)
Definition is_success (status : Z) : bool := ((200 <=? status) && (status <=? 299))%Z.

Definition response_data (r : response) : payload :=
  match rs_json r with
  | None => PText (str_take EXECUTOR_RESPONSE_MAX_CHARS (rs_text r))
  | Some (VDict d) => PMapping d
  | Some v => PStrOf v
  end.

Definition result_from_response (tool : ToolDefinition) (agent fingerprint : string) (started : Q) (r : response)
    : tx ToolExecutionResult :=
  elapsed <- elapsed_ms started ;;
  error_id <- (if is_success (rs_status r) then se_ret None
               else i <- new_error_id ;; se_ret (Some i)) ;;
  mk_result (Result (t_tool_id tool) agent (is_success (rs_status r)) (SHttp (rs_status r) elapsed)
                    (response_data r) fingerprint elapsed error_id).

Definition failure_result (tool : ToolDefinition) (agent fingerprint : string) (started : Q) (s : summary)
    : tx ToolExecutionResult :=
  error_id <- new_error_id ;;
  elapsed <- elapsed_ms started ;;
  mk_result (Result (t_tool_id tool) agent false s (PMapping []) fingerprint elapsed (Some error_id)).

Definition timeout_result tool agent fingerprint started (timeout_s : Z) : tx ToolExecutionResult :=
  failure_result tool agent fingerprint started (STimeout timeout_s).

Definition unreachable_result tool agent fingerprint started : tx ToolExecutionResult :=
  failure_result tool agent fingerprint started SUnreachable.

Definition execute_internal (tool : ToolDefinition) (agent : string) (arguments : dict string val)
    (fingerprint : string) (started : Q) : tx ToolExecutionResult :=
  elapsed <- elapsed_ms started ;;
  mk_result (Result (t_tool_id tool) agent true (SInternal (t_name tool) elapsed)
    (PMapping [("tool", VStr (t_name tool)); ("arguments", VDict (redact_secrets arguments));
               ("call_fingerprint", VStr fingerprint)]) fingerprint elapsed None).

(** ** HTTP *)
Definition send (q : request) : tx response := ask (EHttp q) (fun tr => env_http E tr q).

Definition str_params (d : dict string string) : dict string val := map (fun kv => (kv.1, VStr kv.2)) d.

(** [{**a, **b}] *)
Definition merge {V} (a b : dict string V) : dict string V := dupdate a b.

Definition upper_char (c : ascii) : ascii :=
  let n := Ascii.N_of_ascii c in
  if ((97 <=? n) && (n <=? 122))%N then Ascii.ascii_of_N (n - 32) else c.

Definition http_method (tool : ToolDefinition) : string :=
  of_chars (map upper_char (chars (if str_true (t_method tool) then t_method tool else "POST"))).

Definition http_request (tool : ToolDefinition) (url : string) (auth : AuthParams) (arguments : dict string val)
    (timeout_s : Z) : request :=
  if decide (http_method tool = "GET")
  then Request "GET" url (headers auth) (merge (str_params (query auth)) arguments) None timeout_s
  else Request (http_method tool) url (headers auth) (str_params (query auth)) (Some (VDict arguments)) timeout_s.

(** [_call_once] *)
Definition call_once tool url auth arguments timeout_s : tx response :=
  send (http_request tool url auth arguments timeout_s).

(** The loop [for _ in range(n)] of [_call_with_auth_retry]. *)
Fixpoint retry_loop (n : nat) tool url arguments timeout_s (r : response) : tx response :=
  match n with
  | O => se_ret r
  | S n =>
      match t_auth_ref tool with
      | Some ref =>
          if decide (rs_status r = HTTP_UNAUTHORIZED)
          then invalidate_credential_cache ref ;;;
               auth <- resolve_auth tool true ;;
               r' <- call_once tool url auth arguments timeout_s ;;
               retry_loop n tool url arguments timeout_s r'
          else se_ret r
      | None => se_ret r
      end
  end.

Definition call_with_auth_retry tool url auth arguments timeout_s : tx response :=
  r <- call_once tool url auth arguments timeout_s ;;
  retry_loop RETRY_ONCE tool url arguments timeout_s r.

Definition ensure_endpoint_safe (safe : bool) (tool_id : string) : tx unit :=
  guard_raise safe (raise_app ToolExecutionError (MUnsafe tool_id)).

(** The [try] of [_execute_http]: transport failures become failed results. *)
Definition settle (tool : ToolDefinition) (agent fingerprint : string) (started : Q) (timeout_s : Z)
    (exchange : tx response) : tx ToolExecutionResult :=
  outcome <- try_except (r <- exchange ;; se_ret (inl r))
    (fun e => match e with
              | HttpxTimeout | HttpxError _ => se_ret (inr e)
              | _ => se_raise e
              end) ;;
  match outcome with
  | inl r => result_from_response tool agent fingerprint started r
  | inr HttpxTimeout => timeout_result tool agent fingerprint started timeout_s
  | inr _ => unreachable_result tool agent fingerprint started
  end.

Definition execute_http (tool : ToolDefinition) (agent : string) (arguments : dict string val)
    (fingerprint : string) (started : Q) : tx ToolExecutionResult :=
  let url := default "" (t_url tool) in
  safe <- ask (EGuard url) (fun tr => env_guard E tr url) ;;
  ensure_endpoint_safe safe (t_tool_id tool) ;;;
  let timeout_s := clamp_timeout (t_timeout_s tool) in
  auth <- resolve_auth tool false ;;
  settle tool agent fingerprint started timeout_s
    (call_with_auth_retry tool url auth arguments timeout_s).

(** ** MCP (adapters/mcp/client.py, the calls the executor makes) *)
Record McpHttpClient := Client { m_base_url : string; m_timeout_s : Z; m_extra_headers : dict string string;
                                 m_session_id : option string }.

(** [s.rstrip("/")] *)
Fixpoint drop_slashes (l : text) : text :=
  match l with
  | c :: l' => if decide (c = "/"%char) then drop_slashes l' else l
  | [] => []
  end.
Definition rstrip_slash (s : string) : string := of_chars (reverse (drop_slashes (reverse (chars s)))).

Definition mcp_client (url : string) (timeout_s : Z) (extra_headers : dict string string) : McpHttpClient :=
  Client (rstrip_slash url) timeout_s extra_headers None.

(** [_headers({"Content-Type": "application/json"})] without an access token *)
Definition mcp_headers (c : McpHttpClient) : dict string string :=
  let h := dset "Content-Type" "application/json" (m_extra_headers c) in
  match m_session_id c with
  | Some s => if str_true s then dset "Mcp-Session-Id" s h else h
  | None => h
  end.

Definition mcp_request (c : McpHttpClient) (envelope : dict string val) : request :=
  Request "POST" (m_base_url c) (mcp_headers c) [] (Some (VDict envelope)) (m_timeout_s c).

(** [_post]: the client carries the session of the last answer. *)
Definition mcp_post (c : McpHttpClient) (envelope : dict string val) : tx (McpHttpClient * val) :=
  r <- try_except (send (mcp_request c envelope))
         (fun e => match e with
                   | HttpxTimeout | HttpxError _ => raise_app ToolExecutionError MMcpUnreachable
                   | _ => se_raise e
                   end) ;;
  let c' := match rs_session r with
            | Some s => if str_true s then Client (m_base_url c) (m_timeout_s c) (m_extra_headers c) (Some s) else c
            | None => c
            end in
  if rs_sse r then se_ret (c', VList (rs_events r))
  else match rs_json r with
       | None => raise_app ToolExecutionError MMcpNotJson
       | Some (VDict d) =>
           if dhas "error" d then raise_app ToolExecutionError MMcpRefused
           else se_ret (c', default (VDict d) (dget "result" d))
       | Some v => se_ret (c', v)
       end.

Definition initialize_envelope : dict string val :=
  [("jsonrpc", VStr "2.0"); ("id", VInt 1); ("method", VStr "initialize");
   ("params", VDict [("protocolVersion", VStr "2026-07-28"); ("capabilities", VDict [])])].
Definition initialized_envelope : dict string val :=
  [("jsonrpc", VStr "2.0"); ("method", VStr "notifications/initialized")].
Definition call_envelope (name : string) (arguments : dict string val) : dict string val :=
  [("jsonrpc", VStr "2.0"); ("id", VInt 3); ("method", VStr "tools/call");
   ("params", VDict [("name", VStr name); ("arguments", VDict arguments)])].

(** [initialize]: the handshake; a lost notification is only logged. *)
Definition mcp_initialize (c : McpHttpClient) : tx McpHttpClient :=
  p <- mcp_post c initialize_envelope ;;
  try_except (send (mcp_request p.1 initialized_envelope) ;;; se_ret tt)
    (fun e => match e with HttpxTimeout | HttpxError _ => se_ret tt | _ => se_raise e end) ;;;
  se_ret p.1.

Definition call_tool (c : McpHttpClient) (name : string) (arguments : dict string val) : tx val :=
  p <- mcp_post c (call_envelope name arguments) ;; se_ret p.2.

Definition mcp_data (outcome : val) : payload :=
  match outcome with VDict d => PMapping d | v => PStrOf v end.

(** One attempt: handshake, call, result. *)
Definition mcp_attempt (tool : ToolDefinition) (agent url remote : string) (timeout_s : Z) (auth : AuthParams)
    (arguments : dict string val) (fingerprint : string) (started : Q) : tx ToolExecutionResult :=
  c <- mcp_initialize (mcp_client url timeout_s (headers auth)) ;;
  outcome <- call_tool c remote arguments ;;
  elapsed <- elapsed_ms started ;;
  mk_result (Result (t_tool_id tool) agent true (SMcp (t_name tool) elapsed) (mcp_data outcome)
                    fingerprint elapsed None).

Definition is_execution_error (e : raised) : bool :=
  match e with App a => match ae_class a with ToolExecutionError => true | _ => false end | _ => false end.

(** [try: ... except ToolExecutionError: None] *)
Definition on_execution_error {A} (c : tx A) : tx (option A) :=
  try_except (a <- c ;; se_ret (Some a)) (fun e => if is_execution_error e then se_ret None else se_raise e).

Definition refuse_query (auth : AuthParams) : tx unit :=
  guard_raise (negb (nonempty (query auth))) (raise_app ToolExecutionError MQueryOverMcp).

(** The loop [for _ in range(n)] of [_execute_mcp]. *)
Fixpoint mcp_loop (n : nat) (tool : ToolDefinition) (agent url remote : string) (timeout_s : Z) (auth : AuthParams)
    (arguments : dict string val) (fingerprint : string) (started : Q) : tx ToolExecutionResult :=
  match n with
  | O => unreachable_result tool agent fingerprint started
  | S n =>
      o <- on_execution_error (mcp_attempt tool agent url remote timeout_s auth arguments fingerprint started) ;;
      match o, t_auth_ref tool with
      | Some r, _ => se_ret r
      | None, None => unreachable_result tool agent fingerprint started
      | None, Some ref =>
          invalidate_credential_cache ref ;;;
          fresh <- on_execution_error (resolve_auth tool true) ;;
          match fresh with
          | None => unreachable_result tool agent fingerprint started
          | Some auth => refuse_query auth ;;;
                         mcp_loop n tool agent url remote timeout_s auth arguments fingerprint started
          end
      end
  end.

Definition mcp_remote (tool : ToolDefinition) : string :=
  match default (VStr (t_name tool)) (dget "mcp_tool" (t_meta tool)) with
  | VStr s => if str_true s then s else t_name tool
  | _ => t_name tool
  end.

Definition execute_mcp (tool : ToolDefinition) (agent : string) (arguments : dict string val)
    (fingerprint : string) (started : Q) : tx ToolExecutionResult :=
  let url := default "" (t_url tool) in
  safe <- ask (EGuard url) (fun tr => env_guard E tr url) ;;
  ensure_endpoint_safe safe (t_tool_id tool) ;;;
  let timeout_s := clamp_timeout (t_timeout_s tool) in
  auth <- resolve_auth tool false ;;
  refuse_query auth ;;;
  mcp_loop (RETRY_ONCE + 1) tool agent url (mcp_remote tool) timeout_s auth arguments fingerprint started.

(** ** The pipeline (executor.py, exceptions.py) *)
Definition ensure_allowlisted (tool_id : string) (snapshot : AgentSnapshot) : tx unit :=
  guard_raise (bool_decide (tool_id ∈ tool_refs snapshot))
    (raise_app ToolDeniedError (MDenied tool_id (agent_id snapshot))).

Definition ensure_tool_executable (tool : option ToolDefinition) (tool_id : string) : tx ToolDefinition :=
  match tool with
  | None => raise_app ToolNotFoundError (MNotFound tool_id)
  | Some t => se_ret t
  end.

Definition ensure_arguments_valid (problems : list string) (tool_id : string) : tx unit :=
  guard_raise (negb (nonempty problems)) (raise_app ToolExecutionError (MBadArguments tool_id problems)).

Definition over_mcp (tool : ToolDefinition) : bool :=
  match dget "transport" (t_meta tool) with Some (VStr t) => bool_decide (t = "mcp") | _ => false end.

Definition is_internal (tool : ToolDefinition) : bool :=
  match t_url tool, t_kind tool with None, _ | _, KInternal => true | _, _ => false end.

Definition execute_checked (canonical : string) (arguments : dict string val) (snapshot : AgentSnapshot)
    (started : Q) : tx ToolExecutionResult :=
  ensure_allowlisted canonical snapshot ;;;
  row <- ask (ETool canonical) (fun tr => env_tool E tr canonical) ;;
  tool <- ensure_tool_executable row canonical ;;
  ensure_arguments_valid (validate_arguments (t_parameters tool) arguments) canonical ;;;
  let fingerprint := fingerprint_tool_call canonical arguments in
  let agent := agent_id snapshot in
  if is_internal tool then execute_internal tool agent arguments fingerprint started
  else if over_mcp tool then execute_mcp tool agent arguments fingerprint started
  else execute_http tool agent arguments fingerprint started.

(** [_record] and [LogsRepository.save_log]: an insert that fails is swallowed. *)
Definition record (r : ToolExecutionResult) (arguments : dict string val) (tenant : string) : tx unit :=
  let row := Log (r_tool_id r) (r_agent_id r) arguments (r_summary r) (r_success r) (r_ms r) (r_error_id r) tenant in
  best_effort (ask (EAudit row) (fun tr => env_audit E tr row)) tt.

Definition refused_result (canonical agent : string) (started : Q) (e : app_error) : tx ToolExecutionResult :=
  elapsed <- elapsed_ms started ;;
  mk_result (Result canonical agent false (SMessage (public_message e)) (PMapping []) "" elapsed
                    (Some (ae_error_id e))).

Definition execute_tool (tool_id : string) (arguments : dict string val) (snapshot : AgentSnapshot)
    (tenant : string) : tx ToolExecutionResult :=
  started <- clock ;;
  let canonical := strip_mcp_prefix tool_id in
  let redacted := redact_secrets arguments in
  result <- try_except (execute_checked canonical arguments snapshot started)
    (fun e => match e with
              | App a => refused <- refused_result canonical (agent_id snapshot) started a ;;
                         record refused redacted tenant ;;;
                         se_raise (App a)
              | _ => se_raise e
              end) ;;
  record result redacted tenant ;;;
  se_ret result.
End executor.

Create HintDb tx discriminated.

(** ** What a computation adds to the trace *)
Definition is_http (e : event) : bool := match e with EHttp _ _ => true | _ => false end.
Definition calls (ev : trace) : nat := length (List.filter is_http ev).

(** [c] only appends events in [P], at most [n] of them outbound requests. *)
Definition does {A} (P : event -> Prop) (n : nat) (c : tx A) : Prop :=
  forall tr, exists ev, (c tr).1 = tr ++ ev /\ Forall P ev /\ calls ev <= n.

Lemma calls_app a b : calls (a ++ b) = calls a + calls b.
Proof. unfold calls. by rewrite List.filter_app, length_app. Qed.

Lemma does_ret {A} P n (a : A) : does P n (se_ret a).
Proof. intros tr. exists []. rewrite app_nil_r. refine (conj _ (conj _ _)); [done|by apply Forall_nil|apply Nat.le_0_l]. Qed.
Lemma does_raise {A} P n e : does P n (@se_raise trace raised A e).
Proof. intros tr. exists []. rewrite app_nil_r. refine (conj _ (conj _ _)); [done|by apply Forall_nil|apply Nat.le_0_l]. Qed.

Lemma does_bind {A B} P n m (c : tx A) (k : A -> tx B) :
  does P n c -> (forall a, does P m (k a)) -> does P (n + m) (se_bind c k).
Proof.
  intros Hc Hk tr. destruct (Hc tr) as (e1 & H1 & P1 & N1). unfold se_bind.
  destruct (c tr) as [t1 [a|e]]; simpl in *; subst.
  - destruct (Hk a (tr ++ e1)) as (e2 & H2 & P2 & N2). exists (e1 ++ e2).
    rewrite H2, app_assoc, Forall_app, calls_app. refine (conj _ (conj _ _)); auto; lia.
  - exists e1. refine (conj _ (conj _ _)); auto; lia.
Qed.

Lemma does_try {A} P n m (c : tx A) h : does P n c -> (forall e, does P m (h e)) -> does P (n + m) (try_except c h).
Proof.
  intros Hc Hh tr. destruct (Hc tr) as (e1 & H1 & P1 & N1). unfold try_except.
  destruct (c tr) as [t1 [a|e]]; simpl in *; subst.
  - exists e1. refine (conj _ (conj _ _)); auto; lia.
  - destruct (Hh e (tr ++ e1)) as (e2 & H2 & P2 & N2). exists (e1 ++ e2).
    rewrite H2, app_assoc, Forall_app, calls_app. refine (conj _ (conj _ _)); auto; lia.
Qed.

Lemma does_weaken {A} (P Q : event -> Prop) n m (c : tx A) :
  does P n c -> (forall e, P e -> Q e) -> n <= m -> does Q m c.
Proof.
  intros Hc HP Hn tr. destruct (Hc tr) as (ev & -> & HF & HN). exists ev. refine (conj _ (conj _ _)); [done| |lia].
  by eapply Forall_impl.
Qed.

(** An interaction that is not a request costs nothing. *)
Lemma does_ask {A} (P : event -> Prop) n mk (answer : trace -> result raised A) :
  (forall r, P (mk r)) -> (forall r, is_http (mk r) = false) -> does P n (ask mk answer).
Proof.
  intros HP Hh tr. exists [mk (answer tr)]. unfold calls. simpl. rewrite Hh. refine (conj _ (conj _ _)); auto; simpl; lia.
Qed.

Lemma does_bind0 {A B} P n (c : tx A) (k : A -> tx B) :
  does P 0 c -> (forall a, does P n (k a)) -> does P n (se_bind c k).
Proof. apply (does_bind P 0 n). Qed.
Lemma does_try0 {A} P n (c : tx A) h : does P n c -> (forall e, does P 0 (h e)) -> does P n (try_except c h).
Proof. intros Hc Hh. eapply does_weaken; [by apply (does_try P n 0)|done|lia]. Qed.

(** Split a program into its steps. *)
Ltac does_steps :=
  repeat first
    [ apply does_ret | apply does_raise
    | apply does_ask; [by intros ?|by intros ?]
    | apply does_bind0; [|intros ?]
    | apply does_try0; [|intros ?]
    | progress match goal with
      | |- does _ _ (match ?x with _ => _ end) => destruct x
      | |- does _ _ (if ?b then _ else _) => destruct b
      | |- does _ _ (let _ := _ in _) => cbv zeta
      end
    | solve [eauto with tx] ].


(** ** Traces of the components *)
Definition silent (e : event) : Prop :=
  match e with EHttp _ _ | EAudit _ _ => False | _ => True end.

(** Only lookups of rows, credentials and cache entries, and clean requests. *)
Definition sends (Q : request -> Prop) (e : event) : Prop :=
  match e with EHttp q _ => Q q | ETool _ _ | EGuard _ _ | EAudit _ _ => False | _ => True end.

Section traces.
Context (E : environment) (has_cache has_store : bool) (fingerprint_tool_call : string -> dict string val -> string).
Context (Q : request -> Prop).

Lemma does_raise_app {A} P n c m : does P n (@raise_app E A c m).
Proof. intros tr. apply (does_raise P n _ tr). Qed.
Lemma does_id P n : does P n (new_error_id E).
Proof. intros tr. apply (does_ret P n _ tr). Qed.
Lemma does_clock P n : does P n (clock E).
Proof. intros tr. apply (does_ret P n _ tr). Qed.
#[local] Hint Resolve does_raise_app does_id does_clock : tx.

Lemma does_elapsed P n started : does P n (elapsed_ms E started).
Proof. unfold elapsed_ms. does_steps. Qed.
Lemma does_mk P n r : does P n (mk_result r).
Proof. unfold mk_result. does_steps. Qed.
Lemma does_guard P n b c : does P n c -> does P n (guard_raise b c).
Proof. intros. unfold guard_raise. does_steps. Qed.
#[local] Hint Resolve does_elapsed does_mk does_guard : tx.

Lemma does_invalidate ref : does (sends Q) 0 (invalidate_credential_cache E has_cache ref).
Proof. unfold invalidate_credential_cache, best_effort. does_steps. Qed.
Lemma does_resolve tool force : does (sends Q) 0 (resolve_auth E has_cache has_store tool force).
Proof.
  unfold resolve_auth, resolve_from_store, cache_read, cache_write, load_credential, best_effort. does_steps.
Qed.
Lemma does_failure P n tool agent fp started s : does P n (failure_result E tool agent fp started s).
Proof. unfold failure_result. does_steps. Qed.
#[local] Hint Resolve does_invalidate does_resolve does_failure : tx.

Lemma internal_silent tool agent args fp started tr :
  (execute_internal E tool agent args fp started tr).1 = tr.
Proof. unfold execute_internal, mk_result, elapsed_ms, clock, se_bind, se_ret. simpl. by destruct (_ && _). Qed.

Lemma does_send q n : Q q -> does (sends Q) (S n) (send E q).
Proof.
  intros HQ tr. exists [EHttp q (env_http E tr q)].
  refine (conj eq_refl (conj _ _)); [by apply Forall_singleton|unfold calls; simpl; lia].
Qed.
End traces.

#[export] Hint Resolve does_raise_app does_id does_clock does_elapsed does_mk does_guard
  does_invalidate does_resolve does_failure : tx.

Section paths.
Context (E : environment) (has_cache has_store : bool) (fingerprint_tool_call : string -> dict string val -> string).
Context (tool : ToolDefinition) (agent : string) (args : dict string val) (fp : string) (started : Q).

(** The requests a tool may cause. *)
Definition request_of (url : string) (q : request) : Prop :=
  (q_url q = url \/ over_mcp tool = true /\ q_url q = rstrip_slash url) /\
  q_timeout_s q = clamp_timeout (t_timeout_s tool).

Lemma http_request_of url auth :
  request_of url (http_request tool url auth args (clamp_timeout (t_timeout_s tool))).
Proof. unfold request_of, http_request. by destruct (decide _); simpl; auto. Qed.

Definition attempts : nat := match t_auth_ref tool with None => 1 | Some _ => 2 end.

Lemma does_retry_loop url n r :
  does (sends (request_of url)) (match t_auth_ref tool with None => 0 | Some _ => n end)
    (retry_loop E has_cache has_store n tool url args (clamp_timeout (t_timeout_s tool)) r).
Proof.
  revert r. induction n as [|n IH]; intros r; simpl; [does_steps|].
  destruct (t_auth_ref tool) eqn:Ea; [|does_steps]. destruct (decide _); [|does_steps].
  do 2 (apply does_bind0; [auto with tx|intros ?]).
  apply (does_bind _ 1 n); [apply does_send, http_request_of|auto].
Qed.

(** The verdict on the URL comes first; only a favourable one is followed by
    requests. *)
Definition after_guard {A} (n : nat) (c : tx A) : Prop :=
  let url := default "" (t_url tool) in
  forall tr, exists ev, (c tr).1 = tr ++ ev /\
    ((exists v, v <> Ok true /\ ev = [EGuard url v]) \/
     exists ev', ev = EGuard url (Ok true) :: ev' /\ Forall (sends (request_of url)) ev' /\ calls ev' <= n).

Lemma guard_first {A} n (k : tx A) :
  does (sends (request_of (default "" (t_url tool)))) n k ->
  after_guard n (se_bind (ask (EGuard (default "" (t_url tool))) (fun tr => env_guard E tr (default "" (t_url tool))))
                   (fun safe => ensure_endpoint_safe E safe (t_tool_id tool) ;;; k)).
Proof.
  intros Hk tr. unfold se_bind, ask. destruct (env_guard E tr _) as [[|]|e] eqn:Hg.
  - simpl. unfold se_ret. destruct (Hk (tr ++ [EGuard (default "" (t_url tool)) (Ok true)])) as (ev & H & P & N).
    exists (EGuard (default "" (t_url tool)) (Ok true) :: ev). rewrite H, <- app_assoc. split; [done|]. right. by exists ev.
  - simpl. eexists. split; [done|]. left. by exists (Ok false).
  - eexists. split; [done|]. left. by exists (Err e).
Qed.

Lemma http_guarded : after_guard attempts (execute_http E has_cache has_store tool agent args fp started).
Proof.
  unfold execute_http, settle, timeout_result, unreachable_result, attempts. apply guard_first.
  apply does_bind0; [does_steps|intros ?]. eapply does_weaken.
  - apply (does_bind _ (1 + match t_auth_ref tool with None => 0 | Some _ => RETRY_ONCE end) 0).
    + apply does_try0; [|intros []; does_steps]. rewrite <- (Nat.add_0_r (1 + _)).
      apply does_bind; [|intros ?; does_steps]. apply does_bind; [apply does_send, http_request_of|].
      intros ?. apply does_retry_loop.
    + intros [?|[]]; unfold result_from_response; does_steps.
  - done.
  - destruct (t_auth_ref tool); simpl; lia.
Qed.

Lemma does_mcp_post url c envelope :
  over_mcp tool = true -> m_base_url c = rstrip_slash url -> m_timeout_s c = clamp_timeout (t_timeout_s tool) ->
  does (sends (request_of url)) 1 (mcp_post E c envelope).
Proof.
  intros Ho Hu Ht. unfold mcp_post. apply (does_bind _ 1 0).
  - apply does_try0; [|intros []; does_steps]. apply does_send. split; [right|]; done.
  - intros r. does_steps.
Qed.

(** The client of an answer talks to the same server. *)
Lemma mcp_post_client c envelope tr tr' c' v :
  mcp_post E c envelope tr = (tr', Ok (c', v)) -> m_base_url c' = m_base_url c /\ m_timeout_s c' = m_timeout_s c.
Proof.
  unfold mcp_post. intros H. run_inv. revert H. unfold raise_app, se_ret.
  repeat (case_match; simpl; try done); intros [= <- <- <-]; by repeat case_match.
Qed.

Lemma does_bind_post {A} url c envelope n (k : McpHttpClient * val -> tx A) :
  over_mcp tool = true -> m_base_url c = rstrip_slash url -> m_timeout_s c = clamp_timeout (t_timeout_s tool) ->
  (forall c' v, m_base_url c' = rstrip_slash url -> m_timeout_s c' = clamp_timeout (t_timeout_s tool) ->
     does (sends (request_of url)) n (k (c', v))) ->
  does (sends (request_of url)) (S n) (se_bind (mcp_post E c envelope) k).
Proof.
  intros Ho Hu Ht Hk tr. destruct (does_mcp_post url c envelope Ho Hu Ht tr) as (e1 & H1 & P1 & N1).
  unfold se_bind. destruct (mcp_post E c envelope tr) as [t1 [[c' v]|e]] eqn:Hp; simpl in *; subst.
  - apply mcp_post_client in Hp as [Hb Hs].
    destruct (Hk c' v ltac:(congruence) ltac:(congruence) (tr ++ e1)) as (e2 & -> & P2 & N2).
    exists (e1 ++ e2). rewrite app_assoc, Forall_app, calls_app. refine (conj _ (conj _ _)); auto; lia.
  - exists e1. refine (conj _ (conj _ _)); auto; lia.
Qed.

Lemma does_mcp_attempt url remote auth :
  over_mcp tool = true ->
  does (sends (request_of url)) 3
    (mcp_attempt E tool agent url remote (clamp_timeout (t_timeout_s tool)) auth args fp started).
Proof.
  intros Ho. unfold mcp_attempt, mcp_initialize.
  intros tr. rewrite se_bind_assoc. revert tr. apply does_bind_post; [done..|]. intros c v Hu Ht. simpl.
  intros tr. rewrite se_bind_assoc. revert tr. apply (does_bind _ 1 1).
  - apply does_try0; [|intros []; does_steps]. rewrite <- (Nat.add_0_r 1).
    apply does_bind; [apply does_send; split; auto|intros ?; does_steps].
  - intros _. unfold call_tool. intros tr. rewrite se_bind_ret_l, se_bind_assoc. revert tr.
    apply does_bind_post; [done..|]. intros. simpl. does_steps.
Qed.

Lemma does_mcp_loop url remote n auth :
  over_mcp tool = true ->
  does (sends (request_of url)) (3 * match t_auth_ref tool with None => 1 | Some _ => n end)
    (mcp_loop E has_cache has_store n tool agent url remote (clamp_timeout (t_timeout_s tool)) auth args fp started).
Proof.
  intros Ho. revert auth. induction n as [|n IH]; intros auth; cbn [mcp_loop]; unfold unreachable_result; [does_steps|].
  replace (3 * _) with (3 + match t_auth_ref tool with None => 0 | Some _ => 3 * n end)
    by (destruct (t_auth_ref tool); lia).
  apply does_bind.
  - unfold on_execution_error. apply does_try0; [|intros ?; does_steps]. rewrite <- (Nat.add_0_r 3).
    apply does_bind; [by apply does_mcp_attempt|intros ?; does_steps].
  - intros [r|]; [does_steps|]. destruct (t_auth_ref tool) as [ref|] eqn:Ea; [|does_steps].
    apply does_bind0; [auto with tx|intros ?]. apply does_bind0; [unfold on_execution_error; does_steps|].
    intros [p|]; [|does_steps]. apply does_bind0; [unfold refuse_query; does_steps|intros ?; apply IH].
Qed.

Lemma mcp_guarded :
  over_mcp tool = true -> after_guard (3 * attempts) (execute_mcp E has_cache has_store tool agent args fp started).
Proof.
  intros Ho. unfold execute_mcp, refuse_query, attempts. apply guard_first.
  do 2 (apply does_bind0; [does_steps|intros ?]).
  eapply does_weaken; [by apply does_mcp_loop|done|]. destruct (t_auth_ref tool); simpl; lia.
Qed.
End paths.

(** ** What a tool may cost and when it is reached *)
Definition budget (tool : ToolDefinition) : nat := (if over_mcp tool then 3 else 1) * attempts tool.

(** What has been checked before the first request goes out. *)
Definition cleared (canonical : string) (args : dict string val) (snapshot : AgentSnapshot)
    (tool : ToolDefinition) (url : string) : Prop :=
  canonical ∈ tool_refs snapshot /\ t_url tool = Some url /\ t_kind tool <> KInternal /\
  validate_arguments (t_parameters tool) args = [].

(** The events of a guarded call: refused or internal, nothing is sent; else the
    row and the verdict come first. *)
Inductive guarded (canonical : string) (args : dict string val) (snapshot : AgentSnapshot) : trace -> Prop :=
| guarded_none : guarded canonical args snapshot []
| guarded_row r : guarded canonical args snapshot [ETool canonical r]
| guarded_unsafe r url v : v <> Ok true -> guarded canonical args snapshot [ETool canonical r; EGuard url v]
| guarded_sent tool url ev :
    cleared canonical args snapshot tool url -> Forall (sends (request_of tool url)) ev -> calls ev <= budget tool ->
    guarded canonical args snapshot (ETool canonical (Ok (Some tool)) :: EGuard url (Ok true) :: ev).

Section guard.
Context (E : environment) (has_cache has_store : bool) (fingerprint_tool_call : string -> dict string val -> string).
Context (snapshot : AgentSnapshot) (args : dict string val).

Lemma checked_guarded canonical started tr : exists ev,
  (execute_checked E has_cache has_store fingerprint_tool_call canonical args snapshot started tr).1 = tr ++ ev /\
  guarded canonical args snapshot ev.
Proof.
  unfold execute_checked, ensure_allowlisted. unfold se_bind at 1. unfold guard_raise.
  case_bool_decide as Hin; [|exists []; rewrite app_nil_r; split; [done|constructor]].
  unfold se_ret, se_bind at 1, ask. destruct (env_tool E tr canonical) as [[tool|]|e] eqn:Ht.
  2,3: eexists; split; [done|apply guarded_row].
  unfold ensure_tool_executable, ensure_arguments_valid, guard_raise. rewrite se_bind_ret_l. unfold se_bind at 1.
  destruct (validate_arguments (t_parameters tool) args) eqn:Hv; simpl.
  2: eexists; split; [done|apply guarded_row].
  unfold se_ret. destruct (is_internal tool) eqn:Hi.
  - rewrite internal_silent. eexists. split; [done|apply guarded_row].
  - assert (Hc : forall c : tx ToolExecutionResult, after_guard tool (budget tool) c ->
      exists ev, (c (tr ++ [ETool canonical (Ok (Some tool))])).1 = tr ++ ev /\ guarded canonical args snapshot ev).
    { intros c Hg. destruct (Hg (tr ++ [ETool canonical (Ok (Some tool))])) as (ev & -> & [(v & Hne & ->)|(ev' & -> & HF & HN)]);
        rewrite <- app_assoc; simpl; (eexists; split; [done|]); [by apply guarded_unsafe|].
      apply guarded_sent; [|done..]. unfold is_internal in Hi. unfold cleared.
      destruct (t_url tool), (t_kind tool); try done; auto. }
    unfold budget in Hc. destruct (over_mcp tool) eqn:Ho; apply Hc; [by apply mcp_guarded|].
    rewrite Nat.mul_1_l. apply http_guarded.
Qed.
End guard.

Definition quiet (e : event) : Prop := match e with EAudit _ _ => False | _ => True end.

Lemma guarded_quiet canonical args snapshot ev : guarded canonical args snapshot ev -> Forall quiet ev.
Proof.
  intros []; repeat constructor. eapply Forall_impl; [done|]. by intros [].
Qed.

(** The row [_record] writes for a result. *)
Definition audit_row (r : ToolExecutionResult) (arguments : dict string val) (tenant : string) : ToolExecutionLog :=
  Log (r_tool_id r) (r_agent_id r) arguments (r_summary r) (r_success r) (r_ms r) (r_error_id r) tenant.

Section tool.
Context (E : environment) (has_cache has_store : bool) (fingerprint_tool_call : string -> dict string val -> string).

Lemma record_run r a tenant tr : exists ans,
  record E r a tenant tr = (tr ++ [EAudit (audit_row r a tenant) ans],
                            match ans with Err Cancelled => Err Cancelled | _ => Ok tt end).
Proof.
  exists (env_audit E tr (audit_row r a tenant)). unfold record, best_effort, try_except, ask. fold (audit_row r a tenant).
  by destruct (env_audit E tr _) as [[]|[]].
Qed.

Lemma refused_run canonical agent started e tr : canonical <> "" -> agent <> "" -> exists ms,
  refused_result E canonical agent started e tr =
    (tr, Ok (Result canonical agent false (SMessage (public_message e)) (PMapping []) "" ms (Some (ae_error_id e)))).
Proof.
  intros Hc Ha. unfold refused_result, mk_result, elapsed_ms, clock, se_bind, se_ret. cbn [r_tool_id r_agent_id].
  destruct (str_true canonical) eqn:H1; [|by apply str_true_false in H1].
  destruct (str_true agent) eqn:H2; [|by apply str_true_false in H2]. by eexists.
Qed.

(** The outcome and the audit trail of a call, from those of its guarded part. *)
Definition audited (tool_id : string) (args : dict string val) (snapshot : AgentSnapshot) (tenant : string)
    (mid tr' : trace) (o : result raised ToolExecutionResult) : Prop :=
  match o with
  | Ok r => exists a, tr' = mid ++ [EAudit (audit_row r (redact_secrets args) tenant) a]
  | Err (App e) => exists r a, tr' = mid ++ [EAudit (audit_row r (redact_secrets args) tenant) a] /\
      r_tool_id r = strip_mcp_prefix tool_id /\ r_agent_id r = agent_id snapshot /\ r_success r = false /\
      r_summary r = SMessage (public_message e) /\ r_error_id r = Some (ae_error_id e)
  | Err Cancelled => tr' = mid \/ exists row, tr' = mid ++ [EAudit row (Err Cancelled)]
  | Err _ => tr' = mid
  end.

Lemma execute_tool_trace tool_id args snapshot tenant tr tr' o :
  strip_mcp_prefix tool_id <> "" -> agent_id snapshot <> "" ->
  execute_tool E has_cache has_store fingerprint_tool_call tool_id args snapshot tenant tr = (tr', o) ->
  exists ev, guarded (strip_mcp_prefix tool_id) args snapshot ev /\
    audited tool_id args snapshot tenant (tr ++ ev) tr' o.
Proof.
  intros Hc Ha. unfold execute_tool. unfold se_bind at 1, clock at 1. cbv beta iota zeta.
  destruct (checked_guarded E has_cache has_store fingerprint_tool_call snapshot args
              (strip_mcp_prefix tool_id) (env_clock E tr) tr) as (ev & Hev & Hg).
  unfold se_bind at 1, try_except.
  destruct (execute_checked _ _ _ _ _ _ _ _ tr) as [t1 [r|e]]; simpl in Hev; subst t1; intros H; exists ev; (split; [done|]).
  - destruct (record_run r (redact_secrets args) tenant (tr ++ ev)) as (ans & Hr). unfold se_bind in H. rewrite Hr in H.
    unfold se_ret in H. destruct ans as [[]|[]]; simplify_eq/=; eauto.
  - destruct e as [a| | | |]; try (unfold se_raise in H; simplify_eq/=; auto; fail).
    destruct (refused_run (strip_mcp_prefix tool_id) (agent_id snapshot) (env_clock E tr) a (tr ++ ev) Hc Ha) as (ms & Hr).
    unfold se_bind in H. rewrite Hr in H.
    destruct (record_run (Result (strip_mcp_prefix tool_id) (agent_id snapshot) false (SMessage (public_message a))
      (PMapping []) "" ms (Some (ae_error_id a))) (redact_secrets args) tenant (tr ++ ev)) as (ans & Hs). rewrite Hs in H.
    unfold se_raise in H. destruct ans as [[]|[]]; simplify_eq/=; eauto 10.
Qed.
End tool.

(** ** The refresh after a refused credential *)
Section retry.
Context (E : environment) (has_cache has_store : bool).

Lemma does_silent {A} n (c : tx A) tr tr' o :
  does (sends (fun _ => False)) n c -> c tr = (tr', o) -> exists ev, tr' = tr ++ ev /\ Forall silent ev.
Proof.
  intros Hd Hr. destruct (Hd tr) as (ev & He & HF & _). rewrite Hr in He. exists ev. split; [done|].
  eapply Forall_impl; [done|]. by intros [].
Qed.

(** A forced refresh answers with what the store has now. *)
Lemma refresh_trace tool ref tr tr' p :
  t_auth_ref tool = Some ref -> resolve_auth E has_cache has_store tool true tr = (tr', Ok p) ->
  exists cred sets, tr' = tr ++ ECredential ref (Ok (Some cred)) :: sets /\ Forall silent sets /\
    render_credential cred = Some p.
Proof.
  intros Ha. unfold resolve_auth. rewrite Ha. unfold se_bind at 1, se_ret at 1.
  unfold resolve_from_store, load_credential, raise_app. destruct has_store; [|done].
  unfold se_bind, ask. destruct (env_credential E tr ref) as [[cred|]|e]; [|done..].
  cbn [se_ret]. unfold se_ret. destruct (render_credential cred) eqn:Hc; [|done]. intros H.
  destruct (cache_write E has_cache ref a _) as [t1 [[]|e]] eqn:Hw; [|done]. simplify_eq/=.
  apply (does_silent 0) in Hw as (sets & -> & Hs); [|unfold cache_write, best_effort; does_steps].
  exists cred, sets. by rewrite <- app_assoc.
Qed.

Lemma invalidate_trace ref tr tr' o : invalidate_credential_cache E has_cache ref tr = (tr', o) ->
  exists ev, tr' = tr ++ ev /\ Forall silent ev.
Proof. apply (does_silent 0). auto with tx. Qed.

Lemma resolve_trace tool force tr tr' o : resolve_auth E has_cache has_store tool force tr = (tr', o) ->
  exists ev, tr' = tr ++ ev /\ Forall silent ev.
Proof. apply (does_silent 0). auto with tx. Qed.

Context (tool : ToolDefinition) (url : string) (args : dict string val) (timeout_s : Z).

(** The requests of one HTTP execution and what the caller gets of them: one
    request, a refresh that fails, or two requests around a refresh. *)
Inductive exchange : trace -> result raised response -> Prop :=
| one_call auth a :
    (forall r, a = Ok r -> rs_status r = HTTP_UNAUTHORIZED -> t_auth_ref tool = None) ->
    exchange [EHttp (http_request tool url auth args timeout_s) a] a
| refresh_failed auth r ev e :
    rs_status r = HTTP_UNAUTHORIZED -> t_auth_ref tool <> None -> Forall silent ev ->
    exchange (EHttp (http_request tool url auth args timeout_s) (Ok r) :: ev) (Err e)
| two_calls auth r ref dels cred sets fresh a :
    rs_status r = HTTP_UNAUTHORIZED -> t_auth_ref tool = Some ref ->
    Forall silent dels -> Forall silent sets -> render_credential cred = Some fresh ->
    exchange (EHttp (http_request tool url auth args timeout_s) (Ok r) :: dels ++
              ECredential ref (Ok (Some cred)) :: sets ++ [EHttp (http_request tool url fresh args timeout_s) a]) a.

Lemma retry_trace auth tr tr' o :
  call_with_auth_retry E has_cache has_store tool url auth args timeout_s tr = (tr', o) ->
  exists ev, tr' = tr ++ ev /\ exchange ev o.
Proof.
  unfold call_with_auth_retry, call_once, send. unfold se_bind at 1, ask at 1.
  destruct (env_http E tr _) as [r|e]; [|intros [= <- <-]; eexists; split; [done|by apply one_call]].
  cbn [retry_loop RETRY_ONCE]. destruct (t_auth_ref tool) as [ref|] eqn:Ha;
    [|intros [= <- <-]; eexists; split; [done|by apply one_call]].
  destruct (decide _) as [H401|]; [|intros [= <- <-]; eexists; split; [done|apply one_call; by intros ? [= <-]]].
  set (t1 := tr ++ _). unfold se_bind at 1.
  destruct (invalidate_credential_cache E has_cache ref t1) as [t2 [[]|e]] eqn:Hi;
    apply invalidate_trace in Hi as (dels & -> & Hd).
  2: { intros [= <- <-]. eexists. subst t1. rewrite <- app_assoc.
       split; [done|by apply refresh_failed; [| rewrite Ha|]]. }
  unfold se_bind at 1. destruct (resolve_auth E has_cache has_store tool true (t1 ++ dels)) as [t3 [fresh|e]] eqn:Hr.
  2: { apply resolve_trace in Hr as (ev & -> & Hev). intros [= <- <-]. subst t1. eexists. rewrite <- !app_assoc.
       split; [done|apply refresh_failed; [done|by rewrite Ha|by apply Forall_app]]. }
  apply (refresh_trace tool ref) in Hr as (cred & sets & -> & Hs & Hc); [|done].
  unfold se_bind, se_ret, call_once, send, ask. cbv beta. subst t1. rewrite <- !app_assoc.
  destruct (env_http E _ (http_request tool url fresh args timeout_s)) as [r'|e];
    intros [= <- <-]; (eexists; split; [done|]); cbn [app]; by eapply two_calls.
Qed.
End retry.

(** What the caller of the HTTP path gets for the answer of the exchange. *)
Definition outcome_of (a : result raised response) (o : result raised ToolExecutionResult) : Prop :=
  match a with
  | Ok r => exists res, o = Ok res /\ r_success res = is_success (rs_status r) /\ r_data res = response_data r
  | Err HttpxTimeout => exists res, o = Ok res /\ r_success res = false /\ exists n, r_summary res = STimeout n
  | Err (HttpxError _) => exists res, o = Ok res /\ r_success res = false /\ r_summary res = SUnreachable
  | Err e => o = Err e
  end.

Lemma mk_result_run r tr : r_tool_id r <> "" -> r_agent_id r <> "" -> mk_result r tr = (tr, Ok r).
Proof.
  intros H1 H2. unfold mk_result. destruct (str_true (r_tool_id r)) eqn:E1; [|by apply str_true_false in E1].
  destruct (str_true (r_agent_id r)) eqn:E2; [done|by apply str_true_false in E2].
Qed.

Lemma settle_run E tool agent fp started lim c tr tr' a :
  t_tool_id tool <> "" -> agent <> "" -> c tr = (tr', a) ->
  exists o, settle E tool agent fp started lim c tr = (tr', o) /\ outcome_of a o.
Proof.
  intros Hid Hag Hc. unfold settle, try_except. unfold se_bind. rewrite Hc.
  destruct a as [r|[]]; cbn [se_ret se_raise];
    unfold se_ret, result_from_response, timeout_result, unreachable_result, failure_result, elapsed_ms, clock,
      new_error_id, se_bind, se_ret; try (eexists; split; done); cbn [se_ret].
  - destruct (is_success (rs_status r)) eqn:Hs; rewrite mk_result_run by done; eexists; split; [done| |done|];
      by eexists.
  - rewrite mk_result_run by done. eexists; split; [done|]. simpl. eauto.
  - rewrite mk_result_run by done. eexists; split; [done|]. simpl. eauto.
Qed.

(** The HTTP path sends nothing unless the URL was found safe, and then at most
    two requests: the second only after the first was answered 401 for a tool
    that has a credential, with what the credential store holds after the
    refresh; its answer is final. Transport failures become failed results. *)
Theorem credential_retry_once E has_cache has_store tool agent args fp started tr tr' o :
  t_tool_id tool <> "" -> agent <> "" ->
  execute_http E has_cache has_store tool agent args fp started tr = (tr', o) ->
  exists pre, Forall silent pre /\
    ((tr' = tr ++ pre /\ exists e, o = Err e) \/
     exists ev a, EGuard (default "" (t_url tool)) (Ok true) ∈ pre /\ tr' = tr ++ pre ++ ev /\
       exchange tool (default "" (t_url tool)) args (clamp_timeout (t_timeout_s tool)) ev a /\ outcome_of a o).
Proof.
  intros Hid Hag. unfold execute_http. set (url := default "" (t_url tool)). set (lim := clamp_timeout _).
  unfold se_bind at 1, ask at 1, ensure_endpoint_safe, guard_raise.
  destruct (env_guard E tr url) as [[|]|e].
  2: { intros [= <- <-]. exists [EGuard url (Ok false)]. split; [by repeat constructor|left; eauto]. }
  2: { intros [= <- <-]. exists [EGuard url (Err e)]. split; [by repeat constructor|left; eauto]. }
  unfold se_bind at 1, se_ret at 1. unfold se_bind at 1.
  destruct (resolve_auth E has_cache has_store tool false _) as [t1 [auth|e]] eqn:Hr;
    apply resolve_trace in Hr as (ev0 & -> & H0); rewrite <- app_assoc.
  2: { intros [= <- <-]. exists (EGuard url (Ok true) :: ev0). split; [by constructor|left; eauto]. }
  destruct (call_with_auth_retry E has_cache has_store tool url auth args lim (tr ++ [EGuard url (Ok true)] ++ ev0))
    as [t2 a] eqn:Hc.
  destruct (settle_run E tool agent fp started lim _ _ _ _ Hid Hag Hc) as (o' & -> & Ho). intros [= <- <-].
  apply retry_trace in Hc as (ev & -> & Hx). exists (EGuard url (Ok true) :: ev0). split; [by constructor|right].
  exists ev, a. rewrite <- app_assoc. split; [by left|done].
Qed.

(** ** Redaction *)

(** Two argument mappings that differ only in the values of secret-looking keys,
    at any depth. *)
Inductive same_item : val -> val -> Prop :=
| same_refl v : same_item v v
| same_list l l' : same_items l l' -> same_item (VList l) (VList l')
| same_dict d d' : same_entries d d' -> same_item (VDict d) (VDict d')
with same_items : list val -> list val -> Prop :=
| same_items_nil : same_items [] []
| same_items_cons v v' l l' : same_item v v' -> same_items l l' -> same_items (v :: l) (v' :: l')
with same_entries : dict string val -> dict string val -> Prop :=
| same_entries_nil : same_entries [] []
| same_secret k v v' d d' : secret_key k = true -> same_entries d d' -> same_entries ((k, v) :: d) ((k, v') :: d')
| same_public k v v' d d' : same_item v v' -> same_entries d d' -> same_entries ((k, v) :: d) ((k, v') :: d').

Scheme same_item_mut := Induction for same_item Sort Prop
  with same_items_mut := Induction for same_items Sort Prop
  with same_entries_mut := Induction for same_entries Sort Prop.

(** No secret-looking key keeps a value. *)
Fixpoint clean_item (item : val) : bool :=
  match item with
  | VDict d =>
      (fix go (d : dict string val) : bool :=
         match d with
         | [] => true
         | (k, v) :: d' =>
             (if secret_key k then val_eqb v (VStr REDACTED_VALUE) else clean_item v) && go d'
         end) d
  | VList l => (fix go (l : list val) : bool := match l with [] => true | v :: l' => clean_item v && go l' end) l
  | _ => true
  end.
Definition clean (d : dict string val) : bool := clean_item (VDict d).

Lemma redact_item_dict d : redact_item (VDict d) = VDict (redact_secrets d).
Proof.
  simpl. f_equal. induction d as [|[k v] d IH]; [done|]. simpl. rewrite IH. done.
Qed.
Lemma redact_item_list l : redact_item (VList l) = VList (map redact_item l).
Proof. reflexivity. Qed.

Lemma redact_item_clean v : clean_item (redact_item v) = true.
Proof.
  revert v. fix IH 1. intros [| | | | |l|d]; try reflexivity.
  - induction l as [|v l IHl]; [reflexivity|]. simpl in *. by rewrite IH.
  - induction d as [|[k v] d IHd]; [reflexivity|]. simpl in *. rewrite IHd. destruct (secret_key k); [reflexivity|].
    by rewrite IH.
Qed.

Lemma redact_clean d : clean (redact_secrets d) = true.
Proof. unfold clean. rewrite <- redact_item_dict. apply redact_item_clean. Qed.

Lemma redact_same d d' : same_entries d d' -> redact_secrets d = redact_secrets d'.
Proof.
  apply (same_entries_mut (fun v v' _ => redact_item v = redact_item v')
           (fun l l' _ => map redact_item l = map redact_item l')
           (fun d d' _ => redact_secrets d = redact_secrets d')); intros; cbn [map redact_secrets] in *.
  all: rewrite ?redact_item_list, ?redact_item_dict; unfold redact_secrets, redact_value in *; cbn [map fst snd];
    repeat match goal with H : secret_key _ = true |- _ => rewrite H end; try congruence.
  by rewrite H, H0.
Qed.

(** ** Types of arguments *)
Inductive has_json_type : val -> string -> Prop :=
| type_boolean b : has_json_type (VBool b) "boolean"
| type_integer z : has_json_type (VInt z) "integer"
| type_number_int z : has_json_type (VInt z) "number"
| type_number_float f : has_json_type (VFloat f) "number"
| type_string s : has_json_type (VStr s) "string"
| type_array l : has_json_type (VList l) "array"
| type_object d : has_json_type (VDict d) "object"
| type_null : has_json_type VNone "null"
| type_unknown v t :
    t ∉ ["boolean"; "integer"; "number"; "string"; "array"; "object"; "null"] -> has_json_type v t.

(** The part of a JSON-Schema contract that is checked. *)
Record satisfies (schema args : dict string val) : Prop := Satisfies {
  sat_required required n :
    dget "required" schema = Some (VList required) -> VStr n ∈ required -> exists v, dget n args = Some v;
  sat_typed properties n subschema t v :
    dget "properties" schema = Some (VDict properties) -> (n, VDict subschema) ∈ properties ->
    dget "type" subschema = Some (VStr t) -> dget n args = Some v -> has_json_type v t }.

Lemma matches_json_type_spec v t : matches_json_type v t = true <-> has_json_type v t.
Proof.
  unfold matches_json_type. split.
  - repeat case_decide; subst; intros Hm; try (destruct v; try discriminate Hm; by constructor).
    apply type_unknown. set_solver.
  - intros []; try reflexivity. repeat case_decide; subst; set_solver.
Qed.

Lemma required_problem_nil args n : required_problem args (VStr n) = [] <-> exists v, dget n args = Some v.
Proof. simpl. unfold dhas. destruct (dget n args); split; intros H; try done; [eauto|by destruct H]. Qed.

Lemma property_problem_nil args n sub : property_problem args (n, sub) = [] <->
  forall d t v, sub = VDict d -> dget "type" d = Some (VStr t) -> dget n args = Some v -> has_json_type v t.
Proof.
  unfold property_problem. cbn [fst snd]. destruct (dget n args) as [v|]; [|naive_solver].
  destruct sub as [| | | | | |d]; try naive_solver. destruct (dget "type" d) as [[| | | |t| |]|] eqn:Ht; try naive_solver.
  destruct (matches_json_type v t) eqn:Hm.
  - apply matches_json_type_spec in Hm. split; [|done]. intros _ d' t' v' [= <-] Ht' [= <-]. congruence.
  - split; [done|]. intros H. specialize (H d t v eq_refl Ht eq_refl). apply matches_json_type_spec in H. congruence.
Qed.

Lemma validate_exact schema args : validate_arguments schema args = [] <-> satisfies schema args.
Proof.
  unfold validate_arguments. rewrite app_nil. split.
  - intros [H1 H2]. split.
    + intros required n Hr Hn. rewrite Hr, concat_map_nil in H1. by apply required_problem_nil, H1.
    + intros properties n sub t v Hp Hn Ht Hv. rewrite Hp, concat_map_nil in H2.
      by eapply property_problem_nil; [apply H2|..].
  - intros [H1 H2]. split.
    + destruct (dget "required" schema) as [[| | | | |required|]|] eqn:Hr; try done. apply concat_map_nil.
      intros [] Hin; try done. apply required_problem_nil. by eapply H1.
    + destruct (dget "properties" schema) as [[| | | | | |properties]|] eqn:Hp; try done. apply concat_map_nil.
      intros [n sub] Hin. apply property_problem_nil. intros d t v -> Ht Hv. by eapply H2.
Qed.

(** ** The guarantees of a call *)
Section guarantees.
Context (E : environment) (has_cache has_store : bool) (fingerprint_tool_call : string -> dict string val -> string).

(** What one call adds to the trace: its guarded part, then audit rows. *)
Definition audits (redacted : dict string val) (e : event) : Prop :=
  match e with EAudit row _ => l_arguments row = redacted | _ => False end.

Lemma execute_tool_extends tool_id args snapshot tenant tr : exists ev aud,
  (execute_tool E has_cache has_store fingerprint_tool_call tool_id args snapshot tenant tr).1 = tr ++ ev ++ aud /\
  guarded (strip_mcp_prefix tool_id) args snapshot ev /\ Forall (audits (redact_secrets args)) aud.
Proof.
  unfold execute_tool. unfold se_bind at 1, clock at 1. cbv beta iota zeta.
  destruct (checked_guarded E has_cache has_store fingerprint_tool_call snapshot args
              (strip_mcp_prefix tool_id) (env_clock E tr) tr) as (ev & Hev & Hg).
  assert (Hr : forall r, does (audits (redact_secrets args)) 0 (record E r (redact_secrets args) tenant)).
  { intros r. unfold record, best_effort. does_steps. }
  unfold se_bind at 1, try_except.
  destruct (execute_checked _ _ _ _ _ _ _ _ tr) as [t1 [r|e]]; simpl in Hev; subst t1; exists ev.
  - destruct (does_bind0 _ 0 _ (fun _ => se_ret r) (Hr r) ltac:(intros; apply does_ret) (tr ++ ev)) as (aud & H & Ha & _).
    exists aud. rewrite H, app_assoc. done.
  - destruct e as [a| | | |]; try (exists []; rewrite app_nil_r; repeat split; [done|constructor]).
    destruct (does_bind0 (audits (redact_secrets args)) 0
      (refused_result E (strip_mcp_prefix tool_id) (agent_id snapshot) (env_clock E tr) a)
      (fun refused => record E refused (redact_secrets args) tenant ;;; @se_raise trace raised ToolExecutionResult (App a))
      ltac:(unfold refused_result; does_steps)
      ltac:(intros; apply does_bind0; [apply Hr|intros; apply does_raise]) (tr ++ ev)) as (aud & H & Ha & _).
    exists aud. unfold se_bind in *. rewrite app_assoc.
    destruct (refused_result _ _ _ _ _ _) as [t2 [x|x]]; simpl in *; [|done].
    destruct (record _ _ _ _ t2) as [t3 [[]|y]]; done.
Qed.
End guarantees.

Lemma guarded_request canonical args snapshot ev m1 q a m2 :
  guarded canonical args snapshot ev -> ev = m1 ++ EHttp q a :: m2 ->
  exists tool url m, m1 = ETool canonical (Ok (Some tool)) :: EGuard url (Ok true) :: m /\
    cleared canonical args snapshot tool url /\ request_of tool url q /\ calls ev <= budget tool.
Proof.
  intros Hg. destruct Hg as [| | |tool url body Hcl HF HN]; intros He.
  1-3: by destruct m1 as [|? [|? [|]]].
  destruct m1 as [|? [|? m]]; simplify_eq/=. exists tool, url, m. split; [done|]. split; [done|]. split.
  - by apply Forall_app in HF as [_ [? _]%Forall_cons].
  - done.
Qed.

(** An event of a call that is a request lies in its guarded part. *)
Lemma request_in_guarded ev redacted aud m1 q a m2 :
  Forall (audits redacted) aud -> ev ++ aud = m1 ++ EHttp q a :: m2 -> exists m2', ev = m1 ++ EHttp q a :: m2'.
Proof.
  intros Ha. revert m1. induction ev as [|e ev IH]; intros m1; simpl.
  - intros ->. by apply Forall_app in Ha as [_ [[] _]%Forall_cons].
  - destruct m1 as [|e' m1]; intros [= -> He]; [by eexists|]. apply IH in He as (m & ->). by exists m.
Qed.

Lemma audit_arguments E has_cache has_store fingerprint tool_id args snapshot tenant tr ev o row a :
  execute_tool E has_cache has_store fingerprint tool_id args snapshot tenant tr = (tr ++ ev, o) ->
  EAudit row a ∈ ev -> l_arguments row = redact_secrets args.
Proof.
  intros Hr Hin.
  destruct (execute_tool_extends E has_cache has_store fingerprint tool_id args snapshot tenant tr)
    as (ev' & aud & He & Hg & Ha). rewrite Hr in He. apply app_inv_head in He. rewrite He in Hin.
  apply guarded_quiet in Hg. rewrite Forall_forall in Hg, Ha.
  apply elem_of_app in Hin as [Hin|Hin]; [by apply Hg in Hin|by apply Ha in Hin].
Qed.

(** A call with invalid arguments stops at the check. *)
Lemma checked_bad_arguments E has_cache has_store fingerprint canonical args snapshot started tr tool :
  canonical ∈ tool_refs snapshot -> env_tool E tr canonical = Ok (Some tool) ->
  validate_arguments (t_parameters tool) args <> [] -> exists i,
  execute_checked E has_cache has_store fingerprint canonical args snapshot started tr =
    (tr ++ [ETool canonical (Ok (Some tool))],
     Err (App (AppError ToolExecutionError (MBadArguments canonical (validate_arguments (t_parameters tool) args)) i))).
Proof.
  intros Hin Ht Hv. unfold execute_checked, ensure_allowlisted, ensure_arguments_valid, guard_raise.
  rewrite bool_decide_true by done. rewrite se_bind_ret_l. unfold se_bind at 1, ask. rewrite Ht.
  cbn [ensure_tool_executable]. rewrite se_bind_ret_l. unfold se_bind at 1.
  destruct (validate_arguments (t_parameters tool) args); [done|]. by eexists.
Qed.

Section properties.
Context (E : environment) (has_cache has_store : bool) (fingerprint_tool_call : string -> dict string val -> string).
Context (tool_id : string) (args : dict string val) (snapshot : AgentSnapshot) (tenant : string).

(** C12: Every request that leaves a tool call is preceded, in that call, by the
    lookup that returned the tool and by the verdict that found its URL safe;
    the tool is one of the agent's attached refs, it is not internal, the
    arguments satisfy its contract, the request goes to exactly that URL (over
    MCP without its trailing slashes) and its time limit is between 1 and 120
    seconds. *)
Theorem outbound_needs_clearance tr tr' o m1 q a m2 :
  execute_tool E has_cache has_store fingerprint_tool_call tool_id args snapshot tenant tr = (tr', o) ->
  tr' = tr ++ m1 ++ EHttp q a :: m2 ->
  exists tool url, strip_mcp_prefix tool_id ∈ tool_refs snapshot /\
    ETool (strip_mcp_prefix tool_id) (Ok (Some tool)) ∈ m1 /\ EGuard url (Ok true) ∈ m1 /\
    t_url tool = Some url /\ t_kind tool <> KInternal /\ validate_arguments (t_parameters tool) args = [] /\
    (q_url q = url \/ over_mcp tool = true /\ q_url q = rstrip_slash url) /\ (1 <= q_timeout_s q <= 120)%Z.
Proof.
  intros Hr Ht. destruct (execute_tool_extends E has_cache has_store fingerprint_tool_call tool_id args snapshot tenant tr)
    as (ev & aud & He & Hg & Ha). rewrite Hr in He. simpl in He. rewrite He in Ht.
  apply app_inv_head in Ht. apply (request_in_guarded _ _ _ _ _ _ _ Ha) in Ht as (m2' & Hev).
  apply (guarded_request _ _ _ _ _ _ _ _ Hg) in Hev as (tool & url & m & -> & (Hin & Hu & Hk & Hv) & (Hq & Hl) & _).
  exists tool, url. rewrite Hl. unfold clamp_timeout, TOOL_TIMEOUT_MIN_S, TOOL_TIMEOUT_MAX_S.
  split_and!; try done; [by left|by right; left|lia|lia].
Qed.

(** A call makes no request when it is refused; otherwise at most one over HTTP
    and three over MCP, doubled for a tool that has a credential to refresh. *)
Theorem outbound_calls_bounded tr tr' o :
  execute_tool E has_cache has_store fingerprint_tool_call tool_id args snapshot tenant tr = (tr', o) ->
  exists ev, tr' = tr ++ ev /\ calls ev <= 6 /\
    forall tool, ETool (strip_mcp_prefix tool_id) (Ok (Some tool)) ∈ ev ->
      calls ev <= (if over_mcp tool then 3 else 1) * match t_auth_ref tool with None => 1 | Some _ => 2 end.
Proof.
  intros Hr. destruct (execute_tool_extends E has_cache has_store fingerprint_tool_call tool_id args snapshot tenant tr)
    as (ev & aud & He & Hg & Ha). rewrite Hr in He. simpl in He. exists (ev ++ aud). split; [done|].
  assert (Hc : calls (ev ++ aud) = calls ev).
  { rewrite calls_app. assert (calls aud = 0) as ->; [|lia]. clear He. unfold calls.
    induction Ha as [|[] aud Ha _ IH]; done. }
  rewrite Hc. assert (Hna : forall t, ETool (strip_mcp_prefix tool_id) (Ok (Some t)) ∈ aud -> False).
  { intros t Hin. by apply (proj1 (Forall_forall _ _) Ha) in Hin. }
  destruct Hg as [|r|r url v Hv|tool url body Hcl HF HN]; [unfold calls; simpl; split; [lia|intros; lia]..|].
  replace (calls (_ :: _ :: body)) with (calls body) by done. unfold budget, attempts in HN. split.
  - destruct (over_mcp tool), (t_auth_ref tool); simpl in HN; lia.
  - intros t [Hin|Hin]%elem_of_app; [|by apply Hna in Hin].
    apply elem_of_cons in Hin as [[= ->]|Hin]; [done|]. apply elem_of_cons in Hin as [|Hin]; [done|].
    apply (proj1 (Forall_forall _ _) HF) in Hin. done.
Qed.
(** A call that answers, or that fails with an application error, attempts
    exactly one audit row, as its last step: the row of the result, or a failed
    row with the public message and the reference of the error. A call that ends
    in any other exception attempts none; only a cancellation can hit the
    audit write itself, whose failures are otherwise swallowed. *)
Theorem audit_row_exact tr tr' o :
  strip_mcp_prefix tool_id <> "" -> agent_id snapshot <> "" ->
  execute_tool E has_cache has_store fingerprint_tool_call tool_id args snapshot tenant tr = (tr', o) ->
  exists ev, Forall quiet ev /\
    match o with
    | Ok r => exists a, tr' = tr ++ ev ++ [EAudit (audit_row r (redact_secrets args) tenant) a]
    | Err (App e) => exists r a, tr' = tr ++ ev ++ [EAudit (audit_row r (redact_secrets args) tenant) a] /\
        r_tool_id r = strip_mcp_prefix tool_id /\ r_agent_id r = agent_id snapshot /\ r_success r = false /\
        r_summary r = SMessage (public_message e) /\ r_error_id r = Some (ae_error_id e)
    | Err Cancelled => tr' = tr ++ ev \/ exists row, tr' = tr ++ ev ++ [EAudit row (Err Cancelled)]
    | Err _ => tr' = tr ++ ev
    end.
Proof.
  intros Hc Ha Hr. destruct (execute_tool_trace _ _ _ _ _ _ _ _ _ _ _ Hc Ha Hr) as (ev & Hg & Hau).
  exists ev. split; [by eapply guarded_quiet|]. unfold audited in Hau.
  destruct o as [r|[e| | | |]]; try done; by setoid_rewrite <- app_assoc in Hau.
Qed.

(** The arguments of the audit rows carry no value of a secret-looking key, at
    any depth, and do not depend on them: two calls whose arguments differ only
    there write rows with the same arguments, whatever the environment does. *)
Theorem audit_arguments_opaque (E' : environment) args' tr1 tr2 o1 o2 row1 row2 a1 a2 ev1 ev2 :
  same_entries args args' ->
  execute_tool E has_cache has_store fingerprint_tool_call tool_id args snapshot tenant tr1 = (tr1 ++ ev1, o1) ->
  execute_tool E' has_cache has_store fingerprint_tool_call tool_id args' snapshot tenant tr2 = (tr2 ++ ev2, o2) ->
  EAudit row1 a1 ∈ ev1 -> EAudit row2 a2 ∈ ev2 ->
  l_arguments row1 = l_arguments row2 /\ clean (l_arguments row1) = true.
Proof.
  intros Hs H1 H2 R1 R2. apply (audit_arguments _ _ _ _ _ _ _ _ _ _ _ _ _ H1) in R1.
  apply (audit_arguments _ _ _ _ _ _ _ _ _ _ _ _ _ H2) in R2. rewrite R1, R2. split; [by apply redact_same|].
  apply redact_clean.
Qed.

(** C31: The contract of a tool is enforced exactly: a call of an attached tool whose
    arguments lack a required one, or hold one that is not of its declared
    type, is refused with the list of the problems after the lookup of the row,
    before anything is sent, and audited as such; and the check finds no problem
    in any other arguments. *)
Theorem arguments_typed tr tr' o tool :
  strip_mcp_prefix tool_id <> "" -> agent_id snapshot <> "" ->
  strip_mcp_prefix tool_id ∈ tool_refs snapshot -> env_tool E tr (strip_mcp_prefix tool_id) = Ok (Some tool) ->
  execute_tool E has_cache has_store fingerprint_tool_call tool_id args snapshot tenant tr = (tr', o) ->
  (validate_arguments (t_parameters tool) args = [] <-> satisfies (t_parameters tool) args) /\
  (~ satisfies (t_parameters tool) args ->
   exists row a, tr' = tr ++ [ETool (strip_mcp_prefix tool_id) (Ok (Some tool)); EAudit row a] /\
     l_success row = false /\
     (a <> Err Cancelled -> exists i, o = Err (App (AppError ToolExecutionError
        (MBadArguments (strip_mcp_prefix tool_id) (validate_arguments (t_parameters tool) args)) i)))).
Proof.
  intros Hc Ha Hin Ht Hr. split; [apply validate_exact|]. intros Hn.
  destruct (checked_bad_arguments E has_cache has_store fingerprint_tool_call _ args snapshot (env_clock E tr) tr tool
              Hin Ht ltac:(by rewrite validate_exact)) as (i & Hx).
  unfold execute_tool in Hr. unfold se_bind at 1, clock at 1 in Hr. cbv beta iota zeta in Hr.
  unfold se_bind at 1, try_except in Hr. rewrite Hx in Hr.
  match type of Hr with context [refused_result _ _ _ _ ?e] =>
    destruct (refused_run E _ _ (env_clock E tr) e (tr ++ [ETool (strip_mcp_prefix tool_id) (Ok (Some tool))]) Hc Ha)
      as (ms & Hf) end.
  unfold se_bind in Hr. rewrite Hf in Hr. match type of Hr with context [record _ ?r _ _ ?t] =>
    destruct (record_run E r (redact_secrets args) tenant t) as (ans & Hs) end.
  rewrite Hs, <- app_assoc in Hr. eexists _, ans.
  destruct ans as [[]|[]]; unfold se_raise in Hr; simplify_eq/=; (split; [done|]); (split; [done|]);
    intros; try done; by eexists.
Qed.
End properties.

(** ** A refusal that cannot be recorded

    An id that is empty once its namespace is stripped makes the refusal itself
    invalid: the caller sees pydantic's error and no row is written. *)
Lemma empty_id_unaudited E has_cache has_store fp args snapshot tenant tr :
  "" ∉ tool_refs snapshot ->
  execute_tool E has_cache has_store fp "mcp:server:" args snapshot tenant tr = (tr, Err (Plain "ValidationError")).
Proof.
  intros Hn. unfold execute_tool. change (strip_mcp_prefix "mcp:server:") with "".
  unfold se_bind at 1, clock at 1. cbv beta iota zeta. unfold se_bind at 1, try_except.
  unfold execute_checked, ensure_allowlisted, guard_raise. by rewrite bool_decide_false.
Qed.

(** ** A tool with a stale credential *)
Module Example.

Definition weather : ToolDefinition :=
  Tool "function:weather" KFunction "weather"
    [("required", VList [VStr "city"]);
     ("properties", VDict [("city", VDict [("type", VStr "string")]); ("days", VDict [("type", VStr "integer")])])]
    (Some "https://api.test/weather") "get" (Some "cred:1") 300 [].
Definition agent : AgentSnapshot := Snapshot "agent-1" ["function:weather"].
Definition arguments : dict string val := [("city", VStr "Oslo"); ("api_key", VStr "k-123")].
Definition other_arguments : dict string val := [("city", VStr "Oslo"); ("api_key", VStr "k-999")].
Definition bad_arguments : dict string val := [("days", VStr "two")].

Definition refreshed (tr : trace) : bool := existsb (fun e => match e with ECacheDel _ _ => true | _ => false end) tr.

Definition world : environment := Environment
  (fun _ _ => Ok (Some weather))
  (fun _ _ => Ok true)
  (fun _ _ => Err (Plain "ConnectionError"))
  (fun _ _ _ => Ok tt)
  (fun _ _ => Ok tt)
  (fun tr _ => Ok (Some [("credential_type", VStr "bearer"); ("token", VStr (if refreshed tr then "new" else "old"))]))
  (fun _ q => Ok (if decide (q_headers q = [("authorization", "Bearer new")])
                  then Response 200 (Some (VDict [("temp", VInt 21)])) "" false [] None
                  else Response 401 None "denied" false [] None))
  (fun _ _ => Err (Plain "DatabaseError"))
  (fun _ => 0%Q)
  (fun _ => "0123456789ab").

Definition fp (_ : string) (_ : dict string val) : string := "f".
Definition go (args : dict string val) := execute_tool world true true fp "mcp:registry:function:weather" args agent "t" [].

Definition request_with (token : string) : request :=
  Request "GET" "https://api.test/weather" [("authorization", "Bearer " +:+ token)] arguments None 120.

Example go_ok :
  calls (go arguments).1 = 2 /\
  match (go arguments).2 with Ok r => r_success r = true /\ r_data r = PMapping [("temp", VInt 21)] | _ => False end.
Proof. by vm_compute. Qed.

Definition denied : response := Response 401 None "denied" false [] None.
Definition answered : response := Response 200 (Some (VDict [("temp", VInt 21)])) "" false [] None.

Lemma outbound_needs_clearance_witness : exists tool url,
  "function:weather" ∈ tool_refs agent /\
  ETool "function:weather" (Ok (Some tool)) ∈ take 9 (go arguments).1 /\ EGuard url (Ok true) ∈ take 9 (go arguments).1 /\
  t_url tool = Some url /\ t_kind tool <> KInternal /\ validate_arguments (t_parameters tool) arguments = [] /\
  (q_url (request_with "new") = url \/ over_mcp tool = true /\ q_url (request_with "new") = rstrip_slash url) /\
  (1 <= q_timeout_s (request_with "new") <= 120)%Z.
Proof.
  apply (outbound_needs_clearance world true true fp "mcp:registry:function:weather" arguments agent "t" []
           (go arguments).1 (go arguments).2 (take 9 (go arguments).1) (request_with "new") (Ok answered)
           (drop 10 (go arguments).1)); vm_compute; reflexivity.
Defined.

Lemma outbound_calls_bounded_witness : exists ev, (go arguments).1 = [] ++ ev /\ calls ev <= 6 /\
  forall tool, ETool "function:weather" (Ok (Some tool)) ∈ ev ->
    calls ev <= (if over_mcp tool then 3 else 1) * match t_auth_ref tool with None => 1 | Some _ => 2 end.
Proof.
  apply (outbound_calls_bounded world true true fp "mcp:registry:function:weather" arguments agent "t" []
           (go arguments).1 (go arguments).2). vm_compute. reflexivity.
Defined.

Lemma audit_row_exact_witness : exists ev, Forall quiet ev /\
  match (go arguments).2 with
  | Ok r => exists a, (go arguments).1 = [] ++ ev ++ [EAudit (audit_row r (redact_secrets arguments) "t") a]
  | _ => False
  end.
Proof.
  apply (audit_row_exact world true true fp "mcp:registry:function:weather" arguments agent "t" []
           (go arguments).1 (go arguments).2); [discriminate|discriminate|vm_compute; reflexivity].
Defined.

Lemma audit_arguments_opaque_witness :
  exists row row', l_arguments row = l_arguments row' /\ clean (l_arguments row) = true.
Proof.
  exists (Log "function:weather" "agent-1" (redact_secrets arguments) (SHttp 200 0) true 0 None "t").
  exists (Log "function:weather" "agent-1" (redact_secrets arguments) (SHttp 200 0) true 0 None "t").
  eapply (audit_arguments_opaque world true true fp "mcp:registry:function:weather" arguments agent "t"
           world other_arguments [] [] (go arguments).2 (go other_arguments).2 _ _
           (Err (Plain "DatabaseError")) (Err (Plain "DatabaseError"))
           (go arguments).1 (go other_arguments).1).
  - apply same_public; [constructor|]. apply same_secret; [reflexivity|constructor].
  - vm_compute. reflexivity.
  - vm_compute. reflexivity.
  - apply (list_elem_of_lookup_2 _ 10). vm_compute. reflexivity.
  - apply (list_elem_of_lookup_2 _ 10). vm_compute. reflexivity.
Defined.

Lemma credential_retry_once_witness :
  let run := execute_http world true true weather "agent-1" arguments "f" 0 [] in
  exists pre, Forall silent pre /\
    ((run.1 = [] ++ pre /\ exists e, run.2 = Err e) \/
     exists ev a, EGuard "https://api.test/weather" (Ok true) ∈ pre /\ run.1 = [] ++ pre ++ ev /\
       exchange weather "https://api.test/weather" arguments 120 ev a /\ outcome_of a run.2).
Proof.
  intros run. apply (credential_retry_once world true true weather "agent-1" arguments "f" 0 [] run.1 run.2);
    [discriminate|discriminate|vm_compute; reflexivity].
Defined.

Lemma arguments_typed_witness :
  (validate_arguments (t_parameters weather) bad_arguments = [] <-> satisfies (t_parameters weather) bad_arguments) /\
  (~ satisfies (t_parameters weather) bad_arguments ->
   exists row a, (go bad_arguments).1 = [] ++ [ETool "function:weather" (Ok (Some weather)); EAudit row a] /\
     l_success row = false /\
     (a <> Err Cancelled -> exists i, (go bad_arguments).2 = Err (App (AppError ToolExecutionError
        (MBadArguments "function:weather" ["missing required: city"; "days: expected integer"]) i)))).
Proof.
  apply (arguments_typed world true true fp "mcp:registry:function:weather" bad_arguments agent "t" []
           (go bad_arguments).1 (go bad_arguments).2 weather);
    [discriminate|discriminate|by left|reflexivity|vm_compute; reflexivity].
Defined.
End Example.
End ToolExec.
