(* ===== verification/Integrations.v ===== *)
(** * Partner credentials, bindings and organisation policies
    (src/voiceai/modules/tools: models.py, static_methods.py, exceptions.py,
    repository.py, org_policy_repository.py, integration_service.py and the
    sealing step of oauth_service.py)

    The vault's collections are tenant views of the in-memory backend. A read
    that the code does by walking the pages of a view is [rows]: the own rows of
    the view, which is what the walk yields ([rows_walked]). Sealing a secret is
    the parameter [encrypt] of a nonce, the material and the key version; new ids
    and the nonce are arguments. The audit trail records the events in order,
    whether or not their insert succeeded. Fields of the rows that no modelled
    operation reads are left out. *)
From S2P Require Import Prelude PyText PyVal Pagination Repository Scoped.
Open Scope Z_scope.
Open Scope voice_scope.

Module Integrations.

(** ** Vocabulary (constants.py) *)
Definition BINDING_ORG_SHARED : string := "org_shared".
Definition BINDING_USER_PRIVATE : string := "user_private".
Definition POLICY_USER_CHOICE : string := "user_choice".
Definition POLICY_SHARED_WITH_OVERRIDE : string := "shared_with_override".
Definition POLICY_ENFORCE_SHARED : string := "enforce_shared".
Definition VISIBILITY_GLOBAL : string := "global".
Definition SYSTEM_TENANT_ID : string := "system".
Definition STATUS_PENDING : string := "pending".
Definition STATUS_ACTIVE : string := "active".
Definition STATUS_SUSPENDED : string := "suspended".
Definition STATUS_REVOKED : string := "revoked".
Definition CREDENTIAL_TYPES : list string := ["none"; "api_key"; "bearer"; "basic"; "oauth2"; "custom"].
Definition SEALED_LOOKING_KEYS : list string := ["password"; "token"; "secret"; "api_key"; "headers"].
Definition INITIAL_KEY_VERSION : Z := 1.

(** ** Rows (models.py) *)
Record OwnerScope := Owner { partner_id : string; org_id : option string; user_id : option string }.

Record PartnerCredential := mkCredential {
  pc_base : BaseFields; provider : string; credential_type : string; auth_config : dict string val;
  encrypted_data : string; key_version : Z; expires_at : option Z;
  owner_org_id : option string; owner_user_id : option string; binding : option string; status : string }.

Record PartnerIntegration := mkIntegration {
  pi_base : BaseFields; pi_provider : string; pi_agent_id : string; pi_config : dict string val;
  pi_org_id : option string }.

Record IntegrationTemplate := mkTemplate {
  it_base : BaseFields; it_provider : string; visibility : string; owner_partner_id : option string;
  allowed_bindings : list string }.

Record OrgPolicy := mkPolicy {
  op_base : BaseFields; op_org_id : string; binding_policy : string; changed_by : string; op_reason : string }.

Record IntegrationAuditLog := mkAudit {
  au_actor : OwnerScope; au_action : string; au_target_kind : string; au_target_id : string; au_reason : string }.

Definition credential_field (c : PartnerCredential) (f : string) : option val :=
  dget f [("provider", VStr (provider c)); ("credential_type", VStr (credential_type c));
          ("encrypted_data", VStr (encrypted_data c)); ("key_version", VInt (key_version c));
          ("owner_org_id", opt_str (owner_org_id c)); ("owner_user_id", opt_str (owner_user_id c));
          ("binding", opt_str (binding c)); ("status", VStr (status c))].
Definition integration_field (i : PartnerIntegration) (f : string) : option val :=
  dget f [("provider", VStr (pi_provider i)); ("agent_id", VStr (pi_agent_id i)); ("org_id", opt_str (pi_org_id i))].
Definition template_field (t : IntegrationTemplate) (f : string) : option val :=
  dget f [("provider", VStr (it_provider t)); ("visibility", VStr (visibility t));
          ("owner_partner_id", opt_str (owner_partner_id t))].
Definition policy_field (p : OrgPolicy) (f : string) : option val :=
  dget f [("org_id", VStr (op_org_id p)); ("binding_policy", VStr (binding_policy p))].

Ltac solve_row_model :=
  try done; try (by intros; match goal with m : _ |- _ => destruct m end);
  intros m f Hf; repeat (apply elem_of_cons in Hf as [->|Hf]; [done|]); by apply elem_of_nil in Hf.

#[export] Instance credential_model : Model PartnerCredential.
Proof.
  refine {| base_of := pc_base; own_field := credential_field;
    set_base b c := mkCredential b (provider c) (credential_type c) (auth_config c) (encrypted_data c) (key_version c)
                      (expires_at c) (owner_org_id c) (owner_user_id c) (binding c) (status c) |}; solve_row_model.
Defined.
#[export] Instance integration_model : Model PartnerIntegration.
Proof.
  refine {| base_of := pi_base; own_field := integration_field;
    set_base b i := mkIntegration b (pi_provider i) (pi_agent_id i) (pi_config i) (pi_org_id i) |}; solve_row_model.
Defined.
#[export] Instance template_model : Model IntegrationTemplate.
Proof.
  refine {| base_of := it_base; own_field := template_field;
    set_base b t := mkTemplate b (it_provider t) (visibility t) (owner_partner_id t) (allowed_bindings t) |};
    solve_row_model.
Defined.
#[export] Instance policy_model : Model OrgPolicy.
Proof.
  refine {| base_of := op_base; own_field := policy_field;
    set_base b p := mkPolicy b (op_org_id p) (binding_policy p) (changed_by p) (op_reason p) |}; solve_row_model.
Defined.

(** ** Pure decisions (static_methods.py) *)
Definition policy_bindings (policy : string) : list string :=
  if decide (policy = POLICY_ENFORCE_SHARED) then [BINDING_ORG_SHARED]
  else if decide (policy = POLICY_USER_CHOICE \/ policy = POLICY_SHARED_WITH_OVERRIDE)
  then [BINDING_ORG_SHARED; BINDING_USER_PRIVATE]
  else [].

(** [effective_binding_set]; a [frozenset], here without order or duplicates in mind. *)
Definition effective_binding_set (allowed : list string) (policy : string) : list string :=
  List.filter (fun item => bool_decide (item ∈ policy_bindings policy)) allowed.

Definition policy_allows_binding (b policy : string) : bool :=
  if decide (b = BINDING_ORG_SHARED)
  then bool_decide (policy ∈ [POLICY_USER_CHOICE; POLICY_SHARED_WITH_OVERRIDE; POLICY_ENFORCE_SHARED])
  else if decide (b = BINDING_USER_PRIVATE)
  then bool_decide (policy ∈ [POLICY_USER_CHOICE; POLICY_SHARED_WITH_OVERRIDE])
  else false.

Definition is_legacy_credential (c : PartnerCredential) : bool := match binding c with None => true | _ => false end.

Definition credential_visible_to (c : PartnerCredential) (scope : OwnerScope) (for_execution : bool) : bool :=
  match binding c with
  | None => negb for_execution
  | Some b =>
      if decide (b = BINDING_ORG_SHARED) then
        match org_id scope with
        | None => negb for_execution
        | Some _ => bool_decide (owner_org_id c = org_id scope)
        end
      else if decide (b = BINDING_USER_PRIVATE) then
        match org_id scope with
        | None => negb for_execution
        | Some _ =>
            if for_execution
            then bool_decide (owner_org_id c = org_id scope) && bool_decide (owner_user_id c = user_id scope)
            else bool_decide (owner_org_id c = org_id scope)
        end
      else false
  end.

Definition template_visible_to (t : IntegrationTemplate) (scope : OwnerScope) : bool :=
  if decide (visibility t = VISIBILITY_GLOBAL) then true
  else match owner_partner_id t with None => true | Some owner => bool_decide (owner = partner_id scope) end.

Definition tenant_allows (row_tenant : option string) (scope : OwnerScope) : bool :=
  match row_tenant with
  | None => true
  | Some t => bool_decide (t = SYSTEM_TENANT_ID) || bool_decide (t = partner_id scope)
  end.

Definition link_visible_to (link : PartnerIntegration) (scope : OwnerScope) : bool :=
  match org_id scope, pi_org_id link with
  | None, _ | _, None => true
  | Some o, Some l => bool_decide (l = o)
  end.

(** ** Errors (errors.py, exceptions.py) *)
Inductive error : Type :=
| ToolError
| BindingRequiredError
| ToolForbiddenError
| PolicyConflictError
| InvalidToolError (why : string)
| ToolNotFoundError
| StoreError (e : db_error).

Notation cdocs := (dict string (InMemory.row PartnerCredential)).
Record vault := mkVault {
  credentials : cdocs;
  integrations : dict string (InMemory.row PartnerIntegration);
  policies : dict string (InMemory.row OrgPolicy);
  system_templates : dict string (InMemory.row IntegrationTemplate);
  tenant_templates : dict string (InMemory.row IntegrationTemplate);
  audit : list IntegrationAuditLog }.

Definition op := SE vault error.
Definition set_credentials (c : cdocs) (s : vault) : vault :=
  mkVault c (integrations s) (policies s) (system_templates s) (tenant_templates s) (audit s).
Definition set_integrations i (s : vault) : vault :=
  mkVault (credentials s) i (policies s) (system_templates s) (tenant_templates s) (audit s).
Definition set_policies p (s : vault) : vault :=
  mkVault (credentials s) (integrations s) p (system_templates s) (tenant_templates s) (audit s).
Definition add_audit e (s : vault) : vault :=
  mkVault (credentials s) (integrations s) (policies s) (system_templates s) (tenant_templates s) (audit s ++ [e]).

(** [ensure_owner_scope], [ensure_binding_present], [ensure_binding_permitted],
    [ensure_effective_allowed] *)
Definition ensure (ok : bool) (e : error) : op unit := if ok then se_ret tt else se_raise e.
Definition ensure_owner_scope (scope : OwnerScope) : op unit := ensure (str_true (partner_id scope)) ToolError.
Definition ensure_binding_present (b : option string) : op string :=
  match b with None => se_raise BindingRequiredError | Some b => se_ret b end.
Definition ensure_binding_permitted (b policy : string) : op unit :=
  ensure (policy_allows_binding b policy) ToolForbiddenError.
Definition ensure_effective_allowed (allowed : list string) (policy : string) : op unit :=
  match effective_binding_set allowed policy with [] => se_raise PolicyConflictError | _ => se_ret tt end.

Section service.
Context (encrypt : string -> val -> Z -> string).

(** The tenant the views are bound to. *)
Context (tenant_id : string).
Definition view : Scoped.view := Scoped.mkView tenant_id.
Definition system_view : Scoped.view := Scoped.mkView SYSTEM_TENANT_ID.

(** ** Vault views (repository.py, org_policy_repository.py) *)
Definition rows {M} `{Model M} (docs : dict string (InMemory.row M)) : list M :=
  Scoped.own_rows (laws := InMemory.laws) view docs.

Definition lift {A} (r : result db_error A) : op A := match r with Ok a => se_ret a | Err e => se_raise (StoreError e) end.

Definition save_credential (uuid : string) (c : PartnerCredential) : op PartnerCredential := fun s =>
  let (docs, saved) := Scoped.insert (inner := InMemory.repository) view uuid c (credentials s) in
  (set_credentials docs s, Ok saved).

Definition list_credentials_for_scope (scope : OwnerScope) (for_execution : bool) : op (list PartnerCredential) :=
  ensure_owner_scope scope ;;;
  s <- se_get ;;
  se_ret (List.filter (fun row => tenant_allows (m_tenant row) scope && credential_visible_to row scope for_execution)
            (rows (credentials s))).

Definition find_credentials_by_provider (name : string) : op (list PartnerCredential) :=
  s <- se_get ;;
  se_ret (Scoped.find_many (inner := InMemory.repository) view "provider" (VStr name) MAX_PAGE_SIZE (credentials s)).

Definition find_credentials_for_scope (name : string) (scope : OwnerScope) (for_execution : bool)
    : op (list PartnerCredential) :=
  ensure_owner_scope scope ;;;
  found <- find_credentials_by_provider name ;;
  se_ret (List.filter (fun row => tenant_allows (m_tenant row) scope && credential_visible_to row scope for_execution)
            found).

Definition get_credential_in_scope (id : string) (scope : OwnerScope) (for_execution : bool)
    : op (option PartnerCredential) :=
  ensure_owner_scope scope ;;;
  s <- se_get ;;
  row <- lift (Scoped.get (inner := InMemory.repository) view id (credentials s)) ;;
  match row with
  | Some r => se_ret (if tenant_allows (m_tenant r) scope && credential_visible_to r scope for_execution
                      then Some r else None)
  | None => se_ret None
  end.

Definition get_template_in_scope (v : Scoped.view) (docs : dict string (InMemory.row IntegrationTemplate))
    (name : string) (scope : OwnerScope) : op (option IntegrationTemplate) :=
  ensure_owner_scope scope ;;;
  row <- lift (Scoped.get (inner := InMemory.repository) v name docs) ;;
  match row with
  | Some t => se_ret (if tenant_allows (m_tenant t) scope && template_visible_to t scope then Some t else None)
  | None => se_ret None
  end.

Definition get_policy_row (org : string) (scope : OwnerScope) : op (option OrgPolicy) :=
  ensure_owner_scope scope ;;;
  s <- se_get ;;
  row <- lift (Scoped.get (inner := InMemory.repository) view org (policies s)) ;;
  match row with
  | Some p =>
      se_ret (if bool_decide (op_org_id p = org) && tenant_allows (m_tenant p) scope &&
                 match org_id scope with None => true | Some o => bool_decide (o = org) end
              then Some p else None)
  | None => se_ret None
  end.

Definition save_policy (p : OrgPolicy) (scope : OwnerScope) : op OrgPolicy :=
  ensure_owner_scope scope ;;;
  fun s => let (docs, saved) := Scoped.insert (inner := InMemory.repository) view "" (upd_base (set_id (Some (op_org_id p))) p)
                                  (policies s) in
           (set_policies docs s, Ok saved).

Definition list_integrations_for_scope (scope : OwnerScope) : op (list PartnerIntegration) :=
  ensure_owner_scope scope ;;;
  s <- se_get ;;
  se_ret (List.filter (fun row => tenant_allows (m_tenant row) scope && link_visible_to row scope)
            (rows (integrations s))).

(** ** The service (integration_service.py) *)
Definition audit_event (action kind target : string) (scope : OwnerScope) (reason : string) : op unit :=
  se_modify (add_audit (mkAudit scope action kind target reason)).

Definition policy_for (scope : OwnerScope) : op string :=
  match org_id scope with
  | None => se_ret POLICY_USER_CHOICE
  | Some org => row <- get_policy_row org scope ;;
                se_ret (match row with None => POLICY_USER_CHOICE | Some p => binding_policy p end)
  end.

(** The row a new credential takes the place of. *)
Definition same_quad (name b : string) (scope : OwnerScope) (row : PartnerCredential) : bool :=
  bool_decide (provider row = name) && bool_decide (binding row = Some b) &&
  bool_decide (owner_org_id row = org_id scope) &&
  negb (bool_decide (b = BINDING_USER_PRIVATE) && negb (bool_decide (owner_user_id row = user_id scope))) &&
  negb (bool_decide (b = BINDING_ORG_SHARED) && negb (bool_decide (owner_user_id row = None))).

Definition replace_same_quad (name b : string) (scope : OwnerScope) : op (option PartnerCredential) :=
  listed <- list_credentials_for_scope scope false ;;
  se_ret (List.find (same_quad name b scope) listed).

Definition live (c : PartnerCredential) : bool :=
  negb (bool_decide (status c = STATUS_SUSPENDED)) && negb (bool_decide (status c = STATUS_REVOKED)).

Definition resolve_credential (name : string) (scope : OwnerScope) : op (option PartnerCredential) :=
  ensure_owner_scope scope ;;;
  found <- find_credentials_for_scope name scope true ;;
  let own_private := List.filter (fun row => bool_decide (binding row = Some BINDING_USER_PRIVATE) &&
                                             bool_decide (owner_user_id row = user_id scope)) found in
  let shared := List.filter (fun row => bool_decide (binding row = Some BINDING_ORG_SHARED)) found in
  se_ret (List.find live (own_private ++ shared)).

(** The JSON of the sealed material; [parsed] is what [json.loads] makes of the
    stripped secret, [None] where it raises. *)
Definition seal_material (ctype secret : string) (parsed : option val) : op val :=
  if decide (ctype = "api_key") then se_ret (VDict [("api_key", VStr secret)])
  else if decide (ctype = "bearer" \/ ctype = "oauth2") then se_ret (VDict [("token", VStr secret)])
  else if decide (ctype = "basic") then se_ret (VDict [("password", VStr secret)])
  else if decide (ctype = "custom") then
    match (if str_true (strip secret) then parsed else Some (VDict [])) with
    | Some (VDict d) =>
        if forallb (fun kv => is_str kv.2) d then se_ret (VDict [("headers", VDict d)])
        else se_raise (InvalidToolError "custom")
    | _ => se_raise (InvalidToolError "custom")
    end
  else se_ret (VDict []).

(** [PartnerCredential(...)] is validated: [provider] and the envelope are not
    empty, and the binding is one of the two. *)
Definition new_credential (now : Z) (name ctype : string) (config : dict string val) (envelope : string)
    (expires : option Z) (scope : OwnerScope) (b st : string) : op PartnerCredential :=
  if str_true name && str_true envelope && bool_decide (b ∈ [BINDING_ORG_SHARED; BINDING_USER_PRIVATE])
  then se_ret (mkCredential (base_default now None) name ctype config envelope INITIAL_KEY_VERSION expires
                 (org_id scope) (if decide (b = BINDING_USER_PRIVATE) then user_id scope else None) (Some b) st)
  else se_raise (StoreError ValidationError).

(** The last steps of connecting: the id of the replaced row is kept. *)
Definition store_credential (uuid : string) (same : option PartnerCredential) (row : PartnerCredential)
    : op PartnerCredential :=
  save_credential uuid
    (match same with
     | Some r => match m_id r with Some i => upd_base (set_id (Some i)) row | None => row end
     | None => row
     end).

Definition id_or_empty {M} `{Model M} (m : M) : string := default "" (m_id m).

Definition connect_credential (now : Z) (uuid nonce : string) (name ctype : string) (b : option string)
    (scope : OwnerScope) (secret : string) (parsed : option val) (config : dict string val) (expires : option Z)
    : op (PartnerCredential * bool) :=
  ensure_owner_scope scope ;;;
  b <- ensure_binding_present b ;;
  policy <- policy_for scope ;;
  ensure_binding_permitted b policy ;;;
  ensure (negb (bool_decide (b = BINDING_USER_PRIVATE) && negb (opt_truthy (user_id scope))))
         (InvalidToolError "private needs a user") ;;;
  s <- se_get ;;
  system <- get_template_in_scope system_view (system_templates s) name scope ;;
  template <- (match system with
               | Some t => se_ret (Some t)
               | None => get_template_in_scope view (tenant_templates s) name scope
               end) ;;
  match template with Some t => ensure_effective_allowed (allowed_bindings t) policy | None => se_ret tt end ;;;
  ensure (bool_decide (ctype ∈ CREDENTIAL_TYPES)) (InvalidToolError "credential type") ;;;
  ensure (forallb (fun k => negb (bool_decide (k ∈ SEALED_LOOKING_KEYS))) (dkeys config))
         (InvalidToolError "smuggled secret") ;;;
  material <- seal_material ctype secret parsed ;;
  let envelope := encrypt nonce material INITIAL_KEY_VERSION in
  same <- replace_same_quad name b scope ;;
  row <- new_credential now name ctype config envelope expires scope b STATUS_ACTIVE ;;
  saved <- store_credential uuid same row ;;
  audit_event "connect" "credential" (id_or_empty saved) scope "" ;;;
  se_ret (saved, match same with Some _ => true | None => false end).

Definition revoke_credential (now : Z) (id : string) (scope : OwnerScope) : op unit :=
  ensure_owner_scope scope ;;;
  row <- get_credential_in_scope id scope false ;;
  match row with
  | None => se_raise ToolNotFoundError
  | Some _ =>
      s <- se_get ;;
      match Scoped.soft_delete (inner := InMemory.repository) view now None id (credentials s) with
      | (docs, Ok true) => se_modify (set_credentials docs) ;;; audit_event "revoke" "credential" id scope ""
      | (docs, Ok false) | (docs, Err (NotFoundError _)) => se_raise ToolNotFoundError
      | (docs, Err e) => se_raise (StoreError e)
      end
  end.

Definition link_integration (now : Z) (uuid name agent : string) (config : dict string val) (scope : OwnerScope)
    : op PartnerIntegration :=
  ensure_owner_scope scope ;;;
  match org_id scope with
  | None => se_raise (InvalidToolError "links belong to an org")
  | Some org =>
      usable <- resolve_credential name scope ;;
      match usable with
      | None => se_raise (InvalidToolError "no connected credential")
      | Some _ =>
          (if str_true name && str_true agent then se_ret tt else se_raise (StoreError ValidationError)) ;;;
          saved <- (fun s => let (docs, saved) := Scoped.insert (inner := InMemory.repository) view uuid
                               (mkIntegration (base_default now None) name agent config (Some org)) (integrations s) in
                             (set_integrations docs s, Ok saved)) ;;
          audit_event "link" "link" (id_or_empty saved) scope "" ;;;
          se_ret saved
      end
  end.

Definition unlink_integration (now : Z) (id : string) (scope : OwnerScope) : op unit :=
  ensure_owner_scope scope ;;;
  listed <- list_integrations_for_scope scope ;;
  match List.find (fun item => bool_decide (m_id item = Some id)) listed with
  | None => se_raise ToolNotFoundError
  | Some _ =>
      s <- se_get ;;
      match Scoped.soft_delete (inner := InMemory.repository) view now None id (integrations s) with
      | (docs, Ok true) => se_modify (set_integrations docs) ;;; audit_event "unlink" "link" id scope ""
      | (docs, Ok false) | (docs, Err (NotFoundError _)) => se_raise ToolNotFoundError
      | (docs, Err e) => se_raise (StoreError e)
      end
  end.

Definition get_policy (org : string) (scope : OwnerScope) : op OrgPolicy :=
  ensure_owner_scope scope ;;;
  row <- get_policy_row org scope ;;
  match row with None => se_raise ToolNotFoundError | Some p => se_ret p end.

(** A private row of the organisation that a flip to [enforce_shared] suspends. *)
Definition barred (org : string) (c : PartnerCredential) : bool :=
  bool_decide (binding c = Some BINDING_USER_PRIVATE) && bool_decide (owner_org_id c = Some org) &&
  bool_decide (status c = STATUS_ACTIVE).

Definition suspend (c : PartnerCredential) : PartnerCredential :=
  mkCredential (pc_base c) (provider c) (credential_type c) (auth_config c) (encrypted_data c) (key_version c)
    (expires_at c) (owner_org_id c) (owner_user_id c) (binding c) STATUS_SUSPENDED.

(** The loop of [set_policy] over the listed rows. *)
Fixpoint suspend_barred (org reason : string) (scope : OwnerScope) (listed : list PartnerCredential)
    : op (list string) :=
  match listed with
  | [] => se_ret []
  | row :: rest =>
      match m_id row with
      | Some id =>
          if barred org row
          then save_credential "" (suspend row) ;;;
               audit_event "suspend" "credential" id scope reason ;;;
               ids <- suspend_barred org reason scope rest ;;
               se_ret (id :: ids)
          else suspend_barred org reason scope rest
      | None => suspend_barred org reason scope rest
      end
  end.

Definition set_policy (now : Z) (org policy by_user reason : string) (scope : OwnerScope)
    : op (OrgPolicy * list string) :=
  ensure_owner_scope scope ;;;
  ensure (bool_decide (org_id scope = Some org)) ToolForbiddenError ;;;
  ensure (bool_decide (policy ∈ [POLICY_USER_CHOICE; POLICY_SHARED_WITH_OVERRIDE; POLICY_ENFORCE_SHARED]))
         (InvalidToolError "policy") ;;;
  get_policy_row org scope ;;;
  suspended <- (if decide (policy = POLICY_ENFORCE_SHARED)
                then listed <- list_credentials_for_scope scope false ;;
                     suspend_barred org reason scope listed
                else se_ret []) ;;
  (if str_true org then se_ret tt else se_raise (StoreError ValidationError)) ;;;
  saved <- save_policy (mkPolicy (base_default now None) org policy by_user reason) scope ;;
  audit_event "policy_flip" "org_policy" org scope reason ;;;
  se_ret (saved, suspended).

(** The client that dynamic registration obtained ([DcrService.register_client]). *)
Record registration := Registration { client_id : string; client_secret : string; endpoints : dict string val }.

Definition dcr_register (now : Z) (uuid nonce issuer name : string) (b : option string) (scope : OwnerScope)
    (registered : result error registration) : op PartnerCredential :=
  ensure_owner_scope scope ;;;
  b <- ensure_binding_present b ;;
  policy <- policy_for scope ;;
  ensure_binding_permitted b policy ;;;
  record <- (match registered with Ok r => se_ret r | Err e => se_raise e end) ;;
  let config := [("client_id", VStr (client_id record)); ("issuer_url", VStr issuer)] ++ endpoints record in
  let envelope := encrypt nonce (VDict [("client_secret", VStr (client_secret record))]) INITIAL_KEY_VERSION in
  same <- replace_same_quad name b scope ;;
  row <- new_credential now name "oauth2" config envelope None scope b STATUS_PENDING ;;
  saved <- store_credential uuid same row ;;
  audit_event "connect" "credential" (id_or_empty saved) scope "" ;;;
  se_ret saved.

(** [OAuthService._upsert_credential]: the sealing step of a completed login. *)
Definition same_login (name b : string) (scope : OwnerScope) (row : PartnerCredential) : bool :=
  bool_decide (provider row = name) && bool_decide (binding row = Some b) &&
  bool_decide (owner_org_id row = org_id scope) &&
  bool_decide (owner_user_id row = if decide (b = BINDING_USER_PRIVATE) then user_id scope else None).

Definition upsert_credential (now : Z) (uuid nonce name b : string) (scope : OwnerScope) (config : dict string val)
    (material : val) : op PartnerCredential :=
  listed <- list_credentials_for_scope scope false ;;
  let same := List.find (same_login name b scope) listed in
  row <- new_credential now name "oauth2" config (encrypt nonce material 1) None scope b STATUS_ACTIVE ;;
  store_credential uuid same row.
End service.

(** ** Facts on the credential view *)
Section facts.
Context (tenant_id : string).
Notation rows s := (@rows tenant_id PartnerCredential credential_model (credentials s)).
Notation consistent s := (InMemory.store_ok (credentials s)).

(** What walking the pages of the view yields. *)
Lemma rows_walked s fuel : consistent s -> (0 < fuel)%nat ->
  Z.of_nat (length (rows s)) <= Z.of_nat fuel * MAX_PAGE_SIZE ->
  @walk_pages PartnerCredential cdocs (Scoped.repository (inner := InMemory.repository) (view tenant_id))
    fuel [] (credentials s) = Some (rows s).
Proof.
  intros Hs Hf Hl. rewrite (Scoped.scoped_walk_complete (laws := InMemory.laws)) by done.
  f_equal. apply lfilter_id. by intros.
Qed.

Lemma rows_elem s c : consistent s ->
  c ∈ rows s <-> m_tenant c = Some tenant_id /\ exists k, m_id c = Some k /\ m_active c = true /\
    dget k (credentials s) = Some (InMemory.Row c).
Proof.
  intros Hs. unfold Integrations.rows. rewrite Scoped.own_rows_elem. cbn [rp_view InMemory.laws].
  rewrite InMemory.active_models_elem by done. cbn [Scoped.tenant view]. split.
  - intros [(k & Hk & Ha) Ht]. split; [done|]. exists k. split_and!; try done. by apply (proj2 Hs).
  - intros (Ht & k & Hi & Ha & Hk). split; [by exists k|done].
Qed.

Lemma rows_id_inj s c c' : consistent s -> c ∈ rows s -> c' ∈ rows s -> m_id c = m_id c' -> c = c'.
Proof.
  intros Hs (_ & k & Hk & _ & Hd)%rows_elem (_ & k' & Hk' & _ & Hd')%rows_elem He; [|done..]. congruence.
Qed.

Lemma get_own s c k : consistent s -> c ∈ rows s -> m_id c = Some k ->
  Scoped.get (inner := InMemory.repository) (view tenant_id) k (credentials s) = Ok (Some c).
Proof.
  intros Hs (Ht & k' & Hk' & Ha & Hd)%rows_elem Hk; [|done]. simplify_eq.
  unfold Scoped.get. cbn [rp_get InMemory.repository]. unfold InMemory.get. rewrite Hd, Ha.
  unfold Scoped.owns. by rewrite bool_decide_true.
Qed.

Lemma save_run uuid c s : consistent s -> uuid <> "" \/ opt_truthy (m_id c) = true -> m_active c = true ->
  exists s' saved, save_credential tenant_id uuid c s = (s', Ok saved) /\ consistent s' /\
    s' = set_credentials (credentials s') s /\
    saved = upd_base (set_id (if opt_truthy (m_id c) then m_id c else Some uuid)) (Scoped.stamp (view tenant_id) c) /\
    forall m, m ∈ rows s' <-> m = saved \/ (m ∈ rows s /\ m_id m <> m_id saved).
Proof.
  intros Hs Hu Ha. unfold save_credential, Scoped.insert. cbn [rp_insert InMemory.repository].
  set (c' := Scoped.stamp (view tenant_id) c).
  destruct (InMemory.insert_id uuid c' (credentials s)) as (k & Hk & Hd).
  destruct (InMemory.insert uuid c' (credentials s)) as [docs saved] eqn:Hi. cbn [fst snd] in *. subst docs.
  assert (Hsv : saved = upd_base (set_id (if opt_truthy (m_id c) then m_id c else Some uuid)) c').
  { replace saved with (InMemory.insert uuid c' (credentials s)).2 by (by rewrite Hi).
    unfold c'. rewrite <- (Scoped.stamp_id (view tenant_id) c). apply InMemory.insert_key. }
  assert (Hat : m_active saved = true /\ m_tenant saved = Some tenant_id).
  { rewrite Hsv. rewrite m_active_upd, m_tenant_upd. unfold c', Scoped.stamp, upd_base. rewrite base_of_set. simpl. done. }
  exists (set_credentials (dset k (InMemory.Row saved) (credentials s)) s), saved.
  split; [done|]. cbn [credentials set_credentials]. split; [by apply InMemory.store_ok_dset|]. split; [done|].
  split; [done|]. intros m. unfold Integrations.rows. rewrite !Scoped.own_rows_elem. cbn [rp_view InMemory.laws Scoped.tenant view].
  rewrite InMemory.active_models_dset, Hk by done. naive_solver.
Qed.
End facts.

(** ** Operations that only read *)
Definition reads {A} (c : op A) : Prop := forall s, (c s).1 = s.

Lemma reads_ret {A} (a : A) : reads (se_ret a).
Proof. by intros s. Qed.
Lemma reads_raise {A} e : reads (@se_raise vault error A e).
Proof. by intros s. Qed.
Lemma reads_get : reads se_get.
Proof. by intros s. Qed.
Lemma reads_bind {A B} (c : op A) (k : A -> op B) : reads c -> (forall a, reads (k a)) -> reads (se_bind c k).
Proof.
  intros Hc Hk s. unfold se_bind. specialize (Hc s). destruct (c s) as [s1 [a|e]]; simpl in *; subst; [apply Hk|done].
Qed.
Lemma reads_lift {A} (r : result db_error A) : reads (lift r).
Proof. by destruct r. Qed.

Create HintDb reads discriminated.
#[export] Hint Resolve reads_ret reads_raise reads_get reads_lift : reads.
Ltac reads_steps :=
  repeat first
    [ solve [auto with reads] | apply reads_bind; [|intros ?]
    | match goal with
      | |- reads (match ?x with _ => _ end) => destruct x
      | |- reads (if ?b then _ else _) => destruct b
      end ].

Section reading.
Context (tenant_id : string).
Lemma reads_ensure b e : reads (ensure b e).
Proof. unfold ensure. reads_steps. Qed.
Lemma reads_scope scope : reads (ensure_owner_scope scope).
Proof. apply reads_ensure. Qed.
#[local] Hint Resolve reads_ensure reads_scope : reads.
Lemma reads_present b : reads (ensure_binding_present b).
Proof. unfold ensure_binding_present. reads_steps. Qed.
Lemma reads_permitted b p : reads (ensure_binding_permitted b p).
Proof. apply reads_ensure. Qed.
Lemma reads_effective l p : reads (ensure_effective_allowed l p).
Proof. unfold ensure_effective_allowed. reads_steps. Qed.
Lemma reads_list scope x : reads (list_credentials_for_scope tenant_id scope x).
Proof. unfold list_credentials_for_scope. reads_steps. Qed.
Lemma reads_get_scope id scope x : reads (get_credential_in_scope tenant_id id scope x).
Proof. unfold get_credential_in_scope. reads_steps. Qed.
Lemma reads_policy_row org scope : reads (get_policy_row tenant_id org scope).
Proof. unfold get_policy_row. reads_steps. Qed.
#[local] Hint Resolve reads_policy_row reads_list : reads.
Lemma reads_policy_for scope : reads (policy_for tenant_id scope).
Proof. unfold policy_for. reads_steps. Qed.
Lemma reads_template v docs n scope : reads (get_template_in_scope v docs n scope).
Proof. unfold get_template_in_scope. reads_steps. Qed.
Lemma reads_resolve n scope : reads (resolve_credential tenant_id n scope).
Proof. unfold resolve_credential, find_credentials_for_scope, find_credentials_by_provider. reads_steps. Qed.
Lemma reads_quad n b scope : reads (replace_same_quad tenant_id n b scope).
Proof. unfold replace_same_quad. reads_steps. Qed.
Lemma reads_new now n ct cfg env ex scope b st : reads (new_credential now n ct cfg env ex scope b st).
Proof. unfold new_credential. reads_steps. Qed.
Lemma reads_seal ct secret parsed : reads (seal_material ct secret parsed).
Proof. unfold seal_material. reads_steps. Qed.
Lemma reads_links scope : reads (list_integrations_for_scope tenant_id scope).
Proof. unfold list_integrations_for_scope. reads_steps. Qed.
End reading.
#[export] Hint Resolve reads_ensure reads_scope reads_present reads_permitted reads_effective reads_list reads_get_scope
  reads_policy_row reads_policy_for reads_template reads_resolve reads_quad reads_new reads_seal reads_links : reads.

(** A run that starts by reading. *)
Lemma bind_reads {A B} (c : op A) (k : A -> op B) s s' o : reads c -> se_bind c k s = (s', o) ->
  (exists a, c s = (s, Ok a) /\ k a s = (s', o)) \/ (exists e, c s = (s, Err e) /\ s' = s /\ o = Err e).
Proof.
  intros Hc. specialize (Hc s). unfold se_bind. destruct (c s) as [s1 [a|e]]; simpl in Hc; subst s1; intros H.
  - left. by exists a.
  - right. exists e. by simplify_eq.
Qed.

(** Run the leading reads of a computation; a read that fails ends it unchanged. *)
Ltac step H :=
  apply bind_reads in H; [|solve [reads_steps]];
  let a := fresh "a" in let Ha := fresh "Ha" in let e := fresh "e" in let He := fresh "He" in
  destruct H as [(a & Ha & H)|(e & He & -> & ->)].

(** The same for a run that returns a value. *)
Ltac step_ok H :=
  apply bind_reads in H; [|solve [reads_steps]];
  let a := fresh "a" in let Ha := fresh "Ha" in
  destruct H as [(a & Ha & H)|(? & _ & _ & ?)]; [|discriminate].

(** ** One credential per owner *)
Definition quad (c : PartnerCredential) := (provider c, binding c, owner_org_id c, owner_user_id c).

Section invariant.
Context (tenant_id : string).
Notation rows s := (@rows tenant_id PartnerCredential credential_model (credentials s)).
Notation consistent s := (InMemory.store_ok (credentials s)).

(** The store is consistent, rows have ids, and an owner has at most one
    credential per provider and binding. *)
Record one_per_owner (s : vault) : Prop := OnePerOwner {
  one_consistent : consistent s;
  one_ids : forall c, c ∈ rows s -> opt_truthy (m_id c) = true;
  one_quad : forall c c', c ∈ rows s -> c' ∈ rows s -> binding c <> None -> quad c = quad c' -> c = c' }.

Lemma one_audit e s : one_per_owner s -> one_per_owner (add_audit e s).
Proof. by intros []. Qed.

Lemma quad_base f c : quad (upd_base f c) = quad c.
Proof. done. Qed.

(** Writing a row keeps the invariant when it takes the place of the row with its
    quad, or when there is none. *)
Lemma save_keeps_one uuid c s s' o :
  one_per_owner s -> uuid <> "" \/ opt_truthy (m_id c) = true -> m_active c = true ->
  (forall r, r ∈ rows s -> quad r = quad c -> binding c <> None -> m_id c = m_id r) ->
  save_credential tenant_id uuid c s = (s', o) -> one_per_owner s'.
Proof.
  intros [Hs Hi Hq] Hu Ha Hr Hrun. destruct (save_run tenant_id uuid c s Hs Hu Ha) as (s1 & saved & He & Hs1 & _ & Hsv & Hm).
  rewrite Hrun in He. injection He as -> ->.
  assert (Hid : m_id saved = if opt_truthy (m_id c) then m_id c else Some uuid) by (by rewrite Hsv, m_id_upd).
  assert (Hqs : quad saved = quad c) by (by rewrite Hsv).
  assert (Hnew : forall r, r ∈ rows s -> m_id r <> m_id saved -> quad r = quad c -> binding c <> None -> False).
  { intros r Hin Hne He Hb. rewrite Hid, (Hr r Hin He Hb), (Hi r Hin) in Hne. done. }
  assert (Hbq : forall r, quad r = quad c -> binding r = binding c) by (unfold quad; congruence).
  split; [done| |].
  - intros m [->|[Hm' _]]%Hm; [|by apply Hi]. rewrite Hid. destruct (opt_truthy (m_id c)) eqn:E; [done|].
    destruct Hu as [Hu|Hu]; [|done]. simpl. destruct (str_true uuid) eqn:Eu; [done|]. by apply str_true_false in Eu.
  - intros m m' [->|[Hin Hne]]%Hm [->|[Hin' Hne']]%Hm Hb Hqq; [done| | |by apply Hq].
    + exfalso. rewrite Hqs in Hqq. eapply Hnew; [exact Hin'|done..|]. rewrite <- (Hbq saved); [done|congruence].
    + exfalso. rewrite Hqs in Hqq. eapply Hnew; [exact Hin|done..|]. by rewrite <- (Hbq m).
Qed.

Lemma list_run scope x s s' o : list_credentials_for_scope tenant_id scope x s = (s', o) ->
  s' = s /\ forall l, o = Ok l -> forall r, r ∈ l <->
    r ∈ rows s /\ tenant_allows (m_tenant r) scope = true /\ credential_visible_to r scope x = true.
Proof.
  intros H. pose proof (reads_list tenant_id scope x s) as Hr. rewrite H in Hr. split; [done|]. intros l ->.
  unfold list_credentials_for_scope in H. run_inv. unfold se_get in *. simplify_eq/=.
  intros r. rewrite elem_of_lfilter, andb_true_iff. unfold ensure_owner_scope, ensure in Hrun.
  destruct (str_true _); [|done]. unfold se_ret in Hrun. by simplify_eq.
Qed.

(** The manage listing of an owner shows every row that has their binding. *)
Lemma own_visible s scope b r : consistent s -> partner_id scope = tenant_id ->
  b ∈ [BINDING_ORG_SHARED; BINDING_USER_PRIVATE] ->
  r ∈ rows s -> binding r = Some b -> owner_org_id r = org_id scope ->
  tenant_allows (m_tenant r) scope = true /\ credential_visible_to r scope false = true.
Proof.
  intros Hs Hp Hb (Ht & _)%rows_elem Hbr Ho; [|done]. rewrite Ht. unfold tenant_allows, credential_visible_to.
  rewrite Hp, (bool_decide_true (tenant_id = tenant_id)) by done. rewrite orb_true_r. split; [done|].
  rewrite Hbr. unfold BINDING_ORG_SHARED, BINDING_USER_PRIVATE in *.
  destruct (org_id scope) eqn:Eo; repeat case_decide; try rewrite bool_decide_true by congruence; try done; set_solver.
Qed.

Lemma new_credential_run now n ct cfg env ex scope b st s s' c :
  new_credential now n ct cfg env ex scope b st s = (s', Ok c) ->
  b ∈ [BINDING_ORG_SHARED; BINDING_USER_PRIVATE] /\ m_id c = None /\ m_active c = true /\ status c = st /\
  quad c = (n, Some b, org_id scope, if decide (b = BINDING_USER_PRIVATE) then user_id scope else None).
Proof.
  unfold new_credential. destruct (_ && _) eqn:E; [|done]. intros [= <- <-].
  apply andb_true_iff in E as [_ E]. by apply bool_decide_eq_true in E.
Qed.

(** [_replace_same_quad] and the match of a login look for the new row's quad. *)
Lemma same_quad_spec n b scope r : b ∈ [BINDING_ORG_SHARED; BINDING_USER_PRIVATE] ->
  same_quad n b scope r = true <->
  quad r = (n, Some b, org_id scope, if decide (b = BINDING_USER_PRIVATE) then user_id scope else None).
Proof.
  intros Hb. unfold same_quad, quad. rewrite !andb_true_iff, !negb_true_iff, !andb_false_iff, !negb_false_iff,
    !bool_decide_eq_true, !bool_decide_eq_false. case_decide; subst.
  - split; [intros ((((-> & ->) & ->) & [?| ->]) & _); done|]. intros [= -> -> -> ->]. split_and!; auto.
  - assert (b = BINDING_ORG_SHARED) as -> by set_solver. split.
    + intros ((((-> & ->) & ->) & _) & [?| ->]); done.
    + intros [= -> -> -> ->]. split_and!; auto.
Qed.
Lemma same_login_spec n b scope r :
  same_login n b scope r = true <->
  quad r = (n, Some b, org_id scope, if decide (b = BINDING_USER_PRIVATE) then user_id scope else None).
Proof.
  unfold same_login, quad. rewrite !andb_true_iff, !bool_decide_eq_true. split; [by intros [[[-> ->] ->] ->]|].
  by intros [= -> -> -> ->].
Qed.

Lemma store_keeps_one uuid s s' o c p l n b scope :
  one_per_owner s -> uuid <> "" -> partner_id scope = tenant_id -> b ∈ [BINDING_ORG_SHARED; BINDING_USER_PRIVATE] ->
  list_credentials_for_scope tenant_id scope false s = (s, Ok l) ->
  (forall r, p r = true <->
     quad r = (n, Some b, org_id scope, if decide (b = BINDING_USER_PRIVATE) then user_id scope else None)) ->
  m_id c = None -> m_active c = true ->
  quad c = (n, Some b, org_id scope, if decide (b = BINDING_USER_PRIVATE) then user_id scope else None) ->
  store_credential tenant_id uuid (List.find p l) c s = (s', o) -> one_per_owner s'.
Proof.
  intros Hone Hu Hp Hb Hl Hspec Hid Ha Hq Hrun. apply list_run in Hl as [_ Hl]. specialize (Hl l eq_refl).
  assert (Hvis : forall r, r ∈ rows s -> quad r = quad c -> r ∈ l).
  { intros r Hr Hqr. apply Hl. split; [done|]. rewrite Hq in Hqr. injection Hqr as _ ? ? _.
    apply (own_visible s scope b); try done. by apply one_consistent. }
  unfold store_credential in Hrun. destruct (List.find p l) as [r|] eqn:Hf.
  - apply find_some in Hf as [Hin Hpr]. apply list_elem_of_In, Hl in Hin as [Hin _]. apply Hspec in Hpr.
    pose proof (one_ids _ Hone r Hin) as Hri. destruct (m_id r) as [i|] eqn:Hi; [|done].
    eapply save_keeps_one in Hrun; [done|done|by left|by rewrite m_active_upd|].
    intros r' Hin' Hqr' _. rewrite quad_base in Hqr'. rewrite m_id_upd. simpl. rewrite <- Hi. f_equal.
    eapply one_quad; [done..| |congruence]. injection Hpr as _ -> _ _. done.
  - eapply save_keeps_one in Hrun; [done|done|by left|done|]. intros r Hin Hqr _. exfalso.
    pose proof (find_none _ _ Hf r (proj1 (list_elem_of_In _ _) (Hvis r Hin Hqr))) as Hn.
    apply not_true_iff_false in Hn. apply Hn, Hspec. congruence.
Qed.

Definition keeps {A} (c : op A) : Prop := forall s, one_per_owner s -> one_per_owner (c s).1.

Lemma keeps_reads {A} (c : op A) : reads c -> keeps c.
Proof. intros Hr s Hs. by rewrite Hr. Qed.
Lemma keeps_bind {A B} (c : op A) (k : A -> op B) : keeps c -> (forall a, keeps (k a)) -> keeps (se_bind c k).
Proof. apply preserves_bind. Qed.
Lemma audit_keeps_one a k t scope r : keeps (audit_event a k t scope r).
Proof. intros s Hs. by apply one_audit. Qed.

(** A sealing step: the listed rows, a new row, its storage. *)
Lemma seal_keeps {A} now uuid n ct cfg env ex scope b st p (k : PartnerCredential -> option PartnerCredential -> op A) :
  uuid <> "" -> partner_id scope = tenant_id ->
  (b ∈ [BINDING_ORG_SHARED; BINDING_USER_PRIVATE] -> forall r, p r = true <->
     quad r = (n, Some b, org_id scope, if decide (b = BINDING_USER_PRIVATE) then user_id scope else None)) ->
  (forall saved same, keeps (k saved same)) ->
  keeps (listed <- list_credentials_for_scope tenant_id scope false ;;
         row <- new_credential now n ct cfg env ex scope b st ;;
         saved <- store_credential tenant_id uuid (List.find p listed) row ;;
         k saved (List.find p listed)).
Proof.
  intros Hu Hp Hspec Hk s Hs. match goal with |- one_per_owner (?c s).1 => destruct (c s) as [s' o] eqn:H end. simpl.
  step H; [|done]. step H; [|done]. apply new_credential_run in Ha0 as (Hb & Hid & Hact & _ & Hq).
  unfold se_bind in H. destruct (store_credential _ _ _ _ s) as [s1 [saved|e]] eqn:Hst.
  - eapply store_keeps_one in Hst; [|by eauto..]. specialize (Hk saved (List.find p a) s1 Hst). by rewrite H in Hk.
  - injection H as <- _. by eapply store_keeps_one in Hst; [|by eauto..].
Qed.

Ltac keeps_steps := repeat (apply keeps_bind; [apply keeps_reads; solve [reads_steps]|intros ?]).

Lemma connect_keeps encrypt now uuid nonce n ct b scope secret parsed cfg ex :
  uuid <> "" -> partner_id scope = tenant_id ->
  keeps (connect_credential encrypt tenant_id now uuid nonce n ct b scope secret parsed cfg ex).
Proof.
  intros Hu Hp. unfold connect_credential. do 12 (apply keeps_bind; [apply keeps_reads; reads_steps|intros ?]).
  intros s Hs. unfold replace_same_quad. rewrite se_bind_assoc.
  refine (seal_keeps now uuid n ct cfg _ ex scope a0 STATUS_ACTIVE (same_quad n a0 scope)
    (fun saved same => audit_event "connect" "credential" (id_or_empty saved) scope "" ;;;
       se_ret (saved, match same with Some _ => true | None => false end)) Hu Hp _ _ s Hs).
  - intros Hb r. by apply same_quad_spec.
  - intros saved same. apply keeps_bind; [apply audit_keeps_one|intros; apply keeps_reads; reads_steps].
Qed.

Lemma dcr_keeps encrypt now uuid nonce issuer n b scope reg :
  uuid <> "" -> partner_id scope = tenant_id ->
  keeps (dcr_register encrypt tenant_id now uuid nonce issuer n b scope reg).
Proof.
  intros Hu Hp. unfold dcr_register. do 5 (apply keeps_bind; [apply keeps_reads; reads_steps|intros ?]).
  intros s Hs. unfold replace_same_quad. rewrite se_bind_assoc.
  refine (seal_keeps now uuid n "oauth2" _ _ None scope a0 STATUS_PENDING (same_quad n a0 scope)
    (fun saved same => audit_event "connect" "credential" (id_or_empty saved) scope "" ;;; se_ret saved) Hu Hp _ _ s Hs).
  - intros Hb r. by apply same_quad_spec.
  - intros saved same. apply keeps_bind; [apply audit_keeps_one|intros; apply keeps_reads; reads_steps].
Qed.

Lemma upsert_keeps encrypt now uuid nonce n b scope cfg material :
  uuid <> "" -> partner_id scope = tenant_id ->
  keeps (upsert_credential encrypt tenant_id now uuid nonce n b scope cfg material).
Proof.
  intros Hu Hp s Hs.
  pose proof (seal_keeps now uuid n "oauth2" cfg (encrypt nonce material 1) None scope b STATUS_ACTIVE
    (same_login n b scope) (fun saved _ => se_ret saved) Hu Hp (fun _ r => same_login_spec n b scope r)
    ltac:(intros; apply keeps_reads; reads_steps) s Hs) as H.
  unfold upsert_credential, se_bind in *. destruct (list_credentials_for_scope _ _ _ s) as [s1 [l|e]]; [|done].
  destruct (new_credential _ _ _ _ _ _ _ _ _ s1) as [s2 [c|e]]; [|done].
  by destruct (store_credential _ _ _ _ s2) as [s3 [c'|e]].
Qed.

(** A write that only removes rows keeps the invariant. *)
Lemma shrink_keeps docs s : one_per_owner s -> InMemory.store_ok docs ->
  (forall m, m ∈ @Integrations.rows tenant_id PartnerCredential credential_model docs -> m ∈ rows s) ->
  one_per_owner (set_credentials docs s).
Proof. intros [Hs Hi Hq] Hd Hsub. split; cbn [credentials set_credentials]; auto. Qed.

Lemma soft_delete_shrinks now id docs docs' o : InMemory.store_ok docs ->
  Scoped.soft_delete (inner := InMemory.repository) (view tenant_id) now None id docs = (docs', o) ->
  InMemory.store_ok docs' /\ forall m : PartnerCredential, m ∈ @Integrations.rows tenant_id _ credential_model docs' ->
    m ∈ @Integrations.rows tenant_id _ credential_model docs.
Proof.
  intros Hs. unfold Scoped.soft_delete. destruct (Scoped.require_same_tenant _ _ _) as [u|e]; [|by intros [= <- <-]].
  intros H. pose proof (rp_soft_delete_inv (RepositoryLaws := InMemory.laws) now None id docs Hs) as Hinv.
  pose proof (fun m => rp_soft_delete_view (RepositoryLaws := InMemory.laws) now None id docs m Hs) as Hv.
  rewrite H in Hinv, Hv. split; [done|]. intros m. unfold Integrations.rows. rewrite !Scoped.own_rows_elem.
  cbn [fst] in Hv. rewrite Hv. naive_solver.
Qed.

Lemma revoke_keeps now id scope : keeps (revoke_credential tenant_id now id scope).
Proof.
  unfold revoke_credential. keeps_steps. destruct a0; [|apply keeps_reads; reads_steps]. intros s Hs.
  unfold se_bind at 1, se_get at 1. destruct (Scoped.soft_delete _ _ _ _ _) as [docs o] eqn:Hd.
  apply soft_delete_shrinks in Hd as [Hok Hsub]; [|by apply one_consistent].
  destruct o as [[]|[]]; try done. apply one_audit. by apply shrink_keeps.
Qed.

(** *** Suspending the private rows of an organisation *)
Lemma suspend_saved uuid c s : one_per_owner s -> c ∈ rows s ->
  exists s', save_credential tenant_id uuid (suspend c) s = (s', Ok (suspend c)) /\ one_per_owner s' /\
    s' = set_credentials (credentials s') s /\
    forall m, m ∈ rows s' <-> m = suspend c \/ (m ∈ rows s /\ m <> c).
Proof.
  intros Hone Hin. pose proof Hone as [Hs Hi Hq]. pose proof (Hi c Hin) as Hid.
  pose proof Hin as (Ht & k & Hk & Ha & _)%rows_elem; [|done].
  destruct (save_run tenant_id uuid (suspend c) s Hs (or_intror Hid) Ha) as (s' & saved & Hr & Hs' & He & Hsv & Hm).
  assert (saved = suspend c) as ->.
  { rewrite Hsv. change (m_id (suspend c)) with (m_id c). rewrite Hid, Hk. unfold Scoped.stamp, upd_base.
    destruct c as [[] ]. unfold m_tenant, m_id in *. simpl in *. by subst. }
  exists s'. split; [done|]. split; [|split; [done|]].
  - apply (save_keeps_one uuid (suspend c) s s' (Ok (suspend c))); [done|by right|done| |done].
    intros r Hr' Hqr Hb. change (m_id (suspend c)) with (m_id c). f_equal. by apply Hq.
  - intros m. rewrite Hm. change (m_id (suspend c)) with (m_id c). split; intros [?|[H1 H2]]; auto.
    + right. split; [done|]. by intros ->.
    + right. split; [done|]. intros He'. by apply H2, (rows_id_inj tenant_id s).
Qed.

Lemma suspend_run org reason scope l s :
  one_per_owner s -> NoDup l -> (forall c, c ∈ l -> c ∈ rows s) ->
  exists s', suspend_barred tenant_id org reason scope l s =
      (s', Ok (map id_or_empty (List.filter (barred org) l))) /\ one_per_owner s' /\
    (forall m, m ∈ rows s' <->
       (exists c, c ∈ l /\ barred org c = true /\ m = suspend c) \/
       (m ∈ rows s /\ ~ (m ∈ l /\ barred org m = true))) /\
    audit s' = audit s ++ map (fun c => mkAudit scope "suspend" "credential" (id_or_empty c) reason)
                            (List.filter (barred org) l) /\
    s' = mkVault (credentials s') (integrations s) (policies s) (system_templates s) (tenant_templates s) (audit s').
Proof.
  revert s. induction l as [|c l IH]; intros s Hone Hnd Hl; cbn [suspend_barred List.filter map].
  { exists s. rewrite app_nil_r. split_and!; try done; [|by destruct s]. intros m. set_solver. }
  apply NoDup_cons in Hnd as [Hc Hnd]. pose proof (Hl c ltac:(by left)) as Hin.
  pose proof (one_ids _ Hone c Hin) as Hid. destruct (m_id c) as [i|] eqn:Hi; [|done].
  destruct (barred org c) eqn:Hb.
  - destruct (suspend_saved "" c s Hone Hin) as (s1 & Hr & Hone1 & He1 & Hm1).
    destruct (IH (add_audit (mkAudit scope "suspend" "credential" i reason) s1)) as (s' & Hrun & Hone' & Hm & Hau & He).
    + by apply one_audit.
    + done.
    + intros c' Hc'. apply Hm1. right. split; [apply Hl; by right|]. by intros ->.
    + exists s'. unfold se_bind, audit_event, se_modify. rewrite Hr, Hrun. cbn [map].
      assert (id_or_empty c = i) as -> by (unfold id_or_empty; by rewrite Hi).
      split; [done|]. split; [done|]. split; [|split].
      * intros m. rewrite Hm. change (rows (add_audit ?e s1)) with (rows s1). rewrite Hm1.
        assert (barred org (suspend c) = false) by (unfold barred; cbn; by rewrite andb_false_r).
        split; [intros [(c' & ? & ? & ->)|[[->|[? ?]] ?]]|intros [(c' & [->|?]%elem_of_cons & ? & ->)|[? Hn]]].
        -- left. exists c'. set_solver.
        -- left. exists c. set_solver.
        -- right. split; [done|]. intros [[->|?]%elem_of_cons ?]; auto.
        -- right. split; [by left|]. intros [_ ?]. congruence.
        -- left. by exists c'.
        -- right. split; [right; split; [done|]|]; [intros ->; apply Hn; split; [by left|done]|].
           intros [? ?]. apply Hn. split; [by right|done].
      * rewrite Hau, He1. cbn [audit add_audit set_credentials]. by rewrite <- app_assoc.
      * rewrite He, He1. done.
  - destruct (IH s Hone Hnd ltac:(intros; apply Hl; by right)) as (s' & Hrun & Hone' & Hm & Hau & He).
    exists s'. rewrite Hrun. split; [done|]. split; [done|]. split; [|done].
    intros m. rewrite Hm. split; [intros [(c' & ? & ? & ->)|[? Hn]]|intros [(c' & [->|?]%elem_of_cons & ? & ->)|[? Hn]]].
    + left. exists c'. set_solver.
    + right. split; [done|]. intros [[->|?]%elem_of_cons ?]; [congruence|auto].
    + congruence.
    + left. by exists c'.
    + right. split; [done|]. intros [? ?]. apply Hn. split; [by right|done].
Qed.

Lemma list_run_ok scope s : partner_id scope = tenant_id -> tenant_id <> "" ->
  list_credentials_for_scope tenant_id scope false s =
    (s, Ok (List.filter (fun row => tenant_allows (m_tenant row) scope && credential_visible_to row scope false)
              (rows s))).
Proof.
  intros Hp Ht. unfold list_credentials_for_scope, ensure_owner_scope, ensure. rewrite Hp.
  destruct (str_true tenant_id) eqn:E; [done|by apply str_true_false in E].
Qed.

Lemma rows_NoDup s : consistent s -> NoDup (rows s).
Proof.
  intros Hs. unfold Integrations.rows, Scoped.own_rows. apply (NoDup_fmap_1 m_id).
  by apply lfilter_NoDup, InMemory.active_models_ids.
Qed.

(** The private rows of an organisation are in its manage listing. *)
Lemma barred_listed org scope s c : consistent s -> partner_id scope = tenant_id -> org_id scope = Some org ->
  barred org c = true -> c ∈ rows s ->
  tenant_allows (m_tenant c) scope && credential_visible_to c scope false = true.
Proof.
  intros Hs Hp Ho Hb Hin. apply andb_true_iff. unfold barred in Hb. rewrite !andb_true_iff, !bool_decide_eq_true in Hb.
  destruct Hb as [[Hb Hc] _]. apply (own_visible s scope BINDING_USER_PRIVATE); [done|done|set_solver|done|done|congruence].
Qed.

(** The rows a flip suspends are among those it lists. *)
Lemma barred_in_listed org scope s c : consistent s -> partner_id scope = tenant_id -> org_id scope = Some org ->
  c ∈ List.filter (fun row => tenant_allows (m_tenant row) scope && credential_visible_to row scope false) (rows s) /\
  barred org c = true <-> c ∈ rows s /\ barred org c = true.
Proof.
  intros Hs Hp Ho. rewrite elem_of_lfilter. split; [by intros [[]]|]. intros [Hin Hb].
  split; [split; [done|by apply (barred_listed org scope s)]|done].
Qed.

Lemma private_refused encrypt now uuid nonce n ct scope secret parsed cfg ex s :
  partner_id scope = tenant_id -> tenant_id <> "" -> policy_for tenant_id scope s = (s, Ok POLICY_ENFORCE_SHARED) ->
  connect_credential encrypt tenant_id now uuid nonce n ct (Some BINDING_USER_PRIVATE) scope secret parsed cfg ex s =
    (s, Err ToolForbiddenError).
Proof.
  intros Hp Ht Hpol. unfold connect_credential, ensure_owner_scope, ensure at 1. rewrite Hp.
  destruct (str_true tenant_id) eqn:Et; [|by apply str_true_false in Et].
  unfold se_bind at 1, se_ret at 1. unfold se_bind at 1, ensure_binding_present, se_ret at 1.
  unfold se_bind at 1. by rewrite Hpol.
Qed.

Lemma saved_policy_read p scope s s' saved :
  save_policy tenant_id p scope s = (s', Ok saved) -> str_true (op_org_id p) = true -> m_active p = true ->
  tenant_id <> "" -> credentials s' = credentials s /\ audit s' = audit s /\ binding_policy saved = binding_policy p /\
  forall scope2 s2, partner_id scope2 = tenant_id -> org_id scope2 = Some (op_org_id p) -> policies s2 = policies s' ->
    policy_for tenant_id scope2 s2 = (s2, Ok (binding_policy p)).
Proof.
  intros H Horg Hact Hne. unfold save_policy, ensure_owner_scope, ensure in H.
  destruct (str_true (partner_id scope)); [|done]. unfold se_bind, se_ret in H.
  unfold Scoped.insert in H. cbn [rp_insert InMemory.repository] in H. unfold InMemory.insert in H.
  set (p' := Scoped.stamp (view tenant_id) (upd_base (set_id (Some (op_org_id p))) p)) in H.
  change (opt_truthy (m_id p')) with (str_true (op_org_id p)) in H. rewrite Horg in H.
  change (m_id p') with (Some (op_org_id p)) in H. injection H as <- <-. split_and!; try done.
  intros scope2 s2 Hp Ho Hs2. unfold policy_for. rewrite Ho. unfold get_policy_row, ensure_owner_scope, ensure. rewrite Hp.
  destruct (str_true tenant_id) eqn:Et; [|by apply str_true_false in Et].
  unfold se_bind, se_get, se_ret, Scoped.get. rewrite Hs2.
  cbn [rp_get InMemory.repository policies set_policies].
  unfold InMemory.get. rewrite dget_dset_eq. change (m_active p') with (m_active p). rewrite Hact.
  unfold Scoped.owns. rewrite bool_decide_true by done. cbn [lift se_ret]. unfold se_ret.
  change (op_org_id p') with (op_org_id p). change (m_tenant p') with (Some tenant_id).
  unfold tenant_allows. rewrite Hp, Ho.
  rewrite (bool_decide_true (tenant_id = tenant_id)), (bool_decide_true (op_org_id p = op_org_id p)) by done.
  by rewrite orb_true_r.
Qed.

(** A flip to [enforce_shared] suspends exactly the active private credentials of
    the organisation, leaves every other row as it was, reports the suspended
    ids and audits each of them and the flip; from then on the organisation's
    policy reads [enforce_shared] and connecting a private credential in it is
    refused without any change. A flip that fails changes nothing. *)
Theorem enforcement_exact now org by_user reason scope s s' o :
  one_per_owner s -> tenant_id <> "" -> org <> "" -> partner_id scope = tenant_id ->
  set_policy tenant_id now org POLICY_ENFORCE_SHARED by_user reason scope s = (s', o) ->
  match o with
  | Err _ => s' = s
  | Ok (saved, suspended) =>
      org_id scope = Some org /\ binding_policy saved = POLICY_ENFORCE_SHARED /\
      (forall m, m ∈ rows s' <->
         (exists c, c ∈ rows s /\ barred org c = true /\ m = suspend c) \/ (m ∈ rows s /\ barred org m = false)) /\
      suspended = map id_or_empty (List.filter (barred org) (rows s)) /\
      audit s' = audit s ++ map (fun i => mkAudit scope "suspend" "credential" i reason) suspended ++
                 [mkAudit scope "policy_flip" "org_policy" org reason] /\
      forall encrypt now uuid nonce n ct scope2 secret parsed cfg ex,
        partner_id scope2 = tenant_id -> org_id scope2 = Some org ->
        connect_credential encrypt tenant_id now uuid nonce n ct (Some BINDING_USER_PRIVATE) scope2 secret parsed cfg ex s' =
          (s', Err ToolForbiddenError)
  end.
Proof.
  intros Hone Ht Horg Hp H. pose proof (one_consistent _ Hone) as Hs. unfold set_policy in H.
  do 4 (step H; [|done]). rewrite decide_True in H by done. unfold ensure in Ha0.
  destruct (bool_decide (org_id scope = Some org)) eqn:Ho; [|done]. apply bool_decide_eq_true in Ho.
  set (l := List.filter (fun row => tenant_allows (m_tenant row) scope && credential_visible_to row scope false) (rows s)).
  assert (Hl : forall c, c ∈ l -> c ∈ rows s) by (intros c Hc; by apply elem_of_lfilter in Hc as [? _]).
  destruct (suspend_run org reason scope l s Hone) as (s1 & Hr & Hone1 & Hm & Hau & He);
    [rewrite <- (map_id l); by apply lfilter_NoDup; rewrite map_id; apply rows_NoDup|done|].
  assert (Hlb : List.filter (barred org) l = List.filter (barred org) (rows s)).
  { unfold l. rewrite lfilter_lfilter. apply List.filter_ext_in. intros c Hc%list_elem_of_In.
    destruct (barred org c) eqn:Hb; [|by rewrite andb_false_r]. by rewrite (barred_listed org scope s). }
  unfold se_bind at 1 in H. unfold se_bind at 1 in H. rewrite list_run_ok in H by done. fold l in H. rewrite Hr in H.
  destruct (str_true org) eqn:Eo; [|by apply str_true_false in Eo]. unfold se_bind at 1, se_ret at 1 in H.
  unfold se_bind at 1 in H. destruct (save_policy _ _ _ s1) as [s2 [saved|e]] eqn:Hsave.
  2: { unfold save_policy, ensure_owner_scope, ensure in Hsave. rewrite Hp in Hsave.
       destruct (str_true tenant_id) eqn:E; [done|by apply str_true_false in E]. }
  apply saved_policy_read in Hsave as (Hc2 & Hau2 & Hb2 & Hpol); [|done..].
  unfold se_bind, audit_event, se_modify, se_ret in H. injection H as <- <-.
  split; [done|]. split; [by rewrite Hb2|]. split; [|split; [|split]].
  - intros m. change (rows (add_audit ?e s2)) with (rows s2). rewrite Hc2, Hm.
    assert (Hin : forall c, c ∈ l /\ barred org c = true <-> c ∈ rows s /\ barred org c = true)
      by (intros c; by apply barred_in_listed).
    clear -Hin. split.
    + intros [(c & Hc & Hb & ->)|[H Hn]]; [left; exists c; naive_solver|right].
      split; [done|]. destruct (barred org m) eqn:Hb; [|done]. destruct Hn. split; [apply Hin; auto|done].
    + intros [(c & Hc & Hb & ->)|[H Hb]]; [left; exists c; naive_solver|right].
      split; [done|]. intros [_ Hb']. congruence.
  - by rewrite Hlb.
  - cbn [audit add_audit]. rewrite Hau2, Hau, Hlb, map_map. by rewrite <- app_assoc.
  - intros. apply private_refused; [done..|]. by apply Hpol.
Qed.

Lemma save_policy_credentials p scope s : credentials (save_policy tenant_id p scope s).1 = credentials s.
Proof.
  unfold save_policy, ensure_owner_scope, ensure. unfold se_bind. by destruct (str_true (partner_id scope)).
Qed.

Lemma keeps_same {A} (c : op A) : (forall s, credentials (c s).1 = credentials s) -> keeps c.
Proof. intros Hc s [Hs Hi Hq]. split; rewrite Hc; auto. Qed.

Lemma suspend_listed_keeps org reason scope :
  keeps (listed <- list_credentials_for_scope tenant_id scope false ;; suspend_barred tenant_id org reason scope listed).
Proof.
  intros s Hone. unfold se_bind. destruct (list_credentials_for_scope tenant_id scope false s) as [s1 [l|e]] eqn:Hl.
  - pose proof Hl as Hl'. apply list_run in Hl' as [-> Hin]. specialize (Hin l eq_refl).
    assert (Hnd : NoDup l).
    { unfold list_credentials_for_scope in Hl. run_inv. unfold se_get in *. simplify_eq/=.
      rewrite <- (map_id (List.filter _ _)). apply lfilter_NoDup. rewrite map_id. apply rows_NoDup.
      apply (one_consistent _ Hone). }
    destruct (suspend_run org reason scope l s Hone Hnd) as (s' & -> & Hone' & _); [|done].
    intros c Hc. by apply Hin in Hc as [? _].
  - apply list_run in Hl as [-> _]. done.
Qed.

Lemma set_policy_keeps now org policy by_user reason scope :
  keeps (set_policy tenant_id now org policy by_user reason scope).
Proof.
  unfold set_policy. do 4 (apply keeps_bind; [apply keeps_reads; reads_steps|intros ?]).
  apply keeps_bind; [destruct (decide _); [apply suspend_listed_keeps|apply keeps_reads; reads_steps]|intros ?].
  apply keeps_bind; [apply keeps_reads; reads_steps|intros ?].
  apply keeps_bind; [apply keeps_same, save_policy_credentials|intros ?].
  apply keeps_bind; [apply audit_keeps_one|intros ?; apply keeps_reads; reads_steps].
Qed.

Lemma link_keeps now uuid n agent cfg scope : keeps (link_integration tenant_id now uuid n agent cfg scope).
Proof.
  unfold link_integration. keeps_steps. destruct (org_id scope); [|apply keeps_reads; reads_steps]. keeps_steps.
  destruct a0; [|apply keeps_reads; reads_steps]. keeps_steps.
  apply keeps_bind; [by apply keeps_same|intros ?].
  apply keeps_bind; [apply audit_keeps_one|intros ?; apply keeps_reads; reads_steps].
Qed.

Lemma unlink_keeps now id scope : keeps (unlink_integration tenant_id now id scope).
Proof.
  apply keeps_same. intros s. unfold unlink_integration.
  destruct (se_bind _ _ s) as [s' o] eqn:H. simpl. do 2 (step H; [|done]).
  destruct (List.find _ _); [|by injection H as <- _].
  unfold se_bind at 1, se_get at 1 in H. destruct (Scoped.soft_delete _ _ _ _ _) as [docs [[]|[]]];
    unfold se_bind, audit_event, se_modify, se_raise in H; by simplify_eq/=.
Qed.

(** *** Any sequence of operations

    Each request runs to its end before the next starts. In the code a connect, a
    registration and a login list an owner's rows and save later, with awaits between;
    two of them at once are not such a sequence, and can store a row each
    ([double_exchange] of OAuth shows it for two logins). *)
Inductive request : Type :=
| Connect (now : Z) (uuid nonce name ctype : string) (b : option string) (scope : OwnerScope) (secret : string)
    (parsed : option val) (config : dict string val) (expires : option Z)
| Register (now : Z) (uuid nonce issuer name : string) (b : option string) (scope : OwnerScope)
    (registered : result error registration)
| Login (now : Z) (uuid nonce name b : string) (scope : OwnerScope) (config : dict string val) (material : val)
| Revoke (now : Z) (id : string) (scope : OwnerScope)
| SetPolicy (now : Z) (org policy by_user reason : string) (scope : OwnerScope)
| Link (now : Z) (uuid name agent : string) (config : dict string val) (scope : OwnerScope)
| Unlink (now : Z) (id : string) (scope : OwnerScope).

Definition serve encrypt (r : request) (s : vault) : vault :=
  match r with
  | Connect now uuid nonce n ct b scope secret parsed cfg ex =>
      (connect_credential encrypt tenant_id now uuid nonce n ct b scope secret parsed cfg ex s).1
  | Register now uuid nonce issuer n b scope reg =>
      (dcr_register encrypt tenant_id now uuid nonce issuer n b scope reg s).1
  | Login now uuid nonce n b scope cfg material =>
      (upsert_credential encrypt tenant_id now uuid nonce n b scope cfg material s).1
  | Revoke now id scope => (revoke_credential tenant_id now id scope s).1
  | SetPolicy now org policy by_user reason scope => (set_policy tenant_id now org policy by_user reason scope s).1
  | Link now uuid n agent cfg scope => (link_integration tenant_id now uuid n agent cfg scope s).1
  | Unlink now id scope => (unlink_integration tenant_id now id scope s).1
  end.

(** A request of this tenant, with a drawn id. *)
Definition well_formed (r : request) : Prop :=
  match r with
  | Connect _ uuid _ _ _ _ scope _ _ _ _ | Register _ uuid _ _ _ _ scope _ | Login _ uuid _ _ _ scope _ _ =>
      uuid <> "" /\ partner_id scope = tenant_id
  | Revoke _ _ scope | SetPolicy _ _ _ _ _ scope | Link _ _ _ _ _ scope | Unlink _ _ scope => partner_id scope = tenant_id
  end.

Lemma serve_keeps encrypt r s : well_formed r -> one_per_owner s -> one_per_owner (serve encrypt r s).
Proof.
  intros Hr Hone. destruct r; simpl in *; [destruct Hr; by apply connect_keeps|destruct Hr; by apply dcr_keeps|
    destruct Hr; by apply upsert_keeps|by apply revoke_keeps|by apply set_policy_keeps|by apply link_keeps|
    by apply unlink_keeps].
Qed.

Lemma empty_one : one_per_owner (mkVault [] [] [] [] [] []).
Proof. split; [split; [constructor|done]|set_solver|set_solver]. Qed.

(** C13: Over any sequence of connects, registrations, logins, revocations, policy flips
    and links of a tenant, each of which ends before the next begins, an owner (an
    organisation, or a user in it) holds at most one credential per provider and
    binding: a new one takes the place of the old. Requests that overlap are not
    covered: two logins at once can store a row each ([double_exchange] of OAuth). *)
Theorem one_credential_per_owner encrypt requests s :
  one_per_owner s -> Forall well_formed requests ->
  one_per_owner (foldl (fun s r => serve encrypt r s) s requests).
Proof.
  intros Hone Hwf. revert s Hone. induction Hwf as [|r rs Hr _ IH]; intros s Hone; [done|]. simpl.
  by apply IH, serve_keeps.
Qed.
End invariant.

(** ** Resolution *)
Section resolution.
Context (tenant_id : string).
Notation rows s := (@rows tenant_id PartnerCredential credential_model (credentials s)).

(** The rows a lookup by provider gets to see: the first hundred active ones of
    the collection, whoever owns them. *)
Definition window (name : string) (s : vault) : list PartnerCredential :=
  take (Z.to_nat MAX_PAGE_SIZE)
    (List.filter (fun m => matches m [("provider", VStr name)]) (InMemory.active_models (credentials s))).

(** What a caller may execute with. *)
Definition usable (name : string) (scope : OwnerScope) (c : PartnerCredential) : Prop :=
  m_tenant c = Some tenant_id /\ provider c = name /\ live c = true /\ org_id scope <> None /\
  owner_org_id c = org_id scope /\
  (binding c = Some BINDING_ORG_SHARED \/
   binding c = Some BINDING_USER_PRIVATE /\ owner_user_id c = user_id scope).

Lemma matches_provider c name : matches c [("provider", VStr name)] = true <-> provider c = name.
Proof.
  unfold matches. cbn [forallb]. rewrite andb_true_r. unfold getattr. simpl. apply bool_decide_eq_true.
Qed.

Lemma window_elem name s c : c ∈ window name s -> provider c = name /\ m_active c = true.
Proof.
  intros Hc%(subseteq_take _ _). apply elem_of_lfilter in Hc as [Ha Hm]. split; [by apply matches_provider|].
  unfold InMemory.active_models in Ha. apply list_elem_of_omap in Ha as ([m|] & _ & Ha); simpl in Ha; [|done].
  destruct (m_active m) eqn:E; by simplify_eq.
Qed.

Lemma found_elem name scope s l : partner_id scope = tenant_id ->
  find_credentials_for_scope tenant_id name scope true s = (s, Ok l) ->
  forall c, c ∈ l <-> c ∈ window name s /\ m_tenant c = Some tenant_id /\ credential_visible_to c scope true = true.
Proof.
  intros Hp H c. unfold find_credentials_for_scope, find_credentials_by_provider, ensure_owner_scope, ensure in H.
  destruct (str_true (partner_id scope)); [|done]. unfold se_bind, se_get, se_ret in H. injection H as <-.
  rewrite elem_of_lfilter, andb_true_iff.
  unfold Scoped.find_many. rewrite bool_decide_false by done. cbn [andb rp_find_many InMemory.repository].
  change (InMemory.find_many _ _ _ _) with (window name s).
  assert (Hlen : (length (window name s) <= 100)%nat) by (unfold window; rewrite length_take; change (Z.to_nat MAX_PAGE_SIZE) with 100%nat; lia).
  rewrite take_ge; [|change (Z.to_nat (bounded MAX_PAGE_SIZE)) with 100%nat; etrans; [apply List.filter_length_le|done]].
  rewrite elem_of_lfilter, andb_true_iff, Scoped.owns_spec. cbn [Scoped.tenant view].
  split; [intros [[? [? Ht]] [_ ?]]; done|]. intros (Hw & Ht & Hv). pose proof (window_elem _ _ _ Hw) as [_ Ha].
  split_and!; try done. rewrite Ht. unfold tenant_allows. rewrite Hp, (bool_decide_true (tenant_id = tenant_id)) by done.
  apply orb_true_r.
Qed.

Lemma find_run name scope s : partner_id scope = tenant_id -> tenant_id <> "" ->
  exists l, find_credentials_for_scope tenant_id name scope true s = (s, Ok l).
Proof.
  intros Hp Ht. unfold find_credentials_for_scope, ensure_owner_scope, ensure. rewrite Hp.
  destruct (str_true tenant_id) eqn:E; [by eexists|by apply str_true_false in E].
Qed.

Lemma usable_visible name scope c :
  usable name scope c <-> m_tenant c = Some tenant_id /\ provider c = name /\ live c = true /\
    credential_visible_to c scope true = true.
Proof.
  unfold usable, credential_visible_to. split.
  - intros (? & ? & ? & Ho & Hoo & [Hb|[Hb Hu]]); split_and!; try done; rewrite Hb; destruct (org_id scope); try done;
      rewrite ?Hu, Hoo, !bool_decide_true by done; done.
  - intros (? & ? & ? & Hv). destruct (binding c) as [b|]; [|done]. unfold BINDING_ORG_SHARED, BINDING_USER_PRIVATE in *.
    destruct (org_id scope) as [o|]; repeat case_decide; subst; try done;
      rewrite ?andb_true_iff, ?bool_decide_eq_true in Hv; naive_solver.
Qed.

(** Resolution never fails for a bound owner and changes nothing. It answers a
    credential the caller may execute with: of the tenant, for that provider,
    neither suspended nor revoked, of the caller's organisation, and the caller's
    own when private, which come before shared ones; and it answers none only
    when the lookup window holds none. *)
Theorem resolve_credential_exact name scope s :
  partner_id scope = tenant_id -> tenant_id <> "" ->
  exists o, resolve_credential tenant_id name scope s = (s, Ok o) /\
    match o with
    | Some c => c ∈ window name s /\ usable name scope c /\
        (binding c = Some BINDING_ORG_SHARED -> forall c', c' ∈ window name s -> usable name scope c' ->
           binding c' = Some BINDING_ORG_SHARED)
    | None => forall c, c ∈ window name s -> ~ usable name scope c
    end.
Proof.
  intros Hp Ht. destruct (find_run name scope s Hp Ht) as (l & Hl). pose proof (found_elem _ _ _ _ Hp Hl) as Hin.
  unfold resolve_credential, ensure_owner_scope, ensure. rewrite Hp.
  destruct (str_true tenant_id) eqn:E; [|by apply str_true_false in E].
  unfold se_bind at 1, se_ret at 1. unfold se_bind. rewrite Hl. eexists. split; [reflexivity|].
  set (priv := List.filter _ l). set (shared := List.filter _ l).
  assert (Hpriv : forall c, c ∈ priv <-> c ∈ l /\ binding c = Some BINDING_USER_PRIVATE /\ owner_user_id c = user_id scope).
  { intros c. unfold priv. by rewrite elem_of_lfilter, andb_true_iff, !bool_decide_eq_true. }
  assert (Hsh : forall c, c ∈ shared <-> c ∈ l /\ binding c = Some BINDING_ORG_SHARED).
  { intros c. unfold shared. by rewrite elem_of_lfilter, bool_decide_eq_true. }
  assert (Hall : forall c, c ∈ window name s -> usable name scope c -> c ∈ priv ++ shared).
  { intros c Hw Hu. rewrite elem_of_app, Hpriv, Hsh, !Hin. pose proof Hu as (? & _ & _ & _ & _ & Hb).
    apply usable_visible in Hu as (? & ? & ? & ?). naive_solver. }
  assert (Happ : List.find live (priv ++ shared) = match List.find live priv with Some x => Some x | None => List.find live shared end).
  { clear. induction priv as [|x k IH]; simpl; [done|]. by destruct (live x). }
  destruct (List.find live (priv ++ shared)) as [c|] eqn:Hf.
  - pose proof Hf as Hf'. apply find_some in Hf' as [Hc Hlive]. apply list_elem_of_In in Hc.
    assert (Hcl : c ∈ l) by (rewrite elem_of_app, Hpriv, Hsh in Hc; naive_solver).
    apply Hin in Hcl as (Hw & Htn & Hv). split; [done|]. split.
    + apply usable_visible. split_and!; try done. by apply window_elem in Hw as [? _].
    + intros Hb c' Hw' Hu'. destruct (List.find live priv) as [x|] eqn:Hfp.
      * injection Happ as ->. apply find_some in Hfp as [Hx _]. apply list_elem_of_In, Hpriv in Hx as (_ & Hx & _). by rewrite Hb in Hx.
      * pose proof (Hall c' Hw' Hu') as [Hp'|Hs']%elem_of_app; [|by apply Hsh in Hs' as [_ ?]].
        pose proof (find_none _ _ Hfp c' (proj1 (list_elem_of_In _ _) Hp')) as Hn. destruct Hu' as (_ & _ & Hlv & _). congruence.
  - intros c Hw Hu. pose proof (find_none _ _ Hf c (proj1 (list_elem_of_In _ _) (Hall c Hw Hu))) as Hn.
    destruct Hu as (_ & _ & Hlv & _). congruence.
Qed.

(** The window is filled before ownership is looked at: when other tenants hold
    the first hundred credentials of a provider, nobody else's is found. *)
Lemma resolution_starved name scope s :
  partner_id scope = tenant_id -> tenant_id <> "" -> (forall c, c ∈ window name s -> m_tenant c <> Some tenant_id) ->
  resolve_credential tenant_id name scope s = (s, Ok None).
Proof.
  intros Hp Ht Hn. destruct (find_run name scope s Hp Ht) as (l & Hl). pose proof (found_elem _ _ _ _ Hp Hl) as Hin.
  assert (l = []) as ->.
  { destruct l as [|c l]; [done|]. destruct (proj1 (Hin c) ltac:(by left)) as (Hw & Htn & _). by apply Hn in Hw. }
  unfold resolve_credential, ensure_owner_scope, ensure. rewrite Hp.
  destruct (str_true tenant_id) eqn:E; [|by apply str_true_false in E].
  unfold se_bind at 1, se_ret at 1. unfold se_bind. by rewrite Hl.
Qed.
End resolution.

(** ** Bindings a template and a policy admit *)
Lemma policy_bindings_spec b policy : b ∈ policy_bindings policy <-> policy_allows_binding b policy = true.
Proof.
  unfold policy_bindings, policy_allows_binding.
  repeat case_decide; subst; rewrite ?bool_decide_eq_true; unfold POLICY_ENFORCE_SHARED, POLICY_USER_CHOICE,
    POLICY_SHARED_WITH_OVERRIDE, BINDING_ORG_SHARED, BINDING_USER_PRIVATE in *; set_solver.
Qed.

(** The set-based rule and the case-based rule for bindings agree: a binding is
    connectable exactly when the template allows it and the policy permits it,
    under any policy text; an unknown policy permits none, [enforce_shared] only
    sharing within the organisation. *)
Theorem effective_bindings_exact allowed policy b :
  (b ∈ effective_binding_set allowed policy <-> b ∈ allowed /\ policy_allows_binding b policy = true) /\
  (policy = POLICY_ENFORCE_SHARED -> b ∈ effective_binding_set allowed policy -> b = BINDING_ORG_SHARED) /\
  (policy ∉ [POLICY_USER_CHOICE; POLICY_SHARED_WITH_OVERRIDE; POLICY_ENFORCE_SHARED] ->
   effective_binding_set allowed policy = []).
Proof.
  assert (Hs : forall b, b ∈ effective_binding_set allowed policy <-> b ∈ allowed /\ policy_allows_binding b policy = true).
  { intros b'. unfold effective_binding_set. rewrite elem_of_lfilter, bool_decide_eq_true, policy_bindings_spec. done. }
  split; [done|]. split.
  - intros -> [_ Hb]%Hs. apply policy_bindings_spec in Hb. change (policy_bindings _) with [BINDING_ORG_SHARED] in Hb. set_solver.
  - intros Hn. apply lfilter_none. intros x _. unfold policy_bindings. rewrite !decide_False by set_solver. done.
Qed.

(** ** A small organisation *)
Module Example.

Definition seal (nonce : string) (_ : val) (_ : Z) : string := nonce.
Definition ann : OwnerScope := Owner "acme" (Some "org-1") (Some "ann").
Definition start : vault := mkVault [] [] [] [] [] [].
Definition shared_key : request :=
  Connect 1 "c-1" "n1" "github" "bearer" (Some BINDING_ORG_SHARED) ann "t1" None [] None.
Definition private_key (uuid : string) : request :=
  Connect 2 uuid "n2" "github" "bearer" (Some BINDING_USER_PRIVATE) ann "t2" None [] None.
Definition registered : request :=
  Register 2 "c-3" "n3" "https://issuer.test" "slack" (Some BINDING_USER_PRIVATE) ann (Ok (Registration "cl" "cs" [])).
Definition login : request := Login 4 "c-4" "n4" "github" BINDING_USER_PRIVATE ann [] (VDict [("token", VStr "t4")]).
Definition enforce : request := SetPolicy 3 "org-1" POLICY_ENFORCE_SHARED "ann" "audit" ann.
Definition run (l : list request) : vault := foldl (fun s r => serve "acme" seal r s) start l.
Definition resolved (name : string) (s : vault) : option (option string * option string) :=
  match (resolve_credential "acme" name ann s).2 with Ok (Some c) => Some (m_id c, binding c) | _ => None end.

Example private_first : resolved "github" (run [shared_key; private_key "c-2"; private_key "c-9"]) =
  Some (Some "c-2", Some BINDING_USER_PRIVATE).
Proof. by vm_compute. Qed.
Example enforcement_falls_back : resolved "github" (run [shared_key; private_key "c-2"; enforce; private_key "c-9"]) =
  Some (Some "c-1", Some BINDING_ORG_SHARED).
Proof. by vm_compute. Qed.

(** A login is sealed without a look at the policy: under [enforce_shared] it
    restores the suspended private credential, which is then used. *)
Lemma login_bypasses_policy : resolved "github" (run [shared_key; private_key "c-2"; enforce; login]) =
  Some (Some "c-2", Some BINDING_USER_PRIVATE).
Proof. by vm_compute. Qed.

(** A pending private registration is not suspended by the flip and still resolves. *)
Lemma pending_survives_enforcement : resolved "slack" (run [registered; enforce]) =
  Some (Some "c-3", Some BINDING_USER_PRIVATE).
Proof. by vm_compute. Qed.

Lemma one_credential_per_owner_witness :
  one_per_owner "acme" (run [shared_key; private_key "c-2"; enforce; login]).
Proof.
  apply (one_credential_per_owner "acme" seal [shared_key; private_key "c-2"; enforce; login] start (empty_one "acme")).
  repeat constructor; discriminate.
Defined.

Definition before : vault := run [shared_key; private_key "c-2"].
Lemma before_one : one_per_owner "acme" before.
Proof. by apply serve_keeps; [|apply serve_keeps; [|apply empty_one]]. Qed.

Lemma enforcement_exact_witness : exists s' saved suspended,
  set_policy "acme" 3 "org-1" POLICY_ENFORCE_SHARED "ann" "audit" ann before = (s', Ok (saved, suspended)) /\
  suspended = map id_or_empty (List.filter (barred "org-1") (rows "acme" (credentials before))).
Proof.
  destruct (set_policy "acme" 3 "org-1" POLICY_ENFORCE_SHARED "ann" "audit" ann before) as [s' o] eqn:H.
  assert (Hne : (set_policy "acme" 3 "org-1" POLICY_ENFORCE_SHARED "ann" "audit" ann before).1 <> before) by (by vm_compute).
  rewrite H in Hne.
  pose proof (enforcement_exact "acme" 3 "org-1" "ann" "audit" ann before s' o before_one ltac:(discriminate)
                ltac:(discriminate) eq_refl H) as He.
  destruct o as [[saved suspended]|e]; [|by destruct Hne].
  exists s', saved, suspended. split; [reflexivity|apply He].
Defined.

Lemma resolve_credential_exact_witness : exists o, resolve_credential "acme" "github" ann before = (before, Ok o) /\
  match o with
  | Some c => c ∈ window "github" before /\ usable "acme" "github" ann c /\
      (binding c = Some BINDING_ORG_SHARED -> forall c', c' ∈ window "github" before -> usable "acme" "github" ann c' ->
         binding c' = Some BINDING_ORG_SHARED)
  | None => forall c, c ∈ window "github" before -> ~ usable "acme" "github" ann c
  end.
Proof. apply (resolve_credential_exact "acme" "github" ann before); [reflexivity|discriminate]. Defined.
End Example.
End Integrations.
