(* ===== verification/Vault.v ===== *)
(** * The credential vault (src/voiceai/modules/tools: vault.py,
    credential_repository.py)

    [CredentialVault] seals bytes in [v{generation}:{base64(nonce ++ ciphertext)}];
    [VaultCredentialStore] opens the row a tool's [cred:<id>] pointer names. AES-GCM
    ([aead_encrypt], [aead_decrypt]) is third-party code and a parameter, as are
    [json.dumps] and [json.loads] with their UTF-8 coding. A byte is an [N] below 256. *)
From S2P Require Import Prelude PyText PyVal Pagination Repository Scoped ToolExec Integrations.
Import ToolExec Integrations.
Open Scope N_scope.
Open Scope voice_scope.

Module Vault.

Definition is_byte (b : N) : Prop := b < 256.

(** ** Strict base64 decoding ([base64.b64decode(..., validate=True)]) *)
Definition b64_value (c : ascii) : option N :=
  let n := Ascii.N_of_ascii c in
  if (65 <=? n) && (n <=? 90) then Some (n - 65)
  else if (97 <=? n) && (n <=? 122) then Some (n - 71)
  else if (48 <=? n) && (n <=? 57) then Some (n + 4)
  else if n =? 43 then Some 62
  else if n =? 47 then Some 63
  else None.

(** The data characters, and the number of padding characters that end the text;
    [None] when another character occurs. *)
Fixpoint b64_split (l : text) : option (list N * nat) :=
  match l with
  | [] => Some ([], O)
  | c :: l' =>
      match b64_value c, b64_split l' with
      | Some v, Some (vs, p) => Some (v :: vs, p)
      | None, Some ([], p) => if decide (c = "="%char) then Some ([], S p) else None
      | _, _ => None
      end
  end.

Fixpoint b64_bytes (l : list N) : list N :=
  match l with
  | w :: x :: y :: z :: l' =>
      (w * 4 + x / 16) :: (x mod 16 * 16 + y / 4) :: (y mod 4 * 64 + z) :: b64_bytes l'
  | [w; x; y] => [w * 4 + x / 16; x mod 16 * 16 + y / 4]
  | [w; x] => [w * 4 + x / 16]
  | _ => []
  end.

Definition b64decode (l : text) : option (list N) :=
  match b64_split l with
  | Some (vs, p) =>
      if (3 <=? p)%nat then None
      else match (length vs mod 4)%nat with
           | O => Some (b64_bytes vs)
           | 2%nat => if (p =? 2)%nat then Some (b64_bytes vs) else None
           | 3%nat => if (1 <=? p)%nat then Some (b64_bytes vs) else None
           | _ => None
           end
  | None => None
  end.

(** ** [CredentialVault] *)
Inductive vault_error : Type := BadVersion | BadEnvelope | DecryptFailed.

Definition NONCE_SIZE_BYTES : nat := 12.
Definition TAG_SIZE_BYTES : nat := 16.

Section vault.
Context (aead_encrypt : list N -> list N -> list N).
Context (aead_decrypt : list N -> list N -> option (list N)).

Definition head_of (version : Z) : string := "v" +:+ str_of_Z version.

Definition encrypt (nonce plaintext : list N) (version : Z) : result vault_error string :=
  if (version <? 1)%Z then Err BadVersion
  else Ok (head_of version +:+ ":" +:+ of_chars (b64encode (nonce ++ aead_encrypt nonce plaintext))).

Definition decrypt (envelope : string) (version : Z) : result vault_error (list N) :=
  if (version <? 1)%Z then Err BadVersion
  else let '(head, separator, payload) := partition_colon envelope in
       if negb separator || negb (bool_decide (head = head_of version)) then Err BadEnvelope
       else match b64decode (chars payload) with
            | None => Err BadEnvelope
            | Some raw =>
                if (length raw <? NONCE_SIZE_BYTES + TAG_SIZE_BYTES)%nat then Err BadEnvelope
                else match aead_decrypt (take NONCE_SIZE_BYTES raw) (drop NONCE_SIZE_BYTES raw) with
                     | Some p => Ok p
                     | None => Err DecryptFailed
                     end
            end.
End vault.

(** ** Base64 round trip *)
#[local] Ltac Zify.zify_post_hook ::= Z.to_euclidean_division_equations.

Lemma b64_value_char n : n < 64 -> b64_value (b64_char n) = Some n.
Proof.
  intros Hn. assert (H : forallb (fun k => bool_decide (b64_value (b64_char (N.of_nat k)) = Some (N.of_nat k))) (seq 0 64) = true)
    by (vm_compute; reflexivity).
  rewrite forallb_forall in H. specialize (H (N.to_nat n) ltac:(apply in_seq; lia)).
  apply bool_decide_eq_true in H. by rewrite N2Nat.id in H.
Qed.

(** The six-bit digits of a byte string. *)
Fixpoint digits (l : list N) : list N :=
  match l with
  | a :: b :: c :: l' => (a / 4) :: (a mod 4 * 16 + b / 16) :: (b mod 16 * 4 + c / 64) :: (c mod 64) :: digits l'
  | [a; b] => [a / 4; a mod 4 * 16 + b / 16; b mod 16 * 4]
  | [a] => [a / 4; a mod 4 * 16]
  | [] => []
  end.

Lemma three_induction (P : list N -> Prop) :
  P [] -> (forall a, P [a]) -> (forall a b, P [a; b]) -> (forall a b c l, P l -> P (a :: b :: c :: l)) -> forall l, P l.
Proof.
  intros H0 H1 H2 H3. fix IH 1. intros [|a [|b [|c l]]]; [done|apply H1|apply H2|apply H3, IH].
Qed.

Lemma b64_split_data c l vs p : is_Some (b64_value c) -> b64_split l = Some (vs, p) ->
  exists v, b64_value c = Some v /\ b64_split (c :: l) = Some (v :: vs, p).
Proof. intros [v Hv] Hl. exists v. simpl. by rewrite Hv, Hl. Qed.

Lemma b64_split_encode l : Forall is_byte l ->
  b64_split (b64encode l) = Some (digits l, match (length l mod 3)%nat with O => O | 1%nat => 2%nat | _ => 1%nat end).
Proof.
  pattern l. apply three_induction; clear l.
  - done.
  - intros a [Ha _]%Forall_cons. unfold is_byte in *. simpl. rewrite !b64_value_char by lia. done.
  - intros a b [Ha [Hb _]%Forall_cons]%Forall_cons. unfold is_byte in *. simpl.
    rewrite !b64_value_char by lia. done.
  - intros a b c l IH [Ha [Hb [Hc Hl]%Forall_cons]%Forall_cons]%Forall_cons. unfold is_byte in *.
    cbn [b64encode b64_split digits]. rewrite !b64_value_char by lia. rewrite (IH Hl).
    replace (length (a :: b :: c :: l) mod 3)%nat with (length l mod 3)%nat; [done|]. simpl length.
    replace (S (S (S (length l)))) with (length l + 1 * 3)%nat by lia. by rewrite Nat.Div0.mod_add.
Qed.

Lemma b64_bytes_digits l : Forall is_byte l -> b64_bytes (digits l) = l.
Proof.
  pattern l. apply three_induction; clear l.
  - done.
  - intros a [Ha _]%Forall_cons. unfold is_byte in *. simpl. f_equal. lia.
  - intros a b [Ha [Hb _]%Forall_cons]%Forall_cons. unfold is_byte in *. simpl. repeat f_equal; lia.
  - intros a b c l IH [Ha [Hb [Hc Hl]%Forall_cons]%Forall_cons]%Forall_cons. unfold is_byte in *.
    cbn [digits b64_bytes]. rewrite (IH Hl). repeat f_equal; lia.
Qed.

Lemma b64_roundtrip l : Forall is_byte l -> b64decode (b64encode l) = Some l.
Proof.
  intros Hl. unfold b64decode. rewrite b64_split_encode by done.
  assert (Hd : (length (digits l) mod 4)%nat = match (length l mod 3)%nat with O => O | 1%nat => 2%nat | _ => 3%nat end).
  { clear Hl. pattern l. apply three_induction; try done. intros a b c k IH. cbn [digits length].
    replace (S (S (S (length k)))) with (length k + 1 * 3)%nat by lia.
    replace (S (S (S (S (length (digits k)))))) with (length (digits k) + 1 * 4)%nat by lia.
    by rewrite !Nat.Div0.mod_add. }
  rewrite Hd, b64_bytes_digits by done. pose proof (Nat.mod_upper_bound (length l) 3 ltac:(done)) as Hm.
  destruct (length l mod 3)%nat as [|[|[|n]]]; [done..|lia].
Qed.

(** ** The envelope *)
Lemma digit_no_colon n : Ascii.ascii_of_N (48 + n mod 10) <> ":"%char.
Proof.
  assert (H : forallb (fun k => negb (bool_decide (Ascii.ascii_of_N (48 + N.of_nat k) = ":"%char))) (seq 0 10) = true)
    by (vm_compute; reflexivity).
  rewrite forallb_forall in H. specialize (H (N.to_nat (n mod 10)) ltac:(apply in_seq; lia)).
  rewrite N2Nat.id in H. apply negb_true_iff, bool_decide_eq_false in H. done.
Qed.

Lemma digits_of_nat_no_colon fuel n acc : ":"%char ∉ acc -> ":"%char ∉ digits_of_nat fuel n acc.
Proof.
  revert n acc. induction fuel as [|fuel IH]; intros n acc Hacc; cbn [digits_of_nat]; [done|].
  assert (":"%char ∉ Ascii.ascii_of_N (48 + n mod 10) :: acc).
  { apply not_elem_of_cons. split; [|done]. intros He. by apply (digit_no_colon n). }
  destruct (n <? 10); [done|by apply IH].
Qed.

Lemma head_no_colon version : (1 <= version)%Z -> ":"%char ∉ chars (head_of version).
Proof.
  intros Hv. unfold head_of. rewrite chars_app. apply not_elem_of_app. split; [set_solver|].
  destruct version as [|p|p]; [lia| |lia]. unfold str_of_Z, str_of_N. rewrite chars_of_chars.
  apply digits_of_nat_no_colon. set_solver.
Qed.

Lemma find_first_colon h p : ":"%char ∉ h -> find_chars [":"%char] (h ++ ":"%char :: p) = Some (length h).
Proof.
  induction h as [|c h IH]; intros Hn; [done|]. apply not_elem_of_cons in Hn as [Hc Hn].
  cbn [app find_chars prefix_chars]. rewrite bool_decide_false by done. cbn [andb]. by rewrite (IH Hn).
Qed.

Lemma partition_head h p : ":"%char ∉ chars h -> partition_colon (h +:+ ":" +:+ p) = (h, true, p).
Proof.
  intros Hn. unfold partition_colon, find. rewrite !chars_app. change (chars ":") with [":"%char].
  cbn [app]. rewrite find_first_colon by done. unfold str_take. rewrite !chars_app. change (chars ":") with [":"%char].
  cbn [app]. rewrite take_app_length, of_chars_chars. f_equal.
  replace (S (length (chars h))) with (length (chars h) + 1)%nat by lia. rewrite <- drop_drop, drop_app_length.
  apply of_chars_chars.
Qed.

(** The generation can be read back from the head. *)
Definition digit_step (acc : N) (c : ascii) : N := acc * 10 + (Ascii.N_of_ascii c - 48).

Lemma digits_value fuel n acc : n < 2 ^ N.of_nat fuel ->
  foldl digit_step 0 (digits_of_nat fuel n acc) = foldl digit_step n acc.
Proof.
  revert n acc. induction fuel as [|fuel IH]; intros n acc Hn; cbn [digits_of_nat].
  - change (2 ^ N.of_nat 0) with 1 in Hn. by replace n with 0 by lia.
  - assert (Hc : forall a, digit_step a (Ascii.ascii_of_N (48 + n mod 10)) = a * 10 + n mod 10).
    { intros a. unfold digit_step. rewrite Ascii.N_ascii_embedding by lia. lia. }
    destruct (N.ltb_spec n 10) as [Hs|Hs].
    + cbn [foldl]. rewrite Hc. f_equal. lia.
    + rewrite IH by (rewrite Nat2N.inj_succ, N.pow_succ_r' in Hn; lia). cbn [foldl]. rewrite Hc. f_equal. lia.
Qed.

Lemma str_of_N_inj a b : str_of_N a = str_of_N b -> a = b.
Proof.
  intros He. apply (f_equal chars) in He. unfold str_of_N in He. rewrite !chars_of_chars in He.
  assert (Hf : forall n, n < 2 ^ N.of_nat (S (N.to_nat (N.log2 n)))).
  { intros n. rewrite Nat2N.inj_succ, N2Nat.id. destruct (N.eq_dec n 0) as [->|]; [done|]. apply N.log2_spec. lia. }
  apply (f_equal (foldl digit_step 0)) in He. by rewrite !digits_value in He by apply Hf.
Qed.

Lemma head_of_inj v v' : (1 <= v)%Z -> (1 <= v')%Z -> head_of v = head_of v' -> v = v'.
Proof.
  intros H H' He. injection He as He. destruct v as [|p|p], v' as [|p'|p']; try lia.
  unfold str_of_Z in He. apply str_of_N_inj in He. lia.
Qed.

(** What the AES-GCM primitive promises. *)
Class Aead (aead_encrypt : list N -> list N -> list N) (aead_decrypt : list N -> list N -> option (list N)) : Prop := {
  aead_bytes : forall nonce p, Forall is_byte (aead_encrypt nonce p);
  aead_tag : forall nonce p, (TAG_SIZE_BYTES <= length (aead_encrypt nonce p))%nat;
  aead_open : forall nonce p, aead_decrypt nonce (aead_encrypt nonce p) = Some p }.

Section sealed.
Context aead_encrypt aead_decrypt `{Aead aead_encrypt aead_decrypt}.
Notation encrypt := (encrypt aead_encrypt).
Notation decrypt := (decrypt aead_decrypt).

Lemma decrypt_envelope nonce plaintext version version' :
  (1 <= version)%Z -> Forall is_byte nonce -> length nonce = NONCE_SIZE_BYTES ->
  decrypt (head_of version +:+ ":" +:+ of_chars (b64encode (nonce ++ aead_encrypt nonce plaintext))) version' =
    if (version' <? 1)%Z then Err BadVersion
    else if (version' =? version)%Z then Ok plaintext else Err BadEnvelope.
Proof.
  intros Hv Hb Hn. unfold decrypt. destruct (Z.ltb_spec version' 1) as [|Hv']; [done|].
  rewrite partition_head by (by apply head_no_colon). cbn [negb orb]. destruct (Z.eqb_spec version' version) as [->|Hne].
  2: { rewrite bool_decide_false; [done|]. intros Heq. by apply head_of_inj in Heq. }
  rewrite bool_decide_true by done. cbn [negb].
  rewrite chars_of_chars, b64_roundtrip by (apply Forall_app; split; [done|apply aead_bytes]).
  rewrite length_app, Hn. destruct (Nat.ltb_spec (NONCE_SIZE_BYTES + length (aead_encrypt nonce plaintext))
    (NONCE_SIZE_BYTES + TAG_SIZE_BYTES)) as [Hl|Hl]; [pose proof (aead_tag nonce plaintext); lia|].
  by rewrite <- Hn, take_app_length, drop_app_length, aead_open.
Qed.

(** Sealing and opening are inverse under one key generation; a row sealed under
    one generation is refused under every other; and generations below one are
    refused by both. *)
Theorem vault_roundtrip nonce plaintext version :
  Forall is_byte nonce -> length nonce = NONCE_SIZE_BYTES ->
  ((version < 1)%Z /\ encrypt nonce plaintext version = Err BadVersion) \/
  exists envelope, encrypt nonce plaintext version = Ok envelope /\ decrypt envelope version = Ok plaintext /\
    forall version', decrypt envelope version' =
      if (version' <? 1)%Z then Err BadVersion
      else if (version' =? version)%Z then Ok plaintext else Err BadEnvelope.
Proof.
  intros Hb Hn. unfold encrypt. destruct (Z.ltb_spec version 1) as [Hv|Hv]; [by left|right].
  eexists. split; [done|]. split; [|intros; by apply decrypt_envelope].
  rewrite decrypt_envelope, Z.eqb_refl by done. destruct (Z.ltb_spec version 1); [lia|done].
Qed.
End sealed.

(** ** From a connected secret to the header of a call *)
Section store.
Context aead_encrypt aead_decrypt `{Aead aead_encrypt aead_decrypt}.
Context (json_dumps : val -> list N) (json_loads : list N -> option val) (tenant_id : string).

(** What [connect_credential] stores for a material. *)
Definition sealed (nonce : string) (material : val) (version : Z) : string :=
  match encrypt aead_encrypt (map Ascii.N_of_ascii (chars nonce)) (json_dumps material) version with
  | Ok envelope => envelope
  | Err _ => ""
  end.

(** [VaultCredentialStore.fetch_credential] *)
Definition fetch_credential (auth_ref : string) (s : vault) : result db_error (option (dict string val)) :=
  if negb (startswith auth_ref "cred:") then Ok None
  else let id := of_chars (drop 5 (chars auth_ref)) in
       if negb (str_true id) then Ok None
       else match Scoped.get (inner := InMemory.repository) (view tenant_id) id (credentials s) with
            | Err e => Err e
            | Ok None => Ok None
            | Ok (Some row) =>
                match decrypt aead_decrypt (encrypted_data row) (key_version row) with
                | Err _ => Ok None
                | Ok plaintext =>
                    match json_loads plaintext with
                    | Some (VDict material) =>
                        Ok (Some (dupdate [("credential_type", VStr (credential_type row));
                                           ("auth_config", VDict (auth_config row))] material))
                    | _ => Ok None
                    end
                end
            end.

Lemma nonce_bytes nonce : Forall is_byte (map Ascii.N_of_ascii (chars nonce)).
Proof. apply Forall_fmap, Forall_forall. intros c _. apply Ascii.N_ascii_bounded. Qed.

(** What a successful connect leaves in the store. *)
Lemma connect_stored encrypt now uuid nonce n ct b scope secret parsed cfg ex s s' saved replaced :
  one_per_owner tenant_id s -> uuid <> "" ->
  connect_credential encrypt tenant_id now uuid nonce n ct b scope secret parsed cfg ex s = (s', Ok (saved, replaced)) ->
  exists id m, m_id saved = Some id /\ str_true id = true /\
    Scoped.get (inner := InMemory.repository) (view tenant_id) id (credentials s') = Ok (Some saved) /\
    seal_material ct secret parsed s = (s, Ok m) /\ credential_type saved = ct /\ auth_config saved = cfg /\
    encrypted_data saved = encrypt nonce m 1%Z /\ key_version saved = 1%Z.
Proof.
  intros Hone Hu Hc. unfold connect_credential in Hc.
  do 14 step_ok Hc. unfold new_credential in Ha12. destruct (_ && _ && _); [|done]. injection Ha12 as <-.
  set (row := mkCredential _ _ _ _ _ _ _ _ _ _ _) in Hc.
  unfold store_credential in Hc. unfold se_bind at 1 in Hc.
  set (put := match a11 with Some r => _ | None => _ end) in Hc.
  assert (Hid : uuid <> "" \/ opt_truthy (m_id put) = true) by by left.
  assert (Hput : exists i, put = upd_base (set_id i) row).
  { subst put. destruct a11 as [r|]; [destruct (m_id r) as [i|]; [by exists (Some i)|]|]; by exists None. }
  destruct Hput as (i & ->).
  destruct (save_run tenant_id uuid (upd_base (set_id i) row) s (one_consistent _ _ Hone) Hid eq_refl)
    as (s1 & c & Hr & Hs1 & _ & Hcv & Hm).
  rewrite Hr in Hc. unfold se_bind, audit_event, se_modify, se_ret in Hc. injection Hc as <- <- _.
  assert (Hin : c ∈ rows tenant_id (credentials s1)) by (apply Hm; by left).
  assert (Hmid : exists id, m_id c = Some id /\ str_true id = true).
  { rewrite Hcv, m_id_upd. cbn [bf_id set_id]. rewrite m_id_upd. cbn [bf_id set_id].
    destruct (opt_truthy i) eqn:Hi; [destruct i as [k|]; [by exists k|done]|]. exists uuid. split; [done|].
    destruct (str_true uuid) eqn:Eu; [done|by apply str_true_false in Eu]. }
  destruct Hmid as (id & Hmid & Ht). exists id, a10. split; [done|]. split; [done|]. split; [by apply get_own|].
  split; [done|]. by rewrite Hcv.
Qed.

(** The material of a secret has one field, apart from the two the row adds. *)
Lemma sealed_shape ct secret parsed s m : seal_material ct secret parsed s = (s, Ok (VDict m)) ->
  m = [] \/ exists k v, m = [(k, v)] /\ k ∈ ["api_key"; "token"; "password"; "headers"].
Proof.
  unfold seal_material, se_ret, se_raise. intros Hm. repeat case_decide; try (injection Hm as <-; right; eexists _, _; split; [done|set_solver]).
  - destruct (if str_true (strip secret) then parsed else Some (VDict [])) as [[| | | | | |d]|]; try done.
    destruct (forallb _ d); [|done]. injection Hm as <-. right. eexists _, _. split; [done|set_solver].
  - injection Hm as <-. by left.
Qed.

Lemma sealed_renders ct secret parsed cfg s m : seal_material ct secret parsed s = (s, Ok (VDict m)) ->
  render_credential (dupdate [("credential_type", VStr ct); ("auth_config", VDict cfg)] m) = auth_params_for (Some ct) cfg m.
Proof.
  intros [->|(k & v & -> & Hk)]%sealed_shape; [done|].
  repeat (apply elem_of_cons in Hk as [->|Hk]; [reflexivity|]). by apply elem_of_nil in Hk.
Qed.

(** C14: The chain from connecting to calling, for a secret of any type: the pointer
    [cred:<id>] of the stored row opens to an envelope from which the resolver
    renders the credential exactly as it would from the secret itself; a bearer
    secret becomes the header [authorization: Bearer <secret>]. It needs of JSON
    only that reading gives back this material. *)
Theorem connected_secret_reaches_header now uuid nonce n ct b scope secret parsed cfg ex s s' saved replaced m :
  one_per_owner tenant_id s -> uuid <> "" -> length (chars nonce) = NONCE_SIZE_BYTES ->
  connect_credential sealed tenant_id now uuid nonce n ct b scope secret parsed cfg ex s = (s', Ok (saved, replaced)) ->
  seal_material ct secret parsed s = (s, Ok (VDict m)) -> json_loads (json_dumps (VDict m)) = Some (VDict m) ->
  exists id cred, m_id saved = Some id /\ fetch_credential ("cred:" +:+ id) s' = Ok (Some cred) /\
    render_credential cred = auth_params_for (Some ct) cfg m /\
    (ct = "bearer" -> secret <> "" -> render_credential cred = Some (bearer secret)).
Proof.
  intros Hone Hu Hn Hc Hm Hj.
  destruct (connect_stored _ _ _ _ _ _ _ _ _ _ _ _ _ _ _ _ Hone Hu Hc)
    as (id & m' & Hid & Ht & Hg & Hm' & Hct & Hcfg & He & Hk).
  rewrite Hm in Hm'. injection Hm' as <-.
  exists id, (dupdate [("credential_type", VStr ct); ("auth_config", VDict cfg)] m). split; [done|].
  assert (Hr : render_credential (dupdate [("credential_type", VStr ct); ("auth_config", VDict cfg)] m) =
               auth_params_for (Some ct) cfg m) by (eapply sealed_renders, Hm).
  split; [|split; [done|]].
  - unfold fetch_credential. assert (startswith ("cred:" +:+ id) "cred:" = true) as -> by by apply startswith_spec; exists (chars id).
    cbn [negb]. change (of_chars (drop 5 (chars ("cred:" +:+ id)))) with (of_chars (chars id)). rewrite of_chars_chars, Ht.
    cbn [negb]. rewrite Hg, He, Hk. unfold sealed, encrypt. cbn [Z.ltb Z.compare Pos.compare Pos.compare_cont].
    rewrite decrypt_envelope by (done || apply nonce_bytes || by rewrite length_map).
    cbn. by rewrite Hj, Hct, Hcfg.
  - intros -> Hne. rewrite Hr. unfold seal_material in Hm. vm_compute in Hm. injection Hm as <-.
    unfold auth_params_for. rewrite decide_False, decide_True by auto. unfold str_field.
    cbn [dget]. rewrite decide_True by done. destruct (str_true secret) eqn:Es; [done|by apply str_true_false in Es].
Qed.
End store.

(** ** A toy cipher and a connected key *)
Module Example.
Import Integrations.Example.

Definition toy_seal (nonce p : list N) : list N := repeat 7 16 ++ concat (map (fun b => repeat 1 (N.to_nat b) ++ [0]) p).

Fixpoint toy_read (run : N) (l : list N) : list N :=
  match l with
  | [] => []
  | b :: l' => if b =? 0 then run :: toy_read 0 l' else toy_read (run + 1) l'
  end.
Definition toy_open (nonce c : list N) : option (list N) := Some (toy_read 0 (drop 16 c)).

Lemma toy_read_ones k run l : toy_read run (repeat 1 k ++ 0 :: l) = (run + N.of_nat k) :: toy_read 0 l.
Proof.
  revert run. induction k as [|k IH]; intros run; cbn [repeat app toy_read N.eqb].
  - by rewrite N.add_0_r.
  - rewrite IH. f_equal. lia.
Qed.

#[local] Instance toy_aead : Aead toy_seal toy_open.
Proof.
  split.
  - intros nonce p. apply Forall_app. split; [apply Forall_forall; intros x Hx; by apply list_elem_of_In, repeat_spec in Hx as ->|].
    induction p as [|b p IH]; [constructor|]. simpl. rewrite <- app_assoc. apply Forall_app. split; [|by constructor].
    apply Forall_forall. intros x Hx. by apply list_elem_of_In, repeat_spec in Hx as ->.
  - intros nonce p. unfold toy_seal. rewrite length_app. unfold TAG_SIZE_BYTES. simpl. lia.
  - intros nonce p. unfold toy_open, toy_seal. f_equal. change 16%nat with (length (repeat 7 16)). rewrite drop_app_length.
    induction p as [|b p IH]; [done|]. cbn [map concat]. rewrite <- app_assoc. cbn [app].
    rewrite toy_read_ones, IH. f_equal. lia.
Qed.

Lemma vault_roundtrip_witness : exists envelope,
  encrypt toy_seal (repeat 1 12) [5; 0] 3 = Ok envelope /\ decrypt toy_open envelope 3 = Ok [5; 0] /\
  decrypt toy_open envelope 4 = Err BadEnvelope.
Proof.
  destruct (vault_roundtrip toy_seal toy_open (repeat 1 12) [5; 0] 3) as [[H _]|(e & H1 & H2 & H3)].
  - apply Forall_forall. intros x Hx. by apply list_elem_of_In, repeat_spec in Hx as ->.
  - reflexivity.
  - discriminate H.
  - exists e. split; [exact H1|]. split; [exact H2|]. rewrite (H3 4%Z). reflexivity.
Defined.

Definition dumps (v : val) : list N :=
  match v with VDict [(_, VStr s)] => map Ascii.N_of_ascii (chars s) | _ => [] end.
Definition loads (l : list N) : option val := Some (VDict [("token", VStr (of_chars (map Ascii.ascii_of_N l)))]).
Definition connect : op (PartnerCredential * bool) :=
  connect_credential (sealed toy_seal dumps) "acme" 1 "c-1" "nonce-123456" "github" "bearer" (Some BINDING_ORG_SHARED)
    ann "t1" None [] None.

Lemma connected_secret_reaches_header_witness : exists saved replaced id cred,
  (connect start).2 = Ok (saved, replaced) /\ m_id saved = Some id /\
  fetch_credential toy_open loads "acme" ("cred:" +:+ id) (connect start).1 = Ok (Some cred) /\
  render_credential cred = Some (bearer "t1").
Proof.
  destruct (connect start) as [s' o] eqn:Hc.
  assert (Ho : match (connect start).2 with Ok _ => True | Err _ => False end) by (vm_compute; exact I).
  rewrite Hc in Ho. destruct o as [[saved replaced]|]; [|destruct Ho].
  destruct (connected_secret_reaches_header toy_seal toy_open dumps loads "acme" 1 "c-1" "nonce-123456" "github" "bearer"
    (Some BINDING_ORG_SHARED) ann "t1" None [] None start s' saved replaced [("token", VStr "t1")]
    (empty_one "acme") ltac:(discriminate) eq_refl Hc eq_refl eq_refl) as (id & cred & H1 & H2 & _ & H4).
  exists saved, replaced, id, cred. split; [reflexivity|]. split; [exact H1|]. split; [exact H2|].
  apply H4; [reflexivity|discriminate].
Defined.
End Example.
End Vault.
