(* ===== verification/Json.v ===== *)
(** * JSON texts (the [json] module of the standard library)

    [loads] is [json.loads] of a [str]; [dumps] is [json.dumps] with its default
    separators and [ensure_ascii]. The texts are those of the string model: an
    escape past U+00FF is refused. Limits of the interpreter (recursion depth,
    digits of an [int]) are left out. The [repr] of a float is an argument. *)
From S2P Require Import Prelude PyText PyVal.
From Stdlib Require Import QArith.QArith.
Close Scope Q_scope.
Open Scope nat_scope.

Module Json.

Notation code := Stdlib.Strings.Ascii.nat_of_ascii.
Notation char := Stdlib.Strings.Ascii.ascii_of_nat.

(** ** Reading *)
Definition is_ws (c : ascii) : bool := bool_decide (code c ∈ [32; 9; 10; 13]).

Fixpoint skip_ws (l : text) : text :=
  match l with
  | c :: l' => if is_ws c then skip_ws l' else l
  | [] => []
  end.

Definition hex_digit (c : ascii) : option nat :=
  let n := code c in
  if (48 <=? n) && (n <=? 57) then Some (n - 48)
  else if (97 <=? n) && (n <=? 102) then Some (n - 87)
  else if (65 <=? n) && (n <=? 70) then Some (n - 55)
  else None.

Definition hex4 (a b c d : ascii) : option nat :=
  match hex_digit a, hex_digit b, hex_digit c, hex_digit d with
  | Some a, Some b, Some c, Some d => Some (((a * 16 + b) * 16 + c) * 16 + d)
  | _, _, _, _ => None
  end.

(** The character of a one-letter escape. *)
Definition unescape (c : ascii) : option ascii :=
  match code c with
  | 34 => Some (char 34) | 92 => Some (char 92) | 47 => Some (char 47) | 98 => Some (char 8)
  | 102 => Some (char 12) | 110 => Some (char 10) | 114 => Some (char 13) | 116 => Some (char 9)
  | _ => None
  end.

Definition push (c : ascii) (o : option (text * text)) : option (text * text) :=
  match o with Some (s, rest) => Some (c :: s, rest) | None => None end.

(** The body of a string literal, after its opening quote. *)
Fixpoint string_body (l : text) : option (text * text) :=
  match l with
  | [] => None
  | c :: l1 =>
      if code c =? 34 then Some ([], l1)
      else if code c =? 92 then
        match l1 with
        | [] => None
        | e :: l2 =>
            if code e =? 117 then
              match l2 with
              | a :: b :: d :: f :: l3 =>
                  match hex4 a b d f with
                  | Some n => if n <? 256 then push (char n) (string_body l3) else None
                  | None => None
                  end
              | _ => None
              end
            else match unescape e with
                 | Some x => push x (string_body l2)
                 | None => None
                 end
        end
      else if code c <? 32 then None
      else push c (string_body l1)
  end.

Fixpoint span_digits (l : text) : list Z * text :=
  match l with
  | c :: l' => match digit_of c with
               | Some d => let '(ds, rest) := span_digits l' in (d :: ds, rest)
               | None => ([], l)
               end
  | [] => ([], [])
  end.

Definition decimal (ds : list Z) : Z := foldl (fun acc d => acc * 10 + d)%Z 0%Z ds.

(** The integer part: [0] or digits that do not start with it. *)
Definition int_part (l : text) : option (list Z * text) :=
  match span_digits l with
  | ([], _) => None
  | (0%Z :: _, _) => Some ([0%Z], tl l)
  | p => Some p
  end.

Definition fraction (l : text) : list Z * text :=
  match l with
  | c :: l' => if code c =? 46 then match span_digits l' with ([], _) => ([], l) | p => p end else ([], l)
  | [] => ([], [])
  end.

Definition exponent (l : text) : option Z * text :=
  match l with
  | c :: l' =>
      if (code c =? 101) || (code c =? 69) then
        let '(sg, l2) := sign_split l' in
        match span_digits l2 with
        | ([], _) => (None, l)
        | (ds, rest) => (Some (if sg then - decimal ds else decimal ds)%Z, rest)
        end
      else (None, l)
  | [] => (None, [])
  end.

Definition number (l : text) : option (val * text) :=
  let '(sg, l1) := match l with
                   | c :: l' => if code c =? 45 then (true, l') else (false, l)
                   | [] => (false, l)
                   end in
  match int_part l1 with
  | None => None
  | Some (ds, l2) =>
      let '(fs, l3) := fraction l2 in
      let '(e, l4) := exponent l3 in
      match fs, e with
      | [], None => Some (VInt (if sg then - decimal ds else decimal ds), l4)
      | _, _ =>
          let f := round64 (inject_Z (decimal (ds ++ fs)) * pow10 (default 0%Z e - Z.of_nat (length fs))) in
          Some (VFloat (if sg then neg_float f else f), l4)
      end
  end.

Definition constants : list (string * val) :=
  [("null", VNone); ("true", VBool true); ("false", VBool false);
   ("NaN", VFloat NaN); ("Infinity", VFloat (Inf false)); ("-Infinity", VFloat (Inf true))].

(** The constant a text starts with. *)
Fixpoint constant (cs : list (string * val)) (l : text) : option (val * text) :=
  match cs with
  | [] => None
  | (w, v) :: cs' => if prefix_chars (chars w) l then Some (v, drop (str_len w) l) else constant cs' l
  end.

Definition scalar (l : text) : option (val * text) :=
  match constant constants l with Some r => Some r | None => number l end.

(** A value at the head of the text. *)
Fixpoint value (fuel : nat) (l : text) : option (val * text) :=
  match fuel with
  | O => None
  | S f =>
      match l with
      | [] => None
      | c :: l1 =>
          if code c =? 34 then
            match string_body l1 with Some (s, rest) => Some (VStr (of_chars s), rest) | None => None end
          else if code c =? 123 then
            match skip_ws l1 with
            | d :: l2 => if code d =? 125 then Some (VDict [], l2) else members f (d :: l2) []
            | [] => None
            end
          else if code c =? 91 then
            match skip_ws l1 with
            | d :: l2 => if code d =? 93 then Some (VList [], l2) else elements f (d :: l2) []
            | [] => None
            end
          else scalar l
      end
  end
with elements (fuel : nat) (l : text) (acc : list val) : option (val * text) :=
  match fuel with
  | O => None
  | S f =>
      match value f l with
      | None => None
      | Some (v, l1) =>
          match skip_ws l1 with
          | c :: l2 =>
              if code c =? 93 then Some (VList (acc ++ [v]), l2)
              else if code c =? 44 then elements f (skip_ws l2) (acc ++ [v])
              else None
          | [] => None
          end
      end
  end
with members (fuel : nat) (l : text) (acc : dict string val) : option (val * text) :=
  match fuel with
  | O => None
  | S f =>
      match l with
      | q :: l0 =>
          if code q =? 34 then
            match string_body l0 with
            | None => None
            | Some (k, l1) =>
                match skip_ws l1 with
                | c :: l2 =>
                    if code c =? 58 then
                      match value f (skip_ws l2) with
                      | None => None
                      | Some (v, l3) =>
                          match skip_ws l3 with
                          | d :: l4 =>
                              if code d =? 125 then Some (VDict (dset (of_chars k) v acc), l4)
                              else if code d =? 44 then members f (skip_ws l4) (dset (of_chars k) v acc)
                              else None
                          | [] => None
                          end
                      end
                    else None
                | [] => None
                end
            end
          else None
      | [] => None
      end
  end.

(** [None] where [json.loads] raises. *)
Definition loads (s : string) : option val :=
  let l := chars s in
  match value (2 * length l + 1) (skip_ws l) with
  | Some (v, rest) => match skip_ws rest with [] => Some v | _ => None end
  | None => None
  end.

(** ** Writing *)
Definition hex_char (n : nat) : ascii := char (if n <? 10 then n + 48 else n + 87).

Definition escape (c : ascii) : text :=
  match code c with
  | 34 => [char 92; char 34] | 92 => [char 92; char 92] | 10 => [char 92; char 110] | 13 => [char 92; char 114]
  | 9 => [char 92; char 116] | 12 => [char 92; char 102] | 8 => [char 92; char 98]
  | n => if (32 <=? n) && (n <=? 126) then [c]
         else [char 92; char 117; char 48; char 48; hex_char (n / 16); hex_char (n mod 16)]
  end.

Definition dump_string (s : string) : text := char 34 :: concat (map escape (chars s)) ++ [char 34].

Section dumps.
Context (float_repr : Q -> string).

Definition dump_float (f : pyfloat) : text :=
  chars match f with Fin q => float_repr q | Inf false => "Infinity" | Inf true => "-Infinity" | NaN => "NaN" end.

Fixpoint sep_by (sep : text) (l : list text) : text :=
  match l with
  | [] => []
  | [x] => x
  | x :: l' => x ++ sep ++ sep_by sep l'
  end.

Fixpoint dump (v : val) : text :=
  match v with
  | VNone => chars "null"
  | VBool b => chars (if b then "true" else "false")
  | VInt z => chars (str_of_Z z)
  | VFloat f => dump_float f
  | VStr s => dump_string s
  | VList l => char 91 :: sep_by (chars ", ") (map dump l) ++ [char 93]
  | VDict d =>
      char 123 :: sep_by (chars ", ") (map (fun kv => dump_string kv.1 ++ chars ": " ++ dump kv.2) d) ++ [char 125]
  end.

Definition dumps (v : val) : string := of_chars (dump v).
End dumps.

(** ** What is read is shorter than what is left *)
Lemma skip_ws_length l : length (skip_ws l) <= length l.
Proof. induction l as [|c l IH]; simpl; [lia|]. destruct (is_ws c); simpl; lia. Qed.

Lemma push_Some c o s rest : push c o = Some (s, rest) -> exists s', o = Some (s', rest) /\ s = c :: s'.
Proof. destruct o as [[s' r]|]; simpl; [|done]. intros [= <- <-]. eauto. Qed.

Lemma string_body_length l s rest : string_body l = Some (s, rest) -> length rest < length l.
Proof.
  revert s rest. induction l as [l IH] using (induction_ltof1 _ (@length ascii)); unfold ltof in IH.
  intros s rest. destruct l as [|c l1]; [done|]. cbn [string_body].
  repeat case_match; intros Hb; try done;
    (apply push_Some in Hb as (s' & Hb & _); apply IH in Hb; simpl in *; lia) || (simplify_eq; simpl; lia).
Qed.

Lemma span_digits_length l : length (span_digits l).2 + length (span_digits l).1 = length l.
Proof.
  induction l as [|c l IH]; simpl; [done|]. destruct (digit_of c); [|simpl; lia].
  destruct (span_digits l); simpl in *; lia.
Qed.

Lemma int_part_length l ds rest : int_part l = Some (ds, rest) -> length rest < length l.
Proof.
  unfold int_part. pose proof (span_digits_length l). destruct (span_digits l) as [[|d ds'] r]; simpl in *; [done|].
  destruct d; intros; simplify_eq; try lia. destruct l; simpl in *; lia.
Qed.

Lemma fraction_length l : length (fraction l).2 <= length l.
Proof.
  destruct l as [|c l]; simpl; [done|]. destruct (code c =? 46); [|simpl; lia].
  pose proof (span_digits_length l). destruct (span_digits l) as [[|d ds'] r]; simpl in *; lia.
Qed.

Lemma exponent_length l : length (exponent l).2 <= length l.
Proof.
  destruct l as [|c l]; simpl; [done|]. destruct (_ || _); [|simpl; lia].
  assert (length (sign_split l).2 <= length l) by (destruct l; simpl; repeat case_bool_decide; simpl; lia).
  destruct (sign_split l) as [sg l2]. pose proof (span_digits_length l2).
  destruct (span_digits l2) as [[|d ds'] r]; simpl in *; lia.
Qed.

Lemma number_length l v rest : number l = Some (v, rest) -> length rest < length l.
Proof.
  unfold number. intros H.
  set (p := match l with c :: l' => if code c =? 45 then (true, l') else (false, l) | [] => (false, l) end) in H.
  assert (Hp : length p.2 <= length l) by (unfold p; destruct l as [|c l]; [done|]; destruct (_ =? _); simpl; lia).
  destruct p as [sg l1]. destruct (int_part l1) as [[ds l2]|] eqn:Hi; [|done]. apply int_part_length in Hi.
  pose proof (fraction_length l2). destruct (fraction l2) as [fs l3].
  pose proof (exponent_length l3). destruct (exponent l3) as [e l4]. simpl in *.
  destruct fs, e; simplify_eq; lia.
Qed.

Lemma constant_length cs l v rest : Forall (fun c => str_true c.1 = true) cs ->
  constant cs l = Some (v, rest) -> length rest < length l.
Proof.
  induction 1 as [|[w x] cs Hw _ IH]; simpl; [done|]. destruct (prefix_chars (chars w) l) eqn:E; [|done].
  intros [= -> <-]. apply prefix_chars_spec in E as [k ->]. rewrite length_drop, length_app. unfold str_len.
  destruct w as [|a w]; [done|]. simpl. lia.
Qed.

Lemma scalar_length l v rest : scalar l = Some (v, rest) -> length rest < length l.
Proof.
  unfold scalar. destruct (constant constants l) as [r|] eqn:E; [|apply number_length].
  intros [= ->]. eapply constant_length; [|done]. by repeat constructor.
Qed.

Lemma value_length fuel :
  (forall l v rest, value fuel l = Some (v, rest) -> length rest < length l) /\
  (forall l acc v rest, elements fuel l acc = Some (v, rest) -> length rest < length l) /\
  (forall l acc v rest, members fuel l acc = Some (v, rest) -> length rest < length l).
Proof.
  induction fuel as [|f (IHv & IHe & IHm)]; [done|]. split; [|split].
  - intros l v rest H. destruct l as [|c l1]; [done|]. cbn [value] in H. pose proof (skip_ws_length l1).
    destruct (code c =? 34).
    { destruct (string_body l1) as [[s r]|] eqn:E; [|done]. apply string_body_length in E. simplify_eq. simpl. lia. }
    destruct (code c =? 123).
    { destruct (skip_ws l1) as [|d l2]; [done|]. destruct (code d =? 125); [simplify_eq; simpl in *; lia|].
      apply IHm in H. simpl in *. lia. }
    destruct (code c =? 91); [|by apply scalar_length in H].
    destruct (skip_ws l1) as [|d l2]; [done|]. destruct (code d =? 93); [simplify_eq; simpl in *; lia|].
    apply IHe in H. simpl in *. lia.
  - intros l acc v rest H. cbn [elements] in H. destruct (value f l) as [[x l1]|] eqn:E; [|done].
    apply IHv in E. pose proof (skip_ws_length l1). destruct (skip_ws l1) as [|c l2]; [done|].
    destruct (code c =? 93); [simplify_eq; simpl in *; lia|]. destruct (code c =? 44); [|done].
    apply IHe in H. pose proof (skip_ws_length l2). simpl in *. lia.
  - intros l acc v rest H. cbn [members] in H. destruct l as [|q l0]; [done|]. destruct (code q =? 34); [|done].
    destruct (string_body l0) as [[k l1]|] eqn:Eb; [|done]. apply string_body_length in Eb.
    pose proof (skip_ws_length l1). destruct (skip_ws l1) as [|c l2]; [done|]. destruct (code c =? 58); [|done].
    pose proof (skip_ws_length l2). destruct (value f (skip_ws l2)) as [[x l3]|] eqn:E; [|done]. apply IHv in E.
    pose proof (skip_ws_length l3). destruct (skip_ws l3) as [|d l4]; [done|].
    destruct (code d =? 125); [simplify_eq; simpl in *; lia|]. destruct (code d =? 44); [|done].
    apply IHm in H. pose proof (skip_ws_length l4). simpl in *. lia.
Qed.

(** Two units of fuel per character are enough: more change nothing. *)
Lemma fuel_enough n :
  (forall l f g, length l <= n -> 2 * length l + 1 <= f -> 2 * length l + 1 <= g -> value f l = value g l) /\
  (forall l acc f g, length l <= n -> 2 * length l + 2 <= f -> 2 * length l + 2 <= g -> elements f l acc = elements g l acc) /\
  (forall l acc f g, length l <= n -> 2 * length l + 2 <= f -> 2 * length l + 2 <= g -> members f l acc = members g l acc).
Proof.
  induction n as [n IH] using lt_wf_ind.
  assert (Hv : forall l f g, length l <= n -> 2 * length l + 1 <= f -> 2 * length l + 1 <= g -> value f l = value g l).
  { intros l f g Hn Hf Hg. destruct f as [|f]; [lia|]. destruct g as [|g]; [lia|]. destruct l as [|c l1]; [done|].
    cbn [value]. pose proof (skip_ws_length l1). simpl in *. destruct (IH (length l1) ltac:(lia)) as (IHv & IHe & IHm).
    repeat case_match; try done; [apply IHm|apply IHe]; simplify_eq; simpl in *; lia. }
  split; [done|]. split.
  - intros l acc f g Hn Hf Hg. destruct f as [|f]; [lia|]. destruct g as [|g]; [lia|]. cbn [elements].
    rewrite (Hv l f g) by lia. destruct (value g l) as [[x l1]|] eqn:E; [|done]. apply value_length in E.
    pose proof (skip_ws_length l1). destruct (skip_ws l1) as [|c l2]; [done|]. pose proof (skip_ws_length l2).
    destruct (IH (length l2) ltac:(simpl in *; lia)) as (_ & IHe & _).
    repeat case_match; try done. apply IHe; simpl in *; lia.
  - intros l acc f g Hn Hf Hg. destruct f as [|f]; [lia|]. destruct g as [|g]; [lia|]. cbn [members].
    destruct l as [|q l0]; [done|]. destruct (code q =? 34); [|done].
    destruct (string_body l0) as [[k l1]|] eqn:Eb; [|done]. apply string_body_length in Eb.
    pose proof (skip_ws_length l1). destruct (skip_ws l1) as [|c l2]; [done|]. destruct (code c =? 58); [|done].
    pose proof (skip_ws_length l2). rewrite (Hv (skip_ws l2) f g) by (simpl in *; lia).
    destruct (value g (skip_ws l2)) as [[x l3]|] eqn:E; [|done]. apply value_length in E.
    pose proof (skip_ws_length l3). destruct (skip_ws l3) as [|d l4]; [done|]. pose proof (skip_ws_length l4).
    destruct (IH (length l4) ltac:(simpl in *; lia)) as (_ & _ & IHm).
    repeat case_match; try done. apply IHm; simpl in *; lia.
Qed.

(** An object that was read holds each key once. *)
Lemma scalar_no_object l d rest : scalar l <> Some (VDict d, rest).
Proof.
  unfold scalar. intros H.
  assert (Hc : forall cs, Forall (fun c => match c.2 with VDict _ => False | _ => True end) cs -> constant cs l <> Some (VDict d, rest)).
  { induction cs as [|c cs IHc]; [done|]. intros [Hh Ht]%Forall_cons. cbn [constant]. repeat case_match; try (by apply IHc); intros ?; by simplify_eq/=. }
  destruct (constant constants l) as [r|] eqn:E; [simplify_eq; eapply Hc; [|exact E]; repeat constructor|].
  unfold number in H. repeat case_match; simplify_eq.
Qed.

Lemma members_keys fuel : forall l acc v rest, dwf acc -> members fuel l acc = Some (v, rest) -> exists d, v = VDict d /\ dwf d.
Proof.
  induction fuel as [|f IH]; [done|]. intros l acc v rest Ha H. cbn [members] in H. repeat case_match; simplify_eq.
  - eexists. split; [done|]. by apply dset_wf.
  - eapply IH; [|exact H]. by apply dset_wf.
Qed.

Lemma value_keys fuel l d rest : value fuel l = Some (VDict d, rest) -> dwf d.
Proof.
  destruct fuel as [|f]; [done|]. destruct l as [|c l1]; [done|]. cbn [value].
  destruct (code c =? 34); [by case_match; [case_match|]|]. destruct (code c =? 123).
  - destruct (skip_ws l1) as [|x l2]; [done|]. destruct (code x =? 125); [intros [= <- _]; constructor|].
    intros H. apply members_keys in H as (d' & [= <-] & ?); [done|constructor].
  - destruct (code c =? 91); [|by intros H%scalar_no_object].
    destruct (skip_ws l1) as [|x l2]; [done|]. destruct (code x =? 93); [done|].
    assert (He : forall n l acc v r, elements n l acc = Some (v, r) -> exists vs, v = VList vs).
    { induction n as [|n IHn]; [done|]. intros l acc v r H. cbn [elements] in H. repeat case_match; simplify_eq; [by eexists|by eapply IHn]. }
    intros H. by apply He in H as [? ?].
Qed.

Lemma loads_keys s d : loads s = Some (VDict d) -> dwf d.
Proof.
  unfold loads. destruct (value _ _) as [[v rest]|] eqn:E; [|done]. case_match; [|done]. intros [= ->]. by apply value_keys in E.
Qed.

(** ** What is written reads back *)
Section nested.
Variable P : val -> Prop.
Hypotheses (HN : P VNone) (HB : forall b, P (VBool b)) (HI : forall z, P (VInt z)) (HF : forall f, P (VFloat f))
  (HS : forall s, P (VStr s)) (HL : forall l, Forall P l -> P (VList l))
  (HD : forall d, Forall (fun kv => P kv.2) d -> P (VDict d)).

Fixpoint val_nested_ind (v : val) : P v :=
  match v with
  | VNone => HN | VBool b => HB b | VInt z => HI z | VFloat f => HF f | VStr s => HS s
  | VList l => HL l ((fix go (l : list val) : Forall P l :=
                        match l with [] => Forall_nil_2 _ | v :: l' => Forall_cons_2 _ _ _ (val_nested_ind v) (go l') end) l)
  | VDict d => HD d ((fix go (d : dict string val) : Forall (fun kv => P kv.2) d :=
                        match d with
                        | [] => Forall_nil_2 _
                        | kv :: d' => Forall_cons_2 _ _ _ (val_nested_ind kv.2) (go d')
                        end) d)
  end.
End nested.

(** Values without floats, whose dictionaries have each key once. *)
Fixpoint plain (v : val) : bool :=
  match v with
  | VFloat _ => false
  | VList l => forallb plain l
  | VDict d => bool_decide (NoDup (map fst d)) && forallb (fun kv => plain kv.2) d
  | _ => true
  end.

Lemma escape_read c l : string_body (escape c ++ l) = push c (string_body l).
Proof. by destruct c as [[] [] [] [] [] [] [] []]. Qed.

Lemma body_read (s l : text) : string_body (concat (map escape s) ++ char 34 :: l) = Some (s, l).
Proof.
  induction s as [|c s IH]; [done|]. cbn [map concat]. by rewrite <- app_assoc, escape_read, IH.
Qed.

Lemma decimal_app ds fs : decimal (ds ++ fs) = foldl (fun acc d => acc * 10 + d)%Z (decimal ds) fs.
Proof. apply foldl_app. Qed.

Lemma digit_char n : (n < 10)%N -> digit_of (Stdlib.Strings.Ascii.ascii_of_N (48 + n)) = Some (Z.of_N n).
Proof.
  intros Hn. assert (H : forallb (fun k => bool_decide (digit_of (Stdlib.Strings.Ascii.ascii_of_N (48 + N.of_nat k)) =
    Some (Z.of_nat k))) (seq 0 10) = true) by reflexivity.
  rewrite forallb_forall in H. specialize (H (N.to_nat n) ltac:(apply in_seq; lia)).
  apply bool_decide_eq_true in H. by rewrite N2Nat.id, N_nat_Z in H.
Qed.

(** The first character of a rest that ends a number. *)
Definition stops (l : text) : bool :=
  match l with
  | [] => true
  | c :: _ => match digit_of c with Some _ => false | None => negb (bool_decide (code c ∈ [46; 69; 101])) end
  end.

Lemma stops_digits l : stops l = true -> span_digits l = ([], l).
Proof. destruct l as [|c l]; [done|]. simpl. by destruct (digit_of c). Qed.

#[local] Ltac Zify.zify_post_hook ::= Z.to_euclidean_division_equations.

Lemma digits_read fuel n acc ds rest : (n < 2 ^ N.of_nat fuel)%N -> span_digits acc = (ds, rest) ->
  exists ds', span_digits (digits_of_nat fuel n acc) = (ds', rest) /\
    decimal ds' = foldl (fun acc d => acc * 10 + d)%Z (Z.of_N n) ds /\ (n = 0%N \/ hd 0%Z ds' <> 0%Z).
Proof.
  revert n acc ds. induction fuel as [|fuel IH]; intros n acc ds Hn Hs; cbn [digits_of_nat].
  - change (2 ^ N.of_nat 0)%N with 1%N in Hn. exists ds. replace n with 0%N by lia. auto.
  - assert (Hs' : span_digits (Stdlib.Strings.Ascii.ascii_of_N (48 + n mod 10) :: acc) = (Z.of_N (n mod 10) :: ds, rest)).
    { cbn [span_digits]. rewrite digit_char by lia. by rewrite Hs. }
    destruct (N.ltb_spec n 10) as [H10|H10].
    + exists (Z.of_N (n mod 10) :: ds). split; [done|]. unfold decimal. cbn [foldl hd]. split; [f_equal; lia|lia].
    + rewrite Nat2N.inj_succ, N.pow_succ_r' in Hn.
      destruct (IH (n / 10)%N _ _ ltac:(lia) Hs') as (ds' & -> & Hd & Hh). exists ds'. split; [done|].
      rewrite Hd. cbn [foldl]. split; [f_equal; lia|right]. destruct Hh; [lia|done].
Qed.

Lemma str_of_N_read n l : stops l = true -> exists ds, span_digits (chars (str_of_N n) ++ l) = (ds, l) /\
  decimal ds = Z.of_N n /\ (ds = [0%Z] \/ (exists d ds', ds = d :: ds' /\ d <> 0%Z)).
Proof.
  intros Hl. unfold str_of_N. rewrite chars_of_chars.
  assert (Happ : forall fuel m acc, digits_of_nat fuel m acc ++ l = digits_of_nat fuel m (acc ++ l)).
  { clear. induction fuel as [|fuel IH]; intros m acc; cbn [digits_of_nat]; [done|].
    destruct (m <? 10)%N; [done|]. by rewrite IH. }
  rewrite Happ. destruct (N.eq_dec n 0) as [->|Hne].
  { exists [0%Z]. cbn. rewrite stops_digits by done. auto. }
  destruct (digits_read (S (N.to_nat (N.log2 n))) n ([] ++ l) [] l) as (ds & -> & Hd & Hh).
  { rewrite Nat2N.inj_succ, N2Nat.id. apply N.log2_spec. lia. }
  { by apply stops_digits. }
  exists ds. split; [done|]. split; [done|right]. destruct Hh as [|Hh]; [done|]. destruct ds as [|d ds]; [done|eauto].
Qed.

Lemma int_part_read n l : stops l = true -> exists ds, int_part (chars (str_of_N n) ++ l) = Some (ds, l) /\ decimal ds = Z.of_N n.
Proof.
  intros Hl. destruct (str_of_N_read n l Hl) as (ds & Hs & Hd & Hh). exists ds. split; [|done]. unfold int_part. rewrite Hs.
  destruct Hh as [->|(d & ds' & -> & Hne)]; [|by destruct d].
  change (decimal [0%Z]) with 0%Z in Hd. destruct n; [|lia]. done.
Qed.

Lemma number_read z l : stops l = true -> number (chars (str_of_Z z) ++ l) = Some (VInt z, l).
Proof.
  intros Hl.
  assert (Ht : fraction l = ([], l) /\ exponent l = (None, l)).
  { destruct l as [|c l]; [done|]. cbn [stops] in Hl. unfold fraction, exponent. destruct (digit_of c); [done|].
    apply negb_true_iff, bool_decide_eq_false in Hl. rewrite !not_elem_of_cons in Hl. destruct Hl as (H1 & H2 & H3 & _).
    destruct (Nat.eqb_spec (code c) 46), (Nat.eqb_spec (code c) 101), (Nat.eqb_spec (code c) 69); try done. }
  destruct Ht as [Hf He].
  assert (Hgo : forall (sg : bool) n, match int_part (chars (str_of_N n) ++ l) with
      | None => None
      | Some (ds, l2) =>
          let '(fs, l3) := fraction l2 in
          let '(e, l4) := exponent l3 in
          match fs, e with
          | [], None => Some (VInt (if sg then - decimal ds else decimal ds), l4)
          | _, _ =>
              let f := round64 (inject_Z (decimal (ds ++ fs)) * pow10 (default 0%Z e - Z.of_nat (length fs))) in
              Some (VFloat (if sg then neg_float f else f), l4)
          end
      end = Some (VInt (if sg then - Z.of_N n else Z.of_N n)%Z, l)).
  { intros sg n. destruct (int_part_read n l Hl) as (ds & -> & Hd). rewrite Hf, He. by rewrite Hd. }
  assert (Hh : forall n, match chars (str_of_N n) ++ l with
                | c :: l' => if code c =? 45 then (true, l') else (false, chars (str_of_N n) ++ l)
                | [] => (false, chars (str_of_N n) ++ l) end = (false, chars (str_of_N n) ++ l)).
  { intros n. destruct (str_of_N_read n l Hl) as (ds & Hs & _ & Hne).
    destruct (chars (str_of_N n) ++ l) as [|c k]; [done|]. destruct (Nat.eqb_spec (code c) 45) as [Hc|]; [|done].
    exfalso. cbn [span_digits] in Hs. unfold digit_of in Hs. rewrite Hc in Hs. cbn in Hs.
    destruct Hne as [->|(? & ? & -> & _)]; done. }
  unfold number. destruct z as [|p|p].
  - unfold str_of_Z. rewrite Hh. apply (Hgo false 0%N).
  - unfold str_of_Z. rewrite Hh. apply (Hgo false (Npos p)).
  - unfold str_of_Z. rewrite chars_app. change (chars "-") with [char 45]. cbn [app].
    change (code (char 45) =? 45) with true. cbv iota. apply (Hgo true (Npos p)).
Qed.

Section read.
Context (float_repr : Q -> string).
Notation dump := (dump float_repr).

(** A written value starts with a character that no surrounding syntax claims. *)
Lemma dump_head v : plain v = true -> exists c k, dump v = c :: k /\ is_ws c = false /\ code c <> 93.
Proof.
  assert (Hn : forall n, exists c k, chars (str_of_N n) = c :: k /\ is_ws c = false /\ code c <> 93).
  { intros n. destruct (str_of_N_read n [] eq_refl) as (ds & Hs & _ & Hne). rewrite app_nil_r in Hs.
    destruct (chars (str_of_N n)) as [|c k]; [by destruct Hne as [->|(? & ? & -> & _)]|].
    exists c, k. split; [done|]. cbn [span_digits] in Hs. destruct (digit_of c) eqn:E.
    2: { by destruct Hne as [->|(? & ? & -> & _)]. }
    unfold digit_of in E. destruct ((48 <=? code c) && (code c <=? 57)) eqn:Eb; [|done].
    apply andb_true_iff in Eb as [H1%Nat.leb_le H2%Nat.leb_le]. split; [|lia].
    unfold is_ws. apply bool_decide_false. rewrite !not_elem_of_cons. split_and!; try lia. set_solver. }
  destruct v as [|[]|z|f|s|l|d]; intros Hp; try done; try (by eexists _, _).
  destruct z as [|p|p]; [apply (Hn 0%N)|apply (Hn (Npos p))|]. cbn [Json.dump]. unfold str_of_Z. rewrite chars_app.
  by eexists _, _.
Qed.

Lemma skip_dump v l : plain v = true -> skip_ws (dump v ++ l) = dump v ++ l.
Proof. intros Hp. destruct (dump_head v Hp) as (c & k & -> & Hc & _). cbn [app skip_ws]. by rewrite Hc. Qed.

Definition reads (v : val) : Prop :=
  plain v = true -> forall fuel l, 2 * length (dump v ++ l) + 1 <= fuel -> stops l = true ->
    value fuel (dump v ++ l) = Some (v, l).

Notation comma := (chars ", ").

Lemma elements_read x xs acc fuel rest : Forall reads (x :: xs) -> forallb plain (x :: xs) = true ->
  2 * length (sep_by comma (map dump (x :: xs)) ++ char 93 :: rest) + 2 <= fuel ->
  elements fuel (sep_by comma (map dump (x :: xs)) ++ char 93 :: rest) acc = Some (VList (acc ++ x :: xs), rest).
Proof.
  revert x acc fuel. induction xs as [|y xs IH]; intros x acc fuel HF Hp Hf;
    (destruct fuel as [|fuel]; [lia|]); apply Forall_cons in HF as [Hx HF]; apply andb_true_iff in Hp as [Hpx Hp].
  - cbn [map sep_by elements] in *. by rewrite (Hx Hpx) by (done || lia).
  - change (sep_by comma (map dump (x :: y :: xs))) with (dump x ++ comma ++ sep_by comma (map dump (y :: xs))) in *.
    rewrite <- !app_assoc in *. cbn [elements]. rewrite (Hx Hpx) by (done || lia).
    change (comma ++ ?k) with (char 44 :: char 32 :: k). cbn [skip_ws].
    change (is_ws (char 44)) with false. cbv iota. change (skip_ws (char 32 :: ?k)) with (skip_ws k).
    change (code (char 44) =? 93) with false. change (code (char 44) =? 44) with true. cbv iota.
    assert (Hy : skip_ws (sep_by comma (map dump (y :: xs)) ++ char 93 :: rest) = sep_by comma (map dump (y :: xs)) ++ char 93 :: rest).
    { apply andb_true_iff in Hp as [Hpy _]. destruct xs; cbn [map sep_by]; rewrite <- ?app_assoc; by apply skip_dump. }
    rewrite Hy, IH; [by rewrite <- app_assoc|done|done|].
    revert Hf. rewrite (length_app (dump x)), (length_app comma). change (length comma) with 2. lia.
Qed.

Notation entry kv := (dump_string kv.1 ++ chars ": " ++ dump kv.2).

Lemma member_read k v fuel l acc : reads v -> plain v = true -> stops l = true ->
  2 * length (entry (k, v) ++ l) + 2 <= S fuel ->
  members (S fuel) (entry (k, v) ++ l) acc =
    match skip_ws l with
    | d :: l4 => if code d =? 125 then Some (VDict (dset k v acc), l4)
                 else if code d =? 44 then members fuel (skip_ws l4) (dset k v acc) else None
    | [] => None
    end.
Proof.
  intros Hv Hp Hl Hf. unfold dump_string in *. cbn [fst snd] in *. rewrite <- !app_comm_cons, <- !app_assoc in *.
  cbn [members]. change (code (char 34) =? 34) with true. cbv iota. cbn [app]. rewrite body_read, of_chars_chars.
  change (chars ": " ++ ?k) with (char 58 :: char 32 :: k) in *. cbn [skip_ws]. change (is_ws (char 58)) with false. cbv iota.
  change (code (char 58) =? 58) with true. cbv iota. change (skip_ws (char 32 :: ?k)) with (skip_ws k).
  rewrite skip_dump, (Hv Hp) by (done || (revert Hf; cbn [length app]; rewrite !length_app; cbn [length]; rewrite length_app; lia)).
  done.
Qed.

Lemma members_read x xs acc fuel rest : Forall (fun kv => reads kv.2) (x :: xs) ->
  forallb (fun kv => plain kv.2) (x :: xs) = true -> NoDup (map fst (acc ++ x :: xs)) ->
  2 * length (sep_by comma (map (fun kv => entry kv) (x :: xs)) ++ char 125 :: rest) + 2 <= fuel ->
  members fuel (sep_by comma (map (fun kv => entry kv) (x :: xs)) ++ char 125 :: rest) acc = Some (VDict (acc ++ x :: xs), rest).
Proof.
  revert x acc fuel. induction xs as [|y xs IH]; intros [k v] acc fuel HF Hp Hnd Hf;
    (destruct fuel as [|fuel]; [lia|]); apply Forall_cons in HF as [Hx HF]; apply andb_true_iff in Hp as [Hpx Hp];
    cbn [snd] in Hx, Hpx;
    assert (Hk : dset k v acc = acc ++ [(k, v)]) by
      (apply dset_fresh, dget_None; rewrite map_app, NoDup_app in Hnd; destruct Hnd as (_ & Hd & _);
       intros Hin; apply (Hd _ Hin); by left).
  - cbn [map sep_by] in *. rewrite member_read by done. cbn [skip_ws]. change (is_ws (char 125)) with false. cbv iota.
    change (code (char 125) =? 125) with true. cbv iota. by rewrite Hk.
  - change (sep_by comma (map (fun kv => entry kv) ((k, v) :: y :: xs)))
      with (entry (k, v) ++ comma ++ sep_by comma (map (fun kv => entry kv) (y :: xs))) in *.
    rewrite <- (app_assoc (entry (k, v))), <- (app_assoc comma) in *.
    rewrite member_read by done.
    change (comma ++ ?k) with (char 44 :: char 32 :: k). cbn [skip_ws].
    change (is_ws (char 44)) with false. cbv iota. change (skip_ws (char 32 :: ?k)) with (skip_ws k).
    change (code (char 44) =? 125) with false. change (code (char 44) =? 44) with true. cbv iota.
    assert (Hy : skip_ws (sep_by comma (map (fun kv => entry kv) (y :: xs)) ++ char 125 :: rest) =
                 sep_by comma (map (fun kv => entry kv) (y :: xs)) ++ char 125 :: rest)
      by (by destruct xs).
    rewrite Hy, Hk, IH; [by rewrite <- app_assoc|done|done|by rewrite <- app_assoc|].
    revert Hf. rewrite (length_app (entry (k, v))), (length_app comma). change (length comma) with 2. lia.
Qed.

Lemma value_read v : reads v.
Proof.
  induction v as [|b|z|f|s|l IH|d IH] using val_nested_ind; intros Hp fuel rest Hf Hs;
    (destruct fuel as [|fuel]; [lia|]).
  - done.
  - by destruct b.
  - cbn [Json.dump] in *. pose proof (number_read z rest Hs) as Hn.
    destruct (chars (str_of_Z z) ++ rest) as [|c k] eqn:E; [done|]. cbn [value].
    assert (Hc : constant constants (c :: k) = None /\ code c <> 34 /\ code c <> 123 /\ code c <> 91).
    { clear - Hn. unfold number in Hn. destruct (Nat.eqb_spec (code c) 45) as [Hc|Hc].
      - destruct k as [|c' k]; [done|]. assert (Hd : digit_of c' <> None).
        { intros Hd. unfold int_part in Hn. cbn [span_digits] in Hn. by rewrite Hd in Hn. }
        assert (c = char 45) as -> by (rewrite <- Hc; symmetry; apply Stdlib.Strings.Ascii.ascii_nat_embedding).
        by destruct c' as [[] [] [] [] [] [] [] []].
      - assert (Hd : digit_of c <> None).
        { intros Hd. unfold int_part in Hn. cbn [span_digits] in Hn. by rewrite Hd in Hn. }
        by destruct c as [[] [] [] [] [] [] [] []]. }
    destruct Hc as (Hc & H1 & H2 & H3). apply Nat.eqb_neq in H1, H2, H3. rewrite H1, H2, H3. unfold scalar. by rewrite Hc.
  - done.
  - cbn [Json.dump]. unfold dump_string. cbn [app value]. rewrite <- app_assoc. cbn [app].
    change (code (char 34) =? 34) with true. cbv iota. by rewrite body_read, of_chars_chars.
  - cbn [Json.dump app value]. rewrite <- app_assoc. cbn [app].
    change (code (char 91) =? 34) with false. change (code (char 91) =? 123) with false. change (code (char 91) =? 91) with true.
    cbv iota. destruct l as [|x xs]; [done|]. cbn [plain] in Hp.
    cbn [Json.dump app length] in Hf. rewrite <- app_assoc in Hf. cbn [app] in Hf.
    pose proof Hp as Hpx. apply andb_true_iff in Hpx as [Hpx _]. destruct (dump_head x Hpx) as (c & k & Hx & Hc & Hne).
    assert (He : exists k', sep_by comma (map dump (x :: xs)) ++ char 93 :: rest = c :: k')
      by (destruct xs; cbn [map sep_by]; rewrite Hx; by eexists).
    destruct He as [k' He]. pose proof (elements_read x xs [] fuel rest IH Hp ltac:(lia)) as Hr. rewrite He in *.
    cbn [skip_ws]. rewrite Hc. apply Nat.eqb_neq in Hne. by rewrite Hne.
  - cbn [Json.dump app value]. rewrite <- app_assoc. cbn [app].
    change (code (char 123) =? 34) with false. change (code (char 123) =? 123) with true.
    cbv iota. destruct d as [|x xs]; [done|]. cbn [plain] in Hp. apply andb_true_iff in Hp as [Hnd%bool_decide_eq_true Hp].
    cbn [Json.dump app length] in Hf. rewrite <- app_assoc in Hf. cbn [app] in Hf.
    assert (He : exists k', sep_by comma (map (fun kv => entry kv) (x :: xs)) ++ char 125 :: rest = char 34 :: k')
      by (destruct xs; cbn [map sep_by]; by eexists).
    destruct He as [k' He]. pose proof (members_read x xs [] fuel rest IH Hp Hnd ltac:(lia)) as Hr. rewrite He in *.
    done.
Qed.

(** Reading what was written gives the value back. *)
Theorem loads_dumps v : plain v = true -> loads (dumps float_repr v) = Some v.
Proof.
  intros Hp. unfold loads, dumps. rewrite chars_of_chars. pose proof (skip_dump v [] Hp) as Hs. rewrite app_nil_r in Hs.
  pose proof (value_read v Hp (2 * length (dump v) + 1) []) as Hv. rewrite app_nil_r in Hv. rewrite Hs, Hv by done. done.
Qed.
End read.

Example loads_small :
  loads (of_chars (map (fun c => if bool_decide (c = "'"%char) then char 34 else c)
    (chars " { 'a' : [1, -2.5e1, true, null, '\u00e9\n'], 'a': {} }"))) = Some (VDict [("a", VDict [])]) /\
  loads "[1,]" = None /\ loads "01" = None /\ loads "" = None.
Proof. vm_compute. done. Qed.
End Json.
