(* ===== verification/UrlGuard.v ===== *)
(** * The outbound-URL guards
    (src/voiceai/helpers/function_calling_helpers.py, src/voiceai/common/security.py)

    The tools of an agent are guarded twice: [validate_outbound_url] before the
    request a language model asked for, [is_safe_outbound_url] before a managed
    tool's. Both are modelled with what they use of [urllib.parse] and [ipaddress].
    What differs between the interpreters the project supports, the registry of
    private networks and the check of bracketed hosts, is the class [Interpreter];
    name resolution is an argument. *)
From S2P Require Import Prelude PyText PyVal.
Open Scope Z_scope.

Module UrlGuard.

Notation code := Stdlib.Strings.Ascii.nat_of_ascii.

(** ** [urllib.parse] *)

(** [s.partition(c)] *)
Fixpoint partition (c : ascii) (l : text) : text * bool * text :=
  match l with
  | [] => ([], false, [])
  | d :: l' => if decide (c = d) then ([], true, l')
               else let '(a, found, b) := partition c l' in (d :: a, found, b)
  end.

(** The third part of [s.rpartition(c)]. *)
Definition after_last (c : ascii) (l : text) : text := reverse (partition c (reverse l)).1.1.

Fixpoint lstrip_c0 (l : text) : text :=
  match l with
  | c :: l' => if (code c <=? 32)%nat then lstrip_c0 l' else l
  | [] => []
  end.

Definition is_alpha (c : ascii) : bool :=
  let n := code c in (((65 <=? n) && (n <=? 90)) || ((97 <=? n) && (n <=? 122)))%nat.
Definition is_digit (c : ascii) : bool := ((48 <=? code c) && (code c <=? 57))%nat.
Definition scheme_char (c : ascii) : bool := is_alpha c || is_digit c || bool_decide (c ∈ ["+"%char; "-"%char; "."%char]).

Record SplitResult := Split { scheme : string; netloc : text }.

Fixpoint take_netloc (l : text) : text :=
  match l with
  | c :: l' => if decide (c ∈ ["/"%char; "?"%char; "#"%char]) then [] else c :: take_netloc l'
  | [] => []
  end.

Definition has (c : ascii) (l : text) : bool := (partition c l).1.2.

(** [_parse_hextet] and [_parse_octet] *)
Definition hex_value (c : ascii) : option Z :=
  let n := code c in
  if is_digit c then Some (Z.of_nat n - 48)
  else if ((97 <=? n) && (n <=? 102))%nat then Some (Z.of_nat n - 87)
  else if ((65 <=? n) && (n <=? 70))%nat then Some (Z.of_nat n - 55)
  else None.

Fixpoint hex_number (acc : Z) (l : text) : option Z :=
  match l with
  | [] => Some acc
  | c :: l' => match hex_value c with Some d => hex_number (acc * 16 + d) l' | None => None end
  end.

Definition parse_hextet (l : text) : option Z :=
  match l with
  | [] => None
  | _ => if (4 <? length l)%nat then None else hex_number 0 l
  end.

Fixpoint decimal_number (acc : Z) (l : text) : option Z :=
  match l with
  | [] => Some acc
  | c :: l' => if is_digit c then decimal_number (acc * 10 + (Z.of_nat (code c) - 48)) l' else None
  end.

Definition parse_octet (l : text) : option Z :=
  match l with
  | [] => None
  | c :: l' =>
      match decimal_number 0 l with
      | None => None
      | Some n =>
          if (3 <? length l)%nat then None
          else if bool_decide (c = "0"%char) && negb (bool_decide (l' = [])) then None
          else if 255 <? n then None else Some n
      end
  end.

(** ** [ipaddress] *)
Inductive address : Type := V4 (n : Z) | V6 (n : Z).

Definition parse4 (l : text) : option Z :=
  match map parse_octet (split_on_chars "."%char [] l) with
  | [Some a; Some b; Some c; Some d] => Some (((a * 256 + b) * 256 + c) * 256 + d)
  | _ => None
  end.

(** A part between two colons; the last one may be a dotted IPv4 suffix, which
    counts as two 16-bit numbers. *)
Inductive part : Type := Hex (l : text) | Word (n : Z).

Definition is_empty (p : part) : bool := match p with Hex [] => true | _ => false end.
Definition part_value (p : part) : option Z := match p with Hex l => parse_hextet l | Word n => Some n end.

Fixpoint join_words (acc : Z) (ps : list part) : option Z :=
  match ps with
  | [] => Some acc
  | p :: ps' => match part_value p with Some n => join_words (acc * 65536 + n) ps' | None => None end
  end.

Definition expand_suffix (parts : list text) : option (list part) :=
  match reverse parts with
  | [] => None
  | suffix :: front =>
      if has "."%char suffix
      then match parse4 suffix with
           | Some n => Some (map Hex (reverse front) ++ [Word (n / 65536); Word (n mod 65536)])
           | None => None
           end
      else Some (map Hex parts)
  end.

(** The positions of empty parts strictly between the first and the last. *)
Definition inner_empty (ps : list part) : list nat :=
  List.filter (fun i => match ps !! i with Some p => is_empty p | None => false end) (seq 1 (length ps - 2)).

Definition first_empty (ps : list part) : bool := match ps with p :: _ => is_empty p | [] => false end.
Definition last_empty (ps : list part) : bool := first_empty (reverse ps).

Definition parse6_parts (ps : list part) : option Z :=
  let len := length ps in
  match inner_empty ps with
  | [] =>
      if (len =? 8)%nat && negb (first_empty ps) && negb (last_empty ps) then join_words 0 ps else None
  | [skip] =>
      let hi := (if first_empty ps then skip - 1 else skip)%nat in
      let lo := (if last_empty ps then len - skip - 2 else len - skip - 1)%nat in
      if first_empty ps && negb (hi =? 0)%nat then None
      else if last_empty ps && negb (lo =? 0)%nat then None
      else if (8 <=? hi + lo)%nat then None
      else match join_words 0 (take hi ps) with
           | Some h => join_words (h * 2 ^ (16 * Z.of_nat (8 - (hi + lo)))) (drop (len - lo) ps)
           | None => None
           end
  | _ => None
  end.

Definition parse6 (l : text) : option Z :=
  let parts := split_on_chars ":"%char [] l in
  if (length parts <? 3)%nat then None
  else match expand_suffix parts with
       | Some ps => if (9 <? length ps)%nat then None else parse6_parts ps
       | None => None
       end.

(** [_split_scope_id]: the scope is dropped. *)
Definition without_scope (l : text) : option text :=
  let '(addr, found, scope) := partition "%"%char l in
  if found && (bool_decide (scope = []) || has "%"%char scope) then None else Some addr.

Definition ip_address (l : text) : option address :=
  if has "/"%char l then None
  else match parse4 l with
       | Some n => Some (V4 n)
       | None => match without_scope l with
                 | Some addr => match parse6 addr with Some n => Some (V6 n) | None => None end
                 | None => None
                 end
       end.

(** [address in network] *)
Definition inside (n base len bits : Z) : bool := (base <=? n) && (n <? base + 2 ^ (bits - len)).
Definition dotted (a b c d : Z) : Z := ((a * 256 + b) * 256 + c) * 256 + d.
Definition in4 (n a b c d len : Z) : bool := inside n (dotted a b c d) len 32.
(** A network given by the first 16 bits of its base. *)
Definition in6 (n word len : Z) : bool := inside n (word * 2 ^ 112) len 128.

Class Interpreter : Type := {
  private4 : Z -> bool;
  private6 : Z -> bool;
  bracketed_ok : text -> bool }.

(** What every supported registry lists. *)
Class Registry `{Interpreter} : Prop := {
  private4_listed n :
    in4 n 0 0 0 0 8 = true \/ in4 n 10 0 0 0 8 = true \/ in4 n 127 0 0 0 8 = true \/ in4 n 169 254 0 0 16 = true \/
    in4 n 172 16 0 0 12 = true \/ in4 n 192 168 0 0 16 = true -> private4 n = true;
  private6_listed n : in6 n 0xfc00 7 = true -> private6 n = true }.

Section guards.
Context `{Interpreter}.

(** [urlsplit]; [None] where it raises. *)
Definition urlsplit (url : string) : option SplitResult :=
  let url := List.filter (fun c => negb (bool_decide (code c ∈ [9; 10; 13]%nat))) (lstrip_c0 (chars url)) in
  let '(head, found, rest) := partition ":"%char url in
  let named := found && match head with c :: _ => is_alpha c | [] => false end && forallb scheme_char head in
  let url := if named then rest else url in
  let scheme := if named then lower (of_chars head) else "" in
  match url with
  | "/"%char :: "/"%char :: l =>
      let loc := take_netloc l in
      if negb (Bool.eqb (has "["%char loc) (has "]"%char loc)) then None
      else if has "["%char loc && negb (bracketed_ok loc) then None
      else Some (Split scheme loc)
  | _ => Some (Split scheme [])
  end.

(** [_hostinfo] *)
Definition hostinfo (r : SplitResult) : text * text :=
  let info := after_last "@"%char (netloc r) in
  let '(_, open, bracketed) := partition "["%char info in
  if open then let '(host, _, rest) := partition "]"%char bracketed in (host, (partition ":"%char rest).2)
  else let '(host, _, port) := partition ":"%char info in (host, port).

Definition hostname (r : SplitResult) : option string :=
  match (hostinfo r).1 with
  | [] => None
  | host => let '(name, percent, zone) := partition "%"%char host in
            Some (of_chars (map lower_char name ++ (if percent then ["%"%char] else []) ++ zone))
  end.

(** [Err] where [.port] raises. *)
Definition port (r : SplitResult) : result unit (option Z) :=
  match (hostinfo r).2 with
  | [] => Ok None
  | p => match decimal_number 0 p with
         | Some n => if n <=? 65535 then Ok (Some n) else Err tt
         | None => Err tt
         end
  end.

(** ** Address classes *)
Definition loopback4 n := in4 n 127 0 0 0 8.
Definition link_local4 n := in4 n 169 254 0 0 16.
Definition reserved4 n := in4 n 240 0 0 0 4.
Definition multicast4 n := in4 n 224 0 0 0 4.
Definition shared4 n := in4 n 100 64 0 0 10.
Definition global4 n := negb (shared4 n) && negb (private4 n).

Definition link_local6 n := in6 n 0xfe80 10.
Definition multicast6 n := in6 n 0xff00 8.
Definition site_local6 n := in6 n 0xfec0 10.
Definition reserved6 n :=
  in6 n 0 8 || in6 n 0x0100 8 || in6 n 0x0200 7 || in6 n 0x0400 6 || in6 n 0x0800 5 || in6 n 0x1000 4 ||
  in6 n 0x4000 3 || in6 n 0x6000 3 || in6 n 0x8000 3 || in6 n 0xa000 3 || in6 n 0xc000 3 || in6 n 0xe000 4 ||
  in6 n 0xf000 5 || in6 n 0xf800 6 || in6 n 0xfe00 9.
Definition ipv4_mapped (n : Z) : option Z := if Z.shiftr n 32 =? 0xffff then Some (Z.land n 0xffffffff) else None.

(** ** [_is_disallowed_ip] *)
Definition disallowed4 n :=
  negb (global4 n) || private4 n || loopback4 n || link_local4 n || reserved4 n || multicast4 n || (n =? 0).
Definition disallowed6 n :=
  negb (negb (private6 n)) || private6 n || (n =? 1) || link_local6 n || reserved6 n || multicast6 n || (n =? 0).
Definition is_disallowed_ip (ip : address) : bool :=
  match ip with
  | V4 n => disallowed4 n
  | V6 n => match ipv4_mapped n with Some m => disallowed4 m | None => disallowed6 n end
  end.

(** ** [validate_outbound_url] *)
Inductive answer : Type := Addresses (l : list text) | TimedOut | Unresolved | Raised.

(** [UrlError]: an exception that is no [SSRFError]. *)
Inductive refusal : Type := SSRFError | UrlError.

Definition ALLOWED_URL_SCHEMES : list string := ["http"; "https"].

Fixpoint check_addresses (l : list text) : result refusal unit :=
  match l with
  | [] => Ok tt
  | addr :: l' =>
      match ip_address addr with
      | None => Err SSRFError
      | Some ip => if is_disallowed_ip ip then Err SSRFError else check_addresses l'
      end
  end.

Definition validate_outbound_url (allowlisted : list string) (getaddrinfo : string -> option Z -> answer) (url : val)
    : result refusal unit :=
  match url with
  | VStr s =>
      let s := strip s in
      if negb (str_true s) then Err SSRFError
      else match urlsplit s with
           | None => Err UrlError
           | Some parsed =>
               if negb (bool_decide (lower (scheme parsed) ∈ ALLOWED_URL_SCHEMES)) then Err SSRFError
               else match hostname parsed with
                    | None => Err SSRFError
                    | Some host =>
                        if bool_decide (lower host ∈ allowlisted) then Ok tt
                        else match port parsed with
                             | Err _ => Err SSRFError
                             | Ok p =>
                                 match getaddrinfo host p with
                                 | Addresses l => check_addresses l
                                 | TimedOut | Unresolved => Err SSRFError
                                 | Raised => Err UrlError
                                 end
                             end
                    end
           end
  | _ => Err SSRFError
  end.

(** ** [is_safe_outbound_url] *)
Definition METADATA_ADDRESSES : list string := ["169.254.169.254"; "fd00:ec2::254"].
Definition SAFE_URL_SCHEMES : list string := ["http"; "https"].

Definition unroutable (ip : address) : bool :=
  match ip with
  | V4 n => shared4 n || loopback4 n || private4 n || link_local4 n || reserved4 n || multicast4 n || (n =? 0)
  | V6 n => site_local6 n || (n =? 1) || private6 n || link_local6 n || reserved6 n || multicast6 n || (n =? 0)
  end.

Definition is_public_address (raw : text) : bool :=
  let candidate := (partition "%"%char raw).1.1 in
  if bool_decide (of_chars candidate ∈ METADATA_ADDRESSES) then false
  else match ip_address candidate with None => false | Some ip => negb (unroutable ip) end.

(** [_resolve_addresses]: a resolver that raises answers no address. *)
Definition resolve_addresses (a : answer) : list text := match a with Addresses l => l | _ => [] end.

Definition is_safe_outbound_url (resolver : string -> answer) (url : string) : bool :=
  match urlsplit url with
  | None => false
  | Some parsed =>
      match hostname parsed with
      | None => false
      | Some host =>
          if negb (bool_decide (lower (scheme parsed) ∈ SAFE_URL_SCHEMES)) then false
          else match resolve_addresses (resolver host) with
               | [] => false
               | l => forallb is_public_address l
               end
      end
  end.
End guards.

(** ** Facts on addresses *)
Lemma inside_spec n base len bits : inside n base len bits = true <-> base <= n < base + 2 ^ (bits - len).
Proof. unfold inside. rewrite andb_true_iff, Z.leb_le, Z.ltb_lt. done. Qed.

(** A network of the registry's range in another one. *)
Lemma inside_sub n base len base' len' bits :
  base' <= base -> base + 2 ^ (bits - len) <= base' + 2 ^ (bits - len') ->
  inside n base len bits = true -> inside n base' len' bits = true.
Proof. rewrite !inside_spec. lia. Qed.

Lemma partition_app c a b : c ∉ a -> partition c (a ++ c :: b) = (a, true, b).
Proof.
  induction a as [|d a IH]; intros Hn; cbn [app partition]; [by rewrite decide_True|].
  apply not_elem_of_cons in Hn as [Hc Hn]. rewrite decide_False by done. by rewrite IH.
Qed.

Lemma partition_none c l : c ∉ l -> partition c l = (l, false, []).
Proof.
  induction l as [|d l IH]; intros Hn; cbn [partition]; [done|].
  apply not_elem_of_cons in Hn as [Hc Hn]. rewrite decide_False by done. by rewrite IH.
Qed.

(** [str.split] puts together what a dotted or coloned text is made of. *)
Section facts.
Context `{Interpreter}.

Lemma v4_same n : disallowed4 n = unroutable (V4 n).
Proof.
  unfold disallowed4, unroutable, global4.
  by destruct (shared4 n), (private4 n), (loopback4 n), (link_local4 n), (reserved4 n), (multicast4 n), (n =? 0).
Qed.

(** The second guard alone knows the site-local block. *)
Lemma v6_same n : unroutable (V6 n) = site_local6 n || disallowed6 n.
Proof.
  unfold disallowed6, unroutable.
  by destruct (site_local6 n), (private6 n), (reserved6 n), (n =? 1), (link_local6 n), (multicast6 n), (n =? 0).
Qed.

(** An IPv4-mapped address is in a reserved block of the IPv6 space. *)
Lemma mapped_low n m : ipv4_mapped n = Some m -> n < 2 ^ 48.
Proof.
  unfold ipv4_mapped. destruct (Z.eqb_spec (Z.shiftr n 32) 0xffff) as [Hn|]; [|done]. intros _.
  rewrite Z.shiftr_div_pow2 in Hn by done. pose proof (Z.div_mod n (2 ^ 32) ltac:(done)).
  pose proof (Z.mod_pos_bound n (2 ^ 32) ltac:(done)). lia.
Qed.

Lemma mapped_reserved n m : ipv4_mapped n = Some m -> reserved6 n = true.
Proof.
  unfold ipv4_mapped. destruct (Z.eqb_spec (Z.shiftr n 32) 0xffff) as [Hn|]; [|done]. intros _.
  unfold reserved6. rewrite !orb_true_iff. do 14 left. unfold in6. apply inside_spec.
  rewrite Z.shiftr_div_pow2 in Hn by done. pose proof (Z.div_mod n (2 ^ 32) ltac:(done)).
  pose proof (Z.mod_pos_bound n (2 ^ 32) ltac:(done)). lia.
Qed.

(** The addresses on which the two guards differ. *)
Definition contested (ip : address) : bool :=
  match ip with
  | V4 _ => false
  | V6 n => site_local6 n || match ipv4_mapped n with Some _ => true | None => false end
  end.

Lemma classes_agree ip : contested ip = false -> is_disallowed_ip ip = unroutable ip.
Proof.
  destruct ip as [n|n]; cbn [contested is_disallowed_ip]; [intros _; apply v4_same|]. rewrite orb_false_iff.
  destruct (ipv4_mapped n); [by intros []|]. intros [Hs _]. by rewrite v6_same, Hs.
Qed.

Lemma contested_unroutable ip : contested ip = true -> unroutable ip = true.
Proof.
  destruct ip as [n|n]; [done|]. cbn [contested]. rewrite v6_same. destruct (site_local6 n); [done|].
  destruct (ipv4_mapped n) as [m|] eqn:Hm; [|done]. intros _. unfold disallowed6.
  rewrite (mapped_reserved n m Hm). by rewrite !orb_true_r.
Qed.

Lemma metadata_addresses : map (fun s => ip_address (chars s)) METADATA_ADDRESSES =
  [Some (V4 (dotted 169 254 169 254)); Some (V6 (0xfd00 * 2 ^ 112 + 0x0ec2 * 2 ^ 96 + 0x254))].
Proof. vm_compute. reflexivity. Qed.

Lemma metadata_unroutable `{!Registry} raw ip : raw ∈ METADATA_ADDRESSES -> ip_address (chars raw) = Some ip ->
  unroutable ip = true.
Proof.
  intros Hr Hip. apply (list_elem_of_fmap_2 (fun s => ip_address (chars s))) in Hr.
  change (fmap ?f ?l) with (map f l) in Hr. rewrite metadata_addresses, Hip, !elem_of_cons in Hr.
  destruct Hr as [[= ->]|[[= ->]|Hr]]; [| |set_solver]; unfold unroutable.
  - assert (link_local4 (dotted 169 254 169 254) = true) as -> by (vm_compute; reflexivity). by rewrite !orb_true_r.
  - rewrite private6_listed by (vm_compute; reflexivity). by rewrite !orb_true_r.
Qed.

(** The second guard's verdict on an address text. *)
Lemma public_exact `{!Registry} raw : "%"%char ∉ raw ->
  is_public_address raw = match ip_address raw with Some ip => negb (unroutable ip) | None => false end.
Proof.
  intros Hn. unfold is_public_address. rewrite partition_none by done. cbn [fst].
  case_bool_decide as Hm; [|done]. destruct (ip_address raw) as [ip|] eqn:Hip; [|done].
  rewrite (metadata_unroutable (of_chars raw) ip); [done|done|by rewrite chars_of_chars].
Qed.

Lemma check_addresses_Ok l : check_addresses l = Ok tt <->
  Forall (fun a => exists ip, ip_address a = Some ip /\ is_disallowed_ip ip = false) l.
Proof.
  induction l as [|a l IH]; simpl; [done|]. rewrite Forall_cons, <- IH.
  destruct (ip_address a) as [ip|]; [|naive_solver]. destruct (is_disallowed_ip ip) eqn:E.
  - split; [done|]. intros [(? & [= <-] & Hd) _]. congruence.
  - split; [intros Hl; split; [by exists ip|done]|by intros [_ Hl]].
Qed.

(** What the first guard reads of a URL that survives stripping. *)
Lemma validate_run allowlisted dns s parsed host :
  strip s = s -> urlsplit s = Some parsed -> hostname parsed = Some host ->
  validate_outbound_url allowlisted dns (VStr s) =
    if negb (bool_decide (lower (scheme parsed) ∈ ALLOWED_URL_SCHEMES)) then Err SSRFError
    else if bool_decide (lower host ∈ allowlisted) then Ok tt
    else match port parsed with
         | Err _ => Err SSRFError
         | Ok p => match dns host p with
                   | Addresses l => check_addresses l
                   | TimedOut | Unresolved => Err SSRFError
                   | Raised => Err UrlError
                   end
         end.
Proof.
  intros Hs Hu Hh. unfold validate_outbound_url. rewrite Hs. destruct (str_true s) eqn:E; cbn [negb]; [by rewrite Hu, Hh|].
  apply str_true_false in E as ->. vm_compute in Hu. injection Hu as <-. by vm_compute in Hh.
Qed.
End facts.

Section guarded.
Context `{Registry}.

(** The two guards give one verdict: over the same answers of the resolver, and
    for a URL without surrounding blanks whose port is well formed and whose host is
    not on the allowlist, the guard of a model's request accepts exactly what the
    guard of a managed tool accepts, as long as no resolved address is IPv4-mapped or
    site-local. *)
Theorem guards_agree allowlisted dns resolver s parsed host p l :
  strip s = s -> urlsplit s = Some parsed -> hostname parsed = Some host -> port parsed = Ok p ->
  lower host ∉ allowlisted -> dns host p = Addresses l -> resolver host = Addresses l -> l <> [] ->
  Forall (fun a => "%"%char ∉ a /\ forall ip, ip_address a = Some ip -> contested ip = false) l ->
  validate_outbound_url allowlisted dns (VStr s) = Ok tt <-> is_safe_outbound_url resolver s = true.
Proof.
  intros Hs Hu Hh Hp Ha Hd Hr Hne HF. rewrite (validate_run _ _ _ _ _ Hs Hu Hh).
  unfold is_safe_outbound_url. rewrite Hu, Hh, Hp, Hd, Hr. change SAFE_URL_SCHEMES with ALLOWED_URL_SCHEMES.
  destruct (bool_decide (lower (scheme parsed) ∈ ALLOWED_URL_SCHEMES)); cbn [negb]; [|done].
  rewrite bool_decide_false by done. cbn [resolve_addresses].
  transitivity (Forall (fun a => is_public_address a = true) l).
  - rewrite check_addresses_Ok, !Forall_forall. rewrite Forall_forall in HF.
    assert (Ha' : forall a, a ∈ l -> (exists ip, ip_address a = Some ip /\ is_disallowed_ip ip = false) <-> is_public_address a = true).
    { intros a [Hn Hc]%HF. rewrite public_exact by done. destruct (ip_address a) as [ip|].
      - rewrite <- classes_agree, negb_true_iff by auto. split; [by intros (? & [= <-] & ?)|by eexists].
      - split; [by intros (? & ? & _)|done]. }
    split; intros Hl a Hin; apply Ha'; auto.
  - destruct l; [done|]. by rewrite forallb_forall, Forall_forall; setoid_rewrite <- list_elem_of_In.
Qed.

(** An address outside the internal networks: 0/8, 10/8, 127/8, 169.254/16,
    172.16/12, 192.168/16, 100.64/10, 224/4 and 240/4, or the unspecified, loopback,
    unique-local, link-local and multicast addresses of IPv6; a mapped address is
    judged by what it maps. *)
Definition external4 (n : Z) : Prop :=
  in4 n 0 0 0 0 8 = false /\ in4 n 10 0 0 0 8 = false /\ in4 n 127 0 0 0 8 = false /\ in4 n 169 254 0 0 16 = false /\
  in4 n 172 16 0 0 12 = false /\ in4 n 192 168 0 0 16 = false /\ in4 n 100 64 0 0 10 = false /\
  in4 n 224 0 0 0 4 = false /\ in4 n 240 0 0 0 4 = false.

Definition external (ip : address) : Prop :=
  match ip with
  | V4 n => external4 n
  | V6 n => match ipv4_mapped n with
            | Some m => external4 m
            | None => n <> 0 /\ n <> 1 /\ in6 n 0xfc00 7 = false /\ in6 n 0xfe80 10 = false /\ in6 n 0xff00 8 = false
            end
  end.

Lemma allowed4_external n : disallowed4 n = false -> external4 n.
Proof.
  unfold disallowed4, global4. rewrite !orb_false_iff, negb_false_iff, andb_true_iff, !negb_true_iff.
  intros ((((((( Hs & Hp) & _) & _) & _) & Hr) & Hm) & _).
  assert (Hl : forall b, (b = true -> private4 n = true) -> b = false).
  { intros [] Hb; [|done]. by rewrite Hb in Hp. }
  unfold external4. split_and!; try done; apply Hl; intros; apply private4_listed; tauto.
Qed.

Lemma allowed_external ip : is_disallowed_ip ip = false -> external ip.
Proof.
  destruct ip as [n|n]; cbn [is_disallowed_ip external]; [apply allowed4_external|].
  destruct (ipv4_mapped n) as [m|]; [apply allowed4_external|]. unfold disallowed6.
  rewrite !orb_false_iff, !Z.eqb_neq. intros ((((((_ & Hp) & ?) & ?) & _) & ?) & ?). split_and!; try done.
  destruct (in6 n 0xfc00 7) eqn:E; [|done]. by rewrite private6_listed in Hp.
Qed.

(** The guard of a model's request lets a URL through only when its scheme is http
    or https, it names a host, and the host is on the deployment's allowlist or every
    address it resolves to is a well-formed address outside the internal networks. *)
Theorem validated_reachable allowlisted dns url :
  validate_outbound_url allowlisted dns url = Ok tt ->
  exists s parsed host, url = VStr s /\ urlsplit (strip s) = Some parsed /\ hostname parsed = Some host /\
    lower (scheme parsed) ∈ ["http"; "https"] /\
    (lower host ∈ allowlisted \/
     exists p l, port parsed = Ok p /\ dns host p = Addresses l /\
       Forall (fun a => exists ip, ip_address a = Some ip /\ external ip) l).
Proof.
  destruct url as [| | | |s| |]; try done. cbn [validate_outbound_url].
  destruct (str_true (strip s)); [|done]. cbn [negb].
  destruct (urlsplit (strip s)) as [parsed|] eqn:Hu; [|done].
  case_bool_decide as Hsch; [|done]. cbn [negb]. destruct (hostname parsed) as [host|] eqn:Hh; [|done].
  intros Hv. exists s, parsed, host. split_and!; try done. case_bool_decide as Ha; [by left|right].
  destruct (port parsed) as [p|]; [|done]. destruct (dns host p) as [l| | |] eqn:Hd; try done.
  exists p, l. split_and!; try done. apply check_addresses_Ok in Hv. eapply Forall_impl; [exact Hv|].
  intros a (ip & ? & ?). exists ip. split; [done|by apply allowed_external].
Qed.
End guarded.

(** ** A registry, and where the guards differ *)
Module Example.

(** The networks of CPython 3.11, with their exceptions. *)
Definition cpython4 (n : Z) : bool :=
  (in4 n 0 0 0 0 8 || in4 n 10 0 0 0 8 || in4 n 127 0 0 0 8 || in4 n 169 254 0 0 16 || in4 n 172 16 0 0 12 ||
   in4 n 192 0 0 0 24 || in4 n 192 0 0 170 31 || in4 n 192 0 2 0 24 || in4 n 192 168 0 0 16 || in4 n 198 18 0 0 15 ||
   in4 n 198 51 100 0 24 || in4 n 203 0 113 0 24 || in4 n 240 0 0 0 4 || in4 n 255 255 255 255 32) &&
  negb (in4 n 192 0 0 9 32 || in4 n 192 0 0 10 32).

Definition cpython6 (n : Z) : bool :=
  ((n <=? 1) && (0 <=? n) || in6 n 0x0100 64 || inside n (0x64ff9b0001 * 2 ^ 80) 48 128 || in6 n 0x2001 23 ||
   inside n (0x20010db8 * 2 ^ 96) 32 128 || in6 n 0x2002 16 || in6 n 0xfc00 7 || in6 n 0xfe80 10) &&
  negb (inside n (0x20010001 * 2 ^ 96 + 1) 128 128 || inside n (0x20010001 * 2 ^ 96 + 2) 128 128 ||
        inside n (0x20010003 * 2 ^ 96) 32 128 || inside n (0x200100040112 * 2 ^ 80) 48 128 ||
        inside n (0x20010020 * 2 ^ 96) 28 128 || inside n (0x20010030 * 2 ^ 96) 28 128).

#[global] Instance cpython : Interpreter := {
  private4 := cpython4;
  private6 n := match ipv4_mapped n with Some m => cpython4 m | None => cpython6 n end;
  bracketed_ok _ := true }.

Lemma apart n b1 l1 b2 l2 bits :
  b1 + 2 ^ (bits - l1) <= b2 \/ b2 + 2 ^ (bits - l2) <= b1 ->
  inside n b1 l1 bits = true -> inside n b2 l2 bits = false.
Proof. rewrite inside_spec. intros Hd Hi. apply not_true_iff_false. rewrite inside_spec. lia. Qed.

Ltac disjoint Hn := apply (apart _ _ _ _ _ _) with (2 := Hn); first [left; by vm_compute | right; by vm_compute].

#[global] Instance cpython_registry : Registry.
Proof.
  split.
  - intros n Hn. cbn [private4 cpython]. unfold cpython4. apply andb_true_iff. split.
    + destruct Hn as [Hn|[Hn|[Hn|[Hn|[Hn|Hn]]]]]; by rewrite Hn, ?orb_true_r.
    + apply negb_true_iff, orb_false_iff. unfold in4 in *.
      destruct Hn as [Hn|[Hn|[Hn|[Hn|[Hn|Hn]]]]]; split; disjoint Hn.
  - intros n Hn. cbn [private6 cpython]. unfold in6 in Hn. destruct (ipv4_mapped n) as [m|] eqn:Hm.
    { exfalso. apply mapped_low in Hm. apply inside_spec in Hn. revert Hm. apply Z.le_ngt. etrans; [|apply Hn]. by vm_compute. }
    unfold cpython6, in6. rewrite Hn, !orb_true_r. cbn [orb andb].
    apply negb_true_iff. rewrite !orb_false_iff. split_and!; disjoint Hn.
Qed.

Definition dns (addr : string) (_ : string) (_ : option Z) : answer := Addresses [chars addr].

Lemma guards_agree_witness :
  strip "https://hooks.example/run" = "https://hooks.example/run" /\
  (validate_outbound_url [] (dns "93.184.216.34") (VStr "https://hooks.example/run") = Ok tt <->
   is_safe_outbound_url (fun h => dns "93.184.216.34" h None) "https://hooks.example/run" = true).
Proof.
  split; [vm_compute; reflexivity|].
  apply (guards_agree [] (dns "93.184.216.34") (fun h => dns "93.184.216.34" h None) "https://hooks.example/run"
    (Split "https" (chars "hooks.example")) "hooks.example" None [chars "93.184.216.34"]).
  1, 2, 3, 4: vm_compute; reflexivity.
  - apply not_elem_of_nil.
  - reflexivity.
  - reflexivity.
  - discriminate.
  - constructor; [|constructor]. split; [apply (bool_decide_unpack _); vm_compute; exact I|].
    intros ip Hip. vm_compute in Hip. injection Hip as <-. reflexivity.
Defined.

Lemma validated_reachable_witness : exists host,
  validate_outbound_url [] (dns "93.184.216.34") (VStr " https://hooks.example:8443/run ") = Ok tt /\
  dns "93.184.216.34" host (Some 8443) = Addresses [chars "93.184.216.34"].
Proof.
  assert (Hv : validate_outbound_url [] (dns "93.184.216.34") (VStr " https://hooks.example:8443/run ") = Ok tt)
    by (vm_compute; reflexivity).
  destruct (validated_reachable [] (dns "93.184.216.34") _ Hv) as (s & parsed & host & _). exists host. by split.
Defined.

(** The guard of a model's request lets a site-local address through, the other
    one does not; and a public address written as an IPv4-mapped one only passes the
    first. *)
Lemma guards_differ :
  map (fun a => (validate_outbound_url [] (dns a) (VStr "http://h/"), is_safe_outbound_url (fun h => dns a h None) "http://h/"))
    ["fec0::1"; "::ffff:93.184.216.34"; "93.184.216.34"; "169.254.169.254"; "::ffff:127.0.0.1"] =
  [(Ok tt, false); (Ok tt, false); (Ok tt, true); (Err SSRFError, false); (Err SSRFError, false)].
Proof. vm_compute. reflexivity. Qed.
End Example.
End UrlGuard.
