(* ===== verification/ToolCalls.v ===== *)
(** * Tool calls of a language model
    (src/voiceai/llms/tool_call_accumulator.py, llms/types.py, llms/litellm.py,
    helpers/function_calling_helpers.py, helpers/utils.py)

    From the streamed deltas of a completion to the HTTP request of a tool: the
    accumulator, the payload it builds, the two kinds of request templates and
    [trigger_api] behind the URL guard. A payload is the dictionary [model_dump]
    makes of it. [str()] of a float, list or dict, the [repr] of a float and the
    conversions of [%] other than [s] are arguments; name resolution and HTTP are
    answered by an environment from the trace of what was asked before. *)
From S2P Require Import Prelude PyText PyVal Json UrlGuard.
From Stdlib Require Import QArith.QArith.
Close Scope Q_scope.
Open Scope Z_scope.
Open Scope voice_scope.

Module ToolCalls.

(** ** Pre-call messages (utils.py) *)
Definition END_CALL_FUNCTION_PREFIX : string := "end_call".

Inductive message_config : Type := Text (s : string) | ByLanguage (d : dict string string).

Definition blank (s : string) : bool := negb (str_true (strip s)).

Definition select_message_by_language (c : message_config) (detected : string) : string :=
  match c with
  | Text s => s
  | ByLanguage d =>
      let said lang := match dget lang d with Some v => if blank v then None else Some v | None => None end in
      match said detected with
      | Some v => v
      | None => match said "en" with
                | Some v => v
                | None => default "" (List.find (fun v => negb (blank v)) (dvalues d))
                end
      end
  end.

Definition PRE_FUNCTION_CALL_MESSAGE : message_config :=
  ByLanguage [("en", "Just give me a moment, I'll be back with you.");
              ("ge", "Geben Sie mir einen Moment Zeit, ich bin gleich wieder bei Ihnen.")].
Definition TRANSFERING_CALL_FILLER : message_config :=
  ByLanguage [("en", "Sure, I'll transfer the call for you. Please wait a moment...");
              ("fr", "D'accord, je transf" +:+ of_chars [Stdlib.Strings.Ascii.ascii_of_nat 232] +:+
                     "re l'appel. Un instant, s'il vous pla" +:+ of_chars [Stdlib.Strings.Ascii.ascii_of_nat 238] +:+ "t.")].

(** [bool] of a message configuration. *)
Definition given (c : option message_config) : option message_config :=
  match c with
  | Some (Text "") | Some (ByLanguage []) => None
  | c => c
  end.

Definition compute_function_pre_call_message (language : string) (function_name : option string)
    (configured : option message_config) : option string :=
  match function_name with
  | Some f =>
      if decide (f = "switch_language") then Some ""
      else if startswith f END_CALL_FUNCTION_PREFIX then None
      else let fallback := if startswith f "transfer_call" then TRANSFERING_CALL_FILLER else PRE_FUNCTION_CALL_MESSAGE in
           Some (select_message_by_language (default fallback (given configured)) language)
  | None => Some (select_message_by_language (default PRE_FUNCTION_CALL_MESSAGE (given configured)) language)
  end.

(** ** [ToolCallAccumulator] *)
Record delta := Delta { d_index : Z; d_id : option string; d_name : option string; d_arguments : option string }.
Record entry := Entry { e_index : Z; e_id : option string; e_name : option string; e_arguments : string }.

(** The configuration of a callable function ([APIParams]); the headers and the
    parameter template are what the configuration holds. *)
Record APIParams := Api {
  a_url : option string;
  a_method : option string;
  a_api_token : option string;
  a_param : val;
  a_headers : val;
  a_pre_call_message : option message_config }.

(** A tool as offered to the model: its [parameters], when given, with the
    [required] names. *)
Record tool_spec := Spec { s_name : string; s_required : option (list string) }.

Record ToolCallAccumulator := mkAccumulator {
  api_params : dict string APIParams;
  tools : list tool_spec;
  language : string;
  final_tool_calls : dict Z entry;
  called_fun : option string;
  gave_pre_call_msg : bool;
  received_textual : bool }.

Definition create (params : dict string APIParams) (tools : list tool_spec) (language : string) : ToolCallAccumulator :=
  mkAccumulator params tools language [] None false false.

Definition set_calls calls fun_ (a : ToolCallAccumulator) :=
  mkAccumulator (api_params a) (tools a) (language a) calls fun_ (gave_pre_call_msg a) (received_textual a).
Definition set_gave b (a : ToolCallAccumulator) :=
  mkAccumulator (api_params a) (tools a) (language a) (final_tool_calls a) (called_fun a) b (received_textual a).
Definition set_received b (a : ToolCallAccumulator) :=
  mkAccumulator (api_params a) (tools a) (language a) (final_tool_calls a) (called_fun a) (gave_pre_call_msg a) b.

Definition append_arguments (e : entry) (s : string) : entry :=
  Entry (e_index e) (e_id e) (e_name e) (e_arguments e +:+ s).

Definition one_delta (a : ToolCallAccumulator) (d : delta) : ToolCallAccumulator :=
  match dget (d_index d) (final_tool_calls a) with
  | None => set_calls (dset (d_index d) (Entry (d_index d) (d_id d) (d_name d) (default "" (d_arguments d)))
                            (final_tool_calls a)) (d_name d) a
  | Some e => set_calls (dset (d_index d) (append_arguments e (default "" (d_arguments d))) (final_tool_calls a))
                        (called_fun a) a
  end.

Definition process_delta (l : list delta) (a : ToolCallAccumulator) : ToolCallAccumulator := foldl one_delta a l.

Definition opt_true (s : option string) : bool := match s with Some s => str_true s | None => false end.

Definition get_pre_call_message (detected_language : option string) (a : ToolCallAccumulator)
    : ToolCallAccumulator * option (option string * string * option message_config) :=
  match called_fun a with
  | Some f =>
      if gave_pre_call_msg a || received_textual a || negb (str_true f) || startswith f END_CALL_FUNCTION_PREFIX
      then (a, None)
      else let configured := match dget f (api_params a) with Some p => a_pre_call_message p | None => None end in
           let active := match detected_language with
                         | Some l => if str_true l then l else language a
                         | None => language a end in
           (set_gave true a, Some (compute_function_pre_call_message active (Some f) configured, f, configured))
  | None => (a, None)
  end.

(** ** The payload *)
Inductive exn : Type := KeyError | ValueError | TypeError | AttributeError | ValidationError.

Definition opt_val (o : option string) : val := match o with Some s => VStr s | None => VNone end.

Definition entry_val (e : entry) : val :=
  VDict [("index", VInt (e_index e)); ("id", opt_val (e_id e));
         ("function", VDict [("name", opt_val (e_name e)); ("arguments", VStr (e_arguments e))]);
         ("type", VStr "function")].

(** [FunctionCallPayload(...)]: the fields, in their order. *)
Definition function_call_payload (p : APIParams) (model_args meta_info : dict string val) (name : string)
    (calls : dict Z entry) (call_id : string) (textual : option string) : dict string val :=
  [("url", opt_val (a_url p));
   ("method", match a_method p with Some m => if str_true m then VStr (lower m) else VNone | None => VNone end);
   ("param", a_param p); ("api_token", opt_val (a_api_token p)); ("headers", a_headers p);
   ("model_args", VDict model_args); ("meta_info", VDict meta_info); ("called_fun", VStr name);
   ("model_response", VList (map entry_val (dvalues calls))); ("tool_call_id", VStr call_id);
   ("textual_response", opt_val textual); ("resp", VNone)].

Definition payload_fields : list string :=
  ["url"; "method"; "param"; "api_token"; "headers"; "model_args"; "meta_info"; "called_fun"; "model_response";
   "tool_call_id"; "textual_response"; "resp"].

(** [setattr]: a field or an extra; a name with a leading underscore is no part of
    the dump. *)
Definition set_attr (payload : dict string val) (kv : string * val) : dict string val :=
  if startswith kv.1 "_" then payload else dset kv.1 kv.2 payload.

(** [k in parsed] *)
Definition contains_key (k : string) (parsed : val) : result exn bool :=
  match parsed with
  | VDict d => Ok (dhas k d)
  | VList l => Ok (val_in (VStr k) l)
  | VStr s => Ok (contains s k)
  | _ => Err TypeError
  end.

(** [all(k in parsed for k in required)] *)
Fixpoint all_present (required : list string) (parsed : val) : result exn bool :=
  match required with
  | [] => Ok true
  | k :: required' =>
      match contains_key k parsed with
      | Ok true => all_present required' parsed
      | r => r
      end
  end.

Definition is_headers (v : val) : bool := match v with VNone | VDict _ => true | _ => false end.

(** The merge of the parsed arguments into the payload. *)
Definition merge_arguments (payload : dict string val) (spec : option tool_spec) (arguments : string)
    : result exn (dict string val) :=
  match spec with
  | None => Ok (dset "resp" VNone payload)
  | Some t =>
      match Json.loads arguments with
      | None => Ok (dset "resp" VNone payload)
      | Some parsed =>
          match s_required t with
          | None => Ok (dset "resp" VNone payload)
          | Some required =>
              match all_present required parsed with
              | Err e => Err e
              | Ok false => Ok (dset "resp" VNone payload)
              | Ok true =>
                  match parsed with
                  | VDict args => Ok (foldl set_attr payload args)
                  | _ => Err AttributeError
                  end
              end
          end
      end
  end.

Definition build_api_payload (model_args meta_info : dict string val) (answer : string) (a : ToolCallAccumulator)
    : ToolCallAccumulator * result exn (option (dict string val)) :=
  match final_tool_calls a with
  | [] => (a, Ok None)
  | calls =>
      match dget 0 calls with
      | None => (a, Err KeyError)
      | Some e =>
          match e_name e with
          | None => (a, Ok None)
          | Some name =>
              match dget name (api_params a) with
              | None => (a, Ok None)
              | Some p =>
                  (set_gave false a,
                   match e_id e with
                   | None => Err ValidationError
                   | Some call_id =>
                       if is_headers (a_headers p) then
                         match merge_arguments
                                 (function_call_payload p model_args meta_info name calls call_id
                                    (if received_textual a then Some (strip answer) else None))
                                 (List.find (fun t => bool_decide (s_name t = name)) (tools a)) (e_arguments e) with
                         | Ok payload => Ok (Some payload)
                         | Err e => Err e
                         end
                       else Err ValidationError
                   end)
              end
          end
      end
  end.

(** ** Markers: [{"$var": name}] in a template of JSON values *)
Fixpoint contains_var_markers (v : val) : bool :=
  match v with
  | VDict d => dhas "$var" d || (fix go (d : dict string val) : bool :=
                                   match d with [] => false | (_, x) :: d' => contains_var_markers x || go d' end) d
  | VList l => (fix go (l : list val) : bool := match l with [] => false | x :: l' => contains_var_markers x || go l' end) l
  | _ => false
  end.

(** The name a marker asks for, when the object is a marker. *)
Definition marker (d : dict string val) : option val :=
  match d with [(k, name)] => if decide (k = "$var") then Some name else None | _ => None end.

(** [None]: the name is no hashable value. *)
Definition marker_value (name : val) (values : dict string val) : result exn (option val) :=
  match name with
  | VStr s => Ok (dget s values)
  | VList _ | VDict _ => Err TypeError
  | _ => Ok None
  end.

(** The comprehensions over a list and over a dictionary. *)
Definition each (f : val -> result exn val) : list val -> result exn (list val) :=
  fix go l := match l with
              | [] => Ok []
              | x :: l' => match f x with
                           | Err e => Err e
                           | Ok y => match go l' with Ok l2 => Ok (y :: l2) | Err e => Err e end
                           end
              end.
Definition each_value (f : val -> result exn val) : dict string val -> result exn (dict string val) :=
  fix go d := match d with
              | [] => Ok []
              | (k, x) :: d' => match f x with
                                | Err e => Err e
                                | Ok y => match go d' with Ok d2 => Ok ((k, y) :: d2) | Err e => Err e end
                                end
              end.

Fixpoint substitute_var_markers (obj : val) (values : dict string val) : result exn val :=
  match obj with
  | VDict d =>
      match marker d with
      | Some name =>
          match marker_value name values with
          | Err e => Err e
          | Ok (Some v) => Ok v
          | Ok None => Ok obj
          end
      | None => match each_value (fun x => substitute_var_markers x values) d with
                | Ok d2 => Ok (VDict d2)
                | Err e => Err e
                end
      end
  | VList l => match each (fun x => substitute_var_markers x values) l with Ok l2 => Ok (VList l2) | Err e => Err e end
  | v => Ok v
  end.

(** ** Templates with [%(name)s], and the prepared request *)
Section requests.
Context (str_other : val -> string) (float_repr : Q -> string).
(** What a conversion other than a plain [s] makes of a value, and what a
    conversion without a name makes of the whole mapping; [None]: it raises. *)
Context (convert : text -> val -> option text) (convert_all : text -> dict string val -> option text).

(** [str(v)] *)
Definition py_str (v : val) : string :=
  match v with
  | VNone => "None"
  | VBool b => if b then "True" else "False"
  | VInt z => str_of_Z z
  | VStr s => s
  | _ => str_other v
  end.

(** The name between the parentheses, which may nest. *)
Fixpoint mapping_key (depth : nat) (l : text) : option (text * text) :=
  match l with
  | [] => None
  | c :: l' =>
      let grow d := match mapping_key d l' with Some (k, r) => Some (c :: k, r) | None => None end in
      if decide (c = "("%char) then grow (S depth)
      else if decide (c = ")"%char) then match depth with O => Some ([], l') | S d => grow d end
      else grow depth
  end.

(** Flags, width, precision and length, then the conversion character. *)
Fixpoint conversion (l : text) : option (text * text) :=
  match l with
  | [] => None
  | c :: l' =>
      if bool_decide (c ∈ chars "#0- +123456789.*hlL")
      then match conversion l' with Some (spec, r) => Some (c :: spec, r) | None => None end
      else Some ([c], l')
  end.

Definition converted (spec : text) (v : val) : option text :=
  if decide (spec = ["s"%char]) then Some (chars (py_str v)) else convert spec v.

(** [template % values]; [used] once a nameless conversion took the mapping. *)
Fixpoint format_map (fuel : nat) (used : bool) (l : text) (values : dict string val) : result exn text :=
  match fuel with
  | O => Err ValueError
  | S f =>
      let more w r used := match format_map f used r values with Ok t => Ok (w ++ t) | Err e => Err e end in
      match l with
      | [] => Ok []
      | c :: l1 =>
          if negb (bool_decide (c = "%"%char)) then more [c] l1 used
          else match l1 with
               | [] => Err ValueError
               | d :: l2 =>
                   if bool_decide (d = "%"%char) then more ["%"%char] l2 used
                   else if bool_decide (d = "("%char) then
                     match mapping_key 0 l2 with
                     | None => Err ValueError
                     | Some (key, l3) =>
                         match dget (of_chars key) values with
                         | None => Err KeyError
                         | Some v =>
                             match conversion l3 with
                             | None => Err ValueError
                             | Some (spec, l4) =>
                                 match converted spec v with Some w => more w l4 used | None => Err TypeError end
                             end
                         end
                     end
                   else match conversion l1 with
                        | None => Err ValueError
                        | Some (spec, l4) =>
                            if used then Err TypeError
                            else match convert_all spec values with Some w => more w l4 true | None => Err TypeError end
                        end
               end
      end
  end.

Definition format (template : string) (values : dict string val) : result exn string :=
  let l := chars template in
  match format_map (S (length l)) false l values with Ok t => Ok (of_chars t) | Err e => Err e end.

Definition json_value (v : val) : val :=
  match v with VList _ | VDict _ => VStr (Json.dumps float_repr v) | v => v end.

(** The body of a text template, and the parameters it reads back as. *)
Definition text_body (template : string) (values : dict string val) : result exn (option string * option val) :=
  match format template (map (fun kv => (kv.1, json_value kv.2)) values) with
  | Ok body => match Json.loads body with Some v => Ok (Some body, Some v) | None => Err ValueError end
  | Err e => Err e
  end.

Definition prepare_body (param : val) (values : dict string val) : result exn (option string * option val) :=
  if negb (truthy param) then Ok (None, None)
  else match param with
       | VDict d =>
           if contains_var_markers param then
             match substitute_var_markers param values with
             | Ok v => Ok (Some (Json.dumps float_repr v), Some v)
             | Err e => Err e
             end
           else text_body (Json.dumps float_repr param) values
       | VStr s => text_body s values
       | _ => Err TypeError
       end.

Record prepared := Prepared {
  request_body : option string;
  request_params : option val;
  headers : dict string val;
  form : bool }.

Definition prepare_api_request (param : val) (api_token : option string) (headers_data : val) (values : dict string val)
    : result exn prepared :=
  match prepare_body param values with
  | Err e => Err e
  | Ok (body, params) =>
      let h := [("Content-Type", VStr "application/json")] in
      let h := match api_token with Some t => if str_true t then dset "Authorization" (VStr t) h else h | None => h end in
      let h := match headers_data with VDict d => dupdate h d | _ => h end in
      match dget "Content-Type" h with
      | Some (VStr t) => Ok (Prepared body params h (startswith (lower t) "application/x-www-form-urlencoded"))
      | _ => Err AttributeError
      end
  end.

(** ** [build_get_url] *)
Definition utf8_char (c : ascii) : list nat :=
  let n := Stdlib.Strings.Ascii.nat_of_ascii c in
  if (n <? 128)%nat then [n] else [192 + n / 64; 128 + n mod 64]%nat.

Definition unreserved (n : nat) : bool :=
  (((65 <=? n) && (n <=? 90)) || ((97 <=? n) && (n <=? 122)) || ((48 <=? n) && (n <=? 57)) ||
   bool_decide (n ∈ [95; 46; 45; 126]))%nat.

Definition upper_hex (n : nat) : ascii := Stdlib.Strings.Ascii.ascii_of_nat (if (n <? 10)%nat then n + 48 else n + 55)%nat.

Definition quote_byte (n : nat) : text :=
  if unreserved n then [Stdlib.Strings.Ascii.ascii_of_nat n]
  else ["%"%char; upper_hex (n / 16); upper_hex (n mod 16)].

(** [quote(s, safe="")] *)
Definition quote (s : string) : text := concat (map quote_byte (concat (map utf8_char (chars s)))).

Fixpoint join_text (sep : text) (l : list text) : text :=
  match l with
  | [] => []
  | [x] => x
  | x :: l' => x ++ sep ++ join_text sep l'
  end.

Definition query_string (params : dict string val) : text :=
  join_text ["&"%char] (map (fun kv => quote kv.1 ++ ["="%char] ++ quote (py_str kv.2)) params).

Definition build_get_url (url : string) (params : option val) : result exn string :=
  match params with
  | Some v =>
      if truthy v then
        match v with
        | VDict d => Ok (url +:+ (if contains url "?" then "&" else "?") +:+ of_chars (query_string d))
        | _ => Err AttributeError
        end
      else Ok url
  | None => Ok url
  end.

(** [normalize_for_form] *)
Definition form_value (v : val) : string :=
  match v with VList _ | VDict _ => Json.dumps float_repr v | v => py_str v end.
Definition normalize_for_form (params : option val) : result exn (dict string string) :=
  match params with
  | Some (VDict d) => Ok (map (fun kv => (kv.1, form_value kv.2)) d)
  | _ => Err AttributeError
  end.

(** ** [trigger_api] *)
Inductive body : Type := NoBody | JsonBody (v : val) | FormBody (d : dict string string).

Record http_request := Http {
  q_get : bool;
  q_url : string;
  q_headers : dict string val;
  q_body : body;
  q_timeout_s : Z;
  q_redirects : bool }.

Record http_response := Response { rs_status : Z; rs_text : string; rs_content_type : option string }.

(** What ends a request early. *)
Inductive failure : Type :=
| Timeout
| Failed (e : string)
| Python (e : exn)
| Unsupported
| Blocked
| UrlInvalid
| Cancelled.

Inductive event : Type :=
| EResolve (host : string) (port : option Z) (a : UrlGuard.answer)
| EHttp (q : http_request) (r : result failure http_response).

Definition trace := list event.
Definition tx := SE trace failure.

Record environment := Environment {
  env_resolve : trace -> string -> option Z -> UrlGuard.answer;
  env_http : trace -> http_request -> result failure http_response }.

Context (E : environment) `{UrlGuard.Interpreter} (allowlisted : list string).

(** The guard asks the resolver for the host of the URL it reads. *)
Definition validate (url : val) : tx unit := fun tr =>
  let asked := match url with
               | VStr s => match UrlGuard.urlsplit (strip s) with
                           | Some parsed =>
                               match UrlGuard.hostname parsed, UrlGuard.port parsed with
                               | Some host, Ok p =>
                                   if bool_decide (lower (UrlGuard.scheme parsed) ∈ UrlGuard.ALLOWED_URL_SCHEMES) &&
                                      negb (bool_decide (lower host ∈ allowlisted)) &&
                                      str_true (strip s)
                                   then [EResolve host p (env_resolve E tr host p)] else []
                               | _, _ => []
                               end
                           | None => []
                           end
               | _ => []
               end in
  (tr ++ asked,
   match UrlGuard.validate_outbound_url allowlisted (env_resolve E tr) url with
   | Ok _ => Ok tt
   | Err UrlGuard.SSRFError => Err Blocked
   | Err UrlGuard.UrlError => Err UrlInvalid
   end).

Definition send (q : http_request) : tx http_response :=
  fun tr => (tr ++ [EHttp q (env_http E tr q)], env_http E tr q).

Definition lift {A} (r : result exn A) : tx A :=
  match r with Ok a => se_ret a | Err e => se_raise (Python e) end.

Definition API_TIMEOUT_S : Z := 10.

(** The request a method and a prepared request stand for. *)
Definition request_of (url : string) (method : string) (p : prepared) : result failure http_request :=
  if decide (lower method = "get") then
    match build_get_url url (request_params p) with
    | Ok u => Ok (Http true u (headers p) NoBody API_TIMEOUT_S false)
    | Err e => Err (Python e)
    end
  else if decide (lower method = "post") then
    if form p then
      match normalize_for_form (request_params p) with
      | Ok d => Ok (Http false url (headers p) (FormBody d) API_TIMEOUT_S false)
      | Err e => Err (Python e)
      end
    else Ok (Http false url (headers p) (JsonBody (default VNone (request_params p))) API_TIMEOUT_S false)
  else Err Unsupported.

(** The answer of [trigger_api] with its metadata; [why] tells an answer apart that
    stands for an error. *)
Record api_answer := Answer {
  status_code : option Z;
  api_body : string;
  content_type : option string;
  why : option failure }.

Definition call_api (url : val) (method : string) (param : val) (api_token : option string) (headers_data : val)
    (values : dict string val) : tx api_answer :=
  validate url ;;;
  p <- lift (prepare_api_request param api_token headers_data values) ;;
  match request_of (match url with VStr s => s | _ => "" end) method p with
  | Err e => se_raise e
  | Ok q => r <- send q ;;
            se_ret (Answer (Some (rs_status r)) (rs_text r) (rs_content_type r) None)
  end.

Context (text_of : failure -> string).

Definition error_body (url : val) (e : failure) : string :=
  match e with
  | Blocked => "ERROR CALLING API: request blocked by outbound URL policy"
  | Timeout => "ERROR CALLING API: Request to " +:+ py_str url +:+ " timed out after 10 seconds"
  | e => "ERROR CALLING API: Please check your API: " +:+ text_of e
  end.

Definition trigger_api (url : val) (method : string) (param : val) (api_token : option string) (headers_data : val)
    (values : dict string val) : tx api_answer :=
  fun tr => match call_api url method param api_token headers_data values tr with
            | (tr', Err Cancelled) => (tr', Err Cancelled)
            | (tr', Err e) => (tr', Ok (Answer None (error_body url e) None (Some e)))
            | ok => ok
            end.
End requests.

(** ** The accumulated calls *)
Definition of_index (i : Z) (l : list delta) : list delta := List.filter (fun d => bool_decide (d_index d = i)) l.

Definition texts (l : list delta) : string := join "" (map (fun d => default "" (d_arguments d)) l).

(** The call with index [i]: the identity of its first delta, the arguments of all. *)
Definition collected (i : Z) (l : list delta) : option entry :=
  match of_index i l with
  | [] => None
  | d :: ds => Some (Entry i (d_id d) (d_name d) (texts (d :: ds)))
  end.

(** The indices in the order of their first delta. *)
Definition first_seen (l : list delta) : list Z :=
  foldl (fun seen d => if bool_decide (d_index d ∈ seen) then seen else seen ++ [d_index d]) [] l.

(** The name of the last delta that opened a call. *)
Definition opened (l : list delta) : option string :=
  (foldl (fun acc d => if bool_decide (d_index d ∈ acc.1) then acc else (acc.1 ++ [d_index d], d_name d)) ([], None) l).2.

Lemma chars_inj s t : chars s = chars t -> s = t.
Proof. intros H. by rewrite <- (of_chars_chars s), H, of_chars_chars. Qed.

Lemma texts_snoc l d : texts (l ++ [d]) = texts l +:+ default "" (d_arguments d).
Proof. apply chars_inj. unfold texts. rewrite chars_app, !join_nil_sep, !map_app, concat_app. simpl. by rewrite app_nil_r. Qed.

Lemma of_index_snoc i l d : of_index i (l ++ [d]) = of_index i l ++ if bool_decide (d_index d = i) then [d] else [].
Proof. unfold of_index. rewrite List.filter_app. simpl. by case_bool_decide. Qed.

Lemma collected_snoc i l d : collected i (l ++ [d]) =
  if bool_decide (d_index d = i)
  then Some (match collected i l with
             | None => Entry i (d_id d) (d_name d) (default "" (d_arguments d))
             | Some e => append_arguments e (default "" (d_arguments d))
             end)
  else collected i l.
Proof.
  unfold collected. rewrite of_index_snoc. case_bool_decide; [|by rewrite app_nil_r].
  destruct (of_index i l) as [|d' ds]; [done|]. change ((d' :: ds) ++ [d]) with (d' :: ds ++ [d]).
  cbn [app]. by rewrite (app_comm_cons ds [d] d'), texts_snoc.
Qed.

Lemma first_seen_snoc l d : first_seen (l ++ [d]) =
  if bool_decide (d_index d ∈ first_seen l) then first_seen l else first_seen l ++ [d_index d].
Proof. unfold first_seen. by rewrite foldl_app. Qed.

Lemma process_snoc l d a : process_delta (l ++ [d]) a = one_delta (process_delta l a) d.
Proof. unfold process_delta. by rewrite foldl_app. Qed.

Lemma collected_None i l : collected i l = None <-> i ∉ first_seen l.
Proof.
  induction l as [|d l IH] using rev_ind; [unfold first_seen; simpl; set_solver|].
  rewrite collected_snoc, first_seen_snoc. case_bool_decide as Hd.
  - subst i. split; [done|]. intros []. case_bool_decide; set_solver.
  - rewrite IH. case_bool_decide; set_solver.
Qed.

Lemma one_delta_keys a d : dkeys (final_tool_calls (one_delta a d)) =
  if bool_decide (d_index d ∈ dkeys (final_tool_calls a)) then dkeys (final_tool_calls a)
  else dkeys (final_tool_calls a) ++ [d_index d].
Proof.
  unfold one_delta. destruct (dget _ _) as [e|] eqn:Hg; cbn [final_tool_calls set_calls]; rewrite dset_keys; unfold dhas; rewrite Hg.
  - apply dget_Some_elem, (list_elem_of_fmap_2 fst) in Hg. by rewrite bool_decide_true.
  - apply dget_None in Hg. by rewrite bool_decide_false.
Qed.

Lemma process_keys l params tools lang : dkeys (final_tool_calls (process_delta l (create params tools lang))) = first_seen l.
Proof. induction l as [|d l IH] using rev_ind; [done|]. by rewrite process_snoc, first_seen_snoc, one_delta_keys, IH. Qed.

Lemma one_delta_fun a d : called_fun (one_delta a d) =
  if bool_decide (d_index d ∈ dkeys (final_tool_calls a)) then called_fun a else d_name d.
Proof.
  unfold one_delta. destruct (dget _ _) as [e|] eqn:Hg; cbn [called_fun set_calls].
  - apply dget_Some_elem, (list_elem_of_fmap_2 fst) in Hg. by rewrite bool_decide_true.
  - apply dget_None in Hg. by rewrite bool_decide_false.
Qed.

Lemma process_get l params tools lang i : dget i (final_tool_calls (process_delta l (create params tools lang))) = collected i l.
Proof.
  induction l as [|d l IH] using rev_ind; [done|]. rewrite process_snoc, collected_snoc, <- IH.
  unfold one_delta. destruct (dget (d_index d) _) as [e|] eqn:Hg; cbn [final_tool_calls set_calls];
    rewrite dget_dset; case_decide as Hi; subst; rewrite ?bool_decide_true, ?bool_decide_false by done; try done; by rewrite Hg.
Qed.

(** The streamed pieces of the tool calls are put together exactly: under each
    index stands the identifier and name of the first piece with that index and the
    concatenation of the arguments of all of them, however the pieces of several
    calls were interleaved, and the calls stand in the order in which they opened. *)
Theorem accumulated_exact l params tools lang :
  let a := process_delta l (create params tools lang) in
  (forall i, dget i (final_tool_calls a) = collected i l) /\ dkeys (final_tool_calls a) = first_seen l /\
  called_fun a = opened l.
Proof.
  cbv zeta. split_and!; [apply process_get|apply process_keys|].
  - assert (Hf : forall l, (foldl (fun acc d => if bool_decide (d_index d ∈ acc.1) then acc else (acc.1 ++ [d_index d], d_name d))
                ([], None) l) = (first_seen l, called_fun (process_delta l (create params tools lang)))); [|by unfold opened; rewrite Hf].
    clear l. intros l. induction l as [|d l IH] using rev_ind; [done|].
    rewrite foldl_app, process_snoc, first_seen_snoc, one_delta_fun, process_keys, IH. cbn [foldl fst]. by case_bool_decide.
Qed.

(** ** Which value a field of the payload gets *)
(** The configured fields, with the arguments of the model over them. *)
Definition over (configured args : dict string val) (k : string) : option val :=
  if startswith k "_" then dget k configured
  else match dget k args with Some v => Some v | None => dget k configured end.

Lemma merged_get k : forall args configured, dwf args -> dget k (foldl set_attr configured args) = over configured args k.
Proof.
  unfold over. induction args as [|[k1 v1] args IH]; intros configured Hw; [simpl; by case_match|].
  apply NoDup_cons in Hw as [Hn Hw]. cbn [foldl dget]. rewrite IH by done. unfold set_attr at 1 2. cbn [fst snd].
  destruct (startswith k1 "_") eqn:H1.
  - destruct (startswith k "_") eqn:Hk; [done|]. rewrite decide_False; [done|]. intros ->. congruence.
  - rewrite dget_dset. destruct (startswith k "_") eqn:Hk.
    + rewrite decide_False; [done|]. intros ->. congruence.
    + case_decide; [|done]. subst k1. cbn [fst] in Hn. apply dget_None in Hn. by rewrite Hn.
Qed.

Lemma all_present_dict required args :
  all_present required (VDict args) = Ok (forallb (fun k => dhas k args) required).
Proof. induction required as [|k required IH]; [done|]. cbn. by destruct (dhas k args). Qed.

(** The payload of a call is what the tool configures with the arguments of the
    model laid over it: whatever pieces the arguments came in, when they read as an
    object with the required names, each field that the object names (and that does
    not start with an underscore) has the model's value, any other the configured
    one. When a required name is missing the payload is the configured one. *)
Theorem payload_exact params tools lang textual l e name p call_id t required args model_args meta_info answer :
  let a := set_received textual (process_delta l (create params tools lang)) in
  let configured := function_call_payload p model_args meta_info name (final_tool_calls a) call_id
                      (if textual then Some (strip answer) else None) in
  collected 0 l = Some e -> e_name e = Some name -> dget name params = Some p -> e_id e = Some call_id ->
  is_headers (a_headers p) = true -> List.find (fun t => bool_decide (s_name t = name)) tools = Some t ->
  s_required t = Some required -> Json.loads (e_arguments e) = Some (VDict args) ->
  exists payload, build_api_payload model_args meta_info answer a = (set_gave false a, Ok (Some payload)) /\
    forall k, dget k payload =
      if forallb (fun r => dhas r args) required then over configured args k
      else dget k configured.
Proof.
  cbv zeta. intros Hc Hn Hp Hi Hh Ht Hr Hl. set (a := process_delta l (create params tools lang)).
  set (a' := set_received textual a).
  assert (Ha : api_params a = params /\ ToolCalls.tools a = tools).
  { unfold a. clear. induction l as [|d l IH] using rev_ind; [done|]. rewrite process_snoc. unfold one_delta. by case_match. }
  destruct Ha as (Hap & Hat). unfold build_api_payload. change (final_tool_calls a') with (final_tool_calls a).
  change (api_params a') with (api_params a). change (ToolCalls.tools a') with (ToolCalls.tools a).
  assert (Hg : dget 0 (final_tool_calls a) = Some e) by (unfold a; by rewrite process_get).
  destruct (final_tool_calls a) as [|c cs] eqn:Hcs; [done|]. rewrite Hg, Hn, Hap, Hp, Hi, Hh, Hat, Ht.
  unfold merge_arguments. rewrite Hl, Hr, all_present_dict. destruct (forallb _ required).
  - eexists. split; [done|]. intros k. apply merged_get. by eapply Json.loads_keys.
  - eexists. split; [done|]. intros k. rewrite dget_dset. case_decide as Hk; [by rewrite Hk|done].
Qed.

(** ** The query of a GET request reads back *)
(** Percent-decoding, and UTF-8 decoding of the code points of one byte. *)
Fixpoint unquote (l : text) : option (list nat) :=
  match l with
  | [] => Some []
  | c :: l1 =>
      if bool_decide (c = "%"%char) then
        match l1 with
        | h1 :: h2 :: l2 =>
            match Json.hex_digit h1, Json.hex_digit h2 with
            | Some a, Some b => cons (16 * a + b)%nat <$> unquote l2
            | _, _ => None
            end
        | _ => None
        end
      else cons (Stdlib.Strings.Ascii.nat_of_ascii c) <$> unquote l1
  end.

Fixpoint decode (l : list nat) : option text :=
  match l with
  | [] => Some []
  | n :: l1 =>
      if (n <? 128)%nat then cons (Stdlib.Strings.Ascii.ascii_of_nat n) <$> decode l1
      else match l1 with
           | m :: l2 => cons (Stdlib.Strings.Ascii.ascii_of_nat ((n - 192) * 64 + (m - 128))) <$> decode l2
           | [] => None
           end
  end.

Definition read_part (l : text) : option string := of_chars <$> (unquote l ≫= decode).

Definition read_pair (l : text) : option (string * string) :=
  match split_on_chars "="%char [] l with
  | [k; v] => match read_part k, read_part v with Some k, Some v => Some (k, v) | _, _ => None end
  | _ => None
  end.

(** The pairs of a query. *)
Definition read_query (l : text) : option (list (string * string)) := mapM read_pair (split_on_chars "&"%char [] l).

(** What a byte is written as. *)
Definition byte_written (n : nat) : bool :=
  match quote_byte n with
  | [c] => negb (bool_decide (c ∈ ["%"%char; "&"%char; "="%char])) && (Stdlib.Strings.Ascii.nat_of_ascii c =? n)%nat
  | [p; h1; h2] =>
      bool_decide (p = "%"%char) && negb (bool_decide (h1 ∈ ["&"%char; "="%char] \/ h2 ∈ ["&"%char; "="%char])) &&
      match Json.hex_digit h1, Json.hex_digit h2 with Some a, Some b => (16 * a + b =? n)%nat | _, _ => false end
  | _ => false
  end.

Lemma bytes_written n : (n < 256)%nat -> byte_written n = true.
Proof.
  intros Hn. assert (Hall : forallb byte_written (seq 0 256) = true) by (vm_compute; reflexivity).
  rewrite forallb_forall in Hall. apply Hall, in_seq. lia.
Qed.

Lemma unquote_byte n l : (n < 256)%nat -> unquote (quote_byte n ++ l) = cons n <$> unquote l.
Proof.
  intros Hn. pose proof (bytes_written n Hn) as H. unfold byte_written in H.
  destruct (quote_byte n) as [|c [|h1 [|h2 [|]]]]; try done.
  - apply andb_prop in H as [H1 H2%Nat.eqb_eq]. apply negb_true_iff, bool_decide_eq_false in H1.
    cbn [app unquote]. rewrite bool_decide_eq_false_2 by set_solver. by rewrite H2.
  - apply andb_prop in H as [[H1 _]%andb_prop H2]. cbn [app unquote]. rewrite H1.
    destruct (Json.hex_digit h1); [|done]. destruct (Json.hex_digit h2); [|done]. by apply Nat.eqb_eq in H2 as ->.
Qed.

Lemma clean_byte n : (n < 256)%nat -> "&"%char ∉ quote_byte n /\ "="%char ∉ quote_byte n.
Proof.
  intros Hn. pose proof (bytes_written n Hn) as H. unfold byte_written in H.
  destruct (quote_byte n) as [|c [|h1 [|h2 [|]]]]; try done.
  - apply andb_prop in H as [H1 _]. apply negb_true_iff, bool_decide_eq_false in H1. set_solver.
  - apply andb_prop in H as [[H1 H2]%andb_prop _]. apply bool_decide_eq_true in H1 as ->.
    apply negb_true_iff, bool_decide_eq_false in H2. set_solver.
Qed.

Lemma utf8_bytes c n : n ∈ utf8_char c -> (n < 256)%nat.
Proof.
  assert (H : forallb (fun n => (n <? 256)%nat) (utf8_char c) = true) by (by destruct c as [[] [] [] [] [] [] [] []]; vm_compute).
  rewrite forallb_forall in H. intros Hn%list_elem_of_In. by apply H, Nat.ltb_lt in Hn.
Qed.

Lemma decode_char c l : decode (utf8_char c ++ l) = cons c <$> decode l.
Proof.
  unfold utf8_char. destruct (Nat.ltb_spec (Stdlib.Strings.Ascii.nat_of_ascii c) 128) as [Hl|Hl].
  - cbn [app decode]. apply Nat.ltb_lt in Hl as ->. by rewrite Stdlib.Strings.Ascii.ascii_nat_embedding.
  - pose proof (Stdlib.Strings.Ascii.nat_ascii_bounded c) as Hb. set (n := Stdlib.Strings.Ascii.nat_of_ascii c) in *.
    pose proof (Nat.div_mod_eq n 64) as Hd. cbn [app decode].
    destruct (Nat.ltb_spec (192 + n / 64) 128); [lia|].
    replace ((192 + n / 64 - 192) * 64 + (128 + n mod 64 - 128))%nat with n by lia.
    unfold n. by rewrite Stdlib.Strings.Ascii.ascii_nat_embedding.
Qed.

Lemma quote_bytes s : Forall (fun n => (n < 256)%nat) (concat (map utf8_char (chars s))).
Proof. apply Forall_concat, Forall_map, Forall_true. intros c. apply Forall_forall. intros n. apply utf8_bytes. Qed.

Lemma read_quote s : read_part (quote s) = Some s.
Proof.
  unfold read_part, quote. assert (Hu : forall bs, Forall (fun n => (n < 256)%nat) bs -> unquote (concat (map quote_byte bs)) = Some bs).
  { induction bs as [|b bs IH]; [done|]. intros [Hb Hbs]%Forall_cons. cbn [map concat]. by rewrite unquote_byte, IH. }
  rewrite Hu by apply quote_bytes. cbn [mbind option_bind].
  assert (Hd : forall l, decode (concat (map utf8_char l)) = Some l).
  { induction l as [|c l IH]; [done|]. cbn [map concat]. by rewrite decode_char, IH. }
  rewrite Hd. cbn. by rewrite of_chars_chars.
Qed.

Lemma quote_clean s : "&"%char ∉ quote s /\ "="%char ∉ quote s.
Proof.
  unfold quote. pose proof (quote_bytes s) as H. induction H as [|n l Hn _ [IH1 IH2]]; cbn [map concat]; [set_solver|].
  destruct (clean_byte n Hn). rewrite !not_elem_of_app. auto.
Qed.

Section queries.
Context (str_other : val -> string).

Definition query_part (kv : string * val) : text := quote kv.1 ++ ["="%char] ++ quote (py_str str_other kv.2).

Lemma read_query_part kv : read_pair (query_part kv) = Some (kv.1, py_str str_other kv.2) /\ "&"%char ∉ query_part kv.
Proof.
  unfold query_part, read_pair. destruct (quote_clean kv.1), (quote_clean (py_str str_other kv.2)). split.
  - cbn [app]. rewrite split_on_chars_app, split_on_chars_last by done.
    by rewrite !app_nil_r, !reverse_involutive, !read_quote.
  - rewrite !not_elem_of_app. split_and!; [done|set_solver|done].
Qed.

(** A GET request carries its parameters faithfully: the query that is put behind
    the configured URL splits at the ampersands and equal signs into exactly the
    parameters, in their order, and each name and value reads back by
    percent-decoding, whatever characters it holds; the configured URL itself is
    passed on unchanged. *)
Theorem query_roundtrip url d : d <> [] ->
  exists q, build_get_url str_other url (Some (VDict d)) = Ok (url +:+ (if contains url "?" then "&" else "?") +:+ of_chars q) /\
    read_query q = Some (map (fun kv => (kv.1, py_str str_other kv.2)) d).
Proof.
  intros Hd. exists (query_string str_other d). split; [by destruct d|].
  unfold query_string, read_query. change (map _ d) with (map query_part d) at 1. clear url.
  induction d as [|kv d IH]; [done|]. destruct (read_query_part kv) as [Hr Hc]. destruct d as [|kv' d].
  - cbn [map join_text]. rewrite split_on_chars_last by done. cbn [mapM]. by rewrite app_nil_r, reverse_involutive, Hr.
  - change (join_text ["&"%char] (map query_part (kv :: kv' :: d)))
      with (query_part kv ++ "&"%char :: join_text ["&"%char] (map query_part (kv' :: d))).
    rewrite split_on_chars_app by done. cbn [mapM]. rewrite IH by done.
    by rewrite app_nil_r, reverse_involutive, Hr.
Qed.
End queries.
(** ** Templates with markers *)
Inductive step : Type := Key (k : string) | At (n : nat).

Definition down (s : step) (v : val) : option val :=
  match s, v with
  | Key k, VDict d => dget k d
  | At n, VList l => l !! n
  | _, _ => None
  end.

Fixpoint at_path (p : list step) (v : val) : option val :=
  match p with [] => Some v | s :: p' => down s v ≫= at_path p' end.

(** A place of the template: a marker is not entered. *)
Fixpoint place (p : list step) (v : val) : option val :=
  match p with
  | [] => Some v
  | s :: p' =>
      match v with
      | VDict d => match marker d with Some _ => None | None => down s v ≫= place p' end
      | _ => down s v ≫= place p'
      end
  end.

(** What a marker or a leaf of the template becomes. *)
Definition filled (values : dict string val) (x : val) : option val :=
  match x with
  | VDict d => match marker d with
               | Some (VStr n) => Some (default x (dget n values))
               | Some (VList _) | Some (VDict _) => None
               | Some _ => Some x
               | None => None
               end
  | VList _ => None
  | x => Some x
  end.

Lemma each_value_get f d d2 k x : each_value f d = Ok d2 -> dget k d = Some x -> exists y, dget k d2 = Some y /\ f x = Ok y.
Proof.
  revert d2. induction d as [|[k1 x1] d IH]; [done|]. intros d2. cbn [each_value dget].
  destruct (f x1) as [y|] eqn:Ef; [|done]. fold (each_value f). destruct (each_value f d) as [d3|] eqn:E; [|done].
  intros [= <-]. cbn [dget]. case_decide; [intros [= <-]; eauto|]. by apply IH.
Qed.

Lemma each_get f l l2 n x : each f l = Ok l2 -> l !! n = Some x -> exists y, l2 !! n = Some y /\ f x = Ok y.
Proof.
  revert l2 n. induction l as [|x1 l IH]; [done|]. intros l2 n. cbn [each].
  destruct (f x1) as [y|] eqn:Ef; [|done]. fold (each f). destruct (each f l) as [l3|] eqn:E; [|done].
  intros [= <-]. destruct n as [|n]; cbn; [intros [= <-]; eauto|]. by apply IH.
Qed.

Lemma place_substituted p : forall obj values v x, substitute_var_markers obj values = Ok v -> place p obj = Some x ->
  exists y, at_path p v = Some y /\ substitute_var_markers x values = Ok y.
Proof.
  induction p as [|s p IH]; intros obj values v x Hs Hp; [by exists v; simplify_eq/=|].
  destruct obj as [| | | | |l|d]; try (by destruct s).
  - cbn [substitute_var_markers] in Hs. destruct (each _ l) as [l2|] eqn:E; [|done]. injection Hs as <-.
    destruct s as [k|n]; [done|]. cbn in Hp. destruct (l !! n) as [x1|] eqn:Hl; [|done]. cbn in Hp.
    destruct (each_get _ _ _ _ _ E Hl) as (y & Hy & Hxy). cbn. rewrite Hy. cbn. by eapply IH.
  - cbn [substitute_var_markers] in Hs. cbn [place] in Hp. destruct (marker d); [done|].
    destruct (each_value _ d) as [d2|] eqn:E; [|done]. injection Hs as <-.
    destruct s as [k|n]; [|done]. cbn [down] in Hp. destruct (dget k d) as [x1|] eqn:Hl; [|done]. cbn in Hp.
    destruct (each_value_get _ _ _ _ _ E Hl) as (y & Hy & Hxy). cbn. rewrite Hy. cbn. by eapply IH.
Qed.

Lemma filled_substituted values x y : filled values x = Some y -> substitute_var_markers x values = Ok y.
Proof.
  destruct x as [| | | | |l|d]; cbn [filled substitute_var_markers]; try (by intros [= <-]).
  destruct (marker d) as [[]|]; cbn [marker_value]; try done; try (by intros [= <-]).
  intros [= <-]. by destruct (dget s values).
Qed.

(** A template with markers is filled in without touching its structure: the
    parameters sent are the template in which each marker, at whatever place, has
    become the whole value of its name (or stays, when the model gave none) and each
    other leaf is as configured; and the body that is logged reads back as exactly
    these parameters, so that no text of the model can reach outside its place. *)
Theorem template_exact float_repr str_other convert convert_all d values body v :
  contains_var_markers (VDict d) = true ->
  prepare_body str_other float_repr convert convert_all (VDict d) values = Ok (body, Some v) ->
  (forall p x y, place p (VDict d) = Some x -> filled values x = Some y -> at_path p v = Some y) /\
  exists s, body = Some s /\ (Json.plain v = true -> Json.loads s = Some v).
Proof.
  intros Hm. unfold prepare_body. destruct (truthy (VDict d)) eqn:Ht; [|done]. cbn [negb]. rewrite Hm.
  destruct (substitute_var_markers (VDict d) values) as [v'|] eqn:Hs; [|done]. intros [= <- <-]. split.
  - intros p x y Hp Hf. destruct (place_substituted _ _ _ _ _ Hs Hp) as (y' & Hy & Hx).
    rewrite (filled_substituted _ _ _ Hf) in Hx. by simplify_eq.
  - eexists. split; [done|]. apply Json.loads_dumps.
Qed.
(** ** Requests behind the guard *)
Section sent.
Context (str_other : val -> string) (float_repr : Q -> string).
Context (convert : text -> val -> option text) (convert_all : text -> dict string val -> option text).
Context (E : environment) `{UrlGuard.Registry} (allowlisted : list string) (text_of : failure -> string).

Definition cleared (url : val) (asked : trace) (q : http_request) : Prop :=
  exists s parsed host more, url = VStr s /\ q_url q = s +:+ more /\ q_redirects q = false /\ q_timeout_s q = 10 /\
    UrlGuard.urlsplit (strip s) = Some parsed /\ UrlGuard.hostname parsed = Some host /\
    lower (UrlGuard.scheme parsed) ∈ ["http"; "https"] /\
    (lower host ∈ allowlisted \/
     exists p l, asked = [EResolve host p (UrlGuard.Addresses l)] /\
       Forall (fun a => exists ip, UrlGuard.ip_address a = Some ip /\ UrlGuard.external ip) l).

Lemma validate_asks url tr : exists asked, (validate E allowlisted url tr).1 = tr ++ asked /\
  (forall q r, EHttp q r ∉ asked) /\
  ((validate E allowlisted url tr).2 = Ok tt -> exists s, url = VStr s /\
     forall q more, q_url q = s +:+ more -> q_redirects q = false -> q_timeout_s q = 10 -> cleared url asked q).
Proof.
  unfold validate. cbn [fst snd]. eexists. split; [done|]. split.
  - intros q r Hin. repeat case_match; try (by apply not_elem_of_nil in Hin). by apply list_elem_of_singleton in Hin.
  - destruct (UrlGuard.validate_outbound_url allowlisted (env_resolve E tr) url) as [[]|[]] eqn:Hv; [|done..].
    intros _. destruct (UrlGuard.validated_reachable _ _ _ Hv) as (s & parsed & host & -> & Hu & Hh & Hsch & Hd).
    exists s. split; [done|]. intros q more Hq Hr Ht. exists s, parsed, host, more. split_and!; try done.
    destruct Hd as [Hd|(p & l & Hp & Hd & Hl)]; [by left|]. destruct (decide (lower host ∈ allowlisted)) as [|Ha]; [by left|].
    right. exists p, l. split; [|done]. rewrite Hu, Hh, Hp, Hd. rewrite bool_decide_true by done.
    rewrite bool_decide_false by done. destruct (str_true (strip s)) eqn:Hs; [done|].
    exfalso. apply str_true_false in Hs. rewrite Hs in Hu. vm_compute in Hu. injection Hu as <-. by vm_compute in Hh.
Qed.

Lemma request_of_url url method p q : request_of str_other float_repr url method p = Ok q ->
  exists more, q_url q = url +:+ more /\ q_redirects q = false /\ q_timeout_s q = 10.
Proof.
  unfold request_of. case_decide.
  - destruct (build_get_url str_other url (request_params p)) as [u|] eqn:Hb; [|done]. intros [= <-]. cbn.
    unfold build_get_url in Hb. destruct (request_params p) as [v|]; [|simplify_eq; exists ""; split; [|done]; apply chars_inj; by rewrite chars_app, app_nil_r].
    destruct (truthy v); [|simplify_eq; exists ""; split; [|done]; apply chars_inj; by rewrite chars_app, app_nil_r].
    destruct v; try done. simplify_eq. by eexists.
  - case_decide; [|done]. assert (Hn : url = url +:+ "") by (apply chars_inj; by rewrite chars_app, app_nil_r).
    destruct (form p); [destruct (normalize_for_form str_other float_repr (request_params p))|]; intros; simplify_eq; by exists "".
Qed.

(** C27: A tool's HTTP request only ever goes where the guard let it: [trigger_api]
    answers the model in every case (only a cancellation passes through); it sends at
    most one request, only after the guard accepted the URL, which is what the
    request starts with, to a host that is allowlisted or whose every address is an
    external one, without following redirects and with ten seconds to finish. *)
Theorem api_request_cleared url method param token headers_data values tr tr' r :
  trigger_api str_other float_repr convert convert_all E allowlisted text_of url method param token headers_data values tr = (tr', r) ->
  (forall e, r = Err e -> e = Cancelled) /\
  exists asked sent, tr' = tr ++ asked ++ sent /\ (forall q a, EHttp q a ∉ asked) /\
    (sent = [] \/ exists q, sent = [EHttp q (env_http E (tr ++ asked) q)] /\ cleared url asked q).
Proof.
  unfold trigger_api. destruct (call_api _ _ _ _ _ _ _ _ _ _ _ _ _) as [t res] eqn:Hc. intros Hr.
  assert (Ht : tr' = t /\ forall e, r = Err e -> e = Cancelled) by (destruct res as [|[]]; simplify_eq; naive_solver).
  destruct Ht as [-> He]. split; [done|]. clear Hr He. unfold call_api in Hc.
  destruct (validate_asks url tr) as (asked & Ha & Hn & Hv). unfold se_bind at 1 in Hc.
  destruct (validate E allowlisted url tr) as [t1 [[]|e]] eqn:Hval; cbn [fst snd] in Ha, Hv; subst t1; cycle 1.
  { simplify_eq. exists asked, []. rewrite app_nil_r. auto. }
  assert (Hnil : forall x, (tr ++ asked, x) = (t, res) -> exists asked0 sent, t = tr ++ asked0 ++ sent /\
    (forall q a, EHttp q a ∉ asked0) /\ (sent = [] \/ exists q, sent = [EHttp q (env_http E (tr ++ asked0) q)] /\ cleared url asked0 q)).
  { intros x [= <- _]. exists asked, []. rewrite app_nil_r. auto. }
  destruct (Hv eq_refl) as (s & -> & Hq). unfold se_bind at 1, lift in Hc.
  destruct (prepare_api_request _ _ _ _ _ _ _ _) as [p|e]; [|by apply Hnil in Hc]. cbn [se_ret] in Hc.
  destruct (request_of str_other float_repr s method p) as [q|e] eqn:Hreq; [|by apply Hnil in Hc].
  destruct (request_of_url _ _ _ _ Hreq) as (more & Hu & Hred & Hto).
  exists asked, [EHttp q (env_http E (tr ++ asked) q)]. split; [|split; [done|right; eauto]].
  unfold se_bind, send in Hc. rewrite app_assoc. destruct (env_http E (tr ++ asked) q); by injection Hc as <- _.
Qed.
End sent.
Module Example.

(** A text with its apostrophes made double quotes. *)
Definition q (s : string) : string :=
  of_chars (map (fun c => if bool_decide (c = "'"%char) then Stdlib.Strings.Ascii.ascii_of_nat 34 else c) (chars s)).

Definition crm : APIParams :=
  Api (Some "https://crm.example/leads") (Some "POST") (Some "Bearer T0P") (VDict [("name", VDict [("$var", VStr "name")])])
      VNone None.
Definition params : dict string APIParams := [("create_lead", crm)].
Definition tools : list tool_spec := [Spec "create_lead" (Some ["name"])].

Definition pieces (a b : string) : list delta :=
  [Delta 0 (Some "call_1") (Some "create_lead") (Some a); Delta 1 (Some "call_2") (Some "end_call") None;
   Delta 0 None None (Some b)].

Definition str_other (v : val) : string := "...".
Definition float_repr (f : Q) : string := "0.0".
Definition convert (spec : text) (v : val) : option text := None.
Definition convert_all (spec : text) (d : dict string val) : option text := None.

Lemma payload_exact_witness :
  collected 0 (pieces (q "{'name': '") (q "Ada'}")) = Some (Entry 0 (Some "call_1") (Some "create_lead") (q "{'name': 'Ada'}")) /\
  exists payload,
    build_api_payload [] [] "" (set_received false (process_delta (pieces (q "{'name': '") (q "Ada'}")) (create params tools "en"))) =
      (set_gave false (set_received false (process_delta (pieces (q "{'name': '") (q "Ada'}")) (create params tools "en"))), Ok (Some payload)) /\
    dget "url" payload = Some (VStr "https://crm.example/leads").
Proof.
  split; [vm_compute; reflexivity|].
  destruct (payload_exact params tools "en" false (pieces (q "{'name': '") (q "Ada'}"))
    (Entry 0 (Some "call_1") (Some "create_lead") (q "{'name': 'Ada'}")) "create_lead" crm "call_1"
    (Spec "create_lead" (Some ["name"])) ["name"] [("name", VStr "Ada")] [] [] "") as (payload & Hp & Hk).
  1, 2, 3, 4, 5, 6, 7, 8: vm_compute; reflexivity.
  exists payload. split; [exact Hp|]. rewrite (Hk "url"). vm_compute. reflexivity.
Defined.

(** Arguments of the model called as the fields of the request replace them. *)
Definition hijack : string :=
  q "{'name': 'Ada', 'url': 'https://evil.example/', 'headers': {'X-From': 'model'}, 'called_fun': 'end_call'}".

Lemma argument_replaces_url :
  match (build_api_payload [] [] "" (process_delta [Delta 0 (Some "c") (Some "create_lead") (Some hijack)] (create params tools "en"))).2 with
  | Ok (Some payload) =>
      (dget "url" payload, dget "api_token" payload, dget "called_fun" payload) =
      (Some (VStr "https://evil.example/"), Some (VStr "Bearer T0P"), Some (VStr "end_call"))
  | _ => False
  end.
Proof. vm_compute. reflexivity. Qed.

(** A model that numbers its calls from one makes the payload raise. *)
Lemma missing_index_zero :
  (build_api_payload [] [] "" (process_delta [Delta 1 (Some "c") (Some "create_lead") (Some "{}")] (create params tools "en"))).2 =
  Err KeyError.
Proof. vm_compute. reflexivity. Qed.

(** In a text template the value of the model is not escaped: it adds fields. *)
Lemma text_template_injection :
  prepare_body str_other float_repr convert convert_all (VStr (q "{'role': 'guest', 'name': '%(name)s'}"))
    [("name", VStr (q "Ada', 'role': 'admin"))] =
  Ok (Some (q "{'role': 'guest', 'name': 'Ada', 'role': 'admin'}"), Some (VDict [("role", VStr "admin"); ("name", VStr "Ada")])).
Proof. vm_compute. reflexivity. Qed.

Definition nested_template : val :=
  VDict [("lead", VDict [("name", VDict [("$var", VStr "name")])]); ("tags", VList [VStr "new"; VDict [("$var", VStr "tags")]])].
Definition said : dict string val :=
  [("name", VStr (q "Ada', 'role': 'admin")); ("tags", VList [VDict [("$var", VStr "name")]])].
Definition sent_params : val :=
  VDict [("lead", VDict [("name", VStr (q "Ada', 'role': 'admin"))]);
         ("tags", VList [VStr "new"; VList [VDict [("$var", VStr "name")]]])].

Lemma template_exact_witness : exists body,
  prepare_body str_other float_repr convert convert_all nested_template said = Ok (body, Some sent_params) /\
  at_path [Key "lead"; Key "name"] sent_params = Some (VStr (q "Ada', 'role': 'admin")) /\
  exists s, body = Some s /\ Json.loads s = Some sent_params.
Proof.
  assert (Hp : prepare_body str_other float_repr convert convert_all nested_template said =
               Ok (Some (Json.dumps float_repr sent_params), Some sent_params)) by (vm_compute; reflexivity).
  destruct (template_exact float_repr str_other convert convert_all _ _ _ _ (eq_refl : contains_var_markers nested_template = true) Hp)
    as (Hl & s & Hs & Hr).
  exists (Some (Json.dumps float_repr sent_params)). split; [exact Hp|]. split.
  - apply (Hl [Key "lead"; Key "name"] (VDict [("$var", VStr "name")])); vm_compute; reflexivity.
  - exists s. split; [exact Hs|]. apply Hr. vm_compute. reflexivity.
Defined.

Lemma query_roundtrip_witness : exists u,
  build_get_url str_other "https://api.example/find?v=1" (Some (VDict [("q", VStr "a&b=c%"); ("n", VInt 3)])) = Ok u.
Proof.
  destruct (query_roundtrip str_other "https://api.example/find?v=1" [("q", VStr "a&b=c%"); ("n", VInt 3)]) as (u & Hu & _);
    [discriminate|]. eexists. exact Hu.
Defined.

Definition outside (addr : string) : environment :=
  Environment (fun _ _ _ => UrlGuard.Addresses [chars addr]) (fun _ _ => Ok (Response 200 "{}" (Some "application/json"))).
Definition text_of (f : failure) : string := "failed".

Definition asked_for (url : string) (addr : string) : trace * result failure api_answer :=
  trigger_api str_other float_repr convert convert_all (outside addr) [] text_of (VStr url) "post"
    (a_param crm) (a_api_token crm) VNone [("name", VStr "Ada")] [].

Lemma api_request_cleared_witness : exists asked sent,
  (asked_for "https://crm.example/leads" "93.184.216.34").1 = [] ++ asked ++ sent /\ sent <> [].
Proof.
  destruct (api_request_cleared str_other float_repr convert convert_all (outside "93.184.216.34") [] text_of
    (VStr "https://crm.example/leads") "post" (a_param crm) (a_api_token crm) VNone [("name", VStr "Ada")] [] _ _ (surjective_pairing _))
    as (_ & asked & sent & Ht & Hn & Hs).
  exists asked, sent. split; [exact Ht|]. intros ->. rewrite app_nil_r in Ht. vm_compute in Ht. subst asked.
  eapply (Hn _ _). right. left.
Defined.

Example metadata_blocked : asked_for "http://metadata.internal/" "169.254.169.254" =
  ([EResolve "metadata.internal" None (UrlGuard.Addresses [chars "169.254.169.254"])],
   Ok (Answer None "ERROR CALLING API: request blocked by outbound URL policy" None (Some Blocked))).
Proof. vm_compute. reflexivity. Qed.
End Example.
End ToolCalls.
