(* ===== verification/Webhooks.v ===== *)
(** * Call webhooks and the ledger of API calls
    (src/voiceai/modules/voice/session/webhooks.py)

    Every request a tool makes has a row in the session's ledger: opened with the
    request, closed with its answer. The pre-call webhook is a request of its own,
    sent in the background. A row is mutated through its position in the ledger; the
    clock is an argument, in seconds. *)
From S2P Require Import Prelude PyText PyVal Json UrlGuard ToolCalls.
From Stdlib Require Import QArith.QArith.
Close Scope Q_scope.
Open Scope Z_scope.
Open Scope voice_scope.

Module Webhooks.
Import ToolCalls.

Definition SENSITIVE_KEYS : list string := ["authorization"; "proxy-authorization"; "x-api-key"; "api-key"].
Definition REDACTED : string := "<redacted>".

Definition sanitize_api_call_headers (headers : val) : val :=
  match headers with
  | VDict d => VDict (map (fun kv => (kv.1, if bool_decide (lower kv.1 ∈ SENSITIVE_KEYS) then VStr REDACTED else kv.2)) d)
  | h => h
  end.

Definition extract_api_call_runtime_args (resp : dict string val) : dict string val :=
  List.filter (fun kv => negb (bool_decide (kv.1 ∈ ["model_response"; "textual_response"]))) resp.

(** ** The ledger *)
Inductive status : Type := Pending | Completed | Error (e : string).

Record detail := Detail {
  tool_name : string;
  tool_call_id : val;
  url : val;
  method : val;
  request_template : val;
  request_body : val;
  request_params : val;
  runtime_args : dict string val;
  headers : val;
  meta : dict string val;
  started_at : Q;
  completed_at : option Q;
  latency_ms : option Q;
  state : status;
  response_status_code : option Z;
  response_content_type : option string;
  response_body : option string;
  response_json : option val }.

Notation ledger := (list detail).

Definition get_or (k : string) (v : val) (d : dict string val) : val := default v (dget k d).

(** [method.upper()] *)
Definition upper_char (c : ascii) : ascii :=
  let n := Stdlib.Strings.Ascii.nat_of_ascii c in
  if ((97 <=? n) && (n <=? 122) || (224 <=? n) && (n <=? 254) && negb (n =? 247))%nat
  then Stdlib.Strings.Ascii.ascii_of_nat (n - 32) else c.
Definition upper (s : string) : string := of_chars (map upper_char (chars s)).

Definition start_api_call_detail (now : Q) (called_fun : string) (url method param headers : val)
    (meta_info runtime_args : dict string val) (request_body : val) (api_params : option val) : detail :=
  Detail called_fun (get_or "tool_call_id" (VStr "") runtime_args) url (match method with VStr m => VStr (upper m) | m => m end) param request_body
    (default (VDict runtime_args) api_params) runtime_args (sanitize_api_call_headers headers)
    [("request_id", get_or "request_id" VNone meta_info); ("sequence_id", get_or "sequence_id" VNone meta_info);
     ("turn_id", get_or "turn_id" VNone meta_info)]
    now None None Pending None None None None.

(** What closes a row. *)
Record closing := Closing {
  c_response : option string;
  c_status : option Z;
  c_type : option string;
  c_error : option string }.

Definition milliseconds (from until : Q) : Q := py_round 2 ((until - from) * inject_Z 1000)%Q.

Definition finalize_api_call_detail (now : Q) (c : closing) (d : detail) : detail :=
  Detail (tool_name d) (tool_call_id d) (url d) (method d) (request_template d) (request_body d) (request_params d)
    (runtime_args d) (headers d) (meta d) (started_at d) (Some now) (Some (milliseconds (started_at d) now))
    (match c_error c with Some e => Error e | None => Completed end) (c_status c) (c_type c) (c_response c)
    (match c_response c with Some s => Json.loads s | None => None end).

Definition close_row (now : Q) (i : nat) (c : closing) (l : ledger) : ledger := alter (finalize_api_call_detail now c) i l.

(** ** The pre-call webhook *)
Record call_context := Context_ {
  run_id : string;
  assistant_id : val;
  io_provider : string;
  context_data : option (dict string val) }.

Definition or_empty (v : option val) : val := match v with Some v => if truthy v then v else VDict [] | None => VDict [] end.

Definition build_call_context (s : call_context) : result exn (dict string val) :=
  match or_empty (match context_data s with Some d => dget "recipient_data" d | None => None end) with
  | VDict recipient =>
      Ok [("execution_id", VStr (run_id s)); ("agent_id", assistant_id s); ("provider", VStr (io_provider s));
          ("from_number", get_or "from_number" VNone recipient); ("to_number", get_or "to_number" VNone recipient)]
  | _ => Err AttributeError
  end.

(** A word character, in Latin-1. *)
Definition is_word (c : ascii) : bool :=
  let n := Stdlib.Strings.Ascii.nat_of_ascii c in
  (((48 <=? n) && (n <=? 57)) || ((65 <=? n) && (n <=? 90)) || ((97 <=? n) && (n <=? 122)) ||
   ((192 <=? n) && (n <=? 255) && negb ((n =? 215) || (n =? 247))) ||
   bool_decide (n ∈ [95; 170; 178; 179; 181; 185; 186; 188; 189; 190]))%nat.

Fixpoint word (l : text) : text * text :=
  match l with
  | c :: l' => if is_word c then let '(w, r) := word l' in (c :: w, r) else ([], l)
  | [] => ([], [])
  end.

(** The name at the head of a text that starts with [%(name)s]. *)
Definition placeholder_here (l : text) : option text :=
  match l with
  | p :: o :: l' =>
      if bool_decide (p = "%"%char) && bool_decide (o = "("%char) then
        match word l' with
        | (c :: w, d :: s :: _) => if bool_decide (d = ")"%char) && bool_decide (s = "s"%char) then Some (c :: w) else None
        | _ => None
        end
      else None
  | _ => None
  end.

(** [re.findall] of the placeholders: no two overlap. *)
Fixpoint placeholders (l : text) : list string :=
  match l with
  | [] => []
  | _ :: l' => match placeholder_here l with Some w => of_chars w :: placeholders l' | None => placeholders l' end
  end.

Definition EXCLUDED_ARGS : list string := ["model_response"; "textual_response"; "tool_call_id"; "resp"].
Definition llm_args (resp : dict string val) : dict string val :=
  List.filter (fun kv => negb (bool_decide (kv.1 ∈ EXCLUDED_ARGS))) resp.

(** The names [prepare_api_request] takes for itself. *)
Definition PREPARE_PARAMETERS : list string := ["param"; "api_token"; "headers_data"].
Definition bad_keyword (names : list string) (kwargs : dict string val) : bool :=
  existsb (fun n => dhas n kwargs) names.

Section webhook.
Context (str_other : val -> string) (float_repr : Q -> string).
Context (convert : text -> val -> option text) (convert_all : text -> dict string val -> option text).

Definition prepared_for (param : val) (api_token : option string) (headers : val) (kwargs : dict string val)
    : result exn prepared :=
  if bad_keyword PREPARE_PARAMETERS kwargs then Err TypeError
  else prepare_api_request str_other float_repr convert convert_all param api_token headers kwargs.

(** The parameters of the webhook: the template filled in, or nothing. *)
Definition webhook_params (param : val) (resp : dict string val) : val :=
  if negb (truthy param) then VDict []
  else
    let template := match param with VStr s => s | p => Json.dumps float_repr p end in
    let blanks := foldl (fun d n => dset n (VStr "") d) [] (placeholders (chars template)) in
    match prepared_for param None VNone (dupdate blanks (llm_args resp)) with
    | Ok p => default (VDict []) (ToolCalls.request_params p)
    | Err _ => VDict []
    end.

(** What the background task sends, and to whom; [w_row] is its row. *)
Record webhook := Webhook { w_target : val; w_payload : val; w_guarded : bool; w_row : nat }.

Definition env_true (s : option string) : option string :=
  match s with Some s => if str_true s then Some s else None | None => None end.

(** [dispatch] is PRE_CALL_WEBHOOK_DISPATCH_URL. *)
Definition fire_pre_call_webhook (now : Q) (dispatch : option string) (s : call_context) (webhook_url : val)
    (called_fun : string) (resp meta_info : dict string val) (webhook_param : val) (l : ledger)
    : result exn (ledger * webhook) :=
  let params := webhook_params webhook_param resp in
  match (match env_true dispatch with
         | Some d => Ok (VStr d, [("execution_id", VStr (run_id s)); ("webhook_url", webhook_url); ("params", params)], false)
         | None => match params with
                   | VDict d => match build_call_context s with
                                | Ok c => Ok (webhook_url, dupdate d c, true)
                                | Err e => Err e
                                end
                   | _ => Err TypeError
                   end
         end) with
  | Err e => Err e
  | Ok (target, payload, guarded) =>
      Ok (l ++ [start_api_call_detail now (called_fun +:+ ":pre_call_webhook") target (VStr "POST") VNone
                  (VDict [("Content-Type", VStr "application/json")]) meta_info
                  [("tool_call_id", get_or "tool_call_id" (VStr "") resp)]
                  (VStr (Json.dumps float_repr (VDict payload))) (Some (VDict payload))],
          Webhook target (VDict payload) guarded (length l))
  end.

Context (E : environment) `{UrlGuard.Interpreter} (allowlisted : list string) (text_of : failure -> string).

Definition url_text (v : val) : string := match v with VStr s => s | _ => "" end.

(** The background task; [None] closes nothing: it was cancelled. *)
Definition post_webhook (w : webhook) : tx http_response :=
  (if w_guarded w then validate E allowlisted (w_target w) else se_ret tt) ;;;
  send E (Http false (url_text (w_target w)) [] (JsonBody (w_payload w)) 10 false).

Definition webhook_closing (r : result failure http_response) : option closing :=
  match r with
  | Ok a => Some (Closing (Some (rs_text a)) (Some (rs_status a)) (rs_content_type a) None)
  | Err Cancelled => None
  | Err e => Some (Closing None None None (Some (text_of e)))
  end.

Definition send_webhook (now : Q) (w : webhook) (tr : trace) (l : ledger) : trace * ledger :=
  let '(tr', r) := post_webhook w tr in
  (tr', match webhook_closing r with Some c => close_row now (w_row w) c l | None => l end).
End webhook.


(** ** The ledger keeps no credentials *)
Lemma sanitized_get d k : dget k (match sanitize_api_call_headers (VDict d) with VDict d' => d' | _ => [] end) =
  match dget k d with
  | Some v => Some (if bool_decide (lower k ∈ SENSITIVE_KEYS) then VStr REDACTED else v)
  | None => None
  end.
Proof. induction d as [|[k1 v1] d IH]; [done|]. cbn [sanitize_api_call_headers map fst snd dget] in *. destruct (decide (k = k1)) as [->|]; [done|exact IH]. Qed.

Definition credential_free (h : val) : Prop :=
  forall d k v, h = VDict d -> dget k d = Some v -> lower k ∈ SENSITIVE_KEYS -> v = VStr REDACTED.

Lemma sanitized_free h : credential_free (sanitize_api_call_headers h).
Proof.
  intros d k v Hd Hk Hs. destruct h as [| | | | | |d0]; try discriminate Hd.
  pose proof (sanitized_get d0 k) as Hg. rewrite Hd, Hk in Hg.
  destruct (dget k d0) as [v0|]; [|discriminate Hg]. injection Hg as ->. by rewrite bool_decide_eq_true_2.
Qed.

(** What is done to a ledger. *)
Inductive entry_op : Type :=
| Open (now : Q) (called_fun : string) (url method param headers : val) (meta_info runtime_args : dict string val)
       (request_body : val) (api_params : option val)
| Close (now : Q) (i : nat) (c : closing).

Definition apply_op (l : ledger) (o : entry_op) : ledger :=
  match o with
  | Open now f u m p h mi ra b ap => l ++ [start_api_call_detail now f u m p h mi ra b ap]
  | Close now i c => close_row now i c l
  end.

(** The request of a row, which closing it leaves alone. *)
Definition request_part (d : detail) :=
  (tool_name d, tool_call_id d, url d, method d, request_body d, headers d, started_at d).

Lemma finalize_request now c d : request_part (finalize_api_call_detail now c d) = request_part d.
Proof. done. Qed.

Lemma close_request now i c l : map request_part (close_row now i c l) = map request_part l.
Proof.
  unfold close_row. revert i. induction l as [|d l IH]; intros [|i]; cbn; [done..|]. by rewrite <- (IH i).
Qed.

(** The ledger of a call only grows, a row's request never changes once it is
    written, and no row ever shows the value of a credential header, in whatever
    case it was written. *)
Theorem ledger_keeps_requests ops l :
  map request_part l `prefix_of` map request_part (foldl apply_op l ops) /\
  (Forall (fun d => credential_free (headers d)) l -> Forall (fun d => credential_free (headers d)) (foldl apply_op l ops)).
Proof.
  revert l. induction ops as [|o ops IH]; intros l; [done|]. cbn [foldl]. destruct (IH (apply_op l o)) as [Hp Hf]. split.
  - etrans; [|exact Hp]. destruct o; cbn [apply_op]; [rewrite map_app; by apply prefix_app_r|by rewrite close_request].
  - intros Hl. apply Hf. destruct o as [now f u m p h mi ra b ap|now i c]; cbn [apply_op].
    + apply Forall_app. split; [done|]. constructor; [apply sanitized_free|constructor].
    + unfold close_row. by apply Forall_alter; [|intros].
Qed.

(** ** The pre-call webhook *)

Section sent.
Context (str_other : val -> string) (float_repr : Q -> string).
Context (convert : text -> val -> option text) (convert_all : text -> dict string val -> option text).
Context (E : environment) `{UrlGuard.Registry} (allowlisted : list string) (text_of : failure -> string).

Definition fire := fire_pre_call_webhook str_other float_repr convert convert_all.
Definition deliver := send_webhook E allowlisted text_of.

Lemma fired_fields now dispatch s webhook_url f resp meta_info param l l' w :
  fire now dispatch s webhook_url f resp meta_info param l = Ok (l', w) ->
  (exists row, l' = l ++ [row] /\ state row = Pending /\ url row = w_target w /\ request_params row = w_payload w) /\
  w_row w = length l /\
  (env_true dispatch = None -> w_target w = webhook_url /\ w_guarded w = true /\
     exists d, w_payload w = VDict d /\ dget "execution_id" d = Some (VStr (run_id s)) /\
       dget "agent_id" d = Some (assistant_id s) /\ dget "provider" d = Some (VStr (io_provider s))).
Proof.
  unfold fire, fire_pre_call_webhook. set (params := webhook_params _ _ _ _ _ _). clearbody params.
  destruct (env_true dispatch) as [u|].
  - intros [= <- <-]. split_and!; [by eexists|done|done].
  - destruct params as [| | | | | |d]; try done. destruct (build_call_context s) as [c|] eqn:Hc; [|done].
    intros [= <- <-]. split_and!; [by eexists|done|]. intros _. split_and!; [done..|]. eexists. split; [done|].
    unfold build_call_context in Hc. destruct (or_empty _); try done. injection Hc as <-.
    by rewrite !dupdate_get by (apply (bool_decide_unpack (NoDup _)); vm_compute; exact I).
Qed.

Lemma close_only now i c l : (forall j, j <> i -> close_row now i c l !! j = l !! j) /\ length (close_row now i c l) = length l.
Proof. unfold close_row. split; [intros j Hj; by apply list_lookup_alter_ne|apply length_alter]. Qed.

(** A pre-call webhook can neither be abused nor disturb the call: when it is sent
    to the customer's own address, the payload names this call whatever the model
    put into the arguments, and the request goes out only to an address the guard
    cleared; the row it opened is closed with what came of it, errors included, and
    no other row is touched. *)
Theorem webhook_contained now now' dispatch s webhook_url f resp meta_info param l l' w tr tr' l2 :
  fire now dispatch s webhook_url f resp meta_info param l = Ok (l', w) -> deliver now' w tr l' = (tr', l2) ->
  (env_true dispatch = None -> exists d, w_payload w = VDict d /\ dget "execution_id" d = Some (VStr (run_id s)) /\
     dget "agent_id" d = Some (assistant_id s) /\ dget "provider" d = Some (VStr (io_provider s))) /\
  (exists asked sent, tr' = tr ++ asked ++ sent /\
     (sent = [] \/ exists q, sent = [EHttp q (env_http E (tr ++ asked) q)] /\ q_body q = JsonBody (w_payload w) /\
                   q_redirects q = false /\ (env_true dispatch = None -> cleared allowlisted webhook_url asked q))) /\
  (exists row, l' = l ++ [row] /\ state row = Pending /\
     (l2 = l ++ [row] \/ exists c, l2 = l ++ [finalize_api_call_detail now' c row])).
Proof.
  intros Hf Hd. destruct (fired_fields _ _ _ _ _ _ _ _ _ _ _ Hf) as ((row & -> & Hp & Hu & Hr) & Hw & Hn).
  unfold deliver, send_webhook in Hd. destruct (post_webhook E allowlisted w tr) as [t r] eqn:Hpost.
  injection Hd as <- <-. split; [|split].
  - intros Hdis. by destruct (Hn Hdis) as (_ & _ & ?).
  - unfold post_webhook, se_bind in Hpost. destruct (w_guarded w) eqn:Hg.
    + destruct (validate_asks E allowlisted (w_target w) tr) as (asked & Ha & Hno & Hv).
      destruct (validate E allowlisted (w_target w) tr) as [t1 [[]|e]]; cbn [fst snd] in Ha, Hv; subst t1; unfold send in Hpost.
      * injection Hpost as <- _. exists asked, [EHttp (Http false (url_text (w_target w)) [] (JsonBody (w_payload w)) 10 false)
          (env_http E (tr ++ asked) (Http false (url_text (w_target w)) [] (JsonBody (w_payload w)) 10 false))].
        rewrite app_assoc. split; [done|]. right. eexists. split_and!; [done..|]. intros Hdis.
        destruct (Hn Hdis) as (Ht & _ & _). destruct (Hv eq_refl) as (u & Hus & Hq). rewrite <- Ht.
        apply (Hq _ ""); try done. cbn [q_url]. rewrite Hus. cbn [q_url url_text]. apply chars_inj. by rewrite chars_app, app_nil_r.
      * injection Hpost as <- _. exists asked, []. rewrite app_nil_r. auto.
    + cbn in Hpost. injection Hpost as <- _. exists [], [EHttp (Http false (url_text (w_target w)) [] (JsonBody (w_payload w)) 10 false)
          (env_http E (tr ++ []) (Http false (url_text (w_target w)) [] (JsonBody (w_payload w)) 10 false))].
      rewrite !app_nil_r. cbn [app]. split; [done|]. right. eexists. split_and!; [done..|]. intros Hdis.
      destruct (Hn Hdis) as (_ & Hg' & _). congruence.
  - exists row. split_and!; [done..|]. destruct (webhook_closing text_of r) as [c|]; [right|by left].
    exists c. unfold close_row. rewrite Hw. rewrite alter_app_r_alt by lia. by rewrite Nat.sub_diag.
Qed.
End sent.

Module Example.
Import ToolCalls.Example.

Definition call : call_context :=
  Context_ "run-7" (VStr "agent-1") "plivo" (Some [("recipient_data", VDict [("from_number", VStr "+4912345")])]).

(** The model tries to pass for another call. *)
Definition spoof : dict string val := [("name", VStr "Ada"); ("execution_id", VStr "run-8"); ("tool_call_id", VStr "c1")].

Definition fired : result exn (ledger * webhook) :=
  fire str_other float_repr convert convert_all 0%Q None call (VStr "https://hooks.example/") "create_lead" spoof []
    (VStr (q "{'who': '%(name)s', 'execution_id': '%(execution_id)s', 'gone': '%(missing)s'}")) [].

Lemma webhook_contained_witness : exists l w tr l2,
  fired = Ok (l, w) /\ deliver (outside "93.184.216.34") [] text_of 1%Q w [] l = (tr, l2) /\
  exists d, w_payload w = VDict d /\ dget "execution_id" d = Some (VStr "run-7").
Proof.
  destruct fired as [[l w]|e] eqn:Hf; [|vm_compute in Hf; discriminate Hf].
  destruct (deliver (outside "93.184.216.34") [] text_of 1%Q w [] l) as [tr l2] eqn:Hd.
  exists l, w, tr, l2. split; [reflexivity|]. split; [exact Hd|].
  destruct (webhook_contained str_other float_repr convert convert_all (outside "93.184.216.34") [] text_of
    _ _ _ _ _ _ _ _ _ _ _ _ _ _ _ Hf Hd) as (Hp & _).
  destruct (Hp eq_refl) as (d & Hw & Hx & _). exists d. split; [exact Hw|exact Hx].
Defined.

Example webhook_payload : match fired with
  | Ok (_, w) => w_payload w = VDict [("who", VStr "Ada"); ("execution_id", VStr "run-7"); ("gone", VStr "");
                   ("agent_id", VStr "agent-1"); ("provider", VStr "plivo"); ("from_number", VStr "+4912345"); ("to_number", VNone)]
  | Err _ => False
  end.
Proof. vm_compute. reflexivity. Qed.

(** A template that is no object makes the call raise, on the direct path. *)
Lemma list_template_raises :
  fire str_other float_repr convert convert_all 0%Q None call (VStr "https://hooks.example/") "create_lead" spoof []
    (VStr (q "['%(name)s']")) [] = Err TypeError.
Proof. vm_compute. reflexivity. Qed.

Lemma ledger_keeps_requests_witness :
  Forall (fun d => credential_free (headers d)) [] /\
  Forall (fun d => credential_free (headers d))
    (foldl apply_op [] [Open 0%Q "t" VNone (VStr "get") VNone (VDict [("X-API-Key", VStr "k")]) [] [] VNone None;
                        Close 1%Q 0 (Closing None None None (Some "cancelled"))]).
Proof. split; [constructor|]. apply ledger_keeps_requests. constructor. Defined.
End Example.
End Webhooks.
