(* ===== verification/Transfer.v ===== *)
(** * Call transfers
    (src/voiceai/modules/voice/session/turn/function_calls.py, the transfer branch of
    execute_function_call and execute_transfer_call_webhook; the transfer branch of
    session/s2s_runner.py _s2s_execute_tool)

    A transfer is a task of its own that waits three times: two seconds, until the
    caller hears nothing, and for the answer of its POST. Several may run at once, in
    any interleaving with each other and with the other tasks of the call, and each
    may be cancelled at each wait. A task is a thread whose program counter names the
    wait it is in; what it does between two waits is one step, and so is each poll of
    the loop that waits while the caller's audio plays. *)
From S2P Require Import Prelude PyText PyVal Json History UrlGuard ToolCalls Webhooks.
From Stdlib Require Import QArith.QArith.
Close Scope Q_scope.
Open Scope Z_scope.
Open Scope voice_scope.

Module Transfer.
Import ToolCalls.

(** What the call is configured with. *)
Record config := Config {
  f_run_id : string;
  f_assistant_id : val;
  f_provider : string;
  f_stream_sid : val;
  f_call_sid : val;
  f_context : option (dict string val);
  f_transfer_params : option (dict string val);
  f_tools_params : dict string (dict string val);
  f_dispatch : option string;
  f_transfer_url : option string;
  f_start_ms : Q }.

(** One invocation of the tool: the configured URL and body, the payload of the
    model's response, and the meta information of its turn. *)
Record call := Call {
  c_fun : string;
  c_url : val;
  c_param : val;
  c_resp : dict string val;
  c_meta : dict string val }.

Inductive event : Type :=
| TransferStart (ts : Q) (tool_name : string) (tool_call_id turn_id sequence_id transfer_number : val) (provider : string)
| TransferEnd (ts : Q) (tool_call_id turn_id sequence_id : val) (status_code : option Z) (latency_ms : option Q)
    (success : option bool).

Record session := Session {
  has_transfer : bool;
  history : History.history;
  check_if_user_online : bool;
  details : Webhooks.ledger;
  transfer_call_events : list event;
  webhooks : list Webhooks.webhook;
  posts : list (val * val) }.

Definition set_has b (s : session) :=
  Session b (history s) (check_if_user_online s) (details s) (transfer_call_events s) (webhooks s) (posts s).
Definition set_history h (s : session) :=
  Session (has_transfer s) h (check_if_user_online s) (details s) (transfer_call_events s) (webhooks s) (posts s).
Definition set_online b (s : session) :=
  Session (has_transfer s) (history s) b (details s) (transfer_call_events s) (webhooks s) (posts s).
Definition set_details l (s : session) :=
  Session (has_transfer s) (history s) (check_if_user_online s) l (transfer_call_events s) (webhooks s) (posts s).
Definition add_event e (s : session) :=
  Session (has_transfer s) (history s) (check_if_user_online s) (details s) (transfer_call_events s ++ [e]) (webhooks s) (posts s).
Definition add_webhook l w (s : session) :=
  Session (has_transfer s) (history s) (check_if_user_online s) l (transfer_call_events s) (webhooks s ++ [w]) (posts s).
Definition add_post p (s : session) :=
  Session (has_transfer s) (history s) (check_if_user_online s) (details s) (transfer_call_events s) (webhooks s) (posts s ++ [p]).

(** ** The steps of a transfer *)
Section transfer.
Context (str_other : val -> string) (float_repr : Q -> string).
Context (convert : text -> val -> option text) (convert_all : text -> dict string val -> option text).
Context (text_of : failure -> string) (f : config).

Definition status_text (message : string) : string :=
  Json.dumps float_repr (VDict [("status", VStr "success"); ("message", VStr message)]).
Definition INITIATED : string :=
  "Call transfer initiated. Wait silently for the user to be connected; do not transfer again.".
Definition IN_PROGRESS : string :=
  "Call transfer already in progress. Wait silently for the user to be connected; do not transfer again.".

Definition meta_turn (m : dict string val) : option Z := match dget "turn_id" m with Some (VInt z) => Some z | _ => None end.

(** [append_tool_result] with the identifier as the payload holds it. *)
Definition append_result (id : val) (content : string) (h : History.history) : History.history :=
  History.mkHistory (History.messages h ++ [[("role", VStr TOOL); ("tool_call_id", id); ("content", VStr content)]])
                    (History.interim h).

(** The tool calls go to the turn that made them, the result behind. *)
Definition record_result (c : call) (content : string) (h : History.history) : result exn History.history :=
  match dget "model_response" (c_resp c) with
  | None => Err KeyError
  | Some calls =>
      Ok (append_result (Webhooks.get_or "tool_call_id" (VStr "") (c_resp c)) content
            (History.attach_tool_calls_to_turn (meta_turn (c_meta c)) calls h))
  end.

Definition corrected (c : call) : call :=
  match dget "execution_id" (c_resp c) with
  | Some v => if val_eqb v (VStr (f_run_id f)) then c
              else Call (c_fun c) (c_url c) (c_param c) (dset "execution_id" (VStr (f_run_id f)) (c_resp c)) (c_meta c)
  | None => c
  end.

(** The configured body, as JSON; [None] where reading it raises. *)
Definition param_value (p : val) : option val := match p with VStr s => Json.loads s | p => Some p end.

(** The number goes into the webhook's arguments when the body names one. *)
Definition webhook_resp (c : call) : dict string val :=
  match (match c_param c with VStr s => Json.loads s | p => Some (if truthy p then p else VDict []) end) with
  | Some (VDict d) =>
      match dget "call_transfer_number" d with
      | Some v => if truthy v && negb (dhas "call_transfer_number" (c_resp c))
                  then dset "call_transfer_number" v (c_resp c) else c_resp c
      | None => c_resp c
      end
  | _ => c_resp c
  end.

Definition call_context : Webhooks.call_context :=
  Webhooks.Context_ (f_run_id f) (f_assistant_id f) (f_provider f) (f_context f).

(** The webhook ahead of the handoff, when the tool has one. *)
Definition pre_call (now : Q) (c : call) (resp : dict string val) (s : session) : result exn session :=
  let conf := default [] (dget (c_fun c) (f_tools_params f)) in
  let u := Webhooks.get_or "pre_call_webhook_url" VNone conf in
  if truthy u then
    match Webhooks.fire_pre_call_webhook str_other float_repr convert convert_all now (f_dispatch f) call_context u (c_fun c)
            resp (c_meta c) (Webhooks.get_or "pre_call_webhook_param" VNone conf) (details s) with
    | Ok (l, w) => Ok (add_webhook l w s)
    | Err e => Err e
    end
  else Ok s.

Inductive begun : Type := Duplicate | Handed (c : call) | Raised (e : exn).

(** The transfer branch up to its first wait. *)
Definition begin_transfer (now : Q) (c : call) (s : session) : session * begun :=
  let c := corrected c in
  let s := set_online false s in
  if has_transfer s then
    match record_result c (status_text IN_PROGRESS) (history s) with
    | Ok h => (set_history h s, Duplicate)
    | Err e => (s, Raised e)
    end
  else
    let s := set_has true s in
    match record_result c (status_text INITIATED) (history s) with
    | Err e => (s, Raised e)
    | Ok h => let s := set_history h s in
              match pre_call now c (webhook_resp c) s with
              | Ok s' => (s', Handed c)
              | Err e => (s, Raised e)
              end
    end.

(** The speech-to-speech path has the same guard; its result goes to the model. *)
Definition begin_s2s (now : Q) (c : call) (s : session) : session * begun :=
  if has_transfer s then (s, Duplicate)
  else let s := set_has true s in
       match pre_call now c (c_resp c) s with Ok s' => (s', Handed c) | Err e => (s, Raised e) end.

Definition on_telephony : bool := negb (bool_decide (f_provider f = "default")).

Definition from_number : val :=
  match f_context f with
  | Some d => match dget "recipient_data" d with
              | Some (VDict r) => Webhooks.get_or "from_number" VNone r
              | _ => VNone
              end
  | None => VNone
  end.

(** The number in the configured body, asked for when the tool has no URL. *)
Definition configured_number (c : call) : val :=
  match param_value (c_param c) with
  | Some (VDict d) => Webhooks.get_or "call_transfer_number" VNone d
  | _ => VNone
  end.

Definition is_none (v : val) : bool := match v with VNone => true | _ => false end.

Definition with_call_sid (payload : dict string val) : dict string val :=
  if on_telephony then dset "call_sid" (f_call_sid f) payload else payload.

Definition transfer_payload (c : call) : dict string val :=
  let base := dupdate [("call_sid", VNone); ("provider", VStr (f_provider f)); ("stream_sid", f_stream_sid f);
                       ("from_number", from_number); ("execution_id", VStr (f_run_id f))]
                      (default [] (f_transfer_params f)) in
  let base := with_call_sid base in
  let base := if is_none (c_url c) && truthy (configured_number c)
              then dset "call_transfer_number" (configured_number c) base else base in
  let base := if is_none (c_param c) then base else dupdate base (c_resp c) in
  with_call_sid base.

Definition target_url (c : call) : val := if is_none (c_url c) then opt_val (f_transfer_url f) else c_url c.

Definition stamp (now : Q) : Q := py_round 2 (now * inject_Z 1000 - f_start_ms f)%Q.
Definition meta_of (k : string) (c : call) : val := Webhooks.get_or k VNone (c_meta c).
Definition id_of (c : call) : val := Webhooks.get_or "tool_call_id" (VStr "") (c_resp c).

Definition start_event (now : Q) (c : call) : event :=
  TransferStart (stamp now) (c_fun c) (id_of c) (meta_of "turn_id" c) (meta_of "sequence_id" c)
    (Webhooks.get_or "call_transfer_number" VNone (transfer_payload c)) (f_provider f).
Definition end_event (now : Q) (c : call) (status : option Z) (latency : option Q) (success : option bool) : event :=
  TransferEnd (stamp now) (id_of c) (meta_of "turn_id" c) (meta_of "sequence_id" c) status latency success.

Definition open_row (now : Q) (c : call) : Webhooks.detail :=
  Webhooks.start_api_call_detail now (c_fun c) (target_url c) (VStr "POST") (c_param c)
    (VDict [("Content-Type", VStr "application/json")]) (c_meta c)
    (dset "tool_call_id" (id_of c) (Webhooks.extract_api_call_runtime_args (c_resp c)))
    (VDict (transfer_payload c)) (Some (VDict (transfer_payload c))).

(** The latency of a row that is being closed. *)
Definition row_latency (now : Q) (i : nat) (s : session) : option Q :=
  match details s !! i with Some d => Some (Webhooks.milliseconds (Webhooks.started_at d) now) | None => None end.

Definition mocked (c : call) : string :=
  "This is a mocked response demonstrating a successful transfer of call to " +:+
  py_str str_other (if is_none (c_url c) then configured_number c else VNone).

(** After two seconds: the start is recorded; without telephony the transfer is made
    up on the spot. *)
Definition announce (now now' : Q) (c : call) (s : session) : session :=
  let s := add_event (start_event now c) s in
  if on_telephony then s
  else
    let row := Webhooks.finalize_api_call_detail now' (Webhooks.Closing (Some (mocked c)) (Some 200) (Some "text/plain") None)
                 (open_row now c) in
    add_event (end_event now' c (Some 200) (Webhooks.latency_ms row) (Some true)) (set_details (details s ++ [row]) s).

(** Once the caller hears nothing: the row is opened and the POST is on its way. *)
Definition post (now : Q) (c : call) (s : session) : session :=
  add_post (target_url c, VDict (transfer_payload c)) (set_details (details s ++ [open_row now c]) s).

(** How the POST ends; [None]: it was cancelled. *)
Definition settle (now : Q) (c : call) (row : nat) (a : option (result failure http_response)) (s : session) : session :=
  let latency := row_latency now row s in
  let '(closing, status, success) :=
    match a with
    | Some (Ok r) => (Webhooks.Closing (Some (rs_text r)) (Some (rs_status r)) (rs_content_type r) None,
                      Some (rs_status r), Some (rs_status r <? 400))
    | Some (Err e) => (Webhooks.Closing None None None (Some (text_of e)), None, None)
    | None => (Webhooks.Closing None None None (Some "cancelled"), None, None)
    end in
  add_event (end_event now c status latency success) (set_details (Webhooks.close_row now row closing (details s)) s).

(** ** Threads *)
Inductive outcome : Type := WasDuplicate | Ended | CutAsleep | CutWaiting | Threw (e : exn).

(** A thread that is over keeps the call it was for. *)
Inductive thread : Type :=
| Ready (c : call) (s2s : bool)
| Before (c : call)
| Asleep (c : call)
| Waiting (c : call)
| Posting (c : call) (row : nat)
| Over (c : call) (o : outcome).

(** One step of a thread, from one wait to the next, while the caller's audio is
    [playing] or not. A thread [Before] its handoff is a speech-to-speech one that has
    the model speak a filler, which may raise; one that is [Waiting] looks once a
    second whether the audio has ended. *)
Inductive tstep (playing : bool) : session -> thread -> session -> thread -> Prop :=
| step_duplicate now c s s' : begin_transfer now c s = (s', Duplicate) -> tstep playing s (Ready c false) s' (Over c WasDuplicate)
| step_raised now c s s' e : begin_transfer now c s = (s', Raised e) -> tstep playing s (Ready c false) s' (Over c (Threw e))
| step_handed now c c' s s' : begin_transfer now c s = (s', Handed c') -> tstep playing s (Ready c false) s' (Asleep c')
| step_s2s_duplicate now c s s' : begin_s2s now c s = (s', Duplicate) -> tstep playing s (Ready c true) s' (Over c WasDuplicate)
| step_s2s_raised now c s s' e : begin_s2s now c s = (s', Raised e) -> tstep playing s (Ready c true) s' (Over c (Threw e))
| step_s2s_handed now c c' s s' : begin_s2s now c s = (s', Handed c') -> tstep playing s (Ready c true) s' (Before c')
| step_spoke c s : tstep playing s (Before c) s (Asleep c)
| step_not_spoke c s e : tstep playing s (Before c) s (Over c (Threw e))
| step_announce now now' c s : on_telephony = true -> tstep playing s (Asleep c) (announce now now' c s) (Waiting c)
| step_mocked now now' c s : on_telephony = false -> tstep playing s (Asleep c) (announce now now' c s) (Over c Ended)
| step_poll c s : playing = true -> tstep playing s (Waiting c) s (Waiting c)
| step_post now c s : playing = false -> tstep playing s (Waiting c) (post now c s) (Posting c (length (details s)))
| step_settle now c row a s : tstep playing s (Posting c row) (settle now c row a s) (Over c Ended)
| step_cut_before c s : tstep playing s (Before c) s (Over c CutAsleep)
| step_cut_asleep c s : tstep playing s (Asleep c) s (Over c CutAsleep)
| step_cut_waiting c s : tstep playing s (Waiting c) s (Over c CutWaiting).

Definition owns (t : thread) : option nat := match t with Posting _ i => Some i | _ => None end.

(** The call as a whole: whether the caller is played audio, what the tasks share, and
    the transfers. *)
Record system := System { playing : bool; shared : session; threads : list thread }.

(** Transfers start and move on in any order, while audio starts and ends and the other
    tasks change the history and the ledger, of which they close their own rows. *)
Inductive sstep : system -> system -> Prop :=
| sys_new p s ths c b : sstep (System p s ths) (System p s (ths ++ [Ready c b]))
| sys_thread p s ths i t s' t' : ths !! i = Some t -> tstep p s t s' t' -> sstep (System p s ths) (System p s' (<[i := t']> ths))
| sys_audio p p' s ths : sstep (System p s ths) (System p' s ths)
| sys_history p s ths h : sstep (System p s ths) (System p (set_history h s) ths)
| sys_online p s ths b : sstep (System p s ths) (System p (set_online b s) ths)
| sys_open p s ths row : sstep (System p s ths) (System p (set_details (details s ++ [row]) s) ths)
| sys_close p s ths now i cl : (forall t, t ∈ ths -> owns t <> Some i) ->
    sstep (System p s ths) (System p (set_details (Webhooks.close_row now i cl (details s)) s) ths).

Definition fresh (h : History.history) (l : Webhooks.ledger) : system := System false (Session false h true l [] [] []) [].

(** ** What holds of every reachable state *)
(** A thread that went past the guard and on. *)
Definition past (t : thread) : bool :=
  match t with Ready _ _ | Over _ WasDuplicate | Over _ (Threw _) => false | _ => true end.
Definition call_of (t : thread) : call :=
  match t with Ready c _ | Before c | Asleep c | Waiting c | Posting c _ | Over c _ => c end.

Definition closed (d : Webhooks.detail) : Prop := Webhooks.state d <> Webhooks.Pending.

(** What a row says of its request; closing it changes none of it. *)
Definition request_of (d : Webhooks.detail) :=
  (Webhooks.tool_name d, Webhooks.tool_call_id d, Webhooks.url d, Webhooks.method d, Webhooks.request_template d,
   Webhooks.request_body d, Webhooks.request_params d, Webhooks.runtime_args d, Webhooks.headers d, Webhooks.meta d).
(** A row of the request of this call. *)
Definition row_of (c : call) (d : Webhooks.detail) : Prop := exists now, request_of d = request_of (open_row now c).

Definition handoff_of (c : call) : val * val := (target_url c, VDict (transfer_payload c)).

(** What the state holds of the one transfer, from where its thread is. *)
Definition progress (t : thread) (s : session) : Prop :=
  match t with
  | Waiting c | Over c CutWaiting => (exists now, transfer_call_events s = [start_event now c]) /\ posts s = []
  | Posting c i => (exists now, transfer_call_events s = [start_event now c]) /\ posts s = [handoff_of c] /\
                   on_telephony = true /\ exists d, details s !! i = Some d /\ row_of c d
  | Over c Ended => (exists now now' st l ok, transfer_call_events s = [start_event now c; end_event now' c st l ok]) /\
                  posts s = (if on_telephony then [handoff_of c] else []) /\
                  exists i d, details s !! i = Some d /\ row_of c d /\ closed d
  | _ => transfer_call_events s = [] /\ posts s = []
  end /\ match t with Waiting _ | Over _ CutWaiting => on_telephony = true | _ => True end.

Definition inv (y : system) : Prop :=
  (transfer_call_events (shared y) = [] /\ posts (shared y) = [] /\ forall t, t ∈ threads y -> past t = false) \/
  (has_transfer (shared y) = true /\ exists i t, threads y !! i = Some t /\ past t = true /\ progress t (shared y) /\
     forall j t', threads y !! j = Some t' -> j <> i -> past t' = false).

Definition kept (s s' : session) : Prop :=
  transfer_call_events s' = transfer_call_events s /\ posts s' = posts s /\
  forall i d, details s !! i = Some d ->
    exists d', details s' !! i = Some d' /\ request_of d' = request_of d /\ (closed d -> closed d').

Lemma kept_same s s' : transfer_call_events s' = transfer_call_events s -> posts s' = posts s -> details s' = details s -> kept s s'.
Proof. intros H1 H2 H3. split_and!; [done..|]. rewrite H3. eauto. Qed.
Lemma kept_open row s : kept s (set_details (details s ++ [row]) s).
Proof. split_and!; [done..|]. intros i d Hd. exists d. split; [by apply lookup_app_l_Some|done]. Qed.
Lemma finalize_closed now c d : closed (Webhooks.finalize_api_call_detail now c d).
Proof. unfold closed. cbn. by destruct (Webhooks.c_error c). Qed.
Lemma finalize_row now cl c d : row_of c d -> row_of c (Webhooks.finalize_api_call_detail now cl d).
Proof. done. Qed.
Lemma kept_close now i c s : kept s (set_details (Webhooks.close_row now i c (details s)) s).
Proof.
  split_and!; [done..|]. intros j d Hd. cbn [details set_details]. unfold Webhooks.close_row.
  destruct (decide (j = i)) as [->|Hj].
  - rewrite list_lookup_alter_eq, Hd. eexists. split; [done|]. split; [done|]. intros _. apply finalize_closed.
  - rewrite list_lookup_alter_ne by done. eauto.
Qed.

Lemma row_kept c d d' : request_of d' = request_of d -> row_of c d -> row_of c d'.
Proof. intros E [now Hd]. exists now. by rewrite E. Qed.

Lemma progress_kept t s s' : kept s s' -> progress t s -> progress t s'.
Proof.
  intros (He & Hp & Hd) [H Ht]. split; [|exact Ht]. clear Ht.
  destruct t as [c b|c|c|c|c i|c [| | | |e]]; rewrite ?He, ?Hp; try done.
  - destruct H as (H1 & H2 & H3 & d & Hi & Hr). split_and!; [done..|]. destruct (Hd _ _ Hi) as (d' & ? & E & _). exists d'.
    split; [done|]. by eapply row_kept.
  - destruct H as (H1 & H2 & i & d & Hi & Hr & Hc). split_and!; [done..|]. destruct (Hd _ _ Hi) as (d' & ? & E & Hcl).
    exists i, d'. split_and!; [done|by eapply row_kept|auto].
Qed.

Lemma inv_kept p p' s s' ths : kept s s' -> has_transfer s' = has_transfer s -> inv (System p s ths) -> inv (System p' s' ths).
Proof.
  intros Hk Hh [(H1 & H2 & H3)|(H1 & i & t & H2 & H3 & H4 & H5)].
  - left. destruct Hk as (E1 & E2 & _). cbn [shared threads] in *. rewrite E1, E2. auto.
  - right. cbn [shared threads] in *. split; [congruence|]. exists i, t. split_and!; try done. by eapply progress_kept.
Qed.

(** The guard. *)
Definition guarded (s s' : session) (r : begun) : Prop :=
  match r with
  | Handed c' => has_transfer s = false /\ has_transfer s' = true /\ transfer_call_events s' = transfer_call_events s /\ posts s' = posts s
  | Duplicate => has_transfer s = true /\ has_transfer s' = true /\ kept s s'
  | Raised _ => has_transfer s' = true /\ kept s s'
  end.

Lemma pre_call_frame now c resp s s' : pre_call now c resp s = Ok s' ->
  has_transfer s' = has_transfer s /\ transfer_call_events s' = transfer_call_events s /\ posts s' = posts s.
Proof.
  unfold pre_call. destruct (truthy _); [|by intros [= <-]].
  destruct (Webhooks.fire_pre_call_webhook _ _ _ _ _ _ _ _ _ _ _ _ _) as [[l w]|e]; [|done]. by intros [= <-].
Qed.

Lemma begin_guard now c s s' r : begin_transfer now c s = (s', r) -> guarded s s' r.
Proof.
  unfold begin_transfer. cbn [has_transfer set_online]. destruct (has_transfer s) eqn:Hh.
  - destruct (record_result _ _ _); intros [= <- <-]; [split; [done|]|]; (split; [done|by apply kept_same]).
  - destruct (record_result _ _ _) as [h|e]; [|intros [= <- <-]; split; [done|by apply kept_same]].
    destruct (pre_call _ _ _ _) as [s2|e] eqn:Hp; intros [= <- <-]; [|split; [done|by apply kept_same]].
    by apply pre_call_frame in Hp as (? & ? & ?).
Qed.

Lemma begin_s2s_guard now c s s' r : begin_s2s now c s = (s', r) -> guarded s s' r.
Proof.
  unfold begin_s2s. destruct (has_transfer s) eqn:Hh; [intros [= <- <-]; split; [done|]; (split; [done|by apply kept_same])|].
  destruct (pre_call _ _ _ _) as [s2|e] eqn:Hp; intros [= <- <-]; [|split; [done|by apply kept_same]].
  by apply pre_call_frame in Hp as (? & ? & ?).
Qed.

(** A thread that has not passed the guard: it stays outside, or it is the first. *)
Lemma outside_step p s t s' t' : tstep p s t s' t' -> past t = false ->
  (past t' = false /\ kept s s' /\ (has_transfer s = true -> has_transfer s' = true)) \/
  (past t' = true /\ has_transfer s = false /\ has_transfer s' = true /\
   transfer_call_events s' = transfer_call_events s /\ posts s' = posts s /\
   (transfer_call_events s = [] -> posts s = [] -> progress t' s')).
Proof.
  intros Hs Hp.
  assert (Hg : forall s' r, guarded s s' r -> match r with Handed _ => True | _ => kept s s' /\ (has_transfer s = true -> has_transfer s' = true) end)
    by (intros ? [] ?; naive_solver).
  assert (Hh : forall s' c, guarded s s' (Handed c) -> has_transfer s = false /\ has_transfer s' = true /\
    transfer_call_events s' = transfer_call_events s /\ posts s' = posts s) by done.
  destruct Hs as [? ? ? ? Hb|? ? ? ? ? Hb|? ? ? ? ? Hb|? ? ? ? Hb|? ? ? ? ? Hb|? ? ? ? ? Hb| | | | | | | | | | ]; try done;
    (apply begin_guard in Hb || apply begin_s2s_guard in Hb).
  1,2,4,5: left; split; [done|]; by apply Hg in Hb.
  all: right; destruct (Hh _ _ Hb) as (H1 & H2 & H3 & H4); split_and!; try done; intros; split; [|done]; by rewrite H3, H4.
Qed.

(** The one that passed. *)
Lemma inside_step p s t s' t' : tstep p s t s' t' -> past t = true -> progress t s ->
  has_transfer s' = has_transfer s /\
  ((past t' = true /\ progress t' s') \/ (past t' = false /\ transfer_call_events s' = [] /\ posts s' = [])).
Proof.
  intros Hs Hp [Hpr Htel]. unfold progress. destruct Hs as
    [| | | | | |c s|c s e|now now' c s H|now now' c s H|c s H|now c s H|now c row a s|c s|c s|c s]; try done; cbn [past] in *.
  - split; [done|by left].
  - split; [done|by right].
  - unfold announce. rewrite H. destruct Hpr as [He Hpo]. split; [done|]. left. cbn. rewrite He. split_and!; [done|by eexists|done|done].
  - unfold announce. rewrite H. destruct Hpr as [He Hpo]. split; [done|]. left. cbn. rewrite He, Hpo. cbn.
    split_and!; [done|by repeat eexists|done| |done]. exists (length (details s)). eexists.
    split; [by rewrite list_lookup_middle|]. split; [|apply finalize_closed]. apply finalize_row. by eexists.
  - split; [done|by left].
  - destruct Hpr as [He Hpo]. split; [done|]. left. cbn. rewrite Hpo. split_and!; [done..| |done].
    exists (open_row now c). split; [by rewrite list_lookup_middle|by eexists].
  - destruct Hpr as ([n He] & Hpo & Ht & d & Hd & Hr). split; [by destruct a as [[]|]|]. left. split; [done|]. unfold settle.
    destruct a as [[r|e]|]; cbn; rewrite He, Hpo, Ht; cbn; (split; [|done]);
      (split_and!; [by repeat eexists|done|]; exists row; eexists; unfold Webhooks.close_row;
       rewrite list_lookup_alter_eq, Hd; split; [done|]; split; [by apply finalize_row|apply finalize_closed]).
  - split; [done|by left].
  - split; [done|by left].
  - split; [done|by left].
Qed.

Lemma inv_step y y' : inv y -> sstep y y' -> inv y'.
Proof.
  intros Hi Hs. destruct Hs as [p s ths c b|p s ths i t s' t' Ht Hst|p p' s ths|p s ths h|p s ths b|p s ths row|p s ths now i cl Ho].
  3: by apply (inv_kept p p' s); [apply kept_same|..].
  3: by apply (inv_kept p p s); [apply kept_same|..].
  3: by apply (inv_kept p p s); [apply kept_same|..].
  3: by apply (inv_kept p p s); [apply kept_open|..].
  3: by apply (inv_kept p p s); [apply kept_close|..].
  - destruct Hi as [(H1 & H2 & H3)|(H1 & i & t & H2 & H3 & H4 & H5)]; cbn [shared threads] in *.
    + left. split_and!; try done. intros t [Hin|Hin]%elem_of_app; [by apply H3|]. by apply list_elem_of_singleton in Hin as ->.
    + right. split; [done|]. exists i, t. split_and!; try done; [by apply lookup_app_l_Some|].
      intros j t' [Hj|[_ Hj]]%lookup_app_Some Hne; [by eapply H5|].
      apply list_lookup_singleton_Some in Hj as [_ <-]. done.
  - destruct Hi as [(H1 & H2 & H3)|(H1 & j & u & H2 & H3 & H4 & H5)]; cbn [shared threads] in *.
    + assert (Hpt : past t = false) by (apply H3; by eapply list_elem_of_lookup_2).
      destruct (outside_step _ _ _ _ _ Hst Hpt) as [(Hp & (He & Hpo & _) & _)|(Hp & Hf & Hh & He & Hpo & Hpr)].
      * left. cbn [shared threads]. rewrite He, Hpo. split_and!; try done. intros x (k & Hk)%list_elem_of_lookup.
        apply list_lookup_insert_Some in Hk as [(-> & <- & _)|[_ Hk]]; [done|]. apply H3. by eapply list_elem_of_lookup_2.
      * right. split; [done|]. exists i, t'. split_and!; [|done|by apply Hpr|].
        -- apply list_lookup_insert_eq. by eapply lookup_lt_Some.
        -- cbn [threads]. intros k x Hk Hne. rewrite list_lookup_insert_ne in Hk by done. apply H3. by eapply list_elem_of_lookup_2.
    + destruct (decide (i = j)) as [->|Hij].
      * simplify_eq. destruct (inside_step _ _ _ _ _ Hst H3 H4) as [Hh [[Hp Hpr]|(Hp & He & Hpo)]].
        -- right. cbn [shared threads]. split; [congruence|]. exists j, t'. split_and!; try done.
           { apply list_lookup_insert_eq. by eapply lookup_lt_Some. }
           intros k x Hk Hne. rewrite list_lookup_insert_ne in Hk by done. by eapply H5.
        -- left. split_and!; try done. cbn [threads]. intros x (k & Hk)%list_elem_of_lookup.
           apply list_lookup_insert_Some in Hk as [(-> & <- & _)|[Hne Hk]]; [done|]. by eapply H5.
      * assert (Hpt : past t = false) by by eapply H5.
        destruct (outside_step _ _ _ _ _ Hst Hpt) as [(Hp & Hk & Hh)|(_ & Hf & _)]; [|congruence].
        right. cbn [shared threads]. split; [by apply Hh|]. exists j, u. split_and!; try done.
        -- by rewrite list_lookup_insert_ne.
        -- by eapply progress_kept.
        -- intros k x Hkx Hne. apply list_lookup_insert_Some in Hkx as [(-> & <- & _)|[_ Hkx]]; [done|]. by eapply H5.
Qed.

Lemma reachable_inv h l y : rtc sstep (fresh h l) y -> inv y.
Proof.
  intros Hr. assert (H0 : inv (fresh h l)) by (left; split_and!; [done..|intros t []%not_elem_of_nil]).
  revert H0. induction Hr as [|x y z Hxy _ IH]; [done|]. intros Hi. apply IH. by eapply inv_step.
Qed.

(** ** At most one transfer *)

(** The record and the handoff of one call. *)
Definition recorded (c : call) (s : session) : Prop :=
  (exists now, transfer_call_events s = [start_event now c]) \/
  exists now now' st lat ok, transfer_call_events s = [start_event now c; end_event now' c st lat ok].

Lemma progress_recorded t s : past t = true -> progress t s ->
  (transfer_call_events s = [] /\ posts s = []) \/
  recorded (call_of t) s /\ (posts s = [] \/ posts s = [handoff_of (call_of t)]).
Proof.
  intros Hp [H _]. unfold recorded. destruct t as [c b|c|c|c|c r|c [| | | |e]]; cbn [call_of past] in *; try done; try (by left).
  - right. naive_solver.
  - right. naive_solver.
  - right. destruct H as (H1 & H2 & _). split; [by right|]. rewrite H2. destruct on_telephony; auto.
  - right. naive_solver.
Qed.

(** C28: However many times the model asks for a transfer, on either path, and however the
    attempts interleave with each other, with the caller's audio and with cancellations:
    either nothing is recorded and nothing posted, or all that is recorded and posted is
    of one attempt, and every other one stopped at the guard, raised, or has not started.
    The record is then the start of that attempt, or its start and its end; and nothing
    was posted or one handoff, to the target and with the payload of that attempt. At most
    one POST is under way. *)
Theorem transfer_once h l y : rtc sstep (fresh h l) y ->
  ((transfer_call_events (shared y) = [] /\ posts (shared y) = []) \/
   exists i t, threads y !! i = Some t /\ past t = true /\
     recorded (call_of t) (shared y) /\ (posts (shared y) = [] \/ posts (shared y) = [handoff_of (call_of t)]) /\
     forall j t', threads y !! j = Some t' -> j <> i -> past t' = false) /\
  (forall i j c c' r r', threads y !! i = Some (Posting c r) -> threads y !! j = Some (Posting c' r') -> i = j).
Proof.
  intros Hi%reachable_inv. destruct Hi as [(H1 & H2 & H3)|(H1 & i & t & H2 & H3 & H4 & H5)].
  - split; [by left|]. intros i j c c' r r' Hi. apply list_elem_of_lookup_2, H3 in Hi. done.
  - split.
    + destruct (progress_recorded t (shared y) H3 H4) as [?|[Hr Hp]]; [by left|right]. by exists i, t.
    + intros j k c c' r r' Hj Hk. destruct (decide (j = i)) as [->|Hji]; [|by apply H5 in Hj].
      destruct (decide (k = i)) as [->|Hki]; [done|by apply H5 in Hk].
Qed.

Definition live (t : thread) : bool := match t with Over _ _ => false | _ => true end.
(** How many steps a thread has left, not counting the polls of the audio. *)
Definition left_to_do (t : thread) : nat :=
  match t with Ready _ _ => 5 | Before _ => 4 | Asleep _ => 3 | Waiting _ => 2 | Posting _ _ => 1 | Over _ _ => 0 end.
Definition was_cut (t : thread) : bool := match t with Over _ (CutAsleep | CutWaiting) => true | _ => false end.

(** A poll that finds audio changes nothing; every other step leaves less to do. *)
Lemma step_advances p s t s' t' : tstep p s t s' t' ->
  (p = true /\ s' = s /\ t' = t) \/ (left_to_do t' < left_to_do t)%nat.
Proof. destruct 1; try (right; cbn; lia). by left. Qed.

(** A live thread is not cut off only to stop; while audio plays it may have to poll. *)
Lemma live_advances p s t : live t = true ->
  exists s' t', tstep p s t s' t' /\ was_cut t' = false /\ (p = false -> (left_to_do t' < left_to_do t)%nat).
Proof.
  intros Ht. destruct t as [c [|]|c|c|c|c r|c o]; try done.
  - destruct (begin_s2s 0%Q c s) as [s' [|c'|e]] eqn:Hb; do 2 eexists; (split; [by econstructor|]); split; [done|cbn; lia..].
  - destruct (begin_transfer 0%Q c s) as [s' [|c'|e]] eqn:Hb; do 2 eexists; (split; [by econstructor|]); split; [done|cbn; lia..].
  - do 2 eexists. split; [apply step_spoke|]. split; [done|cbn; lia].
  - destruct on_telephony eqn:Ht'.
    + do 2 eexists. split; [exact (step_announce p 0%Q 0%Q c s Ht')|]. split; [done|cbn; lia].
    + do 2 eexists. split; [exact (step_mocked p 0%Q 0%Q c s Ht')|]. split; [done|cbn; lia].
  - destruct p.
    + do 2 eexists. split; [by apply step_poll|]. done.
    + do 2 eexists. split; [by apply (step_post _ 0%Q)|]. split; [done|cbn; lia].
  - do 2 eexists. split; [apply (step_settle _ 0%Q _ _ None)|]. split; [done|cbn; lia].
Qed.

(** C29: A transfer comes to its end and is told. Without being cancelled, a task that is
    not over can take a step, and when the caller is played no audio one that brings it
    nearer its end; a step that does not is a poll of the audio that still plays and
    changes nothing, so a task takes at most five others. When all tasks are over and none
    was cancelled while it waited for the audio, a record that has a start is the start
    and the end of one task, whose handoff was posted (on a telephone line) and whose own
    request is closed in the ledger. *)
Theorem transfer_told h l y : rtc sstep (fresh h l) y ->
  (forall t, t ∈ threads y -> live t = true -> exists s' t', tstep (playing y) (shared y) t s' t' /\ was_cut t' = false /\
     (playing y = false -> (left_to_do t' < left_to_do t)%nat)) /\
  (forall t s' t', tstep (playing y) (shared y) t s' t' ->
     (playing y = true /\ s' = shared y /\ t' = t) \/ (left_to_do t' < left_to_do t <= 5)%nat) /\
  ((forall t, t ∈ threads y -> live t = false) -> (forall c, Over c CutWaiting ∉ threads y) -> transfer_call_events (shared y) <> [] ->
   exists c, Over c Ended ∈ threads y /\
     (exists now now' st lat ok, transfer_call_events (shared y) = [start_event now c; end_event now' c st lat ok]) /\
     posts (shared y) = (if on_telephony then [handoff_of c] else []) /\
     exists i d, details (shared y) !! i = Some d /\ row_of c d /\ closed d).
Proof.
  intros Hi%reachable_inv. split_and!.
  - intros t _. apply live_advances.
  - intros t s' t' Hs. destruct (step_advances _ _ _ _ _ Hs) as [?|?]; [by left|right]. split; [done|]. destruct t; cbn; lia.
  - intros Hover Hcut Hne. destruct Hi as [(H1 & _)|(H1 & i & t & H2 & H3 & [H4 _] & H5)]; [done|].
    apply list_elem_of_lookup_2 in H2. specialize (Hover t H2).
    destruct t as [c b|c|c|c|c r|c [| | | |e]]; try done.
    + by exists c.
    + by destruct H4.
    + by apply Hcut in H2.
Qed.

(** ** What the handoff says *)
Lemma with_call_sid_other k d : k <> "call_sid" -> dget k (with_call_sid d) = dget k d.
Proof. intros Hk. unfold with_call_sid. destruct on_telephony; [by rewrite dget_dset_ne|done]. Qed.

Lemma corrected_id c : dget "execution_id" (c_resp (corrected c)) = None \/
  dget "execution_id" (c_resp (corrected c)) = Some (VStr (f_run_id f)).
Proof.
  unfold corrected. destruct (dget "execution_id" (c_resp c)) as [v|] eqn:Hv; [|by left]. right.
  destruct (val_eqb v (VStr (f_run_id f))) eqn:He; [by apply val_eqb_str in He as ->|cbn [c_resp]; apply dget_dset_eq].
Qed.

(** The handoff names this very call: on a telephone line the payload holds the
    line's own call identifier whatever the model wrote into its arguments, and,
    unless the deployment sets one itself, the run's own identifier, also when the
    model made one up. *)
Theorem handoff_names_call c :
  dwf (c_resp c) -> dwf (default [] (f_transfer_params f)) ->
  dget "execution_id" (default [] (f_transfer_params f)) = None ->
  (on_telephony = true -> dget "call_sid" (transfer_payload (corrected c)) = Some (f_call_sid f)) /\
  dget "execution_id" (transfer_payload (corrected c)) = Some (VStr (f_run_id f)).
Proof.
  intros Hw Hwp Hp. split; [intros Ht; unfold transfer_payload, with_call_sid; rewrite Ht; apply dget_dset_eq|].
  assert (Hwc : dwf (c_resp (corrected c))).
  { unfold corrected. destruct (dget "execution_id" (c_resp c)) as [v|]; [|done].
    destruct (val_eqb v _); [done|by apply dset_wf]. }
  unfold transfer_payload. rewrite with_call_sid_other by done.
  set (base := if is_none (c_url (corrected c)) && _ then _ else _).
  assert (Hb : dget "execution_id" base = Some (VStr (f_run_id f))).
  { unfold base. destruct (is_none _ && _); [rewrite dget_dset_ne by done|];
      (rewrite with_call_sid_other by done); rewrite dupdate_get, Hp by done; vm_compute; reflexivity. }
  destruct (is_none (c_param (corrected c))); [exact Hb|].
  rewrite dupdate_get by done. by destruct (corrected_id c) as [->| ->].
Qed.
End transfer.

Module Example.
Import ToolCalls.Example.

Definition line : config :=
  Config "run-7" (VStr "agent-1") "plivo" (VStr "stream-1") (VStr "sid-1") None None
    [("transfer_call_desk", [])] None (Some "https://line.example/transfer") 0%Q.
Definition hooked : config :=
  Config "run-7" (VStr "agent-1") "plivo" (VStr "stream-1") (VStr "sid-1") None None
    [("transfer_call_desk", [("pre_call_webhook_url", VStr "https://hooks.example/");
                             ("pre_call_webhook_param", VStr (q "['%(reason)s']"))])] None None 0%Q.

Definition asked : dict string val :=
  [("model_response", VList [VDict [("id", VStr "c1")]]); ("tool_call_id", VStr "c1"); ("execution_id", VStr "run-8")].
Definition desk : call := Call "transfer_call_desk" VNone (VDict [("call_transfer_number", VStr "+491")]) asked [("turn_id", VInt 3)].
Definition none : History.history := History.mkHistory [] [].

Notation run f := (rtc (sstep str_other float_repr convert convert_all text_of f)).
Notation first_turn f := (begin_transfer str_other float_repr convert convert_all f 0%Q desk (Session false none true [] [] [] [])).

#[local] Ltac asks c := eapply rtc_l; [apply (sys_new _ _ _ _ _ _ _ _ _ c false)|].
#[local] Ltac audio b := eapply rtc_l; [apply (sys_audio _ _ _ _ _ _ _ b)|].
#[local] Ltac moves i tac := eapply rtc_l; [eapply (sys_thread _ _ _ _ _ _ _ _ _ i); [reflexivity|tac]|].
#[local] Ltac handed := apply (step_handed _ _ _ _ _ _ _ 0%Q); reflexivity.
#[local] Ltac announced := apply (step_announce _ _ _ _ _ _ _ 0%Q 0%Q); reflexivity.
#[local] Ltac posted := apply (step_post _ _ _ _ _ _ _ 0%Q); reflexivity.

(** Two attempts, of which one gets through, once the caller's audio has ended. *)
Notation served := (corrected line desk).
Lemma two_attempts : exists s, run line (fresh none []) (System false s [Over served Ended; Over desk WasDuplicate]) /\ length (posts s) = 1%nat.
Proof.
  eexists. split.
  - asks desk. asks desk. audio true. moves 0%nat handed.
    moves 1%nat ltac:(apply (step_duplicate _ _ _ _ _ _ _ 0%Q); reflexivity).
    moves 0%nat announced. moves 0%nat ltac:(apply step_poll; reflexivity). audio false. moves 0%nat posted.
    moves 0%nat ltac:(apply (step_settle _ _ _ _ _ _ _ 0%Q _ _ (Some (Ok (Response 200 "ok" None))))).
    apply rtc_refl.
  - reflexivity.
Defined.

Lemma transfer_once_witness : exists s, run line (fresh none []) (System false s [Over served Ended; Over desk WasDuplicate]) /\
  length (posts s) = 1%nat /\
  ((transfer_call_events s = [] /\ posts s = []) \/
   exists i t, [Over served Ended; Over desk WasDuplicate] !! i = Some t /\ past t = true /\ recorded line (call_of t) s).
Proof.
  destruct two_attempts as (s & Hr & Hl). exists s. split; [exact Hr|]. split; [exact Hl|].
  destruct (transfer_once _ _ _ _ _ _ _ _ _ Hr) as [[H|(i & t & H1 & H2 & H3 & _)] _]; [by left|right]. by exists i, t.
Defined.

Lemma transfer_told_witness : exists s, run line (fresh none []) (System false s [Over served Ended; Over desk WasDuplicate]) /\
  (transfer_call_events s <> [] ->
   exists c, Over c Ended ∈ [Over served Ended; Over desk WasDuplicate] /\ posts s = [handoff_of line c] /\
     exists i d, details s !! i = Some d /\ row_of line c d /\ closed d).
Proof.
  destruct two_attempts as (s & Hr & _). exists s. split; [exact Hr|]. intros Hne.
  destruct (transfer_told _ _ _ _ _ _ _ _ _ Hr) as (_ & _ & Ht).
  destruct Ht as (c & Hc & _ & Hp & Hd); [| |exact Hne|by exists c].
  - intros t Ht. apply elem_of_cons in Ht as [->|Ht]; [reflexivity|]. by apply list_elem_of_singleton in Ht as ->.
  - intros c Hin. apply elem_of_cons in Hin as [?|Hin]; [done|]. by apply list_elem_of_singleton in Hin.
Defined.

Lemma handoff_names_call_witness :
  dget "execution_id" (c_resp desk) = Some (VStr "run-8") /\
  dget "execution_id" (transfer_payload line (corrected line desk)) = Some (VStr "run-7").
Proof.
  split; [reflexivity|].
  apply (handoff_names_call line desk); [apply (bool_decide_unpack (NoDup _)); vm_compute; exact I|constructor|reflexivity].
Defined.

(** Cancelled while the caller's audio still plays, a transfer leaves a start without
    an end. *)
Lemma cut_leaves_start : exists s now, run line (fresh none []) (System true s [Over served CutWaiting]) /\
  transfer_call_events s = [start_event line now served] /\ has_transfer s = true.
Proof.
  eexists. exists 0%Q. split.
  - asks desk. audio true. moves 0%nat handed. moves 0%nat announced. moves 0%nat ltac:(apply step_cut_waiting). apply rtc_refl.
  - split; reflexivity.
Qed.

(** A webhook template that is no object makes the attempt raise behind the guard:
    nothing is transferred, and no later attempt can be. *)
Lemma lost_transfer : exists s, run hooked (fresh none []) (System false s [Over desk (Threw TypeError)]) /\
  has_transfer s = true /\ transfer_call_events s = [] /\ posts s = [] /\
  (begin_transfer str_other float_repr convert convert_all hooked 1%Q desk s).2 = Duplicate.
Proof.
  eexists. split.
  - asks desk. moves 0%nat ltac:(apply (step_raised _ _ _ _ _ _ _ 0%Q); reflexivity). apply rtc_refl.
  - repeat split; reflexivity.
Qed.

(** An argument of the model called [url] decides where the handoff is posted; no
    guard looks at it. *)
Definition steered : call :=
  Call "transfer_call_desk" (VStr "http://169.254.169.254/latest") (VDict [("call_transfer_number", VStr "+491")]) asked [].
Lemma model_chooses_endpoint : exists s, run line (fresh none []) (System false s [Posting (corrected line steered) 0]) /\
  map fst (posts s) = [VStr "http://169.254.169.254/latest"].
Proof.
  eexists. split.
  - asks steered. moves 0%nat handed. moves 0%nat announced. moves 0%nat posted. apply rtc_refl.
  - reflexivity.
Qed.
End Example.
End Transfer.
