(* ===== verification/PromptRender.v ===== *)
(** * Prompt variables
    (src/voiceai/helpers/utils.py: render_prompt and what it uses)

    A prompt holds [{{path}}] and [{path}] variables among any other text, JSON
    included. The pattern of a variable is matched by hand, greedily; it is proved
    below to be the regular expression of the source. [str()] of a float, list or
    dict, the [repr] of a float and [format] with a specification are arguments. *)
From S2P Require Import Prelude PyText PyVal Json ToolCalls.
From Stdlib Require Import QArith.QArith.
Close Scope Q_scope.
Open Scope Z_scope.

Module PromptRender.
Notation code := Stdlib.Strings.Ascii.nat_of_ascii.
Notation char := Stdlib.Strings.Ascii.ascii_of_nat.

Definition SERVER_OWNED_CALL_IDENTIFIERS : list string := ["call_sid"; "stream_sid"].

(** ** The pattern *)
Definition is_letter (c : ascii) : bool :=
  let n := code c in (((65 <=? n) && (n <=? 90)) || ((97 <=? n) && (n <=? 122)))%nat.
Definition is_head (c : ascii) : bool := is_letter c || bool_decide (c = "_"%char).
Definition is_name (c : ascii) : bool := is_head c || ((48 <=? code c) && (code c <=? 57))%nat.
Definition is_dotted (c : ascii) : bool := is_name c || bool_decide (c = "-"%char).
Definition is_inside (c : ascii) : bool := negb (bool_decide (c ∈ ["["%char; "]"%char; "{"%char; "}"%char])).
Definition no_brace (c : ascii) : bool := negb (bool_decide (c ∈ ["{"%char; "}"%char])).

Fixpoint span (p : ascii -> bool) (l : text) : text * text :=
  match l with
  | c :: l' => if p c then let '(w, r) := span p l' in (c :: w, r) else ([], l)
  | [] => ([], [])
  end.

(** One [.segment] or [[index]] at the head. *)
Definition segment_at (l : text) : option (text * text) :=
  match l with
  | c :: l1 =>
      if bool_decide (c = "."%char) then
        match span is_dotted l1 with
        | ([], _) => None
        | (w, r) => Some (c :: w, r)
        end
      else if bool_decide (c = "["%char) then
        match span is_inside l1 with
        | (d :: w, b :: r) => if bool_decide (b = "]"%char) then Some (c :: d :: w ++ [b], r) else None
        | _ => None
        end
      else None
  | [] => None
  end.

Fixpoint segments_at (fuel : nat) (l : text) : text * text :=
  match fuel with
  | O => ([], l)
  | S f => match segment_at l with
           | Some (s, r) => let '(w, r2) := segments_at f r in (s ++ w, r2)
           | None => ([], l)
           end
  end.

Definition path_at (l : text) : option (text * text) :=
  match l with
  | c :: l1 =>
      if is_head c then
        let '(w, r) := span is_name l1 in
        let '(s, r2) := segments_at (length r) r in
        Some (c :: w ++ s, r2)
      else None
  | [] => None
  end.

(** Behind [{{]. *)
Definition double_at (l : text) : option (text * text) :=
  match path_at (span is_space l).2 with
  | Some (p, r) => match (span is_space r).2 with
                   | a :: b :: r2 => if bool_decide (a = "}"%char /\ b = "}"%char) then Some (p, r2) else None
                   | _ => None
                   end
  | None => None
  end.

(** Behind [{]: the path, the specification with its colon, and the rest. *)
Definition single_at (l : text) : option (text * option text * text) :=
  match path_at l with
  | Some (p, c :: r) =>
      if bool_decide (c = "}"%char) then Some (p, None, r)
      else if bool_decide (c = ":"%char) then
        match span no_brace r with
        | (w, b :: r2) => if bool_decide (b = "}"%char) then Some (p, Some (c :: w), r2) else None
        | _ => None
        end
      else None
  | _ => None
  end.

Inductive token : Type := Double (path : text) | Single (path : text) (spec : option text).

Definition token_at (l : text) : option (token * text) :=
  match l with
  | a :: l1 =>
      if bool_decide (a = "{"%char) then
        match (match l1 with b :: l2 => if bool_decide (b = "{"%char) then double_at l2 else None | [] => None end) with
        | Some (p, r) => Some (Double p, r)
        | None => match single_at l1 with
                  | Some (p, s, r) => Some (Single p s, r)
                  | None => None
                  end
        end
      else None
  | [] => None
  end.

(** ** Values *)
Definition is_container (v : val) : bool := match v with VDict _ | VList _ => true | _ => false end.

Definition parse_json_container (v : val) : val :=
  match v with
  | VStr s =>
      let trimmed := strip s in
      if startswith trimmed "{" || startswith trimmed "[" then
        match Json.loads trimmed with
        | Some p => if is_container p then p else v
        | None => v
        end
      else v
  | _ => v
  end.

(** [str.isdigit], in Latin-1. *)
Definition isdigit (l : text) : bool :=
  match l with
  | [] => false
  | _ => forallb (fun c => ((48 <=? code c) && (code c <=? 57))%nat || bool_decide (code c ∈ [178; 179; 185]%nat)) l
  end.

Fixpoint lstrip_minus (l : text) : text :=
  match l with c :: l' => if bool_decide (c = "-"%char) then lstrip_minus l' else l | [] => [] end.

Definition path_parts (path : text) : list text :=
  split_on_chars "."%char []
    (List.filter (fun c => negb (bool_decide (c = "]"%char))) (map (fun c => if bool_decide (c = "["%char) then "."%char else c) path)).

(** [None]: not found; an error: [int()] raises. *)
Fixpoint walk_path (parts : list text) (current : val) : result unit (option val) :=
  match parts with
  | [] => Ok (Some current)
  | [] :: parts' => walk_path parts' current
  | part :: parts' =>
      match parse_json_container current with
      | VDict d => match dget (of_chars part) d with Some v => walk_path parts' v | None => Ok None end
      | VList l =>
          if negb (isdigit (lstrip_minus part)) then Ok None
          else match int_text (of_chars part) with
               | None => Err tt
               | Some index =>
                   let n := Z.of_nat (length l) in
                   if (- n <=? index) && (index <? n) then
                     match l !! Z.to_nat (if index <? 0 then n + index else index) with
                     | Some v => walk_path parts' v
                     | None => Ok None
                     end
                   else Ok None
               end
      | _ => Ok None
      end
  end.

Definition resolve_variable_path (path : text) (data : dict string val) : result unit (option val) :=
  walk_path (path_parts path) (VDict data).

Section render.
Context (str_other : val -> string) (float_repr : Q -> string).
(** [format(value, spec)]; [None]: it raises. *)
Context (format_spec : val -> string -> option string).

(** [json.dumps(value, ensure_ascii=False)] *)
Definition raw_escape (c : ascii) : text := if (code c <? 127)%nat then Json.escape c else [c].
Definition raw_string (s : string) : text := char 34 :: concat (map raw_escape (chars s)) ++ [char 34].
Fixpoint raw_dump (v : val) : text :=
  match v with
  | VStr s => raw_string s
  | VList l => ["["%char] ++ Json.sep_by [","%char; " "%char] (map raw_dump l) ++ ["]"%char]
  | VDict d => ["{"%char] ++ Json.sep_by [","%char; " "%char]
                 (map (fun kv => raw_string kv.1 ++ [":"%char; " "%char] ++ raw_dump kv.2) d) ++ ["}"%char]
  | v => Json.dump float_repr v
  end.

Definition render_variable_value (v : val) (as_json : bool) : text :=
  match v with
  | VStr s => chars s
  | VDict _ | VList _ => if as_json then raw_dump v else chars (ToolCalls.py_str str_other v)
  | _ => chars (ToolCalls.py_str str_other v)
  end.

(** What a token becomes; [raw] is its own text. [missing] is [None] in partial-fill
    mode. *)
Definition substitute (data : dict string val) (missing : option string) (t : token) (raw : text) : result unit text :=
  let path := match t with Double p | Single p _ => p end in
  let spec := match t with Double _ => None | Single _ s => s end in
  match resolve_variable_path path data with
  | Err e => Err e
  | Ok None =>
      match missing, spec with
      | None, _ | _, Some _ => Ok raw
      | Some m, None => Ok (match t with Double _ => "{"%char :: path ++ ["}"%char] | Single _ _ => chars m end)
      end
  | Ok (Some v) =>
      match spec with
      | Some s => match missing with
                  | None => Ok raw
                  | Some _ => Ok (match format_spec v (of_chars (tail s)) with Some w => chars w | None => raw end)
                  end
      | None => Ok (render_variable_value v (match t with Double _ => true | Single _ _ => false end))
      end
  end.

(** [PROMPT_TOKEN_PATTERN.sub]: from left to right, each match once. *)
Fixpoint sub (fuel : nat) (data : dict string val) (missing : option string) (l : text) : result unit text :=
  match fuel, l with
  | _, [] => Ok []
  | O, _ => Err tt
  | S f, c :: l' =>
      match token_at l with
      | Some (t, r) =>
          match substitute data missing t (take (length l - length r) l) with
          | Err e => Err e
          | Ok w => match sub f data missing r with Ok out => Ok (w ++ out) | Err e => Err e end
          end
      | None => match sub f data missing l' with Ok out => Ok (c :: out) | Err e => Err e end
      end
  end.

Definition render_prompt (template data : val) (missing : option string) : val :=
  match template with
  | VStr s =>
      let l := chars s in
      match sub (length l) (match data with VDict d => d | _ => [] end) missing l with
      | Ok out => VStr (of_chars out)
      | Err _ => VStr s
      end
  | v => v
  end.

Definition update_prompt_with_context (prompt : val) (context_data : option (dict string val)) : val :=
  match context_data with
  | Some d =>
      match dget "recipient_data" d with
      | Some (VDict r) =>
          render_prompt prompt (VDict (List.filter (fun kv => negb (bool_decide (kv.1 ∈ SERVER_OWNED_CALL_IDENTIFIERS))) r))
            (Some "")
      | _ => render_prompt prompt (VDict []) (Some "")
      end
  | None => render_prompt prompt (VDict []) (Some "")
  end.
End render.

(** ** The matcher is the regular expression *)
Definition segment (s : text) : Prop :=
  (exists w, w <> [] /\ Forall (fun c => is_dotted c = true) w /\ s = "."%char :: w) \/
  (exists w, w <> [] /\ Forall (fun c => is_inside c = true) w /\ s = "["%char :: w ++ ["]"%char]).

(** [VARIABLE_PATH] *)
Definition is_path (p : text) : Prop :=
  exists h w segs, is_head h = true /\ Forall (fun c => is_name c = true) w /\ Forall segment segs /\ p = h :: w ++ concat segs.

(** [PROMPT_TOKEN_PATTERN], at the head of a text. *)
Definition matches (t : token) (l r : text) : Prop :=
  match t with
  | Double p => is_path p /\ exists ws1 ws2, Forall (fun c => is_space c = true) (ws1 ++ ws2) /\
      l = ["{"%char; "{"%char] ++ ws1 ++ p ++ ws2 ++ ["}"%char; "}"%char] ++ r
  | Single p None => is_path p /\ l = ["{"%char] ++ p ++ ["}"%char] ++ r
  | Single p (Some s) => is_path p /\ (exists w, s = ":"%char :: w /\ Forall (fun c => no_brace c = true) w) /\
      l = ["{"%char] ++ p ++ s ++ ["}"%char] ++ r
  end.

Definition stops (p : ascii -> bool) (r : text) : Prop := match r with c :: _ => p c = false | [] => True end.

Lemma span_sound p l w r : span p l = (w, r) -> l = w ++ r /\ Forall (fun c => p c = true) w /\ stops p r.
Proof.
  revert w r. induction l as [|c l IH]; intros w r; cbn [span]; [by intros [= <- <-]|].
  destruct (p c) eqn:Hc; [|by intros [= <- <-]]. destruct (span p l) as [w' r'] eqn:Hs. intros [= <- <-].
  destruct (IH _ _ eq_refl) as (-> & Hw & Hr). by repeat constructor.
Qed.

Lemma span_complete p w r : Forall (fun c => p c = true) w -> stops p r -> span p (w ++ r) = (w, r).
Proof.
  intros Hw Hr. induction Hw as [|c w Hc Hw IH]; cbn [app span].
  - destruct r as [|c r]; [done|]. cbn [span]. by rewrite Hr.
  - by rewrite Hc, IH.
Qed.

Lemma segment_sound l s r : segment_at l = Some (s, r) -> segment s /\ l = s ++ r /\ s <> [].
Proof.
  destruct l as [|c l1]; [done|]. cbn [segment_at]. case_bool_decide as H1; [subst|case_bool_decide as H2; [subst|done]].
  - destruct (span is_dotted l1) as [[|d w] r'] eqn:Hs; [done|]. intros [= <- <-].
    apply span_sound in Hs as (-> & Hw & _). split; [left; by exists (d :: w)|done].
  - destruct (span is_inside l1) as [[|d w] [|b r']] eqn:Hs; try done. case_bool_decide as H3; [|done]. intros [= <- <-]. subst b.
    apply span_sound in Hs as (-> & Hw & _). split; [right; by exists (d :: w)|]. cbn. by rewrite <- app_assoc.
Qed.

(** A character no path goes on with. *)
Definition closes (c : ascii) : bool := negb (is_dotted c) && negb (bool_decide (c ∈ ["."%char; "["%char])).
Definition ended (r : text) : Prop := match r with c :: _ => closes c = true | [] => True end.

Lemma ended_stops r : ended r -> stops is_dotted r /\ stops is_name r /\ segment_at r = None.
Proof.
  destruct r as [|c r]; [done|]. cbn. unfold closes. intros [H1%negb_true_iff H2%negb_true_iff]%andb_prop.
  apply bool_decide_eq_false in H2. split_and!; [done|by apply orb_false_iff in H1 as [? _]|].
  rewrite !bool_decide_eq_false_2 by set_solver. done.
Qed.

Lemma segment_complete s r : segment s -> stops is_dotted r -> segment_at (s ++ r) = Some (s, r).
Proof.
  intros [(w & Hn & Hw & ->)|(w & Hn & Hw & ->)] Hr; cbn [app segment_at].
  - rewrite bool_decide_eq_true_2 by done. rewrite span_complete by done. by destruct w.
  - rewrite bool_decide_eq_false_2, bool_decide_eq_true_2 by done. rewrite <- app_assoc. rewrite span_complete by done.
    destruct w as [|d w]; [done|]. cbn. by rewrite bool_decide_eq_true_2.
Qed.

Lemma segment_starts segs r : Forall segment segs -> ended r -> stops is_dotted (concat segs ++ r) /\ stops is_name (concat segs ++ r).
Proof.
  intros Hs Hr. destruct Hs as [|s segs Hs _]; cbn [concat app]; [by apply ended_stops in Hr as (? & ? & _)|].
  by destruct Hs as [(w & _ & _ & ->)|(w & _ & _ & ->)].
Qed.

Lemma segments_sound fuel : forall l w r, segments_at fuel l = (w, r) -> exists segs, Forall segment segs /\ w = concat segs /\ l = w ++ r.
Proof.
  induction fuel as [|f IH]; intros l w r; cbn [segments_at]; [intros [= <- <-]; by exists []|].
  destruct (segment_at l) as [[s r1]|] eqn:Hs; [|intros [= <- <-]; by exists []].
  destruct (segments_at f r1) as [w1 r2] eqn:Hr. intros [= <- <-]. apply segment_sound in Hs as (Hs & -> & _).
  destruct (IH _ _ _ Hr) as (segs & Hsegs & -> & ->). exists (s :: segs). split_and!; [by constructor|done|by rewrite app_assoc].
Qed.

Lemma segments_complete segs r : forall fuel, Forall segment segs -> ended r -> (length (concat segs) <= fuel)%nat ->
  segments_at fuel (concat segs ++ r) = (concat segs, r).
Proof.
  induction segs as [|s segs IH]; intros fuel Hs Hr Hf.
  - destruct fuel; [done|]. cbn [concat app segments_at]. by apply ended_stops in Hr as (_ & _ & ->).
  - apply Forall_cons in Hs as [Hs Hsegs]. cbn [concat] in *. rewrite length_app in Hf.
    assert (0 < length s)%nat by (destruct Hs as [(w & _ & _ & ->)|(w & _ & _ & ->)]; simpl; lia).
    destruct fuel as [|f]; [lia|]. cbn [segments_at]. rewrite <- app_assoc.
    rewrite segment_complete by (try done; by apply segment_starts). rewrite IH by (done || lia). done.
Qed.

Lemma path_sound l p r : path_at l = Some (p, r) -> is_path p /\ l = p ++ r.
Proof.
  destruct l as [|c l1]; [done|]. cbn [path_at]. destruct (is_head c) eqn:Hc; [|done].
  destruct (span is_name l1) as [w r1] eqn:Hs. destruct (segments_at (length r1) r1) as [s r2] eqn:Hr. intros [= <- <-].
  apply span_sound in Hs as (-> & Hw & _). apply segments_sound in Hr as (segs & Hsegs & -> & ->). split.
  - by exists c, w, segs.
  - cbn. by rewrite app_assoc.
Qed.

Lemma path_complete p r : is_path p -> ended r -> path_at (p ++ r) = Some (p, r).
Proof.
  intros (h & w & segs & Hh & Hw & Hs & ->) Hr. cbn [app path_at]. rewrite Hh. rewrite <- app_assoc.
  rewrite span_complete by (try done; by apply segment_starts).
  rewrite segments_complete by (try done; rewrite length_app; lia). done.
Qed.

Lemma closes_space c : is_space c = true -> closes c = true.
Proof. by destruct c as [[] [] [] [] [] [] [] []]; vm_compute. Qed.

Lemma double_exact l p r : double_at l = Some (p, r) <->
  is_path p /\ exists ws1 ws2, Forall (fun c => is_space c = true) (ws1 ++ ws2) /\ l = ws1 ++ p ++ ws2 ++ ["}"%char; "}"%char] ++ r.
Proof.
  unfold double_at. split.
  - destruct (span is_space l) as [ws1 l1] eqn:H1. cbn [snd]. destruct (path_at l1) as [[p' l2]|] eqn:H2; [|done].
    destruct (span is_space l2) as [ws2 l3] eqn:H3. cbn [snd]. destruct l3 as [|a [|b r']]; try done.
    case_bool_decide as H4; [|done]. destruct H4 as [-> ->]. intros [= <- <-].
    apply span_sound in H1 as (-> & Hw1 & _). apply path_sound in H2 as (Hp & ->). apply span_sound in H3 as (-> & Hw2 & _).
    split; [done|]. exists ws1, ws2. split; [by apply Forall_app|done].
  - intros (Hp & ws1 & ws2 & [Hw1 Hw2]%Forall_app & ->).
    assert (Hst : stops is_space (p ++ ws2 ++ ["}"%char; "}"%char] ++ r)).
    { destruct Hp as (h & w & segs & Hh & _ & _ & ->). cbn. destruct (is_space h) eqn:E; [|done].
      exfalso. revert E Hh. by destruct h as [[] [] [] [] [] [] [] []]; vm_compute. }
    rewrite span_complete by done. cbn [snd]. rewrite path_complete; [|done|].
    + rewrite span_complete by done. cbn. by rewrite bool_decide_eq_true_2.
    + destruct ws2 as [|c ws2]; [done|]. apply Forall_cons in Hw2 as [Hc _]. by apply closes_space.
Qed.

Lemma single_exact l p s r : single_at l = Some (p, s, r) <-> matches (Single p s) ("{"%char :: l) r.
Proof.
  unfold single_at, matches. split.
  - destruct (path_at l) as [[p' [|c l1]]|] eqn:H1; try done. apply path_sound in H1 as (Hp & ->).
    case_bool_decide as Hc; [subst; intros [= <- <- <-]; done|]. case_bool_decide as Hc2; [subst|done].
    destruct (span no_brace l1) as [w [|b r']] eqn:H2; [done|]. apply span_sound in H2 as (-> & Hw & _).
    case_bool_decide as Hb; [subst|done]. intros [= <- <- <-]. split_and!; [done|by exists w|done].
  - destruct s as [s|].
    + intros (Hp & (w & -> & Hw) & [= ->]). rewrite path_complete by done. cbn.
      by rewrite span_complete.
    + intros (Hp & [= ->]). by rewrite path_complete.
Qed.

Lemma double_not_single p ws1 ws2 r' q s r :
  ~ matches (Single q s) (["{"%char; "{"%char] ++ ws1 ++ p ++ ws2 ++ ["}"%char; "}"%char] ++ r') r.
Proof.
  assert (Hq : forall l, is_path q -> q ++ l <> "{"%char :: ws1 ++ p ++ ws2 ++ ["}"%char; "}"%char] ++ r').
  { intros l (h & w & segs & Hh & _ & _ & ->) [= -> _]. done. }
  destruct s as [s|]; cbn [matches].
  - intros (Hp & _ & [= He]). by eapply Hq.
  - intros (Hp & [= He]). by eapply Hq.
Qed.

(** C30: The matcher that decides what is a variable accepts, at the head of any text,
    exactly the strings of the regular expression in the source, with the same parts;
    a text matches in at most one way, so neither greed nor the order of the
    alternatives decides anything. *)
Theorem token_exact l t r : token_at l = Some (t, r) <-> matches t l r.
Proof.
  destruct l as [|a l1]; [split; [done|]; destruct t as [p|p [s|]]; cbn; naive_solver|]. cbn [token_at].
  case_bool_decide as Ha; cycle 1.
  { split; [done|]. destruct t as [p|p [s|]]; cbn; naive_solver. }
  subst a. split.
  - destruct (match l1 with b :: l2 => if bool_decide (b = "{"%char) then double_at l2 else None | [] => None end) as [[p r']|] eqn:Hd.
    + intros [= <- <-]. destruct l1 as [|b l2]; [done|]. case_bool_decide as Hb; [subst|done].
      apply double_exact in Hd as (Hp & ws1 & ws2 & Hw & ->). split; [done|]. by exists ws1, ws2.
    + destruct (single_at l1) as [[[p s] r']|] eqn:Hs; [|done]. intros [= <- <-]. by apply single_exact.
  - destruct t as [p|p s].
    + intros (Hp & ws1 & ws2 & Hw & [= ->]). rewrite bool_decide_eq_true_2 by done.
      replace (double_at _) with (Some (p, r)); [done|]. symmetry. apply double_exact. split; [done|]. by exists ws1, ws2.
    + intros Hm. assert (Hd : match l1 with b :: l2 => if bool_decide (b = "{"%char) then double_at l2 else None | [] => None end = None).
      { destruct l1 as [|b l2]; [done|]. case_bool_decide as Hb; [subst|done]. destruct (double_at l2) as [[p' r']|] eqn:Hd; [|done].
        apply double_exact in Hd as (_ & ws1 & ws2 & _ & ->). by apply double_not_single in Hm. }
      rewrite Hd. apply single_exact in Hm. by rewrite Hm.
Qed.

Lemma token_shorter l t r : token_at l = Some (t, r) -> (length r < length l)%nat.
Proof.
  intros H. apply token_exact in H. destruct t as [p|p [s|]]; cbn [matches] in H.
  - destruct H as (_ & ws1 & ws2 & _ & ->). rewrite !length_app. simpl. lia.
  - destruct H as (_ & _ & ->). rewrite !length_app. simpl. lia.
  - destruct H as (_ & ->). rewrite !length_app. simpl. lia.
Qed.

(** ** JSON in a prompt *)
(** No brace of the text opens a variable. *)
Fixpoint calm (l : text) : bool :=
  match l with
  | [] => true
  | c :: l' => (if bool_decide (c = "{"%char)
                then match l' with d :: _ => bool_decide (d = char 34 \/ d = "}"%char) | [] => false end else true) && calm l'
  end.

Lemma calm_app a b : calm a = true -> calm b = true -> calm (a ++ b) = true.
Proof.
  intros Ha Hb. induction a as [|c a IH]; [done|]. cbn [app calm] in *. apply andb_prop in Ha as [H1 H2].
  rewrite IH, andb_true_r by done. case_bool_decide; [|done]. by destruct a.
Qed.

Lemma calm_free l : "{"%char ∉ l -> calm l = true.
Proof.
  induction l as [|c l IH]; [done|]. intros [Hc Hl]%not_elem_of_cons. cbn [calm].
  rewrite bool_decide_eq_false_2 by congruence. by rewrite IH.
Qed.

Lemma calm_token c a b : calm (c :: a) = true -> token_at ((c :: a) ++ b) = None.
Proof.
  cbn [calm app token_at]. case_bool_decide as Hc; [|done]. intros [Hd _]%andb_prop.
  destruct a as [|d a]; [done|]. apply bool_decide_eq_true in Hd. cbn [app].
  by destruct Hd as [->| ->].
Qed.

Section json.
Context (str_other : val -> string) (float_repr : Q -> string) (format_spec : val -> string -> option string).
Notation sub := (sub str_other float_repr format_spec).
Notation render_prompt := (render_prompt str_other float_repr format_spec).

Lemma sub_fuel data missing : forall f g l, (length l <= f)%nat -> (length l <= g)%nat ->
  sub f data missing l = sub g data missing l.
Proof.
  induction f as [|f IH]; intros g l Hf Hg; [by destruct l; [destruct g|simpl in Hf; lia]|].
  destruct g as [|g]; [by destruct l; [|simpl in Hg; lia]|]. destruct l as [|c l]; [done|]. cbn [PromptRender.sub].
  destruct (token_at (c :: l)) as [[t r]|] eqn:Ht.
  - apply token_shorter in Ht. destruct (substitute _ _ _ _ _ _ _) as [w|]; [|done]. by rewrite (IH g r) by (simpl in *; lia).
  - by rewrite (IH g l) by (simpl in *; lia).
Qed.

Lemma sub_calm data missing a : forall f b, calm a = true -> (length (a ++ b) <= f)%nat ->
  sub f data missing (a ++ b) = match sub (length b) data missing b with Ok out => Ok (a ++ out) | Err e => Err e end.
Proof.
  induction a as [|c a IH]; intros f b Ha Hf.
  - cbn [app] in *. rewrite (sub_fuel _ _ f (length b)) by lia. by destruct (sub _ _ _ b).
  - destruct f as [|f]; [simpl in Hf; lia|]. pose proof (calm_token c a b Ha) as Ht. cbn [app PromptRender.sub].
    cbn [app] in Ht. rewrite Ht. cbn [calm] in Ha. apply andb_prop in Ha as [_ Ha].
    rewrite IH by (done || (simpl in Hf; lia)). by destruct (sub _ _ _ b).
Qed.

(** A JSON value without floats whose strings hold no opening brace. *)
Definition unbraced (s : string) : bool := negb (bool_decide ("{"%char ∈ chars s)).
Fixpoint brace_free (v : val) : bool :=
  match v with
  | VFloat _ => false
  | VStr s => unbraced s
  | VList l => forallb brace_free l
  | VDict d => forallb (fun kv => unbraced kv.1 && brace_free kv.2) d
  | _ => true
  end.

Lemma calm_escape c : c = "{"%char \/ "{"%char ∉ Json.escape c.
Proof.
  destruct c as [[] [] [] [] [] [] [] []]; first [left; reflexivity | right; apply (bool_decide_unpack _); vm_compute; exact I].
Qed.

Lemma free_concat {A} (g : A -> text) l : (forall c, c ∈ l -> "{"%char ∉ g c) -> "{"%char ∉ concat (map g l).
Proof.
  induction l as [|c l IH]; intros Hg; [apply not_elem_of_nil|]. cbn [map concat].
  rewrite not_elem_of_app. split; [apply Hg; by left|]. apply IH. intros d Hd. apply Hg. by right.
Qed.

Lemma calm_string s : unbraced s = true -> "{"%char ∉ Json.dump_string s.
Proof.
  intros Hs%negb_true_iff%bool_decide_eq_false. unfold Json.dump_string.
  rewrite not_elem_of_cons, not_elem_of_app. split_and!; [done| |by apply not_elem_of_cons; split; [|apply not_elem_of_nil]].
  apply free_concat. intros c Hc. destruct (calm_escape c) as [->|]; [by destruct Hs|done].
Qed.

Lemma calm_number z : "{"%char ∉ chars (str_of_Z z).
Proof.
  assert (Hd : forall fuel n acc, "{"%char ∉ acc -> "{"%char ∉ digits_of_nat fuel n acc).
  { induction fuel as [|fuel IH]; [done|]. intros n acc Ha. cbn [digits_of_nat].
    assert ("{"%char ∉ Stdlib.Strings.Ascii.ascii_of_N (48 + n mod 10)%N :: acc).
    { apply not_elem_of_cons. split; [|done]. intros He. pose proof (Json.digit_char (n mod 10)%N) as Hc.
      rewrite <- He in Hc. specialize (Hc ltac:(apply N.mod_lt; lia)). discriminate Hc. }
    destruct (n <? 10)%N; [done|by apply IH]. }
  assert (Hn : forall n, "{"%char ∉ chars (str_of_N n)) by (intros n; unfold str_of_N; rewrite chars_of_chars; apply Hd, not_elem_of_nil).
  destruct z as [|p|p]; [apply Hn|apply Hn|]. unfold str_of_Z. rewrite chars_app, not_elem_of_app.
  split; [apply (bool_decide_unpack _); vm_compute; exact I|apply Hn].
Qed.

(** The items of a list or an object, put together. *)
Lemma calm_sep l : Forall (fun x => calm x = true) l -> calm (Json.sep_by (chars ", ") l) = true.
Proof.
  induction 1 as [|x l Hx Hl IH]; [done|]. destruct l as [|y l]; [done|].
  change (calm (x ++ chars ", " ++ Json.sep_by (chars ", ") (y :: l)) = true). apply calm_app; [done|]. by apply calm_app.
Qed.

Lemma calm_dump v : brace_free v = true -> calm (Json.dump float_repr v) = true.
Proof.
  induction v as [|b|z|x|s|l IH|d IH] using Json.val_nested_ind; intros Hv; cbn [brace_free] in Hv; try done.
  - by destruct b.
  - apply calm_free, calm_number.
  - by apply calm_free, calm_string.
  - change (calm (char 91 :: Json.sep_by (chars ", ") (map (Json.dump float_repr) l) ++ [char 93]) = true).
    cbn [calm]. rewrite bool_decide_eq_false_2 by done. cbn [andb]. apply calm_app; [|done]. apply calm_sep.
    apply Forall_map. rewrite forallb_forall in Hv. rewrite Forall_forall in IH |- *. intros x Hx.
    apply IH; [done|]. by apply Hv, list_elem_of_In.
  - change (calm (char 123 :: Json.sep_by (chars ", ")
      (map (fun kv => Json.dump_string kv.1 ++ chars ": " ++ Json.dump float_repr kv.2) d) ++ [char 125]) = true).
    cbn [calm]. rewrite bool_decide_eq_true_2 by done. apply andb_true_intro. split.
    + destruct d as [|[k x] [|y d]]; apply bool_decide_eq_true_2; cbn; auto.
    + apply calm_app; [|done]. apply calm_sep, Forall_map. rewrite forallb_forall in Hv. rewrite Forall_forall in IH |- *.
      intros [k x] Hx. cbn [fst snd]. specialize (IH _ Hx). apply list_elem_of_In, Hv, andb_prop in Hx as [Hk Hx].
      apply calm_app; [by apply calm_free, calm_string|]. apply calm_app; [done|]. by apply IH.
Qed.

(** A JSON literal in a prompt stays as it is, wherever it stands and whatever the
    variables are: what is rendered is only the text behind it. *)
Theorem json_survives pre v post data missing : brace_free v = true -> "{"%char ∉ pre ->
  render_prompt (VStr (of_chars (pre ++ Json.dump float_repr v ++ chars post))) data missing =
  VStr (of_chars (pre ++ Json.dump float_repr v) +:+
        match render_prompt (VStr post) data missing with VStr s => s | _ => "" end).
Proof.
  intros Hv Hp. cbn [PromptRender.render_prompt]. rewrite chars_of_chars. set (d := match data with VDict d => d | _ => [] end).
  assert (Hc : calm (pre ++ Json.dump float_repr v) = true) by (apply calm_app; [by apply calm_free|by apply calm_dump]).
  rewrite app_assoc, sub_calm by done.
  destruct (sub (length (chars post)) d missing (chars post)) as [out|e]; f_equal; apply ToolCalls.chars_inj;
    rewrite chars_app, !chars_of_chars; [done|]. done.
Qed.

(** ** Call identifiers *)
Lemma owned_filtered k v (r : dict string val) : k ∈ SERVER_OWNED_CALL_IDENTIFIERS ->
  List.filter (fun kv => negb (bool_decide (kv.1 ∈ SERVER_OWNED_CALL_IDENTIFIERS))) (dset k v r) =
  List.filter (fun kv => negb (bool_decide (kv.1 ∈ SERVER_OWNED_CALL_IDENTIFIERS))) r.
Proof.
  intros Hk. induction r as [|[k1 v1] r IH]; cbn [dset List.filter fst].
  - by rewrite bool_decide_eq_true_2.
  - destruct (decide (k = k1)) as [->|]; cbn [List.filter fst]; [by rewrite bool_decide_eq_true_2|by rewrite IH].
Qed.

(** The identifiers of the call never reach a prompt: whatever a template asks for,
    rendering it gives the same text for every value of them. *)
Theorem identifiers_hidden prompt ctx r k v : k ∈ SERVER_OWNED_CALL_IDENTIFIERS ->
  dget "recipient_data" ctx = Some (VDict r) ->
  update_prompt_with_context str_other float_repr format_spec prompt (Some (dset "recipient_data" (VDict (dset k v r)) ctx)) =
  update_prompt_with_context str_other float_repr format_spec prompt (Some ctx).
Proof.
  intros Hk Hr. unfold update_prompt_with_context. rewrite dget_dset_eq, Hr. by rewrite owned_filtered.
Qed.
End json.

Module Example.
Import ToolCalls.Example.
Definition fmt (v : val) (spec : string) : option string := None.
Notation render t d := (render_prompt str_other float_repr fmt (VStr (q t)) (VDict d) (Some "")).

Example rendering :
  render "Hi {name}, {{ order.items[0].title }} {'a': {name}} {gone}{{gone}} {price:.2f}"
    [("name", VStr "Ada {x}"); ("order", VStr (q "{'items': [{'title': 'Tea'}]}"))] =
  VStr (q "Hi Ada {x}, Tea {'a': Ada {x}} {gone} {price:.2f}").
Proof. vm_compute. reflexivity. Qed.

Lemma json_survives_witness :
  render_prompt str_other float_repr fmt (VStr (of_chars (chars "Use " ++ Json.dump float_repr (VDict [("a", VDict [])]) ++ chars " {name}")))
    (VDict [("name", VStr "Ada")]) (Some "") = VStr (q "Use {'a': {}} Ada").
Proof.
  rewrite (json_survives str_other float_repr fmt (chars "Use ") (VDict [("a", VDict [])]) " {name}");
    [vm_compute; reflexivity|reflexivity|apply (bool_decide_unpack _); vm_compute; exact I].
Defined.

Lemma identifiers_hidden_witness :
  update_prompt_with_context str_other float_repr fmt (VStr "{call_sid}")
    (Some (dset "recipient_data" (VDict (dset "call_sid" (VStr "s1") [("name", VStr "Ada")])) [("recipient_data", VDict [("name", VStr "Ada")])])) =
  VStr "".
Proof.
  rewrite (identifiers_hidden str_other float_repr fmt (VStr "{call_sid}") [("recipient_data", VDict [("name", VStr "Ada")])] [("name", VStr "Ada")]);
    [vm_compute; reflexivity|apply (bool_decide_unpack _); vm_compute; exact I|reflexivity].
Defined.

(** An index with two signs raises inside the substitution: no variable of the prompt
    is filled in. *)
Lemma index_loses_prompt :
  render "Hi {name}, first {items.--1}" [("name", VStr "Ada"); ("items", VList [VStr "a"])] =
  VStr "Hi {name}, first {items.--1}".
Proof. vm_compute. reflexivity. Qed.
End Example.
End PromptRender.
