(* ===== verification/Turn.v ===== *)
(** * Turns of the conversation model
    (src/voiceai/modules/voice/session/turn/generation.py, function_calls.py,
    meta_info.py; prompts.py process_stop_words; language/switcher.py
    inject_language_instruction)

    One turn: the request to the model, its stream of chunks spoken as they come,
    the tool it may call, and the follow-up turn that tells the result. The session's
    state and a trace are passed along. At every wait the other tasks of the call may
    change what they own ([outside]) and the turn may be cancelled; what the model,
    the tools and the clock answer is a function of the trace ([environment]). A tool
    call nests a turn in a turn: fuel bounds the nesting, and [TurnRuns.turns_end]
    says how much is enough. Request logs, the text of the routing log and the
    latency record of the completion check are left out. *)
From S2P Require Import Prelude PyText PyVal Json History HistorySync Interruption UrlGuard ToolCalls Webhooks Transfer PromptRender.
From Stdlib Require Import QArith.QArith.
Close Scope Q_scope.
Open Scope Z_scope.
Open Scope voice_scope.

Module Turn.
Notation meta := (dict string val).
Notation get_or := Webhooks.get_or.

(** ** State *)
Record outside := Outside {
  language : string;
  hangup_triggered : bool;
  conversation_ended : bool;
  turn_audio_flushed : bool }.

Record pipeline := Pipeline {
  response_in_pipeline : bool;
  awaiting_first_audio : bool;
  function_call_in_flight : bool;
  end_call_in_progress : bool;
  call_hangup_message_config : bool }.

(** The history stands in [hist]; [calls] is the state of the tool calls, whose own
    copy of it is set before and read after each use. *)
Record session := Session {
  others : outside;
  pipe : pipeline;
  hist : HistorySync.session;
  manager : Interruption.manager;
  calls : Transfer.session;
  hangup_detail : option string;
  context_data : option meta;
  agent_context : option meta;
  turn_latencies : list meta;
  routing_latencies : list meta;
  node_flow : val;
  repeat_after_silence_seconds : val;
  pending_chat_forward : list string;
  response_turn_id : Z;
  function_call_task : bool;
  rag_latencies : list meta;
  forwarded_chat_texts : list string;
  non_fatal_llm_error_events : list val }.

Definition set_others x (s : session) := Session x (pipe s) (hist s) (manager s) (calls s) (hangup_detail s) (context_data s)
  (agent_context s) (turn_latencies s) (routing_latencies s) (node_flow s) (repeat_after_silence_seconds s)
  (pending_chat_forward s) (response_turn_id s) (function_call_task s) (rag_latencies s) (forwarded_chat_texts s) (non_fatal_llm_error_events s).
Definition set_pipe x (s : session) := Session (others s) x (hist s) (manager s) (calls s) (hangup_detail s) (context_data s)
  (agent_context s) (turn_latencies s) (routing_latencies s) (node_flow s) (repeat_after_silence_seconds s)
  (pending_chat_forward s) (response_turn_id s) (function_call_task s) (rag_latencies s) (forwarded_chat_texts s) (non_fatal_llm_error_events s).
Definition set_hist x (s : session) := Session (others s) (pipe s) x (manager s) (calls s) (hangup_detail s) (context_data s)
  (agent_context s) (turn_latencies s) (routing_latencies s) (node_flow s) (repeat_after_silence_seconds s)
  (pending_chat_forward s) (response_turn_id s) (function_call_task s) (rag_latencies s) (forwarded_chat_texts s) (non_fatal_llm_error_events s).
Definition set_manager x t (s : session) := Session (others s) (pipe s) (hist s) x (calls s) (hangup_detail s) (context_data s)
  (agent_context s) (turn_latencies s) (routing_latencies s) (node_flow s) (repeat_after_silence_seconds s)
  (pending_chat_forward s) t (function_call_task s) (rag_latencies s) (forwarded_chat_texts s) (non_fatal_llm_error_events s).
Definition set_calls x (s : session) := Session (others s) (pipe s) (hist s) (manager s) x (hangup_detail s) (context_data s)
  (agent_context s) (turn_latencies s) (routing_latencies s) (node_flow s) (repeat_after_silence_seconds s)
  (pending_chat_forward s) (response_turn_id s) (function_call_task s) (rag_latencies s) (forwarded_chat_texts s) (non_fatal_llm_error_events s).
Definition set_hangup_detail x (s : session) := Session (others s) (pipe s) (hist s) (manager s) (calls s) x (context_data s)
  (agent_context s) (turn_latencies s) (routing_latencies s) (node_flow s) (repeat_after_silence_seconds s)
  (pending_chat_forward s) (response_turn_id s) (function_call_task s) (rag_latencies s) (forwarded_chat_texts s) (non_fatal_llm_error_events s).
Definition set_contexts c a (s : session) := Session (others s) (pipe s) (hist s) (manager s) (calls s) (hangup_detail s) c
  a (turn_latencies s) (routing_latencies s) (node_flow s) (repeat_after_silence_seconds s)
  (pending_chat_forward s) (response_turn_id s) (function_call_task s) (rag_latencies s) (forwarded_chat_texts s) (non_fatal_llm_error_events s).
Definition set_latencies x (s : session) := Session (others s) (pipe s) (hist s) (manager s) (calls s) (hangup_detail s) (context_data s)
  (agent_context s) x (routing_latencies s) (node_flow s) (repeat_after_silence_seconds s)
  (pending_chat_forward s) (response_turn_id s) (function_call_task s) (rag_latencies s) (forwarded_chat_texts s) (non_fatal_llm_error_events s).
Definition set_routing x f r (s : session) := Session (others s) (pipe s) (hist s) (manager s) (calls s) (hangup_detail s) (context_data s)
  (agent_context s) (turn_latencies s) x f r
  (pending_chat_forward s) (response_turn_id s) (function_call_task s) (rag_latencies s) (forwarded_chat_texts s) (non_fatal_llm_error_events s).
Definition set_chat x y (s : session) := Session (others s) (pipe s) (hist s) (manager s) (calls s) (hangup_detail s) (context_data s)
  (agent_context s) (turn_latencies s) (routing_latencies s) (node_flow s) (repeat_after_silence_seconds s)
  x (response_turn_id s) (function_call_task s) (rag_latencies s) y (non_fatal_llm_error_events s).
Definition set_task x (s : session) := Session (others s) (pipe s) (hist s) (manager s) (calls s) (hangup_detail s) (context_data s)
  (agent_context s) (turn_latencies s) (routing_latencies s) (node_flow s) (repeat_after_silence_seconds s)
  (pending_chat_forward s) (response_turn_id s) x (rag_latencies s) (forwarded_chat_texts s) (non_fatal_llm_error_events s).

Definition set_rag x (s : session) := Session (others s) (pipe s) (hist s) (manager s) (calls s) (hangup_detail s) (context_data s)
  (agent_context s) (turn_latencies s) (routing_latencies s) (node_flow s) (repeat_after_silence_seconds s)
  (pending_chat_forward s) (response_turn_id s) (function_call_task s) x (forwarded_chat_texts s) (non_fatal_llm_error_events s).
Definition set_non_fatal x (s : session) := Session (others s) (pipe s) (hist s) (manager s) (calls s) (hangup_detail s) (context_data s)
  (agent_context s) (turn_latencies s) (routing_latencies s) (node_flow s) (repeat_after_silence_seconds s)
  (pending_chat_forward s) (response_turn_id s) (function_call_task s) (rag_latencies s) (forwarded_chat_texts s) x.

Definition set_flushed b (s : session) :=
  set_others (Outside (language (others s)) (hangup_triggered (others s)) (conversation_ended (others s)) b) s.
Definition set_language l (s : session) :=
  set_others (Outside l (hangup_triggered (others s)) (conversation_ended (others s)) (turn_audio_flushed (others s))) s.
Definition set_hanging (s : session) :=
  set_others (Outside (language (others s)) true (conversation_ended (others s)) (turn_audio_flushed (others s))) s.
Definition hanging (s : session) : bool := hangup_triggered (others s) || conversation_ended (others s).

(** Nothing is awaited from the pipeline any more. *)
Definition clear_pipe (s : session) := set_pipe (Pipeline false false (function_call_in_flight (pipe s)) (end_call_in_progress (pipe s))
    (call_hangup_message_config (pipe s))) s.
Definition set_in_flight b (s : session) :=
  set_pipe (Pipeline (response_in_pipeline (pipe s)) (awaiting_first_audio (pipe s)) b (end_call_in_progress (pipe s))
    (call_hangup_message_config (pipe s))) s.
Definition lock_barge_in (s : session) :=
  set_pipe (Pipeline (response_in_pipeline (pipe s)) (awaiting_first_audio (pipe s)) (function_call_in_flight (pipe s)) true
    (call_hangup_message_config (pipe s))) s.
(** The configured goodbye is dropped. *)
Definition clear_hangup_message (s : session) :=
  set_pipe (Pipeline (response_in_pipeline (pipe s)) (awaiting_first_audio (pipe s)) (function_call_in_flight (pipe s))
    (end_call_in_progress (pipe s)) false) s.

Definition history_of (s : session) : History.history := HistorySync.conversation_history (hist s).
Definition set_history h (s : session) := set_hist (HistorySync.with_history h (hist s)) s.
Definition calls_of (s : session) : Transfer.session := Transfer.set_history (history_of s) (calls s).
Definition put_calls c (s : session) := set_calls c (set_history (Transfer.history c) s).

Record config := Config {
  stream : bool;
  graph_agent : bool;
  knowledgebase_agent : bool;
  switcher : bool;
  has_output : bool;
  has_synthesizer : bool;
  browser_leg : bool;
  s2s : bool;
  turn_based : bool;
  first_task : bool;
  on_turn_usage : bool;
  on_overflow : bool;
  online_default : bool;
  llm_hangup : bool;
  end_call_primary : bool;
  model : val;
  asr_turn_id : val;
  handoff_messages : dict string string;
  voice_names : dict string string;
  dominant_language : string;
  injection_mode : string;
  instruction_template : string;
  xfer : Transfer.config }.

(** ** What the turn does and is answered *)
Inductive wait : Type := WChunk | WPlayback | WOutput | WSleep | WSynth | WLock | WTransfer | WTool | WHandoff | WHangup.

(** The packets' meta information is a copy taken when they are made. *)
Inductive event : Type :=
| EWait (w : wait)
| EUuid (u : string)
| EReset
| EGenerate (request : list msg) (m : meta)
| ESynth (text : string) (m : meta)
| EOutput (text : string) (m : meta)
| EUsage (overflow : bool) (input output cached : val)
| ESwitch (label : string)
| EHandoff (label : string)
| EApi (t : ToolCalls.trace)
| EPost (url : val) (payload : val)
| EHangup
| EHealth
| ECompletion
| EProcessed.

Definition trace := list event.

Inductive error : Type :=
| Cancelled
| LLMError (e : string)
| Component (e : string)
| Python (e : ToolCalls.exn)
| Raised (e : string)
| OutOfFuel.

Definition M := SE (session * trace) error.

(** A chunk of the model's stream. A function call carries its payload. *)
Record chunk := Chunk {
  data : string;
  payload : option meta;
  end_of_stream : bool;
  latency : option meta;
  function_name : option string;
  function_message : option ToolCalls.message_config;
  input_tokens : val; output_tokens : val; reasoning_tokens : val; cached_tokens : val;
  overflowed : bool;
  reasoning_content : val }.

Inductive item : Type :=
| Request
| Routing (info : meta)
| Static (text : string) (hash : string)
| Piece (c : chunk).

(** How the stream ends. *)
Inductive ending : Type := Finished | Fails (e : error).

(** [prompt]: the first item, or the end, comes within the limit. *)
Record model_stream := Stream { prompt : bool; items : list item; last_ : ending }.

Record environment := Environment {
  e_meanwhile : trace -> outside -> outside;
  e_cancelled : trace -> bool;
  e_clock : trace -> Q;
  e_uuid : trace -> string;
  e_generate : trace -> list msg -> meta -> model_stream;
  e_node : val -> option meta;
  e_tools : trace -> ToolCalls.environment;
  e_switch : trace -> string -> option string;
  e_post : trace -> option (result ToolCalls.failure ToolCalls.http_response);
  e_completion : trace -> val;
  e_forwarded : trace -> bool }.

Section turn.
Context (str_other : val -> string) (float_repr : Q -> string) (format_spec : val -> string -> option string).
Context (convert : text -> val -> option text) (convert_all : text -> meta -> option text).
(** [str.format] of an instruction with its language; [None]: it raises. *)
Context (format_language : string -> string -> option string).
Context (text_of : ToolCalls.failure -> string) (exn_text : ToolCalls.exn -> string).
Context (E : environment) `{UrlGuard.Interpreter} (allowlisted : list string) (f : config).

Definition get : M session := fun st => (st, Ok st.1).
Definition trace_of : M trace := fun st => (st, Ok st.2).
Definition modify (g : session -> session) : M unit := fun st => ((g st.1, st.2), Ok tt).
Definition say (e : event) : M unit := fun st => ((st.1, st.2 ++ [e]), Ok tt).
Definition raise {A} (e : error) : M A := se_raise e.
Definition ret {A} (a : A) : M A := se_ret a.
Definition clock : M Q := fun st => (st, Ok (e_clock E st.2)).
Definition python {A} (r : result ToolCalls.exn A) : M A := match r with Ok a => ret a | Err e => raise (Python e) end.

(** A wait: the others move, and the turn may end here. *)
Definition pause (w : wait) : M unit := fun st =>
  let tr := st.2 ++ [EWait w] in
  let s := set_others (e_meanwhile E tr (others st.1)) st.1 in
  ((s, tr), if e_cancelled E tr then Err Cancelled else Ok tt).

(** A wait whose cancellation its callee has dealt with. *)
Definition drift (w : wait) : M unit := fun st =>
  let tr := st.2 ++ [EWait w] in ((set_others (e_meanwhile E tr (others st.1)) st.1, tr), Ok tt).

Definition uuid : M string := fun st => let u := e_uuid E st.2 in ((st.1, st.2 ++ [EUuid u]), Ok u).

Definition when (b : bool) (c : M unit) : M unit := if b then c else ret tt.

(** [finally] *)
Definition finally {A} (c : M A) (g : session -> session) : M A :=
  fun st => let '(st', r) := c st in ((g st'.1, st'.2), r).

(** ** Identities of responses (meta_info.py) *)
Definition get_updated_meta_info (m : meta) : M meta :=
  s <- get ;;
  let '(im, seq) := Interruption.get_next_sequence_id (manager s) in
  modify (set_manager im (response_turn_id s + 1)) ;;;
  u <- uuid ;;
  ret (ddel "parent_response_uid" (dset "response_group_uid" (VStr u) (dset "response_uid" (VStr u)
        (dset "turn_id" (VInt (response_turn_id s + 1)) (dset "sequence_id" (VInt seq) m))))).

Definition PER_CHUNK_KEYS : list string :=
  ["chunk_id"; "mark_id"; "is_first_chunk"; "is_first_chunk_of_entire_response"; "is_final_chunk_of_entire_response";
   "end_of_synthesizer_stream"; "end_of_llm_stream"; "text_synthesized"].

Definition mget (k : string) (m : meta) : val := get_or k VNone m.

Definition spawn_followup_meta_info (m : meta) : M meta :=
  m' <- get_updated_meta_info m ;;
  let group := if truthy (mget "response_group_uid" m) then mget "response_group_uid" m else mget "response_uid" m in
  ret (foldl (fun d k => ddel k d)
             (dset "parent_response_uid" (mget "response_uid" m) (dset "response_group_uid" group m')) PER_CHUNK_KEYS).

(** ** Text on its way out *)
Definition last_chars (n : nat) (s : string) : string := of_chars (drop (length (chars s) - n) (chars s)).
Definition without_last (n : nat) (s : string) : string := of_chars (take (length (chars s) - n) (chars s)).

Definition process_stop_words (text : string) (m : meta) : string :=
  if truthy (mget "end_of_llm_stream" m) && contains (lower (last_chars 5 text)) "user" then
    if decide (lower (last_chars 5 text) = "user:") then without_last 5 text
    else if decide (lower (last_chars 4 text) = "user") then without_last 4 text
    else text
  else text.

Definition str_blank (s : string) : bool := negb (str_true (strip s)).

Definition float_val (q : Q) : val := VFloat (Fin q).
Definition seconds_since (now : Q) (start : val) : result ToolCalls.exn val :=
  match start with
  | VFloat (Fin q) => Ok (float_val (now - q)%Q)
  | VInt z => Ok (float_val (now - inject_Z z)%Q)
  | _ => Err ToolCalls.TypeError
  end.

(** [meta_info["llm_start_time"]] *)
Definition start_time (m : meta) : M val :=
  match dget "llm_start_time" m with Some v => ret v | None => raise (Python ToolCalls.KeyError) end.

Definition to_output (text : string) (m : meta) : M unit := say (EOutput text m) ;;; pause WOutput.

(** The returned dictionary is the one that was passed, mutated. *)
Definition handle_llm_output (next_step text_chunk : string) (should_bypass_synth : bool) (m : meta)
    (is_filler is_function_call : bool) : M meta :=
  m <- (if dhas "request_id" m then ret m else u <- uuid ;; ret (dset "request_id" (VStr u) m)) ;;
  m <- (if negb (stream f) && negb is_filler then
          t <- start_time m ;; now <- clock ;; d <- python (seconds_since now t) ;;
          ret (dset "llm_first_buffer_generation_latency" d m)
        else if is_filler then
          ret (dset "message_category" (VStr "filler") (dset "local" (VBool true)
                (dset "cached" (VBool true) (dset "origin" (VStr "classifier") m))))
        else ret m) ;;
  if bool_decide (next_step = "synthesizer") && negb should_bypass_synth then
    s <- get ;;
    if negb (str_blank text_chunk) then
      modify (set_flushed false) ;;; say (ESynth text_chunk m) ;;; ret m
    else if stream f && truthy (mget "end_of_llm_stream" m) && negb (turn_audio_flushed (others s)) then
      say (ESynth "" m) ;;; ret m
    else ret m
  else if has_output f then
    t <- start_time m ;; now <- clock ;; d <- python (seconds_since now t) ;;
    (if is_function_call then
       to_output "<beginning_of_stream>" m ;;; to_output text_chunk m ;;; to_output "<end_of_stream>" m
     else to_output text_chunk m) ;;;
    ret m
  else ret m.

(** ** The history of a turn *)
Definition meta_int (k : string) (m : meta) : option Z := match dget k m with Some (VInt z) => Some z | _ => None end.
Definition meta_text (k : string) (m : meta) : option string := match dget k m with Some (VStr s) => Some s | _ => None end.

Definition stage (m : meta) (content : string) (s : session) : session :=
  set_hist (HistorySync.stage_assistant_history (meta_int "sequence_id" m)
    (HistorySync.mkStaged content (meta_int "turn_id" m) (meta_text "response_uid" m) (meta_text "message_category" m)) (hist s)) s.

Definition assistant_row (m : meta) (content : string) : msg :=
  [("role", VStr ASSISTANT); ("content", VStr content); ("turn_id", mget "turn_id" m); ("response_uid", mget "response_uid" m)].

Definition sync_interim (messages : list msg) (s : session) : session :=
  set_history (History.sync_interim (Some messages) (history_of s)) s.

(** The row is appended to the caller's list, staged, and shown as interim history. *)
Definition commit_text (m : meta) (messages : list msg) (content : string) (s : session) : session :=
  sync_interim (messages ++ [assistant_row m content]) (stage m content s).

Record tokens := Tokens { t_input : val; t_output : val; t_reasoning : val; t_cached : val; t_overflowed : bool; t_reasons : val }.

Definition store_into_history (m : meta) (messages : list msg) (llm_response : string) (should_trigger_function_call : bool)
    (t : tokens) : M (list msg) :=
  when (first_task f && truthy (t_input t) && (if t_overflowed t then on_overflow f else on_turn_usage f))
       (say (EUsage (t_overflowed t) (t_input t) (t_output t) (t_cached t))) ;;;
  if should_trigger_function_call then modify (stage m llm_response) ;;; ret messages
  else modify (commit_text m messages llm_response) ;;; ret (messages ++ [assistant_row m llm_response]).

(** ** Latencies of turns *)
Definition since_start (t : val) : val :=
  match t with
  | VFloat (Fin q) => float_val (py_round 2 (q * inject_Z 1000 - Transfer.f_start_ms (xfer f))%Q)
  | VInt z => float_val (py_round 2 (inject_Z z * inject_Z 1000 - Transfer.f_start_ms (xfer f))%Q)
  | _ => VNone
  end.
Definition start_ms (m : meta) : val :=
  if truthy (mget "llm_start_time" m) then since_start (mget "llm_start_time" m) else VNone.

Definition stamp_llm_latency_dict (d m : meta) (t : tokens) (response_text : option string) : meta :=
  let d := dset "cached_tokens" (t_cached t) (dset "reasoning_tokens" (t_reasoning t) (dset "output_tokens" (t_output t)
    (dset "input_tokens" (t_input t) (dset "model" (model f) (dset "asr_turn_id" (asr_turn_id f)
      (dset "llm_start_ms" (start_ms m) (dset "turn_id" (mget "turn_id" m) d))))))) in
  match response_text with
  | Some r => if str_true r then dset "response_text" (VStr (strip r)) d else d
  | None => d
  end.

Definition is_none (v : val) : bool := match v with VNone => true | _ => false end.

(** The entry replaces the last one of the same sequence, else it is appended. *)
Definition upsert_latency (d : meta) (l : list meta) : list meta :=
  match last l with
  | Some prev =>
      if truthy (VDict prev) && val_eqb (mget "sequence_id" prev) (mget "sequence_id" d) then
        let d := if is_none (mget "llm_start_ms" d) && negb (is_none (mget "llm_start_ms" prev))
                 then dset "llm_start_ms" (mget "llm_start_ms" prev) d else d in
        take (length l - 1) l ++ [d]
      else l ++ [d]
  | None => [d]
  end.

Definition append_eager_llm_stub (m : meta) (s : session) : session :=
  set_latencies (turn_latencies s ++
    [[("sequence_id", mget "sequence_id" m); ("turn_id", mget "turn_id" m); ("asr_turn_id", asr_turn_id f);
      ("model", model f); ("llm_start_ms", start_ms m)]]) s.

(** ** Language instruction (language/switcher.py) *)
Definition LANGUAGE_NAMES : dict string string :=
  [("en", "English"); ("hi", "Hindi"); ("bn", "Bengali"); ("ta", "Tamil"); ("te", "Telugu"); ("mr", "Marathi");
   ("gu", "Gujarati"); ("kn", "Kannada"); ("ml", "Malayalam"); ("pa", "Punjabi"); ("fr", "French"); ("es", "Spanish");
   ("pt", "Portuguese"); ("de", "German"); ("it", "Italian"); ("nl", "Dutch"); ("id", "Indonesian"); ("ms", "Malay");
   ("th", "Thai"); ("vi", "Vietnamese"); ("od", "Odia")].
Definition language_name (l : string) : string := default l (dget l LANGUAGE_NAMES).

(** [instruction + msg["content"]]; [None]: it raises, and what follows is left. *)
Definition instructed (instruction : string) (m : msg) : option msg :=
  match dget "content" m with Some (VStr c) => Some (dset "content" (VStr (instruction +:+ c)) m) | _ => None end.

Fixpoint instruct_first (instruction : string) (l : list msg) : list msg :=
  match l with
  | [] => []
  | m :: l' => if role_is SYSTEM m then default m (instructed instruction m) :: l'
               else m :: instruct_first instruction l'
  end.
Fixpoint instruct_users (instruction : string) (l : list msg) : list msg :=
  match l with
  | [] => []
  | m :: l' => if role_is USER m
               then match instructed instruction m with
                    | Some m' => m' :: instruct_users instruction l'
                    | None => l
                    end
               else m :: instruct_users instruction l'
  end.

Definition inject_language_instruction (messages : list msg) : list msg :=
  if negb (str_true (dominant_language f)) || negb (str_true (injection_mode f)) || negb (str_true (instruction_template f))
  then messages
  else match format_language (instruction_template f) (language_name (dominant_language f)) with
       | None => messages
       | Some t =>
           let instruction := t +:+ of_chars [Stdlib.Strings.Ascii.ascii_of_nat 10; Stdlib.Strings.Ascii.ascii_of_nat 10] in
           if decide (injection_mode f = "system_only") then instruct_first instruction messages
           else if decide (injection_mode f = "per_turn") then instruct_users instruction messages
           else messages
       end.

(** ** The stream of a turn *)
(** What the turn has gathered so far; [a_silence] is unbound until a routing item. *)
Record gathered := Gathered {
  a_meta : meta;
  a_messages : list msg;
  a_response : string;
  a_tool : option string;
  a_tool_message : option ToolCalls.message_config;
  a_tokens : tokens;
  a_silence : option val }.

Definition with_meta m (a : gathered) :=
  Gathered m (a_messages a) (a_response a) (a_tool a) (a_tool_message a) (a_tokens a) (a_silence a).
Definition with_messages ms (a : gathered) :=
  Gathered (a_meta a) ms (a_response a) (a_tool a) (a_tool_message a) (a_tokens a) (a_silence a).
Definition with_silence v (a : gathered) :=
  Gathered (a_meta a) (a_messages a) (a_response a) (a_tool a) (a_tool_message a) (a_tokens a) (Some v).

Definition or_kept (new old : val) : val := if is_none new then old else new.
Definition merge_tokens (c : chunk) (t : tokens) : tokens :=
  Tokens (or_kept (input_tokens c) (t_input t)) (or_kept (output_tokens c) (t_output t))
    (or_kept (reasoning_tokens c) (t_reasoning t)) (or_kept (cached_tokens c) (t_cached t))
    (t_overflowed t || overflowed c) (or_kept (reasoning_content c) (t_reasons t)).
Definition no_tokens : tokens := Tokens VNone VNone VNone VNone false VNone.

(** The first chunk, awaited up to the limit (llm_stream_with_first_chunk_timeout). *)
Definition LLM_FIRST_CHUNK_TIMEOUT_S : Q := 9 # 2.

Definition add_non_fatal (e : val) (m : meta) : meta :=
  match mget "_non_fatal_errors" m with
  | VList l => dset "_non_fatal_errors" (VList (l ++ [e])) m
  | VNone => if dhas "_non_fatal_errors" m then m else dset "_non_fatal_errors" (VList [e]) m
  | _ => m
  end.

Definition first_chunk_timeout (m : meta) : meta :=
  add_non_fatal (VDict [("error", VStr "LLM_FIRST_CHUNK_TIMEOUT"); ("sequence_id", mget "sequence_id" m);
                        ("timeout_s", float_val LLM_FIRST_CHUNK_TIMEOUT_S)]) m.

(** Where the loop over the stream leaves off. *)
Inductive left_off : Type :=
| Exhausted (a : gathered)
| Spoken (a : gathered)
| Calls (a : gathered) (payload : meta).

(** Graph routing: the latencies, the usage, the node's silence setting. *)
Definition routing_entry (now : Q) (info m : meta) : meta :=
  let usage := match mget "routing_usage" info with VDict d => d | _ => [] end in
  [("latency_ms", mget "routing_latency_ms" info);
   ("routing_end_ms", float_val (py_round 2 (now * inject_Z 1000 - Transfer.f_start_ms (xfer f))%Q));
   ("routing_model", mget "routing_model" info); ("routing_provider", mget "routing_provider" info);
   ("routing_reasoning_effort", mget "routing_reasoning_effort" info); ("previous_node", mget "previous_node" info);
   ("current_node", mget "current_node" info); ("transitioned", get_or "transitioned" (VBool false) info);
   ("sequence_id", mget "sequence_id" m); ("reasoning", mget "reasoning" info); ("confidence", mget "confidence" info);
   ("input_tokens", mget "input_tokens" usage); ("output_tokens", mget "output_tokens" usage);
   ("reasoning_tokens", mget "reasoning_tokens" usage); ("cached_tokens", mget "cached_tokens" usage);
   ("service_tier", mget "service_tier" usage)].

Definition take_routing (info : meta) (a : gathered) : M gathered :=
  match dget "current_node" info with
  | None => raise (Python ToolCalls.KeyError)
  | Some current =>
      let m := a_meta a in
      let metadata := match mget "llm_metadata" m with VDict d => d | _ => [] end in
      let m := dset "llm_metadata" (VDict (dset "graph_routing_info" (VDict info) metadata)) m in
      let usage := match mget "routing_usage" info with VDict d => d | _ => [] end in
      now <- clock ;;
      s <- get ;;
      let latencies := if is_none (mget "routing_latency_ms" info) then routing_latencies s
                       else routing_latencies s ++ [routing_entry now info m] in
      let over := truthy (mget "overflowed" usage) in
      when ((if over then on_overflow f else on_turn_usage f) && val_eqb (mget "routing_provider" info) (VStr "azure") &&
            truthy (mget "input_tokens" usage))
           (say (EUsage over (mget "input_tokens" usage) (mget "output_tokens" usage) (mget "cached_tokens" usage))) ;;;
      let flow := if truthy (mget "node_history" info) then mget "node_history" info else node_flow s in
      let repeat := match e_node E current with
                    | Some n => if truthy (VDict n) then mget "repeat_after_silence_seconds" n else repeat_after_silence_seconds s
                    | None => repeat_after_silence_seconds s
                    end in
      modify (set_routing latencies flow repeat) ;;;
      ret (with_silence (get_or "is_silence_trigger" (VBool false) info) (with_meta m a))
  end.

(** A node's fixed text: spoken from its recording, the turn ends. *)
Definition take_static (text hash : string) (a : gathered) : M gathered :=
  match a_silence a with
  | None => raise (Raised "UnboundLocalError")
  | Some silence =>
      a <- (if truthy silence then ret a
            else modify (commit_text (a_meta a) (a_messages a) text) ;;;
                 ret (with_messages (a_messages a ++ [assistant_row (a_meta a) text]) a)) ;;
      let m := dset "message_category" (VStr "static_node") (dset "cached" (VBool true) (dset "text" (VStr text)
                 (dset "end_of_llm_stream" (VBool true) (a_meta a)))) in
      say (ESynth hash m) ;;; pause WSynth ;;;
      ret (with_meta m a)
  end.

Definition pre_call_language (m : meta) (s : session) : string :=
  match meta_text "detected_language" m with Some l => if str_true l then l else language (others s) | None => language (others s) end.

Definition filler_for (a : gathered) (s : session) : option string :=
  ToolCalls.compute_function_pre_call_message (pre_call_language (a_meta a) s) (a_tool a) (a_tool_message a).

Definition filled (t : option string) : bool := match t with Some s => str_true s | None => false end.

(** A chunk of text: spoken, and a filler goes to the history on its own. *)
Definition take_text (next_step : string) (bypass : bool) (c : chunk) (a : gathered) : M gathered :=
  (match latency c with
   | Some d => modify (fun s => set_latencies (upsert_latency (stamp_llm_latency_dict d (a_meta a) (a_tokens a) None) (turn_latencies s)) s)
   | None => ret tt
   end) ;;;
  let a := Gathered (if end_of_stream c then dset "end_of_llm_stream" (VBool true) (a_meta a) else a_meta a) (a_messages a)
             (a_response a +:+ " " +:+ data c) (a_tool a) (a_tool_message a) (a_tokens a) (a_silence a) in
  if stream f then
    let text := process_stop_words (data c) (a_meta a) in
    s <- get ;;
    a <- (if filled (a_tool a) && bool_decide (Some text = filler_for a s) then
            modify (commit_text (a_meta a) (a_messages a) text) ;;;
            ret (with_messages (a_messages a ++ [assistant_row (a_meta a) text]) a)
          else ret a) ;;
    m <- handle_llm_output next_step text bypass (a_meta a) false false ;;
    ret (with_meta m a)
  else ret a.

(** The text that came with the call; [response_text.strip()] raises on anything else. *)
Definition textual_of (p : meta) : result ToolCalls.exn (option string) :=
  match mget "textual_response" p with
  | VStr t => Ok (if str_true t then Some t else None)
  | v => if truthy v then Err ToolCalls.AttributeError else Ok None
  end.

(** A function call, up to its execution. *)
Definition take_call (should_trigger : bool) (c : chunk) (p : meta) (a : gathered) : M gathered :=
  modify (set_in_flight true) ;;;
  match latency c with
  | None => ret a
  | Some d =>
      textual <- python (textual_of p) ;;
      modify (fun s => set_latencies (upsert_latency (stamp_llm_latency_dict d (a_meta a) (a_tokens a) textual) (turn_latencies s)) s) ;;;
      match textual with
      | Some t => ms <- store_into_history (a_meta a) (a_messages a) t should_trigger (a_tokens a) ;; ret (with_messages ms a)
      | None => ret a
      end
  end.

Fixpoint consume (next_step : string) (bypass should_trigger : bool) (l : list item) (e : ending) (a : gathered) : M left_off :=
  pause WChunk ;;;
  match l with
  | [] => match e with Finished => ret (Exhausted a) | Fails e => raise e end
  | Request :: l' => consume next_step bypass should_trigger l' e a
  | Routing info :: l' => a <- take_routing info a ;; consume next_step bypass should_trigger l' e a
  | Static text hash :: _ => a <- take_static text hash a ;; ret (Spoken a)
  | Piece c :: l' =>
      let a := Gathered (a_meta a) (a_messages a) (a_response a) (function_name c) (function_message c)
                 (merge_tokens c (a_tokens a)) (a_silence a) in
      match payload c with
      | Some p => a <- take_call should_trigger c p a ;; ret (Calls a p)
      | None => a <- take_text next_step bypass c a ;; consume next_step bypass should_trigger l' e a
      end
  end.

Definition receive (next_step : string) (bypass should_trigger : bool) (st : model_stream) (a : gathered) : M left_off :=
  if prompt st then consume next_step bypass should_trigger (items st) (last_ st) a
  else pause WChunk ;;; modify clear_pipe ;;; ret (Exhausted (with_meta (first_chunk_timeout (a_meta a)) a)).

(** ** Running a tool (function_calls.py) *)
(** The payload as the arguments of execute_function_call: a key that is a parameter
    already makes the call itself raise. *)
Record call := Call {
  c_url : val; c_method : val; c_param : val; c_token : val; c_headers : val;
  c_meta : meta; c_fun : string; c_resp : meta }.

Definition CALL_PARAMETERS : list string :=
  ["url"; "method"; "param"; "api_token"; "headers"; "model_args"; "meta_info"; "called_fun"].

Definition arguments (p : meta) : result ToolCalls.exn call :=
  if dhas "next_step" p || dhas "self" p || negb (forallb (fun k => dhas k p) CALL_PARAMETERS) then Err ToolCalls.TypeError
  else match mget "meta_info" p, mget "called_fun" p with
       | VDict m, VStr name =>
           Ok (Call (mget "url" p) (mget "method" p) (mget "param" p) (mget "api_token" p) (mget "headers" p) m name
                 (List.filter (fun kv => negb (bool_decide (kv.1 ∈ CALL_PARAMETERS))) p))
       | _, _ => Err ToolCalls.AttributeError
       end.

Definition corrected (c : call) : call :=
  match dget "execution_id" (c_resp c) with
  | Some v => if val_eqb v (VStr (Transfer.f_run_id (xfer f))) then c
              else Call (c_url c) (c_method c) (c_param c) (c_token c) (c_headers c) (c_meta c) (c_fun c)
                     (dset "execution_id" (VStr (Transfer.f_run_id (xfer f))) (c_resp c))
  | None => c
  end.

(** The tool calls and their result become part of the history. *)
Definition record (c : call) (content : string) : M unit :=
  s <- get ;;
  match dget "model_response" (c_resp c) with
  | None => raise (Python ToolCalls.KeyError)
  | Some l =>
      modify (set_history (Transfer.append_result (get_or "tool_call_id" (VStr "") (c_resp c)) content
                (History.attach_tool_calls_to_turn (meta_int "turn_id" (c_meta c)) l (history_of s))))
  end.

Definition get_copy : M (list msg) :=
  s <- get ;;
  let '(h, r) := History.get_copy (history_of s) in
  modify (set_history h) ;;;
  match r with
  | Ok l => ret l
  | Err (KeyError _) => raise (Python ToolCalls.KeyError)
  | Err AttributeError => raise (Python ToolCalls.AttributeError)
  | Err HistoryTypeError => raise (Python ToolCalls.TypeError)
  end.

Definition set_online b (s : session) : session := set_calls (Transfer.set_online b (calls s)) s.
Definition details (s : session) : Webhooks.ledger := Transfer.details (calls s).
Definition set_details l (s : session) : session := set_calls (Transfer.set_details l (calls s)) s.

Definition wait_for_current_message : M unit := pause WPlayback.

(** [process_call_hangup], whose steps are those of the life cycle. *)
Definition process_call_hangup : M unit := say EHangup ;;; pause WHangup.

Definition enter_hangup_state : M unit :=
  now <- clock ;;
  modify (fun s => set_hanging (set_manager (Interruption.on_user_speech_ended now false 0 None (manager s)) (response_turn_id s) s)).

(** The nested turn that tells a result. *)
Context (generate : list msg -> meta -> string -> bool -> bool -> M (meta * list msg)).

Definition follow_up (m : meta) (next_step : string) (bypass should_trigger : bool) : M unit :=
  messages <- get_copy ;;
  m' <- spawn_followup_meta_info m ;;
  generate messages m' next_step bypass should_trigger ;;;
  ret tt.

Definition END_CALL_TOOL : string := "end_call_tool".
Definition GOODBYE : string := "Call is ending now. Say a brief goodbye to the user.".

Definition end_call (c : call) (next_step : string) : M unit :=
  modify lock_barge_in ;;;
  record c (Transfer.status_text float_repr GOODBYE) ;;;
  (if truthy (mget "textual_response" (c_resp c)) then enter_hangup_state ;;; wait_for_current_message
   else follow_up (c_meta c) next_step false false ;;; enter_hangup_state ;;; wait_for_current_message) ;;;
  modify (set_hangup_detail (Some END_CALL_TOOL)) ;;;
  modify clear_hangup_message ;;;
  process_call_hangup.

(** The transfer as this task runs it; [Transfer] has it among others. *)
Definition as_transfer (c : call) : Transfer.call := Transfer.Call (c_fun c) (c_url c) (c_param c) (c_resp c) (c_meta c).

Definition with_calls (g : Transfer.session -> Transfer.session) : M unit := modify (fun s => put_calls (g (calls_of s)) s).

Definition execute_transfer_call_webhook (c : Transfer.call) : M unit :=
  pause WSleep ;;;
  now <- clock ;;
  with_calls (Transfer.announce str_other (xfer f) now now c) ;;;
  if Transfer.on_telephony (xfer f) then
    pause WTransfer ;;;
    now <- clock ;;
    s <- get ;;
    let row := length (details s) in
    with_calls (Transfer.post (xfer f) now c) ;;;
    say (EPost (Transfer.target_url (xfer f) c) (VDict (Transfer.transfer_payload (xfer f) c))) ;;;
    tr <- trace_of ;;
    drift WTransfer ;;;
    now <- clock ;;
    with_calls (Transfer.settle text_of (xfer f) now c row (e_post E tr)) ;;;
    match e_post E tr with Some _ => ret tt | None => raise Cancelled end
  else to_output "<beginning_of_stream>" (Transfer.c_meta c) ;;; to_output (Transfer.mocked str_other c) (Transfer.c_meta c) ;;;
       to_output "<end_of_stream>" (Transfer.c_meta c).

Definition transfer_call (c : call) : M unit :=
  now <- clock ;;
  s <- get ;;
  let '(x, r) := Transfer.begin_transfer str_other float_repr convert convert_all (xfer f) now (as_transfer c) (calls_of s) in
  modify (put_calls x) ;;;
  match r with
  | Transfer.Duplicate => ret tt
  | Transfer.Raised e => raise (Python e)
  | Transfer.Handed c' => execute_transfer_call_webhook c'
  end.

(** [switch_language]: the answer of the switch, and the language in force after it. *)
Definition switch_to (label : string) : M (option string) :=
  say (ESwitch label) ;;; pause WSynth ;;;
  tr <- trace_of ;;
  match e_switch E tr label with
  | Some e => ret (Some e)
  | None => modify (set_language label) ;;; ret None
  end.

Definition already label : string := "Already speaking in " +:+ label +:+ ", no switch needed".
Definition switched_to label : string := "Switched to " +:+ label.
Definition switch_failed e : string := "Failed to switch language: " +:+ e.
(** The dash of the source, which is no Latin-1 character, as a hyphen. *)
Definition call_ending label : string := "Call ending - not switching to " +:+ label.

(** [str.replace] of a text that is not empty. *)
Fixpoint replace_chars (fuel : nat) (old new l : text) : text :=
  match fuel, l with
  | O, _ | _, [] => l
  | S n, c :: l' => if prefix_chars old l then new ++ replace_chars n old new (drop (length old) l)
                    else c :: replace_chars n old new l'
  end.
Definition replace (s old new : string) : string := of_chars (replace_chars (length (chars s)) (chars old) (chars new) (chars s)).

Definition handoff_text (label : string) (s : session) : string :=
  let template := default "" (dget (language (others s)) (handoff_messages f)) in
  if str_true template then
    match PromptRender.update_prompt_with_context str_other float_repr format_spec
            (VStr (replace (replace template "{agent_name}" (default "" (dget label (voice_names f)))) "{language}" (language_name label)))
            (context_data s) with
    | VStr t => t
    | _ => ""
    end
  else "".

Definition handoff_meta (u text : string) : meta :=
  [("request_id", VStr u); ("cached", VBool false); ("sequence_id", VInt (-1)); ("format", VStr "pcm");
   ("message_category", VStr "handoff"); ("end_of_llm_stream", VBool true); ("text", VStr text)].

Definition after_playback : M unit := s <- get ;; when (negb (turn_audio_flushed (others s))) wait_for_current_message.

(** The flow with a detector: only the flip is behind the lock. *)
Definition switch_with_detector (label : string) : M string :=
  after_playback ;;; pause WLock ;;;
  s <- get ;;
  if decide (label = language (others s)) then ret (already label)
  else r <- switch_to label ;;
       match r with
       | Some e => ret (switch_failed e)
       | None => say (EHandoff label) ;;; pause WHandoff ;;; ret (switched_to label)
       end.

Definition switch_plain (c : call) (label : string) : M string :=
  after_playback ;;;
  s <- get ;;
  (if str_true (default "" (dget (language (others s)) (handoff_messages f))) then
     u <- uuid ;;
     let text := handoff_text label s in
     modify (set_flushed false) ;;;
     say (ESynth text (handoff_meta u text)) ;;; pause WSynth ;;;
     wait_for_current_message ;;;
     modify (fun s =>
       let h := History.append_assistant (VStr text) None
                  [("turn_id", mget "turn_id" (c_meta c)); ("response_uid", mget "response_uid" (c_meta c))] (history_of s) in
       let s := set_history h s in
       match meta_int "turn_id" (c_meta c), last (History.messages h) with
       | Some t, Some row => set_hist (HistorySync.with_turn_msg (Some t) row (hist s)) s
       | _, _ => s
       end)
   else ret tt) ;;;
  r <- switch_to label ;;
  ret (match r with Some e => switch_failed e | None => switched_to label end).

(** A label that is no text is never the active one; here it raises at once. *)
Definition switch_language_tool (c : call) (next_step : string) : M unit :=
  match get_or "language" (VStr "") (c_resp c) with
  | VStr label =>
      s <- get ;;
      if decide (label = language (others s)) then
        record c (already label) ;;;
        follow_up (c_meta c) next_step false true ;;;
        modify (set_task false)
      else
        response <- (if hanging s then ret (call_ending label)
                     else if switcher f then switch_with_detector label else switch_plain c label) ;;
        modify (set_online (online_default f)) ;;;
        record c response ;;;
        follow_up (c_meta c) next_step false true ;;;
        modify (set_task false)
  | _ => raise (Python ToolCalls.TypeError)
  end.

(** ** A tool of the customer's own *)
Definition TRIGGER_PARAMETERS : list string :=
  ["url"; "method"; "param"; "api_token"; "headers_data"; "meta_info"; "run_id"; "return_response_metadata"].

Definition opt_text (v : val) : option string := match v with VStr s => Some s | _ => None end.

Definition pre_call_webhook (c : call) : M unit :=
  let conf := default [] (dget (c_fun c) (Transfer.f_tools_params (xfer f))) in
  let u := get_or "pre_call_webhook_url" VNone conf in
  if truthy u then
    now <- clock ;;
    s <- get ;;
    r <- python (Webhooks.fire_pre_call_webhook str_other float_repr convert convert_all now (Transfer.f_dispatch (xfer f))
                         (Transfer.call_context (xfer f)) u (c_fun c) (c_resp c) (c_meta c)
                         (get_or "pre_call_webhook_param" VNone conf) (details s)) ;;
    modify (fun s => set_calls (Transfer.add_webhook r.1 r.2 (calls s)) s) ;;;
    pause WSleep
  else ret tt.

(** The row of the request, with what could be prepared of it. *)
Definition open_detail (now : Q) (c : call) : Webhooks.detail :=
  let args := Webhooks.extract_api_call_runtime_args (c_resp c) in
  let '(body, params, headers) :=
    match Webhooks.prepared_for str_other float_repr convert convert_all (c_param c) (opt_text (c_token c)) (c_headers c) args with
    | Ok p => (ToolCalls.opt_val (ToolCalls.request_body p), ToolCalls.request_params p, VDict (ToolCalls.headers p))
    | Err _ => (VNone, None, c_headers c)
    end in
  Webhooks.start_api_call_detail now (c_fun c) (c_url c) (c_method c) (c_param c) headers (c_meta c) args body
    (match params with Some VNone => None | p => p end).

Definition why_text (a : ToolCalls.api_answer) : option string :=
  match ToolCalls.why a with
  | None => None
  | Some ToolCalls.Blocked => Some "blocked by outbound URL policy"
  | Some ToolCalls.Timeout => Some "Timed out after 10 seconds"
  | Some e => Some (text_of e)
  end.

Definition close_detail (row : nat) (c : Webhooks.closing) : M unit :=
  now <- clock ;;
  modify (fun s => set_details (Webhooks.close_row now row c (details s)) s).

(** [trigger_api] as it is called here: a name it takes for itself, or a method that is
    no text, raises before anything is sent. *)
Definition call_tool (c : call) (row : nat) : M ToolCalls.api_answer :=
  match c_method c with
  | VStr method =>
      if Webhooks.bad_keyword TRIGGER_PARAMETERS (c_resp c) then raise (Python ToolCalls.TypeError)
      else
        tr <- trace_of ;;
        let '(t, r) := ToolCalls.trigger_api str_other float_repr convert convert_all (e_tools E tr) allowlisted text_of
                         (c_url c) (lower method) (c_param c) (opt_text (c_token c)) (c_headers c) (c_resp c) [] in
        say (EApi t) ;;; drift WTool ;;;
        match r with
        | Ok a => ret a
        | Err _ => close_detail row (Webhooks.Closing None None None (Some "cancelled")) ;;; raise Cancelled
        end
  | _ => raise (Python ToolCalls.AttributeError)
  end.

Definition answer_closing (a : ToolCalls.api_answer) : Webhooks.closing :=
  Webhooks.Closing (Some (ToolCalls.api_body a)) (ToolCalls.status_code a) (ToolCalls.content_type a) (why_text a).

(** The answer joins the context that routes a graph. *)
Definition merge_context (body : string) (s : session) : session :=
  match Json.loads body with
  | Some (VDict d) => set_contexts (Some (dupdate (default [] (context_data s)) d))
                        (match agent_context s with Some a => Some (dupdate a d) | None => None end) s
  | _ => s
  end.

Definition py_len (v : val) : result ToolCalls.exn Z :=
  match v with
  | VStr s => Ok (Z.of_nat (length (chars s)))
  | VList l => Ok (Z.of_nat (length l))
  | VDict d => Ok (Z.of_nat (length d))
  | _ => Err ToolCalls.TypeError
  end.

(** What is told to the model for an answer: a busy host is put into words. *)
Definition NO_HOST : string := "Sorry, the host isn't available at this time. Are you available at any other time?".
Definition told (name body : string) : result ToolCalls.exn string :=
  let answer := match Json.loads body with Some (VDict d) => Some d | _ => None end in
  let empty_slots :=
    if startswith name "check_availability_of_slots" then
      match answer with
      | None | Some [] => Ok true
      | Some [(_, v)] => match py_len v with Ok n => Ok (n =? 0) | Err e => Err e end
      | Some _ => Ok false
      end
    else Ok false in
  match empty_slots with
  | Err e => Err e
  | Ok true => Ok body
  | Ok false =>
      if startswith name "book_appointment" then
        match answer with
        | None => Err ToolCalls.TypeError
        | Some d => if dhas "id" d then Ok body
                    else match dvalues d with
                         | v :: _ => Ok (if val_eqb v (VStr "no_available_users_found_error") then NO_HOST else body)
                         | [] => Ok body
                         end
        end
      else Ok body
  end.

Definition custom_tool (c : call) (next_step : string) : M unit :=
  wait_for_current_message ;;;
  s <- get ;;
  if hanging s then ret tt
  else
    pre_call_webhook c ;;;
    now <- clock ;;
    s <- get ;;
    let row := length (details s) in
    modify (set_details (details s ++ [open_detail now c])) ;;;
    a <- call_tool c row ;;
    close_detail row (answer_closing a) ;;;
    (if graph_agent f then modify (merge_context (ToolCalls.api_body a)) else ret tt) ;;;
    response <- python (told (c_fun c) (ToolCalls.api_body a)) ;;
    record c response ;;;
    modify (set_online (online_default f)) ;;;
    follow_up (c_meta c) next_step (truthy (mget "bypass_synth" (c_meta c))) true ;;;
    modify (set_task false).

Definition execute_function_call (next_step : string) (c : call) : M unit :=
  modify (set_online false) ;;;
  let c := corrected c in
  if startswith (c_fun c) ToolCalls.END_CALL_FUNCTION_PREFIX then end_call c next_step
  else if startswith (c_fun c) "transfer_call" then transfer_call c
  else if decide (c_fun c = "switch_language") then switch_language_tool c next_step
  else custom_tool c next_step.
End turn.

Section generation.
Context (str_other : val -> string) (float_repr : Q -> string) (format_spec : val -> string -> option string).
Context (convert : text -> val -> option text) (convert_all : text -> meta -> option text).
Context (format_language : string -> string -> option string).
Context (text_of : ToolCalls.failure -> string) (exn_text : ToolCalls.exn -> string).
Context (E : environment) `{UrlGuard.Interpreter} (allowlisted : list string) (f : config).

(** ** The end of a turn *)
(** Why a turn said nothing: the newest error. *)
Definition error_of (v : val) : option val :=
  match v with VDict d => if truthy (mget "error" d) then Some (mget "error" d) else None | _ => None end.
Definition empty_turn_detail (a : gathered) : option string :=
  if negb (str_blank (a_response a)) then None
  else let errors := match mget "_non_fatal_errors" (a_meta a) with VList l => l | _ => [] end in
       match List.find (fun e => match error_of e with Some _ => true | None => false end) (reverse errors) with
       | Some e => Some ("LLM returned no output (" +:+ ToolCalls.py_str str_other (default VNone (error_of e)) +:+ ")")
       | None => Some "LLM returned no output"
       end.

(** A reply for the transcript panel of a browser. *)
Definition forwards (filler : option string) (should_trigger : bool) (response : string) : bool :=
  browser_leg f && negb (s2s f) && has_synthesizer f && negb (str_blank response) &&
  negb (bool_decide (Some response = filler)) && negb should_trigger.
Definition stage_forward (text : string) (s : session) : session :=
  match last (pending_chat_forward s) with
  | Some t => if decide (t = text) then s else set_chat (pending_chat_forward s ++ [text]) (forwarded_chat_texts s) s
  | None => set_chat [text] (forwarded_chat_texts s) s
  end.

Definition response_text (response : string) (s : session) : session :=
  match last (turn_latencies s) with
  | Some d => if str_blank response then s
              else set_latencies (take (length (turn_latencies s) - 1) (turn_latencies s) ++
                                  [dset "response_text" (VStr (strip response)) d]) s
  | None => s
  end.

Definition collect_rag (m : meta) (s : session) : session :=
  match mget "rag_latency" m with
  | VDict d => if truthy (VDict d) && negb (val_in (mget "sequence_id" d) (map (mget "sequence_id") (rag_latencies s)))
               then set_rag (rag_latencies s ++ [d]) s else s
  | _ => s
  end.

Definition finish (next_step : string) (bypass should_trigger : bool) (a : gathered) : M (meta * list msg) :=
  s <- get ;;
  let filler := filler_for a s in
  let silent := empty_turn_detail a in
  when (forwards filler should_trigger (a_response a)) (modify (stage_forward (strip (a_response a)))) ;;;
  done <-
    (if stream f then
       if bool_decide (Some (a_response a) = filler) then ret (a_meta a, a_messages a, a_response a)
       else messages <- store_into_history f (a_meta a) (a_messages a) (a_response a) should_trigger (a_tokens a) ;;
            ret (a_meta a, messages, a_response a)
     else
       let response := strip (a_response a) in
       when (turn_based f) (modify (fun s => set_history (History.append_assistant (VStr response) None [] (history_of s)) s)) ;;;
       m <- handle_llm_output E f next_step response bypass (a_meta a) false should_trigger ;;
       ret (m, a_messages a, response)) ;;
  let '(m, messages, response) := done in
  modify (response_text response) ;;;
  (match silent with Some _ => modify clear_pipe | None => ret tt end) ;;;
  modify (collect_rag m) ;;;
  ret (m, messages).

(** ** One generation *)
(** The [except] clauses around the stream. *)
Definition as_llm_error {A} (c : M A) : M A := fun st =>
  match c st with
  | (st', Err (Python e)) => (st', Err (LLMError (exn_text e)))
  | (st', Err (Raised e)) => (st', Err (LLMError e))
  | r => r
  end.

Inductive spoken : Type := Rest (a : gathered) | Over (m : meta) (messages : list msg).

Definition generation (execute : string -> call -> M unit) (messages : list msg) (m : meta) (next_step : string)
    (bypass should_trigger : bool) : M (meta * list msg) :=
  s <- get ;;
  if hanging s then modify clear_pipe ;;; ret (m, messages)
  else
    say EReset ;;;
    let messages := inject_language_instruction format_language f messages in
    let m := dset "detected_language" (VStr (language (others s))) (ddel "end_of_llm_stream" m) in
    r <- as_llm_error
      (say (EGenerate messages m) ;;;
       tr <- trace_of ;;
       l <- receive E f next_step bypass should_trigger (e_generate E tr messages m) (Gathered m messages "" (Some "") (Some (ToolCalls.Text "")) no_tokens None) ;;
       match l with
       | Exhausted a => ret (Rest a)
       | Spoken a => ret (Over (a_meta a) (a_messages a))
       | Calls a p => finally (c <- python (arguments p) ;; execute next_step c) (set_in_flight false) ;;;
                      ret (Over (a_meta a) (a_messages a))
       end) ;;
    match r with
    | Over m messages => ret (m, messages)
    | Rest a => finish next_step bypass should_trigger a
    end.

(** [fuel] bounds how deep tool calls nest. *)
Fixpoint do_llm_generation (fuel : nat) (messages : list msg) (m : meta) (next_step : string) (bypass should_trigger : bool)
    : M (meta * list msg) :=
  match fuel with
  | O => raise OutOfFuel
  | S n =>
      generation (execute_function_call str_other float_repr format_spec convert convert_all text_of E allowlisted f
                    (do_llm_generation n))
        messages m next_step bypass should_trigger
  end.

(** ** Transcript lines for a browser (chat.py) *)
Definition FORWARDED_KEPT : nat := 50.
Definition last_n {A} (n : nat) (l : list A) : list A := drop (length l - n) l.

Definition forward_browser_text (text role : string) (asr_turn : val) : M unit :=
  s <- get ;;
  if str_blank text || negb (browser_leg f) || bool_decide (strip text ∈ forwarded_chat_texts s) || negb (has_output f) then ret tt
  else
    say (EOutput text [("type", VStr "text"); ("role", VStr role); ("sequence_id", VInt (-1)); ("asr_turn_id", asr_turn)]) ;;;
    pause E WOutput ;;;
    tr <- trace_of ;;
    when (e_forwarded E tr)
      (modify (fun s => set_chat (pending_chat_forward s) (last_n FORWARDED_KEPT (forwarded_chat_texts s ++ [strip text])) s)).

Fixpoint forward_each (l : list string) : M unit :=
  match l with [] => ret tt | t :: l' => forward_browser_text t "agent" VNone ;;; forward_each l' end.

Definition drain_pending_chat_forward : M unit :=
  if browser_leg f then
    s <- get ;;
    modify (fun s => set_chat [] (forwarded_chat_texts s) s) ;;;
    forward_each (pending_chat_forward s)
  else ret tt.

(** ** A turn of the conversation *)
Definition LLM_PROMPTED_HANGUP : string := "llm_prompted_hangup".

Definition stamp_cancelled (now : Q) (m : meta) (s : session) : session :=
  match rindex (fun d => val_eqb (mget "sequence_id" d) (mget "sequence_id" m)) (turn_latencies s) with
  | Some i => set_latencies (alter (dset "cancelled_at_ms"
                (float_val (py_round 2 (now * inject_Z 1000 - Transfer.f_start_ms (xfer f))%Q))) i (turn_latencies s)) s
  | None => s
  end.

Definition on_cancel {A} (c : M A) (m : meta) : M A := fun st =>
  match c st with
  | (st', Err Cancelled) => ((stamp_cancelled (e_clock E st'.2) m st'.1, st'.2), Err Cancelled)
  | r => r
  end.

Definition should_hang_up (v : val) : bool :=
  match v with VDict d => bool_decide (lower (ToolCalls.py_str str_other (get_or "hangup" (VStr "") d)) = "yes") | _ => false end.

(** The model is asked whether the call is over. *)
Definition check_completion : M unit :=
  s <- get ;;
  if llm_hangup f && negb (turn_based f) && negb (end_call_primary f) && negb (conversation_ended (others s)) then
    say ECompletion ;;;
    pause E WChunk ;;;
    tr <- trace_of ;;
    if should_hang_up (e_completion E tr) then
      s <- get ;;
      if hanging s then ret tt
      else modify (set_hangup_detail (Some LLM_PROMPTED_HANGUP)) ;;; process_call_hangup E
    else say EProcessed
  else say EProcessed.

Definition process_conversation_task (fuel : nat) (message : string) (next_step : string) (m : meta) : M unit :=
  let bypass := match dget "bypass_synth" m with Some (VBool b) => b | _ => false end in
  now <- clock E ;;
  let m := dset "_non_fatal_errors" (VList []) (dset "llm_start_time" (float_val now) m) in
  modify (append_eager_llm_stub f m) ;;;
  when (turn_based f) (modify (fun s => let h := history_of s in
    set_history (History.mkHistory (History.messages h ++ [[("role", VStr USER); ("content", VStr message)]]) (History.interim h)) s)) ;;;
  messages <- get_copy ;;
  r <- on_cancel (r <- do_llm_generation fuel messages m next_step bypass false ;;
                  when (first_task f) (say EHealth ;;; pause E WSynth) ;;; ret r) m ;;
  drain_pending_chat_forward ;;;
  modify (fun s => set_non_fatal (non_fatal_llm_error_events s ++
                     match mget "_non_fatal_errors" r.1 with VList l => l | _ => [] end) s) ;;;
  check_completion.
End generation.
End Turn.
