(* ===== verification/TurnRuns.v ===== *)
(** * What a turn of the conversation guarantees
    (the definitions are those of Turn)

    Runs of [process_conversation_task] as a whole: tool calls nested in answers and
    answers nested in tool calls, errors, and cancellation at any wait. A relation
    between the state and the trace that each single step keeps is kept by the run
    ([Turnwise], [keeps_task]); the invariants are instances of it. *)
From S2P Require Import Prelude PyText PyVal Json History HistorySync Interruption UrlGuard ToolCalls Webhooks Transfer PromptRender Turn.
From Stdlib Require Import QArith.QArith.
Close Scope Q_scope.
Open Scope Z_scope.
Open Scope voice_scope.

Module TurnRuns.
Import Turn.


(** ** What a turn leaves alone *)
(** The part of the state the invariants below are about. *)
Record core := Core { k_hanging : bool; k_in_flight : bool; k_details : Webhooks.ledger; k_webhooks : list Webhooks.webhook }.
Definition core_of (s : session) : core :=
  Core (hanging s) (function_call_in_flight (pipe s)) (details s) (Transfer.webhooks (calls s)).

Definition over_core (J : core -> trace -> Prop) : session * trace -> Prop := fun st => J (core_of st.1) st.2.

(** An event that starts nothing and lets no other task run. *)
Definition quiet (e : event) : bool := match e with EGenerate _ _ | EHangup | EWait _ => false | _ => true end.

Definition hang (k : core) : core := Core true (k_in_flight k) (k_details k) (k_webhooks k).
Definition hung (o : outside) : bool := hangup_triggered o || conversation_ended o.

(** The other tasks never take a hangup back, and once the call is hung up they know. *)
Class Monotone (E : environment) : Prop := {
  hangup_stays tr o : hung o = true -> hung (e_meanwhile E tr o) = true;
  hangup_known tr o : EHangup ∈ tr -> hung (e_meanwhile E tr o) = true }.

Class Stable (E : environment) (J : core -> trace -> Prop) : Prop := {
  stable_say k tr e : quiet e = true -> J k tr -> J k (tr ++ [e]);
  stable_hang k tr : J k tr -> J (hang k) tr;
  stable_wait k tr w o : hung o = k_hanging k -> J k tr ->
    J (Core (hung (e_meanwhile E (tr ++ [EWait w]) o)) (k_in_flight k) (k_details k) (k_webhooks k)) (tr ++ [EWait w]) }.

Create HintDb turn discriminated.

Section keeps.
Context (E : environment) (J : core -> trace -> Prop) `{!Stable E J}.
Notation keeps := (preserves (over_core J)).

Lemma keeps_ret {A} (a : A) : keeps (ret a).
Proof. by intros st. Qed.
Lemma keeps_raise {A} e : keeps (@raise A e).
Proof. by intros st. Qed.
Lemma keeps_seq {A B} (c : M A) (k : A -> M B) : keeps c -> (forall a, keeps (k a)) -> keeps (se_bind c k).
Proof. apply preserves_bind. Qed.
Lemma keeps_get : keeps get.
Proof. by intros st. Qed.
Lemma keeps_trace : keeps trace_of.
Proof. by intros st. Qed.
Lemma keeps_clock : keeps (clock E).
Proof. by intros st. Qed.
Lemma keeps_python {A} (r : result ToolCalls.exn A) : keeps (python r).
Proof. by intros st; destruct r. Qed.
Lemma keeps_modify g : (forall s, core_of (g s) = core_of s) -> keeps (modify g).
Proof. intros Hg [s tr] Hs. change (J (core_of (g s)) tr). rewrite Hg. exact Hs. Qed.
Lemma keeps_say e : quiet e = true -> keeps (say e).
Proof. intros He [s tr] Hs. exact (stable_say (core_of s) tr e He Hs). Qed.
Lemma keeps_pause w : keeps (pause E w).
Proof. intros [s tr] Hs. exact (stable_wait (core_of s) tr w (others s) eq_refl Hs). Qed.
Lemma keeps_drift w : keeps (drift E w).
Proof. intros [s tr] Hs. exact (stable_wait (core_of s) tr w (others s) eq_refl Hs). Qed.
Lemma keeps_uuid : keeps (uuid E).
Proof. intros [s tr] Hs. exact (stable_say (core_of s) tr (EUuid (e_uuid E tr)) eq_refl Hs). Qed.
Lemma keeps_when b c : keeps c -> keeps (when b c).
Proof. destruct b; [done|]. intros _. apply keeps_ret. Qed.
Lemma keeps_hanging : keeps (modify set_hanging).
Proof. intros [s tr] Hs. exact (stable_hang (core_of s) tr Hs). Qed.

Hint Resolve keeps_ret keeps_raise keeps_get keeps_trace keeps_clock keeps_python keeps_pause keeps_drift keeps_uuid
  keeps_when keeps_hanging : turn.

(** Walk through a program: binds and branches, then the hints. *)
Ltac keep :=
  repeat first
    [ match goal with |- preserves _ (se_bind _ _) => apply keeps_seq; [|intros ?] end
    | solve [eauto 2 with turn]
    | apply keeps_say; reflexivity
    | apply keeps_modify; intros ?; reflexivity
    | match goal with |- preserves _ (when _ _) => apply keeps_when end
    | match goal with |- preserves _ (if ?b then _ else _) => destruct b end
    | match goal with |- preserves _ (match ?x with _ => _ end) => destruct x end
    | progress cbv zeta ].

Context (format_language : string -> string -> option string) (f : config).

Lemma keeps_get_updated m : keeps (get_updated_meta_info E m).
Proof. unfold get_updated_meta_info. apply keeps_seq; [auto with turn|intros s]. destruct (Interruption.get_next_sequence_id _). keep. Qed.
Hint Resolve keeps_get_updated : turn.
Lemma keeps_spawn m : keeps (spawn_followup_meta_info E m).
Proof. unfold spawn_followup_meta_info. keep. Qed.
Lemma keeps_start_time m : keeps (start_time m).
Proof. unfold start_time. keep. Qed.
Lemma keeps_to_output t m : keeps (to_output E t m).
Proof. unfold to_output. keep. Qed.
Hint Resolve keeps_spawn keeps_start_time keeps_to_output : turn.
Lemma keeps_handle_output next_step t b m fl fc : keeps (handle_llm_output E f next_step t b m fl fc).
Proof. unfold handle_llm_output. keep. Qed.
Hint Resolve keeps_handle_output : turn.
Lemma keeps_store m ms r st t : keeps (store_into_history f m ms r st t).
Proof. unfold store_into_history. keep. Qed.
Hint Resolve keeps_store : turn.
Lemma keeps_routing info a : keeps (take_routing E f info a).
Proof. unfold take_routing. keep. Qed.
Lemma keeps_static t h a : keeps (take_static E t h a).
Proof. unfold take_static. keep. Qed.
Lemma keeps_text next_step b c a : keeps (take_text E f next_step b c a).
Proof. unfold take_text. keep. Qed.
Lemma keeps_get_copy : keeps get_copy.
Proof. unfold get_copy. apply keeps_seq; [auto with turn|intros s]. destruct (History.get_copy _). keep. Qed.
Lemma keeps_record c t : keeps (record c t).
Proof. unfold record. keep. Qed.
Hint Resolve keeps_routing keeps_static keeps_text keeps_get_copy keeps_record : turn.
End keeps.

#[export] Hint Resolve keeps_ret keeps_raise keeps_get keeps_trace keeps_clock keeps_python keeps_pause keeps_drift keeps_uuid
  keeps_when keeps_hanging keeps_get_updated keeps_spawn keeps_start_time keeps_to_output keeps_handle_output keeps_store
  keeps_routing keeps_static keeps_text keeps_get_copy keeps_record : turn.
#[export] Hint Extern 0 (Stable _ _) => typeclasses eauto : turn.

Ltac keep :=
  repeat first
    [ match goal with |- preserves _ (se_bind _ _) => apply keeps_seq; [|intros ?] end
    | match goal with |- preserves _ (say _) => eapply keeps_say; [typeclasses eauto|reflexivity] end
    | match goal with |- preserves _ (modify _) => first [apply keeps_modify; intros ?; reflexivity | solve [eauto 2 with turn]] end
    | solve [eauto 2 with turn]
    | match goal with |- preserves _ (when _ _) => apply keeps_when end
    | match goal with |- preserves _ (if ?b then _ else _) => destruct b end
    | match goal with |- preserves _ (match ?x with _ => _ end) => destruct x end
    | progress cbv zeta ].

Section finished.
Context (str_other : val -> string) (E : environment) (f : config) (J : core -> trace -> Prop) `{!Stable E J}.
Notation keeps := (preserves (over_core J)).

Lemma keeps_finish n b st a : keeps (finish str_other E f n b st a).
Proof.
  unfold finish. keep.
  all: apply keeps_modify; intros s1; unfold stage_forward, response_text, collect_rag; by repeat case_match.
Qed.
End finished.
#[export] Hint Resolve keeps_finish : turn.

(** What it takes besides, to keep something through a whole turn. *)
Class Turnwise (E : environment) (J : core -> trace -> Prop) : Prop := {
  turnwise_stable :: Stable E J;
  turnwise_generate k tr ms m : k_hanging k = false -> J k tr -> J k (tr ++ [EGenerate ms m]);
  turnwise_hangup k tr o : hung o = k_hanging k -> J k tr ->
    J (Core (hung (e_meanwhile E (tr ++ [EHangup; EWait WHangup]) o)) (k_in_flight k) (k_details k) (k_webhooks k))
      (tr ++ [EHangup; EWait WHangup]);
  turnwise_flight k tr b : J k tr -> J (Core (k_hanging k) b (k_details k) (k_webhooks k)) tr }.

Section whole.
Context (str_other : val -> string) (float_repr : Q -> string) (format_spec : val -> string -> option string).
Context (convert : text -> val -> option text) (convert_all : text -> meta -> option text).
Context (format_language : string -> string -> option string).
Context (text_of : ToolCalls.failure -> string) (exn_text : ToolCalls.exn -> string).
Context (E : environment) `{UrlGuard.Interpreter} (allowlisted : list string) (f : config).
Context (J : core -> trace -> Prop) `{!Turnwise E J}.
Notation keeps := (preserves (over_core J)).

Lemma keeps_hangup : keeps (process_call_hangup E).
Proof.
  intros [s tr] Hs. unfold process_call_hangup, se_bind, say, pause. cbn [fst snd]. rewrite <- app_assoc.
  exact (turnwise_hangup (core_of s) tr (others s) eq_refl Hs).
Qed.

Lemma keeps_enter_hangup : keeps (enter_hangup_state E).
Proof. unfold enter_hangup_state. keep. Qed.

Lemma keeps_in_flight b : keeps (modify (set_in_flight b)).
Proof. intros [s tr] Hs. exact (turnwise_flight (core_of s) tr b Hs). Qed.

Lemma keeps_lock : keeps (modify lock_barge_in).
Proof. apply keeps_modify. reflexivity. Qed.
Hint Resolve keeps_hangup keeps_enter_hangup keeps_in_flight keeps_lock : turn.

Lemma keeps_call st c p a : keeps (take_call f st c p a).
Proof. unfold take_call. keep. Qed.
Hint Resolve keeps_call : turn.

Lemma keeps_consume next_step b st l e a : keeps (consume E f next_step b st l e a).
Proof. revert a. induction l as [|i l IH]; intros a; cbn [consume]; keep. Qed.
Hint Resolve keeps_consume : turn.
Lemma keeps_receive next_step b st s a : keeps (receive E f next_step b st s a).
Proof. unfold receive. keep. Qed.
Hint Resolve keeps_receive : turn.

Section executed.
Context (generate : list msg -> meta -> string -> bool -> bool -> M (meta * list msg)).
Hypothesis generates : forall ms m n b st, keeps (generate ms m n b st).
Hint Resolve generates : turn.

Lemma keeps_follow_up m n b st : keeps (follow_up E generate m n b st).
Proof. unfold follow_up. keep. Qed.
Hint Resolve keeps_follow_up : turn.

Lemma keeps_end_call c n : keeps (end_call float_repr E generate c n).
Proof. unfold end_call, wait_for_current_message. keep. Qed.

Lemma keeps_set_language l : keeps (modify (set_language l)).
Proof. apply keeps_modify. reflexivity. Qed.
Hint Resolve keeps_set_language : turn.
Lemma keeps_switch_to l : keeps (switch_to E l).
Proof. unfold switch_to. keep. Qed.
Hint Resolve keeps_switch_to : turn.
Lemma keeps_after_playback : keeps (after_playback E).
Proof. unfold after_playback, wait_for_current_message. keep. Qed.
Hint Resolve keeps_after_playback : turn.
Lemma keeps_switch_with_detector l : keeps (switch_with_detector E l).
Proof. unfold switch_with_detector. keep. Qed.
Lemma keeps_switch_plain c l : keeps (switch_plain str_other float_repr format_spec E f c l).
Proof.
  unfold switch_plain, wait_for_current_message. keep. apply keeps_modify. intros s. by repeat case_match.
Qed.
Hint Resolve keeps_switch_with_detector keeps_switch_plain : turn.
Lemma keeps_switch_tool c n : keeps (switch_language_tool str_other float_repr format_spec E f generate c n).
Proof. unfold switch_language_tool. keep. Qed.

(** The two branches that touch the ledger are left to the invariant, which may ask
    something of the call. *)
Context (ok : call -> Prop).
Hypothesis transfers : forall c, keeps (transfer_call str_other float_repr convert convert_all text_of E f c).
Hypothesis tools : forall c n, ok c ->
  keeps (custom_tool str_other float_repr convert convert_all text_of E allowlisted f generate (corrected f c) n).

Lemma keeps_execute n c : ok c ->
  keeps (execute_function_call str_other float_repr format_spec convert convert_all text_of E allowlisted f generate n c).
Proof.
  intros Hok. unfold execute_function_call. cbv zeta.
  apply keeps_seq; [apply keeps_modify; reflexivity|intros []].
  destruct (startswith _ _); [apply keeps_end_call|]. destruct (startswith _ _); [apply transfers|].
  destruct (decide _); [apply keeps_switch_tool|by apply tools].
Qed.
End executed.

Lemma keeps_finally {A} (c : M A) b : keeps c -> keeps (finally c (set_in_flight b)).
Proof.
  intros Hc [s tr] Hs. unfold finally. specialize (Hc (s, tr) Hs). destruct (c (s, tr)) as [[s' tr'] r].
  exact (turnwise_flight (core_of s') tr' b Hc).
Qed.

Lemma keeps_llm_error {A} (c : M A) : keeps c -> keeps (as_llm_error exn_text c).
Proof.
  intros Hc st Hs. unfold as_llm_error. specialize (Hc st Hs). by destruct (c st) as [st' [a|[]]].
Qed.


Lemma keeps_bind_result {A B} (c : M A) (k : A -> M B) : keeps c ->
  (forall st st' a, c st = (st', Ok a) -> keeps (k a)) -> keeps (se_bind c k).
Proof.
  intros Hc Hk st Hs. unfold se_bind. pose proof (Hc st Hs) as H1. destruct (c st) as [st' [a|e]] eqn:Hr; [|done].
  by apply (Hk st st' a Hr).
Qed.

(** The payload of a call is that of a chunk of the stream. *)
Lemma consume_payload next_step b st l e : forall a s s' a' p, consume E f next_step b st l e a s = (s', Ok (Calls a' p)) ->
  exists c, Piece c ∈ l /\ payload c = Some p.
Proof.
  induction l as [|i l IH]; intros a s s' a' p; cbn [consume]; unfold se_bind at 1; destruct (pause E WChunk s) as [s1 [[]|]];
    try discriminate.
  - by destruct e.
  - destruct i as [|info|t h|c].
    + intros (c & Hc & Hp)%IH. exists c. split; [by right|done].
    + unfold se_bind. destruct (take_routing E f info a s1) as [s2 [a2|]]; [|discriminate].
      intros (c & Hc & Hp)%IH. exists c. split; [by right|done].
    + unfold se_bind. destruct (take_static E t h a s1) as [s2 [a2|]]; discriminate.
    + destruct (payload c) as [p'|] eqn:Hp.
      * unfold se_bind. destruct (take_call f st c p' _ s1) as [s2 [a2|]]; [|discriminate].
        intros Hr. unfold ret, se_ret in Hr. simplify_eq. exists c. split; [by left|done].
      * unfold se_bind. destruct (take_text E f next_step b c _ s1) as [s2 [a2|]]; [|discriminate].
        intros (c' & Hc & Hp')%IH. exists c'. split; [by right|done].
Qed.

Lemma receive_payload next_step b st sm a s s' a' p : receive E f next_step b st sm a s = (s', Ok (Calls a' p)) ->
  exists c, Piece c ∈ items sm /\ payload c = Some p.
Proof.
  unfold receive. destruct (prompt sm); [apply consume_payload|].
  unfold se_bind. destruct (pause E WChunk s) as [s1 [[]|]]; discriminate.
Qed.

Context (ok : call -> Prop).
Hypothesis payloads_ok : forall tr ms m c p x, Piece c ∈ items (e_generate E tr ms m) -> payload c = Some p ->
  arguments p = Ok x -> ok x.

Lemma keeps_generation execute ms m n b st : (forall n c, ok c -> keeps (execute n c)) ->
  keeps (generation str_other format_language exn_text E f execute ms m n b st).
Proof.
  intros He. unfold generation. intros [s tr] Hs. unfold se_bind at 1. cbn [get fst]. destruct (hanging s) eqn:Hh.
  - exact Hs.
  - set (ms' := inject_language_instruction _ _ _). set (m' := dset _ _ _). clearbody ms' m'.
    assert (Hr : over_core J (s, (tr ++ [EReset]) ++ [EGenerate ms' m'])).
    { apply (turnwise_generate (core_of s)); [done|]. exact (stable_say (core_of s) tr EReset eq_refl Hs). }
    set (rest := fun r => match r with Over m messages => ret (m, messages) | Rest a => finish str_other E f n b st a end).
    assert (Hk : forall (c : M spoken), keeps c -> keeps (se_bind (as_llm_error exn_text c) rest)).
    { intros c Hc. apply keeps_seq; [by apply keeps_llm_error|]. intros []; unfold rest; keep. }
    unfold se_bind at 1, say at 1. cbn [fst snd].
    match goal with |- over_core J (fst (se_bind (as_llm_error _ (se_bind (say ?e) ?k)) _ _)) =>
      pose proof (Hk (k tt)) as Hk'; set (kk := k tt) in * end.
    assert (Hkk : keeps kk).
    { unfold kk. apply keeps_seq; [apply (keeps_trace J)|intros tr0].
      apply keeps_bind_result; [keep|]. intros s0 s1 l Hl.
      destruct l as [a0|a0|a0 p]; [keep..|]. apply receive_payload in Hl as (c & Hc & Hp).
      apply keeps_seq; [|keep]. apply keeps_finally. destruct (arguments p) as [x|e] eqn:Hx; [|by intros ?].
      apply keeps_bind_result; [apply (keeps_python J)|]. intros s2 s3 x' Hx'. unfold python, ret, se_ret in Hx'. injection Hx' as _ <-. eapply He, payloads_ok; eauto. }
    specialize (Hk' Hkk _ Hr). exact Hk'.
Qed.

(** The whole of a generation, tool calls included. *)
Lemma keeps_generate :
  (forall c, keeps (transfer_call str_other float_repr convert convert_all text_of E f c)) ->
  (forall g, (forall ms m n b st, keeps (g ms m n b st)) ->
     forall c n, ok c ->
       keeps (custom_tool str_other float_repr convert convert_all text_of E allowlisted f g (corrected f c) n)) ->
  forall fuel ms m n b st, keeps (do_llm_generation str_other float_repr format_spec convert convert_all format_language text_of
    exn_text E allowlisted f fuel ms m n b st).
Proof.
  intros Ht Hc fuel. induction fuel as [|fuel IH]; intros ms m n b st; [apply keeps_raise|]. cbn [do_llm_generation].
  apply keeps_generation. intros n' c Hok. eapply keeps_execute; eauto.
Qed.
End whole.

(** ** Nothing new is generated once the call hangs up *)
Section blind.
Context (str_other : val -> string) (float_repr : Q -> string) (format_spec : val -> string -> option string).
Context (convert : text -> val -> option text) (convert_all : text -> meta -> option text).
Context (format_language : string -> string -> option string).
Context (text_of : ToolCalls.failure -> string) (exn_text : ToolCalls.exn -> string).
Context (E : environment) `{UrlGuard.Interpreter} (allowlisted : list string) (f : config).
Context (J : core -> trace -> Prop) `{!Turnwise E J}.
(** The invariant does not look at the ledger. *)
Hypothesis blind : forall k tr d w, J k tr -> J (Core (k_hanging k) (k_in_flight k) d w) tr.
Notation keeps := (preserves (over_core J)).

Lemma keeps_ledger g : (forall s, hanging (g s) = hanging s /\ function_call_in_flight (pipe (g s)) = function_call_in_flight (pipe s)) ->
  keeps (modify g).
Proof.
  intros Hg [s tr] Hs. destruct (Hg s) as [H1 H2]. unfold over_core, core_of. cbn [fst snd modify]. rewrite H1, H2.
  exact (blind (core_of s) tr _ _ Hs).
Qed.

Lemma keeps_transfer c : keeps (transfer_call str_other float_repr convert convert_all text_of E f c).
Proof.
  unfold transfer_call, execute_transfer_call_webhook, with_calls. keep; try (apply keeps_ledger; intros ?; split; reflexivity).
Qed.

Lemma keeps_custom generate c n : (forall ms m n b st, keeps (generate ms m n b st)) ->
  keeps (custom_tool str_other float_repr convert convert_all text_of E allowlisted f generate c n).
Proof.
  intros Hg. pose proof (keeps_follow_up E J generate Hg) as Hf.
  unfold custom_tool, wait_for_current_message, pre_call_webhook, call_tool, close_detail.
  keep; try (apply keeps_ledger; intros ?; split; reflexivity); try apply Hf.
  apply keeps_modify. intros s. unfold merge_context. by repeat case_match.
Qed.

Lemma keeps_turn fuel ms m n b st : keeps (do_llm_generation str_other float_repr format_spec convert convert_all format_language
  text_of exn_text E allowlisted f fuel ms m n b st).
Proof. apply (keeps_generate _ _ _ _ _ _ _ _ _ _ _ _ (fun _ => True)); try done; [intros c; apply keeps_transfer|]. intros g Hg c n0 _. by apply keeps_custom. Qed.


End blind.

(** The call is hung up by the end of this trace: this turn did it, or its last event
    is a wait from which the other tasks come back with the call hung up. *)
Definition hung_by (E : environment) (t : trace) : Prop :=
  EHangup ∈ t \/ (exists t0 w, t = t0 ++ [EWait w]) /\ forall o, hung (e_meanwhile E t o) = true.

Definition no_request (e : event) : Prop := match e with EGenerate _ _ => False | _ => True end.

(** Once hung up, it is known; and from there on the model is asked for nothing. With
    [h], the call is hung up since the trace was [tr0]. *)
Definition silent (E : environment) (h : bool) (tr0 : trace) (k : core) (tr : trace) : Prop :=
  (forall t rest, tr = t ++ rest -> hung_by E t -> k_hanging k = true /\ Forall no_request rest) /\
  (h = true -> k_hanging k = true /\ exists rest, tr = tr0 ++ rest /\ Forall no_request rest).

Definition hangs_none (e : event) : bool := match e with EHangup | EWait _ => false | _ => true end.

Lemma hung_by_last E t e : hangs_none e = true -> hung_by E (t ++ [e]) -> EHangup ∈ t.
Proof.
  intros He [[Hi|Hi]%elem_of_app|[(t0 & w & Ht) _]]; [done|apply list_elem_of_singleton in Hi; by subst e|].
  apply app_inj_tail in Ht as [_ ->]. done.
Qed.

(** One more event that asks the model for nothing. *)
Lemma silent_snoc E h tr0 k k' tr e : no_request e -> silent E h tr0 k tr ->
  (k_hanging k = true -> k_hanging k' = true) -> (hung_by E (tr ++ [e]) -> k_hanging k' = true) ->
  silent E h tr0 k' (tr ++ [e]).
Proof.
  intros He [H1 H2] Hk Hlast. split.
  - intros t rest Ht Hh. destruct rest as [|x rest _] using rev_ind.
    { rewrite app_nil_r in Ht. subst t. by split; [apply Hlast|]. }
    rewrite app_assoc in Ht. apply app_inj_tail in Ht as [-> <-]. destruct (H1 t rest eq_refl Hh) as [Hk' Hr].
    split; [by apply Hk|]. apply Forall_app. split; [done|by repeat constructor].
  - intros Hh. destruct (H2 Hh) as (Hk' & rest & -> & Hr). split; [by apply Hk|]. exists (rest ++ [e]).
    split; [by rewrite app_assoc|]. apply Forall_app. split; [done|by repeat constructor].
Qed.

Lemma silent_hanging E h tr0 k tr : silent E h tr0 k tr -> EHangup ∈ tr -> k_hanging k = true.
Proof. intros [H1 _] Hi. apply (H1 tr []); [by rewrite app_nil_r|by left]. Qed.

Instance silent_stable E h tr0 `{!Monotone E} : Stable E (silent E h tr0).
Proof.
  split.
  - intros k tr e He Hs. apply (silent_snoc E h tr0 k k); [destruct e; simpl in *; done|done..|].
    intros Hh%hung_by_last; [|by destruct e]. by eapply silent_hanging.
  - intros k tr [H1 H2]. split; [intros t rest Ht Hh; by destruct (H1 t rest Ht Hh)|]. intros Hh. by destruct (H2 Hh).
  - intros k tr w o Ho Hs. apply (silent_snoc E h tr0 k); [done..| |].
    + cbn [k_hanging]. rewrite <- Ho. apply hangup_stays.
    + intros [Hi|[_ Ha]]; [by apply hangup_known|by apply Ha].
Qed.

Instance silent_turnwise E h tr0 `{!Monotone E} : Turnwise E (silent E h tr0).
Proof.
  split; [apply _|..].
  - intros k tr ms m Hk [H1 H2]. split.
    + intros t rest Ht Hh. exfalso. destruct rest as [|x rest _] using rev_ind.
      * rewrite app_nil_r in Ht. subst t. apply hung_by_last in Hh; [|done].
        pose proof (silent_hanging E h tr0 k tr ltac:(by split) Hh). congruence.
      * rewrite app_assoc in Ht. apply app_inj_tail in Ht as [-> _]. destruct (H1 t rest eq_refl Hh). congruence.
    + intros Hh. destruct (H2 Hh). congruence.
  - intros k tr o Ho Hs. change (tr ++ [EHangup; EWait WHangup]) with (tr ++ [EHangup] ++ [EWait WHangup]). rewrite app_assoc.
    assert (silent E h tr0 (hang k) (tr ++ [EHangup])) as Hs' by by apply (silent_snoc E h tr0 k).
    apply (silent_snoc E h tr0 (hang k)); [done..| |]; intros _; cbn [k_hanging]; apply hangup_known; set_solver.
  - intros k tr b [H1 H2]. by split.
Qed.

Section silence.
Context (str_other : val -> string) (float_repr : Q -> string) (format_spec : val -> string -> option string).
Context (convert : text -> val -> option text) (convert_all : text -> meta -> option text).
Context (format_language : string -> string -> option string).
Context (text_of : ToolCalls.failure -> string) (exn_text : ToolCalls.exn -> string).
Context (E : environment) `{UrlGuard.Interpreter} (allowlisted : list string) (f : config).

Notation task := (process_conversation_task str_other float_repr format_spec convert convert_all format_language
  text_of exn_text E allowlisted f).

End silence.

(** ** The flag of a call in flight *)
Definition free (k : core) (_ : trace) : Prop := k_in_flight k = false.

Instance free_stable E : Stable E free.
Proof. by split. Qed.

(** The text a payload carries is a text, if any. *)
Definition textual_ok (p : meta) : bool := match mget "textual_response" p with VStr _ => true | v => negb (truthy v) end.

Section flight.
Context (str_other : val -> string) (float_repr : Q -> string) (format_spec : val -> string -> option string).
Context (convert : text -> val -> option text) (convert_all : text -> meta -> option text).
Context (format_language : string -> string -> option string).
Context (text_of : ToolCalls.failure -> string) (exn_text : ToolCalls.exn -> string).
Context (E : environment) `{UrlGuard.Interpreter} (allowlisted : list string) (f : config).

Lemma store_total m ms r st t s : exists s' ms', store_into_history f m ms r st t s = (s', Ok ms').
Proof.
  unfold store_into_history, when, se_bind. destruct (first_task f && _ && _); cbn; destruct st; cbn; eauto.
Qed.

Lemma take_call_total st c p a s : textual_ok p = true -> exists s' a', take_call f st c p a s = (s', Ok a').
Proof.
  intros Hp. unfold take_call, se_bind, textual_ok in *. cbn [modify]. destruct (latency c) as [d|]; [|unfold ret, se_ret; eauto].
  assert (Ht : exists o, textual_of p = Ok o).
  { unfold textual_of. destruct (mget "textual_response" p); try (by eexists); apply negb_true_iff in Hp; rewrite Hp; by eexists. }
  destruct Ht as [o ->]. cbn. destruct o as [t|]; [|unfold ret, se_ret; eauto].
  match goal with |- context [store_into_history f ?m ?ms ?r ?st ?t ?s] =>
    destruct (store_total m ms r st t s) as (s' & ms' & ->) end. unfold ret, se_ret. eauto.
Qed.

Definition flight_after (st : session * trace) (r : result error left_off) : Prop :=
  match r with Ok (Calls _ _) => True | _ => over_core free st end.

Lemma consume_flight next_step b st l e : (forall c p, Piece c ∈ l -> payload c = Some p -> textual_ok p = true) ->
  forall a s s' r, over_core free s -> consume E f next_step b st l e a s = (s', r) -> flight_after s' r.
Proof.
  intros Hl. induction l as [|i l IH]; intros a s s' r Hs; cbn [consume]; unfold se_bind at 1;
    pose proof (keeps_pause E free WChunk s Hs) as H1; destruct (pause E WChunk s) as [s1 [[]|]]; cbn [fst] in H1;
    try (intros [= <- <-]; exact H1).
  - destruct e; intros [= <- <-]; exact H1.
  - assert (Hl' : forall c p, Piece c ∈ l -> payload c = Some p -> textual_ok p = true) by (intros; eapply Hl; [by right|done]).
    destruct i as [|info|t h|c].
    + by apply IH.
    + pose proof (keeps_routing E free f info a s1 H1) as H2. unfold se_bind.
      destruct (take_routing E f info a s1) as [s2 [a2|]]; [by apply IH|intros [= <- <-]; exact H2].
    + pose proof (keeps_static E free t h a s1 H1) as H2. unfold se_bind.
      destruct (take_static E t h a s1) as [s2 [a2|]]; intros [= <- <-]; exact H2.
    + destruct (payload c) as [p|] eqn:Hp.
      * unfold se_bind. destruct (take_call_total st c p (Gathered (a_meta a) (a_messages a) (a_response a) (function_name c)
          (function_message c) (merge_tokens c (a_tokens a)) (a_silence a)) s1) as (s2 & a2 & Hc); [by eapply Hl; [left|]|].
        rewrite Hc. by intros [= <- <-].
      * unfold se_bind. set (a1 := Gathered _ _ _ _ _ _ _). pose proof (keeps_text E free f next_step b c a1 s1 H1) as H2.
        destruct (take_text E f next_step b c a1 s1) as [s2 [a2|]]; [by apply IH|intros [= <- <-]; exact H2].
Qed.

Lemma receive_flight next_step b st sm a s s' r : (forall c p, Piece c ∈ items sm -> payload c = Some p -> textual_ok p = true) ->
  over_core free s -> receive E f next_step b st sm a s = (s', r) -> flight_after s' r.
Proof.
  intros Hl Hs. unfold receive. destruct (prompt sm); [by apply consume_flight|].
  unfold se_bind at 1. pose proof (keeps_pause E free WChunk s Hs) as H1.
  destruct (pause E WChunk s) as [s1 [[]|]]; intros [= <- <-]; exact H1.
Qed.

(** C26: Provided that the text a tool call of the model comes with is a text, if any:
    however a generation that starts with the flag down ends, by its own end, by an error of the model or of a tool, or
    by cancellation at any wait, nested ones included, the flag that holds other switches
    off while a tool runs is down again. Without the proviso it can stay up
    ([Example.flag_stays_up]). *)
Theorem in_flight_released fuel ms m n b st s tr :
  (forall tr ms m c p, Piece c ∈ items (e_generate E tr ms m) -> payload c = Some p -> textual_ok p = true) ->
  function_call_in_flight (pipe s) = false ->
  function_call_in_flight (pipe (do_llm_generation str_other float_repr format_spec convert convert_all format_language text_of
    exn_text E allowlisted f fuel ms m n b st (s, tr)).1.1) = false.
Proof.
  intros Hok Hs. destruct fuel as [|fuel]; [exact Hs|]. cbn [do_llm_generation]. set (execute := execute_function_call _ _ _ _ _ _ _ _ _ _).
  clearbody execute. unfold generation, se_bind at 1. cbn [get fst]. destruct (hanging s); [exact Hs|].
  set (ms' := inject_language_instruction _ _ _). set (m' := dset _ _ _). clearbody ms' m'.
  unfold se_bind at 1, say at 1. unfold se_bind at 1. cbn [fst snd]. unfold as_llm_error at 1, se_bind at 1, say at 1. cbn [fst snd].
  unfold se_bind at 1. cbn [trace_of fst snd]. unfold se_bind at 1.
  set (tr' := (tr ++ [EReset]) ++ [EGenerate ms' m']).
  destruct (receive E f n b st _ _ (s, tr')) as [[s1 t1] r] eqn:Hr.
  apply receive_flight in Hr; [|exact (Hok tr' ms' m')|exact Hs]. destruct r as [[a|a|a p]|e]; cbn [flight_after] in Hr.
  - cbn. exact (keeps_finish str_other E f free n b st a (s1, t1) Hr).
  - exact Hr.
  - unfold se_bind at 1, finally. destruct (se_bind _ _ (s1, t1)) as [[s2 t2] [[]|[]]]; reflexivity.
  - by destruct e.
Qed.
End flight.

(** ** The books of the requests *)
(** A row is closed, or it is that of a webhook, which closes it itself. *)
Definition accounted (k : core) (_ : trace) : Prop :=
  forall i d, k_details k !! i = Some d -> Transfer.closed d \/ i ∈ map Webhooks.w_row (k_webhooks k).

Instance accounted_turnwise E : Turnwise E accounted.
Proof. split; [split|..]; done. Qed.

Lemma accounted_webhook k tr d w : Webhooks.w_row w = length (k_details k) -> accounted k tr ->
  accounted (Core (k_hanging k) (k_in_flight k) (k_details k ++ [d]) (k_webhooks k ++ [w])) tr.
Proof.
  intros Hw Hk i d' Hi. cbn [k_details k_webhooks] in *. rewrite map_app. apply lookup_app_Some in Hi as [Hi|[Hl Hi]].
  - destruct (Hk i d' Hi); [by left|]. right. apply elem_of_app. by left.
  - apply list_lookup_singleton_Some in Hi as [Hi _]. right. apply elem_of_app. right. apply list_elem_of_singleton. lia.
Qed.

Lemma accounted_row k tr now c d : accounted k tr ->
  accounted (Core (k_hanging k) (k_in_flight k)
               (Webhooks.close_row now (length (k_details k)) c (k_details k ++ [d])) (k_webhooks k)) tr.
Proof.
  intros Hk i d' Hi. cbn [k_details k_webhooks] in *. unfold Webhooks.close_row in Hi. rewrite alter_app_r_alt, Nat.sub_diag in Hi by lia.
  apply lookup_app_Some in Hi as [Hi|[_ Hi]]; [by apply (Hk i)|].
  apply list_lookup_singleton_Some in Hi as [_ <-]. left. apply Transfer.finalize_closed.
Qed.

Lemma closed_row k tr d : Transfer.closed d -> accounted k tr ->
  accounted (Core (k_hanging k) (k_in_flight k) (k_details k ++ [d]) (k_webhooks k)) tr.
Proof.
  intros Hd Hk i d' Hi. cbn [k_details k_webhooks] in *. apply lookup_app_Some in Hi as [Hi|[_ Hi]]; [by apply (Hk i)|].
  apply list_lookup_singleton_Some in Hi as [_ <-]. by left.
Qed.

Section accounts.
Context (str_other : val -> string) (float_repr : Q -> string) (format_spec : val -> string -> option string).
Context (convert : text -> val -> option text) (convert_all : text -> meta -> option text).
Context (format_language : string -> string -> option string).
Context (text_of : ToolCalls.failure -> string) (exn_text : ToolCalls.exn -> string).
Context (E : environment) `{UrlGuard.Interpreter} (allowlisted : list string) (f : config).
Notation keeps := (preserves (over_core accounted)).

(** A step on the state that keeps the books. *)
Lemma keeps_books g : (forall s tr, accounted (core_of s) tr -> accounted (core_of (g s)) tr) -> keeps (modify g).
Proof. intros Hg [s tr] Hs. exact (Hg s tr Hs). Qed.

Lemma fired_books now dispatch x u name resp m param l l' w :
  Webhooks.fire_pre_call_webhook str_other float_repr convert convert_all now dispatch x u name resp m param l = Ok (l', w) ->
  exists d, l' = l ++ [d] /\ Webhooks.w_row w = length l.
Proof.
  unfold Webhooks.fire_pre_call_webhook. intros Hf. repeat case_match; simplify_eq; by eexists.
Qed.

Lemma pre_call_books now c resp x x' : Transfer.pre_call str_other float_repr convert convert_all (xfer f) now c resp x = Ok x' ->
  Transfer.details x' = Transfer.details x /\ Transfer.webhooks x' = Transfer.webhooks x \/
  exists d w, Transfer.details x' = Transfer.details x ++ [d] /\ Transfer.webhooks x' = Transfer.webhooks x ++ [w] /\
    Webhooks.w_row w = length (Transfer.details x).
Proof.
  unfold Transfer.pre_call. case_match; [|intros [= <-]; by left].
  destruct (Webhooks.fire_pre_call_webhook _ _ _ _ _ _ _ _ _ _ _ _ _) as [[l w]|] eqn:Hf; [|done].
  intros [= <-]. apply fired_books in Hf as (d & -> & Hw). right. by exists d, w.
Qed.

Lemma begin_books now c x x' r :
  Transfer.begin_transfer str_other float_repr convert convert_all (xfer f) now c x = (x', r) ->
  Transfer.details x' = Transfer.details x /\ Transfer.webhooks x' = Transfer.webhooks x \/
  exists d w, Transfer.details x' = Transfer.details x ++ [d] /\ Transfer.webhooks x' = Transfer.webhooks x ++ [w] /\
    Webhooks.w_row w = length (Transfer.details x).
Proof.
  unfold Transfer.begin_transfer. intros Hb.
  repeat case_match; simplify_eq; try (by left).
  all: match goal with Hp : Transfer.pre_call _ _ _ _ _ _ _ _ _ = Ok _ |- _ => apply pre_call_books in Hp; exact Hp end.
Qed.

Lemma begin_keeps now c s tr x r :
  Transfer.begin_transfer str_other float_repr convert convert_all (xfer f) now c (calls_of s) = (x, r) ->
  accounted (core_of s) tr -> accounted (core_of (put_calls x s)) tr.
Proof.
  intros Hb Hs. unfold core_of, details. cbn [calls put_calls set_calls]. apply begin_books in Hb as [[-> ->]|(d & w & -> & -> & Hw)].
  - exact Hs.
  - exact (accounted_webhook (core_of s) tr d w Hw Hs).
Qed.

Lemma books_handoff c : keeps (execute_transfer_call_webhook str_other text_of E f c).
Proof.
  unfold execute_transfer_call_webhook. apply keeps_seq; [apply (keeps_pause E accounted)|intros []].
  apply keeps_seq; [apply keeps_clock|intros now]. destruct (Transfer.on_telephony (xfer f)) eqn:Ht.
  - apply keeps_seq.
    { apply keeps_books. intros s tr Hs. unfold Transfer.announce. rewrite Ht. exact Hs. }
    intros []. apply keeps_seq; [apply (keeps_pause E accounted)|intros []]. apply keeps_seq; [apply keeps_clock|intros now1].
    intros [s tr] Hs. unfold over_core in *. cbn [fst snd] in Hs.
    cbv [se_bind get modify with_calls say trace_of drift clock]. cbn [fst snd].
    match goal with |- accounted (core_of (fst (fst (match ?a with Some _ => _ | None => _ end ?st)))) _ =>
      assert (Hk : accounted (core_of (fst st)) []); [|by destruct a] end.
    cbn [fst snd]. unfold Transfer.settle. cbv zeta. destruct (match e_post E _ with Some _ => _ | None => _ end) as [[cl st] ok].
    intros i d. exact (accounted_row (core_of s) [] _ cl _ Hs i d).
  - apply keeps_seq.
    { apply keeps_books. intros s tr Hs. unfold Transfer.announce. rewrite Ht. intros i d.
      exact (closed_row (core_of s) tr _ (Transfer.finalize_closed _ _ _) Hs i d). }
    intros []. keep.
Qed.

Lemma books_transfer c : keeps (transfer_call str_other float_repr convert convert_all text_of E f c).
Proof.
  unfold transfer_call. apply keeps_seq; [apply keeps_clock|intros now]. intros [s tr] Hs.
  set (rest := fun r => match r with Transfer.Duplicate => ret tt | Transfer.Raised e => raise (Python e)
                        | Transfer.Handed c' => execute_transfer_call_webhook str_other text_of E f c' end).
  assert (Hk : forall r, keeps (rest r)).
  { intros [|c'|e]; [apply keeps_ret|apply books_handoff|apply keeps_raise]. }
  unfold se_bind at 1. cbn [get fst]. destruct (Transfer.begin_transfer _ _ _ _ _ _ _ _) as [x r] eqn:Hb.
  exact (Hk r (put_calls x s, tr) (begin_keeps _ _ _ tr _ _ Hb Hs)).
Qed.

(** What a call must be like for its request to be made at all: the method is a text,
    and no argument of the model has a name that [trigger_api] takes for itself. *)
Definition sendable (c : call) : Prop :=
  (exists method, c_method c = VStr method) /\ Webhooks.bad_keyword TRIGGER_PARAMETERS (c_resp c) = false.

Lemma corrected_sendable c : sendable c -> sendable (corrected f c).
Proof.
  intros [Hm Hb]. unfold corrected. destruct (dget "execution_id" (c_resp c)) as [v|] eqn:Hv; [|done]. destruct (val_eqb _ _); [done|].
  split; [exact Hm|]. cbn [c_resp]. unfold Webhooks.bad_keyword in *. rewrite <- Hb. cbn [existsb TRIGGER_PARAMETERS].
  unfold dhas. by rewrite !dget_dset_ne.
Qed.

(** Between its opening and its closing, the row of a request is alone. *)
Lemma books_request {A} c (k : ToolCalls.api_answer -> M A) : sendable c -> (forall a, keeps (k a)) -> keeps (
  now <- clock E ;; s <- get ;;
  let row := length (details s) in
  modify (set_details (details s ++ [open_detail str_other float_repr convert convert_all now c])) ;;;
  a <- call_tool str_other float_repr convert convert_all text_of E allowlisted c row ;;
  close_detail E row (answer_closing text_of a) ;;; k a).
Proof.
  intros [[m Hm] Hb] Hk [s tr] Hs. unfold call_tool. rewrite Hm, Hb. unfold over_core in Hs. cbn [fst snd] in Hs.
  cbv [se_bind get modify with_calls say trace_of drift clock close_detail]. cbn [fst snd].
  match goal with |- context [ToolCalls.trigger_api ?a ?b ?c ?d ?e ?g ?h ?i ?j ?k ?l ?m ?n ?o] =>
    destruct (ToolCalls.trigger_api a b c d e g h i j k l m n o) as [t r] end. cbn [fst snd].
  destruct r as [a|e]; cbn [ret raise se_ret se_raise fst snd].
  - apply Hk. intros i d. eapply (accounted_row (core_of s) [] _ _ _ Hs i d).
  - intros i d. eapply (accounted_row (core_of s) [] _ _ _ Hs i d).
Qed.

Lemma books_webhook c : keeps (pre_call_webhook str_other float_repr convert convert_all E f c).
Proof.
  unfold pre_call_webhook. cbv zeta. destruct (truthy _); [|apply keeps_ret].
  apply keeps_seq; [apply keeps_clock|intros now]. intros [s tr] Hs. unfold se_bind at 1. cbn [get fst].
  destruct (Webhooks.fire_pre_call_webhook _ _ _ _ _ _ _ _ _ _ _ _ _) as [[l w]|] eqn:Hf; [|exact Hs].
  apply fired_books in Hf as (d & -> & Hw).
  set (s' := set_calls (Transfer.add_webhook (details s ++ [d]) w (calls s)) s).
  exact (keeps_pause E accounted WSleep (s', tr) (accounted_webhook (core_of s) tr d w Hw Hs)).
Qed.

Lemma books_custom generate c n : (forall ms m n b st, keeps (generate ms m n b st)) -> sendable c ->
  keeps (custom_tool str_other float_repr convert convert_all text_of E allowlisted f generate (corrected f c) n).
Proof.
  intros Hg Hc. pose proof (keeps_follow_up E accounted generate Hg) as Hf. unfold custom_tool.
  apply keeps_seq; [apply (keeps_pause E accounted)|intros []]. apply keeps_seq; [apply keeps_get|intros s].
  destruct (hanging s); [apply keeps_ret|]. apply keeps_seq; [apply books_webhook|intros []].
  apply books_request; [by apply corrected_sendable|]. intros a. keep; try apply Hf.
  apply keeps_modify. intros s'. unfold merge_context. by repeat case_match.
Qed.

(** C23: A turn whose tool calls can be sent (each has a text as its method, and no
    argument of the model named like a parameter of [trigger_api]) accounts for every
    request it makes: from a ledger whose rows are closed or of webhooks on their way,
    whatever the tools answer, and wherever the turn is cancelled or raises, nested
    turns included, a row that is still open afterwards is one of a webhook on its
    way. Without the condition a row can stay open ([Example.row_stays_open]). *)
Theorem requests_accounted fuel ms m n b st s tr :
  (forall tr ms m c p x, Piece c ∈ items (e_generate E tr ms m) -> payload c = Some p -> arguments p = Ok x -> sendable x) ->
  accounted (core_of s) tr ->
  forall i d, details (do_llm_generation str_other float_repr format_spec convert convert_all format_language text_of
    exn_text E allowlisted f fuel ms m n b st (s, tr)).1.1 !! i = Some d ->
  Transfer.closed d \/
  i ∈ map Webhooks.w_row (Transfer.webhooks (calls (do_llm_generation str_other float_repr format_spec convert convert_all
    format_language text_of exn_text E allowlisted f fuel ms m n b st (s, tr)).1.1)).
Proof.
  intros Hok Hs. refine (keeps_generate str_other float_repr format_spec convert convert_all format_language text_of exn_text
    E allowlisted f accounted sendable Hok _ _ fuel ms m n b st (s, tr) Hs).
  - apply books_transfer.
  - intros g Hg c n0 Hc. by apply books_custom.
Qed.
End accounts.

(** ** Turns come to an end *)
(** How often the model was asked. *)
Definition is_generate (e : event) : bool := match e with EGenerate _ _ => true | _ => false end.
Definition gens (tr : trace) : nat := length (List.filter is_generate tr).

Lemma gens_app tr tr' : gens (tr ++ tr') = (gens tr + gens tr')%nat.
Proof. unfold gens. by rewrite List.filter_app, length_app. Qed.

Definition asked (n : nat) (_ : core) (tr : trace) : Prop := (n <= gens tr)%nat.

Instance asked_turnwise E n : Turnwise E (asked n).
Proof. split; [split|..]; unfold asked; intros; rewrite ?gens_app; lia. Qed.

(** From [st], the fuel is not enough. *)
Definition runs_dry {A} (c : M A) (st : session * trace) : Prop := (c st).2 = Err OutOfFuel.

(** A program that does not run out of fuel. *)
Definition calm {A} (c : M A) : Prop := forall st, (c st).2 <> Err OutOfFuel.

(** One that does not from where the model was asked [n] times, and loses count of none. *)
Definition tame (n : nat) {A} (c : M A) : Prop :=
  preserves (over_core (asked n)) c /\ forall st, over_core (asked n) st -> (c st).2 <> Err OutOfFuel.

Create HintDb calm discriminated.

Section calm.
Context (E : environment) (f : config).

Lemma calm_ret {A} (a : A) : calm (ret a).
Proof. by intros st. Qed.
Lemma calm_raise {A} e : e <> OutOfFuel -> calm (@raise A e).
Proof. intros He st [= ?]. done. Qed.
Lemma calm_bind {A B} (c : M A) (k : A -> M B) : calm c -> (forall a, calm (k a)) -> calm (se_bind c k).
Proof.
  intros Hc Hk st. unfold se_bind. specialize (Hc st). destruct (c st) as [st' [a|e]]; [apply Hk|].
  cbn [snd] in *. intros [= ->]. done.
Qed.
Lemma calm_get : calm get.
Proof. by intros st. Qed.
Lemma calm_trace : calm trace_of.
Proof. by intros st. Qed.
Lemma calm_clock : calm (clock E).
Proof. by intros st. Qed.
Lemma calm_uuid : calm (uuid E).
Proof. by intros st. Qed.
Lemma calm_modify g : calm (modify g).
Proof. by intros st. Qed.
Lemma calm_say e : calm (say e).
Proof. by intros st. Qed.
Lemma calm_drift w : calm (drift E w).
Proof. by intros st. Qed.
Lemma calm_pause w : calm (pause E w).
Proof. intros st. unfold pause. by destruct (e_cancelled E _). Qed.
Lemma calm_python {A} (r : result ToolCalls.exn A) : calm (python r).
Proof. intros st. by destruct r. Qed.
Lemma calm_when b c : calm c -> calm (when b c).
Proof. by destruct b. Qed.
Hint Resolve calm_ret calm_get calm_trace calm_clock calm_uuid calm_modify calm_say calm_drift calm_pause calm_python calm_when : calm.

Ltac calm :=
  repeat first
    [ match goal with |- calm (se_bind _ _) => apply calm_bind; [|intros ?] end
    | solve [eauto 2 with calm]
    | apply calm_raise; discriminate
    | match goal with |- calm (when _ _) => apply calm_when end
    | match goal with |- calm (if ?b then _ else _) => destruct b end
    | match goal with |- calm (match ?x with _ => _ end) => destruct x end
    | progress cbv zeta ].

Lemma calm_spawn m : calm (spawn_followup_meta_info E m).
Proof.
  unfold spawn_followup_meta_info, get_updated_meta_info. apply calm_bind; [|intros; calm].
  apply calm_bind; [calm|intros s]. destruct (Interruption.get_next_sequence_id _). calm.
Qed.
Lemma calm_handle n t b m fl fc : calm (handle_llm_output E f n t b m fl fc).
Proof. unfold handle_llm_output, start_time, to_output. calm. Qed.
Lemma calm_store m ms r st t : calm (store_into_history f m ms r st t).
Proof. unfold store_into_history. calm. Qed.
Hint Resolve calm_spawn calm_handle calm_store : calm.
Lemma calm_routing info a : calm (take_routing E f info a).
Proof. unfold take_routing. calm. Qed.
Lemma calm_static t h a : calm (take_static E t h a).
Proof. unfold take_static. calm. Qed.
Lemma calm_text n b c a : calm (take_text E f n b c a).
Proof. unfold take_text. calm. Qed.
Lemma calm_call st c p a : calm (take_call f st c p a).
Proof. unfold take_call. calm. Qed.
Hint Resolve calm_routing calm_static calm_text calm_call : calm.

Lemma calm_consume n b st l e : e <> Fails OutOfFuel -> forall a, calm (consume E f n b st l e a).
Proof.
  intros He. induction l as [|i l IH]; intros a; cbn [consume]; calm; try apply IH.
  apply calm_raise. by intros ->.
Qed.
Lemma calm_receive n b st sm a : last_ sm <> Fails OutOfFuel -> calm (receive E f n b st sm a).
Proof. intros He. unfold receive. pose proof (calm_consume n b st (items sm) (last_ sm) He). calm. Qed.
Lemma calm_finish str_other n b st a : calm (finish str_other E f n b st a).
Proof. unfold finish. calm. Qed.

Lemma calm_get_copy : calm get_copy.
Proof. unfold get_copy. apply calm_bind; [calm|intros s]. destruct (History.get_copy _) as [h [l|[]]]; calm. Qed.
Lemma calm_record c t : calm (record c t).
Proof. unfold record. calm. Qed.
Hint Resolve calm_get_copy calm_record : calm.
Lemma calm_transfer str_other float_repr convert convert_all text_of c :
  calm (transfer_call str_other float_repr convert convert_all text_of E f c).
Proof. unfold transfer_call, execute_transfer_call_webhook, with_calls, to_output. calm. Qed.
Lemma calm_webhook str_other float_repr convert convert_all c : calm (pre_call_webhook str_other float_repr convert convert_all E f c).
Proof. unfold pre_call_webhook. calm. Qed.
Lemma calm_tool str_other float_repr convert convert_all text_of `{UrlGuard.Interpreter} al c row :
  calm (call_tool str_other float_repr convert convert_all text_of E al c row).
Proof. unfold call_tool, close_detail. calm. Qed.
Lemma calm_switch_with_detector l : calm (switch_with_detector E l).
Proof. unfold switch_with_detector, after_playback, wait_for_current_message, switch_to. calm. Qed.
Lemma calm_switch_plain str_other float_repr format_spec c l : calm (switch_plain str_other float_repr format_spec E f c l).
Proof. unfold switch_plain, after_playback, wait_for_current_message, switch_to. calm. Qed.
Lemma calm_drain : calm (drain_pending_chat_forward E f).
Proof.
  unfold drain_pending_chat_forward. calm. generalize (pending_chat_forward a). intros l.
  induction l as [|t l IH]; cbn [forward_each]; [calm|]. unfold forward_browser_text. calm.
Qed.
Lemma calm_completion str_other : calm (check_completion str_other E f).
Proof. unfold check_completion, process_call_hangup. calm. Qed.
End calm.

#[export] Hint Resolve calm_ret calm_get calm_trace calm_clock calm_uuid calm_modify calm_say calm_drift calm_pause calm_python
  calm_when calm_spawn calm_handle calm_store calm_finish calm_get_copy calm_record calm_transfer calm_webhook calm_tool
  calm_switch_with_detector calm_switch_plain calm_drain calm_completion : calm.

(** From the [k]-th request to the model on, its streams call no tool; and they fail
    with errors of their own. *)
Class Settles (E : environment) (k : nat) : Prop := {
  settles_calls tr ms m c : (k <= gens tr)%nat -> Piece c ∈ items (e_generate E tr ms m) -> payload c = None;
  settles_ends tr ms m : last_ (e_generate E tr ms m) <> Fails OutOfFuel }.

Section ends.
Context (str_other : val -> string) (float_repr : Q -> string) (format_spec : val -> string -> option string).
Context (convert : text -> val -> option text) (convert_all : text -> meta -> option text).
Context (format_language : string -> string -> option string).
Context (text_of : ToolCalls.failure -> string) (exn_text : ToolCalls.exn -> string).
Context (E : environment) `{UrlGuard.Interpreter} (allowlisted : list string) (f : config).

Lemma tame_of {A} n (c : M A) : preserves (over_core (asked n)) c -> calm c -> tame n c.
Proof. intros H1 H2. split; [done|]. intros st _. apply H2. Qed.
Lemma tame_bind {A B} n (c : M A) (k : A -> M B) : tame n c -> (forall a, tame n (k a)) -> tame n (se_bind c k).
Proof.
  intros [H1 H2] Hk. split.
  - apply keeps_seq; [done|]. intros a. apply Hk.
  - intros st Hs. unfold se_bind. specialize (H1 st Hs). specialize (H2 st Hs). destruct (c st) as [st' [a|e]]; [by apply Hk|].
    cbn [snd] in *. intros [= ->]. done.
Qed.

(** As [keep] does: only a bind that is written as one. *)
Ltac split_bind := match goal with |- tame _ (se_bind _ _) => apply tame_bind end.

Lemma asked_hides n : forall k tr d w, asked n k tr -> asked n (Core (k_hanging k) (k_in_flight k) d w) tr.
Proof. done. Qed.

Section executed.
Context (n : nat) (generate : list msg -> meta -> string -> bool -> bool -> M (meta * list msg)).
Hypothesis generates : forall ms m s b st, tame n (generate ms m s b st).

(** What does not generate is tame because it is calm and keeps the count. *)
Ltac plain := apply tame_of; [try (keep; fail); keep; apply keeps_modify; intros; unfold merge_context; by repeat case_match|
  unfold wait_for_current_message, process_call_hangup, enter_hangup_state; eauto 3 with calm].

Lemma tame_follow_up m s b st : tame n (follow_up E generate m s b st).
Proof.
  unfold follow_up. split_bind; [plain|intros ms]. split_bind; [plain|intros m'].
  split_bind; [apply generates|intros _; plain].
Qed.
Lemma tame_pause w : tame n (pause E w).
Proof. plain. Qed.
Lemma tame_modify g : (forall s, core_of (g s) = core_of s) -> tame n (modify g).
Proof. intros Hg. apply tame_of; [by apply keeps_modify|apply calm_modify]. Qed.
Lemma tame_ledger g : (forall s, hanging (g s) = hanging s /\ function_call_in_flight (pipe (g s)) = function_call_in_flight (pipe s)) ->
  tame n (modify g).
Proof. intros Hg. apply tame_of; [by apply (keeps_ledger (asked n) (asked_hides n))|apply calm_modify]. Qed.
Lemma tame_record c t : tame n (record c t).
Proof. plain. Qed.
Lemma tame_hangup : tame n (process_call_hangup E).
Proof. apply tame_of; [apply keeps_hangup, _|]. apply calm_bind; intros; auto with calm. Qed.
Lemma tame_enter : tame n (enter_hangup_state E).
Proof. apply tame_of; [apply keeps_enter_hangup, _|]. apply calm_bind; intros; auto with calm. Qed.

Lemma tame_end_call c s : tame n (end_call float_repr E generate c s).
Proof.
  unfold end_call, wait_for_current_message. split_bind; [by apply tame_modify|intros []]. split_bind; [apply tame_record|intros []].
  split_bind.
  - destruct (truthy _); repeat (split_bind; [|intros []]); auto using tame_enter, tame_follow_up, tame_pause.
  - intros []. do 2 (split_bind; [by apply tame_modify|intros []]). apply tame_hangup.
Qed.

Lemma tame_switch c s : tame n (switch_language_tool str_other float_repr format_spec E f generate c s).
Proof.
  unfold switch_language_tool. destruct (get_or _ _ _); try (apply tame_of; [by intros ?|by apply calm_raise]).
  split_bind; [plain|intros cur]. destruct (decide _).
  - repeat (split_bind; [|intros []]); auto using tame_record, tame_follow_up. by apply tame_modify.
  - split_bind.
    + destruct (hanging cur); [plain|]. destruct (switcher f); apply tame_of; auto with calm;
        [apply keeps_switch_with_detector, _|apply keeps_switch_plain, _].
    + intros r. repeat (split_bind; [|intros []]); auto using tame_record, tame_follow_up; by apply tame_modify.
Qed.

Lemma tame_custom c s : tame n (custom_tool str_other float_repr convert convert_all text_of E allowlisted f generate c s).
Proof.
  unfold custom_tool, wait_for_current_message, close_detail. split_bind; [apply tame_pause|intros []]. split_bind; [plain|intros cur].
  destruct (hanging cur); [plain|]. split_bind.
  { apply tame_of; [|auto with calm]. unfold pre_call_webhook. keep; by apply (keeps_ledger (asked n) (asked_hides n)). }
  intros []. split_bind; [plain|intros now]. split_bind; [plain|intros s1]. cbv zeta.
  split_bind; [by apply tame_ledger|intros []]. split_bind.
  { apply tame_of; [|auto with calm]. unfold call_tool, close_detail. keep; by apply (keeps_ledger (asked n) (asked_hides n)). }
  intros a. split_bind.
  { split_bind; [plain|intros now']. by apply tame_ledger. }
  intros []. split_bind.
  { destruct (graph_agent f); [|plain]. apply tame_modify. intros s2. unfold merge_context. by repeat case_match. }
  intros []. split_bind; [plain|intros r]. repeat (split_bind; [|intros []]); auto using tame_record, tame_follow_up;
    by apply tame_modify.
Unshelve. exact E.
Qed.

Lemma tame_execute s c : tame n (execute_function_call str_other float_repr format_spec convert convert_all text_of E allowlisted f generate s c).
Proof.
  unfold execute_function_call. cbv zeta. split_bind; [by apply tame_modify|intros []].
  destruct (startswith _ _); [apply tame_end_call|]. destruct (startswith _ _).
  - apply tame_of; [|auto with calm]. apply (keeps_transfer _ _ _ _ _ _ _ (asked n)), asked_hides.
  - destruct (decide _); [apply tame_switch|apply tame_custom].
Qed.
End executed.

Context (k : nat) `{!Settles E k}.

Lemma consume_settled n b st l e a s s' a' p : (forall c, Piece c ∈ l -> payload c = None) ->
  consume E f n b st l e a s <> (s', Ok (Calls a' p)).
Proof. intros Hl (c & Hc & Hp)%consume_payload. by rewrite (Hl c Hc) in Hp. Qed.

(** A call of a tool is only found in a stream that may have one. *)
Lemma receive_calls tr ms m n b st a s s' a' p :
  receive E f n b st (e_generate E tr ms m) a s = (s', Ok (Calls a' p)) -> (gens tr < k)%nat.
Proof.
  intros (c & Hc & Hp)%receive_payload. destruct (decide (k <= gens tr)%nat) as [Hk|Hk]; [|lia].
  rewrite (settles_calls tr ms m c Hk Hc) in Hp. done.
Qed.

Lemma calm_llm_error {A} (c : M A) st : (c st).2 <> Err OutOfFuel -> (as_llm_error exn_text c st).2 <> Err OutOfFuel.
Proof. unfold as_llm_error. destruct (c st) as [st' [r|[]]]; done. Qed.

Lemma generation_ends execute ms m n b st s tr :
  (forall c n', (S (gens tr) < k)%nat -> tame (S (gens tr)) (execute n' c)) ->
  (generation str_other format_language exn_text E f execute ms m n b st (s, tr)).2 <> Err OutOfFuel.
Proof.
  intros He. unfold generation, se_bind at 1. cbn [get fst]. destruct (hanging s); [by apply calm_bind; auto with calm|].
  set (ms' := inject_language_instruction _ _ _). set (m' := dset _ _ _). clearbody ms' m'.
  unfold se_bind at 1, say at 1. cbn [fst snd]. set (tr' := (tr ++ [EReset]) ++ [EGenerate ms' m']).
  assert (Hg : gens tr' = S (gens tr)) by (unfold tr'; rewrite !gens_app; cbn; lia).
  unfold se_bind at 1. match goal with |- context [as_llm_error exn_text ?c ?st] =>
    pose proof (calm_llm_error c st) as Hc; destruct (as_llm_error exn_text c st) as [st' [r|e]] end.
  { destruct r; [by apply calm_finish|done]. }
  intros [= ->]. apply Hc; [clear Hc|done]. unfold se_bind at 1, say at 1. cbn [fst snd]. fold tr'. unfold se_bind at 1. cbn [trace_of fst snd].
  unfold se_bind at 1. pose proof (calm_receive E f n b st (e_generate E tr' ms' m')
    (Gathered m' ms' "" (Some "") (Some (ToolCalls.Text "")) no_tokens None) (settles_ends tr' ms' m') (s, tr')) as Hcalm.
  pose proof (keeps_receive E f (asked (S (gens tr))) n b st (e_generate E tr' ms' m')
    (Gathered m' ms' "" (Some "") (Some (ToolCalls.Text "")) no_tokens None) (s, tr')) as Hkeep.
  destruct (receive _ _ _ _ _ _ _ _) as [st1 [[a|a|a p]|e]] eqn:Hr; [done|done| |].
  - apply receive_calls in Hr. rewrite Hg in Hr. assert (Hst : over_core (asked (S (gens tr))) st1).
    { apply Hkeep. unfold over_core, asked. cbn [snd]. lia. }
    clear Hkeep Hcalm. apply (tame_bind (S (gens tr))); [|by intros []; apply tame_of; [by apply keeps_ret|apply calm_ret]|done].
    assert (Ht : tame (S (gens tr)) (c <- python (arguments p) ;; execute n c)).
    { apply tame_bind; [apply tame_of; [apply (keeps_python (asked (S (gens tr))))|apply calm_python]|]. intros c. by apply He. }
    destruct Ht as [H1 H2]. split.
    + exact (keeps_finally E _ _ _ H1).
    + intros st2 Hst2. specialize (H2 st2 Hst2). unfold finally. by destruct (se_bind _ _ st2) as [st3 r].
  - intros [= ->]. by apply Hcalm.
Qed.

Lemma turn_ends fuel ms m n b st s tr : (0 < fuel)%nat -> (k <= fuel + gens tr)%nat ->
  (do_llm_generation str_other float_repr format_spec convert convert_all format_language text_of exn_text E allowlisted f
     fuel ms m n b st (s, tr)).2 <> Err OutOfFuel.
Proof.
  revert ms m n b st s tr. induction fuel as [|fuel IH]; intros ms m n b st s tr H0 Hk; [lia|]. cbn [do_llm_generation].
  apply generation_ends. intros c n' Hd. apply tame_execute. intros ms1 m1 n1 b1 st1. split.
  - apply keeps_turn; apply _ || apply asked_hides.
  - intros [s1 t1] Hs. unfold over_core, asked in Hs. cbn [snd] in Hs. apply IH; lia.
Qed.

(** C25: A turn comes to its end: when the model stops calling tools after it was asked [k]
    times, as much fuel as that is enough, whatever else happens in between. *)
Theorem turns_end fuel message n m s tr : (k < fuel)%nat ->
  ~ runs_dry (process_conversation_task str_other float_repr format_spec convert convert_all format_language text_of exn_text E allowlisted f
     fuel message n m) (s, tr).
Proof.
  intros Hk. unfold runs_dry, process_conversation_task. cbv zeta.
  apply calm_bind; [apply calm_clock|intros now]. apply calm_bind; [apply calm_modify|intros []].
  apply calm_bind; [apply calm_when, calm_modify|intros []]. apply calm_bind; [apply calm_get_copy|intros ms].
  apply calm_bind; [|intros r; apply calm_bind; [apply calm_drain|intros []]; apply calm_bind; [apply calm_modify|intros []];
    apply calm_completion].
  intros [s1 t1]. unfold on_cancel.
  match goal with |- context [match ?c (s1, t1) with _ => _ end] => assert (Hc : calm c) end.
  { apply calm_bind; [intros [s2 t2]; apply turn_ends; lia|intros r].
    apply calm_bind; [apply calm_when, calm_bind; [apply calm_say|intros []; apply calm_pause]|intros []; apply calm_ret]. }
  specialize (Hc (s1, t1)). by destruct (se_bind _ _ (s1, t1)) as [st' [r|[]]].
Qed.
End ends.

(** ** A plain answer *)
(** A chunk that is text only. *)
Definition plain (c : chunk) : Prop := payload c = None /\ function_name c = None /\ function_message c = None.

Definition said (before : string) (l : list chunk) : string := foldl (fun r c => r +:+ " " +:+ data c) before l.

(** What reaches the synthesizer of a text once the stream has [ended], or before. *)
Definition cut (ended : bool) (text : string) : string :=
  process_stop_words text (if ended then [("end_of_llm_stream", VBool true)] else []).
Fixpoint heard (ended : bool) (l : list chunk) : list string :=
  match l with
  | [] => []
  | c :: l' => let ended := end_of_stream c || ended in
               let t := cut ended (data c) in
               (if str_blank t then [] else [t]) ++ heard ended l'
  end.

(** The texts that were sent to be spoken. *)
Definition to_speak (e : event) : option string :=
  match e with ESynth t _ => if str_blank t then None else Some t | _ => None end.
Definition spoken_texts (tr : trace) : list string := omap to_speak tr.

Definition same_but (ks : list string) (m m' : meta) : Prop := forall k, k ∉ ks -> dget k m' = dget k m.
Definition TOUCHED : list string := ["request_id"; "end_of_llm_stream"; "detected_language"].
Definition ended (m : meta) : bool := truthy (mget "end_of_llm_stream" m).

Lemma same_but_refl ks m : same_but ks m m.
Proof. by intros k. Qed.
Lemma same_but_trans ks m1 m2 m3 : same_but ks m1 m2 -> same_but ks m2 m3 -> same_but ks m1 m3.
Proof. intros H1 H2 k Hk. by rewrite H2, H1. Qed.
Lemma same_but_dset ks k v m : k ∈ ks -> same_but ks m (dset k v m).
Proof. intros Hk k' Hk'. apply dget_dset_ne. by intros ->. Qed.
Lemma cut_process t m : process_stop_words t m = cut (ended m) t.
Proof. unfold cut, process_stop_words, ended. by destruct (truthy (mget "end_of_llm_stream" m)). Qed.

Section reply.
Context (str_other : val -> string) (float_repr : Q -> string) (format_spec : val -> string -> option string).
Context (convert : text -> val -> option text) (convert_all : text -> meta -> option text).
Context (format_language : string -> string -> option string).
Context (text_of : ToolCalls.failure -> string) (exn_text : ToolCalls.exn -> string).
Context (E : environment) `{UrlGuard.Interpreter} (allowlisted : list string) (f : config).
Hypothesis streams : stream f = true.

(** What passes between two moments of a turn that touch no history: it speaks [l]. *)
Definition speaks (l : list string) (st st' : session * trace) : Prop :=
  hist st'.1 = hist st.1 /\ spoken_texts st'.2 = spoken_texts st.2 ++ l.

Lemma speaks_trans l1 l2 st1 st2 st3 : speaks l1 st1 st2 -> speaks l2 st2 st3 -> speaks (l1 ++ l2) st1 st3.
Proof. intros [H1 H2] [H3 H4]. split; [by rewrite H3|]. by rewrite H4, H2, app_assoc. Qed.
Lemma speaks_event s s' tr e : hist s' = hist s -> speaks (option_list (to_speak e)) (s, tr) (s', tr ++ [e]).
Proof.
  intros Hs. split; [done|]. unfold spoken_texts. cbn [snd]. rewrite omap_app. cbn. by destruct (to_speak e).
Qed.

Lemma handle_plain t m st : exists st' m', handle_llm_output E f "synthesizer" t false m false false st = (st', Ok m') /\
  same_but ["request_id"] m m' /\ speaks (if str_blank t then [] else [t]) st st'.
Proof.
  unfold handle_llm_output. rewrite streams. destruct st as [s tr].
  unfold se_bind at 1. match goal with |- context [match ?c with (_, _) => _ end] =>
    assert (Hid : exists tr' m', c = ((s, tr'), Ok m') /\ same_but ["request_id"] m m' /\ speaks [] (s, tr) (s, tr')) end.
  { destruct (dhas "request_id" m).
    - exists tr, m. split_and!; [done|apply same_but_refl|]. split; [done|]. by rewrite app_nil_r.
    - eexists _, _. split_and!; [reflexivity|apply same_but_dset; by left|]. apply (speaks_event s s tr (EUuid _)). done. }
  destruct Hid as (tr' & m' & Hid & Hm & Hsp). rewrite Hid. clear Hid. unfold se_bind at 1. cbn [negb andb ret se_ret].
  rewrite bool_decide_true by done. cbn [andb negb]. unfold se_bind at 1. cbn [get fst].
  destruct (str_blank t) eqn:Hb; cbn [negb].
  - destruct (truthy (mget "end_of_llm_stream" m') && _) eqn:Hc; eexists _, m'; (split; [reflexivity|split; [done|]]).
    + eapply (speaks_trans [] []); [exact Hsp|]. apply (speaks_event s s tr' (ESynth "" m')). done.
    + exact Hsp.
  - eexists _, m'. split; [reflexivity|split; [done|]].
    eapply (speaks_trans [] [t]); [exact Hsp|]. pose proof (speaks_event s (set_flushed false s) tr' (ESynth t m') eq_refl) as Hs.
    unfold to_speak in Hs. rewrite Hb in Hs. exact Hs.
Qed.

Lemma take_text_plain ch a st : a_tool a = None -> exists st' a', take_text E f "synthesizer" false ch a st = (st', Ok a') /\
  a_response a' = a_response a +:+ " " +:+ data ch /\ a_messages a' = a_messages a /\ a_tool a' = None /\
  a_tool_message a' = a_tool_message a /\ same_but TOUCHED (a_meta a) (a_meta a') /\
  ended (a_meta a') = end_of_stream ch || ended (a_meta a) /\
  speaks (let t := cut (end_of_stream ch || ended (a_meta a)) (data ch) in if str_blank t then [] else [t]) st st'.
Proof.
  intros Ha. unfold take_text. rewrite streams. destruct st as [s tr].
  unfold se_bind at 1. match goal with |- context [match ?c with (_, _) => _ end] =>
    assert (Hl : exists s', c = ((s', tr), Ok tt) /\ hist s' = hist s) by (destruct (latency ch); by eexists) end.
  destruct Hl as (s' & Hl & Hh). rewrite Hl. clear Hl.
  unfold se_bind at 1. cbn [get fst a_meta a_tool]. unfold filled at 1. rewrite Ha. cbn [andb].
  unfold se_bind at 1. cbn [ret se_ret a_meta a_response a_messages a_tool a_tool_message a_tokens a_silence].
  set (m := if end_of_stream ch then dset "end_of_llm_stream" (VBool true) (a_meta a) else a_meta a).
  assert (Hm : ended m = end_of_stream ch || ended (a_meta a)).
  { unfold m, ended, mget, get_or. destruct (end_of_stream ch); [|done]. by rewrite dget_dset_eq. }
  rewrite cut_process, Hm. set (t := cut _ _). destruct (handle_plain t m (s', tr)) as (st' & m' & He & Hk & Hsp).
  unfold se_bind at 1. rewrite He. eexists st', _. split; [reflexivity|]. cbn [a_response a_messages a_tool a_tool_message a_meta with_meta].
  split_and!; try done.
  - assert (H1 : same_but TOUCHED (a_meta a) m).
    { unfold m. destruct (end_of_stream ch); [|apply same_but_refl]. apply same_but_dset. right. by left. }
    eapply same_but_trans; [exact H1|]. intros k Hn. apply Hk. intros ->%list_elem_of_singleton. apply Hn. by left.
  - rewrite <- Hm. unfold ended, mget, get_or. rewrite Hk; [done|]. by intros ?%list_elem_of_singleton.
  - destruct Hsp as [H1 H2]. split; [by rewrite H1|done].
Qed.

Lemma pause_speaks w st st' r : pause E w st = (st', r) -> speaks [] st st'.
Proof.
  destruct st as [s tr]. unfold pause. intros [= <- _]. apply (speaks_event s _ tr (EWait w)). done.
Qed.

Lemma consume_plain l : Forall plain l -> forall a st st' r, consume E f "synthesizer" false false (map Piece l) Finished a st = (st', Ok r) ->
  exists a', r = Exhausted a' /\ a_response a' = said (a_response a) l /\ a_messages a' = a_messages a /\
    same_but TOUCHED (a_meta a) (a_meta a') /\ speaks (heard (ended (a_meta a)) l) st st' /\
    (l <> [] \/ a_tool a = None /\ a_tool_message a = None -> a_tool a' = None /\ a_tool_message a' = None).
Proof.
  induction 1 as [|c l (Hp & Hn & Hg) _ IH]; intros a st st' r; cbn [map consume]; unfold se_bind at 1;
    destruct (pause E WChunk st) as [st1 [[]|]] eqn:Hw; try discriminate; apply pause_speaks in Hw.
  - intros [= <- <-]. exists a. split_and!; [done..|apply same_but_refl|done|by intros [?|?]].
  - rewrite Hp. set (a1 := Gathered _ _ _ _ _ _ _). destruct (take_text_plain c a1 st1) as
      (st2 & a2 & He & Hr & Hms & Ht & Htm & Hm & Hen & Hsp); [done|]. unfold se_bind. rewrite He. intros Hc.
    apply IH in Hc as (a' & -> & Hr' & Hms' & Hm' & Hsp' & Hl). exists a'. split_and!; [done|..].
    + rewrite Hr', Hr. done.
    + by rewrite Hms', Hms.
    + eapply same_but_trans; [exact Hm|done].
    + cbn [heard]. cbv zeta. rewrite Hen in Hsp'. eapply (speaks_trans []); [exact Hw|].
      eapply speaks_trans; [exact Hsp|exact Hsp'].
    + intros _. apply Hl. right. split; [done|]. by rewrite Htm.
Qed.

Lemma said_grows before l : exists rest, said before l = before +:+ rest.
Proof.
  revert before. induction l as [|c l IH]; intros b; cbn [said foldl].
  - exists "". apply chars_inj. rewrite chars_app. by rewrite app_nil_r.
  - destruct (IH (b +:+ " " +:+ data c)) as [r Hr]. exists ((" " +:+ data c) +:+ r). unfold said in Hr. rewrite Hr.
    apply chars_inj. by rewrite !chars_app, !app_assoc.
Qed.

(** The filler for a chunk without a tool is not what the model says: that begins
    with a blank. *)
Lemma said_no_filler l s a : l <> [] -> a_tool a = None -> a_tool_message a = None -> Some (said "" l) <> filler_for a s.
Proof.
  intros Hl Ht Hm. unfold filler_for. rewrite Ht, Hm. cbn [ToolCalls.compute_function_pre_call_message ToolCalls.given default].
  destruct l as [|c l]; [done|]. unfold said. cbn [foldl]. destruct (said_grows ("" +:+ " " +:+ data c) l) as [r Hr].
  unfold said in Hr. rewrite Hr. unfold ToolCalls.select_message_by_language, ToolCalls.PRE_FUNCTION_CALL_MESSAGE. cbn [dget default].
  intros [= Hf]. revert Hf. repeat case_match; simplify_eq; discriminate.
Qed.

Lemma commit_hist m ms c s s' : hist s' = hist s -> hist (commit_text m ms c s') = hist (commit_text m ms c s).
Proof. intros Hh. unfold commit_text, sync_interim, set_history, history_of, stage, set_hist. cbn [hist]. by rewrite Hh. Qed.

Lemma after_hist r m b s : hist (collect_rag m ((if b : bool then clear_pipe else fun s => s) (response_text r s))) = hist s.
Proof. unfold collect_rag, response_text. destruct b; by repeat case_match. Qed.

Lemma finish_plain a st : (forall s, Some (a_response a) <> filler_for a s) ->
  exists st' m, finish str_other E f "synthesizer" false false a st =
    (st', Ok (m, a_messages a ++ [assistant_row (a_meta a) (a_response a)])) /\ m = a_meta a /\
    hist st'.1 = hist (commit_text (a_meta a) (a_messages a) (a_response a) st.1) /\
    spoken_texts st'.2 = spoken_texts st.2.
Proof.
  intros Hf. unfold finish. rewrite streams. destruct st as [s tr].
  unfold se_bind at 1. cbn [get fst]. unfold se_bind at 1.
  match goal with |- context [match ?c with (_, _) => _ end] => assert (Hw : exists s', c = ((s', tr), Ok tt) /\ hist s' = hist s) end.
  { unfold when. destruct (forwards _ _ _ _); [|by eexists]. eexists. split; [reflexivity|]. unfold stage_forward. by repeat case_match. }
  destruct Hw as (s' & Hw & Hh). rewrite Hw. clear Hw.
  rewrite bool_decide_false by done. unfold se_bind at 1.
  match goal with |- context [match ?c with (_, _) => _ end] => assert (Hw : exists s2 tr2, c =
    ((s2, tr2), Ok (a_meta a, a_messages a ++ [assistant_row (a_meta a) (a_response a)], a_response a)) /\
    hist s2 = hist (commit_text (a_meta a) (a_messages a) (a_response a) s) /\ spoken_texts tr2 = spoken_texts tr) end.
  { unfold store_into_history, when, se_bind. destruct (first_task f && _ && _).
    - eexists _, _. split_and!; [reflexivity| |].
      + by apply commit_hist.
      + pose proof (speaks_event s s tr (EUsage (t_overflowed (a_tokens a)) (t_input (a_tokens a)) (t_output (a_tokens a))
          (t_cached (a_tokens a))) eq_refl) as [_ H2]. cbn [snd to_speak option_list] in H2. by rewrite app_nil_r in H2.
    - eexists _, _. split_and!; [reflexivity| |done].
      by apply commit_hist. }
  destruct Hw as (s2 & tr2 & Hw & H1 & H2). rewrite Hw. clear Hw.
  destruct (empty_turn_detail str_other a); eexists _, _; (split; [reflexivity|split; [done|split; [|exact H2]]]); rewrite <- H1.
  - apply (after_hist _ _ true).
  - apply (after_hist _ _ false).
Qed.

(** C24: A plain answer of the model to a turn that streams to the synthesizer (one or more
    chunks of text alone, the synthesizer not bypassed, no follow-up of a tool, nobody hanging up
    when it starts), received to its end, is heard and remembered: the texts that go to
    the synthesizer are those of its chunks in their order, blank ones left out and,
    from the chunk that ends the stream on, a trailing speaker label cut off; the reply
    is the list of messages the model was asked with (the caller's, with the language
    instruction put in) and one row more; that row, under the identity of the turn, is
    the concatenation of the chunks, and it is what is staged for the history until its
    audio was sent. *)
Theorem reply_spoken_and_staged fuel ms m s tr l st' r :
  dwf m -> l <> [] -> Forall plain l -> hanging s = false ->
  (forall tr' ms' m', e_generate E tr' ms' m' = Stream true (map Piece l) Finished) ->
  do_llm_generation str_other float_repr format_spec convert convert_all format_language text_of exn_text E allowlisted f
    fuel ms m "synthesizer" false false (s, tr) = (st', Ok r) ->
  spoken_texts st'.2 = spoken_texts tr ++ heard false l /\
  r.2 = inject_language_instruction format_language f ms ++ [assistant_row r.1 (said "" l)] /\
  same_but TOUCHED m r.1 /\
  hist st'.1 = hist (commit_text r.1 (inject_language_instruction format_language f ms) (said "" l) s).
Proof.
  intros Hwf Hne Hl Hh Hgen. destruct fuel as [|fuel]; [done|]. cbn [do_llm_generation]. unfold generation, se_bind at 1. cbn [get fst].
  rewrite Hh. set (ms' := inject_language_instruction _ _ _). set (m' := dset "detected_language" _ _).
  assert (Hm' : same_but TOUCHED m m' /\ ended m' = false).
  { unfold m', ended, mget, get_or. rewrite dget_dset_ne by done. split.
    - intros k Hk. rewrite dget_dset_ne by (intros ->; apply Hk; set_solver). apply dget_ddel_ne. intros ->. apply Hk. set_solver.
    - by rewrite dget_ddel_eq. }
  destruct Hm' as [Hm' He']. clearbody m'. unfold se_bind at 1, say at 1. unfold se_bind at 1. cbn [fst snd].
  unfold as_llm_error, se_bind at 1, say at 1. cbn [fst snd]. unfold se_bind at 1. cbn [trace_of fst snd]. unfold se_bind at 1.
  rewrite Hgen. unfold receive. cbn [prompt items last_]. set (tr' := (tr ++ [EReset]) ++ [EGenerate ms' m']).
  assert (Htr : spoken_texts tr' = spoken_texts tr).
  { unfold tr', spoken_texts. rewrite !omap_app. cbn. by rewrite !app_nil_r. }
  destruct (consume _ _ _ _ _ _ _ _ _) as [[s1 t1] [r1|e]] eqn:Hc; [|by destruct e].
  apply consume_plain in Hc as (a & -> & Hr & Hms & Hm & [Hs1 Ht1] & Htool); [|done].
  cbn [a_response a_messages a_meta fst snd] in *. destruct Htool as [Hn1 Hn2]; [by left|]. cbn [ret se_ret].
  destruct (finish_plain a (s1, t1)) as (st2 & m2 & Hf & -> & Hh2 & Hs2).
  { intros s2. rewrite Hr. by apply said_no_filler. }
  rewrite Hf. intros [= <- <-]. cbn [fst snd] in *. split_and!.
  - by rewrite Hs2, Ht1, Htr, He'.
  - by rewrite Hms, Hr.
  - eapply same_but_trans; [exact Hm'|exact Hm].
  - rewrite Hh2, Hms, Hr. by apply commit_hist.
Qed.
End reply.

Module Example.
Notation str_other := ToolCalls.Example.str_other.
Notation float_repr := ToolCalls.Example.float_repr.
Notation convert := ToolCalls.Example.convert.
Notation convert_all := ToolCalls.Example.convert_all.
Notation text_of := ToolCalls.Example.text_of.

(** ** A call *)
Definition said_hangup (tr : trace) : bool := existsb (fun e => match e with EHangup => true | _ => false end) tr.
Definition move (tr : trace) (o : outside) : outside :=
  Outside (language o) (said_hangup tr || hangup_triggered o) (conversation_ended o) (turn_audio_flushed o).

(** The model's answers by their number, from one on; the tools answer [body]. *)
Definition world (body : string) (answers : nat -> model_stream) : environment :=
  Environment move (fun _ => false) (fun _ => 0%Q) (fun _ => "u") (fun tr _ _ => answers (gens tr)) (fun _ => None)
    (fun _ => ToolCalls.Environment (fun _ _ _ => UrlGuard.Addresses [chars "93.184.216.34"])
                (fun _ _ => Ok (ToolCalls.Response 200 body (Some "application/json"))))
    (fun _ _ => None) (fun _ => Some (Ok (ToolCalls.Response 200 "ok" None))) (fun _ => VDict []) (fun _ => true).

Instance world_monotone body answers : Monotone (world body answers).
Proof.
  split; cbn [world e_meanwhile]; unfold hung, move; cbn [hangup_triggered conversation_ended].
  - intros tr o [->| ->]%orb_true_iff; [by rewrite orb_true_r|by rewrite orb_true_r].
  - intros tr o Hi. assert (said_hangup tr = true) as ->; [|done].
    unfold said_hangup. apply existsb_exists. exists EHangup. split; [by apply list_elem_of_In|done].
Qed.

Definition speech (t : string) (last : bool) : chunk :=
  Chunk t None last None None None VNone VNone VNone VNone false VNone.
Definition talk (l : list string) : model_stream := Stream true (Piece <$> (map (fun t => speech t false) l ++ [speech "" true])) Finished.
Definition wanting (p : meta) (d : option meta) : model_stream :=
  Stream true [Piece (Chunk "" (Some p) false d (Some "tool") None VNone VNone VNone VNone false VNone)] Finished.

(** The payload of a call of the model, with its arguments. *)
Definition asking (name : string) (args : meta) : meta :=
  dupdate [("url", VStr "https://crm.example/leads"); ("method", VStr "post"); ("param", VNone); ("api_token", VNone);
           ("headers", VNone); ("model_args", VDict []); ("meta_info", VDict [("turn_id", VInt 2)]); ("called_fun", VStr name);
           ("model_response", VList [VDict [("id", VStr "c1")]]); ("tool_call_id", VStr "c1"); ("textual_response", VNone);
           ("resp", VNone)] args.

(** One tool, then a farewell. *)
Definition then_talk (p : meta) (d : option meta) (n : nat) : model_stream :=
  match n with 1%nat => wanting p d | _ => talk ["Bye,"; "Ada."] end.

Definition line : config :=
  Config true false false false true true false false false true false false true false false VNone VNone [] [] "" "" ""
    Transfer.Example.line.
Definition start : session :=
  Session (Outside "en" false false true) (Pipeline false false false false true) HistorySync.fresh_session Interruption.one_response
    (Transfer.Session false Transfer.Example.none true [] [] [] []) None None None [] [] VNone VNone [] 2 true [] [] [].

Notation turn E f := (process_conversation_task str_other float_repr (fun _ _ => None) convert convert_all (fun _ _ => None) text_of
  (fun _ => "failed") E [] f).
Notation generates E f := (do_llm_generation str_other float_repr (fun _ _ => None) convert convert_all (fun _ _ => None) text_of
  (fun _ => "failed") E [] f).

Definition farewell : environment := world "{}" (then_talk (asking "end_call" []) None).
Definition leads (args : meta) : environment := world "{}" (then_talk (asking "create_lead" args) None).

(** A world whose other tasks hang up while a tool is called. *)
Definition in_tool (tr : trace) : bool := existsb (fun e => match e with EWait WTool => true | _ => false end) tr.
Definition caller_leaves : environment :=
  let w := world "{}" (then_talk (asking "create_lead" [("name", VStr "Ada")]) None) in
  Environment (fun tr o => move tr (Outside (language o) (in_tool tr || hangup_triggered o) (conversation_ended o) (turn_audio_flushed o)))
    (e_cancelled w) (e_clock w) (e_uuid w) (e_generate w) (e_node w) (e_tools w) (e_switch w) (e_post w) (e_completion w) (e_forwarded w).

Instance caller_leaves_monotone : Monotone caller_leaves.
Proof.
  split; cbn [caller_leaves e_meanwhile]; unfold hung, move; cbn [hangup_triggered conversation_ended].
  - intros tr o [->| ->]%orb_true_iff; [by rewrite !orb_true_r|by rewrite orb_true_r].
  - intros tr o Hi. assert (said_hangup tr = true) as ->; [|done].
    unfold said_hangup. apply existsb_exists. exists EHangup. split; [by apply list_elem_of_In|done].
Qed.

(** The other tasks hang up during the tool call, so its result is not answered. *)


(** The payloads of these streams. *)
Lemma then_talk_payload p d n c x : Piece c ∈ items (then_talk p d n) -> payload c = Some x -> x = p.
Proof.
  assert (Ht : Piece c ∈ items (talk ["Bye,"; "Ada."]) -> payload c = Some x -> x = p).
  { intros (c' & [= ->] & Hc)%list_elem_of_fmap. repeat (apply elem_of_cons in Hc as [->|Hc]; [done|]). by apply elem_of_nil in Hc. }
  destruct n as [|[|n]]; [exact Ht| |exact Ht]. intros [= ->]%list_elem_of_singleton. cbn. by intros [= ->].
Qed.

Lemma in_flight_released_witness :
  function_call_in_flight (pipe (generates farewell line 3 [] [] "synthesizer" false false (start, [])).1.1) = false.
Proof.
  apply (in_flight_released str_other float_repr (fun _ _ => None) convert convert_all (fun _ _ => None) text_of (fun _ => "failed")
    farewell [] line 3 [] [] "synthesizer" false false start []); [|reflexivity].
  intros tr ms m c p Hc Hp. rewrite (then_talk_payload _ _ _ _ _ Hc Hp). vm_compute. reflexivity.
Defined.

Lemma requests_accounted_witness :
  length (details (generates (leads []) line 3 [] [] "synthesizer" false false (start, [])).1.1) = 1%nat /\
  forall i d, details (generates (leads []) line 3 [] [] "synthesizer" false false (start, [])).1.1 !! i = Some d ->
    Transfer.closed d \/
    i ∈ map Webhooks.w_row (Transfer.webhooks (calls (generates (leads []) line 3 [] [] "synthesizer" false false (start, [])).1.1)).
Proof.
  split; [vm_compute; reflexivity|].
  apply (requests_accounted str_other float_repr (fun _ _ => None) convert convert_all (fun _ _ => None) text_of (fun _ => "failed")
    (leads []) [] line 3 [] [] "synthesizer" false false start []).
  - intros tr ms m c p x Hc Hp Ha. rewrite (then_talk_payload _ _ _ _ _ Hc Hp) in Ha.
    vm_compute in Ha. injection Ha as <-. split; [by eexists|vm_compute; reflexivity].
  - intros i d Hd. discriminate Hd.
Defined.

Instance farewell_settles : Settles farewell 2.
Proof.
  split; [|by intros tr ms m; cbn; destruct (gens tr) as [|[|n]]].
  intros tr ms m c Hg Hc. cbn [farewell world e_generate] in Hc. destruct (gens tr) as [|[|n]]; [lia..|].
  destruct (payload c) as [x|] eqn:Hp; [|done]. exfalso. cbn [then_talk] in Hc.
  apply list_elem_of_fmap in Hc as (c' & [= ->] & Hc).
  repeat (apply elem_of_cons in Hc as [->|Hc]; [done|]). by apply elem_of_nil in Hc.
Qed.

Lemma turns_end_witness : (2 < 3)%nat /\ ~ runs_dry (turn farewell line 3 "hi" "synthesizer" []) (start, []).
Proof.
  split; [lia|]. apply (turns_end str_other float_repr (fun _ _ => None) convert convert_all (fun _ _ => None) text_of (fun _ => "failed")
    farewell [] line 2). lia.
Defined.

(** The chunk that ends the stream closes with a speaker label. *)
Definition hello : list chunk := [speech "Hello" false; speech " " false; speech "Ada. user" true].
Definition greeting : environment := world "{}" (fun _ => Stream true (map Piece hello) Finished).

Lemma reply_spoken_and_staged_witness :
  exists r, (generates greeting line 1 [] [] "synthesizer" false false (start, [])).2 = Ok r /\
    spoken_texts (generates greeting line 1 [] [] "synthesizer" false false (start, [])).1.2 = ["Hello"; "Ada. "].
Proof.
  destruct (generates greeting line 1 [] [] "synthesizer" false false (start, [])) as [st' r] eqn:Hr.
  destruct r as [r|e]; [|vm_compute in Hr; discriminate Hr].
  exists r. split; [reflexivity|].
  destruct (reply_spoken_and_staged str_other float_repr (fun _ _ => None) convert convert_all (fun _ _ => None) text_of
    (fun _ => "failed") greeting [] line eq_refl 1 [] [] start [] hello st' r) as (Hs & _).
  - constructor.
  - discriminate.
  - repeat constructor.
  - reflexivity.
  - reflexivity.
  - exact Hr.
  - cbn [fst]. etrans; [exact Hs|]. vm_compute. reflexivity.
Defined.

(** ** What modelling showed *)
(** An argument of the model that is called [textual_response] and is no text makes
    the turn fail after the flag went up and before anything would lower it. *)
Definition stuck : environment := world "{}" (then_talk (asking "create_lead" [("textual_response", VInt 5)]) (Some [])).
Lemma flag_stays_up : let st' := generates stuck line 3 [] [] "synthesizer" false false (start, []) in
  st'.2 = Err (LLMError "failed") /\ function_call_in_flight (pipe st'.1.1) = true.
Proof. split; vm_compute; reflexivity. Qed.

(** An argument called [run_id] makes the request raise behind its row, which is open
    for good. *)
Lemma row_stays_open : let st' := generates (leads [("run_id", VStr "7")]) line 3 [] [] "synthesizer" false false (start, []) in
  st'.2 = Err (LLMError "failed") /\ map Webhooks.state (details st'.1.1) = [Webhooks.Pending] /\
  Transfer.webhooks (calls st'.1.1) = [].
Proof. split_and!; vm_compute; reflexivity. Qed.

(** An answer that is no object makes a booking tool raise; so does a number for the
    slots. *)
Lemma answers_raise :
  told "book_appointment" "[1]" = Err ToolCalls.TypeError /\
  told "check_availability_of_slots" (ToolCalls.Example.q "{'slots': 3}") = Err ToolCalls.TypeError.
Proof. split; vm_compute; reflexivity. Qed.

(** What is asked to be told without tools may call one: the farewell of a call that
    ends calls [create_lead]. *)
Definition twice (n : nat) : model_stream :=
  match n with 1%nat => wanting (asking "end_call" []) None | 2%nat => wanting (asking "create_lead" []) None | _ => talk ["Bye."] end.
Lemma farewell_calls_tool : let st' := generates (world "{}" twice) line 4 [] [] "synthesizer" false false (start, []) in
  map Webhooks.tool_name (details st'.1.1) = ["create_lead"].
Proof. vm_compute. reflexivity. Qed.
End Example.
End TurnRuns.
