(* ===== verification/OAuth.v ===== *)
(** * The OAuth login (src/voiceai/modules/tools: oauth_service.py, dcr_service.py)

    [OAuthService]: the URL a login starts with, the callback that exchanges the code
    and seals the tokens, and the refresh of a credential. The redis entries of the
    handshakes, the vault of Integrations and a log of what was minted, posted and
    saved are the state; calls are threads that move from one await to the next while
    other requests change the vault. [DcrService]: discovery and registration. SHA-256,
    AES-GCM, random tokens, name resolution and the HTTP servers are arguments. *)
From S2P Require Import Prelude PyText PyVal Repository Scoped ToolExec Integrations Vault Json UrlGuard ToolCalls Webhooks.
From Stdlib Require Import QArith.QArith.
Close Scope Q_scope.
Open Scope Z_scope.
Open Scope voice_scope.

Module OAuth.
Notation scope := Integrations.OwnerScope.
Notation credential := Integrations.PartnerCredential.
Notation vault := Integrations.vault.
Notation error := Integrations.error.
Notation material := (dict string val).
Notation get_or := Webhooks.get_or.
#[local] Existing Instance Integrations.credential_model.

(** ** Constants and texts *)
Definition STATE_KEY_PREFIX : string := "oauth:state:".
Definition STATE_TTL_S : Z := 600.
Definition CALLBACK_PATH : string := "/api/v1/oauth/callback".
Definition POSTMESSAGE_TYPE : string := "oauth:connected".

Definition state_key (state : string) : string := STATE_KEY_PREFIX +:+ state.

(** [s.rstrip("/")] *)
Fixpoint lstrip_slash (l : text) : text :=
  match l with c :: l' => if bool_decide (c = "/"%char) then lstrip_slash l' else l | [] => [] end.
Definition rstrip_slash (s : string) : string := of_chars (reverse (lstrip_slash (reverse (chars s)))).

Definition callback_url (public_base_url : string) : string := rstrip_slash public_base_url +:+ CALLBACK_PATH.

(** Base64 for URLs, without padding. *)
Definition url_char (c : ascii) : ascii :=
  if bool_decide (c = "+"%char) then "-"%char else if bool_decide (c = "/"%char) then "_"%char else c.
Definition b64url (raw : list N) : string :=
  of_chars (map url_char (List.filter (fun c => negb (bool_decide (c = "="%char))) (ToolExec.b64encode raw))).

(** [urllib.parse.urlencode] *)
Definition quote_plus_byte (n : nat) : text := if (n =? 32)%nat then ["+"%char] else ToolCalls.quote_byte n.
Definition quote_plus (s : string) : text := concat (map quote_plus_byte (concat (map ToolCalls.utf8_char (chars s)))).
Definition urlencode (query : list (string * string)) : string :=
  of_chars (ToolCalls.join_text ["&"%char] (map (fun kv => quote_plus kv.1 ++ ["="%char] ++ quote_plus kv.2) query)).

(** [html.escape] *)
Definition html_char (c : ascii) : text :=
  if bool_decide (c = "&"%char) then chars "&amp;"
  else if bool_decide (c = "<"%char) then chars "&lt;"
  else if bool_decide (c = ">"%char) then chars "&gt;"
  else if bool_decide (c = Stdlib.Strings.Ascii.ascii_of_nat 34) then chars "&quot;"
  else if bool_decide (c = "'"%char) then chars "&#x27;"
  else [c].
Definition html_escape (s : string) : string := of_chars (concat (map html_char (chars s))).

(** ** The state *)
(** What a login is asked for. *)
Record login := Login {
  q_tenant : string;
  q_provider : string;
  q_scope : scope;
  q_binding : option string;
  q_authorization : option string;
  q_token : option string;
  q_client_id : option string;
  q_client_secret : option string;
  q_scope_param : string }.

Record client := Client { authorization_endpoint : string; token_endpoint : string; client_id : string; client_secret : string }.

(** A login that was started: what went into the state record and into the URL. *)
Record mint := Mint {
  m_state : string;
  m_verifier : string;
  m_login : login;
  m_binding : string;
  m_client : client;
  m_dns : (string -> UrlGuard.answer) * (string -> UrlGuard.answer);
  m_url : string;
  m_time : Q }.

Inductive origin : Type := ByCallback (state code : string) | ByRefresh (id : string).

(** A POST to a token endpoint. *)
Record grant := Grant { g_origin : origin; g_url : string; g_form : list (string * string); g_basic : option string }.

Record save := Save { s_origin : origin; s_tenant : string; s_row : credential }.

Record world := World {
  store : vault;
  redis : dict string (string * Q);
  clock : Q;
  minted : list mint;
  grants : list grant;
  saves : list save }.

Definition set_store x (w : world) := World x (redis w) (clock w) (minted w) (grants w) (saves w).
Definition set_redis x (w : world) := World (store w) x (clock w) (minted w) (grants w) (saves w).
Definition set_clock x (w : world) := World (store w) (redis w) x (minted w) (grants w) (saves w).
Definition add_mint x (w : world) := World (store w) (redis w) (clock w) (minted w ++ [x]) (grants w) (saves w).
Definition add_grant x (w : world) := World (store w) (redis w) (clock w) (minted w) (grants w ++ [x]) (saves w).
Definition add_save x (w : world) := World (store w) (redis w) (clock w) (minted w) (grants w) (saves w ++ [x]).

(** An entry that has not run out. *)
Definition redis_get (k : string) (w : world) : option string :=
  match dget k (redis w) with Some (v, deadline) => if Qltb (clock w) deadline then Some v else None | None => None end.

(** ** The service *)
(** How a token endpoint answers; a body that is no JSON is [None]. *)
Inductive reply : Type := Unreachable | Replied (status : Z) (body : option val).

Section service.
Context (aead_encrypt : list N -> list N -> list N) (aead_decrypt : list N -> list N -> option (list N)).
Context (sha256 : list N -> list N) (float_repr : Q -> string) (str_other : val -> string).
(** UTF-8 beyond ASCII, which no sealed JSON has. *)
Context (decode_utf8 : list N -> option string).
Context (public_base_url : string) (redis_wired : bool) `{UrlGuard.Interpreter}.

Definition json_bytes (v : val) : list N := map Stdlib.Strings.Ascii.N_of_ascii (chars (Json.dumps float_repr v)).
Definition ascii_text (l : list N) : option string :=
  if forallb (fun n => (n <? 128)%N) l then Some (of_chars (map Stdlib.Strings.Ascii.ascii_of_N l)) else decode_utf8 l.

Definition seal := Vault.sealed aead_encrypt json_bytes.

(** [json.loads(vault.decrypt(...).decode("utf-8"))]; [None]: it raises. *)
Definition unseal (c : credential) : option val :=
  match Vault.decrypt aead_decrypt (Integrations.encrypted_data c) (Integrations.key_version c) with
  | Ok l => match ascii_text l with Some t => Json.loads t | None => None end
  | Err _ => None
  end.

Definition invalid {A} (why : string) : result error A := Err (Integrations.InvalidToolError why).

Definition config_text (k : string) (d : material) : option string :=
  match get_or k (VStr "") d with VStr s => if str_true s then Some s else None | _ => None end.

(** [_resolve_dcr_client]: the first oauth2 row of the provider in the tenant. *)
Definition resolve_dcr_client (tenant provider : string) (s : vault) : result error client :=
  match (Integrations.find_credentials_by_provider tenant provider s).2 with
  | Err e => Err e
  | Ok rows =>
      match List.find (fun c => bool_decide (Integrations.credential_type c = "oauth2")) rows with
      | None => invalid "no registered client"
      | Some live =>
          match unseal live with
          | Some (VDict m) =>
              let config := Integrations.auth_config live in
              match config_text "authorization_endpoint" config, config_text "token_endpoint" config,
                    config_text "client_id" config, config_text "client_secret" m with
              | Some a, Some t, Some i, Some s => Ok (Client a t i s)
              | _, _, _, _ => invalid "registration is incomplete"
              end
          | _ => invalid "registration cannot be opened"
          end
      end
  end.

Definition given (o : option string) : bool := match o with Some s => str_true s | None => false end.
Definition or_else (o : option string) (d : string) : string := match o with Some s => if str_true s then s else d | None => d end.

(** The first half of [build_authorize_url]: the checks and the client. *)
Definition known_client (q : login) (s : vault) : result error (string * client) :=
  match q_binding q with
  | None => Err Integrations.BindingRequiredError
  | Some b =>
      if negb (str_true (Integrations.partner_id (q_scope q))) then Err Integrations.ToolError
      else if negb redis_wired then invalid "no redis"
      else if negb (str_true public_base_url) then invalid "no base url"
      else if given (q_authorization q) && given (q_token q) && given (q_client_id q) then
        Ok (b, Client (or_else (q_authorization q) "") (or_else (q_token q) "") (or_else (q_client_id q) "")
                 (default "" (q_client_secret q)))
      else match resolve_dcr_client (q_tenant q) (q_provider q) s with
           | Err e => Err e
           | Ok c => Ok (b, Client (or_else (q_authorization q) (authorization_endpoint c)) (or_else (q_token q) (token_endpoint c))
                              (or_else (q_client_id q) (client_id c))
                              (match q_client_secret q with Some s => s | None => client_secret c end))
           end
  end.

Definition opt_text (o : option string) : string := default "" o.

(** The state record, as it is kept. *)
Definition state_record (q : login) (b : string) (c : client) (verifier : string) : material :=
  [("provider", VStr (q_provider q)); ("verifier", VStr verifier); ("client_id", VStr (client_id c));
   ("client_secret", VStr (client_secret c)); ("token_endpoint", VStr (token_endpoint c)); ("tenant_id", VStr (q_tenant q));
   ("binding", VStr b); ("owner_org_id", VStr (opt_text (Integrations.org_id (q_scope q))));
   ("owner_user_id", VStr (opt_text (Integrations.user_id (q_scope q))))].

Definition challenge (verifier : string) : string := b64url (sha256 (map Stdlib.Strings.Ascii.N_of_ascii (chars verifier))).

Definition authorization_query (q : login) (c : client) (state verifier : string) : list (string * string) :=
  [("response_type", "code"); ("client_id", client_id c); ("redirect_uri", callback_url public_base_url);
   ("scope", q_scope_param q); ("state", state); ("code_challenge", challenge verifier); ("code_challenge_method", "S256")].

Definition authorization_url (q : login) (c : client) (state verifier : string) : string :=
  authorization_endpoint c +:+ "?" +:+ urlencode (authorization_query q c state verifier).

(** The second half: both endpoints pass the guard, and the handshake is kept. [state]
    and [raw] are the random token and bytes. *)
Definition mint_login (q : login) (b : string) (c : client) (dns : (string -> UrlGuard.answer) * (string -> UrlGuard.answer))
    (state : string) (raw : list N) (w : world) : world * result error string :=
  if negb (UrlGuard.is_safe_outbound_url dns.1 (authorization_endpoint c)) then (w, invalid "authorization_endpoint")
  else if negb (UrlGuard.is_safe_outbound_url dns.2 (token_endpoint c)) then (w, invalid "token_endpoint")
  else
    let verifier := b64url raw in
    let url := authorization_url q c state verifier in
    let entry := (Json.dumps float_repr (VDict (state_record q b c verifier)), (clock w + inject_Z STATE_TTL_S)%Q) in
    (add_mint (Mint state verifier q b c dns url (clock w)) (set_redis (dset (state_key state) entry (redis w)) w), Ok url).

(** What a callback reads from the state record. *)
Record handshake := Handshake {
  h_state : string;
  h_code : string;
  h_provider : string;
  h_tenant : string;
  h_token_endpoint : string;
  h_binding : string;
  h_org : option string;
  h_user : option string;
  h_client_id : string;
  h_verifier : string;
  h_secret : val }.

Definition field (k dflt : string) (r : material) : string := ToolCalls.py_str str_other (get_or k (VStr dflt) r).
Definition field_or (k : string) (r : material) : string :=
  let v := get_or k (VStr "") r in ToolCalls.py_str str_other (if truthy v then v else VStr "").
Definition some_text (s : string) : option string := if str_true s then Some s else None.

(** Nothing of it may be missing. *)
Definition complete (h : handshake) : result error handshake :=
  if negb (str_true (h_tenant h)) || negb (str_true (h_token_endpoint h)) || negb (str_true (h_code h)) then invalid "incomplete"
  else if negb (str_true (h_binding h)) then invalid "predates binding"
  else Ok h.

Definition parse_state (state code raw : string) : result error handshake :=
  match Json.loads raw with
  | Some (VDict r) =>
      complete (Handshake state code (field "provider" "provider" r) (field "tenant_id" "" r) (field "token_endpoint" "" r)
                  (match get_or "binding" VNone r with VStr b => b | _ => "" end)
                  (some_text (field_or "owner_org_id" r)) (some_text (field_or "owner_user_id" r))
                  (field "client_id" "" r) (field "verifier" "" r) (get_or "client_secret" VNone r))
  | _ => invalid "expired or unknown"
  end.

Definition basic (client_id client_secret : string) : option string :=
  if str_true client_secret
  then Some ("Basic " +:+ of_chars (ToolExec.b64encode (ToolExec.utf8 (client_id +:+ ":" +:+ client_secret)))) else None.

Definition or_empty (v : val) : string := ToolCalls.py_str str_other (if truthy v then v else VStr "").

Definition code_grant (h : handshake) : grant :=
  Grant (ByCallback (h_state h) (h_code h)) (h_token_endpoint h)
    [("grant_type", "authorization_code"); ("code", h_code h); ("redirect_uri", callback_url public_base_url);
     ("client_id", h_client_id h); ("code_verifier", h_verifier h)]
    (basic (h_client_id h) (or_empty (h_secret h))).

(** [_exchange], once it is answered. *)
Definition exchanged (r : reply) : result error material :=
  match r with
  | Unreachable => invalid "unreachable"
  | Replied status body =>
      if 400 <=? status then invalid "refused"
      else match body with
           | None => invalid "non-JSON"
           | Some (VDict d) => match dget "access_token" d with
                               | Some (VStr s) => if str_true s then Ok d else invalid "no access token"
                               | _ => invalid "no access token"
                               end
           | Some _ => invalid "no access token"
           end
  end.

Definition optional (k : string) (v : val) : material := if truthy v then [(k, v)] else [].

Definition login_material (h : handshake) (tokens : material) : material :=
  [("token", get_or "access_token" VNone tokens)] ++ optional "refresh_token" (get_or "refresh_token" VNone tokens) ++
  optional "client_secret" (h_secret h).

Definition login_config (h : handshake) : material :=
  [("client_id", VStr (h_client_id h)); ("token_endpoint", VStr (h_token_endpoint h))].

Definition owner (h : handshake) : scope := Integrations.Owner (h_tenant h) (h_org h) (h_user h).

(** ** The refresh *)
(** The row, once it may be refreshed: what is needed of it. *)
Record renewal := Renewal { r_tenant : string; r_row : credential; r_material : material; r_endpoint : string; r_client : string }.

Definition refreshable (tenant : string) (row : credential) : result error renewal :=
  if negb (bool_decide (Integrations.credential_type row = "oauth2")) then invalid "only oauth2"
  else match unseal row with
       | None => invalid "cannot be opened"
       | Some (VDict m) =>
           if truthy (get_or "refresh_token" VNone m) then
             match config_text "token_endpoint" (Integrations.auth_config row), config_text "client_id" (Integrations.auth_config row) with
             | Some t, Some i => Ok (Renewal tenant row m t i)
             | _, _ => invalid "no token endpoint"
             end
           else invalid "no refresh token"
       | Some _ => invalid "no refresh token"
       end.

(** The lookup and the checks of [refresh_credential]. *)
Definition find_refreshable (tenant id : string) (sc : scope) (s : vault) : result error renewal :=
  match (Integrations.get_credential_in_scope tenant id sc true s).2 with
  | Err e => Err e
  | Ok None => Err Integrations.ToolNotFoundError
  | Ok (Some row) => refreshable tenant row
  end.

Definition refresh_grant (id : string) (r : renewal) : grant :=
  Grant (ByRefresh id) (r_endpoint r)
    [("grant_type", "refresh_token"); ("refresh_token", ToolCalls.py_str str_other (get_or "refresh_token" VNone (r_material r)));
     ("client_id", r_client r)]
    (basic (r_client r) (or_empty (get_or "client_secret" (VStr "") (r_material r)))).

Definition rotated_material (m tokens : material) : material :=
  [("token", get_or "access_token" VNone tokens);
   ("refresh_token", if truthy (get_or "refresh_token" VNone tokens) then get_or "refresh_token" VNone tokens
                     else get_or "refresh_token" VNone m)] ++
  optional "client_secret" (get_or "client_secret" VNone m).

(** The row of the lookup with the new envelope. *)
Definition rotated (nonce : string) (r : renewal) (tokens : material) : credential :=
  let c := r_row r in
  Integrations.mkCredential (Integrations.pc_base c) (Integrations.provider c) (Integrations.credential_type c)
    (Integrations.auth_config c) (seal nonce (VDict (rotated_material (r_material r) tokens)) (Integrations.key_version c))
    (Integrations.key_version c) (Integrations.expires_at c) (Integrations.owner_org_id c) (Integrations.owner_user_id c)
    (Integrations.binding c) (Integrations.status c).

(** ** The page of the callback *)
(** [text.replace("<", "\u003c")] *)
Definition script_char (c : ascii) : text := if bool_decide (c = "<"%char) then chars "\u003c" else [c].
Definition script_payload (ok : bool) (provider : string) : string :=
  of_chars (concat (map script_char (chars (Json.dumps float_repr
    (VDict [("type", VStr POSTMESSAGE_TYPE); ("ok", VBool ok); ("provider", VStr provider)]))))).

Definition page_head (provider detail : string) : string :=
  "<!doctype html><html><body><p>" +:+ html_escape (if str_true provider then provider else "provider") +:+ ": " +:+
  html_escape detail +:+ "</p><script>try{if(window.opener){window.opener.postMessage(".
Definition page_tail : string := ",'*');}}catch(e){}window.close();</script></body></html>".

Definition page (ok : bool) (provider detail : string) : string * Z :=
  (page_head provider detail +:+ script_payload ok provider +:+ page_tail, if ok then 200 else 400).

(** The callback's answer to the browser. *)
Definition callback_page (r : result string string) : string * Z :=
  match r with Ok provider => page true provider "Connected." | Err detail => page false "" detail end.

End service.

(** ** Calls in progress *)
Inductive answer : Type := LoginUrl (url : string) | LoggedIn (provider : string) | Refreshed (row : credential).

(** Where a call waits. [Minting] has the client; [Fetched] has read the state record and
    not deleted it; [Exchanging] is about to post; [Sealing] has the tokens; [Saving] has
    built the row. *)
Inductive thread : Type :=
| Authorizing (q : login)
| Minting (q : login) (b : string) (c : client)
| Arrived (state code : string)
| Fetched (state code raw : string)
| Exchanging (h : handshake)
| Sealing (h : handshake) (tokens : material)
| Saving (o : origin) (tenant : string) (row : credential)
| Refreshing (tenant id : string) (sc : scope)
| Renewing (id : string) (r : renewal)
| Returned (r : result error answer).

(** How a request enters the service. *)
Definition starts (t : thread) : bool :=
  match t with Authorizing _ | Arrived _ _ | Refreshing _ _ _ => true | _ => false end.

(** What a step is given from outside: name resolution, random draws, a token
    endpoint's reply, the time. *)
Record input := Input {
  i_dns : (string -> UrlGuard.answer) * (string -> UrlGuard.answer);
  i_state : string;
  i_raw : list N;
  i_reply : reply;
  i_now : Z;
  i_uuid : string;
  i_nonce : string }.

Section threads.
Context (aead_encrypt : list N -> list N -> list N) (aead_decrypt : list N -> list N -> option (list N)).
Context (sha256 : list N -> list N) (float_repr : Q -> string) (str_other : val -> string).
Context (decode_utf8 : list N -> option string).
Context (public_base_url : string) (redis_wired : bool) `{UrlGuard.Interpreter}.

Notation known_client := (known_client aead_decrypt decode_utf8 public_base_url redis_wired).
Notation mint_login := (mint_login sha256 float_repr public_base_url).
Notation parse_state := (parse_state str_other).
Notation code_grant := (code_grant str_other public_base_url).
Notation find_refreshable := (find_refreshable aead_decrypt decode_utf8).
Notation refresh_grant := (refresh_grant str_other).
Notation rotated := (rotated aead_encrypt float_repr).
Notation seal := (seal aead_encrypt float_repr).

Definition fails (e : error) : thread := Returned (Err e).

(** The row of a login: the id of the row with the same owner is kept. *)
Definition login_row (i : input) (h : handshake) (tokens : material) (s : vault) : result error credential :=
  match (Integrations.list_credentials_for_scope (h_tenant h) (owner h) false s).2 with
  | Err e => Err e
  | Ok listed =>
      match (Integrations.new_credential (i_now i) (h_provider h) "oauth2" (login_config h)
               (seal (i_nonce i) (VDict (login_material h tokens)) 1) None (owner h) (h_binding h)
               Integrations.STATUS_ACTIVE s).2 with
      | Err e => Err e
      | Ok row =>
          Ok match List.find (Integrations.same_login (h_provider h) (h_binding h) (owner h)) listed with
             | Some r => match m_id r with Some k => upd_base (set_id (Some k)) row | None => row end
             | None => row
             end
      end
  end.

Definition returned (o : origin) (saved : credential) : answer :=
  match o with ByCallback _ _ => LoggedIn (Integrations.provider saved) | ByRefresh _ => Refreshed saved end.

(** One step, up to the next await. *)
Definition step (i : input) (t : thread) (w : world) : world * thread :=
  match t with
  | Authorizing q =>
      match known_client q (store w) with Ok (b, c) => (w, Minting q b c) | Err e => (w, fails e) end
  | Minting q b c =>
      match mint_login q b c (i_dns i) (i_state i) (i_raw i) w with
      | (w', Ok url) => (w', Returned (Ok (LoginUrl url)))
      | (w', Err e) => (w', fails e)
      end
  | Arrived state code =>
      if negb redis_wired then (w, fails (Integrations.InvalidToolError "no redis"))
      else match redis_get (state_key state) w with
           | Some raw => if str_true raw then (w, Fetched state code raw)
                         else (w, fails (Integrations.InvalidToolError "expired or unknown"))
           | None => (w, fails (Integrations.InvalidToolError "expired or unknown"))
           end
  | Fetched state code raw =>
      (set_redis (ddel (state_key state) (redis w)) w,
       match parse_state state code raw with Ok h => Exchanging h | Err e => fails e end)
  | Exchanging h =>
      (add_grant (code_grant h) w, match exchanged (i_reply i) with Ok tokens => Sealing h tokens | Err e => fails e end)
  | Sealing h tokens =>
      (w, match login_row i h tokens (store w) with
          | Ok row => Saving (ByCallback (h_state h) (h_code h)) (h_tenant h) row
          | Err e => fails e
          end)
  | Saving o tenant row =>
      match Integrations.save_credential tenant (i_uuid i) row (store w) with
      | (s', Ok saved) => (add_save (Save o tenant saved) (set_store s' w), Returned (Ok (returned o saved)))
      | (s', Err e) => (set_store s' w, fails e)
      end
  | Refreshing tenant id sc =>
      (w, match find_refreshable tenant id sc (store w) with Ok r => Renewing id r | Err e => fails e end)
  | Renewing id r =>
      (add_grant (refresh_grant id r) w,
       match exchanged (i_reply i) with
       | Ok tokens => Saving (ByRefresh id) (r_tenant r) (rotated (i_nonce i) r tokens)
       | Err e => fails e
       end)
  | Returned _ => (w, t)
  end.

(** ** Many calls at once *)
Record system := System { now : world; threads : list thread }.

Definition state_of (m : mint) : string := m_state m.

(** A request arrives, a call makes a step, the vault changes by another hand, time
    passes. A drawn state token is a new one. *)
Inductive sstep : system -> system -> Prop :=
| arrives w ts t : starts t = true -> sstep (System w ts) (System w (ts ++ [t]))
| runs w ts k t i w' t' : ts !! k = Some t -> i_state i ∉ map state_of (minted w) -> step i t w = (w', t') ->
    sstep (System w ts) (System w' (<[k := t']> ts))
| changes w ts s : sstep (System w ts) (System (set_store s w) ts)
| passes w ts c : (clock w <= c)%Q -> sstep (System w ts) (System (set_clock c w) ts).

Definition fresh_system (s : vault) : system := System (World s [] 0%Q [] [] []) [].
Definition reachable (s : system) : Prop := exists v, rtc sstep (fresh_system v) s.

(** ** What a callback may do *)
Definition named (o : option string) : option string := some_text (opt_text o).

(** The handshake of a started login, completed with a code. *)
Definition landed (m : mint) (code : string) : handshake :=
  let q := m_login m in
  Handshake (m_state m) code (q_provider q) (q_tenant q) (token_endpoint (m_client m)) (m_binding m)
    (named (Integrations.org_id (q_scope q))) (named (Integrations.user_id (q_scope q))) (client_id (m_client m))
    (m_verifier m) (VStr (client_secret (m_client m))).

Definition record_text (m : mint) : string :=
  Json.dumps float_repr (VDict (state_record (m_login m) (m_binding m) (m_client m) (m_verifier m))).

Lemma py_str_str s : ToolCalls.py_str str_other (VStr s) = s.
Proof. done. Qed.

Lemma complete_Ok h h' : complete h = Ok h' -> h' = h /\
  str_true (h_tenant h) = true /\ str_true (h_token_endpoint h) = true /\ str_true (h_code h) = true /\ str_true (h_binding h) = true.
Proof.
  unfold complete. destruct (str_true (h_tenant h)), (str_true (h_token_endpoint h)), (str_true (h_code h)),
    (str_true (h_binding h)); try discriminate. intros [= ->]. done.
Qed.

Lemma parse_record m code h : parse_state (m_state m) code (record_text m) = Ok h -> h = landed m code.
Proof.
  unfold OAuth.parse_state, record_text. rewrite Json.loads_dumps by reflexivity. intros [-> _]%complete_Ok.
  assert (Hor : forall s, ToolCalls.py_str str_other (if truthy (VStr s) then VStr s else VStr "") = s).
  { intros s. cbn. destruct (str_true s) eqn:E; [done|]. by apply str_true_false in E as ->. }
  unfold landed, named. f_equal; try reflexivity; f_equal; apply Hor.
Qed.

(** ** The invariant of the handshakes *)
Notation url_of q c state verifier := (authorization_url sha256 public_base_url q c state verifier).

(** A started login passed the checks, and its URL carries its own state and challenge. *)
Definition minted_ok (m : mint) : Prop :=
  q_binding (m_login m) = Some (m_binding m) /\
  UrlGuard.is_safe_outbound_url (m_dns m).1 (authorization_endpoint (m_client m)) = true /\
  UrlGuard.is_safe_outbound_url (m_dns m).2 (token_endpoint (m_client m)) = true /\
  m_url m = url_of (m_login m) (m_client m) (m_state m) (m_verifier m).

(** When the state record runs out. *)
Definition expiry (m : mint) : Q := (m_time m + inject_Z STATE_TTL_S)%Q.

Definition used (w : world) (m : mint) : Prop := m ∈ minted w /\ dget (state_key (m_state m)) (redis w) = None.

(** The code of a callback was posted for this login. *)
Definition posted (w : world) (m : mint) (code : string) : Prop :=
  used w m /\ code_grant (landed m code) ∈ grants w.

(** A row that belongs to a login. *)
Definition lands (m : mint) (tenant : string) (row : credential) : Prop :=
  let q := m_login m in
  tenant = q_tenant q /\ Integrations.provider row = q_provider q /\ Integrations.credential_type row = "oauth2" /\
  Integrations.binding row = Some (m_binding m) /\
  Integrations.owner_org_id row = named (Integrations.org_id (q_scope q)) /\
  Integrations.owner_user_id row =
    (if decide (m_binding m = Integrations.BINDING_USER_PRIVATE) then named (Integrations.user_id (q_scope q)) else None) /\
  Integrations.status row = Integrations.STATUS_ACTIVE.

Definition thread_ok (w : world) (t : thread) : Prop :=
  match t with
  | Minting q b _ => q_binding q = Some b
  | Fetched state _ raw => exists m, m ∈ minted w /\ state = m_state m /\ raw = record_text m
  | Exchanging h => exists m, used w m /\ h = landed m (h_code h)
  | Sealing h _ => exists m, posted w m (h_code h) /\ h = landed m (h_code h)
  | Saving (ByCallback state code) tenant row =>
      exists m, posted w m code /\ state = m_state m /\ lands m tenant row
  | _ => True
  end.

Record inv (s : system) : Prop := Inv {
  inv_keys : dwf (redis (now s));
  inv_entries : forall k raw d, dget k (redis (now s)) = Some (raw, d) ->
    exists m, m ∈ minted (now s) /\ k = state_key (m_state m) /\ raw = record_text m /\ d = expiry m;
  inv_minted : forall m, m ∈ minted (now s) -> minted_ok m;
  inv_threads : Forall (thread_ok (now s)) (threads s);
  inv_grants : forall g state code, g ∈ grants (now s) -> g_origin g = ByCallback state code ->
    exists m, posted (now s) m code /\ state = m_state m /\ g = code_grant (landed m code);
  inv_saves : forall v state code, v ∈ saves (now s) -> s_origin v = ByCallback state code ->
    exists m, posted (now s) m code /\ state = m_state m /\ lands m (s_tenant v) (s_row v) }.

(** What no step takes back. *)
Record grows (w w' : world) : Prop := Grows {
  grows_minted : forall m, m ∈ minted w -> m ∈ minted w';
  grows_grants : forall g, g ∈ grants w -> g ∈ grants w';
  grows_used : forall m, used w m -> dget (state_key (m_state m)) (redis w') = None }.

Lemma used_grows w w' m : grows w w' -> used w m -> used w' m.
Proof. intros Hg Hu. split; [apply Hg, Hu|by apply (grows_used _ _ Hg)]. Qed.
Lemma posted_grows w w' m code : grows w w' -> posted w m code -> posted w' m code.
Proof. intros Hg [Hu Hp]. split; [by eapply used_grows|by apply Hg]. Qed.

Lemma thread_ok_grows w w' t : grows w w' -> thread_ok w t -> thread_ok w' t.
Proof.
  intros Hg. destruct t as [| | | | | |[? ?|?]| | |]; try done; cbn [thread_ok]; intros (m & Hm & Hr); exists m; split; try done.
  all: by apply Hg || by apply (used_grows _ _ _ Hg) || by apply (posted_grows _ _ _ _ Hg).
Qed.

Lemma state_key_inj a b : state_key a = state_key b -> a = b.
Proof. unfold state_key. intros He. by injection He. Qed.

(** The parts of the invariant on the world alone, whatever the threads are. *)
Lemma inv_world w w' ts ts' : inv (System w ts) -> grows w w' -> 
  redis w' = redis w -> minted w' = minted w -> grants w' = grants w -> saves w' = saves w ->
  Forall (thread_ok w') ts' -> inv (System w' ts').
Proof.
  intros [Hk He Hm Ht Hg Hs] Hw Er Em Eg Es Ht'. cbn [now threads] in *.
  split; cbn [now threads]; rewrite ?Er, ?Em, ?Eg, ?Es; try done.
  - intros g state code Hin Ho. destruct (Hg g state code Hin Ho) as (m & Hp & Hr). exists m. split; [|done]. by eapply posted_grows.
  - intros v state code Hin Ho. destruct (Hs v state code Hin Ho) as (m & Hp & Hr). exists m. split; [|done]. by eapply posted_grows.
Qed.

Lemma grows_same w w' : redis w' = redis w -> minted w' = minted w -> grants w' = grants w -> grows w w'.
Proof. intros Er Em Eg. split; rewrite ?Er, ?Em, ?Eg; try done. by intros m []. Qed.

Lemma threads_insert w w' ts k t' : Forall (thread_ok w) ts -> grows w w' -> thread_ok w' t' ->
  Forall (thread_ok w') (<[k := t']> ts).
Proof.
  intros Ht Hg Ht'. apply Forall_insert; [|done]. eapply Forall_impl; [done|]. intros t. by apply thread_ok_grows.
Qed.

(** One lemma per kind of effect. *)
Lemma inv_thread w ts k t' : inv (System w ts) -> thread_ok w t' -> inv (System w (<[k := t']> ts)).
Proof.
  intros Hi Ht'. apply (inv_world w w ts); try done; [by apply grows_same|].
  apply (threads_insert w w); [apply Hi|by apply grows_same|done].
Qed.

Lemma inv_store w ts s : inv (System w ts) -> inv (System (set_store s w) ts).
Proof.
  intros Hi. assert (Hg : grows w (set_store s w)) by by apply grows_same.
  apply (inv_world w _ ts); try done. eapply Forall_impl; [apply Hi|]. intros t. by apply thread_ok_grows.
Qed.

Lemma inv_clock w ts c : inv (System w ts) -> inv (System (set_clock c w) ts).
Proof.
  intros Hi. assert (Hg : grows w (set_clock c w)) by by apply grows_same.
  apply (inv_world w _ ts); try done. eapply Forall_impl; [apply Hi|]. intros t. by apply thread_ok_grows.
Qed.

Lemma inv_grant w ts k t' g : inv (System w ts) ->
  (forall state code, g_origin g = ByCallback state code ->
    exists m, used w m /\ state = m_state m /\ g = code_grant (landed m code)) ->
  thread_ok (add_grant g w) t' -> inv (System (add_grant g w) (<[k := t']> ts)).
Proof.
  intros [Hk He Hm Ht Hgr Hs] Hnew Ht'. cbn [now threads] in *.
  assert (Hw : grows w (add_grant g w)).
  { split; [done| |by intros m []]. intros g' Hg'. cbn. apply elem_of_app. by left. }
  split; cbn [now threads]; try done.
  - by eapply threads_insert.
  - intros g' state code Hin Ho. cbn in Hin. apply elem_of_app in Hin as [Hin|Hin%list_elem_of_singleton].
    + destruct (Hgr g' state code Hin Ho) as (m & Hp & Hr). exists m. split; [by eapply posted_grows|done].
    + subst g'. destruct (Hnew state code Ho) as (m & Hu & -> & Hg'). exists m. split; [|done]. split; [done|].
      rewrite <- Hg'. apply elem_of_app. right. by apply list_elem_of_singleton.
  - intros v state code Hin Ho. destruct (Hs v state code Hin Ho) as (m & Hp & Hr). exists m. split; [by eapply posted_grows|done].
Qed.

Lemma inv_save w ts v : inv (System w ts) ->
  (forall state code, s_origin v = ByCallback state code ->
    exists m, posted w m code /\ state = m_state m /\ lands m (s_tenant v) (s_row v)) ->
  inv (System (add_save v w) ts).
Proof.
  intros [Hk He Hm Ht Hgr Hs] Hnew. cbn [now threads] in *.
  split; cbn [now threads]; try done.
  intros v' state code Hin Ho. cbn in Hin. apply elem_of_app in Hin as [Hin|Hin%list_elem_of_singleton].
  - by apply (Hs v').
  - subst v'. by apply Hnew.
Qed.

Lemma inv_consume w ts k t' state code raw : inv (System w ts) -> ts !! k = Some (Fetched state code raw) ->
  (forall m, used (set_redis (ddel (state_key state) (redis w)) w) m -> state = m_state m -> raw = record_text m ->
    thread_ok (set_redis (ddel (state_key state) (redis w)) w) t') ->
  inv (System (set_redis (ddel (state_key state) (redis w)) w) (<[k := t']> ts)).
Proof.
  intros [Hk He Hm Ht Hgr Hs] Hl Hnew. cbn [now threads] in *. set (w' := set_redis _ w) in *.
  assert (Hget : forall k' v, dget k' (redis w') = Some v -> dget k' (redis w) = Some v).
  { intros k' v. cbn. destruct (decide (k' = state_key state)) as [->|Hne]; [by rewrite dget_ddel_eq|by rewrite dget_ddel_ne]. }
  assert (Hw : grows w w').
  { split; try done. intros m [_ Hu]. destruct (dget _ (redis w')) eqn:E; [|done]. apply Hget in E. congruence. }
  split; cbn [now threads]; try done.
  - cbn. by apply ddel_wf.
  - intros k' r d Hd. apply Hget in Hd. by apply (He k').
  - eapply threads_insert; [done..|]. rewrite Forall_lookup in Ht. destruct (Ht k _ Hl) as (m & Hin & -> & ->).
    apply (Hnew m); try done. split; [done|]. cbn. by apply dget_ddel_eq.
  - intros g st c Hin Ho. destruct (Hgr g st c Hin Ho) as (m & Hp & Hr). exists m. split; [by eapply posted_grows|done].
  - intros v st c Hin Ho. destruct (Hs v st c Hin Ho) as (m & Hp & Hr). exists m. split; [by eapply posted_grows|done].
Qed.

Lemma inv_mint w ts k t' m : inv (System w ts) -> m_state m ∉ map state_of (minted w) -> minted_ok m ->
  thread_ok (add_mint m (set_redis (dset (state_key (m_state m)) (record_text m, expiry m) (redis w)) w)) t' ->
  inv (System (add_mint m (set_redis (dset (state_key (m_state m)) (record_text m, expiry m) (redis w)) w)) (<[k := t']> ts)).
Proof.
  intros [Hk He Hm Ht Hgr Hs] Hf Hok Ht'. cbn [now threads] in *. set (w' := add_mint m _) in *.
  assert (Hne : forall m', m' ∈ minted w -> state_key (m_state m') <> state_key (m_state m)).
  { intros m' Hin Heq%state_key_inj. apply Hf. apply list_elem_of_fmap. exists m'. by rewrite <- Heq. }
  assert (Hw : grows w w').
  { split; [|done|].
    - intros m' Hin. cbn. apply elem_of_app. by left.
    - intros m' [Hin Hu]. cbn. by rewrite dget_dset_ne by by apply Hne. }
  split; cbn [now threads].
  - cbn. by apply dset_wf.
  - intros k' r d. cbn. rewrite dget_dset. case_decide as Hd.
    + intros [<- <-]%(inj Some)%pair_equal_spec. exists m. split_and!; try done. apply elem_of_app. right. by apply list_elem_of_singleton.
    + intros (m' & Hin & Hr)%He. exists m'. split; [apply elem_of_app; by left|done].
  - intros m' [Hin|Hin%list_elem_of_singleton]%elem_of_app; [by apply Hm|by subst].
  - by eapply threads_insert.
  - intros g st c Hin Ho. destruct (Hgr g st c Hin Ho) as (m' & Hp & Hr). exists m'. split; [by eapply posted_grows|done].
  - intros v st c Hin Ho. destruct (Hs v st c Hin Ho) as (m' & Hp & Hr). exists m'. split; [by eapply posted_grows|done].
Qed.

Lemma login_row_lands i m code tokens s row :
  login_row i (landed m code) tokens s = Ok row -> lands m (h_tenant (landed m code)) row.
Proof.
  unfold login_row. destruct (_.2) as [listed|e]; [|done].
  unfold Integrations.new_credential. destruct (_ && _ && _); [|done]. cbn [se_ret snd].
  intros [= <-]. destruct (List.find _ listed) as [r|]; [destruct (m_id r)|]; done.
Qed.

Lemma saved_base tenant uuid row s s' saved : Integrations.save_credential tenant uuid row s = (s', Ok saved) ->
  exists f, saved = upd_base f row.
Proof.
  unfold Integrations.save_credential. destruct (Scoped.insert _ _ _ _) as [docs c] eqn:Hi. intros [= <- <-].
  unfold Scoped.insert in Hi. cbn [rp_insert InMemory.repository] in Hi. unfold InMemory.insert in Hi.
  injection Hi as <- <-. unfold Scoped.stamp. destruct (opt_truthy _); [by exists (set_tenant (Some tenant))|].
  by exists (fun b => set_id (Some uuid) (set_tenant (Some tenant) b)).
Qed.

Lemma lands_saved m tenant row saved uuid s s' : lands m tenant row ->
  Integrations.save_credential tenant uuid row s = (s', Ok saved) -> lands m tenant saved.
Proof. intros Hl [f ->]%saved_base. exact Hl. Qed.

Lemma known_binding q s b c : known_client q s = Ok (b, c) -> q_binding q = Some b.
Proof.
  unfold OAuth.known_client. destruct (q_binding q) as [b'|]; [|done].
  destruct (negb _); [done|]. destruct (negb redis_wired); [done|]. destruct (negb _); [done|].
  destruct (_ && _ && _); [by intros [= -> _]|]. destruct (OAuth.resolve_dcr_client _ _ _ _ _); [by intros [= -> _]|done].
Qed.

Lemma handshake_step w ts k i t w' t' : inv (System w ts) -> ts !! k = Some t -> i_state i ∉ map state_of (minted w) ->
  step i t w = (w', t') -> inv (System w' (<[k := t']> ts)).
Proof.
  intros Hi Hl Hf Hs. assert (Ht : thread_ok w t).
  { pose proof (inv_threads _ Hi) as Ht. rewrite Forall_lookup in Ht. by apply (Ht k). }
  destruct t as [q|q b c|state code|state code raw|h|h tokens|o tenant row|tenant id sc|id r|r]; cbn [step] in Hs.
  - destruct (OAuth.known_client _ _ _ _ _ _) as [[b c]|e] eqn:E; injection Hs as <- <-; apply inv_thread; try done.
    by apply known_binding in E.
  - unfold OAuth.mint_login in Hs. destruct (UrlGuard.is_safe_outbound_url (i_dns i).1 _) eqn:E1.
    2: { injection Hs as <- <-. by apply inv_thread. }
    destruct (UrlGuard.is_safe_outbound_url (i_dns i).2 _) eqn:E2; [|injection Hs as <- <-; by apply inv_thread].
    cbn [negb] in Hs. injection Hs as <- <-.
    apply (inv_mint w ts k _ (Mint (i_state i) (b64url (i_raw i)) q b c (i_dns i) _ _)); done.
  - destruct redis_wired; [|injection Hs as <- <-; by apply inv_thread]. cbn [negb] in Hs.
    destruct (redis_get (state_key state) w) as [raw|] eqn:E; [|injection Hs as <- <-; by apply inv_thread].
    destruct (str_true raw); [|injection Hs as <- <-; by apply inv_thread]. injection Hs as <- <-. apply inv_thread; [done|].
    unfold redis_get in E. destruct (dget _ _) as [[v d]|] eqn:Ed; [|done]. destruct (Qltb _ _); [|done].
    injection E as <-. destruct (inv_entries _ Hi _ _ _ Ed) as (m & Hm & Hk & -> & _). apply state_key_inj in Hk. by exists m.
  - injection Hs as <- <-. eapply inv_consume; [done..|]. intros m Hu -> ->.
    destruct (OAuth.parse_state _ _ _ _) as [h|e] eqn:E; [|done]. apply parse_record in E as ->. by exists m.
  - injection Hs as <- <-. destruct Ht as (m & Hu & Hh). apply inv_grant; [done| |].
    + intros st cd [= <- <-]. exists m. split; [done|]. by rewrite <- Hh, Hh.
    + destruct (exchanged _) as [tokens|e]; [|done]. exists m. split; [|done]. split; [done|]. rewrite <- Hh. cbn.
      apply elem_of_app. right. by apply list_elem_of_singleton.
  - injection Hs as <- <-. apply inv_thread; [done|]. destruct Ht as (m & Hp & Hh).
    destruct (login_row i h tokens (store w)) as [row|e] eqn:E; [|done]. exists m. split; [done|]. rewrite Hh in E |- *.
    split; [done|]. by eapply login_row_lands.
  - destruct (Integrations.save_credential tenant (i_uuid i) row (store w)) as [s' [saved|e]] eqn:E; injection Hs as <- <-.
    2: { by apply inv_thread; [apply inv_store|]. }
    apply inv_thread; [|done]. apply inv_save; [by apply inv_store|]. intros st cd Ho. cbn in Ho. subst o.
    destruct Ht as (m & Hp & -> & Hla). exists m. split; [done|]. split; [done|]. by eapply lands_saved.
  - injection Hs as <- <-. apply inv_thread; [done|]. by destruct (OAuth.find_refreshable _ _ _ _ _ _).
  - injection Hs as <- <-. apply inv_grant; [done|done|]. by destruct (exchanged _).
  - injection Hs as <- <-. by apply inv_thread.
Qed.

Lemma handshake_inv s : reachable s -> inv s.
Proof.
  intros (v & Hr). remember (fresh_system v) as s0 eqn:E. assert (Hi : inv s0).
  { subst s0. split; cbn [now threads fresh_system redis minted grants saves]; try done; try (intros; set_solver). by apply NoDup_nil. }
  clear E. induction Hr as [s|s1 s2 s3 Hstep _ IH]; [done|]. apply IH. clear IH. destruct Hstep as [w ts t Hst|w ts k i t w' t' Hl Hf Hs|w ts x|w ts c Hc].
  - apply (inv_world w w ts); try done; [by apply grows_same|]. apply Forall_app. split; [apply Hi|].
    apply Forall_singleton. by destruct t.
  - by eapply handshake_step.
  - by apply inv_store.
  - by apply inv_clock.
Qed.

Lemma or_empty_str s : or_empty str_other (VStr s) = s.
Proof. unfold or_empty. cbn. destruct (str_true s) eqn:E; [done|]. by apply str_true_false in E as ->. Qed.

(** ** The theorems of the handshake *)
(** C15: Whatever arrives and however the calls interleave, a code goes only where the login
    of its state was started for: to the token endpoint that passed the guard when the
    login began, with that login's client and the verifier whose digest its URL carries. *)
Theorem exchange_pinned s g state code : reachable s -> g ∈ grants (now s) -> g_origin g = ByCallback state code ->
  exists m, m ∈ minted (now s) /\ m_state m = state /\
    g_url g = token_endpoint (m_client m) /\ UrlGuard.is_safe_outbound_url (m_dns m).2 (g_url g) = true /\
    g_form g = [("grant_type", "authorization_code"); ("code", code); ("redirect_uri", callback_url public_base_url);
                ("client_id", client_id (m_client m)); ("code_verifier", m_verifier m)] /\
    g_basic g = basic (client_id (m_client m)) (client_secret (m_client m)) /\
    m_url m = authorization_endpoint (m_client m) +:+ "?" +:+
      urlencode [("response_type", "code"); ("client_id", client_id (m_client m));
                 ("redirect_uri", callback_url public_base_url); ("scope", q_scope_param (m_login m)); ("state", state);
                 ("code_challenge", challenge sha256 (m_verifier m)); ("code_challenge_method", "S256")].
Proof.
  intros Hr Hg Ho. apply handshake_inv in Hr. destruct (inv_grants _ Hr _ _ _ Hg Ho) as (m & [[Hm _] _] & -> & ->).
  destruct (inv_minted _ Hr _ Hm) as (_ & _ & Hs & Hu). exists m. split_and!; try done.
  cbn. by rewrite or_empty_str.
Qed.

(** C16: A callback gets past the lookup of its state only for a login that was started, in
    the ten minutes after, and only when no code of that state has been posted before:
    what was used once is refused for good. *)
Theorem callback_single_use s i state code raw w' : reachable s ->
  step i (Arrived state code) (now s) = (w', Fetched state code raw) ->
  exists m, m ∈ minted (now s) /\ m_state m = state /\ (clock (now s) < m_time m + inject_Z 600)%Q /\
    forall g code', g ∈ grants (now s) -> g_origin g <> ByCallback state code'.
Proof.
  intros Hr Hs. apply handshake_inv in Hr. cbn [step] in Hs. destruct redis_wired; [|done]. cbn [negb] in Hs.
  destruct (redis_get (state_key state) (now s)) as [raw'|] eqn:E; [|done]. clear Hs.
  unfold redis_get in E. destruct (dget _ _) as [[v d]|] eqn:Ed; [|done]. destruct (Qltb _ _) eqn:Eq; [|done].
  destruct (inv_entries _ Hr _ _ _ Ed) as (m & Hm & Hk & _ & ->). apply state_key_inj in Hk. exists m.
  split; [done|]. split; [done|]. split; [by apply Qltb_lt in Eq|].
  intros g code' Hg Ho. destruct (inv_grants _ Hr _ _ _ Hg Ho) as (m' & [[_ Hu] _] & He & _). rewrite He in Ed. congruence.
Qed.

(** What a callback stores belongs to the login that was started, not to what the
    callback says: its tenant, provider, binding and owner, as an active oauth2 row,
    after the code was posted. *)
Theorem login_lands_with_owner s v state code : reachable s -> v ∈ saves (now s) -> s_origin v = ByCallback state code ->
  exists m g, m ∈ minted (now s) /\ m_state m = state /\ q_binding (m_login m) = Some (m_binding m) /\
    g ∈ grants (now s) /\ g_origin g = ByCallback state code /\ lands m (s_tenant v) (s_row v).
Proof.
  intros Hr Hv Ho. apply handshake_inv in Hr. destruct (inv_saves _ Hr _ _ _ Hv Ho) as (m & [[Hm _] Hp] & -> & Hl).
  exists m, (code_grant (landed m code)). split_and!; try done. by apply (inv_minted _ Hr).
Qed.

(** ** Sealing and opening again *)
Definition is_ascii (c : ascii) : Prop := (Stdlib.Strings.Ascii.N_of_ascii c < 128)%N.

Lemma ascii_escape c : Forall is_ascii (Json.escape c).
Proof. destruct c as [[] [] [] [] [] [] [] []]; apply (bool_decide_unpack _); vm_compute; exact I. Qed.

Lemma ascii_string s : Forall is_ascii (Json.dump_string s).
Proof.
  unfold Json.dump_string. apply Forall_cons. split; [done|]. apply Forall_app. split; [|by repeat constructor].
  induction (chars s) as [|c l IH]; [done|]. cbn [map concat]. apply Forall_app. split; [apply ascii_escape|done].
Qed.

Lemma ascii_number z : Forall is_ascii (chars (str_of_Z z)).
Proof.
  assert (Hd : forall fuel n acc, Forall is_ascii acc -> Forall is_ascii (digits_of_nat fuel n acc)).
  { induction fuel as [|fuel IH]; [done|]. intros n acc Ha. cbn [digits_of_nat].
    assert (Forall is_ascii (Stdlib.Strings.Ascii.ascii_of_N (48 + n mod 10)%N :: acc)).
    { constructor; [|done]. unfold is_ascii. pose proof (N.mod_lt n 10 ltac:(done)). rewrite Stdlib.Strings.Ascii.N_ascii_embedding; lia. }
    destruct (n <? 10)%N; [done|by apply IH]. }
  assert (Hn : forall n, Forall is_ascii (chars (str_of_N n))) by (intros n; unfold str_of_N; rewrite chars_of_chars; by apply Hd).
  destruct z as [|p|p]; [apply Hn|apply Hn|]. unfold str_of_Z. rewrite chars_app. apply Forall_app. split; [by repeat constructor|apply Hn].
Qed.

Lemma ascii_sep sep l : Forall is_ascii sep -> Forall (Forall is_ascii) l -> Forall is_ascii (Json.sep_by sep l).
Proof.
  intros Hs. induction 1 as [|x l Hx Hl IH]; [done|]. cbn [Json.sep_by]. destruct l; [done|]. rewrite !Forall_app. done.
Qed.

Lemma ascii_dump v : Json.plain v = true -> Forall is_ascii (Json.dump float_repr v).
Proof.
  induction v as [|b|z|x|s|l IH|d IH] using Json.val_nested_ind; intros Hv; cbn [Json.plain] in Hv; try done.
  - by repeat constructor.
  - destruct b; by repeat constructor.
  - apply ascii_number.
  - apply ascii_string.
  - change (Forall is_ascii (Json.char 91 :: Json.sep_by (chars ", ") (map (Json.dump float_repr) l) ++ [Json.char 93])).
    constructor; [done|]. apply Forall_app. split; [|by repeat constructor]. apply ascii_sep; [by repeat constructor|].
    apply Forall_map. rewrite forallb_forall in Hv. rewrite Forall_forall in IH |- *. intros x Hx. apply IH; [done|]. by apply Hv, list_elem_of_In.
  - change (Forall is_ascii (Json.char 123 :: Json.sep_by (chars ", ")
      (map (fun kv => Json.dump_string kv.1 ++ chars ": " ++ Json.dump float_repr kv.2) d) ++ [Json.char 125])).
    apply andb_true_iff in Hv as [_ Hv]. constructor; [done|]. apply Forall_app. split; [|by repeat constructor].
    apply ascii_sep; [by repeat constructor|]. apply Forall_map. rewrite forallb_forall in Hv. rewrite Forall_forall in IH |- *.
    intros [k x] Hx. cbn [fst snd]. rewrite !Forall_app. split; [apply ascii_string|]. split; [by repeat constructor|].
    apply (IH _ Hx), Hv. by apply list_elem_of_In in Hx.
Qed.

Lemma ascii_text_dump v : Json.plain v = true -> ascii_text decode_utf8 (json_bytes float_repr v) = Some (Json.dumps float_repr v).
Proof.
  intros Hv%ascii_dump. unfold ascii_text, json_bytes, Json.dumps. rewrite chars_of_chars.
  assert (forallb (fun n => (n <? 128)%N) (map Stdlib.Strings.Ascii.N_of_ascii (Json.dump float_repr v)) = true) as ->.
  { apply forallb_forall. intros n (c & <- & Hc)%in_map_iff. apply N.ltb_lt. rewrite Forall_forall in Hv. by apply Hv, list_elem_of_In. }
  f_equal. rewrite map_map. rewrite <- (map_id (Json.dump float_repr v)) at 2. f_equal. apply map_ext.
  intros c. apply Stdlib.Strings.Ascii.ascii_N_embedding.
Qed.

Context `{!Vault.Aead aead_encrypt aead_decrypt}.

(** What is sealed under a generation of keys opens under it. *)
Lemma seal_unseal nonce v version c : (1 <= version)%Z -> length (chars nonce) = Vault.NONCE_SIZE_BYTES -> Json.plain v = true ->
  Integrations.encrypted_data c = seal nonce v version -> Integrations.key_version c = version ->
  unseal aead_decrypt decode_utf8 c = Some v.
Proof.
  intros Hver Hn Hv He Hk. unfold unseal. rewrite He, Hk. unfold OAuth.seal, Vault.sealed, Vault.encrypt.
  destruct (Z.ltb_spec version 1) as [Hl|Hl]; [lia|].
  rewrite Vault.decrypt_envelope by (done || apply Vault.nonce_bytes || by rewrite length_map).
  rewrite Z.eqb_refl. destruct (Z.ltb_spec version 1) as [Hl'|Hl']; [lia|]. rewrite ascii_text_dump by done. by apply Json.loads_dumps.
Qed.

(** ** A refresh *)
(** A call that nothing interrupts. *)
Fixpoint solo (n : nat) (i : input) (t : thread) (w : world) : world * thread :=
  match n with O => (w, t) | S n' => let (w', t') := step i t w in solo n' i t' w' end.

Lemma found_row tenant id sc s r : find_refreshable tenant id sc s = Ok r ->
  exists row, dget id (Integrations.credentials s) = Some (InMemory.Row row) /\ m_active row = true /\ m_tenant row = Some tenant /\
    str_true (Integrations.partner_id sc) = true /\
    Integrations.tenant_allows (m_tenant row) sc && Integrations.credential_visible_to row sc true = true /\
    refreshable aead_decrypt decode_utf8 tenant row = Ok r.
Proof.
  unfold OAuth.find_refreshable, Integrations.get_credential_in_scope, Integrations.ensure_owner_scope, Integrations.ensure.
  destruct (str_true (Integrations.partner_id sc)) eqn:Ep; [|done]. unfold se_bind, se_ret, se_get. cbn [snd].
  unfold Scoped.get. cbn [rp_get InMemory.repository]. unfold InMemory.get, Integrations.lift.
  destruct (dget id (Integrations.credentials s)) as [[row|e]|] eqn:Ed; [|done|done].
  destruct (m_active row) eqn:Ea; [|done]. destruct (Scoped.owns _ row) eqn:Eo; [|done]. unfold se_ret. cbn [snd].
  apply Scoped.owns_spec in Eo. destruct (_ && _) eqn:Ev; [|done]. intros Hr. by exists row.
Qed.

Lemma find_row tenant id sc s row : dget id (Integrations.credentials s) = Some (InMemory.Row row) -> m_active row = true ->
  m_tenant row = Some tenant -> str_true (Integrations.partner_id sc) = true ->
  Integrations.tenant_allows (m_tenant row) sc && Integrations.credential_visible_to row sc true = true ->
  find_refreshable tenant id sc s = refreshable aead_decrypt decode_utf8 tenant row.
Proof.
  intros Hd Ha Ht Hp Hv. unfold OAuth.find_refreshable, Integrations.get_credential_in_scope, Integrations.ensure_owner_scope, Integrations.ensure.
  rewrite Hp. unfold se_bind, se_ret, se_get. cbn [snd]. unfold Scoped.get. cbn [rp_get InMemory.repository].
  unfold InMemory.get, Integrations.lift. rewrite Hd, Ha. rewrite (proj2 (Scoped.owns_spec _ row)) by done. unfold se_ret. cbn [snd].
  by rewrite Hv.
Qed.

(** What makes a row refreshable. *)
Lemma refreshable_spec tenant row m t c : Integrations.credential_type row = "oauth2" ->
  unseal aead_decrypt decode_utf8 row = Some (VDict m) -> truthy (get_or "refresh_token" VNone m) = true ->
  config_text "token_endpoint" (Integrations.auth_config row) = Some t -> config_text "client_id" (Integrations.auth_config row) = Some c ->
  refreshable aead_decrypt decode_utf8 tenant row = Ok (Renewal tenant row m t c).
Proof. intros Ho Hu Ht H1 H2. unfold refreshable. rewrite Ho, Hu, Ht, H1, H2. done. Qed.

Lemma refreshable_inv tenant row r : refreshable aead_decrypt decode_utf8 tenant row = Ok r ->
  r_tenant r = tenant /\ r_row r = row /\ Integrations.credential_type row = "oauth2" /\
  unseal aead_decrypt decode_utf8 row = Some (VDict (r_material r)) /\ truthy (get_or "refresh_token" VNone (r_material r)) = true /\
  config_text "token_endpoint" (Integrations.auth_config row) = Some (r_endpoint r) /\
  config_text "client_id" (Integrations.auth_config row) = Some (r_client r).
Proof.
  unfold refreshable. destruct (bool_decide _) eqn:E; [|done]. apply bool_decide_eq_true in E. cbn [negb].
  destruct (unseal _ _ row) as [[| | | | | |m]|]; try done. destruct (truthy _) eqn:Et; [|done].
  destruct (config_text "token_endpoint" _) as [t|]; [|done]. destruct (config_text "client_id" _) as [c|]; [|done].
  intros [= <-]. done.
Qed.

Lemma opened_version row m : unseal aead_decrypt decode_utf8 row = Some m -> (1 <= Integrations.key_version row)%Z.
Proof. unfold unseal, Vault.decrypt. destruct (Z.ltb_spec (Integrations.key_version row) 1); [done|lia]. Qed.

Lemma exchanged_token r tokens : exchanged r = Ok tokens -> exists s, get_or "access_token" VNone tokens = VStr s.
Proof.
  unfold exchanged. destruct r as [|st [[| | | | | |d]|]]; try done; destruct (400 <=? st); try done.
  destruct (dget "access_token" d) as [[| | | |s| |]|] eqn:E; try done. destruct (str_true s); [|done]. intros [= <-].
  exists s. unfold Webhooks.get_or. by rewrite E.
Qed.

(** The material of a refresh reads back with a refresh token. *)
Lemma rotated_plain m tokens s : get_or "access_token" VNone tokens = VStr s ->
  Json.plain (get_or "refresh_token" VNone m) = true -> Json.plain (get_or "refresh_token" VNone tokens) = true ->
  Json.plain (get_or "client_secret" VNone m) = true -> Json.plain (VDict (rotated_material m tokens)) = true.
Proof.
  intros Hs H1 H2 H3. set (d := rotated_material m tokens).
  change (bool_decide (NoDup (map fst d)) && forallb (fun kv => Json.plain kv.2) d = true). subst d.
  unfold rotated_material, optional. rewrite Hs.
  destruct (truthy (get_or "client_secret" VNone m)), (truthy (get_or "refresh_token" VNone tokens));
    (apply andb_true_iff; split; [by vm_compute|]); cbn [app forallb snd andb]; by rewrite ?H1, ?H2, ?H3.
Qed.

Lemma rotated_refresh m tokens : truthy (get_or "refresh_token" VNone m) = true ->
  get_or "refresh_token" VNone (rotated_material m tokens) =
    (if truthy (get_or "refresh_token" VNone tokens) then get_or "refresh_token" VNone tokens else get_or "refresh_token" VNone m) /\
  truthy (get_or "refresh_token" VNone (rotated_material m tokens)) = true.
Proof.
  intros Hm. assert (get_or "refresh_token" VNone (rotated_material m tokens) =
    if truthy (get_or "refresh_token" VNone tokens) then get_or "refresh_token" VNone tokens else get_or "refresh_token" VNone m) as ->.
  { unfold rotated_material. cbn [app]. unfold Webhooks.get_or at 1. cbn [dget]. by rewrite decide_False, decide_True. }
  split; [done|]. by destruct (truthy (get_or "refresh_token" VNone tokens)) eqn:E.
Qed.

(** What of a row a refresh does not touch. *)
Definition kept_fields (c : credential) :=
  (m_id c, m_tenant c, Integrations.provider c, Integrations.credential_type c, Integrations.auth_config c,
   Integrations.key_version c, (Integrations.expires_at c, Integrations.owner_org_id c, Integrations.owner_user_id c,
   Integrations.binding c, Integrations.status c)).

Lemma save_rotated tenant uuid id row c s : m_id row = Some id -> str_true id = true -> m_active row = true ->
  m_tenant row = Some tenant -> Integrations.pc_base c = Integrations.pc_base row -> 
  exists saved, Integrations.save_credential tenant uuid c s =
    (Integrations.set_credentials (dset id (InMemory.Row saved) (Integrations.credentials s)) s, Ok saved) /\
    m_id saved = Some id /\ m_tenant saved = Some tenant /\ m_active saved = true /\
    saved = upd_base (set_tenant (Some tenant)) c.
Proof.
  intros Hi Hs Ha Ht Hb. exists (upd_base (set_tenant (Some tenant)) c).
  assert (Hid : m_id (upd_base (set_tenant (Some tenant)) c) = Some id).
  { rewrite m_id_upd. cbn [bf_id set_tenant]. rewrite <- Hi. cbn. by rewrite Hb. }
  split; [|split; [done|]; split; [by rewrite m_tenant_upd|]; split; [|done]].
  2: { rewrite m_active_upd. cbn [is_active set_tenant]. rewrite <- Ha. cbn. by rewrite Hb. }
  unfold Integrations.save_credential, Scoped.insert. cbn [rp_insert InMemory.repository]. unfold InMemory.insert, Scoped.stamp.
  cbn [Scoped.tenant Integrations.view]. rewrite Hid. assert (opt_truthy (Some id) = true) as -> by done. by rewrite Hid.
Qed.

(** C17: A refresh that is answered, and that no other request interrupts between its
    reading the row and its saving it, rotates the tokens of one row and nothing else: one
    POST goes to the endpoint of the row, the identity, owner, binding and status of the
    row stay, its material opens to the new access token, the refresh token that came with it
    or else the old one, and the client secret; so the row can be refreshed again. What a
    suspension in between comes to is [Example.refresh_undoes_suspension]. *)
Theorem refresh_exact tenant id sc i tokens r w :
  InMemory.store_ok (Integrations.credentials (store w)) -> str_true id = true -> length (chars (i_nonce i)) = Vault.NONCE_SIZE_BYTES ->
  find_refreshable tenant id sc (store w) = Ok r -> exchanged (i_reply i) = Ok tokens ->
  Json.plain (get_or "refresh_token" VNone (r_material r)) = true -> Json.plain (get_or "refresh_token" VNone tokens) = true ->
  Json.plain (get_or "client_secret" VNone (r_material r)) = true ->
  exists saved w', solo 3 i (Refreshing tenant id sc) w = (w', Returned (Ok (Refreshed saved))) /\
    grants w' = grants w ++ [refresh_grant id r] /\ kept_fields saved = kept_fields (r_row r) /\
    Integrations.credentials (store w') = dset id (InMemory.Row saved) (Integrations.credentials (store w)) /\
    unseal aead_decrypt decode_utf8 saved = Some (VDict (rotated_material (r_material r) tokens)) /\
    find_refreshable tenant id sc (store w') =
      Ok (Renewal tenant saved (rotated_material (r_material r) tokens) (r_endpoint r) (r_client r)).
Proof.
  intros Hs Hid Hn Hf He P1 P2 P3.
  destruct (found_row _ _ _ _ _ Hf) as (row & Hd & Ha & Ht & Hp & Hv & Hr).
  destruct (refreshable_inv _ _ _ Hr) as (Hrt & Hrr & Ho & Hu & Htr & Hte & Hci).
  destruct (exchanged_token _ _ He) as [a Htok].
  destruct (save_rotated tenant (i_uuid i) id row (rotated (i_nonce i) r tokens) (store w)) as (saved & Hsv & Hi & Htn & Hac & Heq);
    [by apply (proj2 Hs)|done..|by rewrite <- Hrr|].
  assert (Hk : kept_fields saved = kept_fields (r_row r)).
  { unfold kept_fields. rewrite Hi, Htn, Hrr. rewrite (proj2 Hs _ _ Hd), Ht, Heq. unfold OAuth.rotated. rewrite Hrr. done. }
  assert (Hun : unseal aead_decrypt decode_utf8 saved = Some (VDict (rotated_material (r_material r) tokens))).
  { apply (seal_unseal (i_nonce i) _ (Integrations.key_version row)); [by eapply opened_version|done|by eapply rotated_plain| |];
      rewrite Heq; unfold OAuth.rotated; by rewrite Hrr. }
  exists saved. eexists. cbn [solo step]. rewrite Hf. cbn [solo step]. rewrite He. cbn [solo step store add_grant]. rewrite Hrt, Hsv.
  split; [done|]. split; [done|]. split; [done|]. split; [done|]. split; [done|].
  rewrite (find_row _ _ _ _ saved); [|by apply dget_dset_eq|done|done|done|].
  2: { etransitivity; [|exact Hv]. rewrite Heq. unfold OAuth.rotated. rewrite Hrr, m_tenant_upd. cbn [bf_tenant_id set_tenant]. by rewrite Ht. }
  pose proof (rotated_refresh (r_material r) tokens Htr) as [_ Htr'].
  apply refreshable_spec; try done; rewrite Heq; unfold OAuth.rotated; by rewrite Hrr.
Qed.
End threads.

(** ** The page *)
Lemma script_read c l : Json.string_body (concat (map script_char (Json.escape c)) ++ l) = Json.push c (Json.string_body l).
Proof. by destruct c as [[] [] [] [] [] [] [] []]. Qed.

Lemma script_body_read (s l : text) :
  Json.string_body (concat (map script_char (concat (map Json.escape s))) ++ Json.char 34 :: l) = Some (s, l).
Proof.
  induction s as [|c s IH]; [done|]. cbn [map concat]. by rewrite map_app, concat_app, <- app_assoc, script_read, IH.
Qed.

Definition payload_value (ok : bool) (provider : string) : val :=
  VDict [("type", VStr POSTMESSAGE_TYPE); ("ok", VBool ok); ("provider", VStr provider)].

(** The payload up to the text of the provider's name. *)
Definition payload_head (ok : bool) : text :=
  let q := of_chars [Json.char 34] in
  chars ("{" +:+ q +:+ "type" +:+ q +:+ ": " +:+ q +:+ POSTMESSAGE_TYPE +:+ q +:+ ", " +:+ q +:+ "ok" +:+ q +:+ ": " +:+
         (if ok then "true" else "false") +:+ ", " +:+ q +:+ "provider" +:+ q +:+ ": " +:+ q).

Lemma payload_shape float_repr ok provider : chars (script_payload float_repr ok provider) =
  payload_head ok ++ concat (map script_char (concat (map Json.escape (chars provider)))) ++ [Json.char 34; Json.char 125].
Proof.
  unfold script_payload. rewrite chars_of_chars. unfold Json.dumps. rewrite chars_of_chars.
  assert (Json.dump float_repr (payload_value ok provider) =
    payload_head ok ++ concat (map Json.escape (chars provider)) ++ [Json.char 34; Json.char 125]) as Hd.
  { assert (Hs : forall a b, Json.sep_by (chars ", ") [a; b; Json.dump_string "provider" ++ chars ": " ++ Json.dump_string provider] =
      (a ++ chars ", " ++ b ++ chars ", " ++ Json.dump_string "provider" ++ chars ": ") ++ Json.dump_string provider)
      by (intros a b; cbn [Json.sep_by]; by rewrite <- !app_assoc).
    change (Json.dump float_repr (payload_value ok provider)) with (Json.char 123 :: Json.sep_by (chars ", ")
      [Json.dump_string "type" ++ chars ": " ++ Json.dump_string POSTMESSAGE_TYPE;
       Json.dump_string "ok" ++ chars ": " ++ chars (if ok then "true" else "false");
       Json.dump_string "provider" ++ chars ": " ++ Json.dump_string provider] ++ [Json.char 125]).
    rewrite Hs. unfold Json.dump_string at 5. rewrite <- !app_assoc, <- !app_comm_cons, <- !app_assoc. by destruct ok. }
  unfold payload_value in Hd. rewrite Hd, !map_app, !concat_app. by destruct ok.
Qed.

Lemma entry_read f l0 k l2 v c l4 acc : Json.string_body l0 = Some (k, Json.char 58 :: Json.char 32 :: l2) ->
  Json.skip_ws l2 = l2 -> Json.value f l2 = Some (v, c :: l4) -> Json.is_ws c = false ->
  Json.members (S f) (Json.char 34 :: l0) acc =
    if (Json.code c =? 125)%nat then Some (VDict (dset (of_chars k) v acc), l4)
    else if (Json.code c =? 44)%nat then Json.members f (Json.skip_ws l4) (dset (of_chars k) v acc) else None.
Proof.
  intros Hk Hs Hv Hc. cbn [Json.members]. change (Json.code (Json.char 34) =? 34)%nat with true. cbv iota. rewrite Hk.
  cbn [Json.skip_ws]. change (Json.is_ws (Json.char 58)) with false. cbv iota.
  change (Json.code (Json.char 58) =? 58)%nat with true. cbv iota.
  change (Json.skip_ws (Json.char 32 :: ?k)) with (Json.skip_ws k). rewrite Hs, Hv. cbn [Json.skip_ws]. by rewrite Hc.
Qed.

Lemma payload_read ok t p fuel : Json.string_body t = Some (p, [Json.char 125]) ->
  Json.value (S (S (S (S (S (S fuel)))))) (payload_head ok ++ t) = Some (payload_value ok (of_chars p), []).
Proof.
  intros Ht. set (t3 := Json.dump_string "provider" ++ chars ": " ++ Json.char 34 :: t).
  set (t2 := Json.dump_string "ok" ++ chars ": " ++ (if ok then chars "true" else chars "false") ++ chars ", " ++ t3).
  transitivity (Json.members (S (S (S (S (S fuel)))))
    (Json.dump_string "type" ++ chars ": " ++ Json.dump_string POSTMESSAGE_TYPE ++ chars ", " ++ t2) []).
  { subst t2 t3. by destruct ok. }
  etransitivity; [apply (entry_read _ _ (chars "type") (Json.dump_string POSTMESSAGE_TYPE ++ chars ", " ++ t2)
    (VStr POSTMESSAGE_TYPE) (Json.char 44) (Json.char 32 :: t2)); reflexivity|].
  transitivity (Json.members (S (S (S (S fuel)))) t2 [("type", VStr POSTMESSAGE_TYPE)]); [by subst t2|].
  etransitivity; [apply (entry_read _ _ (chars "ok") ((if ok then chars "true" else chars "false") ++ chars ", " ++ t3)
    (VBool ok) (Json.char 44) (Json.char 32 :: t3)); by destruct ok|].
  transitivity (Json.members (S (S (S fuel))) t3 [("type", VStr POSTMESSAGE_TYPE); ("ok", VBool ok)]); [by subst t3|].
  etransitivity; [apply (entry_read _ _ (chars "provider") (Json.char 34 :: t) (VStr (of_chars p)) (Json.char 125) []);
    [reflexivity..| |reflexivity]|reflexivity].
  cbn [Json.value]. change (Json.code (Json.char 34) =? 34)%nat with true. cbv iota. by rewrite Ht.
Qed.

Lemma html_char_free c : Forall (fun d => d <> "<"%char /\ d <> ">"%char /\ d <> "'"%char /\ d <> Json.char 34) (html_char c).
Proof. destruct c as [[] [] [] [] [] [] [] []]; apply (bool_decide_unpack _); vm_compute; exact I. Qed.

Lemma script_char_free c : "<"%char ∉ script_char c.
Proof. destruct c as [[] [] [] [] [] [] [] []]; apply (bool_decide_unpack _); vm_compute; exact I. Qed.

Lemma mapped_free {A} (x : ascii) (g : A -> text) l : (forall c, x ∉ g c) -> x ∉ concat (map g l).
Proof. intros Hg. induction l as [|c l IH]; [apply not_elem_of_nil|]. cbn [map concat]. by apply not_elem_of_app. Qed.

(** Nothing a provider is called, and no reason, gets out of its place in the page: the
    two texts hold no markup, and the value of the script holds no [<] and reads back as
    the message that was meant, the provider's name unchanged. *)
Theorem page_contained float_repr ok provider detail :
  exists shown payload, page float_repr ok provider detail =
    ("<!doctype html><html><body><p>" +:+ shown +:+ "</p><script>try{if(window.opener){window.opener.postMessage(" +:+
     payload +:+ ",'*');}}catch(e){}window.close();</script></body></html>", if ok then 200 else 400) /\
    (forall c, c ∈ ["<"%char; ">"%char; "'"%char; Json.char 34] -> c ∉ chars shown) /\
    "<"%char ∉ chars payload /\ Json.loads payload = Some (payload_value ok provider).
Proof.
  exists (html_escape (if str_true provider then provider else "provider") +:+ ": " +:+ html_escape detail),
    (script_payload float_repr ok provider).
  split; [|split; [|split]].
  - unfold page, page_head, page_tail. f_equal. apply ToolCalls.chars_inj. by rewrite !chars_app, <- !app_assoc.
  - assert (Hh : forall c s, c ∈ ["<"%char; ">"%char; "'"%char; Json.char 34] -> c ∉ chars (html_escape s)).
    { intros c s Hc. unfold html_escape. rewrite chars_of_chars. apply mapped_free. intros d Hd.
      pose proof (html_char_free d) as Hf. rewrite Forall_forall in Hf. apply Hf in Hd. set_solver. }
    intros c Hc. rewrite !chars_app, !not_elem_of_app. split; [by apply Hh|]. split; [|by apply Hh]. set_solver.
  - unfold script_payload. rewrite chars_of_chars. apply mapped_free, script_char_free.
  - unfold Json.loads. rewrite payload_shape. set (t := concat _ ++ _).
    assert (2 * length (payload_head ok ++ t) + 1 = S (S (S (S (S (S (2 * length (payload_head ok ++ t) - 5)))))))%nat as ->
      by (assert (16 <= length (payload_head ok))%nat by (apply Nat.leb_le; by destruct ok); rewrite length_app; lia).
    assert (Json.skip_ws (payload_head ok ++ t) = payload_head ok ++ t) as -> by by destruct ok.
    rewrite (payload_read ok t (chars provider)); [by rewrite of_chars_chars|]. apply script_body_read.
Qed.

(** ** Runs with a toy cipher *)
Module Example.
Import UrlGuard.Example Vault.Example.
#[local] Existing Instance toy_aead.

Definition sha (l : list N) : list N := reverse l.
Definition fr (_ : Q) : string := "0.0".
Definition other (_ : val) : string := "?".
Definition beyond (_ : list N) : option string := None.
Definition base : string := "https://voice.example/".

Notation step := (step toy_seal toy_open sha fr other beyond base true).
Notation sstep := (sstep toy_seal toy_open sha fr other beyond base true).
Notation reachable := (reachable toy_seal toy_open sha fr other beyond base true).

Inductive event : Type := Arrive (t : thread) | Run (k : nat) (i : input) | Change (f : vault -> vault) | Pass (seconds : Z).

(** What an event makes of the calls in progress; [None]: it cannot happen. *)
Definition happen (e : event) (s : system) : option system :=
  match e with
  | Arrive t => if starts t then Some (System (now s) (threads s ++ [t])) else None
  | Run k i =>
      match threads s !! k with
      | Some t => if bool_decide (i_state i ∈ map state_of (minted (now s))) then None
                  else Some (System (step i t (now s)).1 (<[k := (step i t (now s)).2]> (threads s)))
      | None => None
      end
  | Change f => Some (System (set_store (f (store (now s))) (now s)) (threads s))
  | Pass n => if Z.leb 0 n then Some (System (set_clock (clock (now s) + inject_Z n)%Q (now s)) (threads s)) else None
  end.
Fixpoint play (l : list event) (s : system) : option system :=
  match l with [] => Some s | e :: l' => match happen e s with Some s' => play l' s' | None => None end end.

Lemma happen_steps e s s' : happen e s = Some s' -> sstep s s'.
Proof.
  destruct s as [w ts]. destruct e as [t|k i|f|n]; cbn [happen now threads].
  - destruct (starts t) eqn:E; [|done]. intros [= <-]. by constructor.
  - destruct (ts !! k) as [t|] eqn:Hl; [|done]. case_bool_decide as Hf; [done|]. intros [= <-].
    eapply runs; [done|done|]. by destruct (step i t w).
  - intros [= <-]. constructor.
  - destruct (Z.leb_spec 0 n) as [Hn|]; [|done]. intros [= <-]. constructor.
    rewrite <- (Qplus_0_r (clock w)) at 1. apply Qplus_le_r. change (inject_Z 0 <= inject_Z n)%Q. by rewrite <- Zle_Qle.
Qed.

Lemma play_reaches l v s : play l (fresh_system v) = Some s -> reachable s.
Proof.
  intros Hp. exists v. revert Hp. generalize (fresh_system v). induction l as [|e l IH]; intros s0; cbn [play].
  - intros [= <-]. apply rtc_refl.
  - destruct (happen e s0) as [s1|] eqn:E; [|done]. intros Hp. eapply rtc_l; [by apply happen_steps in E|by apply IH].
Qed.

Definition web (_ : string) : UrlGuard.answer := UrlGuard.Addresses [chars "93.184.216.34"].
Definition nonce : string := "123456789012".
Definition granted : reply :=
  Replied 200 (Some (VDict [("access_token", VStr "t-1"); ("refresh_token", VStr "r-1")])).
Definition draw (state uuid : string) (r : reply) : input := Input (web, web) state [1; 2; 3]%N r 7 uuid nonce.
Definition ann : scope := Integrations.Example.ann.
Definition q1 : login :=
  Login "acme" "github" ann (Some Integrations.BINDING_USER_PRIVATE) (Some "https://id.example/login") (Some "https://id.example/token")
    (Some "cid") (Some "shh") "repo user".
Definition nothing : vault := Integrations.Example.start.

(** A login from the request to the stored row. *)
Definition whole (state code uuid : string) (k : nat) (q : login) : list event :=
  [Arrive (Authorizing q); Run k (draw state "" granted); Run k (draw state "" granted); Pass 60; Arrive (Arrived state code);
   Run (S k) (draw "" "" granted); Run (S k) (draw "" "" granted); Run (S k) (draw "" "" granted);
   Run (S k) (draw "" "" granted); Run (S k) (draw "" uuid granted)].

Definition after (l : list event) (v : vault) : system := default (fresh_system v) (play l (fresh_system v)).
Definition done1 : system := after (whole "s-1" "c-1" "u-1" 0 q1) nothing.

Lemma reached l v : (if play l (fresh_system v) then true else false) = true -> reachable (after l v).
Proof. unfold after. destruct (play l _) as [s|] eqn:Hs; [|done]. by intros _; apply (play_reaches l v). Qed.

Example login_url : List.nth_error (threads done1) 0 = Some (Returned (Ok (LoginUrl
  ("https://id.example/login?response_type=code&client_id=cid&redirect_uri=https%3A%2F%2Fvoice.example%2Fapi%2Fv1%2Foauth%2Fcallback" +:+
   "&scope=repo+user&state=s-1&code_challenge=RElRQQ&code_challenge_method=S256")))).
Proof. vm_compute. done. Qed.

Notation origins s := (map g_origin (grants (now s))).
Definition rows_of (s : system) : list credential := Integrations.rows "acme" (Integrations.credentials (store (now s))).

(** The row of the login, and what it opens to. *)
Example login_row : map (fun c => (m_id c, Integrations.provider c, Integrations.binding c, Integrations.status c)) (rows_of done1) =
    [(Some "u-1", "github", Some Integrations.BINDING_USER_PRIVATE, Integrations.STATUS_ACTIVE)] /\
  map (unseal toy_open beyond) (rows_of done1) =
    [Some (VDict [("token", VStr "t-1"); ("refresh_token", VStr "r-1"); ("client_secret", VStr "shh")])].
Proof. vm_compute. done. Qed.

(** Two callbacks that both look the state up before either has deleted it both post
    their code. *)
Definition crossing : list event :=
  [Arrive (Authorizing q1); Run 0 (draw "s-1" "" granted); Run 0 (draw "s-1" "" granted);
   Arrive (Arrived "s-1" "c-1"); Arrive (Arrived "s-1" "c-2"); Run 1 (draw "" "" granted); Run 2 (draw "" "" granted);
   Run 1 (draw "" "" granted); Run 2 (draw "" "" granted); Run 1 (draw "" "" granted); Run 2 (draw "" "" granted)].

Lemma double_exchange : reachable (after crossing nothing) /\
  origins (after crossing nothing) = [ByCallback "s-1" "c-1"; ByCallback "s-1" "c-2"].
Proof. split; [apply reached; vm_compute; done|vm_compute; done]. Qed.

(** A registration of [ann], as [dcr_register] keeps it. *)
Definition registered (client_secret : string) : vault :=
  (Integrations.dcr_register (fun n => OAuth.seal toy_seal fr n) "acme" 3 "u-0" nonce "https://id.example" "github"
     (Some Integrations.BINDING_USER_PRIVATE) ann
     (Ok (Integrations.Registration "cid" client_secret
            [("authorization_endpoint", VStr "https://id.example/login"); ("token_endpoint", VStr "https://id.example/token")])) nothing).1.
Definition by_name : login := Login "acme" "github" ann (Some Integrations.BINDING_USER_PRIVATE) None None None None "".

(** A login that names only the provider takes the place of the registration it used:
    the next such login finds it incomplete. *)
Lemma relogin_loses_registration :
  let l := whole "s-1" "c-1" "u-1" 0 by_name in
  let s := after (l ++ [Arrive (Authorizing by_name); Run 2 (draw "s-2" "" granted)]) (registered "shh") in
  reachable s /\ threads s !! 1%nat = Some (Returned (Ok (LoggedIn "github"))) /\
  threads s !! 2%nat = Some (Returned (Err (Integrations.InvalidToolError "registration is incomplete"))).
Proof. split; [apply reached; vm_compute; done|vm_compute; done]. Qed.

(** A public client is registered with an empty secret, and cannot log in by name. *)
Lemma public_client_refused :
  known_client toy_open beyond base true by_name (registered "") = Err (Integrations.InvalidToolError "registration is incomplete") /\
  exists b c, known_client toy_open beyond base true by_name (registered "shh") = Ok (b, c).
Proof. split; vm_compute; [done|by eexists _, _]. Qed.

(** A refresh stores the row it read before the exchange: a suspension that comes
    between is undone. *)
Definition enforced (s : vault) : vault :=
  Integrations.serve "acme" (fun n => OAuth.seal toy_seal fr n) Integrations.Example.enforce s.
Definition refreshing (between : list event) : system :=
  after (whole "s-1" "c-1" "u-1" 0 q1 ++ [Arrive (Refreshing "acme" "u-1" ann); Run 2 (draw "" "" granted)] ++ between ++
         [Run 2 (draw "" "" granted); Run 2 (draw "" "" granted)]) nothing.

Lemma refresh_undoes_suspension :
  reachable (refreshing [Change enforced]) /\
  map Integrations.status (rows_of (after (whole "s-1" "c-1" "u-1" 0 q1 ++ [Change enforced]) nothing)) = [Integrations.STATUS_SUSPENDED] /\
  map Integrations.status (rows_of (refreshing [Change enforced])) = [Integrations.STATUS_ACTIVE].
Proof. split; [unfold refreshing; apply reached; vm_compute; done|vm_compute; done]. Qed.

Definition pinned : grant :=
  Grant (ByCallback "s-1" "c-1") "https://id.example/token"
    [("grant_type", "authorization_code"); ("code", "c-1"); ("redirect_uri", "https://voice.example/api/v1/oauth/callback");
     ("client_id", "cid"); ("code_verifier", "AQID")] (Some "Basic Y2lkOnNoaA==").
Lemma done1_grants : grants (now done1) = [pinned].
Proof. vm_compute. done. Qed.
Lemma done1_reachable : reachable done1.
Proof. unfold done1. apply reached. vm_compute. done. Qed.

Lemma exchange_pinned_witness : pinned ∈ grants (now done1) /\ exists m, m ∈ minted (now done1) /\ m_state m = "s-1" /\
  token_endpoint (m_client m) = "https://id.example/token" /\ m_verifier m = "AQID".
Proof.
  assert (Hg : pinned ∈ grants (now done1)) by (rewrite done1_grants; by apply list_elem_of_singleton).
  split; [exact Hg|].
  destruct (exchange_pinned toy_seal toy_open sha fr other beyond base true done1 pinned "s-1" "c-1" done1_reachable Hg eq_refl)
    as (m & Hm & Hs & Hu & _ & Hf & _).
  exists m. split; [exact Hm|]. split; [exact Hs|]. split; [by rewrite <- Hu|]. by injection Hf as _ ->.
Defined.

Definition waiting : system :=
  after [Arrive (Authorizing q1); Run 0 (draw "s-1" "" granted); Run 0 (draw "s-1" "" granted); Pass 60] nothing.

Lemma callback_single_use_witness : exists raw w' m,
  step (draw "" "" granted) (Arrived "s-1" "c-1") (now waiting) = (w', Fetched "s-1" "c-1" raw) /\
  m ∈ minted (now waiting) /\ m_state m = "s-1".
Proof.
  assert (Hr : reachable waiting) by (unfold waiting; apply reached; vm_compute; done).
  destruct (step (draw "" "" granted) (Arrived "s-1" "c-1") (now waiting)) as [w' t] eqn:Hs.
  assert (Ht : exists raw, t = Fetched "s-1" "c-1" raw).
  { apply (f_equal snd) in Hs. cbn [snd] in Hs. subst t. eexists. vm_compute. reflexivity. }
  destruct Ht as [raw ->]. exists raw, w'.
  destruct (callback_single_use toy_seal toy_open sha fr other beyond base true waiting _ _ _ _ _ Hr Hs) as (m & Hm & He & _).
  exists m. split; [exact eq_refl|]. split; [exact Hm|exact He].
Defined.

Lemma callback_reused : threads (after (whole "s-1" "c-1" "u-1" 0 q1 ++ [Arrive (Arrived "s-1" "c-2"); Run 2 (draw "" "" granted)]) nothing) !! 2%nat =
    Some (Returned (Err (Integrations.InvalidToolError "expired or unknown"))) /\
  threads (after [Arrive (Authorizing q1); Run 0 (draw "s-1" "" granted); Run 0 (draw "s-1" "" granted); Pass 600; Arrive (Arrived "s-1" "c-1");
                  Run 1 (draw "" "" granted)] nothing) !! 1%nat = Some (Returned (Err (Integrations.InvalidToolError "expired or unknown"))).
Proof. vm_compute. done. Qed.

Lemma login_lands_with_owner_witness : exists v m, v ∈ saves (now done1) /\ s_origin v = ByCallback "s-1" "c-1" /\
  m_state m = "s-1" /\ lands m (s_tenant v) (s_row v).
Proof.
  destruct (saves (now done1)) as [|v l] eqn:E; [exfalso; revert E; vm_compute; discriminate|].
  assert (Ho : s_origin v = ByCallback "s-1" "c-1").
  { assert (H : List.map s_origin (saves (now done1)) = [ByCallback "s-1" "c-1"]) by (vm_compute; done). rewrite E in H. by injection H. }
  assert (Hv : v ∈ saves (now done1)) by (rewrite E; by left).
  destruct (login_lands_with_owner toy_seal toy_open sha fr other beyond base true done1 v _ _ done1_reachable Hv Ho)
    as (m & _ & _ & Hs & _ & _ & _ & Hl).
  exists v, m. split; [by left|]. split; [exact Ho|]. split; [exact Hs|exact Hl].
Defined.

Definition renewed : input := Input (web, web) "" [] (Replied 200 (Some (VDict [("access_token", VStr "t-2")]))) 9 "" nonce.

Lemma refresh_exact_witness : exists r saved w',
  find_refreshable toy_open beyond "acme" "u-1" ann (store (now done1)) = Ok r /\
  solo toy_seal toy_open sha fr other beyond base true 3 renewed (Refreshing "acme" "u-1" ann) (now done1) =
    (w', Returned (Ok (Refreshed saved))) /\
  unseal toy_open beyond saved =
    Some (VDict [("token", VStr "t-2"); ("refresh_token", VStr "r-1"); ("client_secret", VStr "shh")]).
Proof.
  destruct (find_refreshable toy_open beyond "acme" "u-1" ann (store (now done1))) as [r|e] eqn:Hf;
    [|exfalso; revert Hf; vm_compute; discriminate].
  assert (Hm : r_material r = [("token", VStr "t-1"); ("refresh_token", VStr "r-1"); ("client_secret", VStr "shh")]).
  { assert (H : match find_refreshable toy_open beyond "acme" "u-1" ann (store (now done1)) with Ok r => r_material r | Err _ => [] end =
      [("token", VStr "t-1"); ("refresh_token", VStr "r-1"); ("client_secret", VStr "shh")]) by (vm_compute; done). by rewrite Hf in H. }
  assert (Hs : InMemory.store_ok (Integrations.credentials (store (now done1)))).
  { split; [apply (bool_decide_unpack _); vm_compute; exact I|]. intros k m. 
    assert (H : forallb (fun kr => match kr.2 with InMemory.Row m => bool_decide (m_id m = Some kr.1) | _ => true end)
                  (Integrations.credentials (store (now done1))) = true) by (vm_compute; done).
    intros Hd%dget_Some_elem. rewrite forallb_forall in H. apply list_elem_of_In in Hd. apply H in Hd. by apply bool_decide_eq_true in Hd. }
  destruct (refresh_exact toy_seal toy_open sha fr other beyond base true "acme" "u-1" ann renewed [("access_token", VStr "t-2")] r (now done1)
    Hs eq_refl eq_refl Hf eq_refl) as (saved & w' & Hrun & _ & _ & _ & Hu & _); [by rewrite Hm|done|by rewrite Hm|].
  exists r, saved, w'. split; [exact eq_refl|]. split; [exact Hrun|]. by rewrite Hu, Hm.
Defined.
End Example.
End OAuth.

