(* ===== verification/Dcr.v ===== *)
(** * Dynamic client registration (src/voiceai/modules/tools/dcr_service.py)

    [DcrService.discover] and [register_client], with every request they make: the three
    metadata documents in their order, and the registration itself. Name resolution and
    the servers' answers are arguments. What [dcr_register] of Integrations stores is
    made of the record. *)
From S2P Require Import Prelude PyText PyVal Repository Integrations Json UrlGuard Webhooks OAuth.
Open Scope Z_scope.
Open Scope voice_scope.

Module Dcr.
Notation material := (dict string val).
Notation reply := OAuth.reply.
Notation get_or := Webhooks.get_or.

Definition WELL_KNOWN_PROTECTED : string := "/.well-known/oauth-protected-resource".
Definition WELL_KNOWN_AUTH_SERVER : string := "/.well-known/oauth-authorization-server".
Definition WELL_KNOWN_OIDC : string := "/.well-known/openid-configuration".
Definition SUFFIXES : list string := [WELL_KNOWN_PROTECTED; WELL_KNOWN_AUTH_SERVER; WELL_KNOWN_OIDC].
Definition DCR_CLIENT_NAME : string := "otobaai-tools".

Record ClientRecord := Record_ {
  issuer_url : string; client_id : string; client_secret : option string;
  authorization_endpoint : option string; token_endpoint : option string }.

(** The texts of [ToolExecutionError]. *)
Inductive refusal : Type := Undiscoverable | NeedsManual | UnsafeEndpoint | Unreachable | Refused | NotJson | InvalidRecord.

Inductive request : Type := Get (url : string) | Post (url : string) (body : material).
Definition url_of (r : request) : string := match r with Get u => u | Post u _ => u end.

(** [_fetch_json] *)
Definition fetch_json (r : reply) : option material :=
  match r with
  | OAuth.Unreachable => None
  | OAuth.Replied status body =>
      if 400 <=? status then None else match body with Some (VDict d) => Some d | _ => None end
  end.

(** What makes a document useful. *)
Definition describes (d : material) : bool :=
  dhas "authorization_endpoint" d || dhas "token_endpoint" d || dhas "registration_endpoint" d.

(** The documents are asked for until one is useful. *)
Fixpoint first_useful (get : string -> reply) (urls : list string) : list request * option material :=
  match urls with
  | [] => ([], None)
  | u :: urls' =>
      match fetch_json (get u) with
      | Some d => if describes d then ([Get u], Some d)
                  else let (asked, found) := first_useful get urls' in (Get u :: asked, found)
      | None => let (asked, found) := first_useful get urls' in (Get u :: asked, found)
      end
  end.

Definition text_of (v : val) : option string := match v with VStr s => Some s | _ => None end.

Section service.
Context `{UrlGuard.Interpreter} (client_name : string) (redirect_uris : list string).

Definition discover (dns : string -> UrlGuard.answer) (get : string -> reply) (issuer : string) : list request * option material :=
  if negb (UrlGuard.is_safe_outbound_url dns issuer) then ([], None)
  else first_useful get (map (fun suffix => OAuth.rstrip_slash issuer +:+ suffix) SUFFIXES).

(** The body of the registration; empty callback URLs are left out. *)
Definition registration_body : material :=
  [("client_name", VStr client_name); ("grant_types", VList [VStr "authorization_code"; VStr "refresh_token"])] ++
  match List.filter str_true redirect_uris with [] => [] | l => [("redirect_uris", VList (map VStr l))] end.

(** The record of an accepted registration. *)
Definition record_of (issuer : string) (metadata payload : material) : result refusal ClientRecord :=
  match dget "client_id" payload with
  | Some (VStr id) =>
      if str_true id then
        Ok (Record_ issuer id (text_of (get_or "client_secret" VNone payload))
              (text_of (get_or "authorization_endpoint" VNone metadata)) (text_of (get_or "token_endpoint" VNone metadata)))
      else Err InvalidRecord
  | _ => Err InvalidRecord
  end.

Definition registered (issuer : string) (metadata : material) (r : reply) : result refusal ClientRecord :=
  match r with
  | OAuth.Unreachable => Err Unreachable
  | OAuth.Replied status body =>
      if 400 <=? status then Err Refused
      else match body with
           | None => Err NotJson
           | Some (VDict payload) => record_of issuer metadata payload
           | Some _ => Err InvalidRecord
           end
  end.

Definition register_client (dns dns' : string -> UrlGuard.answer) (get post : string -> reply) (issuer : string)
    : list request * result refusal ClientRecord :=
  match discover dns get issuer with
  | (asked, None) => (asked, Err Undiscoverable)
  | (asked, Some metadata) =>
      match get_or "registration_endpoint" VNone metadata with
      | VStr endpoint =>
          if negb (str_true endpoint) then (asked, Err NeedsManual)
          else if negb (UrlGuard.is_safe_outbound_url dns' endpoint) then (asked, Err UnsafeEndpoint)
          else (asked ++ [Post endpoint registration_body], registered issuer metadata (post endpoint))
      | _ => (asked, Err NeedsManual)
      end
  end.
End service.

(** What [IntegrationService.dcr_register] stores of a record. *)
Definition kept_endpoint (k : string) (o : option string) : material :=
  match o with Some s => if str_true s then [(k, VStr s)] else [] | None => [] end.
Definition registration_of (c : ClientRecord) : Integrations.registration :=
  Integrations.Registration (client_id c) (default "" (client_secret c))
    (kept_endpoint "authorization_endpoint" (authorization_endpoint c) ++ kept_endpoint "token_endpoint" (token_endpoint c)).

(** ** The host of a metadata document *)
Lemma rstrip_split s : exists k, chars s = chars (OAuth.rstrip_slash s) ++ repeat "/"%char k.
Proof.
  unfold OAuth.rstrip_slash. rewrite chars_of_chars. set (l := reverse (chars s)).
  assert (Hl : exists k, l = repeat "/"%char k ++ OAuth.lstrip_slash l).
  { induction l as [|c l [k IH]]; [by exists O|]. cbn [OAuth.lstrip_slash]. case_bool_decide as Hc; [|by exists O].
    exists (S k). cbn [repeat app]. rewrite <- IH. by subst. }
  destruct Hl as [k Hk]. exists k. assert (Hr : chars s = reverse l) by (subst l; by rewrite reverse_involutive).
  rewrite Hr, Hk at 1. rewrite reverse_app. f_equal. clear. induction k as [|k IH]; [done|].
  cbn [repeat]. rewrite reverse_cons, IH. clear IH. induction k as [|k IH]; [done|]. cbn [repeat app]. by rewrite IH.
Qed.

Lemma netloc_stops a c l : c ∈ ["/"%char; "?"%char; "#"%char] -> UrlGuard.take_netloc (a ++ c :: l) = UrlGuard.take_netloc a.
Proof.
  intros Hc. induction a as [|d a IH]; cbn [app UrlGuard.take_netloc]; [by rewrite decide_True|].
  case_decide; [done|]. by rewrite IH.
Qed.

(** Behind the host, a text can be swapped for one that begins with a slash. *)
Lemma netloc_tail a k l : UrlGuard.take_netloc (a ++ repeat "/"%char k) = UrlGuard.take_netloc (a ++ "/"%char :: l).
Proof.
  rewrite (netloc_stops a _ l) by by left. destruct k as [|k]; [by rewrite app_nil_r|]. cbn [repeat]. by rewrite netloc_stops by by left.
Qed.

Section host.
Context `{UrlGuard.Interpreter}.

Definition clean (l : text) : text :=
  List.filter (fun c => negb (bool_decide (UrlGuard.code c ∈ [9; 10; 13]%nat))) (UrlGuard.lstrip_c0 l).

Lemma lstrip_slash a l : UrlGuard.lstrip_c0 (a ++ "/"%char :: l) = UrlGuard.lstrip_c0 a ++ "/"%char :: l.
Proof. induction a as [|c a IH]; [done|]. cbn [app UrlGuard.lstrip_c0]. by destruct (_ <=? _)%nat. Qed.

Lemma clean_slash a l : clean (a ++ "/"%char :: l) =
  clean a ++ "/"%char :: List.filter (fun c => negb (bool_decide (UrlGuard.code c ∈ [9; 10; 13]%nat))) l.
Proof. unfold clean. by rewrite lstrip_slash, List.filter_app. Qed.

Lemma clean_slashes a k : clean (a ++ repeat "/"%char k) = clean a ++ repeat "/"%char k.
Proof.
  destruct k as [|k]; cbn [repeat]; [by rewrite !app_nil_r|]. rewrite clean_slash. do 2 f_equal.
  induction k as [|k IH]; [done|]. cbn [repeat List.filter]. by rewrite IH.
Qed.

(** [urlsplit] behind the cleaning. *)
Definition split_clean (url : text) : option UrlGuard.SplitResult :=
  let '(head, found, rest) := UrlGuard.partition ":"%char url in
  let named := found && match head with c :: _ => UrlGuard.is_alpha c | [] => false end && forallb UrlGuard.scheme_char head in
  let url := if named then rest else url in
  let scheme := if named then lower (of_chars head) else "" in
  match url with
  | "/"%char :: "/"%char :: l =>
      let loc := UrlGuard.take_netloc l in
      if negb (Bool.eqb (UrlGuard.has "["%char loc) (UrlGuard.has "]"%char loc)) then None
      else if UrlGuard.has "["%char loc && negb (UrlGuard.bracketed_ok loc) then None
      else Some (UrlGuard.Split scheme loc)
  | _ => Some (UrlGuard.Split scheme [])
  end.

Lemma urlsplit_clean s : UrlGuard.urlsplit s = split_clean (clean (chars s)).
Proof. done. Qed.

(** The part of the guard that needs no address. *)
Definition plausible (o : option UrlGuard.SplitResult) : Prop :=
  exists p host, o = Some p /\ UrlGuard.hostname p = Some host /\ lower (UrlGuard.scheme p) ∈ UrlGuard.SAFE_URL_SCHEMES.

Lemma safe_plausible dns url : UrlGuard.is_safe_outbound_url dns url = true -> plausible (UrlGuard.urlsplit url).
Proof.
  unfold UrlGuard.is_safe_outbound_url. destruct (UrlGuard.urlsplit url) as [p|]; [|done].
  destruct (UrlGuard.hostname p) as [host|] eqn:Hh; [|done]. case_bool_decide as Hs; [|done]. intros _. by exists p, host.
Qed.

Lemma no_host scheme : ~ plausible (Some (UrlGuard.Split scheme [])).
Proof. intros (p & host & [= <-] & Hh & _). discriminate Hh. Qed.

Lemma no_scheme loc : ~ plausible (Some (UrlGuard.Split "" loc)).
Proof. intros (p & host & [= <-] & _ & Hs). revert Hs. apply (bool_decide_unpack _). by vm_compute. Qed.

Lemma unnamed_implausible url : ~ plausible
  match url with
  | "/"%char :: "/"%char :: l =>
      let loc := UrlGuard.take_netloc l in
      if negb (Bool.eqb (UrlGuard.has "["%char loc) (UrlGuard.has "]"%char loc)) then None
      else if UrlGuard.has "["%char loc && negb (UrlGuard.bracketed_ok loc) then None
      else Some (UrlGuard.Split "" loc)
  | _ => Some (UrlGuard.Split "" [])
  end.
Proof.
  assert (Hn : ~ plausible None) by by intros (? & ? & ? & _).
  cbv zeta. repeat case_match; first [apply no_scheme|exact Hn].
Qed.

(** A plausible URL keeps its scheme and host when what follows the host changes. *)
Lemma split_tail a k l : plausible (split_clean (a ++ repeat "/"%char k)) ->
  split_clean (a ++ "/"%char :: l) = split_clean (a ++ repeat "/"%char k).
Proof.
  unfold split_clean. destruct (decide (":"%char ∈ a)) as [Hin|Hout].
  2: { rewrite UrlGuard.partition_none; [intros Hp; by apply unnamed_implausible in Hp|].
       rewrite elem_of_app. intros [?|Hin]; [done|]. by apply list_elem_of_In, repeat_spec in Hin. }
  apply list_elem_of_split_l in Hin as (h & r & -> & Hh). rewrite <- !app_assoc, <- !app_comm_cons, !UrlGuard.partition_app by done.
  destruct (true && _ && _); [|intros Hp; by apply unnamed_implausible in Hp].
  assert (Hslash : forall n, UrlGuard.take_netloc (repeat "/"%char n) = []) by by intros [].
  destruct r as [|c [|d r]].
  - destruct k as [|[|k]]; cbn [app repeat]; [intros Hp; by apply no_host in Hp..|]. rewrite Hslash. intros Hp. by apply no_host in Hp.
  - destruct k as [|k]; cbn [app repeat].
    + intros Hp. exfalso. revert Hp. destruct c as [[] [] [] [] [] [] [] []]; apply no_host.
    + rewrite Hslash. intros Hp. exfalso. revert Hp. destruct c as [[] [] [] [] [] [] [] []]; apply no_host.
  - cbn [app]. rewrite (netloc_tail r k l). intros Hp. 
    destruct (decide (c = "/"%char /\ d = "/"%char)) as [[-> ->]|Hn]; [done|]. exfalso. revert Hp.
    assert (He : forall (x y : option UrlGuard.SplitResult), match c :: d :: r ++ repeat "/"%char k with
      | "/"%char :: "/"%char :: _ => x | _ => y end = y).
    { intros x y. destruct (decide (c = "/"%char)) as [->|Hc].
      - destruct d as [[] [] [] [] [] [] [] []]; try done. by destruct Hn.
      - destruct c as [[] [] [] [] [] [] [] []]; try done. }
    cbv zeta. rewrite He. apply no_host.
Qed.

(** What passes the guard passes it with a well-known path behind it, for the same
    names: the host that is asked is the host that was checked. *)
Lemma document_safe dns issuer suffix : UrlGuard.is_safe_outbound_url dns issuer = true -> suffix ∈ SUFFIXES ->
  UrlGuard.is_safe_outbound_url dns (OAuth.rstrip_slash issuer +:+ suffix) = true.
Proof.
  intros Hs Hin. assert (Hx : exists l, chars suffix = "/"%char :: l).
  { repeat (apply elem_of_cons in Hin as [->|Hin]; [by eexists|]). by apply elem_of_nil in Hin. }
  destruct Hx as [x Hx]. destruct (rstrip_split issuer) as [k Hk].
  assert (Hu : UrlGuard.urlsplit (OAuth.rstrip_slash issuer +:+ suffix) = UrlGuard.urlsplit issuer).
  { pose proof (safe_plausible _ _ Hs) as Hp. rewrite urlsplit_clean in Hp |- *. rewrite urlsplit_clean.
    rewrite Hk, clean_slashes in Hp |- *. rewrite chars_app, Hx, clean_slash. by apply split_tail. }
  revert Hs. unfold UrlGuard.is_safe_outbound_url. by rewrite Hu.
Qed.

(** ** What a registration asks for *)
Lemma useful_asked get urls asked found : first_useful get urls = (asked, found) ->
  exists n, asked = map Get (take n urls) /\ (forall d, found = Some d -> describes d = true).
Proof.
  revert asked found. induction urls as [|u urls IH]; intros asked found; cbn [first_useful]; [intros [= <- <-]; by exists O|].
  assert (Hgo : forall a f, first_useful get urls = (a, f) -> (Get u :: a, f) = (asked, found) ->
    exists n, asked = map Get (take n (u :: urls)) /\ (forall d, found = Some d -> describes d = true)).
  { intros a f Hf [= <- <-]. apply IH in Hf as (n & -> & Hd). by exists (S n). }
  destruct (fetch_json (get u)) as [d|]; [destruct (describes d) eqn:Hd; [intros [= <- <-]; exists 1%nat; naive_solver|]|];
    destruct (first_useful get urls) as [a f]; by apply Hgo.
Qed.

Lemma registered_Ok issuer metadata r c : registered issuer metadata r = Ok c ->
  issuer_url c = issuer /\ client_id c <> "" /\ exists status payload, r = OAuth.Replied status (Some (VDict payload)) /\
    status < 400 /\ dget "client_id" payload = Some (VStr (client_id c)).
Proof.
  unfold registered. destruct r as [|status body]; [done|]. destruct (Z.leb_spec 400 status) as [|Hl]; [done|].
  destruct body as [[| | | | | |payload]|]; try done. unfold record_of.
  destruct (dget "client_id" payload) as [[| | | |id| |]|] eqn:Hd; try done. destruct (str_true id) eqn:Hi; [|done].
  intros [= <-]. split; [done|]. split; [by intros E; cbn in E; subst id|]. by exists status, payload.
Qed.

Context (client_name : string) (redirect_uris : list string).
Notation register_client := (register_client client_name redirect_uris).

(** Registration sends nothing to a URL that the guard refuses: the documents are asked
    for in their order, on the host of the issuer that was checked; at most one
    registration is posted, last, to an endpoint that was checked itself; and a client
    comes only of a posted registration that was accepted. *)
Theorem registration_guarded dns dns' get post issuer asked o : register_client dns dns' get post issuer = (asked, o) ->
  exists n posted, asked = map Get (take n (map (fun suffix => OAuth.rstrip_slash issuer +:+ suffix) SUFFIXES)) ++ posted /\
    (forall u, Get u ∈ asked -> UrlGuard.is_safe_outbound_url dns issuer = true /\ UrlGuard.is_safe_outbound_url dns u = true) /\
    match posted with
    | [] => forall c, o <> Ok c
    | [Post u body] => UrlGuard.is_safe_outbound_url dns' u = true /\ body = registration_body client_name redirect_uris /\
        forall c, o = Ok c -> issuer_url c = issuer /\ client_id c <> "" /\
          exists status payload, post u = OAuth.Replied status (Some (VDict payload)) /\ status < 400 /\
            dget "client_id" payload = Some (VStr (client_id c))
    | _ => False
    end.
Proof.
  unfold Dcr.register_client, discover. destruct (UrlGuard.is_safe_outbound_url dns issuer) eqn:Hs; cbn [negb].
  2: { intros [= <- <-]. exists O, []. split_and!; try done. intros u Hu. by apply elem_of_nil in Hu. }
  destruct (first_useful _ _) as [gets found] eqn:Hf. apply useful_asked in Hf as (n & -> & _).
  set (urls := map _ SUFFIXES) in *.
  assert (Hg : forall u, Get u ∈ map Get (take n urls) -> true = true /\ UrlGuard.is_safe_outbound_url dns u = true).
  { intros u (? & [= <-] & Hu)%list_elem_of_fmap. split; [done|]. apply elem_of_take in Hu as (j & Hj & _).
    apply list_elem_of_lookup_2, list_elem_of_fmap in Hj as (suffix & -> & Hin). by apply document_safe. }
  destruct found as [metadata|]; [|intros [= <- <-]; exists n, []; by rewrite app_nil_r].
  destruct (get_or "registration_endpoint" VNone metadata) as [| | | |endpoint| |];
    try (intros [= <- <-]; exists n, []; by rewrite app_nil_r).
  destruct (str_true endpoint); [|intros [= <- <-]; exists n, []; by rewrite app_nil_r].
  destruct (UrlGuard.is_safe_outbound_url dns' endpoint) eqn:He; [|intros [= <- <-]; exists n, []; by rewrite app_nil_r].
  intros [= <- <-]. exists n, [Post endpoint (registration_body client_name redirect_uris)]. split; [done|].
  split; [intros u [Hu|Hu%list_elem_of_singleton]%elem_of_app; [by apply Hg|done]|]. split; [done|]. split; [done|].
  intros c. apply registered_Ok.
Qed.
End host.

(** ** A registration *)
Module Example.
Import UrlGuard.Example.
Definition web (_ : string) : UrlGuard.answer := UrlGuard.Addresses [chars "93.184.216.34"].
Definition documents (url : string) : reply :=
  if bool_decide (url = "https://id.example/.well-known/oauth-authorization-server")
  then OAuth.Replied 200 (Some (VDict [("token_endpoint", VStr "https://id.example/token"); ("registration_endpoint", VStr "https://id.example/register")]))
  else OAuth.Replied 404 None.
Definition accepted (_ : string) : reply := OAuth.Replied 201 (Some (VDict [("client_id", VStr "cid-9")])).
Definition run := register_client DCR_CLIENT_NAME ["https://voice.example/api/v1/oauth/callback"; ""] web web documents accepted "https://id.example/".

Lemma registration_guarded_witness : map url_of run.1 =
    ["https://id.example/.well-known/oauth-protected-resource"; "https://id.example/.well-known/oauth-authorization-server"; "https://id.example/register"] /\
  run.2 = Ok (Record_ "https://id.example/" "cid-9" None None (Some "https://id.example/token")) /\
  forall u, Get u ∈ run.1 -> UrlGuard.is_safe_outbound_url web u = true.
Proof.
  split; [by vm_compute|]. split; [by vm_compute|].
  destruct (registration_guarded DCR_CLIENT_NAME _ web web documents accepted "https://id.example/" run.1 run.2 (surjective_pairing _))
    as (n & posted & _ & Hg & _).
  intros u Hu. by apply Hg.
Defined.

(** An issuer that names no login page is registered, but cannot be logged in by name. *)
Example kept : registration_of (Record_ "https://id.example/" "cid-9" None None (Some "https://id.example/token")) =
  Integrations.Registration "cid-9" "" [("token_endpoint", VStr "https://id.example/token")].
Proof. done. Qed.
End Example.
End Dcr.
