(* ===== verification/Listener.v ===== *)
(** * Transcript listener
    (src/voiceai/modules/voice/session/turn/transcript_listener/consumer.py, router.py,
    llm.py, regen.py, predicates.py; history_sync.py inflight_response_activity and
    cleanup_downstream_tasks; language/switcher.py spawn_language_switch_decision;
    hangup.py should_ignore_transcriber_input)

    What a message of the transcriber does to the turns of the call: the barge-ins,
    the finals, the speculative turn of an eager end of turn, the settle window in
    which a final that overlaps a reply is merged, and the tasks these start and
    cancel. The asyncio tasks are numbered; the loop's books say which have not ended
    and which have been cancelled, and a cancelled task counts as running until it
    has ended. At every wait the other tasks of the call may move what the session
    shares, and tasks may end, fail or, for the settle timer, fire ([act]). *)
From S2P Require Import Prelude PyText PyVal Marks History HistorySync Interruption Voicemail CallScreening UrlGuard ToolCalls Webhooks Transfer Turn.
From Stdlib Require Import QArith.QArith.
From stdpp Require Import gmap fin_sets.
Close Scope Q_scope.
Open Scope Z_scope.
Open Scope voice_scope.

Module Listener.
Notation meta := (dict string val).
Notation mget := Turn.mget.

(** ** State *)

(** What the listener's tasks share with the other tasks of the call. *)
Record shared := Shared {
  turn : Turn.session;
  audio_playing : bool;
  welcome_message_played : bool;
  voicemail_handler : VoicemailHandler.handler }.

Inductive kind : Type := KLLM | KOutput | KSettle | KSynth | KFirst.
#[global] Instance kind_eq_dec : EqDecision kind. Proof. solve_decision. Defined.

(** The event loop's books: the tasks that have not ended, those of which [cancel]
    was called before they ended, and the number of the next; and, for the theorems,
    whether a reply has torn the call down from inside its own task. *)
Record loop := Loop { running : gmap nat kind; cancelled : gset nat; next_task : nat; left_by_reply : bool }.

Record tasks := Tasks {
  llm_task : option nat;
  eager_llm_task : option nat;
  output_task : option nat;
  first_message_task : option nat;
  synthesizer_tasks : list nat;
  regen_settle_task : option nat;
  regen_settle_payload : option (string * meta);
  books : loop }.

Record requests := Requests {
  current_request_id : val; previous_request_id : val;
  llm_processed_request_ids : list val; llm_rejected_request_ids : list val;
  call_sid : val; stream_sid : val }.

Record fate := Fate {
  component_error : option string;
  end_of_conversation_in_progress : bool;
  transcriber_error_events : list (bool * val * Q);
  transcriber_duration : Q }.

(** The listener's own: the last of them is the local of its loop. *)
Record desk := Desk {
  eager_meta_info : option meta;
  eager_history_snapshot : option nat;
  inflight_llm_asr_turn_id : val;
  speech_started_before_welcome : bool;
  user_spoke : bool;
  time_since_last_spoken_human_word : Q;
  transcriber_message : string;
  temp_transcriber_message : string }.

Record session := Session { sh : shared; tk : tasks; dk : desk; rq : requests; ft : fate }.

Definition on_sh g (s : session) := Session (g (sh s)) (tk s) (dk s) (rq s) (ft s).
Definition on_tk g (s : session) := Session (sh s) (g (tk s)) (dk s) (rq s) (ft s).
Definition on_dk g (s : session) := Session (sh s) (tk s) (g (dk s)) (rq s) (ft s).
Definition on_rq g (s : session) := Session (sh s) (tk s) (dk s) (g (rq s)) (ft s).
Definition on_ft g (s : session) := Session (sh s) (tk s) (dk s) (rq s) (g (ft s)).

Definition set_turn x (h : shared) := Shared x (audio_playing h) (welcome_message_played h) (voicemail_handler h).
Definition set_playing x (h : shared) := Shared (turn h) x (welcome_message_played h) (voicemail_handler h).
Definition set_welcome x (h : shared) := Shared (turn h) (audio_playing h) x (voicemail_handler h).
Definition set_voicemail x (h : shared) := Shared (turn h) (audio_playing h) (welcome_message_played h) x.

Definition set_llm x (t : tasks) := Tasks x (eager_llm_task t) (output_task t) (first_message_task t) (synthesizer_tasks t)
  (regen_settle_task t) (regen_settle_payload t) (books t).
Definition set_eager x (t : tasks) := Tasks (llm_task t) x (output_task t) (first_message_task t) (synthesizer_tasks t)
  (regen_settle_task t) (regen_settle_payload t) (books t).
Definition set_output x (t : tasks) := Tasks (llm_task t) (eager_llm_task t) x (first_message_task t) (synthesizer_tasks t)
  (regen_settle_task t) (regen_settle_payload t) (books t).
Definition set_first x (t : tasks) := Tasks (llm_task t) (eager_llm_task t) (output_task t) x (synthesizer_tasks t)
  (regen_settle_task t) (regen_settle_payload t) (books t).
Definition set_synths x (t : tasks) := Tasks (llm_task t) (eager_llm_task t) (output_task t) (first_message_task t) x
  (regen_settle_task t) (regen_settle_payload t) (books t).
Definition set_settle x (t : tasks) := Tasks (llm_task t) (eager_llm_task t) (output_task t) (first_message_task t)
  (synthesizer_tasks t) x (regen_settle_payload t) (books t).
Definition set_payload x (t : tasks) := Tasks (llm_task t) (eager_llm_task t) (output_task t) (first_message_task t)
  (synthesizer_tasks t) (regen_settle_task t) x (books t).
Definition set_books x (t : tasks) := Tasks (llm_task t) (eager_llm_task t) (output_task t) (first_message_task t)
  (synthesizer_tasks t) (regen_settle_task t) (regen_settle_payload t) x.

Definition set_speculation m n (d : desk) := Desk m n (inflight_llm_asr_turn_id d) (speech_started_before_welcome d)
  (user_spoke d) (time_since_last_spoken_human_word d) (transcriber_message d) (temp_transcriber_message d).
Definition set_inflight x (d : desk) := Desk (eager_meta_info d) (eager_history_snapshot d) x (speech_started_before_welcome d)
  (user_spoke d) (time_since_last_spoken_human_word d) (transcriber_message d) (temp_transcriber_message d).
Definition set_early x (d : desk) := Desk (eager_meta_info d) (eager_history_snapshot d) (inflight_llm_asr_turn_id d) x
  (user_spoke d) (time_since_last_spoken_human_word d) (transcriber_message d) (temp_transcriber_message d).
Definition set_spoke (d : desk) := Desk (eager_meta_info d) (eager_history_snapshot d) (inflight_llm_asr_turn_id d)
  (speech_started_before_welcome d) true (time_since_last_spoken_human_word d) (transcriber_message d) (temp_transcriber_message d).
Definition set_word x (d : desk) := Desk (eager_meta_info d) (eager_history_snapshot d) (inflight_llm_asr_turn_id d)
  (speech_started_before_welcome d) (user_spoke d) x (transcriber_message d) (temp_transcriber_message d).
Definition set_held x (d : desk) := Desk (eager_meta_info d) (eager_history_snapshot d) (inflight_llm_asr_turn_id d)
  (speech_started_before_welcome d) (user_spoke d) (time_since_last_spoken_human_word d) x (temp_transcriber_message d).
Definition set_temp x (d : desk) := Desk (eager_meta_info d) (eager_history_snapshot d) (inflight_llm_asr_turn_id d)
  (speech_started_before_welcome d) (user_spoke d) (time_since_last_spoken_human_word d) (transcriber_message d) x.

Definition set_sids c t (r : requests) := Requests (current_request_id r) (previous_request_id r) (llm_processed_request_ids r)
  (llm_rejected_request_ids r) c t.
Definition set_request c p rej (r : requests) := Requests c p (llm_processed_request_ids r) rej (call_sid r) (stream_sid r).

Definition set_error x (f : fate) := Fate x (end_of_conversation_in_progress f) (transcriber_error_events f) (transcriber_duration f).
Definition add_event x (f : fate) :=
  Fate (component_error f) (end_of_conversation_in_progress f) (transcriber_error_events f ++ [x]) (transcriber_duration f).
Definition add_duration q (f : fate) :=
  Fate (component_error f) (end_of_conversation_in_progress f) (transcriber_error_events f) (transcriber_duration f + q)%Q.

Definition is_some {A} (o : option A) : bool := match o with Some _ => true | None => false end.

(** ** The event loop *)
Definition is_running (n : nat) (b : loop) : bool := bool_decide (is_Some (running b !! n)).
(** [create_task] *)
Definition start (k : kind) (b : loop) : loop := Loop (<[next_task b := k]> (running b)) (cancelled b) (S (next_task b)) (left_by_reply b).
(** [cancel]: nothing happens to a task that is done. *)
Definition cancel (n : nat) (b : loop) : loop :=
  if is_running n b then Loop (running b) ({[ n ]} ∪ cancelled b) (next_task b) (left_by_reply b) else b.
Definition finish (n : nat) (b : loop) : loop := Loop (delete n (running b)) (cancelled b) (next_task b) (left_by_reply b).
Definition leave (b : loop) : loop := Loop (running b) (cancelled b) (next_task b) true.
(** A task of a kind that runs and is not to be cancelled. *)
Definition lives (k : kind) (n : nat) (b : loop) : bool :=
  bool_decide (running b !! n = Some k) && negb (bool_decide (n ∈ cancelled b)).
(** [task is not None and not task.done()] *)
Definition pending (o : option nat) (b : loop) : bool := match o with Some n => is_running n b | None => false end.

Definition pipe_of (s : session) : Turn.pipeline := Turn.pipe (turn (sh s)).
Definition manager_of (s : session) : Interruption.manager := Turn.manager (turn (sh s)).
Definition history_of (s : session) : History.history := Turn.history_of (turn (sh s)).
Definition rows (s : session) : list msg := History.messages (history_of s).
Definition on_turn g : session -> session := on_sh (fun h => set_turn (g (turn h)) h).
Definition on_manager (g : Interruption.manager -> Interruption.manager) : session -> session :=
  on_turn (fun t => Turn.set_manager (g (Turn.manager t)) (Turn.response_turn_id t) t).
Definition on_hist g : session -> session := on_turn (fun t => Turn.set_hist (g (Turn.hist t)) t).
Definition set_rows (l : list msg) : session -> session :=
  on_turn (fun t => Turn.set_history (History.mkHistory l (History.interim (Turn.history_of t))) t).
Definition set_pipeline (b : bool) : session -> session := on_turn (fun t =>
  let p := Turn.pipe t in
  Turn.set_pipe (Turn.Pipeline b (Turn.awaiting_first_audio p) (Turn.function_call_in_flight p) (Turn.end_call_in_progress p)
    (Turn.call_hangup_message_config p)) t).

(** [regen_settle_armed] *)
Definition regen_settle_armed (s : session) : bool := pending (regen_settle_task (tk s)) (books (tk s)).

(** [should_ignore_transcriber_input] (hangup.py) *)
Definition should_ignore_transcriber_input (s : session) : bool :=
  let t := turn (sh s) in
  Turn.hangup_triggered (Turn.others t) || Turn.end_call_in_progress (Turn.pipe t) || Transfer.has_transfer (Turn.calls t).

(** [any(inflight_response_activity(exclude).values())] (history_sync.py) *)
Definition inflight_response_activity (exclude : option Z) (s : session) : bool :=
  Turn.response_in_pipeline (pipe_of s) || audio_playing (sh s)
  || HistorySync.has_interruptible_mark_activity (HistorySync.mark_event_meta_data (Turn.hist (turn (sh s))))
  || Interruption.has_pending_responses_excluding exclude (manager_of s)
  || (pending (llm_task (tk s)) (books (tk s)) || Turn.function_call_task (turn (sh s))).

Record config := Config {
  discard_pre_welcome_utterance : bool;
  incremental_delay : Z;
  number_of_words_for_interruption : Z;
  pipelines : list (list string);
  pool : bool;
  language_switcher : bool;
  conversation_start_init_ts : Q;
  turns : Turn.config }.

(** ** What the transcriber says *)

(** [Text]: a plain string; the others are dictionaries, [Control] of a type the
    listener has no branch for. *)
Inductive data : Type :=
| Text (s : string)
| Interim (content : string)
| EagerEnd (content : string) (confidence : option Q)
| Resumed
| Final (content : string) (was_eager : bool)
| SpeechEnded
| Control (type_ : string).

Record message := Message { body : data; meta_info : option meta }.

Definition SPEECH_STARTED : string := "speech_started".
Definition SPEECH_ENDED : string := "speech_ended".
Definition CONNECTION_CLOSED : string := "transcriber_connection_closed".
Definition is_closed (d : data) : bool := match d with Text s => bool_decide (s = CONNECTION_CLOSED) | _ => false end.

(** ** What it does, and what it is answered *)
Inductive wait : Type := WQueue | WOutput | WSynth | WCollect | WLanguage | WHealth | WEnd | WReconnect | WSleep.

Inductive event : Type :=
| Sub (e : Turn.event)
| EWait (w : wait)
| EGenerate (n : nat) (text : string) (m : meta)
| EStart (n : nat) (k : kind)
| ECancel (n : nat)
| EDropped (reason : string)
| ECleanup
| EOutputReset
| EVoicemail (text : string) (final : bool)
| ESwitchDecision (text : string) (m : meta)
| ECollect (text : string)
| ELanguage (code : val)
| EHealth
| EEndConversation.

Definition trace := list event.

(** What the other tasks do while the listener waits, one stretch between two of their
    waits at a time: they move what is shared, or note something on the desk; a task ends,
    or fails with an exception; the settle timer runs out; the end of the call cuts the
    generation ([Cuts], with the task that runs it); a language switch or a hang-up runs
    [cleanup_downstream_tasks], whose two stretches that touch tasks are [Revokes] and
    [Sweeps]; a silence or an event starts a generation of its own ([Injects]).

    The task of the keypad (session/dtmf.py) and the one that speaks the accumulated first
    message run [handle_transcriber_output] themselves: up to its last stretch they move,
    note, revoke and sweep; that one is [Routes]. *)
Inductive act : Type :=
| Moves (g : shared -> shared)
| Notes (g : desk -> desk)
| Ends (n : nat)
| Fails (n : nat) (error : string)
| Fires (n : nat)
| Cuts (current : option nat)
| Revokes
| Sweeps
| Injects (row : bool) (text : string) (m : meta)
| Routes (next_task : option string) (overlapped : bool) (text : string) (m : meta).

Record environment := Environment {
  l_acts : trace -> list act;
  l_cancelled : trace -> bool;
  l_clock : trace -> Q;
  l_turn : Turn.environment;
  l_transcriber_meta : trace -> meta;
  l_asr_turn : trace -> option Z;
  l_eager_eot_threshold : trace -> option Q;
  l_settles : trace -> bool;
  l_active_alive : trace -> bool;
  l_reconnects : trace -> bool;
  l_sets_language : bool }.

Definition M := SE (session * trace) Turn.error.

Section listener.
Context (L : environment) (f : config).

Definition get : M session := fun st => (st, Ok st.1).
Definition asks {A} (g : trace -> A) : M A := fun st => (st, Ok (g st.2)).
Definition clock : M Q := asks (l_clock L).
Definition modify (g : session -> session) : M unit := fun st => ((g st.1, st.2), Ok tt).
Definition say (e : event) : M unit := fun st => ((st.1, st.2 ++ [e]), Ok tt).
Definition ret {A} (a : A) : M A := se_ret a.
Definition raise {A} (e : ToolCalls.exn) : M A := se_raise (Turn.Python e).
Definition when (b : bool) (c : M unit) : M unit := if b then c else ret tt.
Definition timed (g : Q -> session -> session) : M unit := now <- clock ;; modify (g now).

Definition of_history (e : history_error) : ToolCalls.exn :=
  match e with KeyError _ => ToolCalls.KeyError | AttributeError => ToolCalls.AttributeError | HistoryTypeError => ToolCalls.TypeError end.
Definition of_python (e : PyVal.exn) : Turn.error :=
  match e with PyVal.TypeError => Turn.Python ToolCalls.TypeError | PyVal.ValueError => Turn.Python ToolCalls.ValueError
             | PyVal.OverflowError => Turn.Raised "OverflowError" end.
Definition from_history {A} (r : result history_error A) : M A :=
  match r with Ok a => ret a | Err e => raise (of_history e) end.

(** ** Tasks *)
Definition create_task (k : kind) : M nat := fun st =>
  let n := next_task (books (tk st.1)) in
  ((on_tk (fun t => set_books (start k (books t)) t) st.1, st.2 ++ [EStart n k]), Ok n).

Definition cancel_task (n : nat) : M unit :=
  modify (on_tk (fun t => set_books (cancel n (books t)) t)) ;;; say (ECancel n).

(** [if task is not None: task.cancel(); task = None] *)
Definition cancel_and_clear (field : tasks -> option nat) (clear : tasks -> tasks) : M unit :=
  s <- get ;;
  match field (tk s) with
  | Some n => cancel_task n ;;; modify (on_tk clear)
  | None => ret tt
  end.

(** [create_task(_run_llm_task(create_ws_data_packet(text, meta)))] *)
Definition spawn_generation (text : string) (m : meta) : M nat :=
  n <- create_task KLLM ;; say (EGenerate n text m) ;;; ret n.

(** [self.output_task = create_task(process_output_loop())] *)
Definition start_output_loop : M unit := n <- create_task KOutput ;; modify (on_tk (set_output (Some n))).

(** [drop_all_staged_assistant_history], with nothing kept *)
Definition drop_all_staged (h : HistorySync.session) : HistorySync.session :=
  foldl (fun h q => HistorySync.drop_staged_assistant_history q h) h (map fst (HistorySync.pending_assistant_history h)).

Definition asr_turn_of (m : meta) : M val :=
  match CallScreening.asr_id_to_int (mget "asr_turn_id" m) with
  | Ok v => ret v
  | Err e => fun st => (st, Err (of_python e))
  end.

(** [meta_info["sequence_id"]] *)
Definition sequence_of (m : meta) : M Z :=
  match Turn.meta_int "sequence_id" m with Some q => ret q | None => raise ToolCalls.KeyError end.

(** [spawn_language_switch_decision] (switcher.py): its task and the playback gate are the
    switcher's. *)
Definition spawn_language_switch_decision (text : string) (m : meta) : M unit :=
  when (language_switcher f) (say (ESwitchDecision text m)).

(** [kickoff_llm_generation] (llm.py) *)
Definition keeps_in_flight (asr : val) (s : session) : bool :=
  pending (llm_task (tk s)) (books (tk s)) && negb (Turn.is_none asr)
  && negb (Turn.is_none (inflight_llm_asr_turn_id (dk s))) && val_eqb asr (inflight_llm_asr_turn_id (dk s)).

(** What runs is cancelled, and the new turn's sequence validated again. *)
Definition cancel_generation (m : meta) : M unit :=
  s <- get ;;
  when (pending (llm_task (tk s)) (books (tk s)))
    (cancel_and_clear llm_task (set_llm None) ;;;
     modify (on_manager Interruption.invalidate_pending_responses) ;;;
     modify (on_hist drop_all_staged) ;;;
     q <- sequence_of m ;;
     modify (on_manager (Interruption.revalidate_sequence_id q))).

Definition generate (asr : val) (text : string) (m : meta) : M unit :=
  q <- sequence_of m ;;
  modify (on_manager (Interruption.revalidate_sequence_id q)) ;;;
  modify (set_pipeline true) ;;;
  modify (on_dk (set_inflight asr)) ;;;
  spawn_language_switch_decision text m ;;;
  n <- spawn_generation text m ;;
  modify (on_tk (set_llm (Some n))).

Definition kickoff_llm_generation (text : string) (m : meta) : M unit :=
  asr <- asr_turn_of m ;;
  s <- get ;;
  if keeps_in_flight asr s then ret tt else cancel_generation m ;;; generate asr text m.

(** [arm_regen_settle] *)
Definition arm_regen_settle (text : string) (m : meta) : M unit :=
  s <- get ;;
  when (regen_settle_armed s) (match regen_settle_task (tk s) with Some n => cancel_task n | None => ret tt end) ;;;
  modify (on_tk (set_payload (Some (text, m)))) ;;;
  n <- create_task KSettle ;;
  modify (on_tk (set_settle (Some n))).

(** [regen_after_settle], once the window is over. *)
Definition regen_after_settle : M unit :=
  s <- get ;;
  modify (on_tk (set_payload None)) ;;;
  match regen_settle_payload (tk s) with
  | None => ret tt
  | Some (text, m) => kickoff_llm_generation text m
  end.

(** A piece of the turn's own code. *)
Definition subs (tr : trace) : Turn.trace := omap (fun e => match e with Sub e => Some e | _ => None end) tr.
Definition run_turn {A} (c : Turn.M A) : M A := fun st =>
  let '((t, tr), r) := c (turn (sh st.1), subs st.2) in
  ((on_sh (set_turn t) st.1, st.2 ++ map Sub (drop (length (subs st.2)) tr)), r).

(** [get_updated_meta_info] (meta_info.py); it does not wait. *)
Definition get_updated_meta_info (m : option meta) : M meta :=
  seed <- asks (l_transcriber_meta L) ;;
  run_turn (Turn.get_updated_meta_info (l_turn L) (default seed m)).

(** ** Barge-in *)
Definition reset_response_heard_by_user (h : HistorySync.session) : HistorySync.session :=
  HistorySync.mkSession (HistorySync.conversation_history h) (HistorySync.mark_event_meta_data h)
    (HistorySync.mkInput [] [] None None "" (HistorySync.current_mark_started_time (HistorySync.input h)))
    (HistorySync.turn_msg_map h) (HistorySync.interruption_hint h) (HistorySync.pending_assistant_history h)
    (HistorySync.committed_assistant_sequences h) (HistorySync.sent_audio_sequences h) (HistorySync.blocked_sequences h).
Definition on_marks g (h : HistorySync.session) : HistorySync.session :=
  HistorySync.mkSession (HistorySync.conversation_history h) (g (HistorySync.mark_event_meta_data h)) (HistorySync.input h)
    (HistorySync.turn_msg_map h) (HistorySync.interruption_hint h) (HistorySync.pending_assistant_history h)
    (HistorySync.committed_assistant_sequences h) (HistorySync.sent_audio_sequences h) (HistorySync.blocked_sequences h).

Definition sync_heard (at_time : Q) (h : HistorySync.session) : HistorySync.session :=
  HistorySync.sync_history (Marks.fetch_cleared_mark_event_data (HistorySync.mark_event_meta_data h)) at_time false h.

(** The owed turn goes with the reply. *)
Definition cancel_regen : M unit :=
  s <- get ;;
  when (regen_settle_armed s) (match regen_settle_task (tk s) with Some n => cancel_task n | None => ret tt end) ;;;
  modify (on_tk (set_payload None)).

Fixpoint cancel_each (l : list nat) : M unit :=
  match l with [] => ret tt | n :: l' => cancel_task n ;;; cancel_each l' end.

Definition cancel_tasks : M unit :=
  cancel_and_clear output_task (set_output None) ;;;
  cancel_and_clear llm_task (set_llm None) ;;;
  s <- get ;;
  cancel_and_clear eager_llm_task (set_eager None) ;;;
  when (is_some (eager_llm_task (tk s))) (modify (on_dk (set_speculation None None))) ;;;
  cancel_and_clear first_message_task (set_first None) ;;;
  modify (on_sh (fun h => set_voicemail (VoicemailHandler.cancel_task (voicemail_handler h)) h)) ;;;
  s <- get ;;
  cancel_each (synthesizer_tasks (tk s)) ;;;
  modify (on_tk (set_synths [])).

(** The stretches of [cleanup_downstream_tasks] (history_sync.py) between its waits;
    [EOutputReset]: the output loop's queue and its stamp start afresh. *)
Definition silence (heard_until : Q) : M unit :=
  modify (on_sh (set_welcome true)) ;;;
  modify (on_hist (sync_heard heard_until)) ;;;
  modify (on_hist reset_response_heard_by_user) ;;;
  modify (on_manager Interruption.invalidate_pending_responses) ;;;
  modify (on_hist drop_all_staged) ;;;
  modify (on_turn Turn.clear_pipe).

Definition sweep : M unit :=
  cancel_tasks ;;;
  say EOutputReset ;;;
  modify (on_turn (Turn.set_flushed true)) ;;;
  start_output_loop ;;;
  modify (on_hist (on_marks Marks.drop_playout_estimate)).

(** [inject_and_run_llm] (output_loop.py), [generate_proactive] (events.py), which adds no
    row; both then only wait for their task. *)
Definition inject_and_run_llm (row : bool) (text : string) (m : meta) : M unit :=
  when row (modify (fun s => on_turn (Turn.set_history (History.append_user text [] (history_of s))) s)) ;;;
  m <- get_updated_meta_info (Some m) ;;
  modify (set_pipeline true) ;;;
  n <- spawn_generation text m ;;
  modify (on_tk (set_llm (Some n))).

(** The last stretch of a final. *)
Definition is_llm (next_task : option string) : bool := bool_decide (next_task = Some "llm").

Definition route (next_task : option string) (overlapped : bool) (text : string) (m : meta) : M unit :=
  if is_llm next_task then
    let m := dset "origin" (VStr "transcriber") m in
    s <- get ;;
    can_fire <- asks (l_settles L) ;;
    if overlapped && (regen_settle_armed s || can_fire) then arm_regen_settle text m else kickoff_llm_generation text m
  else if decide (next_task = Some "synthesizer") then
    n <- create_task KSynth ;;
    modify (on_tk (fun t => set_synths (synthesizer_tasks t ++ [n]) t))
  else ret tt.

(** ** The others *)
Definition ended (n : nat) : session -> session := on_tk (fun t => set_books (finish n (books t)) t).
(** A generation that ends empties [llm_task], whichever task that is; one that fails
    gives the pipeline up ([run_llm_task]). A cancelled task just ends; a settle timer that
    is not cancelled ends by firing. *)
Definition ends (n : nat) (s : session) : session :=
  if lives KSettle n (books (tk s)) then s
  else ended n (if lives KLLM n (books (tk s)) then on_tk (set_llm None) s else s).
Definition fails (n : nat) (e : string) (s : session) : session :=
  if lives KSettle n (books (tk s)) then s
  else ended n (if lives KLLM n (books (tk s))
                then on_ft (fun x => set_error (match component_error x with None => Some e | o => o end) x)
                       (on_turn Turn.clear_pipe s)
                else s).

(** The generation is cut when it runs ([process_end_of_conversation], hangup.py): it is
    cancelled, unless it is the [current] task, which tears the call down itself and goes
    on with nothing naming it. *)
Definition cut (current : option nat) : M unit :=
  s <- get ;;
  when (pending (llm_task (tk s)) (books (tk s)))
    (if bool_decide (llm_task (tk s) = current)
     then modify (on_tk (fun t => set_llm None (set_books (leave (books t)) t)))
     else cancel_and_clear llm_task (set_llm None)).

Definition run_act (a : act) (st : session * trace) : session * trace :=
  match a with
  | Moves g => (on_sh g st.1, st.2)
  | Notes g => (on_dk g st.1, st.2)
  | Ends n => (ends n st.1, st.2)
  | Fails n e => (fails n e st.1, st.2)
  | Fires n =>
      if lives KSettle n (books (tk st.1))
      then let st := fst (regen_after_settle st) in (ended n st.1, st.2)
      else st
  | Cuts current => fst (cut current st)
  | Revokes => fst (cancel_regen st)
  | Sweeps => fst (sweep st)
  | Injects row text m => fst (inject_and_run_llm row text m st)
  | Routes next_task overlapped text m => fst (route next_task overlapped text m st)
  end.

Definition others_act (st : session * trace) : session * trace := foldl (fun st a => run_act a st) st (l_acts L st.2).

Definition pause (w : wait) : M unit := fun st =>
  let st := others_act (st.1, st.2 ++ [EWait w]) in
  (st, if l_cancelled L st.2 then Err Turn.Cancelled else Ok tt).

(** A piece of the turn's own code that may wait. *)
Definition waits (e : event) : bool := match e with Sub (Turn.EWait _) => true | _ => false end.
Definition lift {A} (c : Turn.M A) : M A := fun st =>
  let '(st', r) := run_turn c st in
  (if existsb waits (drop (length st.2) st'.2) then others_act st' else st', r).

(** [if self.output_task is None: ...] *)
Definition ensure_output_loop : M unit :=
  s <- get ;;
  match output_task (tk s) with
  | Some _ => ret tt
  | None => start_output_loop
  end.

(** [cleanup_downstream_tasks] *)
Definition cleanup_downstream_tasks : M unit :=
  current_ts <- clock ;;
  say ECleanup ;;;
  cancel_regen ;;;
  pause WOutput ;;;
  pause WSynth ;;;
  silence current_ts ;;;
  pause WSynth ;;;
  sweep.

(** [trigger_voicemail_check] *)
Definition trigger_voicemail_check (text : string) (is_final : bool) : M unit :=
  now <- clock ;;
  s <- get ;;
  let '(h, launched) := VoicemailHandler.trigger_check text is_final now now (voicemail_handler (sh s)) in
  modify (on_sh (set_voicemail h)) ;;;
  when launched (say (EVoicemail text is_final)).

(** [retire_dropped_response] *)
Definition retire_dropped_response (m : meta) (reason : string) : M unit :=
  let q := Turn.meta_int "sequence_id" m in
  modify (on_hist (fun h => match q with Some q => HistorySync.drop_staged_assistant_history q h | None => h end)) ;;;
  modify (on_manager (Interruption.retire_sequence_id q)) ;;;
  say (EDropped reason).

(** ** Finals (router.py) *)
Definition on_history {A} (g : History.history -> History.history * A) : M A := fun st =>
  let '(h, a) := g (history_of st.1) in ((on_turn (Turn.set_history h) st.1, st.2), Ok a).

(** The overlapping final takes the unanswered text before it along. *)
Definition merge_overlap (text : string) (q : option Z) : M string :=
  s <- get ;;
  r <- on_history (History.pop_and_merge_user text) ;;
  merged <- from_history r ;;
  when (inflight_response_activity q s) cleanup_downstream_tasks ;;;
  modify (on_manager (match q with Some q => Interruption.revalidate_sequence_id q | None => id end)) ;;;
  ret merged.

Definition append_final (text : string) (asr : val) : M unit :=
  r <- on_history (History.replace_last_user_if_prefix (Some text) asr) ;;
  replaced <- from_history r ;;
  when (negb replaced) (on_history (fun h => (History.append_user text [("asr_turn_id", asr)] h, tt))).

Definition collect_transcript (text : string) : M unit := say (ECollect text) ;;; pause WCollect.

(** A final that is to be answered. *)
Definition take_final (next_task : option string) (text : string) (m : meta) : M unit :=
  collect_transcript text ;;;
  s <- get ;;
  let q := Turn.meta_int "sequence_id" m in
  let overlapped := is_llm next_task && (inflight_response_activity q s || regen_settle_armed s) in
  merged <- (if overlapped then merge_overlap text q else ret text) ;;
  modify (on_dk set_spoke) ;;;
  asr <- asr_turn_of m ;;
  append_final merged asr ;;;
  lift (Turn.forward_browser_text (l_turn L) (turns f) text "user" asr) ;;;
  route next_task overlapped merged m.

Definition handle_transcriber_output (next_task : option string) (text : string) (m : meta) : M unit :=
  s <- get ;;
  if negb (welcome_message_played (sh s)) then
    trigger_voicemail_check text true ;;; retire_dropped_response m "welcome_still_playing"
  else if speech_started_before_welcome (dk s) then
    modify (on_dk (set_early false)) ;;; retire_dropped_response m "speech_started_before_welcome_finished"
  else
    duplicate <- from_history (History.is_duplicate_user text (history_of s)) ;;
    if duplicate then retire_dropped_response m "duplicate_user_transcript"
    else
      trigger_voicemail_check text true ;;;
      s <- get ;;
      if VoicemailHandler.detected (voicemail_handler (sh s)) then retire_dropped_response m "voicemail_detected"
      else take_final next_task text m.

(** [get_next_step] (predicates.py) *)
Fixpoint next_after (origin : string) (steps : list string) : string :=
  match steps with
  | x :: ((y :: _) as rest) => if decide (x = origin) then y else next_after origin rest
  | _ => "output"
  end.
(** A list's item at a Python index. *)
Definition item {A} (l : list A) (i : Z) : option A :=
  let i := if i <? 0 then Z.of_nat (length l) + i else i in if i <? 0 then None else l !! Z.to_nat i.
Definition as_index (v : val) : option Z :=
  match v with VInt z => Some z | VBool b => Some (if b then 1 else 0) | _ => None end.
Definition get_next_step (sequence : val) (origin : string) : option string :=
  match as_index sequence with
  | Some i => match item (pipelines f) i with Some steps => Some (next_after origin steps) | None => None end
  | None => None
  end.

(** [send_first_message] *)
Definition send_first_message (text : string) : M unit :=
  m <- get_updated_meta_info None ;;
  handle_transcriber_output (get_next_step (Turn.get_or "sequence" (VInt 0) m) "transcriber") text m ;;;
  timed (fun now => on_manager (Interruption.set_first_interim_for_immediate_response now)).

(** [handle_accumulated_message]: [fuel] bounds the tenths of a second waited for; [false]:
    still waiting. *)
Fixpoint handle_accumulated_message (fuel : nat) : M bool :=
  match fuel with
  | O => ret false
  | S fuel =>
      s <- get ;;
      if welcome_message_played (sh s) then
        when (str_true (transcriber_message (dk s)))
          (send_first_message (transcriber_message (dk s)) ;;; modify (on_dk (set_held ""))) ;;;
        ret true
      else pause WSleep ;;; handle_accumulated_message fuel
  end.

(** ** Errors *)

(** [end_call_on_component_error], up to [process_end_of_conversation] *)
Definition end_call_on_component_error (error detail : string) : M unit :=
  s <- get ;;
  match component_error (ft s) with
  | None => modify (on_ft (set_error (Some error))) ;;; say EHealth ;;; pause WHealth
  | Some _ => ret tt
  end ;;;
  s <- get ;;
  when (negb (Turn.conversation_ended (Turn.others (turn (sh s)))) && negb (end_of_conversation_in_progress (ft s)))
    (modify (on_turn (Turn.set_hangup_detail (Some detail))) ;;; say EEndConversation ;;; pause WEnd).

Definition TRANSCRIBER_ERROR : string := "transcriber_error".
Definition TRANSCRIBER_CONNECTION_ERROR : string := "transcriber_connection_error".

(** [log_transcriber_connection_error]; [error]: the text of the exception. *)
Definition error_text (v : val) : string := match v with VStr s => s | _ => "" end.
Definition log_transcriber_connection_error (connection_error : val) : M unit :=
  now <- clock ;;
  modify (on_ft (add_event (truthy connection_error, connection_error,
    py_round 2 (now * inject_Z 1000 - conversation_start_init_ts f)%Q))) ;;;
  when (truthy connection_error)
    (end_call_on_component_error (error_text connection_error) TRANSCRIBER_CONNECTION_ERROR).

Definition number (v : val) : M Q :=
  match v with
  | VInt z => ret (inject_Z z)
  | VFloat (Fin q) => ret q
  | VBool b => ret (if b then 1 else 0)%Q
  | _ => raise ToolCalls.TypeError
  end.
Definition add_transcriber_duration (m : option meta) : M unit :=
  match m with
  | Some m => q <- number (Turn.get_or "transcriber_duration" (VInt 0) m) ;; modify (on_ft (add_duration q))
  | None => ret tt
  end.
Definition connection_error (m : option meta) : val := match m with Some m => mget "connection_error" m | None => VNone end.

(** ** Messages (consumer.py) *)

(** [_set_call_details] (predicates.py); a message without meta information raises. *)
Definition set_call_details (m : option meta) : M meta :=
  match m with
  | None => raise ToolCalls.TypeError
  | Some m =>
      modify (on_rq (fun r => set_sids (Turn.get_or "call_sid" (call_sid r) m) (Turn.get_or "stream_sid" (stream_sid r) m) r)) ;;;
      ret m
  end.

(** [process_transcriber_request] (llm.py) *)
Definition process_transcriber_request (m : meta) : M val :=
  let request_id := mget "request_id" m in
  modify (on_rq (fun r =>
    if truthy request_id && (negb (truthy (current_request_id r)) || negb (val_eqb (current_request_id r) request_id))
    then set_request request_id (current_request_id r) (llm_rejected_request_ids r) r else r)) ;;;
  modify (on_rq (fun r =>
    if Turn.is_none (previous_request_id r) || val_in (previous_request_id r) (llm_processed_request_ids r)
       || val_in (previous_request_id r) (llm_rejected_request_ids r) then r
    else set_request (current_request_id r) (previous_request_id r) (llm_rejected_request_ids r ++ [previous_request_id r]) r)) ;;;
  ret (Turn.get_or "sequence" (VInt 0) m).

Definition words (text : string) : Z := Z.of_nat (length (split_on " " (strip text))).
Definition history_length (s : session) : Z := Z.of_nat (length (rows s)).

Definition on_speech_started : M unit :=
  s <- get ;;
  if welcome_message_played (sh s) then modify (on_dk (set_early false))
  else when (discard_pre_welcome_utterance f) (modify (on_dk (set_early true))).

(** The interim starts or goes on with the caller's turn. *)
Definition interim_noted (text : string) : M unit :=
  modify (fun s => on_manager (Interruption.update_required_delay (history_length s)) s) ;;;
  timed (fun now => on_manager (Interruption.on_interim_transcript_received now)) ;;;
  s <- get ;;
  when (VoicemailHandler.enabled (voicemail_handler (sh s)) && negb (VoicemailHandler.detected (voicemail_handler (sh s))))
    (trigger_voicemail_check text false).

Definition speech_started_now : M unit := timed (fun now => on_manager (Interruption.on_user_speech_started now)).

Definition barge_in : M unit :=
  speech_started_now ;;;
  asr <- asks (l_asr_turn L) ;;
  timed (fun now => on_manager (Interruption.on_interruption_triggered now now asr)) ;;;
  modify (on_manager (Interruption.record_interrupted_transcriber_turn asr)) ;;;
  modify (on_sh (set_playing false)) ;;;
  cleanup_downstream_tasks.

(** The caller goes on within the grace period of what was already a turn. *)
Definition continuation (count : Z) : M unit :=
  speech_started_now ;;;
  now <- clock ;;
  s <- get ;;
  let since := Interruption.get_time_since_utterance_end now (manager_of s) in
  when (Interruption.has_pending_responses (manager_of s)
        && (negb (Interruption.is_minus_one since) && Qltb since (inject_Z (incremental_delay f)) && (2 <? history_length s))
        && (number_of_words_for_interruption f <? count))
    (asr <- asks (l_asr_turn L) ;;
     modify (on_manager (Interruption.on_agent_interrupted_user asr)) ;;;
     modify (on_manager Interruption.reset_utterance_end_time) ;;;
     cleanup_downstream_tasks).

Definition speech_of_interim (text : string) : M unit :=
  let count := words text in
  s <- get ;;
  duplicate <- (if Turn.response_in_pipeline (pipe_of s) || regen_settle_armed s
                then from_history (History.is_duplicate_user text (history_of s)) else ret false) ;;
  if duplicate then ret tt
  else if Turn.function_call_in_flight (pipe_of s) then ret tt
  else
    let busy := audio_playing (sh s) || Turn.response_in_pipeline (pipe_of s) in
    if Interruption.should_trigger_interruption count text busy (welcome_message_played (sh s)) (manager_of s) then
      barge_in ;;; interim_noted text
    else if negb (audio_playing (sh s)) && welcome_message_played (sh s) then
      continuation count ;;; interim_noted text
    else if busy && welcome_message_played (sh s) && negb (number_of_words_for_interruption f =? 0) then ret tt
    else speech_started_now ;;; interim_noted text.

Definition on_interim (text : string) : M unit :=
  timed (fun now => on_dk (set_word now)) ;;;
  timed (fun now => on_manager (Interruption.note_user_liveness now)) ;;;
  s <- get ;;
  if decide (temp_transcriber_message (dk s) = text) then ret tt
  else
    modify (on_dk (set_temp text)) ;;;
    nothing_to_cut <-
      (if welcome_message_played (sh s) then ret false
       else
         when (discard_pre_welcome_utterance f) (modify (on_dk (set_early true))) ;;;
         trigger_voicemail_check text false ;;;
         ret (negb (audio_playing (sh s)))) ;;
    if nothing_to_cut then ret tt
    else modify (on_dk (set_early false)) ;;; speech_of_interim text.

(** An eager end of turn: the reply is generated before the turn is known to be over. *)
Definition eager_wanted (confidence threshold : option Q) : bool :=
  match threshold with
  | None => false
  | Some t => negb (Qeq_bool t 0) && negb (match confidence with Some c => Qltb c t | None => false end)
  end.
Definition speculative_meta (text : string) (confidence : option Q) (m : meta) : meta :=
  dset "eager_transcript" (VStr text)
    (dset "eot_confidence" (match confidence with Some c => Turn.float_val c | None => VNone end) (dset "eager_eot" (VBool true) m)).
Definition speculate (text : string) (confidence : option Q) (m : meta) : M unit :=
  ensure_output_loop ;;;
  m <- get_updated_meta_info (Some m) ;;
  let m := speculative_meta text confidence m in
  modify (fun s => on_dk (set_speculation (Some m) (Some (length (rows s)))) s) ;;;
  n <- spawn_generation text m ;;
  modify (on_tk (set_eager (Some n))) ;;;
  modify (on_dk set_spoke) ;;;
  asr <- asks (l_asr_turn L) ;;
  modify (fun s => set_rows (rows s ++
    [[("role", VStr USER); ("content", VStr text)] ++ match asr with Some z => [("asr_turn_id", VInt z)] | None => [] end]) s).
Definition on_eager_end (content : string) (confidence : option Q) (m : meta) : M unit :=
  let text := strip content in
  threshold <- asks (l_eager_eot_threshold L) ;;
  s <- get ;;
  when (eager_wanted confidence threshold && str_true text && welcome_message_played (sh s) && negb (audio_playing (sh s))
        && negb (Turn.response_in_pipeline (pipe_of s)) && negb (regen_settle_armed s))
    (speculate text confidence m).

Definition on_turn_resumed : M unit :=
  s <- get ;;
  when (is_some (eager_llm_task (tk s)))
    (cancel_and_clear eager_llm_task (set_eager None) ;;;
     modify (fun s => on_dk (set_speculation None (eager_history_snapshot (dk s))) s) ;;;
     modify (fun s => match eager_history_snapshot (dk s) with
                      | Some k => if (k <? length (rows s))%nat then set_rows (take k (rows s)) s else s
                      | None => s
                      end)).

(** [_maybe_update_tts_language] *)
Definition maybe_update_tts_language (m : meta) : M unit :=
  when (truthy (mget "detected_language_code" m) && l_sets_language L)
    (say (ELanguage (mget "detected_language_code" m)) ;;; pause WLanguage).

Definition stop_offset (m : meta) : Z := match Turn.get_or "user_stop_offset_ms" (VInt 0) m with VInt z => z | _ => 0 end.
Definition stop_wall (m : meta) : option Q :=
  match mget "user_stop_ts_wall" m with VFloat (Fin q) => Some q | VInt z => Some (inject_Z z) | _ => None end.

(** An owed regeneration answers the merged turn: the reply built without it goes, and
    with it the row it had put into the history. *)
Definition drop_speculation : M unit :=
  cancel_and_clear eager_llm_task (set_eager None) ;;;
  s <- get ;;
  let stub := match eager_meta_info (dk s) with Some m => mget "eager_transcript" m | None => VNone end in
  modify (on_dk (set_speculation None None)) ;;;
  match last (rows s) with
  | Some r => when (role_is USER r && val_eqb (mget "content" r) stub) (modify (set_rows (take (length (rows s) - 1) (rows s))))
  | None => ret tt
  end.

(** The end of the turn follows its eager end: the reply is already on its way. *)
Definition adopt_speculation (text : string) : M unit :=
  trigger_voicemail_check text true ;;;
  s <- get ;;
  when (negb (VoicemailHandler.detected (voicemail_handler (sh s))))
    (collect_transcript text ;;;
     s <- get ;;
     when (pending (llm_task (tk s)) (books (tk s)))
       (cancel_and_clear llm_task (set_llm None) ;;; modify (on_manager Interruption.invalidate_pending_responses)) ;;;
     s <- get ;;
     match eager_meta_info (dk s) with
     | None => raise ToolCalls.TypeError
     | Some m =>
         q <- sequence_of m ;;
         modify (on_manager (Interruption.revalidate_sequence_id q)) ;;;
         modify (set_pipeline true) ;;;
         spawn_language_switch_decision text m
     end) ;;;
  modify (on_tk (fun t => set_eager None (set_llm (eager_llm_task t) t))) ;;;
  modify (on_dk (set_speculation None None)).

Definition still_eager (was_eager : bool) : M bool :=
  s <- get ;;
  if was_eager && is_some (eager_llm_task (tk s)) && regen_settle_armed s then drop_speculation ;;; ret false else ret was_eager.

Definition answer_final (next_task : option string) (text : string) (was_eager : bool) (m : meta) : M unit :=
  was_eager <- still_eager was_eager ;;
  s <- get ;;
  if was_eager && is_some (eager_llm_task (tk s)) then adopt_speculation text
  else m <- get_updated_meta_info (Some m) ;; handle_transcriber_output next_task text m.

Definition speech_ended (update_utterance_time : bool) (offset : Z) (wall : option Q) : M unit :=
  timed (fun now => on_manager (Interruption.on_user_speech_ended now update_utterance_time offset wall)).

Definition on_final (next_task : option string) (text : string) (was_eager : bool) (m : meta) : M unit :=
  s <- get ;;
  if Interruption.is_false_interruption (words text) text (audio_playing (sh s)) (welcome_message_played (sh s)) (manager_of s) then
    speech_ended false 0 None ;;; modify (on_dk (set_early false))
  else if Turn.function_call_in_flight (pipe_of s) then speech_ended false 0 None
  else
    speech_ended true (stop_offset m) (stop_wall m) ;;;
    modify (on_dk (set_temp "")) ;;;
    maybe_update_tts_language m ;;;
    ensure_output_loop ;;;
    modify (fun s => on_manager (Interruption.reset_delay_for_speech_final (history_length s)) s) ;;;
    say EHealth ;;; pause WHealth ;;;
    answer_final next_task text was_eager m.

Definition on_speech_ended : M unit :=
  speech_ended false 0 None ;;; modify (on_dk (set_early false)) ;;; modify (on_dk (set_temp "")).

(** The transcriber's connection is closed: [true] when the call goes on, with a standby of
    the pool gone or the active one reconnected. *)
Definition on_closed (m : option meta) : M bool :=
  add_transcriber_duration m ;;;
  s <- get ;;
  alive <- asks (l_active_alive L) ;;
  if pool f && alive then ret true
  else
    again <- (if pool f && negb (Turn.hanging (turn (sh s))) then pause WReconnect ;;; asks (l_reconnects L) else ret false) ;;
    if again then ret true
    else log_transcriber_connection_error (connection_error m) ;;; ret false.

Definition on_streamed (msg : message) : M bool :=
  m <- set_call_details (meta_info msg) ;;
  sequence <- process_transcriber_request m ;;
  let next_task := get_next_step sequence "transcriber" in
  match body msg with
  | Text t => if decide (t = SPEECH_STARTED) then on_speech_started ;;; ret true
              else if decide (t = CONNECTION_CLOSED) then on_closed (meta_info msg)
              else ret true
  | Interim c => on_interim c ;;; ret true
  | EagerEnd c q => on_eager_end c q m ;;; ret true
  | Resumed => on_turn_resumed ;;; ret true
  | Final c e => on_final next_task c e m ;;; ret true
  | SpeechEnded => on_speech_ended ;;; ret true
  | Control _ => ret true
  end.

(** [process_http_transcription]: the text of the message, if it is user text. *)
Definition http_text (d : data) : option string :=
  match d with
  | Interim c | Final c _ => if str_true (strip c) then Some c else None
  | Text t => if decide (t = SPEECH_STARTED) then None else if decide (t = SPEECH_ENDED) then None else Some t
  | EagerEnd _ _ | Resumed | SpeechEnded | Control _ => None
  end.
Definition process_http_transcription (msg : message) : M unit :=
  match http_text (body msg) with
  | None => ret tt
  | Some text =>
      m <- get_updated_meta_info (meta_info msg) ;;
      match meta_info msg with
      | None => raise ToolCalls.AttributeError
      | Some m0 =>
          add_transcriber_duration (meta_info msg) ;;;
          handle_transcriber_output (get_next_step (Turn.get_or "sequence" (VInt 0) m0) "transcriber") text m
      end
  end.

(** One message; [false]: the listener leaves its loop. *)
Definition handle (msg : message) : M bool :=
  s <- get ;;
  if should_ignore_transcriber_input s then
    if is_closed (body msg) then
      add_transcriber_duration (meta_info msg) ;;;
      log_transcriber_connection_error (connection_error (meta_info msg)) ;;; ret false
    else ret true
  else if Turn.stream (turns f) then on_streamed msg
  else if is_closed (body msg) then on_closed (meta_info msg)
  else process_http_transcription msg ;;; ret true.

Fixpoint consume (msgs : list message) : M unit :=
  match msgs with
  | [] => ret tt
  | msg :: msgs' => pause WQueue ;;; go_on <- handle msg ;; if go_on then consume msgs' else ret tt
  end.

(** [listen_transcriber]: [str(e)] is the environment's. *)
Definition listen_transcriber (str_of : Turn.error -> string) (msgs : list message) : M unit := fun st =>
  match consume msgs st with
  | (st', Err Turn.Cancelled) => (st', Err Turn.Cancelled)
  | (st', Err e) => (end_call_on_component_error (str_of e) TRANSCRIBER_ERROR ;;; se_raise (Turn.Component (str_of e))) st'
  | r => r
  end.
End listener.
End Listener.
