(* ===== verification/ListenerRuns.v ===== *)
(** * Runs of the transcript listener

    What holds of [Listener.listen_transcriber] for every sequence of messages and
    every interleaving with the other tasks of the call: the books of the tasks, one
    reply at a time, the timer of the owed turn, what becomes of a final, and the tool
    call in flight. *)
From S2P Require Import Prelude PyText PyVal Marks History HistorySync Interruption Voicemail CallScreening UrlGuard ToolCalls Webhooks Transfer Turn TurnRuns Listener.
From Stdlib Require Import QArith.QArith.
From stdpp Require Import gmap fin_sets.
Close Scope Q_scope.
Open Scope Z_scope.
Open Scope voice_scope.

Module ListenerRuns.
Import Listener.

(** ** The books of the tasks *)
Definition live (k : kind) (n : nat) (b : loop) : Prop := running b !! n = Some k /\ n ∉ cancelled b.

Definition holds (t : tasks) (n : nat) (k : kind) : Prop :=
  match k with
  | KLLM => llm_task t = Some n \/ eager_llm_task t = Some n
  | KOutput => output_task t = Some n
  | KFirst => first_message_task t = Some n
  | KSettle => regen_settle_task t = Some n
  | KSynth => n ∈ synthesizer_tasks t
  end.

(** [solo]: no reply is generated beside that of [llm_task], until one tears the call down
    itself; [x]: the settle timer that is firing. *)
Record sound (solo : bool) (x : option nat) (t : tasks) : Prop := Sound {
  s_fresh : forall n, (next_task (books t) <= n)%nat ->
              running (books t) !! n = None /\ n ∉ cancelled (books t) /\ forall k, ~ holds t n k;
  s_kind : forall n k k', holds t n k -> running (books t) !! n = Some k' -> k' = k;
  s_owed : regen_settle_payload t <> None -> exists n, regen_settle_task t = Some n /\ live KSettle n (books t);
  s_timer : forall n, live KSettle n (books t) -> Some n <> x -> regen_settle_task t = Some n /\ regen_settle_payload t <> None;
  s_firing : x <> None -> regen_settle_payload t = None;
  s_solo : solo = true -> eager_llm_task t = None /\
             (left_by_reply (books t) = false -> forall n, live KLLM n (books t) -> llm_task t = Some n) }.

Lemma lives_iff k n b : lives k n b = true <-> live k n b.
Proof. unfold lives, live. by rewrite andb_true_iff, negb_true_iff, bool_decide_eq_true, bool_decide_eq_false. Qed.
Lemma live_cancel k m n b : live k m (cancel n b) <-> live k m b /\ m <> n.
Proof.
  unfold live, cancel, is_running. case_bool_decide as H; cbn.
  - rewrite not_elem_of_union, not_elem_of_singleton. tauto.
  - split; [|tauto]. intros [H1 H2]. repeat split; try done. intros ->. apply H. by eexists.
Qed.
Lemma running_cancel n b : running (cancel n b) = running b.
Proof. unfold cancel. by destruct (is_running n b). Qed.
Lemma next_cancel n b : next_task (cancel n b) = next_task b.
Proof. unfold cancel. by destruct (is_running n b). Qed.
Lemma left_cancel n b : left_by_reply (cancel n b) = left_by_reply b.
Proof. unfold cancel. by destruct (is_running n b). Qed.
Lemma cancelled_cancel m n b : m ∈ cancelled (cancel n b) -> m ∈ cancelled b \/ is_Some (running b !! m).
Proof.
  unfold cancel, is_running. case_bool_decide as H; cbn; [|by left].
  rewrite elem_of_union, elem_of_singleton. intros [->|?]; auto.
Qed.
Lemma live_start k m k0 b : running b !! next_task b = None -> next_task b ∉ cancelled b ->
  live k m (start k0 b) <-> (m = next_task b /\ k = k0) \/ live k m b.
Proof.
  intros Hn Hc. unfold live, start. cbn. destruct (decide (m = next_task b)) as [->|Hm].
  - rewrite lookup_insert_eq, Hn. split; [intros [[= ->] _]; auto|intros [[_ ->]|[? _]]; [done|congruence]].
  - rewrite lookup_insert_ne by congruence. split; [auto|intros [[? _]|?]; [done|done]].
Qed.
Lemma live_finish k m n b : live k m (finish n b) <-> live k m b /\ m <> n.
Proof. unfold live, finish. cbn. rewrite lookup_delete_Some. split; intros; naive_solver. Qed.
Lemma live_pending k n b : live k n b -> pending (Some n) b = true.
Proof. intros [H _]. apply bool_decide_eq_true. by eexists. Qed.

(** ** The steps that touch tasks *)
Section steps.
Context (solo : bool) (x : option nat).
Implicit Types t : tasks.

Lemma sound_cancel t n k : holds t n k -> k <> KSettle -> sound solo x t -> sound solo x (set_books (cancel n (books t)) t).
Proof.
  intros Hh Hk [F K O T R S]. split; cbn.
  - intros m. rewrite next_cancel, running_cancel. intros Hm. destruct (F m Hm) as (F1 & F2 & F3). split_and!; [done| |done].
    intros [?|[? ?]]%cancelled_cancel; congruence.
  - intros m j j'. rewrite running_cancel. apply K.
  - intros (m & Hm & Hl)%O. exists m. split; [done|]. apply live_cancel. split; [done|]. intros ->.
    apply Hk. symmetry. exact (K n k KSettle Hh (proj1 Hl)).
  - intros m [Hl _]%live_cancel ?. by apply T.
  - done.
  - intros Hs. destruct (S Hs) as [S1 S2]. split; [done|]. rewrite left_cancel. intros Hc m [Hl _]%live_cancel. by apply S2.
Qed.

(** A field is emptied. *)
Definition emptied (t t' : tasks) : Prop :=
  books t' = books t /\ regen_settle_task t' = regen_settle_task t /\ regen_settle_payload t' = regen_settle_payload t
  /\ (forall n k, holds t' n k -> holds t n k).
Lemma sound_emptied t t' : emptied t t' ->
  (solo = true -> (eager_llm_task t = None -> eager_llm_task t' = None) /\
     (left_by_reply (books t) = false -> forall n, live KLLM n (books t) -> llm_task t = Some n -> llm_task t' = Some n)) ->
  sound solo x t -> sound solo x t'.
Proof.
  intros (Hb & Hs & Hp & Hh) Hsolo [F K O T R S]. split; rewrite ?Hb, ?Hs, ?Hp.
  - intros m Hm. destruct (F m Hm) as (F1 & F2 & F3). split_and!; [done..|]. intros k ?%Hh. by eapply F3.
  - intros m k k' ?%Hh. by apply K.
  - done.
  - done.
  - done.
  - intros H. destruct (S H) as [S1 S2], (Hsolo H) as [E1 E2]. split; [by apply E1|]. intros Hc m Hl. apply E2; [done..|by apply S2].
Qed.
Lemma sound_no_output t : sound solo x t -> sound solo x (set_output None t).
Proof. apply sound_emptied; [|done]. split_and!; [done..|]. by intros ? []. Qed.
Lemma sound_no_first t : sound solo x t -> sound solo x (set_first None t).
Proof. apply sound_emptied; [|done]. split_and!; [done..|]. by intros ? []. Qed.
Lemma sound_no_eager t : sound solo x t -> sound solo x (set_eager None t).
Proof. apply sound_emptied; [|done]. split_and!; [done..|]. intros ? []; cbn; naive_solver. Qed.
Lemma sound_no_synths t : sound solo x t -> sound solo x (set_synths [] t).
Proof. apply sound_emptied; [|done]. split_and!; [done..|]. intros ? []; cbn; try done. by intros ?%elem_of_nil. Qed.
Lemma sound_no_llm t : (forall n, ~ live KLLM n (books t)) -> sound solo x t -> sound solo x (set_llm None t).
Proof. intros H. apply sound_emptied; [|by naive_solver]. split_and!; [done..|]. intros ? []; cbn; naive_solver. Qed.

Lemma sound_drop_llm t n : llm_task t = Some n -> sound solo x t -> sound solo x (set_llm None (set_books (cancel n (books t)) t)).
Proof.
  intros Hn Hs. assert (Hc : sound solo x (set_books (cancel n (books t)) t)) by (eapply (sound_cancel t n KLLM); [by left|done|done]).
  revert Hc. apply sound_emptied; [split_and!; [done..|]; intros ? []; cbn; naive_solver|].
  intros Hs1. split; [done|]. intros _ m [Hl Hm]%live_cancel Hm'. cbn in Hm'. congruence.
Qed.
Lemma holds_no_llm t b n k : holds (set_llm None (set_books b t)) n k -> holds t n k.
Proof. destruct k; cbn; [by intros [?|?]; [done|right]|done..]. Qed.
(** The reply tears the call down: nothing names its task any more. *)
Lemma sound_left t : sound solo x t -> sound solo x (set_llm None (set_books (leave (books t)) t)).
Proof.
  intros [F K O T R S]. split; try done.
  - intros n Hn. destruct (F n Hn) as (F1 & F2 & F3). split_and!; [done..|]. intros k Hk. apply (F3 k). by eapply holds_no_llm.
  - intros n k k' Hk. apply K. by eapply holds_no_llm.
  - intros H. destruct (S H) as [S1 S2]. by split.
Qed.
(** Nothing is generated any more once the task of a sole reply is not pending. *)
Lemma quiet t : solo = true -> left_by_reply (books t) = false -> sound solo x t -> pending (llm_task t) (books t) = false ->
  forall n, ~ live KLLM n (books t).
Proof. intros Hs Hc [_ _ _ _ _ S] Hp n Hl. rewrite (proj2 (S Hs) Hc n Hl) in Hp. apply live_pending in Hl. congruence. Qed.
Lemma quiet_dropped t n : solo = true -> left_by_reply (books t) = false -> sound solo x t -> llm_task t = Some n ->
  forall m, ~ live KLLM m (cancel n (books t)).
Proof. intros Hs Hc [_ _ _ _ _ S] Hn m [Hl Hm]%live_cancel. apply (proj2 (S Hs) Hc) in Hl. congruence. Qed.

(** A task is started and noted. *)
Lemma sound_started t t' k n : sound solo x t -> k <> KSettle -> next_task (books t) = n -> books t' = start k (books t) ->
  regen_settle_task t' = regen_settle_task t -> regen_settle_payload t' = regen_settle_payload t ->
  (forall m j, holds t' m j -> holds t m j \/ (m = n /\ j = k)) ->
  (solo = true -> eager_llm_task t = None -> eager_llm_task t' = None) ->
  (solo = true -> left_by_reply (books t) = false ->
     forall m, live KLLM m (books t') -> (live KLLM m (books t) -> llm_task t = Some m) -> llm_task t' = Some m) ->
  sound solo x t'.
Proof.
  intros [F K O T R S] Hk <- Hb Hs Hp Hh He Hsolo. destruct (F (next_task (books t)) (Nat.le_refl _)) as (N1 & N2 & N3).
  assert (HL : forall j m, live j m (books t') <-> (m = next_task (books t) /\ j = k) \/ live j m (books t)) by (intros; rewrite Hb; by apply live_start).
  split.
  - intros m. rewrite Hb. cbn. intros Hm. destruct (F m ltac:(lia)) as (F1 & F2 & F3). split_and!; [|done|].
    + by rewrite lookup_insert_ne by lia.
    + intros j [?|[? _]]%Hh; [by eapply F3|lia].
  - intros m j j' Hm. rewrite Hb. cbn. intros [[<- <-]|[? ?]]%lookup_insert_Some.
    + destruct (Hh _ _ Hm) as [?|[_ ->]]; [by edestruct N3|done].
    + destruct (Hh _ _ Hm) as [?|[-> _]]; [by eapply K|congruence].
  - rewrite Hs, Hp. intros (m & ? & ?)%O. exists m. split; [done|]. apply HL. by right.
  - intros m [[_ <-]|Hl]%HL ?; [done|]. rewrite Hs, Hp. by apply T.
  - by rewrite Hp.
  - intros H. destruct (S H) as [S1 S2]. split; [by apply He|]. rewrite Hb. intros Hc m Hl. rewrite <- Hb in Hl. by apply Hsolo; [..|done|apply S2].
Qed.
Ltac started := eapply sound_started; try reflexivity; try done; [intros ? []; cbn; set_solver|cbn; try done..].

Lemma sound_start_output t : sound solo x t ->
  sound solo x (set_output (Some (next_task (books t))) (set_books (start KOutput (books t)) t)).
Proof. intros Hs. started. intros _ _ m [Hm Hc] H. apply H. unfold start in Hm. cbn in Hm. apply lookup_insert_Some in Hm as [[_ ?]|[_ ?]]; [done|]. by split. Qed.
Lemma sound_start_synth t : sound solo x t ->
  sound solo x (set_synths (synthesizer_tasks t ++ [next_task (books t)]) (set_books (start KSynth (books t)) t)).
Proof.
  intros Hs. eapply (sound_started t _ KSynth); try reflexivity; try done.
  - intros ? []; cbn; try naive_solver. rewrite elem_of_app, list_elem_of_singleton. naive_solver.
  - cbn. intros _ _ m [Hm Hc] H. apply H. cbn in Hm. apply lookup_insert_Some in Hm as [[_ ?]|[_ ?]]; [done|]. by split.
Qed.
Lemma sound_start_llm t : (solo = true -> left_by_reply (books t) = false -> forall n, ~ live KLLM n (books t)) -> sound solo x t ->
  sound solo x (set_llm (Some (next_task (books t))) (set_books (start KLLM (books t)) t)).
Proof.
  intros Hq Hs. eapply (sound_started t _ KLLM); try reflexivity; try done.
  - intros ? []; cbn; naive_solver.
  - cbn. intros H Hl m [Hm Hc] _. cbn in Hm. apply lookup_insert_Some in Hm as [[-> _]|[_ ?]]; [done|]. by destruct (Hq H Hl m).
Qed.
Lemma sound_start_eager t : solo = false -> sound solo x t ->
  sound solo x (set_eager (Some (next_task (books t))) (set_books (start KLLM (books t)) t)).
Proof.
  intros Hq Hs. eapply (sound_started t _ KLLM); try reflexivity; try congruence; try done.
  intros ? []; cbn; naive_solver.
Qed.
Lemma sound_adopt t : solo = false -> sound solo x t -> sound solo x (set_eager None (set_llm (eager_llm_task t) t)).
Proof. intros Hq. apply sound_emptied; [|congruence]. split_and!; [done..|]. intros ? []; cbn; naive_solver. Qed.

(** The settle timer *)
Lemma sound_revoke t : sound solo None t ->
  sound solo None (set_payload None
    (if pending (regen_settle_task t) (books t)
     then match regen_settle_task t with Some n => set_books (cancel n (books t)) t | None => t end else t)).
Proof.
  intros [F K O T R S].
  assert (Hd : forall b, b = books t \/ (exists n, regen_settle_task t = Some n /\ b = cancel n (books t)) ->
    (forall m, ~ live KSettle m b) -> sound solo None (set_payload None (set_books b t))).
  { intros b Hb Hq. split; cbn; try done.
    - destruct Hb as [->|(n & Hn & ->)]; intros m; rewrite ?next_cancel, ?running_cancel; intros Hm; destruct (F m Hm) as (F1 & F2 & F3);
        split_and!; try done. intros [?|[? ?]]%cancelled_cancel; congruence.
    - destruct Hb as [->|(n & Hn & ->)]; intros m; rewrite ?running_cancel; apply K.
    - intros m Hl ?. by destruct (Hq m).
    - intros H. destruct (S H) as [S1 S2]. split; [done|]. intros Hc m Hl.
      destruct Hb as [->|(n & Hn & ->)]; [by apply S2|]. rewrite left_cancel in Hc. apply S2; [done|]. by apply live_cancel in Hl as [? _]. }
  destruct (pending (regen_settle_task t) (books t)) eqn:Hp.
  - destruct (regen_settle_task t) as [n|] eqn:Hn; [|done]. apply Hd; [right; by exists n|].
    intros m [Hl Hm]%live_cancel. destruct (T m Hl ltac:(done)) as [? _]. congruence.
  - assert (E : t = set_books (books t) t) by by destruct t. rewrite E at 1. apply Hd; [by left|].
    intros m Hl. destruct (T m Hl ltac:(done)) as [Hm _]. rewrite Hm in Hp. apply live_pending in Hl. congruence.
Qed.
Lemma sound_arm t p : sound solo None t -> regen_settle_payload t = None ->
  sound solo None (set_settle (Some (next_task (books t))) (set_books (start KSettle (books t)) (set_payload (Some p) t))).
Proof.
  intros [F K O T R S] Hn. destruct (F (next_task (books t)) (Nat.le_refl _)) as (N1 & N2 & N3).
  pose proof (fun k m => live_start k m KSettle (books t) N1 N2) as HL. split; cbn -[start].
  - intros m Hm. cbn in Hm. destruct (F m ltac:(lia)) as (F1 & F2 & F3). split_and!; [|done|].
    + cbn. by rewrite lookup_insert_ne by lia.
    + intros k Hk. destruct (F3 k). destruct k; cbn in *; try done. simplify_eq. lia.
  - assert (Hh : forall m k, holds (set_settle (Some (next_task (books t))) (set_books (start KSettle (books t)) (set_payload (Some p) t))) m k ->
      holds t m k \/ (m = next_task (books t) /\ k = KSettle)) by (intros m []; cbn; naive_solver).
    intros m k k' Hk. cbn. destruct (Hh _ _ Hk) as [Hk'|[-> ->]].
    + intros [[<- <-]|[? ?]]%lookup_insert_Some; [by destruct (N3 k)|by eapply K].
    + by intros [[_ <-]|[? ?]]%lookup_insert_Some.
  - intros _. exists (next_task (books t)). split; [done|]. apply HL. by left.
  - intros m [[-> _]|Hl]%HL ?; [done|]. destruct (T m Hl ltac:(done)). congruence.
  - done.
  - intros H. destruct (S H) as [S1 S2]. split; [done|]. intros Hc m [[_ ?]|?]%HL; [done|by apply S2].
Qed.
End steps.
#[export] Hint Resolve sound_no_output sound_no_first sound_no_eager sound_no_synths sound_drop_llm sound_start_output
  sound_start_synth : listener.

(** Tasks end. *)
Lemma sound_finish solo y t n : (forall m, y = Some m -> m = n) ->
  (live KSettle n (books t) -> regen_settle_payload t = None) ->
  sound solo y t -> sound solo None (set_books (finish n (books t)) t).
Proof.
  intros Hx Hn [F K O T R S]. split; cbn -[finish].
  - cbn. intros m Hm. destruct (F m Hm) as (F1 & F2 & F3). split_and!; [|done|done]. by apply lookup_delete_None; right.
  - intros m k k' Hk. cbn. intros [_ ?]%lookup_delete_Some. by eapply K.
  - intros Hp. destruct (O Hp) as (m & ? & Hl). exists m. split; [done|]. apply live_finish. split; [done|]. intros ->. auto.
  - intros m [Hl Hm]%live_finish Hy. apply T; [done|]. intros <-. by apply Hm, Hx.
  - done.
  - intros H. destruct (S H) as [S1 S2]. split; [done|]. intros Hc m [Hl _]%live_finish. by apply S2.
Qed.
Lemma sound_firing solo t n : sound solo None t -> live KSettle n (books t) -> sound solo (Some n) (set_payload None t).
Proof.
  intros [F K O T R S] Hl. destruct (T n Hl ltac:(done)) as [Hn _]. split; cbn; try done.
  intros m Hm Hmn. destruct (T m Hm ltac:(done)) as [Hm' _]. congruence.
Qed.
Lemma sound_ends solo t n : lives KSettle n (books t) = false -> sound solo None t ->
  sound solo None (set_books (finish n (books t)) t) /\
  (lives KLLM n (books t) = true -> sound solo None (set_books (finish n (books t)) (set_llm None t))).
Proof.
  intros Hs Ht. assert (Hn : ~ live KSettle n (books t)) by (rewrite <- lives_iff; congruence).
  assert (Hf : sound solo None (set_books (finish n (books t)) t)) by (eapply sound_finish; [|by intros ?|done]; done).
  split; [done|]. intros Hl%lives_iff.
  revert Hf. apply sound_emptied; [split_and!; [done..|]; intros ? []; cbn; naive_solver|].
  intros H1. split; [done|]. intros Hc m [Hm Hmn]%live_finish. destruct Ht as [_ _ _ _ _ S].
  pose proof (proj2 (S H1) Hc n Hl). pose proof (proj2 (S H1) Hc m Hm). congruence.
Qed.

(** ** Runs *)
Definition over (solo : bool) (x : option nat) (st : session * trace) : Prop := sound solo x (tk st.1).

Section runs.
Context (L : environment) (f : config) (solo : bool).
Notation keeps := (preserves (over solo None)).

Lemma steady_ret {A} x (a : A) : preserves (over solo x) (ret a).
Proof. by intros ?. Qed.
Lemma steady_raise {A} x e : preserves (over solo x) (raise e : M A).
Proof. by intros ?. Qed.
Lemma steady_get x : preserves (over solo x) get.
Proof. by intros ?. Qed.
Lemma steady_asks {A} x (g : trace -> A) : preserves (over solo x) (asks g).
Proof. by intros ?. Qed.
Lemma steady_say x e : preserves (over solo x) (say e).
Proof. by intros ?. Qed.
Lemma steady_modify x g : (forall s, tk (g s) = tk s) -> preserves (over solo x) (modify g).
Proof. intros Hg [s tr] H. unfold over. cbn. by rewrite Hg. Qed.
Lemma steady_timed x g : (forall q s, tk (g q s) = tk s) -> preserves (over solo x) (timed L g).
Proof. intros Hg [s tr] H. unfold over. cbn. by rewrite Hg. Qed.
Lemma steady_when x b c : preserves (over solo x) c -> preserves (over solo x) (when b c).
Proof. intros Hc. destruct b; [done|apply steady_ret]. Qed.
Lemma steady_history {A} x (r : result history_error A) : preserves (over solo x) (from_history r).
Proof. by destruct r; intros ?. Qed.
Lemma steady_on_history {A} x (g : History.history -> History.history * A) : preserves (over solo x) (on_history g).
Proof. intros [s tr] H. unfold over, on_history. cbn. by destruct (g _). Qed.
Lemma steady_asr x m : preserves (over solo x) (asr_turn_of m).
Proof. intros st H. unfold asr_turn_of. by case_match. Qed.
Lemma steady_sequence x m : preserves (over solo x) (sequence_of m).
Proof. unfold sequence_of. case_match; [apply steady_ret|apply steady_raise]. Qed.
Lemma steady_number x v : preserves (over solo x) (number v).
Proof. destruct v as [| | |[]| | |]; first [apply steady_ret|apply steady_raise]. Qed.
Lemma steady_run_turn {A} x (c : Turn.M A) : preserves (over solo x) (run_turn c).
Proof. intros [s tr] H. unfold run_turn. by destruct (c _) as [[? ?] ?]. Qed.
Lemma steady_updated x m : preserves (over solo x) (get_updated_meta_info L m).
Proof. unfold get_updated_meta_info. apply preserves_bind; [apply steady_asks|intros ?; apply steady_run_turn]. Qed.

(** The stretches that touch tasks. *)
Definition hushed (st : session * trace) : Prop :=
  solo = true -> left_by_reply (books (tk st.1)) = false -> forall n, ~ live KLLM n (books (tk st.1)).
Lemma steady_cancel_generation x m st : over solo x st -> over solo x (fst (cancel_generation m st)) /\ hushed (fst (cancel_generation m st)).
Proof.
  destruct st as [s tr]. unfold over, hushed. cbn [fst]. intros H.
  unfold cancel_generation, se_bind, when, sequence_of, get. cbn -[cancel pending].
  destruct (pending _ _) eqn:Hp; [|split; [done|intros Hs Hc; by eapply quiet]].
  destruct (llm_task (tk s)) as [n|] eqn:Hn; [|done]. unfold cancel_and_clear, se_bind. cbn -[cancel]. rewrite Hn. cbn -[cancel].
  pose proof (sound_drop_llm solo x _ n Hn H) as Hd.
  destruct (Turn.meta_int _ _); cbn -[cancel]; (split; [exact Hd|intros Hs Hc; rewrite left_cancel in Hc; by eapply quiet_dropped]).
Qed.
Lemma steady_generate x asr text m st : hushed st -> over solo x st -> over solo x (fst (generate f asr text m st)).
Proof.
  destruct st as [s tr]. unfold over, hushed. cbn [fst]. intros Hq H. unfold generate, se_bind, sequence_of, spawn_language_switch_decision, when.
  destruct (Turn.meta_int _ _); [|done]. destruct (language_switcher f); exact (sound_start_llm solo x (tk s) Hq H).
Qed.
Lemma steady_kickoff x text m : preserves (over solo x) (kickoff_llm_generation f text m).
Proof.
  unfold kickoff_llm_generation. apply preserves_bind; [apply steady_asr|intros asr]. apply preserves_bind; [apply steady_get|intros s].
  destruct (keeps_in_flight asr s); [apply steady_ret|]. intros st H. destruct (steady_cancel_generation x m st H) as [H1 H2].
  unfold se_bind. destruct (cancel_generation m st) as [st' [[]|e]]; [by apply steady_generate|done].
Qed.

Lemma steady_arm text m : keeps (arm_regen_settle text m).
Proof.
  intros [s tr] H. unfold over in *. cbn in H. pose proof (sound_revoke _ _ H) as Hr.
  unfold arm_regen_settle, se_bind, get, when, regen_settle_armed. cbn -[cancel].
  destruct (pending _ _) eqn:Hp; cbn -[cancel]; [|by apply (sound_arm solo _ (text, m)) in Hr].
  destruct (regen_settle_task (tk s)) as [n|]; [|done]. cbn -[cancel]. by apply (sound_arm solo _ (text, m)) in Hr.
Qed.
Lemma steady_cancel_regen : keeps cancel_regen.
Proof.
  intros [s tr] H. unfold over in *. cbn in H. pose proof (sound_revoke _ _ H) as Hr.
  unfold cancel_regen, se_bind, get, when, regen_settle_armed. cbn -[cancel].
  destruct (pending _ _) eqn:Hp; cbn -[cancel]; [|done]. by destruct (regen_settle_task (tk s)) as [n|].
Qed.
Lemma steady_drop_llm : keeps (cancel_and_clear llm_task (set_llm None)).
Proof.
  intros [s tr] H. unfold over in *. cbn in H. unfold cancel_and_clear, se_bind. cbn -[cancel].
  destruct (llm_task (tk s)) as [n|] eqn:Hn; [|done]. by apply sound_drop_llm.
Qed.
Lemma steady_drop_eager : keeps (cancel_and_clear eager_llm_task (set_eager None)).
Proof.
  intros [s tr] H. unfold over in *. cbn in H. unfold cancel_and_clear, se_bind. cbn -[cancel].
  destruct (eager_llm_task (tk s)) as [n|] eqn:Hn; [|done]. apply sound_no_eager. eapply (sound_cancel _ _ _ n KLLM); [by right|done|done].
Qed.
Lemma steady_output : keeps start_output_loop.
Proof. intros [s tr] H. exact (sound_start_output solo None (tk s) H). Qed.
Lemma steady_synth : keeps (n <- create_task KSynth ;; modify (on_tk (fun t => set_synths (synthesizer_tasks t ++ [n]) t))).
Proof. intros [s tr] H. exact (sound_start_synth solo None (tk s) H). Qed.
Lemma steady_cancel_each l : forall st, over solo None st -> (forall n, n ∈ l -> n ∈ synthesizer_tasks (tk st.1)) ->
  over solo None (fst (cancel_each l st)).
Proof.
  induction l as [|n l IH]; intros [s tr] H Hl; [done|]. cbn [cancel_each]. unfold se_bind at 1. cbn -[cancel cancel_each].
  apply IH; [|intros m Hm; apply Hl; set_solver]. apply (sound_cancel _ _ (tk s) n KSynth); [apply Hl; set_solver|done|done].
Qed.
Lemma steady_cancel_tasks : keeps cancel_tasks.
Proof.
  unfold cancel_tasks.
  apply preserves_bind; [|intros _].
  { intros [s tr] H. unfold over in *. cbn in H. unfold cancel_and_clear, se_bind. cbn -[cancel].
    destruct (output_task (tk s)) as [n|] eqn:Hn; [|done]. cbn -[cancel]. apply sound_no_output. by eapply (sound_cancel _ _ _ n KOutput). }
  apply preserves_bind; [apply steady_drop_llm|intros _].
  apply preserves_bind; [apply steady_get|intros s0].
  apply preserves_bind; [apply steady_drop_eager|intros _].
  apply preserves_bind; [apply steady_when; by apply steady_modify|intros _].
  apply preserves_bind; [|intros _].
  { intros [s tr] H. unfold over in *. cbn in H. unfold cancel_and_clear, se_bind. cbn -[cancel].
    destruct (first_message_task (tk s)) as [n|] eqn:Hn; [|done]. cbn -[cancel]. apply sound_no_first. by eapply (sound_cancel _ _ _ n KFirst). }
  apply preserves_bind; [by apply steady_modify|intros _].
  intros [s tr] H. unfold se_bind at 1, get at 1. cbn -[cancel_each]. unfold se_bind.
  pose proof (steady_cancel_each (synthesizer_tasks (tk s)) (s, tr) H (fun n Hn => Hn)) as Hc.
  destruct (cancel_each _ _) as [st [[]|e]]; [|done]. by apply sound_no_synths.
Qed.

Ltac keep :=
  repeat first
    [ solve [eauto 2 with listener]
    | match goal with |- preserves _ (se_bind _ _) => apply preserves_bind; [|intros ?] end
    | match goal with
      | |- preserves _ (modify _) => apply steady_modify; intros ?; first [reflexivity | by repeat case_match]
      | |- preserves _ (timed _ _) => apply steady_timed; intros ? ?; reflexivity
      | |- preserves _ (when _ _) => apply steady_when
      | |- preserves _ (if ?b then _ else _) => destruct b
      | |- preserves _ (match ?x with _ => _ end) => destruct x
      end
    | progress cbv zeta ].
#[local] Hint Resolve steady_ret steady_raise steady_get steady_asks steady_say steady_history steady_on_history steady_asr steady_sequence
  steady_number steady_run_turn steady_updated steady_kickoff steady_arm steady_cancel_regen steady_drop_llm steady_drop_eager
  steady_output steady_synth steady_cancel_tasks : listener.

Lemma steady_sweep : keeps sweep.
Proof. unfold sweep. keep. Qed.
Lemma steady_cut current : keeps (cut current).
Proof.
  unfold cut. apply preserves_bind; [keep|intros s]. apply steady_when. case_bool_decide; [|keep].
  intros [s1 tr] H1. by apply sound_left.
Qed.
Lemma steady_route n b text m : keeps (route L f n b text m).
Proof. unfold route. keep. Qed.
Lemma steady_silence q : keeps (silence q).
Proof. unfold silence. keep. Qed.

(** The environment of a sole reply. *)
Definition injects (a : act) : bool := match a with Injects _ _ _ => true | _ => false end.
Definition alone : Prop :=
  (forall tr c, eager_wanted c (l_eager_eot_threshold L tr) = false) /\ (forall tr a, a ∈ l_acts L tr -> injects a = false).
Hypothesis Halone : solo = true -> alone.

Lemma steady_inject row text m : solo = false -> keeps (inject_and_run_llm L row text m).
Proof.
  intros Hs. unfold inject_and_run_llm.
  apply preserves_bind; [keep|intros _]. apply preserves_bind; [keep|intros m']. apply preserves_bind; [keep|intros _].
  intros [s tr] H. refine (sound_start_llm solo None (tk s) _ H). congruence.
Qed.
Lemma steady_fires n st : live KSettle n (books (tk st.1)) -> over solo None st ->
  over solo None (ended n (fst (regen_after_settle f st)).1, (fst (regen_after_settle f st)).2).
Proof.
  destruct st as [s tr]. intros Hl H. unfold over in H. cbn in Hl, H.
  assert (H' : over solo (Some n) (on_tk (set_payload None) s, tr)) by by apply sound_firing.
  assert (Hk : over solo (Some n) (fst (regen_after_settle f (s, tr)))).
  { unfold regen_after_settle, se_bind. cbn. destruct (regen_settle_payload (tk s)) as [[text m]|]; [|done]. by apply steady_kickoff. }
  revert Hk. unfold over. cbn. intros Hk. apply (sound_finish solo (Some n)); [by intros m [= ->]| |exact Hk].
  intros _. by apply (s_firing _ _ _ Hk).
Qed.

Lemma steady_act a st : (solo = true -> injects a = false) -> over solo None st -> over solo None (run_act L f a st).
Proof.
  intros Ha H. destruct a as [g|g|n|n e|n|c| | |row text m|next b text m]; cbn [run_act].
  - done.
  - done.
  - unfold over, ends. cbn. destruct (lives KSettle n _) eqn:Hs; [done|]. destruct (sound_ends solo _ n Hs H) as [H1 H2].
    destruct (lives KLLM n _); [by apply H2|done].
  - unfold over, fails. cbn. destruct (lives KSettle n _) eqn:Hs; [done|]. destruct (sound_ends solo _ n Hs H) as [H1 _].
    by destruct (lives KLLM n _).
  - destruct (lives KSettle n _) eqn:Hs; [|done]. apply lives_iff in Hs. by apply steady_fires.
  - by apply steady_cut.
  - by apply steady_cancel_regen.
  - by apply steady_sweep.
  - apply steady_inject; [|done]. destruct solo; [|done]. by specialize (Ha eq_refl).
  - by apply steady_route.
Qed.
Lemma steady_others st : over solo None st -> over solo None (others_act L f st).
Proof.
  intros H. unfold others_act. assert (Ha : forall a, a ∈ l_acts L st.2 -> solo = true -> injects a = false).
  { intros a Hin Hs. by apply (proj2 (Halone Hs)) in Hin. }
  revert H Ha. generalize (l_acts L st.2). intros l. revert st. induction l as [|a l IH]; intros st H Ha; [done|]. cbn [foldl].
  apply IH; [apply steady_act; [apply Ha; set_solver|done]|]. intros; apply Ha; set_solver.
Qed.
Lemma steady_pause w : keeps (pause L f w).
Proof. intros [s tr] H. unfold pause. cbn [fst snd]. by apply steady_others. Qed.
Lemma steady_lift {A} (c : Turn.M A) : keeps (lift L f c).
Proof.
  intros st H. unfold lift. pose proof (steady_run_turn None c st H) as Hr. destruct (run_turn c st) as [st' r].
  cbn [fst] in *. by destruct (existsb _ _); [apply steady_others|].
Qed.
#[local] Hint Resolve steady_sweep steady_cut steady_silence steady_pause steady_lift : listener.

(** ** The listener *)
Lemma steady_cleanup : keeps (cleanup_downstream_tasks L f).
Proof. unfold cleanup_downstream_tasks, clock. keep. Qed.
Lemma steady_voicemail text b : keeps (trigger_voicemail_check L text b).
Proof. unfold trigger_voicemail_check, clock. keep. Qed.
Lemma steady_retire m r : keeps (retire_dropped_response m r).
Proof. unfold retire_dropped_response. keep. Qed.
Lemma steady_end e d : keeps (end_call_on_component_error L f e d).
Proof. unfold end_call_on_component_error. keep. Qed.
#[local] Hint Resolve steady_cleanup steady_voicemail steady_retire steady_end : listener.

Lemma steady_take n text m : keeps (take_final L f n text m).
Proof. unfold take_final, collect_transcript, merge_overlap, append_final, route. keep. Qed.
Lemma steady_handle n text m : keeps (handle_transcriber_output L f n text m).
Proof. unfold handle_transcriber_output. pose proof steady_take. keep. Qed.
#[local] Hint Resolve steady_handle : listener.

Lemma steady_interim text : keeps (on_interim L f text).
Proof.
  unfold on_interim, speech_of_interim, barge_in, continuation, interim_noted, speech_started_now, clock. keep.
Qed.
Lemma steady_ensure : keeps ensure_output_loop.
Proof. unfold ensure_output_loop. keep. Qed.
#[local] Hint Resolve steady_ensure : listener.
Lemma steady_speculate text q m : solo = false -> keeps (speculate L text q m).
Proof.
  intros Hs. unfold speculate. do 2 (apply preserves_bind; [keep|intros ?]). cbv zeta. apply preserves_bind; [keep|intros _].
  intros [s tr] H. exact (sound_start_eager solo None (tk s) Hs H).
Qed.
Lemma steady_eager text q m : keeps (on_eager_end L text q m).
Proof.
  intros [s tr] H. unfold on_eager_end, se_bind, asks, get. cbn [fst snd].
  destruct (eager_wanted _ _) eqn:He; [|done]. apply steady_when; [|done]. apply steady_speculate.
  destruct solo; [|done]. destruct (Halone eq_refl) as [Hf _]. congruence.
Qed.
Lemma steady_resumed : keeps on_turn_resumed.
Proof. unfold on_turn_resumed. keep. Qed.
Lemma steady_adopt text : solo = false -> keeps (adopt_speculation L f text).
Proof.
  intros Hs. unfold adopt_speculation, collect_transcript, spawn_language_switch_decision. keep.
  intros [s0 tr] H. by apply sound_adopt.
Qed.
Lemma steady_still b : keeps (still_eager b).
Proof. unfold still_eager, drop_speculation. keep. Qed.
#[local] Hint Resolve steady_eager steady_resumed steady_still : listener.
Lemma steady_answer n text b m : keeps (answer_final L f n text b m).
Proof.
  assert (Hr : keeps (m <- get_updated_meta_info L (Some m) ;; handle_transcriber_output L f n text m)) by keep.
  unfold answer_final. apply preserves_bind; [keep|intros b']. intros st H. unfold se_bind at 1, get at 1. cbn [fst snd].
  destruct (eager_llm_task (tk st.1)) as [k|] eqn:He; [|rewrite andb_false_r; by apply Hr].
  destruct b'; [|by apply Hr]. apply steady_adopt; [|done].
  destruct solo; [|done]. destruct (s_solo _ _ _ H eq_refl) as [Hn _]. congruence.
Qed.
#[local] Hint Resolve steady_answer steady_interim : listener.
Lemma steady_streamed msg : keeps (on_streamed L f msg).
Proof.
  unfold on_streamed, set_call_details, process_transcriber_request, on_speech_started, on_final, on_speech_ended, speech_ended,
    maybe_update_tts_language, on_closed, add_transcriber_duration, log_transcriber_connection_error, clock. keep.
Qed.
Lemma steady_message msg : keeps (handle L f msg).
Proof.
  unfold handle. pose proof steady_streamed.
  unfold process_http_transcription, on_closed, add_transcriber_duration, log_transcriber_connection_error, clock. keep.
Qed.
Lemma steady_listen str_of msgs : keeps (listen_transcriber L f str_of msgs).
Proof.
  assert (Hc : keeps (consume L f msgs)).
  { induction msgs as [|msg msgs IH]; cbn [consume]; [keep|]. pose proof steady_message. keep. }
  intros st H. specialize (Hc st H). unfold listen_transcriber. destruct (consume L f msgs st) as [st' [?|[]]]; try done;
    cbn [fst] in Hc; match goal with |- over _ _ (fst (?c _)) => assert (Hk : keeps c) by (unfold se_raise; keep; by intros ?) end; by apply Hk.
Qed.
End runs.

(** ** A tool call in flight *)
Definition in_flight (h : shared) : bool := Turn.function_call_in_flight (Turn.pipe (turn h)).

(** The others let the tool call be: it stays in flight, its task does not end, and no other
    task cleans up or starts a reply. *)
Definition spares (n : nat) (a : act) : Prop :=
  match a with
  | Moves g => forall h, in_flight h = true -> in_flight (g h) = true
  | Ends m | Fails m _ => m <> n
  | Fires _ | Notes _ => True
  | Cuts _ | Revokes | Sweeps | Injects _ _ _ | Routes _ _ _ _ => False
  end.

(** Task [n] answers, and not ahead of the turn, and a tool call is in flight; no settle timer
    runs. *)
Record calling (n : nat) (st : session * trace) : Prop := Calling {
  c_flight : in_flight (sh st.1) = true;
  c_live : live KLLM n (books (tk st.1));
  c_old : (n < next_task (books (tk st.1)))%nat;
  c_eager : eager_llm_task (tk st.1) <> Some n;
  c_timer : forall m, ~ live KSettle m (books (tk st.1)) }.

Section calls.
Context (L : environment) (f : config) (n : nat).
Hypothesis Hspares : forall tr a, a ∈ l_acts L tr -> spares n a.
Notation spared := (preserves (calling n)).

Lemma unharmed_same (st st' : session * trace) : tk st'.1 = tk st.1 -> in_flight (sh st'.1) = in_flight (sh st.1) -> calling n st -> calling n st'.
Proof. intros Ht Hf [F V O G S]. split; rewrite ?Ht, ?Hf; auto. Qed.
Lemma unharmed_modify g : (forall s, tk (g s) = tk s /\ in_flight (sh (g s)) = in_flight (sh s)) -> spared (modify g).
Proof. intros Hg st. by apply unharmed_same; apply Hg. Qed.
Lemma unharmed_timed g : (forall q s, tk (g q s) = tk s /\ in_flight (sh (g q s)) = in_flight (sh s)) -> spared (timed L g).
Proof. intros Hg st. by apply unharmed_same; apply Hg. Qed.
Lemma unharmed_say e : spared (say e).
Proof. intros st. by apply unharmed_same. Qed.
Lemma unharmed_pure {A} (r : result Turn.error A) : spared (fun st => (st, r)).
Proof. by intros st. Qed.
Lemma unharmed_when b c : spared c -> spared (when b c).
Proof. intros Hc. destruct b; [done|by intros ?]. Qed.
Lemma unharmed_history {A} (r : result history_error A) : spared (from_history r).
Proof. by destruct r; intros ?. Qed.
Lemma unharmed_number v : spared (number v).
Proof. destruct v as [| | |[]| | |]; by intros ?. Qed.
Lemma unharmed_updated m : spared (get_updated_meta_info L m).
Proof. intros [s tr] H. unfold get_updated_meta_info, asks, se_bind. cbn [fst snd]. by apply (unharmed_same (s, tr)). Qed.

(** A task is started beside it. *)
Lemma unharmed_started st t' k : k <> KSettle -> calling n st -> books t' = start k (books (tk st.1)) ->
  (eager_llm_task t' = eager_llm_task (tk st.1) \/ eager_llm_task t' = Some (next_task (books (tk st.1)))) ->
  calling n (on_tk (fun _ => t') st.1, st.2).
Proof.
  intros Hk [F V O G S] Hb He. split; cbn; rewrite ?Hb; try done.
  - unfold live, start. cbn. rewrite lookup_insert_ne by lia. exact V.
  - cbn. lia.
  - destruct He as [->| ->]; [done|]. intros [= ?]. lia.
  - intros m [Hm Hc]. unfold start in Hm, Hc. cbn in Hm, Hc. apply lookup_insert_Some in Hm as [[_ ?]|[_ ?]]; [done|]. by apply (S m).
Qed.
Lemma unharmed_drop_eager : spared (cancel_and_clear eager_llm_task (set_eager None)).
Proof.
  intros [s tr] [F V O G S]. unfold cancel_and_clear, se_bind. cbn in *. destruct (eager_llm_task (tk s)) as [m|] eqn:Hm; [|by split; cbn; rewrite ?Hm].
  split; cbn; try done.
  - apply live_cancel. split; [done|congruence].
  - by rewrite next_cancel.
  - intros j [Hj _]%live_cancel. by apply (S j).
Qed.
Lemma unharmed_output : spared start_output_loop.
Proof.
  intros [s tr] H.
  apply (unharmed_same (on_tk (fun _ => set_output (Some (next_task (books (tk s)))) (set_books (start KOutput (books (tk s))) (tk s))) s, tr)); [done..|].
  apply (unharmed_started (s, tr) _ KOutput); [done|done|done|by left].
Qed.

Lemma unharmed_ended m st : m <> n -> calling n st -> calling n (ended m st.1, st.2).
Proof.
  intros Hm [F V O G S]. split; try done.
  - apply live_finish. by split.
  - intros j [Hj _]%live_finish. by apply (S j).
Qed.
Lemma unharmed_act a st : spares n a -> calling n st -> calling n (run_act L f a st).
Proof.
  intros Ha H. destruct a as [g|g|m|m e|m| | | | |]; try done; cbn [run_act spares] in *.
  - destruct H as [F V O G S]. split; try done. by apply Ha.
  - by apply (unharmed_same st).
  - unfold ends. destruct (lives KSettle _ _); [by destruct st|].
    destruct (lives KLLM m _); [|by apply unharmed_ended]. by apply (unharmed_ended m (on_tk (set_llm None) st.1, st.2)); [|destruct H].
  - unfold fails. destruct (lives KSettle _ _); [by destruct st|]. destruct (lives KLLM m _); [|by apply unharmed_ended].
    apply (unharmed_ended m (_, st.2)); [done|]. by apply (unharmed_same st).
  - destruct (lives KSettle m _) eqn:Hl; [|done]. apply lives_iff in Hl. by destruct (c_timer _ _ H m).
Qed.
Lemma unharmed_others st : calling n st -> calling n (others_act L f st).
Proof.
  unfold others_act. pose proof (Hspares st.2) as Ha. revert Ha. generalize (l_acts L st.2). intros l. revert st.
  induction l as [|a l IH]; intros st Ha H; [done|]. cbn [foldl]. apply IH; [intros; apply Ha; set_solver|].
  apply unharmed_act; [apply Ha; set_solver|done].
Qed.
Lemma unharmed_pause w : spared (pause L f w).
Proof. intros [s tr] H. unfold pause. cbn [fst snd]. apply unharmed_others. by apply (unharmed_same (s, tr)). Qed.

Lemma unharmed_ret {A} (a : A) : spared (ret a).
Proof. by intros st. Qed.
Lemma unharmed_raise {A} e : spared (raise e : M A).
Proof. by intros st. Qed.
Lemma unharmed_get : spared get.
Proof. by intros st. Qed.
Lemma unharmed_asks {A} (g : trace -> A) : spared (asks g).
Proof. by intros st. Qed.
#[local] Hint Resolve unharmed_ret unharmed_raise unharmed_get unharmed_asks unharmed_say unharmed_history unharmed_number unharmed_updated
  unharmed_drop_eager unharmed_output unharmed_pause : spared.
Ltac spare :=
  repeat first
    [ solve [eauto 2 with spared]
    | match goal with |- preserves _ (se_bind _ _) => apply preserves_bind; [|intros ?] end
    | match goal with
      | |- preserves _ (modify _) => apply unharmed_modify; intros ?; split; first [reflexivity | by repeat case_match]
      | |- preserves _ (timed _ _) => apply unharmed_timed; intros ? ?; split; reflexivity
      | |- preserves _ (when _ _) => apply unharmed_when
      | |- preserves _ (if ?b then _ else _) => destruct b
      | |- preserves _ (match ?x with _ => _ end) => destruct x
      end
    | progress cbv zeta ].

Lemma unharmed_voicemail text b : spared (trigger_voicemail_check L text b).
Proof. unfold trigger_voicemail_check, clock. spare. Qed.
Lemma unharmed_end e d : spared (end_call_on_component_error L f e d).
Proof. unfold end_call_on_component_error. spare. Qed.
Lemma unharmed_ensure : spared ensure_output_loop.
Proof. unfold ensure_output_loop. spare. Qed.
#[local] Hint Resolve unharmed_voicemail unharmed_end unharmed_ensure : spared.

Lemma unharmed_speculate text q m : spared (speculate L text q m).
Proof.
  unfold speculate. do 2 (apply preserves_bind; [spare|intros ?]). cbv zeta. apply preserves_bind; [spare|intros _].
  intros [s tr] H.
  apply (unharmed_same (on_tk (fun _ => set_eager (Some (next_task (books (tk s)))) (set_books (start KLLM (books (tk s))) (tk s))) s, tr)); [done..|].
  apply (unharmed_started (s, tr) _ KLLM); [done|done|done|by right].
Qed.
Lemma unharmed_interim text : spared (on_interim L f text).
Proof.
  assert (Hs : spared (speech_of_interim L f text)).
  { intros st H. unfold speech_of_interim, se_bind, get. cbn [fst snd].
    assert (Hf : Turn.function_call_in_flight (pipe_of st.1) = true) by apply H.
    rewrite Hf. destruct (_ || _); [destruct (History.is_duplicate_user _ _) as [[]|]|]; done. }
  unfold on_interim. spare.
Qed.
Lemma unharmed_final next text b m : spared (on_final L f next text b m).
Proof.
  intros st H. unfold on_final, se_bind at 1, get at 1. cbn [fst snd].
  assert (Hf : Turn.function_call_in_flight (pipe_of st.1) = true) by apply H. rewrite Hf.
  destruct (Interruption.is_false_interruption _ _ _ _ _).
  - assert (Hc : spared (speech_ended L false 0 None ;;; modify (on_dk (set_early false)))) by (unfold speech_ended; spare). by apply Hc.
  - assert (Hc : spared (speech_ended L false 0 None)) by (unfold speech_ended; spare). by apply Hc.
Qed.
Lemma unharmed_closed m : spared (on_closed L f m).
Proof. unfold on_closed, add_transcriber_duration, log_transcriber_connection_error, clock. spare. Qed.
#[local] Hint Resolve unharmed_speculate unharmed_interim unharmed_final unharmed_closed : spared.
Lemma unharmed_streamed msg : spared (on_streamed L f msg).
Proof.
  unfold on_streamed, set_call_details, process_transcriber_request, on_speech_started, on_speech_ended, speech_ended, on_eager_end, on_turn_resumed. spare.
Qed.
Lemma unharmed_listen str_of msgs : Turn.stream (turns f) = true -> spared (listen_transcriber L f str_of msgs).
Proof.
  intros Hst. assert (Hc : spared (consume L f msgs)).
  { induction msgs as [|msg msgs IH]; cbn [consume]; [spare|]. pose proof unharmed_streamed.
    unfold handle, add_transcriber_duration, log_transcriber_connection_error, clock. rewrite Hst. spare. }
  intros st H. specialize (Hc st H). unfold listen_transcriber. destruct (consume L f msgs st) as [st' [?|[]]]; try done;
    cbn [fst] in Hc; match goal with |- calling _ (fst (?c _)) => assert (Hk : spared c) by (unfold se_raise; spare; by intros ?) end; by apply Hk.
Qed.
End calls.

(** ** What becomes of a final *)

(** The text that is answered: the final, or what stood unanswered before it and the final. *)
Definition answers (text text' : string) : Prop := text' = text \/ exists before, text' = before +:+ " " +:+ text.

(** The turn is owed to the settle timer. *)
Definition owed (text : string) (m : meta) (s : session) : Prop :=
  regen_settle_payload (tk s) = Some (text, m) /\ exists n, regen_settle_task (tk s) = Some n /\ live KSettle n (books (tk s)).
(** The turn's reply is being generated as task [n], and its audio will not be blocked. *)
Definition replying_as (n : nat) (q : Z) (text : string) (m : meta) (st : session * trace) : Prop :=
  llm_task (tk st.1) = Some n /\ live KLLM n (books (tk st.1)) /\ EGenerate n text m ∈ st.2 /\
  Turn.response_in_pipeline (pipe_of st.1) = true /\ Interruption.is_valid_sequence q (manager_of st.1) = true.
Definition replying (q : Z) (text : string) (m : meta) (st : session * trace) : Prop := exists n, replying_as n q text m st.
(** A reply to the same turn of the transcriber is already being generated. *)
Definition kept (asr : val) (s : session) : Prop :=
  pending (llm_task (tk s)) (books (tk s)) = true /\ val_eqb asr (inflight_llm_asr_turn_id (dk s)) = true.

Lemma valid_revalidated q m : Interruption.is_valid_sequence q (Interruption.revalidate_sequence_id q m) = true.
Proof. apply bool_decide_eq_true. cbn. set_solver. Qed.

Lemma generate_outcome f asr text m q x st st' : Turn.meta_int "sequence_id" m = Some q -> sound false x (tk st.1) ->
  generate f asr text m st = (st', Ok tt) -> replying_as (next_task (books (tk st.1))) q text m st'.
Proof.
  destruct st as [s tr]. cbn [fst]. intros Hq [F _ _ _ _ _]. destruct (F _ (Nat.le_refl _)) as (F1 & F2 & _).
  assert (Hl : live KLLM (next_task (books (tk s))) (start KLLM (books (tk s)))) by (apply live_start; [done..|]; by left).
  unfold generate, se_bind, sequence_of, spawn_language_switch_decision, when. rewrite Hq. intros E.
  destruct (language_switcher f); unfold modify, say, ret, se_ret, spawn_generation, se_bind, create_task in E; injection E as <-; split_and!;
    first [exact Hl | apply valid_revalidated | cbn [snd]; set_solver | reflexivity].
Qed.
Lemma cancel_generation_next m st : next_task (books (tk (fst (cancel_generation m st)).1)) = next_task (books (tk st.1)).
Proof.
  destruct st as [s tr]. unfold cancel_generation, se_bind, when, sequence_of, get. cbn -[cancel pending].
  destruct (pending _ _); [|done]. unfold cancel_and_clear, se_bind. cbn -[cancel].
  destruct (llm_task (tk s)); cbn -[cancel]; (destruct (Turn.meta_int _ _); cbn -[cancel]; by rewrite ?next_cancel).
Qed.
Lemma kickoff_cases f text m q x st : Turn.meta_int "sequence_id" m = Some q -> sound false x (tk st.1) ->
  match kickoff_llm_generation f text m st with
  | (st', Ok tt) => replying_as (next_task (books (tk st.1))) q text m st' \/
      (st' = st /\ exists asr, CallScreening.asr_id_to_int (mget "asr_turn_id" m) = Ok asr /\ kept asr st.1)
  | (_, Err _) => forall asr, CallScreening.asr_id_to_int (mget "asr_turn_id" m) <> Ok asr
  end.
Proof.
  intros Hq H. unfold kickoff_llm_generation, se_bind at 1, asr_turn_of.
  destruct (CallScreening.asr_id_to_int _) as [a|e] eqn:Hm; [|done]. cbn [ret se_ret].
  unfold se_bind at 1, get at 1. destruct (keeps_in_flight a st.1) eqn:Hk.
  - right. split; [done|]. exists a. split; [done|]. unfold keeps_in_flight in Hk. rewrite !andb_true_iff in Hk. by destruct Hk as [[[]]].
  - pose proof (proj1 (steady_cancel_generation false x m st H)) as H2. pose proof (cancel_generation_next m st) as Hn.
    assert (Hok : exists st2, cancel_generation m st = (st2, Ok tt)).
    { destruct st as [s tr]. unfold cancel_generation, se_bind, when, sequence_of, get. cbn -[cancel pending]. rewrite Hq.
      destruct (pending _ _); [|by eexists]. unfold cancel_and_clear, se_bind. cbn -[cancel]. destruct (llm_task _); by eexists. }
    destruct Hok as [st2 E2]. rewrite E2 in H2, Hn. unfold se_bind. rewrite E2. cbn [fst] in *.
    assert (Hg : exists st3, generate f a text m st2 = (st3, Ok tt)).
    { unfold generate, se_bind, sequence_of, spawn_language_switch_decision, when. rewrite Hq. destruct (language_switcher f); by eexists. }
    destruct Hg as [st3 E3]. rewrite E3. left. rewrite <- Hn. by eapply generate_outcome.
Qed.
Lemma kickoff_outcome f text m q st st' : Turn.meta_int "sequence_id" m = Some q -> sound false None (tk st.1) ->
  kickoff_llm_generation f text m st = (st', Ok tt) ->
  replying q text m st' \/ exists asr, CallScreening.asr_id_to_int (mget "asr_turn_id" m) = Ok asr /\ kept asr st'.1.
Proof.
  intros Hq H E. pose proof (kickoff_cases f text m q None st Hq H) as Hc. rewrite E in Hc.
  destruct Hc as [?|[-> ?]]; [left; by eexists|by right].
Qed.

Lemma arm_outcome text m st st' : sound false None (tk st.1) -> arm_regen_settle text m st = (st', Ok tt) -> owed text m st'.1.
Proof.
  intros H E. pose proof (steady_arm false text m st H) as Hk. rewrite E in Hk. unfold over in Hk. cbn in Hk.
  assert (Hp : regen_settle_payload (tk st'.1) = Some (text, m)).
  { revert E. destruct st as [s tr]. unfold arm_regen_settle, se_bind, get, when. cbn -[regen_settle_armed cancel].
    destruct (regen_settle_armed s); [destruct (regen_settle_task (tk s))|]; cbn -[cancel]; by intros [= <-]. }
  split; [done|]. apply (s_owed _ _ _ Hk). congruence.
Qed.

Lemma merged_answers text h h' merged : History.pop_and_merge_user text h = (h', Ok merged) -> answers text merged.
Proof.
  unfold History.pop_and_merge_user. intros E. repeat case_match; simplify_eq; [right; by eexists|by left..].
Qed.

Lemma step_over {A} (c : M A) st st' r : preserves (over false None) c -> c st = (st', r) -> sound false None (tk st.1) ->
  sound false None (tk st'.1).
Proof. intros Hc E H. specialize (Hc st H). by rewrite E in Hc. Qed.
Lemma not_alone L : false = true -> alone L.
Proof. done. Qed.

Lemma meta_int_origin v m : Turn.meta_int "sequence_id" (dset "origin" v m) = Turn.meta_int "sequence_id" m.
Proof. unfold Turn.meta_int. by rewrite dget_dset_ne. Qed.
Lemma asr_origin v m : mget "asr_turn_id" (dset "origin" v m) = mget "asr_turn_id" m.
Proof. unfold mget, Webhooks.get_or. by rewrite dget_dset_ne. Qed.

(** The packet's meta information. *)
Definition of_transcriber (m : meta) : meta := dset "origin" (VStr "transcriber") m.

(** A final that is to be answered. *)
Lemma take_outcome L f text m q st st' : Turn.meta_int "sequence_id" m = Some q -> sound false None (tk st.1) ->
  take_final L f (Some "llm") text m st = (st', Ok tt) ->
  exists text', answers text text' /\ (owed text' (of_transcriber m) st'.1 \/ replying q text' (of_transcriber m) st' \/
    exists asr, CallScreening.asr_id_to_int (mget "asr_turn_id" m) = Ok asr /\ kept asr st'.1).
Proof.
  intros Hq H E. unfold take_final in E.
  apply se_bind_Ok in E as (st1 & [] & E1 & E). eapply step_over in E1; [|unfold collect_transcript; apply preserves_bind; [apply steady_say|intros _; apply steady_pause, not_alone]|done].
  unfold se_bind at 1, get at 1 in E. cbv zeta in E.
  set (over := is_llm _ && _) in E. clearbody over.
  apply se_bind_Ok in E as (st2 & merged & E2 & E).
  assert (H2 : sound false None (tk st2.1) /\ answers text merged).
  { destruct over; [|injection E2 as <- <-; split; [done|by left]]. unfold merge_overlap in E2.
    unfold se_bind at 1, get at 1 in E2. apply se_bind_Ok in E2 as (st3 & r & E3 & E2).
    assert (Hr : exists h h', History.pop_and_merge_user text h = (h', r)).
    { unfold on_history in E3. destruct (History.pop_and_merge_user text _) as [h' r'] eqn:Hp. injection E3 as _ <-. by eauto. }
    eapply step_over in E3; [|apply steady_on_history|done].
    apply se_bind_Ok in E2 as (st4 & merged' & E4 & E2). destruct r as [mg|]; [|done]. injection E4 as <- <-.
    apply se_bind_Ok in E2 as (st5 & [] & E5 & E2). eapply step_over in E5; [|apply steady_when, steady_cleanup, not_alone|done].
    apply se_bind_Ok in E2 as (st6 & [] & E6 & E2). eapply step_over in E6; [|by apply steady_modify|done].
    injection E2 as <- <-. split; [done|]. destruct Hr as (h & h' & Hr). by eapply merged_answers. }
  destruct H2 as [H2 Hans].
  apply se_bind_Ok in E as (st3 & [] & E3 & E). eapply step_over in E3; [|by apply steady_modify|done].
  apply se_bind_Ok in E as (st4 & asr & E4 & E). eapply step_over in E4; [|apply steady_asr|done].
  apply se_bind_Ok in E as (st5 & [] & E5 & E). eapply step_over in E5; [| |done].
  2: { unfold append_final. apply preserves_bind; [apply steady_on_history|intros ?]. apply preserves_bind; [apply steady_history|intros ?].
       apply steady_when, steady_on_history. }
  apply se_bind_Ok in E as (st6 & [] & E6 & E). eapply step_over in E6; [|apply steady_lift, not_alone|done].
  unfold route in E. change (is_llm (Some "llm")) with true in E. cbv iota in E.
  unfold se_bind, get, asks in E. cbn [fst snd] in E. exists merged. split; [done|].
  destruct (over && _).
  - left. eapply arm_outcome; [|exact E]. done.
  - right. eapply (kickoff_outcome f merged _ q) in E; [|by rewrite meta_int_origin|done]. rewrite asr_origin in E. exact E.
Qed.

(** The turn does not come to the model; its sequence is retired. *)
Definition dropped (q : Z) (t : tasks) (st : session * trace) : Prop :=
  (exists reason, last st.2 = Some (EDropped reason)) /\ tk st.1 = t /\ Interruption.is_valid_sequence q (manager_of st.1) = false.

Lemma retired m q reason st st' : Turn.meta_int "sequence_id" m = Some q -> 0 <= q ->
  retire_dropped_response m reason st = (st', Ok tt) -> dropped q (tk st.1) st'.
Proof.
  destruct st as [s tr]. unfold retire_dropped_response. intros Hq H0 E. rewrite Hq in E. injection E as <-. split_and!; [|done|].
  - exists reason. cbn [snd]. apply last_snoc.
  - apply bool_decide_eq_false. cbn. unfold Interruption.retire_sequence_id. destruct (q =? -1) eqn:Hm; [lia|].
    case_bool_decide; cbn; set_solver.
Qed.

Lemma voicemail_tasks L text b st st' r : trigger_voicemail_check L text b st = (st', r) -> tk st'.1 = tk st.1.
Proof.
  destruct st as [s tr]. unfold trigger_voicemail_check, se_bind, clock, asks, get. cbn [fst snd].
  destruct (VoicemailHandler.trigger_check _ _ _ _ _) as [h [|]]; by intros [= <- _].
Qed.

Definition is_ok {E A} (r : result E A) : bool := match r with Ok _ => true | Err _ => false end.

(** ** Properties *)


(** C20: The turn that a settle window owes is never stranded: at every wait, a turn is owed
    exactly when the timer that will answer it is running and is not cancelled, and there is
    one such timer. *)
Theorem owed_turn_has_its_timer L f str_of msgs s tr :
  sound false None (tk s) ->
  let t := tk (fst (listen_transcriber L f str_of msgs (s, tr))).1 in
  (regen_settle_payload t <> None -> exists n, regen_settle_task t = Some n /\ lives KSettle n (books t) = true) /\
  (forall n, lives KSettle n (books t) = true -> regen_settle_task t = Some n /\ regen_settle_payload t <> None).
Proof.
  intros Hs t. pose proof (steady_listen L f false (not_alone L) str_of msgs (s, tr) Hs) as Hk. split.
  - intros (n & Hn & Hl)%(s_owed _ _ _ Hk). exists n. by rewrite lives_iff.
  - intros n Hl%lives_iff. by apply (s_timer _ _ _ Hk).
Qed.

(** C21: When its timer fires, the owed turn is answered: its reply is generated as the task of
    the pipeline and its audio will pass, unless a reply to the same turn of the transcriber
    is being generated already; nothing is owed any more. *)
Theorem timer_answers_owed_turn L f s tr n text m q :
  sound false None (tk s) -> owed text m s -> lives KSettle n (books (tk s)) = true -> Turn.meta_int "sequence_id" m = Some q ->
  is_ok (CallScreening.asr_id_to_int (mget "asr_turn_id" m)) = true ->
  let st := run_act L f (Fires n) (s, tr) in
  regen_settle_payload (tk st.1) = None /\
  (replying q text m st \/ exists asr, CallScreening.asr_id_to_int (mget "asr_turn_id" m) = Ok asr /\ kept asr s).
Proof.
  intros Hs [Hp _] Hl Hq Ha st. subst st. cbn [run_act fst]. rewrite Hl. apply lives_iff in Hl.
  pose proof (sound_firing _ _ _ Hs Hl) as Hf. change (set_payload None (tk s)) with (tk (on_tk (set_payload None) s, tr).1) in Hf.
  assert (Er : regen_after_settle f (s, tr) = kickoff_llm_generation f text m (on_tk (set_payload None) s, tr)).
  { unfold regen_after_settle, se_bind, get, modify. cbn [fst snd]. by rewrite Hp. }
  rewrite Er. clear Er.
  pose proof (kickoff_cases f text m q (Some n) (on_tk (set_payload None) s, tr) Hq Hf) as Hc.
  pose proof (steady_kickoff f false (Some n) text m _ Hf) as Hk.
  destruct (kickoff_llm_generation _ _ _ _) as [st' [[]|e]]; [|destruct (CallScreening.asr_id_to_int _); [by destruct (Hc a)|done]].
  cbn [fst snd] in *. split; [by apply (s_firing _ _ _ Hk)|]. destruct Hc as [(H1 & H2 & H3 & H4 & H5)|[_ ?]]; [left|by right].
  eexists. split_and!; [exact H1| |exact H3|exact H4|exact H5]. apply live_finish. split; [done|].
  destruct Hs as [F _ _ _ _ _]. intros Hn. cbn in Hn. destruct (F n ltac:(lia)) as (F1 & _). destruct Hl as [Hl _]. congruence.
Qed.

(** C19: What [handle_transcriber_output] makes of a final it is given on the leg to the model,
    when it returns: the final is dropped with its sequence retired and no task touched; or
    the text that is answered ends with it, and the turn is owed to the settle timer, or its
    reply is being generated and its audio will pass, or a reply to the same turn of the
    transcriber is being generated already. The finals that do not get there, being false
    interruptions, adopted from an eager end of turn, or said while a tool is called, are
    not meant ([Example.speech_in_tool_call_lost]). *)
Theorem final_is_disposed L f text m q st st' :
  Turn.meta_int "sequence_id" m = Some q -> 0 <= q -> sound false None (tk st.1) ->
  handle_transcriber_output L f (Some "llm") text m st = (st', Ok tt) ->
  dropped q (tk st.1) st' \/
  exists text', answers text text' /\ (owed text' (of_transcriber m) st'.1 \/ replying q text' (of_transcriber m) st' \/
    exists asr, CallScreening.asr_id_to_int (mget "asr_turn_id" m) = Ok asr /\ kept asr st'.1).
Proof.
  intros Hq H0 Hs E. unfold handle_transcriber_output in E. unfold se_bind at 1, get at 1 in E.
  destruct (welcome_message_played _); cbn [negb] in E.
  2: { apply se_bind_Ok in E as (st1 & [] & E1 & E). apply voicemail_tasks in E1. rewrite <- E1. left. by eapply retired. }
  destruct (speech_started_before_welcome _).
  { apply se_bind_Ok in E as (st1 & [] & E1 & E). injection E1 as <-. left. by eapply retired in E. }
  apply se_bind_Ok in E as (st1 & dup & E1 & E).
  assert (Est : st1 = st) by (revert E1; destruct (History.is_duplicate_user _ _); by intros [= -> _]). subst st1.
  destruct dup; [left; by eapply retired|].
  apply se_bind_Ok in E as (st1 & [] & E2 & E). apply voicemail_tasks in E2. rewrite <- E2 in *.
  unfold se_bind at 1, get at 1 in E. destruct (VoicemailHandler.detected _); [left; by eapply retired|].
  right. by eapply take_outcome.
Qed.

(** A tool call is not cut short by speech: over streamed messages, while the call is in
    flight, the task that made it is not cancelled, so that its result is recorded and the
    tool runs once. *)
Theorem tool_call_survives_speech L f str_of msgs s tr n :
  Turn.stream (turns f) = true -> (forall tr a, a ∈ l_acts L tr -> spares n a) -> calling n (s, tr) ->
  calling n (fst (listen_transcriber L f str_of msgs (s, tr))).
Proof. intros Hst Hsp Hc. by apply (unharmed_listen L f n Hsp str_of msgs Hst (s, tr)). Qed.

(** ** A call *)
Definition opening : tasks := Tasks None None None None [] None None (Loop ∅ ∅ 0 false).
Lemma sound_opening solo : sound solo None opening.
Proof.
  split; cbn; try done.
  - intros n _. split_and!; [done|set_solver|]. intros []; cbn; [by intros [?|?]|done..|by intros ?%elem_of_nil|done].
  - by intros n [].
  - intros _. split; [done|]. by intros _ n [].
Qed.

Module Example.
Definition said (user_spoke : bool) : desk := Desk None None VNone false user_spoke 0 "" "".
Definition call (h : History.history) (t : tasks) : session :=
  let u := TurnRuns.Example.start in
  Session (Shared (Turn.set_history h (Turn.set_manager Interruption.fresh_manager 0 (Turn.set_task false u))) false true
             (VoicemailHandler.init false true 1 3 30))
    t (said false) (Requests VNone VNone [] [] VNone VNone) (Fate None false [] 0).
Definition silent : History.history := History.mkHistory [] [].

(** What the others do at the waits of the listener, by their number from zero on. *)
Definition waits_of (tr : trace) : nat := length (List.filter (fun e => match e with EWait _ => true | _ => false end) tr).
Definition world (acts : list (list act)) (eager : option Q) : environment :=
  Environment (fun tr => default [] (acts !! (waits_of tr - 1)%nat)) (fun _ => false) (fun _ => 0%Q) TurnRuns.Example.farewell (fun _ => [])
    (fun _ => Some 1) (fun _ => eager) (fun _ => true) (fun _ => true) (fun _ => true) false.
Definition line (streamed : bool) : config :=
  let c := TurnRuns.Example.line in
  Config false 900 3 [["transcriber"; "llm"; "synthesizer"; "output"]] false false 0
    (Turn.Config streamed (Turn.graph_agent c) (Turn.knowledgebase_agent c) (Turn.switcher c) (Turn.has_output c) (Turn.has_synthesizer c)
       (Turn.browser_leg c) (Turn.s2s c) (Turn.turn_based c) (Turn.first_task c) (Turn.on_turn_usage c) (Turn.on_overflow c)
       (Turn.online_default c) (Turn.llm_hangup c) (Turn.end_call_primary c) (Turn.model c) (Turn.asr_turn_id c) (Turn.handoff_messages c)
       (Turn.voice_names c) (Turn.dominant_language c) (Turn.injection_mode c) (Turn.instruction_template c) (Turn.xfer c)).
Definition about (turn : Z) : meta := [("request_id", VStr "r1"); ("sequence", VInt 0); ("asr_turn_id", VInt turn)].
Definition final (text : string) (turn : Z) : message := Message (Final text false) (Some (about turn)).
Definition interim (text : string) (turn : Z) : message := Message (Interim text) (Some (about turn)).
Definition listen (acts : list (list act)) (eager : option Q) (msgs : list message) : session * trace :=
  fst (listen_transcriber (world acts eager) (line true) (fun _ => "") msgs (call silent opening, [])).



Lemma alone_quiet : alone (world [] None).
Proof. split; [done|]. intros tr a Ha. cbn in Ha. by apply elem_of_nil in Ha. Qed.
Lemma sound_listen acts eager msgs h : sound false None (tk (fst (listen_transcriber (world acts eager) (line true) (fun _ => "") msgs (call h opening, []))).1).
Proof. exact (steady_listen _ _ false (not_alone _) _ msgs (call h opening, []) (sound_opening false)). Qed.




(** A reply that tears the call down goes on, and nothing names it. *)
Example reply_leaves :
  let t := tk (run_act (world [] None) (line true) (Cuts (Some 1%nat)) (listen [] None [final "book a table" 1])).1 in
  lives KLLM 1 (books t) = true /\ llm_task t = None /\ left_by_reply (books t) = true.
Proof. vm_compute. by split_and!. Qed.

Definition table_for_two : list message := [final "book a table" 1; final "for two" 1].
Definition waiting : session := (listen [] None table_for_two).1.
Lemma owed_turn_has_its_timer_witness :
  let t := tk waiting in
  (regen_settle_payload t <> None -> exists n, regen_settle_task t = Some n /\ lives KSettle n (books t) = true) /\
  (forall n, lives KSettle n (books t) = true -> regen_settle_task t = Some n /\ regen_settle_payload t <> None).
Proof.
  exact (owed_turn_has_its_timer (world [] None) (line true) (fun _ => "") table_for_two (call silent opening) [] (sound_opening false)).
Defined.

Definition packet : meta := match regen_settle_payload (tk waiting) with Some p => p.2 | None => [] end.
Lemma waiting_owed : owed "book a table for two" packet waiting.
Proof. split; [vm_compute; reflexivity|]. exists 3%nat. split; [vm_compute; reflexivity|]. apply lives_iff. vm_compute. reflexivity. Qed.
Lemma timer_answers_owed_turn_witness :
  let st := run_act (world [] None) (line true) (Fires 3) (waiting, []) in
  regen_settle_payload (tk st.1) = None /\ (replying 2 "book a table for two" packet st \/
    exists asr, CallScreening.asr_id_to_int (mget "asr_turn_id" packet) = Ok asr /\ kept asr waiting).
Proof.
  apply timer_answers_owed_turn; [exact (sound_listen [] None table_for_two silent)|exact waiting_owed|vm_compute; reflexivity..].
Defined.

Definition asked : session * trace := (call silent opening, []).
Definition stamped : meta := dset "sequence_id" (VInt 1) (about 1).
Definition heard : session * trace := fst (handle_transcriber_output (world [] None) (line true) (Some "llm") "book a table" stamped asked).
Lemma final_is_disposed_witness :
  dropped 1 (tk asked.1) heard \/
  exists text', answers "book a table" text' /\ (owed text' (of_transcriber stamped) heard.1 \/ replying 1 text' (of_transcriber stamped) heard \/
    exists asr, CallScreening.asr_id_to_int (mget "asr_turn_id" stamped) = Ok asr /\ kept asr heard.1).
Proof.
  apply (final_is_disposed (world [] None) (line true)); [vm_compute; reflexivity|lia|exact (sound_opening false)|vm_compute; reflexivity].
Defined.

(** The reply to the first final calls a tool. *)
Definition flying (h : shared) : shared := set_turn (Turn.set_in_flight true (turn h)) h.
Definition calling_tool : session := on_sh flying (listen [] None [final "book a table" 1]).1.
Lemma calling_1 : calling 1 (calling_tool, []).
Proof.
  split; [vm_compute; reflexivity|apply lives_iff; vm_compute; reflexivity|vm_compute; lia|vm_compute; discriminate|].
  assert (E : running (books (tk calling_tool)) = <[1%nat := KLLM]> {[0%nat := KOutput]}) by (vm_compute; reflexivity).
  intros m [Hm _]. cbn [fst] in Hm. rewrite E in Hm.
  apply lookup_insert_Some in Hm as [[_ ?]|[_ [_ ?]%lookup_singleton_Some]]; done.
Qed.
Definition talked_over : list message := [interim "for two please ok" 1; final "for two please ok" 1].
Lemma tool_call_survives_speech_witness :
  calling 1 (fst (listen_transcriber (world [] None) (line true) (fun _ => "") talked_over (calling_tool, []))).
Proof.
  apply tool_call_survives_speech; [reflexivity| |exact calling_1].
  intros tr a Ha. cbn in Ha. by apply elem_of_nil in Ha.
Defined.

(** ** What goes wrong *)
Definition said_rows (s : session) : list val := map (mget "content") (rows s).

(** A transcriber that sends the turn so far with every final has it doubled when the first
    final is still being answered: the overlapping final is joined to the row it repeats. *)
Example cumulative_final_doubled :
  said_rows (listen [] None [final "8 7" 1; final "8 7 4 2" 1]).1 = [VStr "8 7 8 7 4 2"] /\
  said_rows (listen [] None [final "8 7" 1; final "8 7 4 2" 1; final "8 7 4 2 9" 1]).1 = [VStr "8 7 8 7 4 2 8 7 4 2 9"].
Proof. split; vm_compute; reflexivity. Qed.

(** A second eager end of turn leaves the reply to the first one running: nothing names it
    any more, so that nothing will cancel it. *)
Example two_eager_replies :
  let eager t := Message (EagerEnd t None) (Some (about 1)) in
  let t := tk (listen [] (Some (1 # 2)%Q) [eager "book a table"; eager "book a table for two"]).1 in
  lives KLLM 1 (books t) = true /\ lives KLLM 2 (books t) = true /\ llm_task t = None /\ eager_llm_task t = Some 2%nat.
Proof. vm_compute. by split_and!. Qed.

(** Over an unstreamed leg the tool call in flight is cancelled by the next final. *)
Example http_final_cuts_tool_call :
  let t := tk (fst (listen_transcriber (world [] None) (line false) (fun _ => "") [final "for two please" 1] (calling_tool, []))).1 in
  lives KLLM 1 (books (tk calling_tool)) = true /\ lives KLLM 1 (books t) = false /\ 1%nat ∈ cancelled (books t).
Proof. vm_compute. split_and!; [done|done|]. apply (bool_decide_unpack _). vm_compute. exact I. Qed.

(** What is said while a tool call is in flight is not deferred: it is not kept anywhere. *)
Example speech_in_tool_call_lost :
  said_rows (fst (listen_transcriber (world [] None) (line true) (fun _ => "") talked_over (calling_tool, []))).1 = [VStr "book a table"].
Proof. vm_compute. reflexivity. Qed.

(** An interim within the grace period takes the owed turn back; when no final follows it,
    what the caller said stays unanswered. *)
Definition row (r t : string) : msg := [("role", VStr r); ("content", VStr t)].
Definition talked : History.history := History.mkHistory [row SYSTEM "You are Ada."; row USER "hi"; row ASSISTANT "Hello!"] [].
Example interim_takes_owed_turn_back :
  let st := fst (listen_transcriber (world [] None) (line true) (fun _ => "") (table_for_two ++ [interim "with a nice sea view" 1])
                   (call talked opening, [])) in
  last (said_rows st.1) = Some (VStr "book a table for two") /\ regen_settle_payload (tk st.1) = None /\
  forallb (fun n => negb (lives KLLM n (books (tk st.1)))) (seq 0 (next_task (books (tk st.1)))) = true.
Proof. vm_compute. by split_and!. Qed.
End Example.
End ListenerRuns.
