(* ===== verification/Privacy.v ===== *)
(** * Consent, the rights of data subjects, and retention (src/voiceai/modules/privacy,
    core/container.py _build_retention_service)

    The two documents as [Model]s, the consent service over any [Repository], and the
    retention pass over the unscoped repositories. [uuid4().hex] and [utc_now()] are
    arguments; a time is a number of microseconds; the digest of an address is a
    parameter. *)
From S2P Require Import Prelude PyText PyVal Pagination Repository Scoped.
From stdpp Require Import gmap fin_sets.
Open Scope Z_scope.
Open Scope voice_scope.

Definition PURPOSE_ANALYTICS : string := "analytics".
Definition PURPOSE_MARKETING : string := "marketing".
Definition PURPOSE_THIRD_PARTY_SHARING : string := "third_party_sharing".
Definition PURPOSE_VOICE_RECORDING : string := "voice_recording".
Definition KNOWN_PURPOSES : list string :=
  [PURPOSE_ANALYTICS; PURPOSE_MARKETING; PURPOSE_THIRD_PARTY_SHARING; PURPOSE_VOICE_RECORDING].
Definition SUBJECT_ID_FIELD : string := "subject_id".
Definition ACTION_ACCESS : string := "access".
Definition ACTION_RECTIFICATION : string := "rectification".
Definition ACTION_ERASURE : string := "erasure".

Record ConsentRecord := mkConsent {
  cr_base : BaseFields; subject_id : string; purpose : string; granted : bool; policy_version : string;
  granted_at : option Z; withdrawn_at : option Z; ip_hash : option string }.
Record PrivacyAuditRecord := mkAudit {
  ar_base : BaseFields; ar_subject_id : string; action : string; actor_id : string; detail : string }.

Definition opt_time (o : option Z) : val := match o with Some z => VInt z | None => VNone end.
Definition consent_field (r : ConsentRecord) (f : string) : option val :=
  if decide (f = SUBJECT_ID_FIELD) then Some (VStr (subject_id r))
  else if decide (f = "purpose") then Some (VStr (purpose r))
  else if decide (f = "granted") then Some (VBool (granted r))
  else if decide (f = "policy_version") then Some (VStr (policy_version r))
  else if decide (f = "granted_at") then Some (opt_time (granted_at r))
  else if decide (f = "withdrawn_at") then Some (opt_time (withdrawn_at r))
  else if decide (f = "ip_hash") then Some (opt_str (ip_hash r)) else None.
Definition audit_field (r : PrivacyAuditRecord) (f : string) : option val :=
  if decide (f = SUBJECT_ID_FIELD) then Some (VStr (ar_subject_id r))
  else if decide (f = "action") then Some (VStr (action r))
  else if decide (f = "actor_id") then Some (VStr (actor_id r))
  else if decide (f = "detail") then Some (VStr (detail r)) else None.

Ltac solve_privacy_model :=
  try done;
  try (by intros; match goal with m : _ |- _ => destruct m end);
  intros m f Hf; cbv [consent_field audit_field SUBJECT_ID_FIELD];
  repeat (apply elem_of_cons in Hf as [->|Hf]; [done|]); by apply elem_of_nil in Hf.

#[export] Instance consent_model : Model ConsentRecord.
Proof.
  refine {| base_of := cr_base; own_field := consent_field;
            set_base b r := mkConsent b (subject_id r) (purpose r) (granted r) (policy_version r) (granted_at r)
                              (withdrawn_at r) (ip_hash r) |}; solve_privacy_model.
Defined.
#[export] Instance audit_model : Model PrivacyAuditRecord.
Proof.
  refine {| base_of := ar_base; own_field := audit_field;
            set_base b r := mkAudit b (ar_subject_id r) (action r) (actor_id r) (detail r) |}; solve_privacy_model.
Defined.

Inductive privacy_error : Type :=
| DbError (e : db_error)
| UnknownPurposeError
| ConsentNotFoundError.

Module Privacy.
Section service.
Context {SC SA : Type} {RC : Repository ConsentRecord SC} {RA : Repository PrivacyAuditRecord SA}.
(** [sha256(...).hexdigest()]; whether an audit store is wired. *)
Context (sha256 : string -> string) (audited : bool).

Record store := Store { consents : SC; audit : SA }.
Notation M := (SE store privacy_error).

(** ** Storage (repository.py) *)
Definition rows_of (subject : string) (s : store) : list ConsentRecord :=
  rp_find_many SUBJECT_ID_FIELD (VStr subject) MAX_PAGE_SIZE (consents s).
Definition find_active (subject : string) (s : store) : list ConsentRecord :=
  List.filter (fun r => granted r && m_active r) (rows_of subject s).
Definition find_one (subject p : string) (s : store) : option ConsentRecord :=
  List.find (fun r => bool_decide (purpose r = p) && granted r) (rows_of subject s).
Definition save (uuid : string) (r : ConsentRecord) : M ConsentRecord := fun s =>
  let '(c, saved) := rp_insert uuid r (consents s) in (Store c (audit s), Ok saved).
Definition delete (now : Z) (consent_id : string) : M bool := fun s =>
  let '(c, r) := rp_soft_delete now None consent_id (consents s) in
  (Store c (audit s), match r with Ok b => Ok b | Err e => Err (DbError e) end).

(** ** Service (service.py) *)
Definition ensure_known_purpose (p : string) : M unit :=
  if bool_decide (p ∈ KNOWN_PURPOSES) then se_ret tt else se_raise UnknownPurposeError.
Definition ensure_found (o : option ConsentRecord) : M ConsentRecord :=
  match o with Some r => se_ret r | None => se_raise ConsentNotFoundError end.
Definition caller_ip_hash (ip : option string) : option string :=
  match ip with Some i => if str_true i then Some (sha256 i) else None | None => None end.

Definition with_version (v : string) (r : ConsentRecord) : ConsentRecord :=
  mkConsent (cr_base r) (subject_id r) (purpose r) (granted r) v (granted_at r) (withdrawn_at r) (ip_hash r).
Definition withdrawn (now : Z) (r : ConsentRecord) : ConsentRecord :=
  mkConsent (cr_base r) (subject_id r) (purpose r) false (policy_version r) (granted_at r) (Some now) (ip_hash r).

(** The constructor of the model, with its two length checks (a known purpose is not empty). *)
Definition new_record (now : Z) (subject p version : string) (client_ip : option string) : M ConsentRecord :=
  if str_true subject && str_true version then
    se_ret (mkConsent (base_default now None) subject p true version (Some now) None (caller_ip_hash client_ip))
  else se_raise (DbError ValidationError).

Definition grant (now : Z) (uuid : string) (subject p version : string) (client_ip : option string) (refresh : bool) :
    M ConsentRecord :=
  ensure_known_purpose p ;;;
  s <- se_get ;;
  match find_one subject p s with
  | Some existing =>
      if refresh && negb (bool_decide (policy_version existing = version)) then save uuid (with_version version existing)
      else se_ret existing
  | None =>
      r <- new_record now subject p version client_ip ;;
      save uuid r
  end.

Definition list_consents (subject : string) : M (list ConsentRecord) := s <- se_get ;; se_ret (find_active subject s).

Definition withdraw (now : Z) (uuid : string) (subject p : string) : M ConsentRecord :=
  ensure_known_purpose p ;;;
  s <- se_get ;;
  r <- ensure_found (find_one subject p s) ;;
  save uuid (withdrawn now r).

(** [subject_summary] (helpers.py) *)
Definition string_leb (a b : string) : bool := match String.compare a b with Gt => false | _ => true end.
Definition subject_summary (subject : string) (purposes : list string) : string :=
  "subject=" +:+ subject +:+ " purposes=" +:+ PyText.join "," (sort_by string_leb purposes).

Definition record_action (now : Z) (uuid : string) (subject act actor : string) (purposes : list string) : M unit := fun s =>
  if negb audited then (s, Ok tt)
  else if negb (str_true subject) then (s, Err (DbError ValidationError))
  else
    (Store (consents s) (rp_insert uuid (mkAudit (base_default now None) subject act actor (subject_summary subject purposes))
                           (audit s)).1, Ok tt).

Definition access_data (now : Z) (uuid : string) (subject actor : string) : M (list ConsentRecord) :=
  s <- se_get ;;
  let rows := find_active subject s in
  record_action now uuid subject ACTION_ACCESS actor (map purpose rows) ;;;
  se_ret rows.

Fixpoint delete_each (now : Z) (rows : list ConsentRecord) : M unit :=
  match rows with
  | [] => se_ret tt
  | r :: rows => delete now (match m_id r with Some i => i | None => "" end) ;;; delete_each now rows
  end.

Definition erase_subject (now : Z) (uuid : string) (subject actor : string) : M Z :=
  s <- se_get ;;
  let rows := find_active subject s in
  delete_each now rows ;;;
  record_action now uuid subject ACTION_ERASURE actor (map purpose rows) ;;;
  se_ret (Z.of_nat (length rows)).

Definition rectify_subject (now : Z) (uuid uuid' : string) (subject p version actor : string) : M ConsentRecord :=
  r <- grant now uuid subject p version None true ;;
  record_action now uuid' subject ACTION_RECTIFICATION actor [p] ;;;
  se_ret r.
End service.
End Privacy.

(** ** Retention (retention.py; the targets of container.py) *)
Module Retention.
Section target.
Context {R S : Type} `{HM : Model R} {RR : Repository R S}.

Definition expired (threshold : Z) (r : R) : bool := updated_at (base_of r) <? threshold.

(** The rows of one page, as it was read. *)
Fixpoint erase_rows (now threshold : Z) (rows : list R) (erased : Z) : SE S db_error Z :=
  match rows with
  | [] => se_ret erased
  | r :: rows =>
      if expired threshold r then
        (fun s => match rp_soft_delete now None (match m_id r with Some i => i | None => "" end) s with
                  | (s, Ok b) => erase_rows now threshold rows (if b then erased + 1 else erased) s
                  | (s, Err e) => (s, Err e)
                  end)
      else erase_rows now threshold rows erased
  end.

(** The walk reads a page when the rows of the one before are done with. [None]: [fuel]
    pages did not reach the end. *)
Fixpoint erase_pages (fuel : nat) (now threshold page_number erased : Z) (s : S) : S * option (result db_error Z) :=
  match fuel with
  | O => (s, None)
  | Datatypes.S fuel =>
      let page := rp_list_where [] (mkPaginationParams page_number MAX_PAGE_SIZE) s in
      match erase_rows now threshold (pg_items page) erased s with
      | (s, Err e) => (s, Some (Err e))
      | (s, Ok erased) =>
          if match pg_items page with [] => true | _ => false end || negb (has_next page) then (s, Some (Ok erased))
          else erase_pages fuel now threshold (page_number + 1) erased s
      end
  end.

(** [_erase]; [ttl] in seconds *)
Definition erase (fuel : nat) (now ttl cutoff : Z) (s : S) : S * option (result db_error Z) :=
  erase_pages fuel now (cutoff - ttl * 1000000) MIN_PAGE 0 s.
End target.

(** A target over the collections [W]. *)
Record target (W : Type) := Target { name : string; ttl_s : Z; purge : Z -> W -> W * option (result db_error Z) }.
Arguments Target {W}. Arguments name {W}. Arguments ttl_s {W}. Arguments purge {W}.

(** [run_cycle]: a target that raises is counted as nothing, and the cycle goes on. *)
Fixpoint run_cycle {W} (cutoff : Z) (targets : list (target W)) (results : dict string Z) (w : W) : W * option (dict string Z) :=
  match targets with
  | [] => (w, Some results)
  | t :: targets =>
      if ttl_s t <=? 0 then run_cycle cutoff targets (dset (name t) 0 results) w
      else match purge t cutoff w with
           | (w, None) => (w, None)
           | (w, Some r) => run_cycle cutoff targets (dset (name t) (match r with Ok n => n | Err _ => 0 end) results) w
           end
  end.

(** Cycles, one after the other, with what each reports; [None]: a walk ran out of
    pages to read. *)
Fixpoint cycles {W} (cutoffs : list Z) (targets : list (target W)) (w : W) : option (W * list (dict string Z)) :=
  match cutoffs with
  | [] => Some (w, [])
  | cutoff :: cutoffs =>
      match run_cycle cutoff targets [] w with
      | (w, Some report) => '(w, reports) ← cycles cutoffs targets w; Some (w, report :: reports)
      | (_, None) => None
      end
  end.

(** *** What a pass does, on every lawful backend *)
Section passes.
Context {R S : Type} `{laws : RepositoryLaws R S}.
Implicit Types (s : S) (r : R).

Lemma erase_rows_spec now th l erased s : rp_inv s -> NoDup (map m_id l) ->
  (forall r, r ∈ l -> r ∈ rp_view s /\ is_Some (m_id r)) ->
  let gone := List.filter (expired th) l in
  exists s', erase_rows now th l erased s = (s', Ok (erased + Z.of_nat (length gone))) /\ rp_inv s' /\
    (gone = [] -> s' = s) /\ forall m, m ∈ rp_view s' <-> m ∈ rp_view s /\ m_id m ∉ map m_id gone.
Proof.
  revert s erased. induction l as [|r l IH]; intros s erased Hi Hnd Hl gone; subst gone.
  { exists s. cbn. rewrite Z.add_0_r. split_and!; [done..|]. intros m. split; [|by intros [? _]]. intros Hm. split; [done|]. apply not_elem_of_nil. }
  cbn [map] in Hnd. apply NoDup_cons in Hnd as [Hni Hnd].
  cbn [erase_rows List.filter]. destruct (expired th r); [|apply IH; [done..|]; intros; apply Hl; by right].
  destruct (Hl r ltac:(by left)) as [Hr [i Ei]]. rewrite Ei.
  pose proof (rp_soft_delete_hit now None i s r Hi Hr Ei) as Er.
  pose proof (rp_soft_delete_view now None i s) as Hv. pose proof (rp_soft_delete_inv now None i s Hi) as Hi1.
  destruct (rp_soft_delete now None i s) as [s1 res]. cbn [fst snd] in *. subst res.
  destruct (IH s1 (erased + 1) Hi1 Hnd) as (s' & -> & Hi' & _ & Hv').
  { intros m Hm. destruct (Hl m ltac:(by right)) as [Hmv Hid]. split; [|done]. apply Hv; [done|]. split; [done|].
    intros E. apply Hni. rewrite Ei, <- E. apply list_elem_of_fmap. by exists m. }
  exists s'. cbn [length map]. split_and!; [do 2 f_equal; lia|done|done|].
  intros m. rewrite Hv', Hv by done. rewrite Ei, not_elem_of_cons. tauto.
Qed.

Lemma map_id_NoDup s : rp_inv s -> NoDup (rp_view s).
Proof. intros Hs. apply (NoDup_fmap_1 m_id), rp_view_ids, Hs. Qed.

(** The rows a page loses and the listing that is left are the listing that was. *)
Lemma split_gone s s' gone : rp_inv s -> rp_inv s' -> NoDup (map m_id gone) -> (forall m, m ∈ gone -> m ∈ rp_view s) ->
  (forall m, m ∈ rp_view s' <-> m ∈ rp_view s /\ m_id m ∉ map m_id gone) -> rp_view s ≡ₚ gone ++ rp_view s'.
Proof.
  intros Hs Hs' Hnd Hg Hv. apply NoDup_Permutation; [by apply map_id_NoDup| |].
  - apply NoDup_app. split_and!; [by apply (NoDup_fmap_1 m_id)| |by apply map_id_NoDup].
    intros m Hm [_ Hni]%Hv. apply Hni, list_elem_of_fmap. by exists m.
  - intros m. rewrite elem_of_app, Hv. split; [|intros [?|[? _]]; auto].
    intros Hm. destruct (decide (m_id m ∈ map m_id gone)) as [(e & E & He)%list_elem_of_fmap|]; [left|by right].
    by rewrite (rp_view_inj s m e) by auto.
Qed.

Definition named s : Prop := forall r, r ∈ rp_view s -> is_Some (m_id r).

(** The rows of one page of a listing with nothing filtered. *)
Lemma page_rows s page : rp_inv s -> MIN_PAGE <= page ->
  let pg := rp_list_where [] (mkPaginationParams page MAX_PAGE_SIZE) s in
  let k := Z.to_nat ((page - 1) * MAX_PAGE_SIZE) in
  sublist (pg_items pg) (rp_view s) /\ pg_items pg ++ drop (Z.to_nat (page * MAX_PAGE_SIZE)) (rp_view s) = drop k (rp_view s) /\
  (has_next pg = true <-> page * MAX_PAGE_SIZE < Z.of_nat (length (rp_view s))) /\
  (pg_items pg = [] -> drop k (rp_view s) = []).
Proof.
  intros Hs Hp pg k. subst pg. rewrite rp_list_spec by done. rewrite (lfilter_id _ (rp_view s)) by done.
  set (p := mkPaginationParams page MAX_PAGE_SIZE).
  assert (params_valid p) as Hv by (unfold params_valid, p, MIN_PAGE_SIZE, MAX_PAGE_SIZE, MIN_PAGE in *; cbn; lia).
  assert (skip p = (page - 1) * MAX_PAGE_SIZE) as Hskip by done.
  assert (limit p = MAX_PAGE_SIZE) as Hlim by done.
  unfold cut_page, paginate. cbn [pg_items]. rewrite Hskip, Hlim.
  replace ((page - 1) * MAX_PAGE_SIZE + MAX_PAGE_SIZE) with (page * MAX_PAGE_SIZE) by lia.
  unfold MIN_PAGE in Hp. split_and!.
  - apply slice_sublist.
  - apply slice_drop. unfold MAX_PAGE_SIZE. lia.
  - apply (cut_page_has_next (rp_view s) p Hv).
  - intros E. apply slice_nil_inv in E; [|unfold MAX_PAGE_SIZE; lia]. apply drop_ge. lia.
Qed.

Lemma erase_pages_spec fuel now th page erased s : rp_inv s -> named s -> MIN_PAGE <= page -> (0 < fuel)%nat ->
  Z.of_nat (length (rp_view s)) <= (page - 1 + Z.of_nat fuel) * MAX_PAGE_SIZE ->
  exists s' gone, erase_pages fuel now th page erased s = (s', Some (Ok (erased + Z.of_nat (length gone)))) /\
    rp_inv s' /\ rp_view s ≡ₚ gone ++ rp_view s' /\ (forall r, r ∈ gone -> expired th r = true) /\
    ((exists r, r ∈ drop (Z.to_nat ((page - 1) * MAX_PAGE_SIZE)) (rp_view s) /\ expired th r = true) -> gone <> []) /\
    (page = MIN_PAGE -> Z.of_nat (length (rp_view s)) <= MAX_PAGE_SIZE -> forall r, r ∈ rp_view s' -> expired th r = false).
Proof.
  revert page erased s. induction fuel as [|fuel IH]; intros page erased s Hi Hid Hp Hf Hlen; [lia|].
  destruct (page_rows s page Hi Hp) as (Hsub & Htile & Hnext & Hnil). cbn [erase_pages].
  set (pg := rp_list_where [] _ s) in *. set (gone := List.filter (expired th) (pg_items pg)).
  destruct (erase_rows_spec now th (pg_items pg) erased s Hi) as (s1 & -> & Hi1 & Hsame & Hv).
  { eapply sublist_NoDup; [apply (rp_view_ids s Hi)|]. by apply (fmap_sublist m_id). }
  { intros r Hr. assert (r ∈ rp_view s) by (by eapply elem_of_sublist). split; [done|by apply Hid]. }
  fold gone in Hsame, Hv |- *.
  assert (forall r, r ∈ gone -> r ∈ pg_items pg /\ expired th r = true) as Hg by (intros r; apply elem_of_lfilter).
  assert (rp_view s ≡ₚ gone ++ rp_view s1) as Hsplit.
  { apply split_gone; [done..| | |done].
    - apply lfilter_NoDup. eapply sublist_NoDup; [apply (rp_view_ids s Hi)|]. by apply (fmap_sublist m_id).
    - intros m [Hm _]%Hg. by eapply elem_of_sublist. }
  assert (forall r, r ∈ pg_items pg -> expired th r = true -> gone <> []) as Hsome.
  { intros r Hr He E. assert (r ∈ gone) as Hin by (by apply elem_of_lfilter). rewrite E in Hin. by apply not_elem_of_nil in Hin. }
  destruct (_ || negb (has_next pg)) eqn:Estop.
  - exists s1, gone. split_and!; [done..|by intros r [_ ?]%Hg| |].
    + intros (r & Hr & He). apply (Hsome r); [|done].
      apply orb_true_iff in Estop as [E|E].
      * rewrite Hnil in Hr by (by destruct (pg_items pg)). by apply not_elem_of_nil in Hr.
      * rewrite <- Htile, drop_ge, app_nil_r in Hr; [done|].
        assert (~ page * MAX_PAGE_SIZE < Z.of_nat (length (rp_view s))) by (intros Hc; apply Hnext in Hc; by rewrite Hc in E). lia.
    + intros -> Hle r [Hr Hni]%Hv. destruct (expired th r) eqn:He; [|done]. exfalso. apply Hni, list_elem_of_fmap.
      exists r. split; [done|]. apply elem_of_lfilter. split; [|done].
      change (Z.to_nat ((MIN_PAGE - 1) * MAX_PAGE_SIZE)) with 0%nat in Htile.
      rewrite drop_0, drop_ge, app_nil_r in Htile; [by rewrite Htile|unfold MIN_PAGE; lia].
  - apply orb_false_iff in Estop as [_ E]. apply negb_false_iff, Hnext in E.
    assert (length (rp_view s) = length gone + length (rp_view s1))%nat as Hcount by (by rewrite Hsplit, length_app).
    destruct (IH (page + 1) (erased + Z.of_nat (length gone)) s1) as (s' & gone' & Hrun & Hi' & Hsplit' & Hexp & Hmore & _);
      [done| |unfold MIN_PAGE in *; lia|unfold MAX_PAGE_SIZE in *; lia|unfold MAX_PAGE_SIZE in *; lia|].
    { intros r [Hr _]%Hv. by apply Hid. }
    exists s', (gone ++ gone'). rewrite length_app. split_and!; [|done| | | |].
    + rewrite Hrun. do 3 f_equal. lia.
    + by rewrite Hsplit, Hsplit', app_assoc.
    + intros r [[_ ?]%Hg|?]%elem_of_app; auto.
    + intros (r & Hr & He). rewrite <- Htile in Hr. intros [E1 E2]%app_nil.
      apply elem_of_app in Hr as [Hr|Hr]; [by apply (Hsome r)|]. apply Hmore; [|done]. rewrite (Hsame E1).
      exists r. split; [|done]. by replace (page + 1 - 1) with page by lia.
    + intros -> Hle. unfold MIN_PAGE in E. lia.
Qed.

Lemma expired_mono th th' r : th <= th' -> expired th r = true -> expired th' r = true.
Proof. unfold expired. rewrite !Z.ltb_lt. lia. Qed.

Definition one_target (fuel : nat) (coll : string) (ttl : Z) : target S :=
  Target coll ttl (fun cutoff => erase fuel cutoff ttl cutoff).
Definition threshold (ttl cutoff : Z) : Z := cutoff - ttl * 1000000.

Lemma cycle_spec fuel coll ttl cutoff s : rp_inv s -> named s -> 0 < ttl -> (0 < fuel)%nat ->
  Z.of_nat (length (rp_view s)) <= Z.of_nat fuel * MAX_PAGE_SIZE ->
  exists s' gone, run_cycle cutoff [one_target fuel coll ttl] [] s = (s', Some [(coll, Z.of_nat (length gone))]) /\
    rp_inv s' /\ rp_view s ≡ₚ gone ++ rp_view s' /\ (forall r, r ∈ gone -> expired (threshold ttl cutoff) r = true) /\
    ((exists r, r ∈ rp_view s /\ expired (threshold ttl cutoff) r = true) -> gone <> []) /\
    (Z.of_nat (length (rp_view s)) <= MAX_PAGE_SIZE -> forall r, r ∈ rp_view s' -> expired (threshold ttl cutoff) r = false).
Proof.
  intros Hi Hn Httl Hf Hlen.
  destruct (erase_pages_spec fuel cutoff (threshold ttl cutoff) MIN_PAGE 0 s Hi Hn ltac:(done) Hf ltac:(unfold MIN_PAGE; lia))
    as (s' & gone & Hrun & Hi' & Hsplit & Hexp & Hmore & Hall).
  exists s', gone. cbn [run_cycle one_target ttl_s purge name]. unfold erase. fold (threshold ttl cutoff).
  destruct (Z.leb_spec ttl 0); [lia|]. rewrite Hrun. split_and!; [done..| |by apply Hall].
  change (Z.to_nat ((MIN_PAGE - 1) * MAX_PAGE_SIZE)) with 0%nat in Hmore. by rewrite drop_0 in Hmore.
Qed.

(** C7: Retention removes what is past its time and nothing else. Over a collection whose
    rows have ids and that is only purged, with a positive TTL and a budget of pages that
    covers it, the cycles split its rows into a batch for each and the rows that are left:
    every row of a cycle's batch is, at that cycle, older than the TTL by its last write, and
    the count the cycle reports is the size of its batch. Although a cycle deletes while it
    walks the pages, and so may skip rows, no row that had expired at [c] outlives as many
    cycles from [c] on as the collection has rows. *)
Theorem retention_converges fuel coll ttl cutoffs c s : rp_inv s -> named s -> 0 < ttl -> (0 < fuel)%nat ->
  Z.of_nat (length (rp_view s)) <= Z.of_nat fuel * MAX_PAGE_SIZE -> (forall t, t ∈ cutoffs -> c <= t) ->
  exists s' batches,
    cycles cutoffs [one_target fuel coll ttl] s = Some (s', map (fun gone => [(coll, Z.of_nat (length gone))]) batches) /\
    rp_view s ≡ₚ concat batches ++ rp_view s' /\
    Forall2 (fun t gone => forall r, r ∈ gone -> expired (threshold ttl t) r = true) cutoffs batches /\
    ((length (rp_view s) <= length cutoffs)%nat -> forall r, r ∈ rp_view s' -> expired (threshold ttl c) r = false).
Proof.
  intros Hi Hn Httl Hf Hlen Hc.
  cut (exists s' batches,
    cycles cutoffs [one_target fuel coll ttl] s = Some (s', map (fun gone => [(coll, Z.of_nat (length gone))]) batches) /\
    rp_view s ≡ₚ concat batches ++ rp_view s' /\
    Forall2 (fun t gone => forall r, r ∈ gone -> expired (threshold ttl t) r = true) cutoffs batches /\
    ((length (rp_view s) <= length cutoffs)%nat \/ (forall r, r ∈ rp_view s -> expired (threshold ttl c) r = false) ->
     forall r, r ∈ rp_view s' -> expired (threshold ttl c) r = false)).
  { intros (s' & batches & ? & ? & ? & Hd). exists s', batches. split_and!; [done..|]. intros Hle. apply Hd. by left. }
  revert s Hi Hn Hlen. induction cutoffs as [|t ts IH]; intros s Hi Hn Hlen.
  { exists s, []. split_and!; [done..|]. intros [Hle|Hno] r Hr; [|by apply Hno].
    destruct (rp_view s); [by apply not_elem_of_nil in Hr|cbn in Hle; lia]. }
  destruct (cycle_spec fuel coll ttl t s Hi Hn Httl Hf Hlen) as (s1 & gone & Hrun & Hi1 & Hsplit & Hexp & Hmore & _).
  assert (forall r, r ∈ rp_view s1 -> r ∈ rp_view s) as Hsub by (intros r Hr; rewrite Hsplit; apply elem_of_app; by right).
  assert (length (rp_view s) = length gone + length (rp_view s1))%nat as Hcount by (by rewrite Hsplit, length_app).
  destruct (IH ltac:(intros; apply Hc; by right) s1 Hi1) as (s' & batches & Hrun' & Hsplit' & Hexp' & Hdone);
    [by intros r Hr; apply Hn, Hsub|lia|].
  exists s', (gone :: batches). cbn [cycles]. rewrite Hrun, Hrun'. cbn [concat]. split_and!; [done| |by constructor|].
  - by rewrite Hsplit, Hsplit', app_assoc.
  - intros Hor. apply Hdone. destruct Hor as [Hle|Hno]; [|right; by auto].
    destruct gone as [|g gone]; [|left; cbn in Hle, Hcount; lia].
    right. intros r Hr. destruct (expired (threshold ttl c) r) eqn:E; [|done]. destruct Hmore; [|done].
    exists r. split; [by apply Hsub|]. eapply expired_mono; [|done]. unfold threshold. pose proof (Hc t ltac:(by left)). lia.
Qed.
End passes.
End Retention.

(** ** Consent as a set of (subject, purpose) pairs

    The abstract ledger of a tenant: the pairs it holds consent for. *)
Module Ledger.
Inductive request : Type :=
| Grant (now : Z) (uuid subject p version : string) (client_ip : option string) (refresh : bool)
| Withdraw (now : Z) (uuid subject p : string)
| Access (now : Z) (uuid subject actor : string)
| Erase (now : Z) (uuid subject actor : string)
| Rectify (now : Z) (uuid uuid' subject p version actor : string).

Definition ledger := gset (string * string).
Definition purposes_of (subject : string) (L : ledger) : gset string :=
  set_map snd (filter (fun sp => sp.1 = subject) L).

(** What a request does to the ledger, and the purposes it answers for. *)
Definition add_pair (subject p : string) (L : ledger) : ledger * result privacy_error (gset string) :=
  if decide (p ∈ KNOWN_PURPOSES) then ({[(subject, p)]} ∪ L, Ok {[p]}) else (L, Err UnknownPurposeError).
Definition spec (c : request) (L : ledger) : ledger * result privacy_error (gset string) :=
  match c with
  | Grant _ _ subject p _ _ _ | Rectify _ _ _ subject p _ _ => add_pair subject p L
  | Withdraw _ _ subject p =>
      if decide (p ∈ KNOWN_PURPOSES) then
        if decide ((subject, p) ∈ L) then (L ∖ {[(subject, p)]}, Ok {[p]}) else (L, Err ConsentNotFoundError)
      else (L, Err UnknownPurposeError)
  | Access _ _ subject _ => (L, Ok (purposes_of subject L))
  | Erase _ _ subject _ => (filter (fun sp => sp.1 <> subject) L, Ok (purposes_of subject L))
  end.
Fixpoint spec_all (cs : list request) (L : ledger) : ledger * list (result privacy_error (gset string)) :=
  match cs with
  | [] => (L, [])
  | c :: cs => let '(L, a) := spec c L in let '(L, l) := spec_all cs L in (L, a :: l)
  end.

(** The calls of the service; a count answers for the rows it counted. *)
Inductive answer : Type := Rows (l : list ConsentRecord) | Count (n : Z).

Section calls.
Context {SC SA : Type} {RC : Repository ConsentRecord SC} {RA : Repository PrivacyAuditRecord SA}.
Context (sha256 : string -> string) (audited : bool).
Notation M := (SE (@Privacy.store SC SA) privacy_error).

Definition perform (c : request) : M answer :=
  match c with
  | Grant now uuid subject p version ip refresh =>
      r <- Privacy.grant sha256 now uuid subject p version ip refresh ;; se_ret (Rows [r])
  | Withdraw now uuid subject p => r <- Privacy.withdraw now uuid subject p ;; se_ret (Rows [r])
  | Access now uuid subject actor => l <- Privacy.access_data audited now uuid subject actor ;; se_ret (Rows l)
  | Erase now uuid subject actor => n <- Privacy.erase_subject audited now uuid subject actor ;; se_ret (Count n)
  | Rectify now uuid uuid' subject p version actor =>
      r <- Privacy.rectify_subject sha256 audited now uuid uuid' subject p version actor ;; se_ret (Rows [r])
  end.
(** Requests served one after the other. *)
Fixpoint perform_all (cs : list request) (s : Privacy.store) : Privacy.store * list (result privacy_error answer) :=
  match cs with
  | [] => (s, [])
  | c :: cs => let '(s, a) := perform c s in let '(s, l) := perform_all cs s in (s, a :: l)
  end.
End calls.

Definition answers (a : result privacy_error answer) (b : result privacy_error (gset string)) : Prop :=
  match a, b with
  | Ok (Rows l), Ok P => NoDup (map purpose l) /\ list_to_set (map purpose l) = P
  | Ok (Count n), Ok P => n = Z.of_nat (size P)
  | Err e, Err e' => e = e'
  | _, _ => False
  end.

(** What the payload schemas check, the ids a request draws, the rows it may add. *)
Definition valid (c : request) : Prop :=
  match c with
  | Grant _ _ subject _ version _ _ | Rectify _ _ _ subject _ version _ => subject <> "" /\ version <> ""
  | Withdraw _ uuid subject _ => subject <> "" /\ uuid <> ""
  | Access _ _ subject _ | Erase _ _ subject _ => subject <> ""
  end.
Definition drawn (c : request) : list string :=
  match c with Grant _ uuid _ _ _ _ _ | Rectify _ uuid _ _ _ _ _ => [uuid] | _ => [] end.
Definition adds (subject : string) (c : request) : nat :=
  match c with
  | Grant _ _ subject' _ _ _ _ | Rectify _ _ _ subject' _ _ _ => if decide (subject' = subject) then 1 else 0
  | _ => 0
  end.

(** ** The service implements the ledger

    Over a view pinned to a tenant, of any lawful backend. *)
Section refinement.
Context {SC SA : Type} {inner : Repository ConsentRecord SC} {laws : RepositoryLaws ConsentRecord SC}.
Context {RA : Repository PrivacyAuditRecord SA} (V : Scoped.view) (sha256 : string -> string) (audited : bool).
Notation own := (Scoped.own_rows V).
Implicit Types (s : SC) (a : SA) (m r e : ConsentRecord) (L : ledger).

Definition of_subject (subject : string) (m : ConsentRecord) : bool := matches m [(SUBJECT_ID_FIELD, VStr subject)].
(** The rows of a subject, of every tenant: what a lookup is bounded on. *)
Definition rows (subject : string) (s : SC) : list ConsentRecord := List.filter (of_subject subject) (rp_view s).
Definition pair_of (m : ConsentRecord) : string * string := (subject_id m, purpose m).
Definition ledger_of (s : SC) : ledger := list_to_set (map pair_of (List.filter granted (own s))).

Record sound (s : SC) : Prop := {
  s_inv : rp_inv s;
  s_ids : forall m, m ∈ rp_view s -> opt_truthy (m_id m) = true;
  s_one : forall m m', m ∈ own s -> m' ∈ own s -> granted m = true -> granted m' = true -> pair_of m = pair_of m' -> m = m' }.
Definition fresh (uuid : string) (s : SC) : Prop := uuid <> "" /\ forall m, m ∈ rp_view s -> m_id m <> Some uuid.

(** What one request may change beside the ledger. *)
Record moved (uuids : list string) (add : string -> nat) (s s' : SC) : Prop := {
  m_sound : sound s';
  m_rows : forall subject, (length (rows subject s') <= length (rows subject s) + add subject)%nat;
  m_ids : forall m, m ∈ rp_view s' -> m_id m ∈ map Some uuids \/ m_id m ∈ map m_id (rp_view s);
  m_frame : forall m, m_tenant m <> Some (Scoped.tenant V) -> m ∈ rp_view s' <-> m ∈ rp_view s }.

Lemma of_subject_spec subject m : of_subject subject m = bool_decide (subject_id m = subject).
Proof. unfold of_subject, matches. simpl. rewrite andb_true_r. by apply bool_decide_ext. Qed.

Lemma ledger_elem s sp : sp ∈ ledger_of s <-> exists m, m ∈ own s /\ granted m = true /\ pair_of m = sp.
Proof.
  unfold ledger_of. rewrite elem_of_list_to_set, list_elem_of_fmap. split.
  - intros (m & -> & [? ?]%elem_of_lfilter). by exists m.
  - intros (m & ? & ? & <-). exists m. split; [done|]. by apply elem_of_lfilter.
Qed.

Lemma own_view s m : m ∈ own s -> m ∈ rp_view s.
Proof. by intros [? _]%Scoped.own_rows_elem. Qed.

Lemma rows_of_own subject s a : sound s -> (length (rows subject s) <= 100)%nat ->
  Privacy.rows_of (RC := Scoped.repository V) subject (Privacy.Store s a) = List.filter (of_subject subject) (own s).
Proof.
  intros Hs Hn. unfold Privacy.rows_of. cbn [rp_find_many Scoped.repository Privacy.consents].
  rewrite Scoped.find_many_complete; [done|apply Hs|done|]. change (bounded MAX_PAGE_SIZE) with 100.
  unfold rows in Hn. unfold of_subject in Hn. lia.
Qed.

Lemma find_one_cases subject p s a : sound s -> (length (rows subject s) <= 100)%nat ->
  match Privacy.find_one (RC := Scoped.repository V) subject p (Privacy.Store s a) with
  | Some e => e ∈ own s /\ granted e = true /\ pair_of e = (subject, p)
  | None => (subject, p) ∉ ledger_of s
  end.
Proof.
  intros Hs Hn. unfold Privacy.find_one. rewrite rows_of_own by done. destruct (List.find _ _) as [e|] eqn:E.
  - apply List.find_some in E as [He%list_elem_of_In [Hp Hg]%andb_true_iff].
    apply elem_of_lfilter in He as [He Hsub]. rewrite of_subject_spec in Hsub.
    apply bool_decide_eq_true in Hsub, Hp. unfold pair_of. by rewrite Hsub, Hp.
  - intros (m & Hm & Hg & Hpair)%ledger_elem. injection Hpair as Hsub Hp.
    apply (List.find_none _ _ ) with (x := m) in E.
    + rewrite Hp, Hg, bool_decide_eq_true_2 in E by done. done.
    + apply list_elem_of_In, elem_of_lfilter. by rewrite of_subject_spec, bool_decide_eq_true_2.
Qed.

(** *** Saving a row *)
Lemma ledger_ext s s' (L : ledger) :
  (forall sp, (exists m, m ∈ own s' /\ granted m = true /\ pair_of m = sp) <-> sp ∈ L) -> ledger_of s' = L.
Proof. intros H. apply set_eq. intros sp. by rewrite ledger_elem. Qed.

Lemma rows_among subject s (l : list (option string)) : rp_inv s ->
  (forall m, m ∈ rp_view s -> subject_id m = subject -> m_id m ∈ l) -> (length (rows subject s) <= length l)%nat.
Proof.
  intros Hs Hl. apply rp_view_length; [done|]. intros m Hm Hp. rewrite of_subject_spec in Hp.
  apply bool_decide_eq_true in Hp. by apply Hl.
Qed.

Lemma rows_ids subject s m : m ∈ rp_view s -> subject_id m = subject -> m_id m ∈ map m_id (rows subject s).
Proof.
  intros Hm Hs. apply list_elem_of_fmap. exists m. split; [done|]. apply elem_of_lfilter.
  by rewrite of_subject_spec, bool_decide_eq_true_2.
Qed.

Definition stored (uuid : string) (r : ConsentRecord) (s : SC) : ConsentRecord := (Scoped.insert V uuid r s).2.

Lemma stored_spec uuid r s : rp_inv s ->
  stored uuid r s = upd_base (set_id (if opt_truthy (m_id r) then m_id r else Some uuid)) (Scoped.stamp V r).
Proof. intros Hs. unfold stored, Scoped.insert. by rewrite rp_insert_stored, Scoped.stamp_id. Qed.

Lemma stored_own uuid r s : rp_inv s ->
  m_id (stored uuid r s) = (if opt_truthy (m_id r) then m_id r else Some uuid) /\
  m_tenant (stored uuid r s) = Some (Scoped.tenant V) /\
  pair_of (stored uuid r s) = pair_of r /\ granted (stored uuid r s) = granted r /\ m_active (stored uuid r s) = m_active r.
Proof.
  intros Hs. rewrite stored_spec by done. rewrite m_id_upd, m_tenant_upd, m_active_upd.
  by split_and!.
Qed.

(** A row saved under a fresh id. *)
Lemma save_new uuid r s : sound s -> fresh uuid s -> m_id r = None -> m_active r = true -> granted r = true ->
  pair_of r ∉ ledger_of s ->
  let s' := (Scoped.insert V uuid r s).1 in
  ledger_of s' = {[pair_of r]} ∪ ledger_of s /\
  moved [uuid] (fun subject => if decide (subject_id r = subject) then 1%nat else 0%nat) s s'.
Proof.
  intros [Hi Hids Hone] [Hu Hf] Hid Ha Hg Hnew s'.
  destruct (stored_own uuid r s Hi) as (Eid & Et & Ep & Eg & Ea). rewrite Hid in Eid. cbn [opt_truthy] in Eid.
  assert (forall m, m ∈ rp_view s' <-> m = stored uuid r s \/ m ∈ rp_view s) as Hv.
  { intros m. unfold s', Scoped.insert. rewrite rp_insert_view, Scoped.stamp_active, Ha by done.
    fold (Scoped.insert V uuid r s). fold (stored uuid r s). rewrite Eid. pose proof (Hf m). naive_solver. }
  assert (forall m, m ∈ own s' <-> m = stored uuid r s \/ m ∈ own s) as Ho.
  { intros m. rewrite !Scoped.own_rows_elem, Hv. naive_solver. }
  assert (forall m, m ∈ own s -> granted m = true -> pair_of m <> pair_of r) as Hdiff
    by (intros m Hm Hgm Hpm; apply Hnew, ledger_elem; eauto).
  assert (rp_inv s') as Hi' by (by apply rp_insert_inv).
  split.
  - apply (ledger_ext s). intros sp. rewrite elem_of_union, elem_of_singleton, ledger_elem. setoid_rewrite Ho.
    split; [intros (m & [->|Hm] & ? & <-); [left; congruence|right; eauto]|].
    intros [->|(m & ? & ? & ?)]; [exists (stored uuid r s)|exists m]; repeat split; auto; congruence.
  - split.
    + split; [done| |].
      * intros m [->|Hm]%Hv; [rewrite Eid|by apply Hids]. by destruct uuid.
      * intros m m' [->|Hm]%Ho [->|Hm']%Ho Hgm Hgm' Hp; [done| | |by apply Hone].
        -- exfalso. apply (Hdiff m'); congruence.
        -- exfalso. apply (Hdiff m); congruence.
    + intros subject.
      transitivity (length ((if decide (subject_id r = subject) then [Some uuid] else []) ++ map m_id (rows subject s)));
        [|rewrite length_app, length_map; case_decide; simpl; lia].
      apply rows_among; [done|]. intros m [->|Hm]%Hv Hsub; apply elem_of_app; [left|right; by apply rows_ids].
      rewrite decide_True by (injection Ep; congruence). rewrite Eid. by left.
    + intros m [->|Hm]%Hv; [left; rewrite Eid; by left|right]. apply list_elem_of_fmap. by exists m.
    + intros m Hm. rewrite Hv. split; [intros [->|?]; done|by right].
Qed.

Lemma base_unchanged r e : cr_base r = cr_base e -> m_tenant e = Some (Scoped.tenant V) ->
  upd_base (set_id (m_id r)) (Scoped.stamp V r) = r.
Proof.
  unfold Scoped.stamp, upd_base, m_id, m_tenant. destruct r as [b ? ? ? ? ? ? ?], e as [b' ? ? ? ? ? ? ?].
  cbn. intros -> Ht. destruct b'. cbn in *. by rewrite Ht.
Qed.

(** A held row saved again with the same base fields and pair. *)
Lemma save_held uuid r e s : sound s -> uuid <> "" -> e ∈ own s -> granted e = true ->
  cr_base r = cr_base e -> pair_of r = pair_of e ->
  let s' := (Scoped.insert V uuid r s).1 in
  stored uuid r s = r /\
  ledger_of s' = (if granted r then ledger_of s else ledger_of s ∖ {[pair_of r]}) /\
  moved [] (fun _ => 0%nat) s s'.
Proof.
  intros [Hi Hids Hone] Hu He Hge Hb Hp s'. pose proof He as [Hev Het]%Scoped.own_rows_elem.
  assert (m_id r = m_id e) as Hid by (unfold m_id; cbn; by rewrite Hb).
  assert (m_active r = true) as Ha by (rewrite <- (rp_view_active s e Hi Hev); unfold m_active; cbn; by rewrite Hb).
  assert (m_tenant r = Some (Scoped.tenant V)) as Ht by (rewrite <- Het; unfold m_tenant; cbn; by rewrite Hb).
  assert (stored uuid r s = r) as Es
    by (rewrite stored_spec, Hid, (Hids e Hev), <- Hid by done; by apply (base_unchanged r e)).
  assert (forall m, m ∈ rp_view s' <-> m = r \/ (m ∈ rp_view s /\ m_id m <> m_id e)) as Hv.
  { intros m. unfold s', Scoped.insert. rewrite rp_insert_view, Scoped.stamp_active, Ha by done.
    fold (Scoped.insert V uuid r s). fold (stored uuid r s). rewrite Es, Hid. naive_solver. }
  assert (forall m, m ∈ own s' <-> m = r \/ (m ∈ own s /\ m_id m <> m_id e)) as Ho.
  { intros m. rewrite !Scoped.own_rows_elem, Hv. naive_solver. }
  assert (forall m, m ∈ own s -> granted m = true -> pair_of m = pair_of r -> m = e) as Hsame
    by (intros m Hm Hgm Hpm; apply Hone; congruence).
  split_and!; [done| |split].
  - apply (ledger_ext s). intros sp. setoid_rewrite Ho. destruct (granted r) eqn:Hgr.
    + rewrite ledger_elem. split.
      * intros (m & [->|[Hm _]] & ? & <-); [exists e|exists m]; eauto.
      * intros (m & Hm & Hgm & <-). destruct (decide (m_id m = m_id e)) as [E|E]; [|by exists m; auto].
        assert (m = e) as -> by (apply (rp_view_inj s); auto using own_view). exists r. auto.
    + rewrite elem_of_difference, elem_of_singleton, ledger_elem. split.
      * intros (m & [->|[Hm Hne]] & Hgm & <-); [congruence|]. split; [by eauto|].
        intros E. by rewrite (Hsame m) in Hne.
      * intros [(m & Hm & Hgm & <-) Hne]. exists m. repeat split; auto. right. split; [done|].
        intros E. apply Hne. rewrite Hp. f_equal. apply (rp_view_inj s); auto using own_view.
  - split; [by apply rp_insert_inv| |].
    + intros m [->|[Hm _]]%Hv; [rewrite Hid|]; by apply Hids.
    + intros m m' [->|[Hm Hne]]%Ho [->|[Hm' Hne']]%Ho Hgm Hgm' Hpm; [done| | |by apply Hone].
      * by rewrite (Hsame m') in Hne'.
      * by rewrite (Hsame m) in Hne.
  - intros subject. rewrite Nat.add_0_r, <- (length_map m_id (rows subject s)).
    apply rows_among; [by apply rp_insert_inv|]. intros m [->|[Hm _]]%Hv Hsub; [|by apply rows_ids].
    rewrite Hid. apply rows_ids; [done|]. injection Hp; congruence.
  - intros m [->|[Hm _]]%Hv; right; apply list_elem_of_fmap; [by exists e|by exists m].
  - intros m Hm. rewrite Hv. split; [intros [->|[? _]]; done|]. intros Hin. right. split; [done|].
    intros E. apply Hm. rewrite <- Het. f_equal. by apply (rp_view_inj s).
Qed.

(** *** Erasing rows *)
Lemma delete_each_own now l s a : sound s -> NoDup (map m_id l) -> (forall m, m ∈ l -> m ∈ own s) ->
  exists s', Privacy.delete_each (RC := Scoped.repository V) now l (Privacy.Store s a) = (Privacy.Store s' a, Ok tt) /\
    rp_inv s' /\ forall m, m ∈ rp_view s' <-> m ∈ rp_view s /\ m_id m ∉ map m_id l.
Proof.
  intros [Hi Hids _]. revert s Hi Hids. induction l as [|e l IH]; intros s Hi Hids Hnd Hl.
  - exists s. split; [done|]. split; [done|]. intros m. cbn. set_solver.
  - cbn [map] in Hnd. apply NoDup_cons in Hnd as [Hni Hnd].
    assert (e ∈ own s) as He by (apply Hl; by left). pose proof (Hids e (own_view s e He)) as Ht.
    destruct (m_id e) as [i|] eqn:Ei; [|done].
    destruct (Scoped.soft_delete_own V now None s e i Hi He Ei) as [Er Hv].
    destruct (IH (Scoped.soft_delete V now None i s).1) as (s' & Hrun & Hi' & Hv').
    + by apply Scoped.soft_delete_inv.
    + intros m [Hm _]%Hv. by apply Hids.
    + done.
    + intros m Hm. pose proof (Hl m ltac:(by right)) as [Hmv Hmt]%Scoped.own_rows_elem.
      apply Scoped.own_rows_elem. split; [|done]. apply Hv. split; [done|].
      intros E. apply Hni. rewrite <- E. apply list_elem_of_fmap. by exists m.
    + exists s'. cbn [Privacy.delete_each]. rewrite Ei. unfold Privacy.delete, se_bind.
      cbn [rp_soft_delete Scoped.repository Privacy.consents Privacy.audit].
      destruct (Scoped.soft_delete V now None i s) as [s1 r1]. cbn in Er, Hrun, Hv, Hv'. rewrite Er.
      split; [exact Hrun|]. split; [done|]. intros m. rewrite Hv', Hv. cbn [map]. rewrite Ei. set_solver.
Qed.

(** *** One request *)
Lemma moved_refl s us add : sound s -> moved us add s s.
Proof. intros Hs. split; [done|lia| |done]. intros m Hm. right. apply list_elem_of_fmap. by exists m. Qed.

Lemma moved_weaken us us' add add' s s' : moved us add s s' -> us ⊆ us' -> (forall x, (add x <= add' x)%nat) -> moved us' add' s s'.
Proof.
  intros [H1 H2 H3 H4] Hu Ha. split; [done| | |done].
  - intros x. pose proof (H2 x). pose proof (Ha x). lia.
  - intros m [(u & -> & Hu')%list_elem_of_fmap|Hm]%H3; [left|by right]. apply list_elem_of_fmap. eauto.
Qed.

Lemma record_action_run now uuid subject act actor ps s a : subject <> "" ->
  exists a', Privacy.record_action audited now uuid subject act actor ps (Privacy.Store s a) = (Privacy.Store s a', Ok tt).
Proof.
  intros Hs. unfold Privacy.record_action. destruct audited; [|by eexists].
  assert (str_true subject = true) as -> by (by destruct subject). by eexists.
Qed.

Definition one_if (subject x : string) : nat := if decide (subject = x) then 1%nat else 0%nat.

Lemma grant_run now uuid subject p version ip refresh s a : sound s -> subject <> "" -> version <> "" -> fresh uuid s ->
  (length (rows subject s) <= 100)%nat ->
  (p ∉ KNOWN_PURPOSES /\
   Privacy.grant (RC := Scoped.repository V) sha256 now uuid subject p version ip refresh (Privacy.Store s a) =
   (Privacy.Store s a, Err UnknownPurposeError)) \/
  (p ∈ KNOWN_PURPOSES /\ exists s' r,
   Privacy.grant (RC := Scoped.repository V) sha256 now uuid subject p version ip refresh (Privacy.Store s a) = (Privacy.Store s' a, Ok r) /\
   purpose r = p /\ ledger_of s' = {[(subject, p)]} ∪ ledger_of s /\ moved [uuid] (one_if subject) s s').
Proof.
  intros Hs Hsub Hver Hf Hn. unfold Privacy.grant, Privacy.ensure_known_purpose.
  destruct (bool_decide (p ∈ KNOWN_PURPOSES)) eqn:Ek; [apply bool_decide_eq_true in Ek; right|apply bool_decide_eq_false in Ek; by left].
  split; [done|]. unfold se_bind, se_ret, se_get. pose proof (find_one_cases subject p s a Hs Hn) as Hc.
  assert (forall s', moved [] (fun _ => 0%nat) s s' -> moved [uuid] (one_if subject) s s') as Hw
    by (intros; eapply moved_weaken; [done|set_solver|intros x; apply Nat.le_0_l]).
  destruct (Privacy.find_one _ _ _) as [e|].
  - destruct Hc as (He & Hg & Hp).
    assert ({[(subject, p)]} ∪ ledger_of s = ledger_of s) as HL
      by (apply subseteq_union_L, singleton_subseteq_l, ledger_elem; eauto).
    destruct (refresh && _).
    + destruct (save_held uuid (Privacy.with_version version e) e s Hs (proj1 Hf) He Hg eq_refl eq_refl) as (Es & El & Hm).
      unfold Privacy.save. cbn [rp_insert Scoped.repository Privacy.consents Privacy.audit].
      unfold stored in Es. destruct (Scoped.insert V uuid _ s) as [s' r'] eqn:E. cbn in Es, El, Hm. subst r'.
      exists s', (Privacy.with_version version e). rewrite Hg in El. rewrite HL, El.
      split_and!; [done| |done|by apply Hw]. by injection Hp.
    + exists s, e. rewrite HL. split_and!; [done| |done|by apply moved_refl]. by injection Hp.
  - unfold Privacy.new_record. assert (str_true subject && str_true version = true) as -> by (by destruct subject, version).
    set (r := mkConsent _ _ _ _ _ _ _ _).
    destruct (save_new uuid r s Hs Hf eq_refl eq_refl eq_refl Hc) as [El Hm].
    destruct (stored_own uuid r s (s_inv s Hs)) as (_ & _ & Ep & _). unfold stored in Ep.
    unfold se_ret, Privacy.save. cbn [rp_insert Scoped.repository Privacy.consents Privacy.audit].
    destruct (Scoped.insert V uuid r s) as [s' r'] eqn:E. cbn [fst snd] in El, Hm, Ep.
    exists s', r'. split_and!; [done| |done|exact Hm]. by injection Ep.
Qed.

Lemma withdraw_run now uuid subject p s a : sound s -> uuid <> "" -> (length (rows subject s) <= 100)%nat ->
  let out := Privacy.withdraw (RC := Scoped.repository V) now uuid subject p (Privacy.Store s a) in
  if decide (p ∈ KNOWN_PURPOSES) then
    if decide ((subject, p) ∈ ledger_of s) then
      exists s' r, out = (Privacy.Store s' a, Ok r) /\ purpose r = p /\
        ledger_of s' = ledger_of s ∖ {[(subject, p)]} /\ moved [] (fun _ => 0%nat) s s'
    else out = (Privacy.Store s a, Err ConsentNotFoundError)
  else out = (Privacy.Store s a, Err UnknownPurposeError).
Proof.
  intros Hs Hu Hn out. subst out. unfold Privacy.withdraw, Privacy.ensure_known_purpose.
  destruct (decide (p ∈ KNOWN_PURPOSES)) as [Hk|Hk]; [rewrite bool_decide_eq_true_2 by done|by rewrite bool_decide_eq_false_2 by done].
  unfold se_bind, se_ret, se_get. pose proof (find_one_cases subject p s a Hs Hn) as Hc.
  destruct (Privacy.find_one _ _ _) as [e|]; cbn [Privacy.ensure_found]; [|by rewrite decide_False].
  destruct Hc as (He & Hg & Hp). rewrite decide_True by (apply ledger_elem; eauto).
  destruct (save_held uuid (Privacy.withdrawn now e) e s Hs Hu He Hg eq_refl eq_refl) as (Es & El & Hm).
  unfold se_ret, Privacy.save. cbn [rp_insert Scoped.repository Privacy.consents Privacy.audit].
  unfold stored in Es. destruct (Scoped.insert V uuid _ s) as [s' r'] eqn:E. cbn in Es, El, Hm. subst r'.
  exists s', (Privacy.withdrawn now e). split_and!; [done| | |done]; [by injection Hp|].
  rewrite El. do 2 f_equal. exact Hp.
Qed.

Lemma find_active_spec subject s a : sound s -> (length (rows subject s) <= 100)%nat ->
  let l := Privacy.find_active (RC := Scoped.repository V) subject (Privacy.Store s a) in
  (forall m, m ∈ l <-> m ∈ own s /\ granted m = true /\ subject_id m = subject) /\
  NoDup (map m_id l) /\ NoDup (map purpose l) /\ list_to_set (map purpose l) = purposes_of subject (ledger_of s).
Proof.
  intros Hs Hn l.
  assert (forall m, m ∈ l <-> m ∈ own s /\ granted m = true /\ subject_id m = subject) as Hl.
  { intros m. unfold l, Privacy.find_active. rewrite rows_of_own, !elem_of_lfilter, of_subject_spec, bool_decide_eq_true, andb_true_iff by done.
    split; [naive_solver|]. intros (Hm & ? & ?). split_and!; try done. by eapply rp_view_active, own_view; [apply Hs|]. }
  assert (NoDup (map m_id l)) as Hnd.
  { unfold l, Privacy.find_active. rewrite rows_of_own by done. do 2 apply lfilter_NoDup. unfold Scoped.own_rows.
    apply lfilter_NoDup, rp_view_ids, Hs. }
  split_and!; [done..| |].
  - apply (NoDup_map_of m_id purpose); [done|]. intros m m' (Hm & Hg & Hsub)%Hl (Hm' & Hg' & Hsub')%Hl Hp.
    f_equal. apply (s_one s Hs); try done. unfold pair_of. congruence.
  - apply set_eq. intros p. unfold purposes_of. rewrite elem_of_list_to_set, elem_of_map, list_elem_of_fmap.
    split.
    + intros (m & -> & (Hm & Hg & Hsub)%Hl). exists (pair_of m). split; [done|]. rewrite elem_of_filter, ledger_elem. eauto.
    + intros (sp & -> & [Hsub (m & Hm & Hg & <-)%ledger_elem]%elem_of_filter). exists m. split; [done|]. by apply Hl.
Qed.

Lemma erase_run now uuid subject actor s a : sound s -> subject <> "" -> (length (rows subject s) <= 100)%nat ->
  exists s' a', Privacy.erase_subject (RC := Scoped.repository V) audited now uuid subject actor (Privacy.Store s a) =
    (Privacy.Store s' a', Ok (Z.of_nat (size (purposes_of subject (ledger_of s))))) /\
    ledger_of s' = filter (fun sp => sp.1 <> subject) (ledger_of s) /\ moved [] (fun _ => 0%nat) s s'.
Proof.
  intros Hs Hsub Hn. destruct (find_active_spec subject s a Hs Hn) as (Hl & Hnd & Hndp & HP).
  unfold Privacy.erase_subject, se_bind at 1, se_get. set (l := Privacy.find_active _ _) in *.
  destruct (delete_each_own now l s a Hs Hnd) as (s' & Hrun & Hi' & Hv); [by intros m [? _]%Hl|].
  unfold se_bind. rewrite Hrun.
  destruct (record_action_run now uuid subject ACTION_ERASURE actor (map purpose l) s' a Hsub) as [a' ->].
  exists s', a'. unfold se_ret. rewrite <- HP, size_list_to_set, length_map by done. split; [done|].
  assert (forall m, m ∈ own s' <-> m ∈ own s /\ m_id m ∉ map m_id l) as Ho
    by (intros m; rewrite !Scoped.own_rows_elem, Hv; naive_solver).
  assert (forall m, m ∈ own s -> m_id m ∈ map m_id l -> m ∈ l) as Hin.
  { intros m Hm (e & E & He)%list_elem_of_fmap. pose proof (proj1 (Hl e) He) as [Hoe _].
    by rewrite (rp_view_inj s m e) by (auto using own_view; apply Hs). }
  split.
  - apply (ledger_ext s). intros sp. rewrite elem_of_filter, ledger_elem. setoid_rewrite Ho. split.
    + intros (m & [Hm Hni] & Hg & <-). split; [|by eauto]. intros E. apply Hni, list_elem_of_fmap. exists m.
      split; [done|]. by apply Hl.
    + intros [Hne (m & Hm & Hg & <-)]. exists m. split_and!; try done. intros E. by apply Hin, Hl in E as (_ & _ & ?).
  - split.
    + split; [done| |].
      * intros m [Hm _]%Hv. by apply (s_ids s Hs).
      * intros m m' [Hm _]%Ho [Hm' _]%Ho. by apply (s_one s Hs).
    + intros x. rewrite Nat.add_0_r, <- (length_map m_id (rows x s)). apply rows_among; [done|].
      intros m [Hm _]%Hv. by apply rows_ids.
    + intros m [Hm _]%Hv. right. apply list_elem_of_fmap. by exists m.
    + intros m Ht. rewrite Hv. split; [by intros [? _]|]. intros Hm. split; [done|].
      intros (e & E & He)%list_elem_of_fmap. pose proof (proj1 (Hl e) He) as [Hoe _].
      rewrite (rp_view_inj s m e) in Ht by (auto using own_view; apply Hs). by apply Scoped.own_rows_elem in Hoe as [_ ?].
Qed.

Lemma answers_one r p : purpose r = p -> answers (Ok (Rows [r])) (Ok {[p]}).
Proof. intros <-. cbn. split; [apply NoDup_singleton|set_solver]. Qed.

Lemma perform_step c s a : sound s -> valid c -> (forall u, u ∈ drawn c -> fresh u s) ->
  (forall subject, length (rows subject s) + adds subject c <= 100)%nat ->
  exists s' a' out, perform (RC := Scoped.repository V) sha256 audited c (Privacy.Store s a) = (Privacy.Store s' a', out) /\
    ledger_of s' = (spec c (ledger_of s)).1 /\ answers out (spec c (ledger_of s)).2 /\
    moved (drawn c) (fun x => adds x c) s s'.
Proof.
  intros Hs Hc Hf Hn.
  assert (forall x, length (rows x s) <= 100)%nat as Hn' by (intros x; specialize (Hn x); lia).
  destruct c as [now uuid subject p version ip refresh|now uuid subject p|now uuid subject actor|now uuid subject actor
    |now uuid uuid' subject p version actor]; cbn [valid drawn] in Hc, Hf; cbn [perform spec]; unfold se_bind at 1.
  - destruct Hc as [H1 H2]. unfold add_pair.
    destruct (grant_run now uuid subject p version ip refresh s a Hs H1 H2 (Hf _ ltac:(by left)) (Hn' _)) as [[Hk ->]|(Hk & s' & r & -> & Hp & HL & Hm)].
    + rewrite decide_False by done. exists s, a, (Err UnknownPurposeError). split_and!; try done. by apply moved_refl.
    + rewrite decide_True by done. exists s', a, (Ok (Rows [r])). split_and!; [done|done| |exact Hm]. apply (answers_one r p Hp).
  - destruct Hc as [H1 H2]. pose proof (withdraw_run now uuid subject p s a Hs H2 (Hn' _)) as Hw. cbv zeta in Hw.
    destruct (decide (p ∈ KNOWN_PURPOSES)); [destruct (decide ((subject, p) ∈ ledger_of s))|].
    + destruct Hw as (s' & r & -> & Hp & HL & Hm). exists s', a, (Ok (Rows [r])). split_and!; [done|done| |exact Hm]. apply (answers_one r p Hp).
    + rewrite Hw. exists s, a, (Err ConsentNotFoundError). split_and!; try done. by apply moved_refl.
    + rewrite Hw. exists s, a, (Err UnknownPurposeError). split_and!; try done. by apply moved_refl.
  - destruct (find_active_spec subject s a Hs (Hn' _)) as (Hl & _ & Hnd & HP).
    unfold Privacy.access_data, se_bind, se_get, se_ret. set (l := Privacy.find_active _ _) in *.
    destruct (record_action_run now uuid subject ACTION_ACCESS actor (map purpose l) s a Hc) as [a' ->].
    exists s, a', (Ok (Rows l)). split_and!; try done. by apply moved_refl.
  - destruct (erase_run now uuid subject actor s a Hs Hc (Hn' _)) as (s' & a' & -> & HL & Hm).
    exists s', a', (Ok (Count (Z.of_nat (size (purposes_of subject (ledger_of s)))))). by split_and!.
  - destruct Hc as [H1 H2]. unfold add_pair, Privacy.rectify_subject, se_bind.
    destruct (grant_run now uuid subject p version None true s a Hs H1 H2 (Hf _ ltac:(by left)) (Hn' _)) as [[Hk ->]|(Hk & s' & r & -> & Hp & HL & Hm)].
    + rewrite decide_False by done. exists s, a, (Err UnknownPurposeError). split_and!; try done. by apply moved_refl.
    + destruct (record_action_run now uuid' subject ACTION_RECTIFICATION actor [p] s' a H1) as [a' ->].
      rewrite decide_True by done. exists s', a', (Ok (Rows [r])). split_and!; [done|done| |exact Hm]. apply (answers_one r p Hp).
Qed.

Lemma fresh_after u us add s s' : moved us add s s' -> u ∉ us -> fresh u s -> fresh u s'.
Proof.
  intros Hm Hu [Hne Hf]. split; [done|]. intros m Hin Hid. destruct (m_ids _ _ _ _ Hm m Hin) as [(x & E & Hx)%list_elem_of_fmap|(m0 & E & Hm0)%list_elem_of_fmap].
  - apply Hu. rewrite Hid in E. by injection E as ->.
  - apply (Hf m0 Hm0). congruence.
Qed.

(** C6: The consent service refines the ledger of (subject, purpose) pairs: whatever the
    history of grants, withdrawals, accesses, erasures and rectifications of a tenant, every
    answer is the one the set gives (a withdrawal of a pair that is not held is not found, a
    purpose outside the vocabulary is refused and changes nothing, an erasure removes the
    subject's pairs and counts them, a pair is never held twice), and the rows of other
    tenants stay as they are. The lookups are bounded, so this is for subjects of at most 100
    rows. *)
Theorem consent_refines cs s a : sound s -> Forall valid cs -> NoDup (concat (map drawn cs)) ->
  (forall u, u ∈ concat (map drawn cs) -> fresh u s) ->
  (forall subject, length (rows subject s) + sum_list (map (adds subject) cs) <= 100)%nat ->
  let run := perform_all (RC := Scoped.repository V) sha256 audited cs (Privacy.Store s a) in
  let s' := Privacy.consents run.1 in
  ledger_of s' = (spec_all cs (ledger_of s)).1 /\
  Forall2 answers run.2 (spec_all cs (ledger_of s)).2 /\
  sound s' /\
  forall m, m_tenant m <> Some (Scoped.tenant V) -> m ∈ rp_view s' <-> m ∈ rp_view s.
Proof.
  revert s a. induction cs as [|c cs IH]; intros s a Hs Hc Hnd Hf Hn.
  { by cbn. }
  apply Forall_cons in Hc as [Hc Hcs]. cbn [map concat] in Hnd, Hf. apply NoDup_app in Hnd as (_ & Hd & Hnd).
  destruct (perform_step c s a Hs Hc) as (s1 & a1 & out & Hrun & HL & Ho & Hm).
  { intros u Hu. apply Hf, elem_of_app. by left. }
  { intros x. specialize (Hn x). cbn [map] in Hn. change (sum_list (?h :: ?t)) with (h + sum_list t)%nat in Hn. lia. }
  destruct (IH s1 a1) as (HL' & Ho' & Hs' & Hfr); [by apply Hm|done|done| | |].
  { intros u Hu. apply (fresh_after u _ _ _ _ Hm); [intros Hu'; by apply (Hd u)|]. apply Hf, elem_of_app. by right. }
  { intros x. specialize (Hn x). cbn [map] in Hn. change (sum_list (?h :: ?t)) with (h + sum_list t)%nat in Hn.
    pose proof (m_rows _ _ _ _ Hm x). lia. }
  cbn [perform_all spec_all]. rewrite Hrun. rewrite HL in HL', Ho'.
  destruct (perform_all _ _ cs _) as [st outs]. destruct (spec c (ledger_of s)) as [L b]. cbn [fst snd] in *.
  destruct (spec_all cs L) as [L' bs]. cbn [fst snd] in *.
  split_and!; [done|by constructor|done|]. intros m Hmt. rewrite Hfr by done. by apply (m_frame _ _ _ _ Hm).
Qed.
End refinement.
End Ledger.

(** ** Instances *)
Module PrivacyRuns.
Import Ledger.
#[local] Existing Instance InMemory.repository.
#[local] Existing Instance InMemory.laws.
Definition office : Scoped.view := Scoped.mkView "office".
Notation docs := (list (string * InMemory.row ConsentRecord)).
Notation log := (list (string * InMemory.row PrivacyAuditRecord)).
Definition start : @Privacy.store docs log := Privacy.Store [] [].
Definition digest (ip : string) : string := "sha:" +:+ ip.
Definition serve (cs : list request) := perform_all (RC := Scoped.repository office) digest true cs start.

Definition history : list request :=
  [Grant 1 "c1" "alice" "marketing" "v1" (Some "10.0.0.7") false; Grant 2 "c2" "alice" "marketing" "v2" None false;
   Grant 3 "c3" "alice" "analytics" "v1" None false; Rectify 4 "c4" "a1" "alice" "analytics" "v2" "op";
   Withdraw 5 "w1" "alice" "marketing"; Withdraw 6 "w2" "alice" "marketing"; Grant 7 "c5" "bob" "spam" "v1" None false;
   Grant 8 "c6" "bob" "marketing" "v1" None false; Access 9 "a2" "alice" "op"; Erase 10 "a3" "alice" "op"].

Lemma consent_refines_witness :
  Forall2 answers (serve history).2 (spec_all history (ledger_of office [])).2 /\
  ledger_of office (Privacy.consents (serve history).1) = {[("bob", "marketing")]}.
Proof.
  destruct (consent_refines office digest true history ([] : docs) ([] : log)) as (HL & Ha & _).
  - split; [|by intros m ?%not_elem_of_nil|by intros m m' ?%not_elem_of_nil].
    split; [apply NoDup_nil_2|done].
  - repeat constructor; done.
  - apply (bool_decide_unpack _). by vm_compute.
  - intros u Hu. split; [|by intros m ?%not_elem_of_nil]. cbn in Hu.
    repeat (apply elem_of_cons in Hu as [->|Hu]; [done|]). by apply not_elem_of_nil in Hu.
  - intros subject. cbn. repeat case_decide; cbn; lia.
  - split; [exact Ha|]. etrans; [exact HL|]. by vm_compute.
Defined.

(** Rows of a log, [n] written at 0. *)
Definition mark (n : nat) : string := of_chars (replicate n "x"%char).
Definition entry (at_ : Z) (i : string) : string * InMemory.row PrivacyAuditRecord :=
  (i, InMemory.Row (mkAudit (base_default at_ (Some i)) "s" ACTION_ACCESS "op" "")).
Definition old_log (n : nat) : log := map (fun k => entry 0 (mark (Datatypes.S k))) (seq 0 n).
Definition sample : log := [entry 0 "a"; entry 9000000 "b"; entry 100 "c"].

Lemma retention_converges_witness :
  exists s' batches,
    Retention.cycles [10000000; 10000001; 10000002] [Retention.one_target 1 "privacy_audit_log" 5] sample =
      Some (s', map (fun gone => [("privacy_audit_log", Z.of_nat (length gone))]) batches) /\
    map (fun gone : list PrivacyAuditRecord => length gone) batches = [2; 0; 0]%nat /\
    (rp_view sample ≡ₚ concat batches ++ rp_view s') /\ (forall r, r ∈ rp_view s' -> Retention.expired (10000000 - 5 * 1000000) r = false).
Proof.
  destruct (Retention.retention_converges 1 "privacy_audit_log" 5 [10000000; 10000001; 10000002] 10000000 sample)
    as (s' & batches & Hrun & Hsplit & _ & Hdone).
  - split; [apply (bool_decide_unpack _); by vm_compute|]. intros k m Hm. apply dget_Some_elem in Hm.
    repeat (apply elem_of_cons in Hm as [[= -> ->]|Hm]; [done|]). by apply not_elem_of_nil in Hm.
  - intros r Hr. repeat (apply elem_of_cons in Hr as [->|Hr]; [by eexists|]). by apply not_elem_of_nil in Hr.
  - done.
  - lia.
  - by vm_compute.
  - intros t Ht. repeat (apply elem_of_cons in Ht as [->|Ht]; [lia|]). by apply not_elem_of_nil in Ht.
  - exists s', batches. split; [exact Hrun|]. split; [|split; [exact Hsplit|apply Hdone; by vm_compute]].
    assert (snd <$> Retention.cycles [10000000; 10000001; 10000002] [Retention.one_target 1 "privacy_audit_log" 5] sample =
            Some (map (fun n => [("privacy_audit_log", n)]) [2; 0; 0])) as E by by vm_compute.
    rewrite Hrun in E. destruct batches as [|a [|b [|d [|]]]]; try discriminate. injection E as Ha Hb Hd. cbn [map]. repeat f_equal; lia.
Defined.

(** A cycle deletes while it walks: of 150 rows past their time, 50 are skipped. *)
Example one_cycle_skips_rows :
  (fun out => (length (rp_view out.1), out.2))
    (Retention.run_cycle 10000000 [Retention.one_target 9 "privacy_audit_log" 5] [] (old_log 150)) =
  (50%nat, Some [("privacy_audit_log", 100)]).
Proof. by vm_compute. Qed.

(** A subject with 100 withdrawn rows: the next grant is stored and not seen, so it cannot
    be withdrawn, is granted twice, and neither an access nor an erasure finds it. *)
Definition churn (n : nat) : list request :=
  concat (map (fun k => [Grant 1 (mark (Datatypes.S k)) "alice" "marketing" "v1" None false; Withdraw 2 "w" "alice" "marketing"]) (seq 0 n)).
Definition after_churn : list request :=
  [Grant 3 "g1" "alice" "marketing" "v1" None false; Withdraw 4 "w" "alice" "marketing";
   Grant 5 "g2" "alice" "marketing" "v1" None false; Access 6 "a1" "alice" "op"; Erase 7 "a2" "alice" "op"].
Definition brief (a : result privacy_error answer) : result privacy_error (list (option string) + Z) :=
  match a with Ok (Rows l) => Ok (inl (map m_id l)) | Ok (Count n) => Ok (inr n) | Err e => Err e end.
Example grant_unseen_after_hundred_rows :
  map brief (drop 200 (serve (churn 100 ++ after_churn)).2) =
  [Ok (inl [Some "g1"]); Err ConsentNotFoundError; Ok (inl [Some "g2"]); Ok (inl []); Ok (inr 0)].
Proof. by vm_compute. Qed.

(** An erasure leaves the withdrawn rows, with the digest of the caller's address. *)
Example erasure_keeps_withdrawn_rows :
  map ip_hash (rp_view (Privacy.consents (serve
    [Grant 1 "c1" "alice" "marketing" "v1" (Some "10.0.0.7") false; Withdraw 2 "w" "alice" "marketing";
     Erase 3 "a1" "alice" "op"]).1)) = [Some "sha:10.0.0.7"].
Proof. by vm_compute. Qed.
End PrivacyRuns.
