(* ===== verification/AgentTools.v ===== *)
(** * Shared tools and the agents that carry them
    (src/voiceai/modules/tools/service.py, modules/agents/service_tools.py and repository.py,
    core/container.py _AgentToolLinks)

    The tool registry over a system and a tenant view of one collection, the resolution of
    an agent's references into its record, the flags of its reads, and the cascade of an
    edit. A record is a [dict] that the code changes in place: a function here answers the
    changed record, and an exception drops it, as the callers do. The verdict of the URL
    guard and the [repr] of a value are arguments. *)
From S2P Require Import Prelude PyText PyVal Pagination Repository Scoped.
Open Scope Z_scope.
Open Scope voice_scope.

(** ** Documents *)
Inductive ToolKind : Type := KFunction | KWebhook | KInternal.
#[global] Instance tool_kind_dec : EqDecision ToolKind.
Proof. solve_decision. Defined.
Definition kind_text (k : ToolKind) : string :=
  match k with KFunction => "function" | KWebhook => "webhook" | KInternal => "internal" end.

Record ToolDefinition := mkTool {
  td_base : BaseFields; tool_id : string; kind : ToolKind; name : string; description : string;
  parameters : dict string val; url : option string; method : string; auth_ref : option string; timeout_s : Z;
  params_template : dict string val; deprecated : bool; requires_tenant_key : bool; tools_version : Z;
  owner_org_id : option string }.
Record AgentDefinition := mkAgent { ag_base : BaseFields; agent_key : string; config : dict string val }.
Record AgentPrompts := mkPrompts { ap_base : BaseFields; ap_agent_id : string; payload : option (dict string val) }.

Definition tool_field (t : ToolDefinition) (f : string) : option val :=
  dget f [("tool_id", VStr (tool_id t)); ("kind", VStr (kind_text (kind t))); ("name", VStr (name t));
          ("description", VStr (description t)); ("parameters", VDict (parameters t)); ("url", opt_str (url t));
          ("method", VStr (method t)); ("auth_ref", opt_str (auth_ref t)); ("timeout_s", VInt (timeout_s t));
          ("params_template", VDict (params_template t)); ("deprecated", VBool (deprecated t));
          ("requires_tenant_key", VBool (requires_tenant_key t)); ("tools_version", VInt (tools_version t));
          ("owner_org_id", opt_str (owner_org_id t))].
Definition agent_field (a : AgentDefinition) (f : string) : option val :=
  dget f [("agent_id", VStr (agent_key a)); ("config", VDict (config a))].
Definition prompts_field (p : AgentPrompts) (f : string) : option val :=
  dget f [("agent_id", VStr (ap_agent_id p)); ("payload", match payload p with Some d => VDict d | None => VNone end)].

Ltac solve_agent_model :=
  try done; try (by intros; match goal with m : _ |- _ => destruct m end);
  intros m f Hf; repeat (apply elem_of_cons in Hf as [->|Hf]; [done|]); by apply elem_of_nil in Hf.
#[export] Instance tool_model : Model ToolDefinition.
Proof.
  refine {| base_of := td_base; own_field := tool_field;
    set_base b t := mkTool b (tool_id t) (kind t) (name t) (description t) (parameters t) (url t) (method t) (auth_ref t)
      (timeout_s t) (params_template t) (deprecated t) (requires_tenant_key t) (tools_version t) (owner_org_id t) |};
    solve_agent_model.
Defined.
#[export] Instance agent_model : Model AgentDefinition.
Proof.
  refine {| base_of := ag_base; own_field := agent_field; set_base b a := mkAgent b (agent_key a) (config a) |};
    solve_agent_model.
Defined.
#[export] Instance prompts_model : Model AgentPrompts.
Proof.
  refine {| base_of := ap_base; own_field := prompts_field; set_base b p := mkPrompts b (ap_agent_id p) (payload p) |};
    solve_agent_model.
Defined.

Definition with_id (i : string) (t : ToolDefinition) : ToolDefinition :=
  mkTool (td_base t) i (kind t) (name t) (description t) (parameters t) (url t) (method t) (auth_ref t)
    (timeout_s t) (params_template t) (deprecated t) (requires_tenant_key t) (tools_version t) (owner_org_id t).
Definition with_version (v : Z) (t : ToolDefinition) : ToolDefinition :=
  mkTool (td_base t) (tool_id t) (kind t) (name t) (description t) (parameters t) (url t) (method t) (auth_ref t)
    (timeout_s t) (params_template t) (deprecated t) (requires_tenant_key t) v (owner_org_id t).

Inductive py_error : Type := PyTypeError | PyAttributeError | PyKeyError | PyIndexError.
Inductive agent_error : Type :=
| ToolNotFoundError (tool_id : string)
| ToolForbiddenError (tool_id : string)
| InvalidToolError
| ConflictError (referencing_agents : Z)
| AgentNotFoundError (agent_id : string)
| AgentConfigInvalidError (problems : list string)
| MissingExtractionModel
| PromptStoreError
| Storage (e : db_error)
| Raised (e : py_error).

Definition SYSTEM_TENANT_ID : string := "system".
Definition TASKS_KEY : string := "tasks".
Definition TOOLS_CONFIG_KEY : string := "tools_config".
Definition TOOL_SOURCE_VERSIONS_KEY : string := "tool_source_versions".
Definition PRE_CALL_WEBHOOK_REF_KEY : string := "pre_call_webhook_ref".
Definition STALE_DEPRECATED_KEY : string := "stale_deprecated".
Definition TOOL_VERSION_DRIFT_KEY : string := "tool_version_drift".
Definition URL_KEY : string := "url".
Definition PRE_CALL_WEBHOOK_URL_KEY : string := "pre_call_webhook_url".
Definition ENDPOINT_SAFETY_MESSAGE : string := "endpoint failed safety validation".

Notation docs M := (list (string * InMemory.row M)).
Record hub := Hub { tools : docs ToolDefinition; agents : docs AgentDefinition; prompts : docs AgentPrompts }.
Definition set_tools x h := Hub x (agents h) (prompts h).
Definition set_agents x h := Hub (tools h) x (prompts h).
Definition set_prompts x h := Hub (tools h) (agents h) x.
Notation Hubs := (SE hub agent_error).
Notation answer A := (result agent_error A).

(** Sequencing of reads. *)
Definition bind_ok {A B} (r : answer A) (k : A -> answer B) : answer B :=
  match r with Ok a => k a | Err e => Err e end.
Notation "'let?' x := r 'in' k" := (bind_ok r (fun x => k)) (at level 200, x name, r at level 100, k at level 200).
Definition read {A} (f : hub -> answer A) : Hubs A := fun h => (h, f h).
Definition of_db {A} (r : result db_error A) : answer A := match r with Ok a => Ok a | Err e => Err (Storage e) end.

(** [d.get(k)], and what a [for] over [v or []] walks. *)
Definition get_item (k : string) (d : dict string val) : val := default VNone (dget k d).
Definition as_dict (v : val) : option (dict string val) := match v with VDict d => Some d | _ => None end.
Definition iterate (v : val) : answer (list val) :=
  match v with
  | VList l => Ok l
  | VStr s => Ok (map (fun c => VStr (of_chars [c])) (chars s))
  | VDict d => Ok (map (fun kv => VStr kv.1) d)
  | _ => if truthy v then Err (Raised PyTypeError) else Ok []
  end.
Definition string_leb (a b : string) : bool := match String.compare a b with Gt => false | _ => true end.
Definition sorted_set (l : list string) : list string := sort_by string_leb (remove_dups l).

(** ** The registry (tools/service.py, tools/repository.py) *)
Module ToolsService.
Section registry.
Context (V : Scoped.view).
Definition system : Scoped.view := Scoped.mkView SYSTEM_TENANT_ID.

#[local] Instance store : Repository ToolDefinition (docs ToolDefinition) := InMemory.repository.

(** [ToolsRepository.get_tool], [save_tool] and [list_all] of one view. *)
Definition get_row (W : Scoped.view) (id : string) (h : hub) : answer (option ToolDefinition) :=
  of_db (Scoped.get W id (tools h)).
Definition save_tool (W : Scoped.view) (t : ToolDefinition) : Hubs ToolDefinition := fun h =>
  let '(d, saved) := Scoped.insert W "unused" (upd_base (set_id (Some (tool_id t))) t) (tools h) in (set_tools d h, Ok saved).
Definition list_all (W : Scoped.view) (h : hub) : list ToolDefinition :=
  default [] (@walk_pages ToolDefinition (docs ToolDefinition) (Scoped.repository W) (S (length (tools h))) [] (tools h)).

Definition build_tool_id (k : ToolKind) (n : string) : string := kind_text k +:+ ":" +:+ n.

Definition of_kind (k : option ToolKind) (t : ToolDefinition) : bool :=
  match k with None => true | Some k => bool_decide (kind t = k) end.
Definition list_tools (k : option ToolKind) (h : hub) : list ToolDefinition :=
  let of_system := List.filter (of_kind k) (list_all system h) in
  let merged := foldl (fun d t => dset (tool_id t) t d) [] (of_system ++ List.filter (of_kind k) (list_all V h)) in
  let is_system i := bool_decide (i ∈ map tool_id of_system) in
  let le (a b : string * ToolDefinition) :=
    if Bool.eqb (is_system a.1) (is_system b.1) then string_leb a.1 b.1 else is_system a.1 in
  map snd (sort_by le merged).

Definition ensure_tool_found (o : option ToolDefinition) (id : string) : answer ToolDefinition :=
  match o with Some t => Ok t | None => Err (ToolNotFoundError id) end.
Definition ensure_system_immutable (is_system_row : bool) (id : string) : answer unit :=
  if is_system_row then Err (ToolForbiddenError id) else Ok tt.
Definition ensure_writable_kind (k : ToolKind) : answer unit :=
  if decide (k = KInternal) then Err InvalidToolError else Ok tt.

(** The tenant's row wins. *)
Definition get_tool (id : string) (h : hub) : answer ToolDefinition :=
  let? own := get_row V id h in
  match own with
  | Some t => Ok t
  | None => let? shared := get_row system id h in ensure_tool_found shared id
  end.
Definition get_tool_for_attach (id : string) (h : hub) : answer ToolDefinition :=
  let? t := get_tool id h in if deprecated t then Err InvalidToolError else Ok t.

(** An id that is no [str] is found nowhere; one that has no hash raises. *)
Definition by_ref {A} (lookup : string -> hub -> answer A) (ref : val) (h : hub) : answer A :=
  match ref with
  | VStr s => lookup s h
  | VList _ | VDict _ => Err (Raised PyTypeError)
  | _ => Err (ToolNotFoundError "")
  end.

Definition create_tool (t : ToolDefinition) : Hubs ToolDefinition :=
  read (fun _ => ensure_writable_kind (kind t)) ;;;
  save_tool V (with_id (build_tool_id (kind t) (name t)) t).
End registry.
End ToolsService.

(** ** References of an agent record (agents/service_tools.py) *)
Module AgentToolsMixin.

(** [for x in l: ...], path a step may raise. *)
Fixpoint each {A S} (f : A -> S -> answer S) (l : list A) (s : S) : answer S :=
  match l with [] => Ok s | x :: l => let? s := f x s in each f l s end.

Definition tasks_of (data : dict string val) : answer (list val) := iterate (get_item TASKS_KEY data).
(** The [api_tools] mapping of a task, and the task with another one in its place. *)
Definition api_tools_of (task : val) : option (dict string val) :=
  t ← as_dict task; tc ← as_dict (get_item TOOLS_CONFIG_KEY t); as_dict (get_item "api_tools" tc).
Definition with_api_tools (api : dict string val) (task : val) : val :=
  match task with
  | VDict t => match get_item TOOLS_CONFIG_KEY t with
               | VDict tc => VDict (dset TOOLS_CONFIG_KEY (VDict (dset "api_tools" (VDict api) tc)) t)
               | _ => task
               end
  | _ => task
  end.
Definition api_tools_blocks (data : dict string val) : answer (list (dict string val)) :=
  let? tasks := tasks_of data in Ok (omap api_tools_of tasks).

Definition note_ref (v : val) (refs : list string) : list string :=
  match v with
  | VStr s => if str_true s && negb (bool_decide (s ∈ refs)) then refs ++ [s] else refs
  | _ => refs
  end.
Definition attached_refs (api : dict string val) : answer (list string) :=
  let? l := iterate (get_item "tool_refs" api) in
  let refs := foldl (fun refs v => note_ref v refs) [] l in
  match get_item "tools_params" api with
  | VDict params =>
      Ok (foldl (fun refs kv => match kv.2 with
                                | VDict entry => note_ref (get_item PRE_CALL_WEBHOOK_REF_KEY entry) refs
                                | _ => refs
                                end) refs params)
  | _ => Ok refs
  end.

(** [for task in tasks: ...] over the mappings, each changed in place; [notes] is what the
    walk gathers. [position] is that of the first task. *)
Fixpoint over_tasks {N} (f : nat -> dict string val -> N -> answer (dict string val * N)) (position : nat)
    (tasks : list val) (notes : N) : answer (list val * N) :=
  match tasks with
  | [] => Ok ([], notes)
  | task :: tasks =>
      let? step := match api_tools_of task with
                   | Some api => let? r := f position api notes in Ok (with_api_tools r.1 task, r.2)
                   | None => Ok (task, notes)
                   end in
      let? rest := over_tasks f (S position) tasks step.2 in Ok (step.1 :: rest.1, rest.2)
  end.
(** A value that is no list has no task that is a mapping. *)
Definition over_data {N} (f : nat -> dict string val -> N -> answer (dict string val * N)) (data : dict string val)
    (notes : N) : answer (dict string val * N) :=
  let? tasks := tasks_of data in
  match get_item TASKS_KEY data with
  | VList _ => let? r := over_tasks f 0 tasks notes in Ok (dset TASKS_KEY (VList r.1) data, r.2)
  | _ => Ok (data, notes)
  end.

Section mixin.
Context (V : Scoped.view) (is_url_safe : string -> bool) (repr : val -> string) (h : hub).

(** [_stamp_tool_source_versions] *)
Definition stamps_of (refs : list string) : answer (dict string val) :=
  each (fun ref stamps => match ToolsService.get_tool V ref h with
                          | Ok t => Ok (dset ref (VInt (tools_version t)) stamps)
                          | Err (ToolNotFoundError _) => Ok stamps
                          | Err e => Err e
                          end) refs [].
Definition stamp_block (api : dict string val) : answer (dict string val) :=
  let? refs := attached_refs api in
  let? stamps := stamps_of refs in
  match stamps with
  | [] => Ok (ddel TOOL_SOURCE_VERSIONS_KEY api)
  | _ => Ok (dset TOOL_SOURCE_VERSIONS_KEY (VDict stamps) api)
  end.
Definition stamp_tool_source_versions (data : dict string val) : answer (dict string val) :=
  let? r := over_data (fun _ api _ => let? api := stamp_block api in Ok (api, tt)) data tt in Ok r.1.

(** [_livelink_flags]: whether a row is deprecated, and the drifted references. *)
Definition pinned_version (v : val) : option Z :=
  match v with VInt z => Some z | VBool b => Some (if b then 1 else 0) | _ => None end.
Definition flag_ref (stamps : dict string val) (ref : string) (flags : bool * list string) : answer (bool * list string) :=
  match ToolsService.get_tool V ref h with
  | Err (ToolNotFoundError _) => Ok flags
  | Err e => Err e
  | Ok t =>
      let drifted := match pinned_version (get_item ref stamps) with
                     | Some z => negb (z =? tools_version t) && negb (bool_decide (ref ∈ flags.2))
                     | None => false
                     end in
      Ok (flags.1 || deprecated t, if drifted then flags.2 ++ [ref] else flags.2)
  end.
Definition flag_block (api : dict string val) (flags : bool * list string) : answer (bool * list string) :=
  let stamps := match get_item TOOL_SOURCE_VERSIONS_KEY api with VDict d => d | _ => [] end in
  let? refs := attached_refs api in each (flag_ref stamps) refs flags.
Definition livelink_flags (data : dict string val) : answer (dict string val) :=
  let? blocks := api_tools_blocks data in
  let? flags := each flag_block blocks (false, []) in
  Ok ((if flags.1 then [(STALE_DEPRECATED_KEY, VBool true)] else []) ++
      match flags.2 with [] => [] | drift => [(TOOL_VERSION_DRIFT_KEY, VList (map VStr (sort_by string_leb drift)))] end).
Definition with_livelink_flags (data flags : dict string val) : dict string val :=
  match flags with [] => data | _ => dupdate data flags end.

(** [_materialize_tool_ref]: the embedded entries win. *)
Definition name_of (item : val) : answer val :=
  match item with
  | VDict d =>
      match get_item "function" d with
      | VDict f => match get_item "name" f with VList _ | VDict _ => Err (Raised PyTypeError) | n => Ok n end
      | v => if truthy v then Err (Raised PyAttributeError) else Ok VNone
      end
  | _ => Ok VNone
  end.
Fixpoint names_of (items : list val) : answer (list val) :=
  match items with [] => Ok [] | i :: items => let? n := name_of i in let? l := names_of items in Ok (n :: l) end.
Definition function_entry (row : ToolDefinition) : val :=
  VDict [("type", VStr "function");
         ("function", VDict [("name", VStr (name row)); ("description", VStr (description row));
                             ("parameters", VDict (parameters row))])].
Definition add_function (row : ToolDefinition) (api : dict string val) : answer (dict string val) :=
  let api := match get_item "tools" api with VNone => dset "tools" (VList []) api | _ => api end in
  match get_item "tools" api with
  | VList items =>
      let? names := names_of items in
      if val_in (VStr (name row)) names then Ok api
      else Ok (dset "tools" (VList (items ++ [function_entry row])) api)
  | _ => Ok api
  end.
Definition materialize_tool_ref (api : dict string val) (row : ToolDefinition) (path : string) :
    answer (dict string val * option string) :=
  let? api := add_function row api in
  match get_item "tools_params" api with
  | VDict params =>
      if dhas (name row) params then Ok (api, None)
      else match url row with
           | None => Ok (api, None)
           | Some u =>
               if is_url_safe u then
                 Ok (dset "tools_params" (VDict (dset (name row) (VDict [("url", VStr u); ("method", VStr (method row))]) params)) api, None)
               else Ok (api, Some (path +:+ ": tool " +:+ repr (VStr (name row)) +:+ " endpoint failed safety validation"))
           end
  | _ => Ok (api, None)
  end.

(** [_resolve_webhook_ref] *)
Definition stamp_hook_param (row : ToolDefinition) (entry : dict string val) : dict string val :=
  match get_item "pre_call_webhook_param" entry with
  | VNone => dset "pre_call_webhook_param" (VDict (params_template row)) entry
  | _ => entry
  end.
Definition resolve_webhook_ref (entry : dict string val) (path : string) : answer (dict string val * list string) :=
  let ref := get_item PRE_CALL_WEBHOOK_REF_KEY entry in
  if negb (truthy ref) then Ok (entry, [])
  else match ToolsService.by_ref (ToolsService.get_tool_for_attach V) ref h with
       | Err (ToolNotFoundError _) => Ok (entry, [path +:+ ": unknown webhook ref " +:+ repr ref])
       | Err InvalidToolError =>
           Ok (entry, [path +:+ ": deprecated webhook ref " +:+ repr ref +:+ " (retired, pick a live webhook)"])
       | Err e => Err e
       | Ok row =>
           match get_item PRE_CALL_WEBHOOK_URL_KEY entry with
           | VNone =>
               match url row with
               | None => Ok (entry, [path +:+ ": webhook " +:+ repr (VStr (name row)) +:+ " has no endpoint"])
               | Some u =>
                   if is_url_safe u
                   then Ok (stamp_hook_param row (dset PRE_CALL_WEBHOOK_URL_KEY (VStr u) entry), [])
                   else Ok (entry, [path +:+ ": webhook " +:+ repr (VStr (name row)) +:+ " endpoint failed safety validation"])
               end
           | _ => Ok (stamp_hook_param row entry, [])
           end
       end.

(** [_resolve_tool_refs] *)
Definition valid_ids : list string := sorted_set (map tool_id (ToolsService.list_tools V None h)).
Definition valid_suffix : string :=
  match valid_ids with [] => "" | ids => " (valid: " +:+ PyText.join ", " ids +:+ ")" end.
Definition resolve_ref (path : string) (ref : val) (s : dict string val * list string) :
    answer (dict string val * list string) :=
  match ToolsService.by_ref (ToolsService.get_tool_for_attach V) ref h with
  | Err (ToolNotFoundError _) => Ok (s.1, s.2 ++ [path +:+ ": unknown tool ref " +:+ repr ref +:+ valid_suffix])
  | Err InvalidToolError =>
      Ok (s.1, s.2 ++ [path +:+ ": deprecated tool ref " +:+ repr ref +:+ " (retired, pick a live tool)"])
  | Err e => Err e
  | Ok row =>
      let? r := materialize_tool_ref s.1 row path in
      Ok (r.1, s.2 ++ match r.2 with Some p => [p] | None => [] end)
  end.
Definition suffixed (problems : list string) : list string :=
  match problems with
  | p :: rest => if contains p "unknown webhook ref" then (p +:+ valid_suffix) :: rest else problems
  | [] => []
  end.
Fixpoint resolve_hooks (path : string) (params : dict string val) (problems : list string) :
    answer (dict string val * list string) :=
  match params with
  | [] => Ok ([], problems)
  | (n, VDict entry) :: params =>
      let? r := resolve_webhook_ref entry (path +:+ ".tools_params." +:+ n) in
      let? rest := resolve_hooks path params (problems ++ suffixed r.2) in Ok ((n, VDict r.1) :: rest.1, rest.2)
  | kv :: params => let? rest := resolve_hooks path params problems in Ok (kv :: rest.1, rest.2)
  end.
Definition path_of (position : nat) : string := "tasks[" +:+ str_of_Z (Z.of_nat position) +:+ "].api_tools".
Definition resolve_block (position : nat) (api : dict string val) (problems : list string) :
    answer (dict string val * list string) :=
  let path := path_of position in
  let? refs := iterate (get_item "tool_refs" api) in
  let? s := each (resolve_ref path) refs (api, problems) in
  match get_item "tools_params" s.1 with
  | VDict params =>
      let? r := resolve_hooks path params s.2 in Ok (dset "tools_params" (VDict r.1) s.1, r.2)
  | _ => Ok s
  end.
Definition resolve_tool_refs (data : dict string val) : answer (dict string val * list string) :=
  let? r := over_data resolve_block data [] in
  let? data := stamp_tool_source_versions r.1 in Ok (data, r.2).
Definition rematerialize_agent_tools (data : dict string val) : answer (dict string val * list string) :=
  resolve_tool_refs data.

(** [_gate_embedded_endpoints]: the record is only read. *)
Definition gate_url (path key : string) (entry : dict string val) : list string :=
  match get_item key entry with
  | VStr u => if str_true u && negb (is_url_safe u) then [path +:+ "." +:+ key +:+ ": " +:+ ENDPOINT_SAFETY_MESSAGE] else []
  | _ => []
  end.
Definition gate_entry (position : nat) (kv : string * val) : list string :=
  match kv.2 with
  | VDict entry =>
      let path := path_of position +:+ ".tools_params." +:+ kv.1 in
      gate_url path URL_KEY entry ++ gate_url path PRE_CALL_WEBHOOK_URL_KEY entry
  | _ => []
  end.
Definition gate_task (position : nat) (task : val) : list string :=
  match api_tools_of task with
  | Some api => match get_item "tools_params" api with
                | VDict params => concat (map (gate_entry position) params)
                | _ => []
                end
  | None => []
  end.
Definition gate_embedded_endpoints (data : dict string val) : answer (list string) :=
  let? tasks := tasks_of data in Ok (concat (imap gate_task tasks)).
End mixin.
End AgentToolsMixin.

(** ** The store of definitions (agents/repository.py) and the cascade (container.py, tools/service.py) *)
Module LiveLink.
Import AgentToolsMixin.
Section link.
Context (V : Scoped.view) (is_url_safe : string -> bool) (repr : val -> string).
#[local] Instance tool_store : Repository ToolDefinition (docs ToolDefinition) := InMemory.repository.
#[local] Instance agent_store : Repository AgentDefinition (docs AgentDefinition) := InMemory.repository.

(** [MongoAgentDefinitions] over the tenant's view. *)
Definition get_agent (id : string) (h : hub) : answer (option (dict string val)) :=
  let? o := of_db (Scoped.get V id (agents h)) in Ok (config <$> o).
Definition save_agent (now : Z) (id : string) (c : dict string val) : Hubs unit := fun h =>
  (set_agents (Scoped.insert V "unused" (mkAgent (base_default now (Some id)) id c) (agents h)).1 h, Ok tt).
Definition delete_agent (now : Z) (id : string) : Hubs bool := fun h =>
  let '(d, r) := Scoped.soft_delete V now None id (agents h) in (set_agents d h, of_db r).
Definition is_agent_key (key : string) : bool := negb (contains key ":").
(** [collect_agent_records] on the stored rows, whose JSON reads back as they are. *)
Definition genuine (a : AgentDefinition) : bool :=
  is_agent_key (agent_key a) && match get_item TASKS_KEY (config a) with VList _ => true | _ => false end.
Definition list_agents (h : hub) : list (string * dict string val) :=
  map (fun a => (agent_key a, config a)) (List.filter genuine
    (default [] (@walk_pages AgentDefinition (docs AgentDefinition) (Scoped.repository V) (S (length (agents h))) [] (agents h)))).

(** [_AgentToolLinks] *)
Fixpoint block_refs (blocks : list (dict string val)) : answer (list string) :=
  match blocks with
  | [] => Ok []
  | api :: blocks => let? refs := attached_refs api in let? rest := block_refs blocks in Ok (refs ++ rest)
  end.
Definition record_refs (c : dict string val) : answer (list string) :=
  let? blocks := api_tools_blocks c in block_refs blocks.
Fixpoint referencing (id : string) (records : list (string * dict string val)) : answer (list (string * dict string val)) :=
  match records with
  | [] => Ok []
  | (agent_id, c) :: records =>
      let? refs := record_refs c in
      let? rest := referencing id records in
      Ok (if bool_decide (id ∈ refs) && str_true agent_id then (agent_id, c) :: rest else rest)
  end.
Definition referencing_dumps (id : string) (h : hub) : answer (list (string * dict string val)) :=
  referencing id (list_agents h).
Definition count_referencing_agents (id : string) (h : hub) : answer Z :=
  let? l := referencing_dumps id h in Ok (Z.of_nat (length l)).
(** One agent after the other; one that raises or has problems is passed over. *)
Fixpoint rematerialize_each (now limit propagated : Z) (l : list (string * dict string val)) : Hubs Z :=
  match l with
  | [] => se_ret propagated
  | (agent_id, c) :: l =>
      if limit <=? propagated then se_ret propagated
      else fun h => match rematerialize_agent_tools V is_url_safe repr h c with
                    | Ok (c, []) => (save_agent now agent_id c ;;; rematerialize_each now limit (propagated + 1) l) h
                    | _ => rematerialize_each now limit propagated l h
                    end
  end.
Definition rematerialize_tool (now : Z) (id : string) (limit : Z) : Hubs Z :=
  l <- read (referencing_dumps id) ;; rematerialize_each now limit 0 l.

(** [ToolsService.update_tool] and [delete_tool] with the link wired. *)
Definition update_tool (now : Z) (id : string) (t : ToolDefinition) : Hubs (ToolDefinition * Z) :=
  existing <- read (ToolsService.get_row ToolsService.system id) ;;
  read (fun _ => ToolsService.ensure_system_immutable (bool_decide (is_Some existing)) id) ;;;
  own <- read (ToolsService.get_row V id) ;;
  row <- read (fun _ => ToolsService.ensure_tool_found own id) ;;
  read (fun _ => ToolsService.ensure_writable_kind (kind t)) ;;;
  saved <- ToolsService.save_tool V (with_version (tools_version row + 1) (with_id id t)) ;;
  propagated <- rematerialize_tool now id MAX_PAGE_SIZE ;;
  se_ret (saved, propagated).
Definition delete_row (now : Z) (id : string) : Hubs bool := fun h =>
  let '(d, r) := Scoped.soft_delete V now None id (tools h) in
  (set_tools d h, match r with Err (NotFoundError _) => Ok false | r => of_db r end).
Definition delete_tool (now : Z) (id : string) : Hubs unit :=
  existing <- read (ToolsService.get_row ToolsService.system id) ;;
  read (fun _ => ToolsService.ensure_system_immutable (bool_decide (is_Some existing)) id) ;;;
  own <- read (ToolsService.get_row V id) ;;
  read (fun _ => ToolsService.ensure_tool_found own id) ;;;
  references <- read (count_referencing_agents id) ;;
  (if 0 <? references then se_raise (ConflictError references) else se_ret tt) ;;;
  deleted <- delete_row now id ;;
  (if deleted : bool then se_ret tt else se_raise (ToolNotFoundError id)).
End link.
End LiveLink.
