(* ===== verification/AgentConfig.v ===== *)
(** * Agent definitions: the catalog audit, patches and the service
    (src/voiceai/modules/agents/static_methods.py, service.py, repository.py)

    Every write of an agent record: what it refuses, what it adds, what it stores. The schema
    [AgentModel] is an argument (the dump of a record that validates, or its problems), like
    the completion that generates an extraction prompt and the language test. *)
From S2P Require Import Prelude PyText PyVal Pagination Repository Scoped AgentTools.
Open Scope Z_scope.
Open Scope voice_scope.

Definition EXTENSIONS_KEY : string := "extensions".
Definition CLEAR_EXTENSIONS_KEY : string := "clear_extensions".
Definition TASK_TYPE_KEY : string := "task_type".
Definition LLM_AGENT_KEY : string := "llm_agent".
Definition EXTRACTION_DETAILS_KEY : string := "extraction_details".
Definition EXTRACTION_JSON_KEY : string := "extraction_json".
Definition TASK_TYPE_EXTRACTION : string := "extraction".
Definition ASSISTANT_STATUS_KEY : string := "assistant_status".
Definition ASSISTANT_STATUS_SEEDING : string := "seeding".
Definition ASSISTANT_STATUS_UPDATED : string := "updated".
Definition WRITABLE_CHANNELS : list string := ["voice"; "chat"].

(** [key in v] for a mapping, and [isinstance(v, str)] with a value. *)
Definition is_dict (v : val) : bool := match v with VDict _ => true | _ => false end.
Definition text_or_empty (v : val) : string := match v with VStr s => s | _ => "" end.
Definition index_text (i : nat) : string := str_of_Z (Z.of_nat i).

(** ** The audit against the catalog (static_methods.py) *)
Module Audit.
Section audit.
Context (repr : val -> string) (is_language_valid : string -> bool).
Notation row := (dict string val).

(** [str(v)] *)
Definition text_of (v : val) : string := match v with VStr s => s | _ => repr v end.
Definition entry_text (key : string) (e : row) : string := text_of (default (VStr "") (dget key e)).

Definition catalog_index (entries : list row) : dict (string * string) (list row) :=
  foldl (fun index e =>
    let key := (entry_text "modality" e, entry_text "provider" e) in
    dset key (default [] (dget key index) ++ [e]) index) [] entries.

Definition match_row (rows : list row) (model : string) : option row :=
  match List.find (fun r => bool_decide (entry_text "model" r = model)) rows with
  | Some r => Some r
  | None => List.find (fun r => match get_item "models_open" r with VBool true => true | _ => false end) rows
  end.

(** The matched row, or the one problem. *)
Definition check_leaf (index : dict (string * string) (list row)) (modality : string) (provider model : val)
    (path : string) : result string row :=
  match provider with
  | VStr p =>
      if negb (str_true p) then Err (path +:+ ": missing " +:+ modality +:+ " provider")
      else match default [] (dget (modality, p) index) with
           | [] =>
               let valid := sorted_set (omap (fun k => if bool_decide (k.1 = modality) then Some k.2 else None) (dkeys index)) in
               Err (path +:+ ": unknown " +:+ modality +:+ " provider " +:+ repr provider +:+ " (valid: " +:+ PyText.join ", " valid +:+ ")")
           | rows =>
               let missing := Err (path +:+ ": missing " +:+ modality +:+ " model for provider " +:+ repr provider) in
               match model with
               | VStr m =>
                   if negb (str_true m) then missing
                   else match match_row rows m with
                        | Some r => Ok r
                        | None => Err (path +:+ ": unknown " +:+ modality +:+ " model " +:+ repr model +:+ " for provider " +:+
                                       repr provider +:+ " (valid: " +:+ PyText.join ", " (sorted_set (map (entry_text "model") rows)) +:+ ")")
                        end
               | _ => missing
               end
           end
  | _ => Err (path +:+ ": missing " +:+ modality +:+ " provider")
  end.
Definition problem_of {A} (r : result string A) : list string := match r with Ok _ => [] | Err p => [p] end.

Definition check_language (code : val) (path : string) : list string :=
  let malformed := [path +:+ ": malformed language code " +:+ repr code] in
  match code with VNone => [] | VStr c => if is_language_valid c then [] else malformed | _ => malformed end.
Definition check_languages (codes : val) (path : string) : list string :=
  match codes with
  | VNone => []
  | VList l => concat (map (fun c => check_language c path) l)
  | _ => [path +:+ ": language hints must be a list"]
  end.

(** [row.get("voices", [])], walked for the mappings in it. *)
Definition voice_names (r : row) : list string :=
  match get_item "voices" r with
  | VList l => omap (fun v => d ← as_dict v; Some (entry_text "name" d)) l
  | _ => []
  end.
Definition check_voice (r : row) (voice : val) (path : string) : list string :=
  match voice with
  | VStr v =>
      if negb (str_true v) then [path +:+ ": missing voice"]
      else let names := voice_names r in
           match names with
           | [] => []
           | _ => if bool_decide (v ∈ names) then []
                  else match get_item "voices_open" r with
                       | VBool true => []
                       | _ => [path +:+ ": unknown voice " +:+ repr voice +:+ " (valid: " +:+ PyText.join ", " (sort_by string_leb names) +:+ ")"]
                       end
           end
  | _ => [path +:+ ": missing voice"]
  end.

Definition ENGINE_MODEL_PROVIDERS : list string := ["polly"].
Definition audit_synthesizer (index : dict (string * string) (list row)) (synthesizer : row) (path : string) : list string :=
  match get_item "provider_config" synthesizer with
  | VDict pc =>
      let provider := get_item "provider" synthesizer in
      let engine := match provider with VStr p => bool_decide (p ∈ ENGINE_MODEL_PROVIDERS) | _ => false end in
      let here := path +:+ ".synthesizer" in
      match check_leaf index "tts" provider (get_item (if engine then "engine" else "model") pc) here with
      | Err p => [p]
      | Ok r => check_voice r (get_item "voice" pc) here ++ check_language (get_item "language" pc) here
      end
  | _ => []
  end.

(** Every mapping of a subtree with a [provider] and a [model], but for the extensions. *)
Fixpoint audit_llm_leaves (index : dict (string * string) (list row)) (node : val) (path : string) {struct node} : list string :=
  match node with
  | VDict d =>
      (match get_item "provider" d with
       | VStr _ => if dhas "model" d
                   then problem_of (check_leaf index "llm" (get_item "provider" d) (get_item "model" d) path) else []
       | _ => []
       end) ++
      (fix go (d : list (string * val)) : list string :=
         match d with
         | [] => []
         | (k, v) :: d => (if bool_decide (k = EXTENSIONS_KEY) then [] else audit_llm_leaves index v (path +:+ "." +:+ k)) ++ go d
         end) d
  | VList l =>
      (fix go (i : nat) (l : list val) : list string :=
         match l with
         | [] => []
         | v :: l => audit_llm_leaves index v (path +:+ "[" +:+ index_text i +:+ "]") ++ go (S i) l
         end) 0%nat l
  | _ => []
  end.

Definition audit_chat_task (index : dict (string * string) (list row)) (tools : row) (path : string) : list string :=
  concat (map (fun block => if is_dict (get_item block tools)
                            then [path +:+ ": `" +:+ block +:+ "` block not allowed on a chat-pipeline task (LLM-only)"] else [])
            ["transcriber"; "synthesizer"; "s2s"]) ++
  match get_item LLM_AGENT_KEY tools with
  | VNone => [path +:+ ": chat-pipeline task requires `llm_agent`"]
  | llm_agent => audit_llm_leaves index llm_agent (path +:+ ".llm_agent")
  end.

Definition resolve_pipeline_for_task (task : row) : string :=
  let inferred :=
    if val_eqb (default (VStr "conversation") (dget TASK_TYPE_KEY task)) (VStr "conversation") &&
       match get_item TOOLS_CONFIG_KEY task with VDict tools => is_dict (get_item "s2s" tools) | _ => false end
    then "s2s" else "asr" in
  match get_item "pipeline" task with
  | VStr p => if bool_decide (p ∈ ["asr"; "s2s"; "chat"]) then p else inferred
  | _ => inferred
  end.

Definition audit_transcriber (index : dict (string * string) (list row)) (tools : row) (path : string) : list string :=
  match get_item "transcriber" tools with
  | VDict t =>
      let here := path +:+ ".transcriber" in
      problem_of (check_leaf index "asr" (get_item "provider" t) (get_item "model" t) here) ++
      check_language (get_item "language" t) here ++ check_languages (get_item "language_hints" t) here
  | _ => []
  end.
Definition audit_s2s (index : dict (string * string) (list row)) (tools : row) (path : string) : list string :=
  match get_item "s2s" tools with
  | VDict s =>
      let model := match get_item "provider_config" s with VDict pc => get_item "model" pc | _ => VNone end in
      problem_of (check_leaf index "s2s" (get_item "provider" s) model (path +:+ ".s2s"))
  | _ => []
  end.
Definition audit_task (index : dict (string * string) (list row)) (position : nat) (task : val) : list string :=
  let path := "tasks[" +:+ index_text position +:+ "]" in
  match task with
  | VDict t =>
      match default (VDict []) (dget TOOLS_CONFIG_KEY t) with
      | VDict tools =>
          if bool_decide (resolve_pipeline_for_task t = "chat") then audit_chat_task index tools path
          else audit_transcriber index tools path ++
               match get_item "synthesizer" tools with VDict s => audit_synthesizer index s path | _ => [] end ++
               match get_item LLM_AGENT_KEY tools with
               | VNone => []
               | llm_agent => audit_llm_leaves index llm_agent (path +:+ ".llm_agent")
               end ++ audit_s2s index tools path
      | _ => [path +:+ ": tools_config must be a mapping"]
      end
  | _ => [path +:+ ": must be a mapping"]
  end.
Definition audit_provider_config (data : row) (entries : list row) : list string :=
  let index := catalog_index entries in
  match default (VList []) (dget TASKS_KEY data) with
  | VList tasks => concat (imap (audit_task index) tasks)
  | _ => ["tasks must be a list"]
  end.
End audit.
End Audit.

(** ** Patches (static_methods.py) *)
Module Patch.
Section patch.
Context (repr : val -> string).

(** [_merge_dict]: what is present wins, [None] is a no-op at every level. *)
Fixpoint merge_value (value old : val) {struct value} : val :=
  match value, old with
  | VDict p, VDict base =>
      VDict ((fix go (p : list (string * val)) (merged : dict string val) : dict string val :=
                match p with
                | [] => merged
                | (k, v) :: p =>
                    go p (match v with
                          | VNone => merged
                          | _ => dset k (match dget k merged with Some old => merge_value v old | None => v end) merged
                          end)
                end) p base)
  | _, _ => value
  end.
Fixpoint merge_dict (base p : dict string val) : dict string val :=
  match p with
  | [] => base
  | (k, v) :: p =>
      merge_dict (match v with
                  | VNone => base
                  | _ => dset k (match dget k base with Some old => merge_value v old | None => v end) base
                  end) p
  end.

Definition task_path (i : Z) : string := "tasks[" +:+ str_of_Z i +:+ "]".

(** [_drop_extension_key] and [_apply_clear_extensions] *)
Definition drop_extension_key (i : Z) (name : val) (s : dict string val * list string) : dict string val * list string :=
  let missing := (s.1, s.2 ++ [task_path i +:+ "." +:+ CLEAR_EXTENSIONS_KEY +:+ ": unknown target " +:+ repr name]) in
  match get_item "task_config" s.1 with
  | VDict tc =>
      match get_item EXTENSIONS_KEY tc, name with
      | VDict ext, VStr n =>
          if dhas n ext
          then (dset "task_config" (VDict (dset EXTENSIONS_KEY (VDict (ddel n ext)) tc)) s.1, s.2)
          else missing
      | _, _ => missing
      end
  | _ => missing
  end.
Definition apply_clear_extensions (i : Z) (operation : dict string val) (s : dict string val * list string) :
    dict string val * list string :=
  match dget CLEAR_EXTENSIONS_KEY operation with
  | None | Some VNone => s
  | Some (VList names) => foldl (fun s n => drop_extension_key i n s) s names
  | Some _ => (s.1, s.2 ++ [task_path i +:+ "." +:+ CLEAR_EXTENSIONS_KEY +:+ " must be a list"])
  end.

(** [isinstance(index, int)]: a [bool] is one. *)
Definition int_of (v : val) : option Z :=
  match v with VInt z => Some z | VBool b => Some (if b then 1 else 0) | _ => None end.
Definition patch_field (operation : dict string val) (updated : dict string val) (field : string) : dict string val :=
  match get_item field operation with
  | VNone => updated
  | value =>
      let merges := bool_decide (field ∈ ["tools_config"; "task_config"]) in
      dset field (match get_item field updated, value with
                  | VDict old, VDict p => if merges then VDict (merge_dict old p) else value
                  | _, _ => value
                  end) updated
  end.
Definition clear_pipeline (i : Z) (cleared : val) (s : dict string val * list string) : dict string val * list string :=
  if val_eqb cleared (VStr "pipeline") then (dset "pipeline" VNone s.1, s.2)
  else (s.1, s.2 ++ [task_path i +:+ ".clear: unknown target " +:+ repr cleared]).
Definition patch_task (i : Z) (operation task : dict string val) (problems : list string) :
    answer (dict string val * list string) :=
  let updated := foldl (patch_field operation) task ["task_type"; "pipeline"; "tools_config"; "toolchain"; "task_config"] in
  let? clears := iterate (get_item "clear" operation) in
  Ok (apply_clear_extensions i operation (foldl (fun s c => clear_pipeline i c s) (updated, problems) clears)).
Definition apply_operation (operation : val) (s : dict string val * list string) : answer (dict string val * list string) :=
  match operation with
  | VDict op =>
      let index := get_item "task_index" op in
      let out_of_range := Ok (s.1, s.2 ++ ["task_index " +:+ repr index +:+ " is out of range"]) in
      match int_of index, get_item TASKS_KEY s.1 with
      | Some i, VList tasks =>
          if (0 <=? i) && (i <? Z.of_nat (length tasks)) then
            match default VNone (tasks !! Z.to_nat i) with
            | VDict task =>
                let? r := patch_task i op task s.2 in
                Ok (dset TASKS_KEY (VList (<[Z.to_nat i := VDict r.1]> tasks)) s.1, r.2)
            | _ => Ok (s.1, s.2 ++ [task_path i +:+ ": must be a mapping"])
            end
          else out_of_range
      | _, _ => out_of_range
      end
  | _ => Ok (s.1, s.2 ++ ["`tasks_patch` entries must be mappings"])
  end.

(** [(merged, prompts, clear_prompts, problems)] *)
Definition replace_tasks (p : dict string val) (s : dict string val * list string) : dict string val * list string :=
  match dget TASKS_KEY p with
  | None => s
  | Some (VList []) => (s.1, s.2 ++ ["`tasks` must not be empty"])
  | Some (VList tasks) => (dset TASKS_KEY (VList tasks) s.1, s.2)
  | Some _ => (s.1, s.2 ++ ["`tasks` must be a list"])
  end.
Definition replace_scalars (p stored : dict string val) : dict string val :=
  foldl (fun m key => match get_item key p with VNone => m | v => dset key v m end) stored
    ["agent_name"; "agent_type"; "agent_welcome_message"; "channels"].
Definition clear_prompt (cleared : val) (s : bool * list string) : bool * list string :=
  if val_eqb cleared (VStr "agent_prompts") then (true, s.2)
  else (s.1, s.2 ++ ["clear: unknown target " +:+ repr cleared]).
Definition apply_agent_patch (stored p : dict string val) : answer (dict string val * val * bool * list string) :=
  if dhas TASKS_KEY p && dhas "tasks_patch" p then Ok (stored, VNone, false, ["supply `tasks` or `tasks_patch`, not both"])
  else
    let s := replace_tasks p (replace_scalars p stored, []) in
    let? operations := iterate (get_item "tasks_patch" p) in
    let? s := AgentToolsMixin.each apply_operation operations s in
    let? clears := iterate (get_item "clear" p) in
    let c := foldl (fun c v => clear_prompt v c) (false, s.2) clears in
    Ok (s.1, get_item "agent_prompts" p, c.1, c.2).
End patch.
End Patch.

(** ** The service (service.py) *)
Module AgentService.
Import AgentToolsMixin.
Section service.
Context (V : Scoped.view) (is_url_safe : string -> bool) (repr : val -> string) (is_language_valid : string -> bool).
(** The catalog's rows ([None]: unwired), the schema, the completion, whether its model is set. *)
Context (catalog : option (list (dict string val))) (validate : dict string val -> result (list string) (dict string val))
        (generate : val -> answer string) (model_configured : bool).
#[local] Instance prompt_store : Repository AgentPrompts (docs AgentPrompts) := InMemory.repository.

(** [v[k]] *)
Definition subscript (k : string) (v : val) : answer val :=
  match v with
  | VDict d => match dget k d with Some x => Ok x | None => Err (Raised PyKeyError) end
  | _ => Err (Raised PyTypeError)
  end.

Definition channel_problems (channels : val) : list string :=
  match channels with
  | VList l => List.filter (fun c => negb (bool_decide (c ∈ WRITABLE_CHANNELS))) (map (Audit.text_of repr) l)
  | _ => []
  end.
Definition ensure_writable_channels (channels : val) : answer unit :=
  match channel_problems channels with
  | [] => Ok tt
  | rejected => Err (AgentConfigInvalidError ["Channels not servable yet: " +:+ PyText.join ", " rejected])
  end.
Definition refuse_any (problems : list string) : answer unit :=
  match problems with [] => Ok tt | _ => Err (AgentConfigInvalidError problems) end.

(** [_validate_providers]: the record with its references resolved. *)
Definition validate_providers (data : dict string val) (h : hub) : answer (dict string val) :=
  let? gated := gate_embedded_endpoints is_url_safe data in
  let? r := resolve_tool_refs V is_url_safe repr h data in
  let ref_problems := gated ++ r.2 in
  match catalog with
  | None | Some [] => let? _ := refuse_any ref_problems in Ok r.1
  | Some entries =>
      let? _ := refuse_any (ref_problems ++ Audit.audit_provider_config repr is_language_valid r.1 entries) in
      let? _ := ensure_writable_channels (default (VList []) (dget "channels" r.1)) in Ok r.1
  end.

(** [_generate_extraction_batch], and the texts put back into their tasks. *)
Fixpoint generate_batch (jobs : list (nat * val)) : answer (list (nat * string)) :=
  match jobs with
  | [] => Ok []
  | (i, details) :: jobs => let? t := generate details in let? rest := generate_batch jobs in Ok ((i, t) :: rest)
  end.
Definition put_extraction (data : dict string val) (it : nat * string) : answer (dict string val) :=
  let? tasks := subscript TASKS_KEY (VDict data) in
  match tasks with
  | VList l =>
      match l !! it.1 with
      | Some (VDict task) =>
          let? tc := subscript TOOLS_CONFIG_KEY (VDict task) in
          let? agent := subscript LLM_AGENT_KEY tc in
          match tc, agent with
          | VDict tc, VDict agent =>
              let agent := VDict (dset EXTRACTION_JSON_KEY (VStr it.2) agent) in
              let task := VDict (dset TOOLS_CONFIG_KEY (VDict (dset LLM_AGENT_KEY agent tc)) task) in
              Ok (dset TASKS_KEY (VList (<[it.1 := task]> l)) data)
          | _, _ => Err (Raised PyTypeError)
          end
      | Some _ => Err (Raised PyTypeError)
      | None => Err (Raised PyIndexError)
      end
  | _ => Err (Raised PyTypeError)
  end.
Definition put_extractions (data : dict string val) (texts : list (nat * string)) : answer (dict string val) :=
  each (fun it data => put_extraction data it) texts data.

(** The walks over the tasks: by subscript on create, with defaults and the guard on update. *)
Definition create_job (it : nat * val) (jobs : list (nat * val)) : answer (list (nat * val)) :=
  let? type := subscript TASK_TYPE_KEY it.2 in
  if val_eqb type (VStr TASK_TYPE_EXTRACTION) then
    let? tc := subscript TOOLS_CONFIG_KEY it.2 in
    let? agent := subscript LLM_AGENT_KEY tc in
    let? details := subscript EXTRACTION_DETAILS_KEY agent in Ok (jobs ++ [(it.1, details)])
  else Ok jobs.
Definition require_extraction_model : answer unit := if model_configured then Ok tt else Err MissingExtractionModel.
Definition update_job (it : nat * val) (jobs : list (nat * val)) : answer (list (nat * val)) :=
  match it.2 with
  | VDict task =>
      if val_eqb (get_item TASK_TYPE_KEY task) (VStr TASK_TYPE_EXTRACTION) then
        let? _ := require_extraction_model in
        let? tc := subscript TOOLS_CONFIG_KEY it.2 in
        let? agent := subscript LLM_AGENT_KEY tc in
        match agent with
        | VDict agent => Ok (jobs ++ [(it.1, default (VStr "") (dget EXTRACTION_DETAILS_KEY agent))])
        | _ => Err (Raised PyAttributeError)
        end
      else Ok jobs
  | _ => Err (Raised PyAttributeError)
  end.
Definition numbered (l : list val) : list (nat * val) := imap pair l.

(** [_extraction_details_of] and [_changed_extraction_jobs] *)
Definition extraction_details_of (task : val) : option string :=
  t ← as_dict task; tc ← as_dict (get_item TOOLS_CONFIG_KEY t); agent ← as_dict (get_item LLM_AGENT_KEY tc);
  match get_item EXTRACTION_DETAILS_KEY agent with VStr s => Some s | _ => None end.
Definition changed_job (old : list val) (it : nat * val) : option (nat * val) :=
  t ← as_dict it.2;
  if val_eqb (get_item TASK_TYPE_KEY t) (VStr TASK_TYPE_EXTRACTION) then
    details ← extraction_details_of it.2;
    let before := match old !! it.1 with Some (VDict d) => VDict d | _ => VDict [] end in
    if bool_decide (extraction_details_of before = Some details) then None else Some (it.1, VStr details)
  else None.
Definition changed_extraction_jobs (old new : dict string val) : list (nat * val) :=
  match default (VList []) (dget TASKS_KEY old), default (VList []) (dget TASKS_KEY new) with
  | VList o, VList n => omap (changed_job o) (numbered n)
  | _, _ => []
  end.

(** [MongoAgentPrompts] *)
Definition save_prompts (now : Z) (id : string) (p : option (dict string val)) : Hubs unit := fun h =>
  (set_prompts (Scoped.insert V "unused" (mkPrompts (base_default now (Some id)) id p) (prompts h)).1 h, Ok tt).
Definition delete_prompts (now : Z) (id : string) : Hubs bool := fun h =>
  let '(d, r) := Scoped.soft_delete V now None id (prompts h) in (set_prompts d h, of_db r).

Definition ensure_agent_exists (id : string) (o : option (dict string val)) : answer (dict string val) :=
  match o with Some c => Ok c | None => Err (AgentNotFoundError id) end.

(** The tasks a walk subscripts: of what is no list, only the empty ones pass. *)
Definition tasks_or (e : py_error) (v : val) : answer (list val) :=
  match v with
  | VList l => Ok l
  | VStr "" | VDict [] => Ok []
  | VStr _ | VDict _ => Err (Raised e)
  | _ => Err (Raised PyTypeError)
  end.

Definition create_agent (now : Z) (uuid : string) (data : dict string val) (p : option (dict string val)) : Hubs string :=
  data <- read (validate_providers (dset ASSISTANT_STATUS_KEY (VStr ASSISTANT_STATUS_SEEDING) data)) ;;
  data <- read (fun _ =>
    let? tasks := subscript TASKS_KEY (VDict data) in
    let? l := tasks_or PyTypeError tasks in
    let? jobs := each create_job (numbered l) [] in
    let? texts := generate_batch jobs in put_extractions data texts) ;;
  LiveLink.save_agent V now uuid data ;;;
  save_prompts now uuid p ;;;
  se_ret uuid.

Definition update_agent (now : Z) (id : string) (data : dict string val) (p : option (dict string val)) : Hubs string :=
  stored <- read (LiveLink.get_agent V id) ;;
  read (fun _ => ensure_agent_exists id stored) ;;;
  data <- read (validate_providers (dset ASSISTANT_STATUS_KEY (VStr ASSISTANT_STATUS_UPDATED) data)) ;;
  data <- read (fun _ =>
    let? l := tasks_or PyAttributeError (default (VList []) (dget TASKS_KEY data)) in
    let? jobs := each update_job (numbered l) [] in
    let? texts := generate_batch jobs in put_extractions data texts) ;;
  LiveLink.save_agent V now id data ;;;
  save_prompts now id p ;;;
  se_ret id.

Definition ensure_patchable (body : dict string val) : answer unit :=
  match body with
  | [] => Err (AgentConfigInvalidError ["Empty patch: nothing to apply."])
  | _ => if dhas TASKS_KEY body && dhas "tasks_patch" body
         then Err (AgentConfigInvalidError ["Supply `tasks` or `tasks_patch`, not both."]) else Ok tt
  end.
(** The merged record after validation: what the patch would store but for the extractions. *)
Definition merged_record (stored body : dict string val) (h : hub) : answer (dict string val * val * bool) :=
  let? m := Patch.apply_agent_patch repr stored body in
  let '(merged, p, clear, problems) := m in
  let? _ := refuse_any problems in
  match validate merged with
  | Err problems => Err (AgentConfigInvalidError problems)
  | Ok data =>
      let? data := validate_providers (dset ASSISTANT_STATUS_KEY (VStr ASSISTANT_STATUS_UPDATED) data) h in
      Ok (data, p, clear)
  end.
Definition patch_agent (now : Z) (id : string) (body : dict string val) : Hubs string :=
  read (fun _ => ensure_patchable body) ;;;
  o <- read (LiveLink.get_agent V id) ;;
  stored <- read (fun _ => ensure_agent_exists id o) ;;
  m <- read (merged_record stored body) ;;
  data <- read (fun _ =>
    match changed_extraction_jobs stored m.1.1 with
    | [] => Ok m.1.1
    | jobs => let? _ := require_extraction_model in
              let? texts := generate_batch jobs in put_extractions m.1.1 texts
    end) ;;
  LiveLink.save_agent V now id data ;;;
  (match m.1.2 with
   | VDict p => save_prompts now id (Some p)
   | _ => if m.2 then save_prompts now id None else se_ret tt
   end) ;;;
  se_ret id.

(** Prompts first. *)
Definition or_prompt_store_error {A} (c : Hubs A) : Hubs A := fun h =>
  match c h with (h, Err _) => (h, Err PromptStoreError) | out => out end.
Definition delete_agent (now : Z) (id : string) : Hubs string :=
  or_prompt_store_error (delete_prompts now id) ;;;
  deleted <- LiveLink.delete_agent V now id ;;
  (if deleted : bool then se_ret id else se_raise (AgentNotFoundError id)).

Definition get_agent (id : string) (h : hub) : answer (dict string val) :=
  let? o := LiveLink.get_agent V id h in
  let? stored := ensure_agent_exists id o in
  let? flags := livelink_flags V h stored in Ok (with_livelink_flags stored flags).
End service.
End AgentService.
