(* ===== verification/AgentRuns.v ===== *)
(** * What holds of the writes of agents and shared tools

    Proofs over AgentTools and AgentConfig: the endpoints of a stored record, its references,
    and what a cascade changes. *)
From S2P Require Import Prelude PyText PyVal Json Pagination Repository Scoped AgentTools AgentConfig.
Open Scope Z_scope.
Open Scope voice_scope.

Module AgentRuns.
Import AgentToolsMixin.

(** ** Answers and dictionaries *)
Lemma bind_ok_Ok {A B} (r : answer A) (k : A -> answer B) b : bind_ok r k = Ok b -> exists a, r = Ok a /\ k a = Ok b.
Proof. destruct r as [a|e]; [by exists a|done]. Qed.

(** Split the answers of the context at their binds. *)
Ltac answers_inv :=
  repeat match goal with
  | H : bind_ok _ _ = Ok _ |- _ =>
      let a := fresh "a" in let Ha := fresh "Hans" in apply bind_ok_Ok in H as (a & Ha & H)
  | H : Ok _ = Ok _ |- _ => injection H as; subst
  | H : Err _ = Ok _ |- _ => discriminate H
  end; cbn [fst snd] in *.

Lemma get_item_dset_eq k v d : get_item k (dset k v d) = v.
Proof. unfold get_item. by rewrite dget_dset_eq. Qed.
Lemma get_item_dset_ne k k' v d : k <> k' -> get_item k (dset k' v d) = get_item k d.
Proof. intros H. unfold get_item. by rewrite dget_dset_ne. Qed.
Lemma get_item_ddel_ne k k' (d : dict string val) : k <> k' -> get_item k (ddel k' d) = get_item k d.
Proof. intros H. unfold get_item. by rewrite dget_ddel_ne. Qed.

Lemma Forall_concat_nil {A} (ls : list (list A)) : concat ls = [] <-> forall l, l ∈ ls -> l = [].
Proof. rewrite <- (map_id ls) at 1. apply (concat_map_nil (fun l => l)). Qed.

Lemma two_keys (key a b : string) : key ∈ [a; b] -> key = a \/ key = b.
Proof. intros [->|H]%elem_of_cons; [by left|right]. by apply list_elem_of_singleton in H. Qed.

Lemma each_inv {A S} (P : S -> Prop) (f : A -> S -> answer S) l s s' :
  (forall x s s', x ∈ l -> f x s = Ok s' -> P s -> P s') -> each f l s = Ok s' -> P s -> P s'.
Proof.
  revert s. induction l as [|x l IH]; intros s Hf H Hs; cbn [each] in H; [by injection H as <-|].
  apply bind_ok_Ok in H as (s1 & H1 & H). eapply IH; [|done|]; [intros; eapply Hf; [by right|done..]|].
  eapply Hf; [by left|done..].
Qed.

Lemma dict_or_not v : (exists d, v = VDict d) \/ ~ exists d, v = VDict d.
Proof. destruct v; try (by right; intros [? ?]). left. by eexists. Qed.

(** ** The blocks of a record *)
Lemma api_tools_of_with api task api0 : api_tools_of task = Some api0 -> api_tools_of (with_api_tools api task) = Some api.
Proof.
  unfold api_tools_of, with_api_tools. destruct task as [| | | | | |t]; try done. simpl.
  destruct (get_item TOOLS_CONFIG_KEY t) as [| | | | | |tc] eqn:E; try done. simpl. intros _.
  rewrite get_item_dset_eq. simpl. by rewrite get_item_dset_eq.
Qed.

(** [data] and [data'] have the same blocks but for steps of [R]. *)
Definition blocks_step (R : dict string val -> dict string val -> Prop) (data data' : dict string val) : Prop :=
  exists bs bs', api_tools_blocks data = Ok bs /\ api_tools_blocks data' = Ok bs' /\ Forall2 R bs bs'.

Lemma over_tasks_blocks {N} (f : nat -> dict string val -> N -> answer (dict string val * N)) tasks : forall pos n tasks' n',
  over_tasks f pos tasks n = Ok (tasks', n') ->
  Forall2 (fun a a' => exists p n1 n2, f p a n1 = Ok (a', n2)) (omap api_tools_of tasks) (omap api_tools_of tasks').
Proof.
  induction tasks as [|t tasks IH]; intros pos n tasks' n' H; cbn [over_tasks] in H; [injection H as <- <-; constructor|].
  apply bind_ok_Ok in H as (step & Hstep & H). apply bind_ok_Ok in H as (rest & Hrest & H). injection H as <- <-.
  destruct rest as [ts n2]. apply IH in Hrest. cbn [fst omap list_omap] in *.
  destruct (api_tools_of t) as [api|] eqn:E.
  - apply bind_ok_Ok in Hstep as ([api' n1] & Hf & Hs). injection Hs as <-. cbn [fst].
    rewrite (api_tools_of_with api' t api) by done. constructor; [|done]. by exists pos, n, n1.
  - injection Hstep as <-. cbn [fst]. by rewrite E.
Qed.

Lemma tasks_blocks_none data : (forall l, get_item TASKS_KEY data <> VList l) ->
  forall ts, tasks_of data = Ok ts -> omap api_tools_of ts = [].
Proof.
  intros Hno ts. unfold tasks_of, iterate. destruct (get_item TASKS_KEY data) as [| | | |s|l|d]; try (simpl; by intros [= <-]);
    try (destruct (truthy _); [done|by intros [= <-]]).
  - intros [= <-]. clear Hno. induction (chars s) as [|c l IH]; [done|]. exact IH.
  - by destruct (Hno l).
  - intros [= <-]. clear Hno. induction d as [|kv d IH]; [done|]. exact IH.
Qed.

Lemma over_data_cases {N} (f : nat -> dict string val -> N -> answer (dict string val * N)) data n data' n' :
  over_data f data n = Ok (data', n') ->
  (exists tasks tasks', get_item TASKS_KEY data = VList tasks /\ over_tasks f 0 tasks n = Ok (tasks', n') /\
     data' = dset TASKS_KEY (VList tasks') data) \/
  (data' = data /\ n' = n /\ api_tools_blocks data = Ok []).
Proof.
  unfold over_data. intros (ts & Hts & H)%bind_ok_Ok.
  destruct (get_item TASKS_KEY data) as [| | | | |l|] eqn:E;
    try (injection H as <- <-; right; split; [done|]; split; [done|]; unfold api_tools_blocks; rewrite Hts; cbn [bind_ok];
         by rewrite (tasks_blocks_none data) by (done || (intros ?; congruence))).
  left. unfold tasks_of in Hts. rewrite E in Hts. injection Hts as <-.
  apply bind_ok_Ok in H as ([ts' n2] & H & Hr). injection Hr as <- <-. by exists l, ts'.
Qed.

Lemma blocks_of_list data tasks : get_item TASKS_KEY data = VList tasks -> api_tools_blocks data = Ok (omap api_tools_of tasks).
Proof. intros E. unfold api_tools_blocks, tasks_of. by rewrite E. Qed.
Lemma blocks_of_dset tasks data : api_tools_blocks (dset TASKS_KEY (VList tasks) data) = Ok (omap api_tools_of tasks).
Proof. apply blocks_of_list, get_item_dset_eq. Qed.

Lemma over_data_blocks {N} (f : nat -> dict string val -> N -> answer (dict string val * N)) data n data' n' :
  over_data f data n = Ok (data', n') ->
  blocks_step (fun a a' => exists p n1 n2, f p a n1 = Ok (a', n2)) data data'.
Proof.
  intros [(ts & ts' & E & H & ->)|(-> & -> & Hb)]%over_data_cases.
  - exists (omap api_tools_of ts), (omap api_tools_of ts'). rewrite blocks_of_dset. split; [by apply blocks_of_list|].
    split; [done|]. by eapply over_tasks_blocks.
  - exists [], []. by repeat constructor.
Qed.





(** ** One block *)
Section block.
Context (V : Scoped.view) (safe : string -> bool) (repr : val -> string).
Implicit Types (h : hub) (api entry params : dict string val) (row : ToolDefinition).

Notation attach h := (fun ref => ToolsService.by_ref (ToolsService.get_tool_for_attach V) ref h).

(** [add_function] and [materialize_tool_ref] touch two keys. *)
Lemma add_function_item row api api' k : add_function row api = Ok api' -> k <> "tools" -> get_item k api' = get_item k api.
Proof.
  intros H Hk. unfold add_function in H. cbv zeta in H.
  set (api1 := match get_item "tools" api with VNone => dset "tools" (VList []) api | _ => api end) in H.
  assert (get_item k api1 = get_item k api) as <-
    by (unfold api1; destruct (get_item "tools" api); by rewrite ?get_item_dset_ne).
  destruct (get_item "tools" api1); try by injection H as <-.
  apply bind_ok_Ok in H as (names & _ & H). destruct (val_in _ _); injection H as <-; by rewrite ?get_item_dset_ne.
Qed.

Definition bound (row : ToolDefinition) (u : string) : val := VDict [("url", VStr u); ("method", VStr (method row))].

Lemma materialize_cases api row path api' o : materialize_tool_ref safe repr api row path = Ok (api', o) ->
  (forall k, k <> "tools" -> k <> "tools_params" -> get_item k api' = get_item k api) /\
  (get_item "tools_params" api' = get_item "tools_params" api \/
   exists params u, get_item "tools_params" api = VDict params /\ url row = Some u /\ safe u = true /\
     dhas (name row) params = false /\ get_item "tools_params" api' = VDict (dset (name row) (bound row u) params)).
Proof.
  unfold materialize_tool_ref. intros (api1 & H1 & H)%bind_ok_Ok.
  assert (forall k, k <> "tools" -> get_item k api1 = get_item k api) as Hk by (intros; by eapply add_function_item).
  assert (get_item "tools_params" api1 = get_item "tools_params" api) as Hp by (by apply Hk).
  destruct (get_item "tools_params" api1) as [| | | | | |params] eqn:E;
    try (injection H as <- _; split; [by auto|left; congruence]).
  destruct (dhas (name row) params) eqn:Eh; [injection H as <- _; split; [by auto|left; congruence]|].
  destruct (url row) as [u|] eqn:Eu; [|injection H as <- _; split; [by auto|left; congruence]].
  destruct (safe u) eqn:Es; injection H as <- _; [|split; [by auto|left; congruence]].
  split; [intros k ? ?; rewrite get_item_dset_ne by done; by apply Hk|]. right.
  exists params, u. rewrite <- Hp. by rewrite get_item_dset_eq.
Qed.

(** *** Endpoints *)
Definition entry_cleared (entry : dict string val) : Prop :=
  forall key u, key ∈ [URL_KEY; PRE_CALL_WEBHOOK_URL_KEY] -> get_item key entry = VStr u -> u <> "" -> safe u = true.
Definition block_cleared (api : dict string val) : Prop :=
  forall params n entry, get_item "tools_params" api = VDict params -> (n, VDict entry) ∈ params -> entry_cleared entry.
Definition cleared (data : dict string val) : Prop :=
  forall bs, api_tools_blocks data = Ok bs -> Forall block_cleared bs.

Lemma materialize_cleared api row path api' o :
  materialize_tool_ref safe repr api row path = Ok (api', o) -> block_cleared api -> block_cleared api'.
Proof.
  intros [_ [E|(params & u & Ep & Eu & Hs & _ & E)]]%materialize_cases Hc ps n entry; rewrite E; [by apply Hc|].
  intros [= <-] [[= -> ->]|Hin]%dset_elem; [|by eapply Hc]. intros key u' Hk.
  apply two_keys in Hk as [-> | ->]; [by intros [= <-]|done].
Qed.

Lemma resolve_ref_cleared h path ref s s' :
  resolve_ref V safe repr h path ref s = Ok s' -> block_cleared s.1 -> block_cleared s'.1.
Proof.
  unfold resolve_ref. intros H Hc. destruct (ToolsService.by_ref _ _ _) as [row|e].
  - apply bind_ok_Ok in H as ([api' o] & Hm & H). injection H as <-. by eapply materialize_cleared.
  - destruct e; by simplify_eq/=.
Qed.

Lemma stamp_hook_param_item row entry k : k <> "pre_call_webhook_param" -> get_item k (stamp_hook_param row entry) = get_item k entry.
Proof. intros Hk. unfold stamp_hook_param. destruct (get_item "pre_call_webhook_param" entry); by rewrite ?get_item_dset_ne. Qed.

(** What a resolved hook entry is. *)
Lemma resolve_webhook_cases h entry path entry' ps : resolve_webhook_ref V safe repr h entry path = Ok (entry', ps) ->
  (entry' = entry /\ (ps = [] -> truthy (get_item PRE_CALL_WEBHOOK_REF_KEY entry) = false)) \/
  (ps = [] /\ exists row, attach h (get_item PRE_CALL_WEBHOOK_REF_KEY entry) = Ok row /\
    ((get_item PRE_CALL_WEBHOOK_URL_KEY entry <> VNone /\ entry' = stamp_hook_param row entry) \/
     (exists u, get_item PRE_CALL_WEBHOOK_URL_KEY entry = VNone /\ safe u = true /\
        entry' = stamp_hook_param row (dset PRE_CALL_WEBHOOK_URL_KEY (VStr u) entry)))).
Proof.
  unfold resolve_webhook_ref. destruct (truthy _) eqn:Et; cbn [negb]; [|intros [= <- <-]; by left].
  destruct (ToolsService.by_ref _ _ _) as [row|e] eqn:Er; [|by destruct e; intros [= <- <-]; left].
  destruct (get_item PRE_CALL_WEBHOOK_URL_KEY entry) eqn:Eu;
    try (intros [= <- <-]; right; split; [done|]; exists row; split; [done|]; left; by split).
  destruct (url row) as [u|]; [|by intros [= <- <-]; left].
  destruct (safe u) eqn:Es; [|by intros [= <- <-]; left].
  intros [= <- <-]. right. split; [done|]. exists row. split; [done|]. right. by exists u.
Qed.

Lemma resolve_webhook_cleared h entry path entry' ps :
  resolve_webhook_ref V safe repr h entry path = Ok (entry', ps) -> entry_cleared entry -> entry_cleared entry'.
Proof.
  intros [[-> _]|(_ & row & _ & [[_ ->]|(u & _ & Hs & ->)])]%resolve_webhook_cases Hc; [done| |];
    intros key u' Hk; apply two_keys in Hk as [-> | ->]; rewrite stamp_hook_param_item by done;
    try (apply Hc; set_solver).
  - rewrite get_item_dset_ne by done. apply Hc. set_solver.
  - rewrite get_item_dset_eq. by intros [= <-].
Qed.

(** The parameters after their hooks were resolved: the same names, each entry resolved. *)
Lemma resolve_hooks_elem h path params : forall problems params' problems',
  resolve_hooks V safe repr h path params problems = Ok (params', problems') ->
  map fst params' = map fst params /\
  (forall n entry', (n, VDict entry') ∈ params' ->
     exists entry p ps, (n, VDict entry) ∈ params /\ resolve_webhook_ref V safe repr h entry p = Ok (entry', ps) /\
       (problems' = [] -> ps = [])) /\
  exists ps, problems' = problems ++ ps.
Proof.
  induction params as [|[n v] params IH]; intros problems params' problems' H; cbn [resolve_hooks] in H.
  { injection H as <- <-. split_and!; [done|by intros ? ? ?%not_elem_of_nil|]. exists []. by rewrite app_nil_r. }
  destruct (dict_or_not v) as [[entry ->]|Hno].
  - apply bind_ok_Ok in H as ([e1 ps1] & H1 & H). apply bind_ok_Ok in H as ([rest ps2] & H2 & H). injection H as <- <-.
    cbn [fst snd] in *. destruct (IH _ _ _ H2) as (Hn & Hel & ps & ->). split_and!.
    + cbn. by rewrite Hn.
    + intros m entry' [[= -> ->]|Hin]%elem_of_cons.
      * exists entry, (path +:+ ".tools_params." +:+ n), ps1. split; [by left|]. split; [done|].
        intros [[_ Hps]%app_nil _]%app_nil. by destruct ps1 as [|? ?]; [|cbn in Hps; destruct (contains _ _)].
      * destruct (Hel m entry' Hin) as (e & p & qs & ? & ? & ?). exists e, p, qs. split; [by right|done].
    + exists (suffixed V h ps1 ++ ps). by rewrite app_assoc.
  - assert (bind_ok (resolve_hooks V safe repr h path params problems) (fun rest => Ok ((n, v) :: rest.1, rest.2)) = Ok (params', problems')) as H'
      by (destruct v; try done; by destruct Hno; eexists).
    apply bind_ok_Ok in H' as ([rest ps2] & H2 & H'). injection H' as <- <-.
    destruct (IH _ _ _ H2) as (Hn & Hel & ps & ->). cbn [fst snd]. split_and!; [cbn; by rewrite Hn| |by exists ps].
    intros m entry' [[= -> <-]|Hin]%elem_of_cons; [by destruct Hno; eexists|].
    destruct (Hel m entry' Hin) as (e & p & qs & ? & ? & ?). exists e, p, qs. split; [by right|done].
Qed.

Lemma resolve_block_cleared h pos api n api' n' :
  resolve_block V safe repr h pos api n = Ok (api', n') -> block_cleared api -> block_cleared api'.
Proof.
  unfold resolve_block. intros (refs & _ & H)%bind_ok_Ok Hc. apply bind_ok_Ok in H as (s & Hs & H).
  assert (block_cleared s.1) as Hc1.
  { apply (each_inv (fun s => block_cleared s.1) _ _ _ _) in Hs; [done| |done]. intros ? ? ? _. apply resolve_ref_cleared. }
  destruct (get_item "tools_params" s.1) as [| | | | | |params] eqn:E; try (injection H as ->; done).
  apply bind_ok_Ok in H as ([params' ps] & Hh & H). injection H as <- <-. cbn [fst].
  apply resolve_hooks_elem in Hh as (_ & Hel & _). intros q m entry'. rewrite get_item_dset_eq. intros [= <-] Hin.
  destruct (Hel m entry' Hin) as (e & p & qs & Hin' & Hr & _). eapply resolve_webhook_cleared; [done|]. by eapply Hc1.
Qed.

Lemma stamp_block_item h api api' k : stamp_block V h api = Ok api' -> k <> TOOL_SOURCE_VERSIONS_KEY -> get_item k api' = get_item k api.
Proof.
  unfold stamp_block. intros (refs & _ & H)%bind_ok_Ok Hk. apply bind_ok_Ok in H as (stamps & _ & H).
  destruct stamps; injection H as <-; by rewrite ?get_item_ddel_ne, ?get_item_dset_ne.
Qed.

(** A step of the blocks carries a property of blocks. *)
Lemma blocks_step_Forall (R : dict string val -> dict string val -> Prop) (P Q : dict string val -> Prop) data data' :
  blocks_step R data data' -> (forall a a', R a a' -> P a -> Q a') ->
  (forall bs, api_tools_blocks data = Ok bs -> Forall P bs) -> forall bs', api_tools_blocks data' = Ok bs' -> Forall Q bs'.
Proof.
  intros (bs & bs1 & Hb & Hb' & HF) HR HP bs' E. rewrite Hb' in E. injection E as <-. specialize (HP bs Hb).
  clear Hb Hb'. induction HF as [|a a' l l' Ha HF IH]; [constructor|]. apply Forall_cons in HP as [? ?].
  constructor; [by eapply HR|by apply IH].
Qed.

Lemma resolve_cleared h data data' ps : resolve_tool_refs V safe repr h data = Ok (data', ps) -> cleared data -> cleared data'.
Proof.
  unfold resolve_tool_refs. intros ([d1 n1] & H1 & H)%bind_ok_Ok Hc. apply bind_ok_Ok in H as (d2 & H2 & H). injection H as <- _.
  unfold stamp_tool_source_versions in H2. apply bind_ok_Ok in H2 as ([d3 []] & H3 & H2). injection H2 as <-. cbn [fst] in *.
  apply over_data_blocks in H1, H3. intros bs Hbs.
  eapply (blocks_step_Forall _ block_cleared block_cleared); [exact H3| | |exact Hbs].
  - intros a a' (p & [] & [] & (a1 & Ha1 & Ha)%bind_ok_Ok) Hb params n entry. injection Ha as <-.
    rewrite (stamp_block_item h a a1) by done. by apply Hb.
  - eapply blocks_step_Forall; [exact H1| |exact Hc]. intros a a' (p & n & n2 & Hr). by eapply resolve_block_cleared.
Qed.

Lemma gate_url_nil path key entry : gate_url safe path key entry = [] ->
  forall u, get_item key entry = VStr u -> u <> "" -> safe u = true.
Proof.
  unfold gate_url. intros H u E Hu. rewrite E in H. destruct (safe u); [done|]. by destruct u.
Qed.
Lemma gate_cleared data : gate_embedded_endpoints safe data = Ok [] -> cleared data.
Proof.
  unfold gate_embedded_endpoints, cleared, api_tools_blocks. destruct (tasks_of data) as [ts|e]; [|done]. cbn [bind_ok].
  intros [= H] bs [= <-]. rewrite Forall_forall. intros api (t & Ht & Ha)%list_elem_of_omap params n entry Ep Hin.
  apply list_elem_of_lookup in Ht as [i Hi].
  assert (gate_task safe i t = []) as Hg.
  { apply (proj1 (Forall_concat_nil _) H). apply list_elem_of_lookup. exists i. by rewrite list_lookup_imap, Hi. }
  unfold gate_task in Hg. rewrite Ha, Ep in Hg.
  apply (concat_map_nil (gate_entry safe i) params) with (x := (n, VDict entry)) in Hg; [|done].
  cbn in Hg. apply app_nil in Hg as [G1 G2]. intros key u Hk.
  apply two_keys in Hk as [-> | ->]; by eapply gate_url_nil.
Qed.








(** A hub that still offers what [h] offers, under the same names: the tools that attach
    still do (none is retired), and none that has no endpoint gets one. *)
Definition still_offers (h h' : hub) : Prop :=
  forall ref row, attach h ref = Ok row ->
    exists row', attach h' ref = Ok row' /\ name row' = name row /\ (url row = None -> url row' = None).
Lemma still_offers_refl h : still_offers h h.
Proof. intros ref row H. by exists row. Qed.










End block.






Section record.
Context (V : Scoped.view) (safe : string -> bool) (repr : val -> string).
Implicit Types (h : hub) (data : dict string val).





End record.

(** ** The endpoints of every stored record *)
Section stored.
Context (safe : string -> bool) (repr : val -> string) (is_language_valid : string -> bool).
Context (catalog : option (list (dict string val))) (validate : dict string val -> result (list string) (dict string val))
        (generate : val -> answer string) (model_configured : bool).
#[local] Existing Instance InMemory.repository.

Definition records_cleared (h : hub) : Prop :=
  forall k a, (k, InMemory.Row a) ∈ agents h -> cleared safe (config a).

(** What the tenants ask of the two services. *)
Inductive request : Type :=
| CreateAgent (now : Z) (uuid : string) (data : dict string val) (p : option (dict string val))
| UpdateAgent (now : Z) (id : string) (data : dict string val) (p : option (dict string val))
| PatchAgent (now : Z) (id : string) (body : dict string val)
| DeleteAgent (now : Z) (id : string)
| CreateTool (t : ToolDefinition)
| UpdateTool (now : Z) (id : string) (t : ToolDefinition)
| DeleteTool (now : Z) (id : string).
Definition serve (V : Scoped.view) (r : request) : hub -> hub :=
  match r with
  | CreateAgent now uuid data p => fun h =>
      (AgentService.create_agent V safe repr is_language_valid catalog generate now uuid data p h).1
  | UpdateAgent now id data p => fun h =>
      (AgentService.update_agent V safe repr is_language_valid catalog generate model_configured now id data p h).1
  | PatchAgent now id body => fun h =>
      (AgentService.patch_agent V safe repr is_language_valid catalog validate generate model_configured now id body h).1
  | DeleteAgent now id => fun h => (AgentService.delete_agent V now id h).1
  | CreateTool t => fun h => (ToolsService.create_tool V t h).1
  | UpdateTool now id t => fun h => (LiveLink.update_tool V safe repr now id t h).1
  | DeleteTool now id => fun h => (LiveLink.delete_tool V now id h).1
  end.
Definition serve_all (history : list (Scoped.view * request)) (h : hub) : hub :=
  foldl (fun h vr => serve vr.1 vr.2 h) h history.

(** *** Computations over the hub *)
Lemma preserves_read {A} (f : hub -> answer A) : preserves records_cleared (read f).
Proof. by intros h. Qed.
Lemma preserves_read_bind {A B} (f : hub -> answer A) (k : A -> Hubs B) :
  (forall h a, records_cleared h -> f h = Ok a -> preserves records_cleared (k a)) -> preserves records_cleared (se_bind (read f) k).
Proof. intros Hk h Hh. unfold se_bind, read. destruct (f h) as [a|e] eqn:E; [by eapply Hk|done]. Qed.

Lemma save_agent_preserves V now id c : cleared safe c -> preserves records_cleared (LiveLink.save_agent V now id c).
Proof.
  intros Hc h Hh k a. unfold LiveLink.save_agent. cbn [fst agents set_agents]. unfold Scoped.insert, InMemory.repository, rp_insert.
  unfold InMemory.insert. cbn [fst]. intros [E|Hin]%dset_elem; [|by eapply Hh]. injection E as _ ->.
  by case_match.
Qed.
Lemma deactivate_preserves V now id h : records_cleared h ->
  records_cleared (set_agents (Scoped.soft_delete V now None id (agents h)).1 h).
Proof.
  intros Hh k a. cbn [agents set_agents]. unfold Scoped.soft_delete. destruct (Scoped.require_same_tenant _ _ _); [|by apply Hh].
  unfold InMemory.repository, rp_soft_delete, InMemory.soft_delete.
  destruct (dget id (agents h)) as [[m|b]|] eqn:E; try by apply Hh. destruct (negb _); [by apply Hh|]. cbn [fst].
  intros [E'|Hin]%dset_elem; [|by eapply Hh]. injection E' as _ ->. cbn. apply (Hh id m). by apply dget_Some_elem.
Qed.
Lemma delete_agent_preserves V now id : preserves records_cleared (LiveLink.delete_agent V now id).
Proof.
  intros h Hh. unfold LiveLink.delete_agent. pose proof (deactivate_preserves V now id h Hh) as H.
  by destruct (Scoped.soft_delete V now None id (agents h)).
Qed.
Lemma agents_only {A} (c : Hubs A) : (forall h, agents (c h).1 = agents h) -> preserves records_cleared c.
Proof. intros E h Hh k a. rewrite E. by apply Hh. Qed.

(** *** The validation *)
Lemma refuse_any_Ok ps u : AgentService.refuse_any ps = Ok u -> ps = [].
Proof. by destruct ps. Qed.
Lemma validate_providers_cleared V data h data' :
  AgentService.validate_providers V safe repr is_language_valid catalog data h = Ok data' -> cleared safe data'.
Proof.
  unfold AgentService.validate_providers. intros (gated & Hg & H)%bind_ok_Ok. apply bind_ok_Ok in H as ([d ps] & Hr & H).
  cbn [fst snd] in H. assert (gated ++ ps = [] /\ data' = d) as [[-> ->]%app_nil ->].
  { destruct catalog as [[|e entries]|]; apply bind_ok_Ok in H as (u & Hu%refuse_any_Ok & H); try by injection H as ->.
    apply bind_ok_Ok in H as (u' & _ & H). injection H as ->. by apply app_nil in Hu as [Hu _]. }
  eapply resolve_cleared; [exact Hr|]. by apply gate_cleared.
Qed.

Lemma api_tools_put_extraction agent tc task t s : task = VDict t -> get_item TOOLS_CONFIG_KEY t = VDict tc ->
  api_tools_of (VDict (dset TOOLS_CONFIG_KEY (VDict (dset LLM_AGENT_KEY (VDict (dset EXTRACTION_JSON_KEY s agent)) tc)) t)) =
  api_tools_of task.
Proof.
  intros -> E. unfold api_tools_of. simpl. rewrite E, get_item_dset_eq. simpl. by rewrite get_item_dset_ne.
Qed.
Lemma subscript_item k d v : AgentService.subscript k (VDict d) = Ok v -> get_item k d = v.
Proof. unfold AgentService.subscript, get_item. destruct (dget k d); [|done]. by intros [= ->]. Qed.
Lemma put_extraction_cleared data it data' :
  AgentService.put_extraction data it = Ok data' -> cleared safe data -> cleared safe data'.
Proof.
  unfold AgentService.put_extraction. intros (tasks & Ht%subscript_item & H)%bind_ok_Ok Hc.
  destruct tasks as [| | | | |l|]; try done. destruct (l !! it.1) as [task|] eqn:El; [|done].
  destruct task as [| | | | | |t]; try done. apply bind_ok_Ok in H as (tc & Htc%subscript_item & H).
  apply bind_ok_Ok in H as (agent & _ & H). destruct tc as [| | | | | |tc]; try done. destruct agent as [| | | | | |agent]; try done.
  injection H as <-. intros bs. rewrite blocks_of_dset. intros [= <-]. apply Hc. rewrite (blocks_of_list data l) by done. f_equal.
  rewrite <- (list_insert_id l it.1 (VDict t)) at 1 by done.
  apply lookup_lt_Some in El as Hlt. rewrite !insert_take_drop by done. rewrite !omap_app. f_equal. cbn [omap list_omap].
  by rewrite (api_tools_put_extraction agent tc (VDict t) t (VStr it.2)).
Qed.
Lemma put_extractions_cleared data texts data' :
  AgentService.put_extractions data texts = Ok data' -> cleared safe data -> cleared safe data'.
Proof.
  intros H Hc. unfold AgentService.put_extractions in H. eapply (each_inv (cleared safe)); [|exact H|done].
  intros ? ? ? _. apply put_extraction_cleared.
Qed.

(** *** The cascade *)
Lemma walk_elem {A} (lw : PaginationParams -> Page A) (P : A -> Prop) :
  (forall p x, x ∈ pg_items (lw p) -> P x) -> forall fuel n l, walk_from lw fuel n = Some l -> forall x, x ∈ l -> P x.
Proof.
  intros Hp fuel. induction fuel as [|fuel IH]; intros n l; [done|]. cbn [walk_from].
  destruct (_ || _); [intros [= <-]; apply Hp|]. destruct (walk_from lw fuel (n + 1)) as [r|] eqn:E; [|done].
  intros [= <-] x [Hx|Hx]%elem_of_app; [by eapply Hp|by eapply IH].
Qed.
Lemma active_models_stored (d : docs AgentDefinition) a : a ∈ InMemory.active_models d -> exists k, (k, InMemory.Row a) ∈ d.
Proof.
  unfold InMemory.active_models, dvalues. intros (r & Hr & Ha)%list_elem_of_omap.
  apply list_elem_of_fmap in Hr as ([k r'] & -> & Hin). destruct r' as [m|]; [|done]. cbn in Ha.
  destruct (m_active m); [|done]. injection Ha as ->. by exists k.
Qed.
Lemma list_agents_stored V h id c : (id, c) ∈ LiveLink.list_agents V h ->
  exists k a, (k, InMemory.Row a) ∈ agents h /\ config a = c.
Proof.
  unfold LiveLink.list_agents. intros (a & Ea & [Ha _]%elem_of_lfilter)%list_elem_of_fmap. injection Ea as -> ->.
  enough (exists k, (k, InMemory.Row a) ∈ agents h) as [k Hk] by (by exists k, a).
  destruct (walk_pages _ _ _) as [l|] eqn:E; [|by apply not_elem_of_nil in Ha]. cbn [default from_option id] in Ha.
  refine (walk_elem _ (fun a => exists k, (k, InMemory.Row a) ∈ agents h) _ _ _ _ E a Ha). clear.
  intros p a. unfold Scoped.repository, rp_list_where, Scoped.list_where. destruct (negb _); [by intros Hx%not_elem_of_nil|].
  cbn [paginate pg_items]. intros [Hx _]%elem_of_lfilter. unfold InMemory.repository, rp_list_where, InMemory.list_where in Hx.
  cbn [paginate pg_items] in Hx. eapply elem_of_sublist, elem_of_lfilter in Hx as [Hx _]; [|apply slice_sublist]. by apply active_models_stored.
Qed.

Lemma rematerialize_each_preserves V now lim l : (forall id c, (id, c) ∈ l -> cleared safe c) -> forall n,
  preserves records_cleared (LiveLink.rematerialize_each V safe repr now lim n l).
Proof.
  induction l as [|[id c] l IH]; intros Hl n h Hh; cbn [LiveLink.rematerialize_each]; [done|].
  assert (forall n, preserves records_cleared (LiveLink.rematerialize_each V safe repr now lim n l)) as Hrest
    by (apply IH; intros; eapply Hl; by right).
  destruct (lim <=? n); [done|].
  destruct (rematerialize_agent_tools V safe repr h c) as [[c' [|p ps]]|e] eqn:E; try by apply Hrest.
  revert h Hh E. intros h Hh E. apply (preserves_bind records_cleared); [|intros _; apply Hrest|done].
  apply save_agent_preserves. eapply resolve_cleared; [exact E|]. eapply Hl. by left.
Qed.
Lemma referencing_elem id records : forall l, LiveLink.referencing id records = Ok l -> forall x, x ∈ l -> x ∈ records.
Proof.
  induction records as [|[a c] records IH]; intros l H x Hx; cbn [LiveLink.referencing] in H;
    [injection H as <-; by apply not_elem_of_nil in Hx|].
  apply bind_ok_Ok in H as (refs & _ & H). apply bind_ok_Ok in H as (rest & Hr & H). injection H as <-.
  destruct (_ && _); [apply elem_of_cons in Hx as [->|Hx]; [by left|]|]; right; by eapply IH.
Qed.
Lemma rematerialize_preserves V now id lim : preserves records_cleared (LiveLink.rematerialize_tool V safe repr now id lim).
Proof.
  apply preserves_read_bind. intros h l Hh Hl. apply rematerialize_each_preserves. intros a c Hin.
  eapply referencing_elem in Hin; [|exact Hl]. apply list_agents_stored in Hin as (k & r & Hr & <-). by eapply Hh.
Qed.

(** *** Every request *)
Lemma save_tool_agents W t h : agents (ToolsService.save_tool W t h).1 = agents h.
Proof. unfold ToolsService.save_tool. by destruct (Scoped.insert _ _ _ _). Qed.
Lemma save_prompts_agents V now id p h : agents (AgentService.save_prompts V now id p h).1 = agents h.
Proof. done. Qed.
Lemma delete_prompts_agents V now id h : agents (AgentService.or_prompt_store_error (AgentService.delete_prompts V now id) h).1 = agents h.
Proof.
  unfold AgentService.or_prompt_store_error, AgentService.delete_prompts.
  destruct (Scoped.soft_delete V now None id (prompts h)) as [d r]. by destruct (of_db r).
Qed.
Lemma delete_row_agents V now id h : agents (LiveLink.delete_row V now id h).1 = agents h.
Proof. unfold LiveLink.delete_row. by destruct (Scoped.soft_delete V now None id (tools h)). Qed.

(** A computation after reads, and the writes that end it. *)
Ltac writes :=
  repeat first
    [ apply preserves_read | apply preserves_ret | apply preserves_raise
    | apply save_agent_preserves | apply delete_agent_preserves | apply rematerialize_preserves
    | apply agents_only; intros; first [apply save_tool_agents | apply save_prompts_agents | apply delete_prompts_agents | apply delete_row_agents]
    | apply preserves_bind; [|intros]
    | case_match ].

Lemma create_agent_preserves V now uuid data p : preserves records_cleared
  (AgentService.create_agent V safe repr is_language_valid catalog generate now uuid data p).
Proof.
  apply preserves_read_bind. intros h d _ Hd%validate_providers_cleared.
  apply preserves_read_bind. intros h' d' _ Hp. assert (cleared safe d') as Hd'.
  { do 4 apply bind_ok_Ok in Hp as (? & _ & Hp). by eapply put_extractions_cleared. }
  writes; done.
Qed.
Lemma update_agent_preserves V now id data p : preserves records_cleared
  (AgentService.update_agent V safe repr is_language_valid catalog generate model_configured now id data p).
Proof.
  apply preserves_bind; [apply preserves_read|intros stored]. apply preserves_bind; [apply preserves_read|intros _].
  apply preserves_read_bind. intros h d _ Hd%validate_providers_cleared.
  apply preserves_read_bind. intros h' d' _ Hp. assert (cleared safe d') as Hd'.
  { do 3 apply bind_ok_Ok in Hp as (? & _ & Hp). by eapply put_extractions_cleared. }
  writes; done.
Qed.
Lemma merged_record_cleared V stored body h m :
  AgentService.merged_record V safe repr is_language_valid catalog validate stored body h = Ok m -> cleared safe m.1.1.
Proof.
  unfold AgentService.merged_record. intros ([[[merged p] cl] ps] & _ & H)%bind_ok_Ok. apply bind_ok_Ok in H as (u & _ & H).
  destruct (validate merged); [|done]. apply bind_ok_Ok in H as (d & Hd & H). injection H as <-. by eapply validate_providers_cleared.
Qed.
Lemma patch_agent_preserves V now id body : preserves records_cleared
  (AgentService.patch_agent V safe repr is_language_valid catalog validate generate model_configured now id body).
Proof.
  apply preserves_bind; [apply preserves_read|intros _]. apply preserves_bind; [apply preserves_read|intros o].
  apply preserves_bind; [apply preserves_read|intros stored].
  apply preserves_read_bind. intros h m _ Hm%merged_record_cleared.
  apply preserves_read_bind. intros h' d' _ Hp. assert (cleared safe d') as Hd'.
  { destruct (AgentService.changed_extraction_jobs _ _); [by injection Hp as <-|].
    do 2 apply bind_ok_Ok in Hp as (? & _ & Hp). by eapply put_extractions_cleared. }
  writes; done.
Qed.
Lemma update_tool_preserves V now id t : preserves records_cleared (LiveLink.update_tool V safe repr now id t).
Proof. unfold LiveLink.update_tool. writes. Qed.
Lemma delete_tool_preserves V now id : preserves records_cleared (LiveLink.delete_tool V now id).
Proof. unfold LiveLink.delete_tool. writes. Qed.
Lemma delete_request_preserves V now id : preserves records_cleared (AgentService.delete_agent V now id).
Proof. unfold AgentService.delete_agent. writes. Qed.
Lemma create_tool_preserves V t : preserves records_cleared (ToolsService.create_tool V t).
Proof. unfold ToolsService.create_tool. writes. Qed.

Lemma serve_preserves V r h : records_cleared h -> records_cleared (serve V r h).
Proof.
  destruct r; [apply create_agent_preserves|apply update_agent_preserves|apply patch_agent_preserves|apply delete_request_preserves
    |apply create_tool_preserves|apply update_tool_preserves|apply delete_tool_preserves].
Qed.

(** C4: Whatever the tenants ask of the two services, in whatever order, from a library of any
    tools: every endpoint and every pre-call webhook address in the tools of a stored agent
    passed the URL guard, those the agent's writer put there and those that came from a tool,
    at its creation, its updates and patches, and the cascades of tool edits. *)
Theorem stored_endpoints_cleared history seed :
  records_cleared (serve_all history (Hub seed [] [])).
Proof.
  unfold serve_all. assert (records_cleared (Hub seed [] [])) as H by (intros k a Ha; by apply not_elem_of_nil in Ha).
  revert H. generalize (Hub seed [] []) as h. induction history as [|[V r] history IH]; intros h Hh; [done|].
  apply IH. by apply serve_preserves.
Qed.
End stored.
(** ** Patches *)
Section merge.
Import Patch.

(** Every mapping under mappings has each key once. *)
Fixpoint nested_wf (v : val) : Prop :=
  match v with
  | VDict d => NoDup (map fst d) /\
      (fix go (d : list (string * val)) : Prop := match d with [] => True | kv :: d => nested_wf kv.2 /\ go d end) d
  | _ => True
  end.
Lemma nested_wf_dict d : nested_wf (VDict d) <-> dwf d /\ forall k v, (k, v) ∈ d -> nested_wf v.
Proof.
  cbn [nested_wf]. apply and_iff_compat_l. induction d as [|[k v] d IH].
  - split; [by intros _ ? ? ?%not_elem_of_nil|done].
  - rewrite IH. split; [intros [Hv Hd] k' v' [[= -> ->]|Hin]%elem_of_cons; [done|by eapply Hd]|].
    intros H. split; [apply (H k v); by left|]. intros k' v' Hin. apply (H k' v'). by right.
Qed.

Lemma merge_value_dict p base : merge_value (VDict p) (VDict base) = VDict (merge_dict base p).
Proof. cbn [merge_value]. f_equal. revert base. induction p as [|[k v] p IH]; intros base; [done|]. cbn [merge_dict]. apply IH. Qed.

(** A patch whose values are all there already, and merge into themselves, changes nothing. *)
Lemma merge_absorbed p : forall m,
  (forall k v, (k, v) ∈ p -> v <> VNone -> exists old, dget k m = Some old /\ merge_value v old = old) -> merge_dict m p = m.
Proof.
  induction p as [|[k v] p IH]; intros m H; cbn [merge_dict]; [done|].
  assert (match v with VNone => m | _ => dset k (match dget k m with Some old => merge_value v old | None => v end) m end = m) as ->.
  { assert (v = VNone \/ v <> VNone) as [->|Hv] by (destruct v; by (left + right)); [done|].
    destruct (H k v) as (old & E & Hm); [by left|done|]. rewrite E, Hm, dset_id by done. by destruct v. }
  apply IH. intros k' v' Hin. apply H. by right.
Qed.
Lemma merge_lookup p : dwf p -> forall base k, dget k (merge_dict base p) =
  match dget k p with
  | None | Some VNone => dget k base
  | Some v => Some (match dget k base with Some old => merge_value v old | None => v end)
  end.
Proof.
  induction p as [|[n v] p IH]; intros Hwf base k; [done|]. unfold dwf, dkeys in Hwf. cbn [map fst] in Hwf.
  apply NoDup_cons in Hwf as [Hn Hwf]. cbn [merge_dict dget]. rewrite IH by done. destruct (decide (k = n)) as [->|Hk].
  - assert (dget n p = None) as -> by (by apply dget_None). destruct v; by rewrite ?dget_dset_eq.
  - assert (dget k (match v with VNone => base | _ => dset n (match dget n base with Some old => merge_value v old | None => v end) base end)
      = dget k base) as -> by (destruct v; by rewrite ?dget_dset_ne). done.
Qed.

Lemma merge_value_absorbs v : nested_wf v -> merge_value v v = v /\ forall old, merge_value v (merge_value v old) = merge_value v old.
Proof.
  induction v as [| | | | |l _|p IH] using Json.val_nested_ind; try (intros _; split; [done|intros old; by destruct old]).
  rewrite Forall_forall in IH.
  intros [Hwf Hin]%nested_wf_dict.
  assert (merge_value (VDict p) (VDict p) = VDict p) as Hself.
  { rewrite merge_value_dict. f_equal. apply merge_absorbed. intros k v Hkv _. exists v. split; [by apply elem_dget|].
    by apply (IH (k, v) Hkv (Hin k v Hkv)). }
  split; [done|]. intros old. destruct (dict_or_not old) as [[base ->]|Hno].
  - rewrite !merge_value_dict. f_equal. apply merge_absorbed. intros k v Hkv Hv. rewrite merge_lookup by done.
    rewrite (elem_dget _ _ _ Hwf Hkv). destruct (IH (k, v) Hkv (Hin k v Hkv)) as [Hs Hi].
    exists (match dget k base with Some old => merge_value v old | None => v end). split; [by destruct v|].
    destruct (dget k base); [apply Hi|apply Hs].
  - assert (merge_value (VDict p) old = VDict p) as -> by (destruct old; try done; destruct Hno; by eexists). done.
Qed.

(** A merge patch reads key by key as documented ([None] and absent keys keep what is
    stored, a mapping merges into a mapping, anything else replaces), and sending the same
    patch again changes nothing. *)
Theorem merge_patch base p : nested_wf (VDict p) ->
  (forall k, dget k (merge_dict base p) =
     match dget k p with
     | None | Some VNone => dget k base
     | Some v => Some (match dget k base with Some old => merge_value v old | None => v end)
     end) /\
  merge_dict (merge_dict base p) p = merge_dict base p.
Proof.
  intros H. pose proof H as [Hwf _]%nested_wf_dict. split; [by apply merge_lookup|].
  pose proof (proj2 (merge_value_absorbs (VDict p) H) (VDict base)) as E. rewrite !merge_value_dict in E. by injection E.
Qed.
End merge.
End AgentRuns.
