(* ===== verification/AgentCases.v ===== *)
(** * Agents and shared tools at concrete inputs

    A tenant, its library and an agent that attaches a tool and a webhook: what an edit, a
    retirement, a colliding id and a deletion do, and the witnesses of the properties of
    AgentRuns. *)
From S2P Require Import Prelude PyText PyVal Pagination Repository Scoped AgentTools AgentConfig AgentRuns.
Open Scope Z_scope.
Open Scope voice_scope.

Module AgentCases.
Import AgentRuns.

Definition acme : Scoped.view := Scoped.mkView "acme".
Definition beta : Scoped.view := Scoped.mkView "beta".
(** A guard that knows one private host, a [repr] of texts, a schema that accepts all. *)
Definition safe (u : string) : bool := negb (contains u "169.254.169.254").
Definition repr (v : val) : string := match v with VStr s => "'" +:+ s +:+ "'" | _ => "?" end.
Definition lang (s : string) : bool := true.
Definition validate (d : dict string val) : result (list string) (dict string val) := Ok d.
Definition generate (v : val) : answer string := Ok "{}".

Definition tool (k : ToolKind) (n : string) (u : option string) (retired : bool) : ToolDefinition :=
  mkTool (base_default 0 None) (ToolsService.build_tool_id k n) k n "" [] u "POST" None 30 [] retired false 1 None.
Definition empty : hub := Hub [] [] [].
Definition lookup_order : ToolDefinition := tool KWebhook "lookup" (Some "https://a.example/v1") false.
Definition notify : ToolDefinition := tool KWebhook "notify" (Some "https://a.example/hook") false.
Definition library : hub := serve_all safe repr lang None validate generate false
  [(acme, CreateTool lookup_order); (acme, CreateTool notify)] empty.

Definition record_with (api : dict string val) : dict string val :=
  [("agent_name", VStr "desk");
   ("tasks", VList [VDict [("task_type", VStr "conversation"); ("tools_config", VDict [("api_tools", VDict api)])]])].
Definition desk : dict string val :=
  record_with [("tool_refs", VList [VStr "webhook:lookup"]);
               ("tools_params", VDict [("greet", VDict [("pre_call_webhook_ref", VStr "webhook:notify")])])].
Notation serve_desk := (serve_all safe repr lang None validate generate false).
Definition attached : hub := serve_desk [(acme, CreateAgent 1 "u-1" desk None)] library.
Definition moved : ToolDefinition := tool KWebhook "lookup" (Some "https://b.example/v2") false.
Definition edited : hub := serve_desk [(acme, UpdateTool 2 "webhook:lookup" moved)] attached.

Definition stored (h : hub) : answer (dict string val) :=
  let? o := LiveLink.get_agent acme "u-1" h in Ok (default [] o).
(** The endpoint an agent's tool is bound to, and the stamps. *)
Definition at_path (path : list string) (c : dict string val) : val :=
  match get_item "tasks" c with
  | VList (task :: _) => match AgentToolsMixin.api_tools_of task with
                         | Some api => foldl (fun v k => match v with VDict d => get_item k d | _ => VNone end) (VDict api) path
                         | None => VNone
                         end
  | _ => VNone
  end.
Definition seen (path : list string) (h : hub) : answer val := let? c := stored h in Ok (at_path path c).

Example attach_materializes :
  seen ["tools_params"; "lookup"; "url"] attached = Ok (VStr "https://a.example/v1") /\
  seen ["tools_params"; "greet"; "pre_call_webhook_url"] attached = Ok (VStr "https://a.example/hook") /\
  seen ["tool_source_versions"] attached =
    Ok (VDict [("webhook:lookup", VInt 1); ("webhook:notify", VInt 1)]).
Proof. by vm_compute. Qed.

(** The edit is counted as propagated and the stamp says so; the agent still calls the old
    endpoint, and its reads carry no flag. *)
Example edit_keeps_old_endpoint :
  (exists t, (LiveLink.update_tool acme safe repr 2 "webhook:lookup" moved attached).2 = Ok (t, 1) /\ url t = Some "https://b.example/v2") /\
  seen ["tools_params"; "lookup"; "url"] edited = Ok (VStr "https://a.example/v1") /\
  seen ["tool_source_versions"; "webhook:lookup"] edited = Ok (VInt 2) /\
  (let? c := AgentService.get_agent acme "u-1" edited in
   Ok (dhas TOOL_VERSION_DRIFT_KEY c, dhas STALE_DEPRECATED_KEY c)) = Ok (false, false).
Proof. split; [by eexists; vm_compute|by vm_compute]. Qed.

(** A referenced tool is not deleted; after the agent is gone it is. *)
Example delete_waits_for_agents :
  (LiveLink.delete_tool acme 3 "webhook:lookup" attached).2 = Err (ConflictError 1) /\
  (LiveLink.delete_tool acme 4 "webhook:lookup" (serve_desk [(acme, DeleteAgent 3 "u-1")] attached)).2 = Ok tt.
Proof. by vm_compute. Qed.

(** A retired tool: the agent that carries it reads back flagged, and cannot be saved again. *)
Definition retired : hub :=
  serve_desk [(acme, UpdateTool 2 "webhook:lookup" (tool KWebhook "lookup" (Some "https://a.example/v1") true))] attached.
Example resave_of_retired_refused :
  (let? c := AgentService.get_agent acme "u-1" retired in Ok (get_item STALE_DEPRECATED_KEY c)) = Ok (VBool true) /\
  (AgentService.patch_agent acme safe repr lang None validate generate false 3 "u-1" [("agent_name", VStr "front")] retired).2 =
    Err (AgentConfigInvalidError
           ["tasks[0].api_tools: deprecated tool ref 'webhook:lookup' (retired, pick a live tool)"]).
Proof. by vm_compute. Qed.

(** A tenant's tool of a curated tool's id replaces the curated row, for every tenant. *)
Definition curated : hub :=
  serve_desk [(ToolsService.system, CreateTool notify)] empty.
Example create_takes_curated_id :
  (exists t, ToolsService.get_tool beta "webhook:notify" curated = Ok t) /\
  ToolsService.get_tool beta "webhook:notify"
    (serve_desk [(acme, CreateTool (tool KWebhook "notify" (Some "https://acme.example") false))] curated) =
    Err (ToolNotFoundError "webhook:notify").
Proof. split; [by eexists; vm_compute|by vm_compute]. Qed.

(** An agent without a prompt row cannot be deleted. *)
Example delete_needs_prompts :
  (AgentService.delete_agent acme 3 "u-1" (set_prompts [] attached)).2 = Err PromptStoreError /\
  (AgentService.delete_agent acme 3 "unknown" attached).2 = Err PromptStoreError.
Proof. by vm_compute. Qed.

(** A tool embedded in the flat legacy shape is not recognised by its name. *)
Example flat_names_unseen :
  AgentToolsMixin.add_function lookup_order [("tools", VList [VDict [("name", VStr "lookup")]])] =
    Ok [("tools", VList [VDict [("name", VStr "lookup")]; AgentToolsMixin.function_entry lookup_order])].
Proof. by vm_compute. Qed.

(** An embedded endpoint on a private host is refused with its path, not its address. *)
Example private_endpoint_refused :
  (AgentService.create_agent acme safe repr lang None generate 1 "u-2"
     (record_with [("tools_params", VDict [("leak", VDict [("url", VStr "http://169.254.169.254/latest")])])]) None library).2 =
    Err (AgentConfigInvalidError ["tasks[0].api_tools.tools_params.leak.url: endpoint failed safety validation"]).
Proof. by vm_compute. Qed.


(** What is absent takes the patch's value with the nulls in it. *)
Example null_stored_when_absent :
  Patch.merge_dict [("a", VDict [("b", VInt 1)])] [("a", VDict [("b", VNone)]); ("c", VDict [("d", VNone)])] =
    [("a", VDict [("b", VInt 1)]); ("c", VDict [("d", VNone)])].
Proof. by vm_compute. Qed.
Lemma merge_patch_witness :
  Patch.merge_dict (Patch.merge_dict [("a", VDict [("b", VInt 1)])] [("a", VDict [("d", VInt 2)])]) [("a", VDict [("d", VInt 2)])] =
  Patch.merge_dict [("a", VDict [("b", VInt 1)])] [("a", VDict [("d", VInt 2)])].
Proof. apply (merge_patch [("a", VDict [("b", VInt 1)])] [("a", VDict [("d", VInt 2)])]). vm_compute. repeat constructor; set_solver. Defined.
End AgentCases.
