(* ===== verification/AgentCache.v ===== *)
(** * The cache before the agent stores (src/voiceai/modules/agents/runtime/compiled.py)

    [CachedAgentReader] over any pair of stores, called one request after the other and by
    interleaved requests. A clock reading is a whole number of ticks and an argument; the key
    of an entry is the agent's id, the tenant being the same for the whole instance. *)
From S2P Require Import Prelude PyText PyVal Repository Scoped AgentTools AgentConfig.
Open Scope Z_scope.
Open Scope voice_scope.

Notation config_dict := (dict string val).

(** ** The two ports *)
Class Ports (W E : Type) := {
  p_get_agent : string -> W -> result E (option config_dict);
  p_save_agent : string -> config_dict -> W -> W * result E unit;
  p_delete_agent : string -> W -> W * result E bool;
  p_list_agents : W -> result E (list (string * config_dict));
  p_get_prompts : string -> W -> result E (option config_dict);
  p_save_prompts : string -> option config_dict -> W -> W * result E unit;
  p_delete_prompts : string -> W -> W * result E bool;
  p_unavailable : E }.

(** The reads of one agent. *)
Definition view `{Ports W E} (id : string) (w : W) : result E (option config_dict) * result E (option config_dict) :=
  (p_get_agent id w, p_get_prompts id w).
(** What a write promises: it touches the reads of its agent only, and a failed one none. *)
Definition write_ok `{Ports W E} {A} (id : string) (f : W -> W * result E A) : Prop :=
  id <> "" -> forall w w' r, f w = (w', r) ->
    (forall id', id' <> id -> view id' w' = view id' w) /\ (forall e, r = Err e -> view id w' = view id w).
Class PortsLaws (W E : Type) `{Ports W E} := {
  p_save_agent_ok : forall id c, write_ok id (p_save_agent id c);
  p_delete_agent_ok : forall id, write_ok id (p_delete_agent id);
  p_save_prompts_ok : forall id c, write_ok id (p_save_prompts id c);
  p_delete_prompts_ok : forall id, write_ok id (p_delete_prompts id) }.

Module CachedAgentReader.
Section reader.
Context {W E : Type} `{HP : Ports W E}.

Record Entry := mkEntry {
  definition : option config_dict; definition_expires : Z; prompts : option config_dict; prompts_expires : Z;
  prompts_loaded : bool; generation : Z }.
Definition Entry0 : Entry := mkEntry None 0 None 0 false 0.
(** The stores behind the reader ([wired]: the definition store was injected). *)
Record reader := Reader { entries : dict string Entry; stores : W }.
Context (wired : bool) (ttl_s : Z).
Notation M := (SE reader E).

(** [_entry] *)
Definition entry_of (id : string) (s : reader) : Entry := default Entry0 (dget id (entries s)).
Definition put (id : string) (e : Entry) (s : reader) : reader := Reader (dset id e (entries s)) (stores s).
Definition touch_entry (id : string) (s : reader) : reader := put id (entry_of id s) s.
(** [_invalidate] *)
Definition invalidated (e : Entry) : Entry :=
  mkEntry (definition e) 0 (prompts e) (prompts_expires e) false (generation e + 1).
Definition invalidate (id : string) (s : reader) : reader := put id (invalidated (entry_of id s)) s.

(** [_require_definitions] *)
Definition require_definitions : M unit := fun s => (s, if wired then Ok tt else Err p_unavailable).
Definition ask {A} (f : W -> result E A) : M A := fun s => (s, f (stores s)).
Definition tell {A} (f : W -> W * result E A) : M A := fun s => let '(w, r) := f (stores s) in (Reader (entries s) w, r).

Definition definition_hit (now : Z) (e : Entry) : bool := negb (definition_expires e <=? now).
Definition prompts_hit (now : Z) (e : Entry) : bool := prompts_loaded e && negb (prompts_expires e <=? now).
Definition with_definition (now : Z) (v : option config_dict) (e : Entry) : Entry :=
  mkEntry v (now + ttl_s) (prompts e) (prompts_expires e) (prompts_loaded e) (generation e).
Definition with_prompts (now : Z) (v : option config_dict) (e : Entry) : Entry :=
  mkEntry (definition e) (definition_expires e) v (now + ttl_s) true (generation e).

Definition get_agent (now : Z) (id : string) : M (option config_dict) :=
  se_modify (touch_entry id) ;;;
  s <- se_get ;;
  if definition_hit now (entry_of id s) then se_ret (definition (entry_of id s))
  else require_definitions ;;;
       v <- ask (p_get_agent id) ;;
       se_modify (fun s => put id (with_definition now v (entry_of id s)) s) ;;;
       se_ret v.
Definition get_prompts (now : Z) (id : string) : M (option config_dict) :=
  se_modify (touch_entry id) ;;;
  s <- se_get ;;
  if prompts_hit now (entry_of id s) then se_ret (prompts (entry_of id s))
  else v <- ask (p_get_prompts id) ;;
       se_modify (fun s => put id (with_prompts now v (entry_of id s)) s) ;;;
       se_ret v.
(** A write, then the invalidation; a write that raises invalidates nothing. *)
Definition written {A} (id : string) (f : W -> W * result E A) : M A :=
  a <- tell f ;; se_modify (invalidate id) ;;; se_ret a.
Definition save_agent (id : string) (c : config_dict) : M unit := require_definitions ;;; written id (p_save_agent id c).
Definition delete_agent (id : string) : M bool := require_definitions ;;; written id (p_delete_agent id).
Definition list_agents : M (list (string * config_dict)) := require_definitions ;;; ask p_list_agents.
Definition save_prompts (id : string) (c : option config_dict) : M unit := written id (p_save_prompts id c).
Definition delete_prompts (id : string) : M bool := written id (p_delete_prompts id).

(** ** Requests one after the other *)
Inductive call : Type :=
| GetAgent (now : Z) (id : string) | SaveAgent (id : string) (c : config_dict) | DeleteAgent (id : string) | ListAgents
| GetPrompts (now : Z) (id : string) | SavePrompts (id : string) (c : option config_dict) | DeletePrompts (id : string).
Inductive answer : Type :=
| Found (v : option config_dict) | Done | Deleted (b : bool) | Listed (l : list (string * config_dict)).
Definition answered {S A} (f : A -> answer) (c : SE S E A) : SE S E answer := a <- c ;; se_ret (f a).

Definition perform (c : call) : M answer :=
  match c with
  | GetAgent now id => answered Found (get_agent now id)
  | SaveAgent id c => answered (fun _ => Done) (save_agent id c)
  | DeleteAgent id => answered Deleted (delete_agent id)
  | ListAgents => answered Listed list_agents
  | GetPrompts now id => answered Found (get_prompts now id)
  | SavePrompts id c => answered (fun _ => Done) (save_prompts id c)
  | DeletePrompts id => answered Deleted (delete_prompts id)
  end.
(** The specification: the same calls to the stores. *)
Definition direct (c : call) : SE W E answer :=
  let available : SE W E unit := fun w => (w, if wired then Ok tt else Err p_unavailable) in
  let asks {A} (f : W -> result E A) : SE W E A := fun w => (w, f w) in
  match c with
  | GetAgent _ id => available ;;; answered Found (asks (p_get_agent id))
  | SaveAgent id c => available ;;; answered (fun _ => Done) (p_save_agent id c)
  | DeleteAgent id => available ;;; answered Deleted (p_delete_agent id)
  | ListAgents => available ;;; answered Listed (asks p_list_agents)
  | GetPrompts _ id => answered Found (asks (p_get_prompts id))
  | SavePrompts id c => answered (fun _ => Done) (p_save_prompts id c)
  | DeletePrompts id => answered Deleted (p_delete_prompts id)
  end.
Fixpoint run {S} (f : call -> SE S E answer) (cs : list call) (s : S) : S * list (result E answer) :=
  match cs with
  | [] => (s, [])
  | c :: cs => let '(s, r) := f c s in let '(s, rs) := run f cs s in (s, r :: rs)
  end.

(** ** Interleaved requests *)
(** A read that missed waits for the store, then stores what it was told; [was]: the clock
    it read. A write reaches the store, and its invalidation comes after. *)
Inductive pending : Type := Loading (id : string) (was : Z) | Loaded (id : string) (was : Z) (v : option config_dict).
Inductive event : Type :=
| Tick (dt : Z)
| BeginRead (task : nat) (id : string)
| ReadStore (task : nat)
| EndRead (task : nat)
| Write (f : W -> W)
| Invalidate (id : string).
(** [past]: the states of the stores so far, each with the clock; [log]: the answers of
    [get_agent], each with its agent and the clock it read. *)
Record shared := Shared {
  clock : Z; rd : reader; tasks : dict nat pending; past : list (Z * W); log : list (Z * string * option config_dict) }.
Definition step (e : event) (s : shared) : shared :=
  let keep rd tasks log := Shared (clock s) rd tasks (past s) log in
  match e with
  | Tick dt => Shared (clock s + Z.max 0 dt) (rd s) (tasks s) ((clock s + Z.max 0 dt, stores (rd s)) :: past s) (log s)
  | BeginRead t id =>
      let rd := touch_entry id (rd s) in
      if definition_hit (clock s) (entry_of id rd) then keep rd (tasks s) ((clock s, id, definition (entry_of id rd)) :: log s)
      else keep rd (dset t (Loading id (clock s)) (tasks s)) (log s)
  | ReadStore t =>
      match dget t (tasks s) with
      | Some (Loading id was) =>
          match p_get_agent id (stores (rd s)) with
          | Ok v => keep (rd s) (dset t (Loaded id was v) (tasks s)) (log s)
          | Err _ => keep (rd s) (ddel t (tasks s)) (log s)
          end
      | _ => s
      end
  | EndRead t =>
      match dget t (tasks s) with
      | Some (Loaded id was v) =>
          keep (put id (with_definition was v (entry_of id (rd s))) (rd s)) (ddel t (tasks s)) ((was, id, v) :: log s)
      | _ => s
      end
  | Write f =>
      let w := f (stores (rd s)) in
      Shared (clock s) (Reader (entries (rd s)) w) (tasks s) ((clock s, w) :: past s) (log s)
  | Invalidate id => keep (invalidate id (rd s)) (tasks s) (log s)
  end.
Definition start (now : Z) (w : W) : shared := Shared now (Reader [] w) [] [(now, w)] [].
Definition steps (es : list event) (s : shared) : shared := foldl (fun s e => step e s) s es.
End reader.
Arguments reader : clear implicits.
Arguments shared : clear implicits.
Arguments event : clear implicits.

(** ** One after the other: the reader is the stores *)
Section coherence.
Context {W E : Type} {HP : Ports W E} {HL : PortsLaws W E}.
Context (wired : bool) (ttl_s : Z).
Implicit Types (s : reader W).

(** What an entry holds is what the store would answer, while it may be served. *)
Definition coherent s : Prop := forall id,
  (0 < definition_expires (entry_of id s) -> wired = true /\ p_get_agent id (stores s) = Ok (definition (entry_of id s))) /\
  (prompts_loaded (entry_of id s) = true -> p_get_prompts id (stores s) = Ok (prompts (entry_of id s))).

Lemma entry_put id id' e s : entry_of id (put id' e s) = if decide (id = id') then e else entry_of id s.
Proof. unfold entry_of, put. cbn [entries]. rewrite dget_dset. by case_decide. Qed.
Lemma entry_touch id id' s : entry_of id (touch_entry id' s) = entry_of id s.
Proof. unfold touch_entry. rewrite entry_put. by case_decide; subst. Qed.
Lemma coherent_touch id s : coherent s -> coherent (touch_entry id s).
Proof. intros Hc x. rewrite entry_touch. apply Hc. Qed.
Lemma coherent_put id e s : coherent s ->
  (0 < definition_expires e -> wired = true /\ p_get_agent id (stores s) = Ok (definition e)) ->
  (prompts_loaded e = true -> p_get_prompts id (stores s) = Ok (prompts e)) -> coherent (put id e s).
Proof. intros Hc ? ? x. rewrite entry_put. case_decide; subst; [done|apply Hc]. Qed.

Definition good (c : call) : Prop :=
  match c with
  | GetAgent now _ | GetPrompts now _ => 0 <= now
  | SaveAgent id _ | DeleteAgent id | SavePrompts id _ | DeletePrompts id => id <> ""
  | ListAgents => True
  end.

(** A write and its invalidation. *)
Lemma written_coherent {A} id (f : W -> W * result E A) s : coherent s -> write_ok id f -> id <> "" ->
  coherent (written id f s).1 /\ (stores (written id f s).1, (written id f s).2) = f (stores s).
Proof.
  intros Hc Hw Hid. unfold written, se_bind, tell, se_modify, se_ret. destruct (f (stores s)) as [w r] eqn:Ef.
  destruct (Hw Hid _ _ _ Ef) as [Hf He].
  assert (forall x, x <> id \/ (exists e, r = Err e) -> view x w = view x (stores s)) as Hv
    by (intros x [?|[e ?]]; [by apply Hf|destruct (decide (x = id)) as [->|]; [by eapply He|by apply Hf]]).
  assert (forall x, x <> id \/ (exists e, r = Err e) ->
    (0 < definition_expires (entry_of x s) -> wired = true /\ p_get_agent x w = Ok (definition (entry_of x s))) /\
    (prompts_loaded (entry_of x s) = true -> p_get_prompts x w = Ok (prompts (entry_of x s)))) as Hx.
  { intros x Hx%Hv. unfold view in Hx. injection Hx as -> ->. apply Hc. }
  destruct r as [a|e]; cbn [fst snd stores]; (split; [|done]).
  - intros x. unfold invalidate. rewrite entry_put. case_decide as E1; [cbn; split; [lia|done]|]. apply Hx. by left.
  - intros x. apply Hx. right. by eexists.
Qed.

Lemma answered_run {S A} (g : A -> answer) (c : SE S E A) st :
  answered g c st = ((c st).1, match (c st).2 with Ok a => Ok (g a) | Err e => Err e end).
Proof. unfold answered, se_bind, se_ret. by destruct (c st) as [st' [a|e]]. Qed.
Lemma written_call {A} (g : A -> answer) id (f : W -> W * result E A) s : coherent s -> write_ok id f -> id <> "" ->
  coherent (answered g (written id f) s).1 /\
  (stores (answered g (written id f) s).1, (answered g (written id f) s).2) = answered g f (stores s).
Proof.
  intros Hc Hw Hid. destruct (written_coherent id f s Hc Hw Hid) as [H1 H2]. rewrite !answered_run, <- H2. done.
Qed.
Lemma required_call (c : SE (reader W) E answer) (d : SE W E answer) s : coherent s ->
  coherent (c s).1 /\ (stores (c s).1, (c s).2) = d (stores s) ->
  coherent (se_bind (require_definitions wired) (fun _ => c) s).1 /\
  (stores (se_bind (require_definitions wired) (fun _ => c) s).1, (se_bind (require_definitions wired) (fun _ => c) s).2) =
  se_bind (fun w => (w, if wired then Ok tt else Err p_unavailable)) (fun _ => d) (stores s).
Proof. intros Hc H. unfold se_bind, require_definitions. by destruct wired. Qed.

(** One call: coherence stays, and the answer and the stores are those of the direct call. *)
Lemma perform_direct c s : coherent s -> good c ->
  coherent (perform wired ttl_s c s).1 /\
  (stores (perform wired ttl_s c s).1, (perform wired ttl_s c s).2) = direct wired c (stores s).
Proof.
  intros Hc Hg. destruct c as [now id|id c|id| |now id|id c|id]; cbn [perform direct good] in *.
  - pose proof (coherent_touch id s Hc) as Ht. rewrite answered_run.
    unfold answered, get_agent, se_bind, se_modify, se_get, se_ret, require_definitions, ask. cbn [fst snd].
    rewrite entry_touch. unfold definition_hit.
    destruct (Z.leb_spec (definition_expires (entry_of id s)) now) as [Hle|Hlt]; cbn [negb].
    + destruct wired eqn:Ew; cbn [fst snd stores]; [|done]. change (stores (touch_entry id s)) with (stores s).
      destruct (p_get_agent id (stores s)) as [v|e] eqn:Ev; cbn [fst snd]; [|done]. split; [|done].
      apply coherent_put; [done|done|]. cbn [with_definition prompts_loaded prompts]. rewrite entry_touch. apply Hc.
    + cbn [fst snd]. destruct (Hc id) as [Hd _]. destruct Hd as [-> Hd]; [lia|]. cbn [fst snd].
      change (stores (touch_entry id s)) with (stores s). by rewrite Hd.
  - unfold answered, save_agent. rewrite se_bind_assoc. apply required_call; [done|].
    by apply written_call, Hg; [|apply p_save_agent_ok].
  - unfold answered, delete_agent. rewrite se_bind_assoc. apply required_call; [done|].
    by apply written_call, Hg; [|apply p_delete_agent_ok].
  - unfold answered, list_agents. rewrite se_bind_assoc. apply required_call; [done|].
    unfold se_bind, ask, se_ret. destruct (p_list_agents (stores s)); done.
  - pose proof (coherent_touch id s Hc) as Ht. rewrite answered_run.
    unfold answered, get_prompts, se_bind, se_modify, se_get, se_ret, ask. cbn [fst snd].
    rewrite entry_touch. unfold prompts_hit.
    destruct (prompts_loaded (entry_of id s)) eqn:El; cbn [andb]; [destruct (Z.leb_spec (prompts_expires (entry_of id s)) now); cbn [negb]|].
    2: { cbn [fst snd]. destruct (Hc id) as [_ Hp]. by rewrite Hp. }
    all: cbn [fst snd]; change (stores (touch_entry id s)) with (stores s); destruct (p_get_prompts id (stores s)) as [v|e] eqn:Ev; cbn [fst snd]; [|done]; (split; [|done]);
      (apply coherent_put; [done| |done]); cbn [with_prompts definition definition_expires]; rewrite entry_touch; apply Hc.
  - by apply written_call, Hg; [|apply p_save_prompts_ok].
  - by apply written_call, Hg; [|apply p_delete_prompts_ok].
Qed.

(** C8: The cached ports are the ports: whatever sequence of reads and writes of agents and
    prompts one reader serves, at whatever clock readings and time to live, every answer and
    the stores are those of the same calls made directly, errors included. *)
Theorem reader_refines_stores cs : forall w, Forall good cs ->
  let out := run (perform wired ttl_s) cs (Reader [] w) in (stores out.1, out.2) = run (direct wired) cs w.
Proof.
  assert (forall s, coherent s -> Forall good cs ->
    let out := run (perform wired ttl_s) cs s in (stores out.1, out.2) = run (direct wired) cs (stores s)) as Hall.
  { induction cs as [|c cs IH]; intros s Hc Hg; [done|]. apply Forall_cons in Hg as [Hg Hgs]. cbn [run].
    destruct (perform_direct c s Hc Hg) as [Hc' He]. destruct (perform wired ttl_s c s) as [s' r]. cbn [fst snd] in *.
    rewrite <- He. specialize (IH s' Hc' Hgs). destruct (run (perform wired ttl_s) cs s') as [s2 rs]. cbn [fst snd] in *.
    by rewrite <- IH. }
  intros w Hg. apply (Hall (Reader [] w)); [|done]. intros id. unfold entry_of. cbn [entries dget default from_option]. cbn. split; [lia|discriminate].
Qed.
End coherence.
(** ** Interleaved: an answer was true within the last time to live *)
Section staleness.
Context {W E : Type} {HP : Ports W E} (ttl_s : Z) (Httl : 0 < ttl_s).
Implicit Types (s : shared W).

(** [v] was the store's answer for [id] at some moment from [t] on. *)
Definition held (t : Z) (id : string) (v : option config_dict) (past : list (Z * W)) : Prop :=
  exists tw, tw ∈ past /\ t <= tw.1 /\ p_get_agent id tw.2 = Ok v.
Lemma held_mono t id v x past : held t id v past -> held t id v (x :: past).
Proof. intros (tw & ? & ? & ?). exists tw. split; [by right|done]. Qed.
Lemma held_later t t' id v past : t' <= t -> held t id v past -> held t' id v past.
Proof. intros ? (tw & ? & ? & ?). exists tw. split_and!; [done|lia|done]. Qed.

Record recent s : Prop := {
  rc_clock : 0 <= clock s;
  rc_now : (clock s, stores (rd s)) ∈ past s;
  rc_entry : forall id, 0 < definition_expires (entry_of id (rd s)) ->
    held (definition_expires (entry_of id (rd s)) - ttl_s) id (definition (entry_of id (rd s))) (past s);
  rc_loading : forall t id was, (t, Loading id was) ∈ tasks s -> was <= clock s;
  rc_loaded : forall t id was v, (t, Loaded id was v) ∈ tasks s -> held was id v (past s);
  rc_log : forall was id v, (was, id, v) ∈ log s -> held (was - ttl_s + 1) id v (past s) }.

Lemma recent_start now w : 0 <= now -> recent (start now w).
Proof.
  intros Hn. split; cbn; [done|by left| |intros; exfalso; by eapply not_elem_of_nil..].
  intros id Hx. unfold entry_of in Hx. cbn in Hx. lia.
Qed.

(** Only the readers change. *)
Lemma recent_reader rd' s : recent s -> stores rd' = stores (rd s) ->
  (forall id, 0 < definition_expires (entry_of id rd') ->
     held (definition_expires (entry_of id rd') - ttl_s) id (definition (entry_of id rd')) (past s)) ->
  forall ts lg, (forall t id was, (t, Loading id was) ∈ ts -> was <= clock s) ->
  (forall t id was v, (t, Loaded id was v) ∈ ts -> held was id v (past s)) ->
  (forall was id v, (was, id, v) ∈ lg -> held (was - ttl_s + 1) id v (past s)) ->
  recent (Shared (clock s) rd' ts (past s) lg).
Proof. intros [] Hs He ts lg ? ? ?. split; cbn; try done. by rewrite Hs. Qed.

Lemma recent_step e s : recent s -> recent (step ttl_s e s).
Proof.
  intros Hr. pose proof Hr as [Hc Hn He Hl Hd Hg]. destruct e as [dt|t id|t|t|f|id]; cbn [step].
  - split; cbn; [lia|by left| | | |].
    + intros id Hx. by apply held_mono, He.
    + intros t id was Hin. specialize (Hl t id was Hin). lia.
    + intros t id was v Hin. apply held_mono. by eapply Hd.
    + intros was id v Hin. by apply held_mono, Hg.
  - assert (forall x, entry_of x (touch_entry id (rd s)) = entry_of x (rd s)) as Ht by (intros; apply entry_touch).
    destruct (definition_hit _ _) eqn:Eh; (apply recent_reader; [done|done|intros x; rewrite Ht; apply He| | |]); try done.
    + intros was id' v [Eq|Hin]%elem_of_cons; [|by apply Hg]. injection Eq as -> -> ->. rewrite Ht in *.
      unfold definition_hit in Eh. apply negb_true_iff, Z.leb_gt in Eh. eapply held_later; [|apply He]; lia.
    + intros t' id' was [Eq|Hin]%dset_elem; [|by eapply Hl]. injection Eq as _ _ ->. lia.
    + intros t' id' was v [Eq|Hin]%dset_elem; [done|]. by eapply Hd.
  - destruct (dget t (tasks s)) as [[id was|]|] eqn:Et; try done. apply dget_Some_elem in Et.
    destruct (p_get_agent id (stores (rd s))) as [v|] eqn:Ev; (apply recent_reader; [done|done|done| | |done]).
    + intros t' id' was' [E'|Hin]%dset_elem; [done|by eapply Hl].
    + intros t' id' was' v' [E'|Hin]%dset_elem; [|by eapply Hd]. injection E' as _ -> -> ->.
      exists (clock s, stores (rd s)). split_and!; [done|by eapply Hl|done].
    + intros t' id' was' Hin%ddel_elem. by eapply Hl.
    + intros t' id' was' v' Hin%ddel_elem. by eapply Hd.
  - destruct (dget t (tasks s)) as [[|id was v]|] eqn:Et; try done. apply dget_Some_elem in Et.
    apply recent_reader; [done|done| | | |].
    + intros x. rewrite entry_put. case_decide as Ex; [|apply He]. subst x. cbn. intros _.
      replace (was + ttl_s - ttl_s) with was by lia. by eapply Hd.
    + intros t' id' was' Hin%ddel_elem. by eapply Hl.
    + intros t' id' was' v' Hin%ddel_elem. by eapply Hd.
    + intros was' id' v' [E'|Hin]%elem_of_cons; [|by apply Hg]. injection E' as -> -> ->.
      eapply held_later; [|by eapply Hd]. lia.
  - split; cbn; [done|by left| | | |].
    + intros id Hx. by apply held_mono, He.
    + done.
    + intros t id was v Hin. apply held_mono. by eapply Hd.
    + intros was id v Hin. by apply held_mono, Hg.
  - apply recent_reader; try done. intros x. unfold invalidate. rewrite entry_put. case_decide; [cbn; lia|apply He].
Qed.

(** C9: In any interleaving of reads, writes and invalidations, whoever writes to the stores
    and whether or not the writer invalidates, an answer of [get_agent] is one the store
    would have given at some moment less than the time to live before the reader asked, or
    while it waited. *)
Theorem reads_bounded_stale es now w : 0 <= now ->
  forall was id v, (was, id, v) ∈ log (steps ttl_s es (start now w)) ->
  exists t w', (t, w') ∈ past (steps ttl_s es (start now w)) /\ was - ttl_s < t /\ p_get_agent id w' = Ok v.
Proof.
  intros Hn was id v Hin. assert (recent (steps ttl_s es (start now w))) as Hr.
  { pose proof (recent_start now w Hn) as H0. unfold steps. revert H0. generalize (start now w) as s.
    clear Hin. induction es as [|e es IH]; intros s Hs; [done|]. by apply IH, recent_step. }
  destruct (rc_log _ Hr _ _ _ Hin) as ([t w'] & ? & ? & ?). cbn in *. exists t, w'. split_and!; [done|lia|done].
Qed.
End staleness.
End CachedAgentReader.

(** ** The stores of the container (core/container.py _build_agent_service) *)
Module HubPorts.
Inductive port_error : Type := DependencyUnavailableError | Store (e : agent_error).
Definition up {A} (r : result agent_error A) : result port_error A := match r with Ok a => Ok a | Err e => Err (Store e) end.
Section hub.
Context (V : Scoped.view) (now : Z).
#[local] Existing Instance InMemory.repository.

(** [MongoAgentPrompts.get_prompts] *)
Definition stored_prompts (id : string) (h : hub) : AgentTools.answer (option config_dict) :=
  let? o := of_db (Scoped.get V id (AgentTools.prompts h)) in Ok (p ← o; payload p).
Definition up_run {A} (c : Hubs A) (h : hub) : hub * result port_error A := let '(h, r) := c h in (h, up r).
Instance ports : Ports hub port_error := {
  p_get_agent id h := up (LiveLink.get_agent V id h);
  p_save_agent id c := up_run (LiveLink.save_agent V now id c);
  p_delete_agent id := up_run (LiveLink.delete_agent V now id);
  p_list_agents h := Ok (LiveLink.list_agents V h);
  p_get_prompts id h := up (stored_prompts id h);
  p_save_prompts id c := up_run (AgentService.save_prompts V now id c);
  p_delete_prompts id := up_run (AgentService.delete_prompts V now id);
  p_unavailable := DependencyUnavailableError }.

Lemma get_other {M} `{Model M} id (d d' : list (string * InMemory.row M)) :
  dget id d' = dget id d -> Scoped.get V id d' = Scoped.get V id d.
Proof. intros Hd. unfold Scoped.get, InMemory.repository, rp_get, InMemory.get. by rewrite Hd. Qed.
Lemma insert_other {M} `{Model M} u (m : M) id id' (d : list (string * InMemory.row M)) :
  m_id m = Some id -> id <> "" -> id' <> id -> dget id' (Scoped.insert V u m d).1 = dget id' d.
Proof.
  intros Hm Hid Hne. unfold Scoped.insert, InMemory.repository, rp_insert, InMemory.insert.
  rewrite Scoped.stamp_id, Hm. cbn [opt_truthy]. replace (str_true id) with true by (by destruct id). cbn [fst].
  rewrite Scoped.stamp_id, Hm. by rewrite dget_dset_ne.
Qed.
Lemma delete_other {M} `{Model M} id id' (d : list (string * InMemory.row M)) :
  id' <> id -> dget id' (Scoped.soft_delete V now None id d).1 = dget id' d.
Proof.
  intros Hne. unfold Scoped.soft_delete. destruct (Scoped.require_same_tenant _ _ _); [|done].
  unfold InMemory.repository, rp_soft_delete, InMemory.soft_delete.
  destruct (dget id d) as [[m|b]|]; [destruct (negb _)| |]; try done. cbn [fst]. by rewrite dget_dset_ne.
Qed.
Lemma delete_failed {M} `{Model M} id (d : list (string * InMemory.row M)) e :
  (Scoped.soft_delete V now None id d).2 = Err e -> (Scoped.soft_delete V now None id d).1 = d.
Proof.
  unfold Scoped.soft_delete. destruct (Scoped.require_same_tenant _ _ _); [|done].
  unfold InMemory.repository, rp_soft_delete, InMemory.soft_delete.
  by destruct (dget id d) as [[m|b]|]; [destruct (negb _)| |].
Qed.

Ltac pair_inv E :=
  let E1 := fresh in let E2 := fresh in
  pose proof (f_equal fst E) as E1; pose proof (f_equal snd E) as E2; clear E; cbn [fst snd] in E1, E2; subst.
Instance ports_laws : PortsLaws hub port_error.
Proof.
  split; intros id; [intros c| |intros c|]; intros Hid h h' r E; unfold view, p_get_agent, p_get_prompts, ports, LiveLink.get_agent, stored_prompts, LiveLink.agent_store.
  - unfold p_save_agent, ports, up_run, LiveLink.save_agent, LiveLink.agent_store in E. pair_inv E. split; [|done].
    intros id' Hne. cbn [agents AgentTools.prompts set_agents].
    by rewrite (get_other id' (agents h)) by (by apply insert_other with id).
  - unfold p_delete_agent, ports, up_run, LiveLink.delete_agent, LiveLink.agent_store in E.
    pose proof (fun id' => delete_other id id' (agents h)) as Ho. pose proof (delete_failed id (agents h)) as Hf.
    destruct (Scoped.soft_delete V now None id (agents h)) as [d r0]. injection E as <- <-. split.
    + intros id' Hne. cbn [agents AgentTools.prompts set_agents]. by rewrite (get_other id' (agents h)) by (by apply Ho).
    + intros e He. destruct r0 as [|e0]; [done|]. specialize (Hf e0 eq_refl). cbn in Hf. by subst d; destruct h.
  - unfold p_save_prompts, ports, up_run, AgentService.save_prompts, AgentService.prompt_store in E. pair_inv E. split; [|done].
    intros id' Hne. cbn [agents AgentTools.prompts set_prompts].
    by rewrite (get_other id' (AgentTools.prompts h)) by (by apply insert_other with id).
  - unfold p_delete_prompts, ports, up_run, AgentService.delete_prompts, AgentService.prompt_store in E.
    pose proof (fun id' => delete_other id id' (AgentTools.prompts h)) as Ho. pose proof (delete_failed id (AgentTools.prompts h)) as Hf.
    destruct (Scoped.soft_delete V now None id (AgentTools.prompts h)) as [d r0]. injection E as <- <-. split.
    + intros id' Hne. cbn [agents AgentTools.prompts set_prompts].
      by rewrite (get_other id' (AgentTools.prompts h)) by (by apply Ho).
    + intros e He. destruct r0 as [|e0]; [done|]. specialize (Hf e0 eq_refl). cbn in Hf. by subst d; destruct h.
Qed.
End hub.
End HubPorts.

(** ** Concrete runs *)
Module CacheRuns.
Import CachedAgentReader.
Definition acme : Scoped.view := Scoped.mkView "acme".
#[local] Instance acme_ports : Ports hub HubPorts.port_error := HubPorts.ports acme 7.
#[local] Instance acme_laws : PortsLaws hub HubPorts.port_error := HubPorts.ports_laws acme 7.
Definition version (n : string) : config_dict := [("agent_name", VStr n)].
Definition stored (n : string) (h : hub) : hub := (p_save_agent "a" (version n) h).1.
Definition empty : hub := Hub [] [] [].
Definition day : list call :=
  [SaveAgent "a" (version "one"); GetAgent 5 "a"; GetAgent 6 "a"; SaveAgent "a" (version "two"); GetAgent 7 "a";
   GetPrompts 8 "a"; SavePrompts "a" (Some (version "p")); GetPrompts 9 "a"; DeleteAgent "a"; GetAgent 10 "a"; DeleteAgent "a"].
Lemma reader_refines_stores_witness :
  Forall good day /\
  let out := run (perform true 60) day (Reader [] empty) in (stores out.1, out.2) = run (direct true) day empty.
Proof.
  assert (Forall good day) as Hg by (repeat constructor; discriminate).
  split; [exact Hg|]. apply (reader_refines_stores true 60 day empty Hg).
Defined.

(** A read waits for the store while the agent is saved and the entry invalidated; it then
    stores what it was told, which is served for the whole time to live. *)
Definition overtaken : list (event hub) :=
  [BeginRead 1 "a"; ReadStore 1; Write (stored "new"); Invalidate "a"; EndRead 1; Tick 59; BeginRead 2 "a"].
Example write_overtaken : log (steps 60 overtaken (start 100 (stored "old" empty))) =
  [(159, "a", Some (version "old")); (100, "a", Some (version "old"))].
Proof. by vm_compute. Qed.
Lemma reads_bounded_stale_witness :
  exists t w', (t, w') ∈ past (steps 60 overtaken (start 100 (stored "old" empty))) /\ 159 - 60 < t /\
    p_get_agent "a" w' = Ok (Some (version "old")).
Proof.
  apply (reads_bounded_stale 60 ltac:(lia) overtaken 100 (stored "old" empty) ltac:(lia) 159 "a" (Some (version "old"))).
  vm_compute. by left.
Defined.
End CacheRuns.
