(* ===== verification/Synth.v ===== *)
(** * Synthesizers: streamed text and audio, the pool of voices
    (src/voiceai/modules/voice/tts: base.py, stream.py, pool.py)

    The chunks of a text, the pairing of pushed texts with received audio, the redialling of
    a connection, and the pool that routes one voice at a time, its tasks interleaved.
    Sockets, the providers' protocols and the latency figures are left out: what a provider
    sends or does is an event. *)
From S2P Require Import Prelude PyText PyVal.
Open Scope Z_scope.
Open Scope voice_scope.

(** ** The chunks of a text (base.py) *)
Module BaseSynthesizer.
Definition splitters : list ascii := chars ".,?!;:-()[]} ".
Definition splits (c : ascii) : bool := bool_decide (c ∈ splitters).
Definition chunk_of (buffer : text) : text := strip_chars buffer ++ chars " ".
(** [text_chunker]; [buffer]: the characters since the last chunk. *)
Fixpoint chunks_from (buffer l : text) : list text :=
  match l with
  | [] => match buffer with [] => [] | _ => [chunk_of buffer] end
  | c :: l =>
      let buffer := buffer ++ [c] in
      if splits c then (if bool_decide (buffer = chars " ") then [] else [chunk_of buffer]) ++ chunks_from [] l
      else chunks_from buffer l
  end.
Definition text_chunker (t : string) : list string := map of_chars (chunks_from [] (chars t)).

(** What is pronounced: the characters that are no white space. *)
Definition letters (l : text) : text := List.filter (fun c => negb (is_space c)) l.

Lemma letters_app a b : letters (a ++ b) = letters a ++ letters b.
Proof. apply List.filter_app. Qed.
Lemma letters_lstrip l : letters (lstrip_chars l) = letters l.
Proof. induction l as [|c l IH]; [done|]. cbn. destruct (is_space c) eqn:E; cbn; [done|]. by rewrite E. Qed.
Lemma letters_reverse l : letters (reverse l) = reverse (letters l).
Proof.
  induction l as [|c l IH]; [done|]. rewrite reverse_cons, letters_app, IH. unfold letters. cbn [List.filter].
  destruct (is_space c); cbn [negb]; [by rewrite app_nil_r|by rewrite reverse_cons].
Qed.
Lemma letters_strip l : letters (strip_chars l) = letters l.
Proof.
  unfold strip_chars, rstrip_chars. by rewrite letters_reverse, letters_lstrip, letters_reverse, letters_lstrip, reverse_involutive.
Qed.
Lemma letters_chunk l : letters (chunk_of l) = letters l.
Proof. unfold chunk_of. by rewrite letters_app, letters_strip, app_nil_r. Qed.

Lemma chunks_from_letters l : forall buffer, letters (concat (chunks_from buffer l)) = letters (buffer ++ l).
Proof.
  induction l as [|c l IH]; intros buffer; cbn [chunks_from].
  - destruct buffer; [done|]. cbn [concat]. by rewrite !app_nil_r, letters_chunk.
  - destruct (splits c); [|by rewrite IH, <- app_assoc].
    rewrite concat_app, letters_app, IH. change (c :: l) with ([c] ++ l). rewrite (app_assoc buffer), (letters_app (buffer ++ [c]) l).
    cbn [app]. f_equal. case_bool_decide as E; [by rewrite E|]. cbn [concat]. by rewrite app_nil_r, letters_chunk.
Qed.

(** The chunks of a text pronounce what the text does, in order. *)
Theorem chunker_keeps_letters t : letters (concat (chunks_from [] (chars t))) = letters (chars t).
Proof. apply chunks_from_letters. Qed.

(** A number or a compound is split at its mark, with a space. *)
Example chunker_splits_numbers : text_chunker "It is 3.5 km, well-known." = ["It "; "is "; "3. "; "5 "; "km, "; "well- "; "known. "].
Proof. by vm_compute. Qed.
End BaseSynthesizer.

(** ** One voice over a streaming connection (stream.py) *)
Module StreamSynthesizer.
Notation meta := (dict string val).
Definition MAX_CONNECTION_FAILURES : Z := 3.

Record synth := Synth {
  text_queue : list meta; meta_info : option meta; last_text_sent : bool; first_chunk_generated : bool;
  (** [current_turn_start_time] is set. *)
  turn_started : bool;
  current_sequence_chars : Z; synthesized_characters : Z; connection_error : option string }.
Definition synth0 : synth := Synth [] None false false false 0 0 None.
Definition get_item (k : string) (m : meta) : val := default VNone (dget k m).
Definition sequence_of (m : meta) : val := get_item "sequence_id" m.
Definition same_sequence (q : val) (m : meta) : bool := val_eqb (sequence_of m) q.

(** [_stamp_turn_start]: the first push of a turn drops what other sequences left. *)
Definition stamp_turn_start (m : meta) (s : synth) : synth :=
  if turn_started s then s
  else Synth (List.filter (same_sequence (sequence_of m)) (text_queue s)) (meta_info s) false (first_chunk_generated s) true
         (current_sequence_chars s) (synthesized_characters s) (connection_error s).
(** [_push_stream] *)
Definition push_stream (t : string) (m : meta) (s : synth) : synth :=
  let n := Z.of_nat (str_len t) in
  let s := Synth (text_queue s) (Some m) (last_text_sent s) (first_chunk_generated s) (turn_started s)
             (current_sequence_chars s + n) (synthesized_characters s + n) (connection_error s) in
  let m := dset "text" (VStr t) m in
  let s := stamp_turn_start m s in
  Synth (text_queue s ++ [m]) (meta_info s) (last_text_sent s) (first_chunk_generated s) (turn_started s)
    (current_sequence_chars s) (synthesized_characters s) (connection_error s).
(** What a sender task writes, and the reset of a barge-in (cartesia, elevenlabs, kalpa, maya). *)
Definition text_sent (s : synth) : synth :=
  Synth (text_queue s) (meta_info s) true (first_chunk_generated s) (turn_started s) (current_sequence_chars s)
    (synthesized_characters s) (connection_error s).
Definition fail (e : string) (s : synth) : synth :=
  Synth (text_queue s) (meta_info s) (last_text_sent s) (first_chunk_generated s) (turn_started s) (current_sequence_chars s)
    (synthesized_characters s) (Some e).
Definition interrupted (s : synth) : synth :=
  Synth (text_queue s) (meta_info s) (last_text_sent s) (first_chunk_generated s) false (current_sequence_chars s)
    (synthesized_characters s) (connection_error s).

Section loop.
Context {A : Type} (audio_format : string) (process_audio_chunk : A -> option A).
(** What [receiver] yields: the end of the stream or audio. *)
Inductive item : Type := EndOfStream | Audio (a : A).

Definition create_ws_data_packet (i : item) (m : meta) : item * meta :=
  (i, dset "llm_generated" (VBool false) (dset "is_md5_hash" (VBool false) m)).

(** One turn of [_generate_ws_loop]: nothing when the chunk is to be skipped. *)
Definition generate_item (mark : string) (i : item) (extra : meta) : SE synth string (option (item * meta)) := fun s =>
  match connection_error s with
  | Some e => (s, Err e)
  | None =>
      let '(queue, current) := match text_queue s with m :: q => (q, Some m) | [] => ([], meta_info s) end in
      let m := dupdate (dset "format" (VStr audio_format) (default [] current)) extra in
      let m := dset "is_first_chunk" (VBool (negb (first_chunk_generated s))) m in
      let later := negb (last_text_sent s) in
      match i with
      | EndOfStream =>
          let m := dset "end_of_synthesizer_stream" (VBool true) m in
          let m := if last_text_sent s then dset "end_of_llm_stream" (VBool true) m else m in
          let m := dset "mark_id" (VStr mark) m in
          (Synth queue (Some m) (last_text_sent s) false false (if turn_started s then 0 else current_sequence_chars s)
             (synthesized_characters s) None, Ok (Some (create_ws_data_packet EndOfStream m)))
      | Audio a =>
          match process_audio_chunk a with
          | None => (Synth queue (Some m) (last_text_sent s) later (turn_started s) (current_sequence_chars s)
                       (synthesized_characters s) None, Ok None)
          | Some a =>
              let m := dset "mark_id" (VStr mark) m in
              (Synth queue (Some m) (last_text_sent s) later (turn_started s) (current_sequence_chars s)
                 (synthesized_characters s) None, Ok (Some (create_ws_data_packet (Audio a) m)))
          end
      end
  end.

Inductive event : Type :=
| Push (t : string) (m : meta) | TextSent | Interrupted | Failed (e : string) | Received (mark : string) (i : item) (extra : meta).
(** The packets of a run, until an error ends the loop. *)
Definition take (e : event) (s : synth) : synth * list (item * meta) :=
  match e with
  | Push t m => (push_stream t m s, [])
  | TextSent => (text_sent s, [])
  | Interrupted => (interrupted s, [])
  | Failed e => (fail e s, [])
  | Received mark i extra => let '(s, r) := generate_item mark i extra s in (s, match r with Ok (Some p) => [p] | _ => [] end)
  end.
Fixpoint run (es : list event) (s : synth) : synth * list (item * meta) :=
  match es with
  | [] => (s, [])
  | e :: es => let '(s, p) := take e s in let '(s, ps) := run es s in (s, p ++ ps)
  end.

(** *** A turn's audio carries the turn's sequence *)
Definition of_turn (q : val) (e : event) : Prop :=
  match e with
  | Push _ m => same_sequence q m = true
  | Received _ _ extra => "sequence_id" ∉ dkeys extra
  | _ => True
  end.
Record pure (q : val) (s : synth) : Prop := {
  pure_queue : forall m, m ∈ text_queue s -> same_sequence q m = true;
  pure_current : exists m, meta_info s = Some m /\ same_sequence q m = true }.

Lemma same_dset q k v m : k <> "sequence_id" -> same_sequence q (dset k v m) = same_sequence q m.
Proof. intros Hk. unfold same_sequence, sequence_of, get_item. by rewrite dget_dset_ne. Qed.
Lemma same_dupdate q extra : forall m, "sequence_id" ∉ dkeys extra -> same_sequence q (dupdate m extra) = same_sequence q m.
Proof.
  unfold dupdate. induction extra as [|[k v] extra IH]; intros m Hni; [done|]. cbn [foldl fst snd].
  cbn [dkeys map fst] in Hni. apply not_elem_of_cons in Hni as [Hk Hni]. rewrite IH by done. apply same_dset. congruence.
Qed.

Lemma generate_pure q mark i extra s : pure q s -> "sequence_id" ∉ dkeys extra ->
  pure q (generate_item mark i extra s).1 /\
  forall p, (generate_item mark i extra s).2 = Ok (Some p) -> same_sequence q p.2 = true.
Proof.
  intros Hs He. pose proof Hs as [Hq (m & Em & Hm)]. unfold generate_item.
  destruct (connection_error s); [done|].
  assert (forall k v x, k <> "sequence_id" -> same_sequence q x = true -> same_sequence q (dset k v x) = true) as Hset
    by (intros; by rewrite same_dset).
  assert (exists rest x, match text_queue s with m0 :: q0 => (q0, Some m0) | [] => ([], meta_info s) end = (rest, Some x) /\
    (forall y, y ∈ rest -> same_sequence q y = true) /\ same_sequence q x = true) as (rest & x & -> & Hrest & Hx).
  { destruct (text_queue s) as [|x rest]; [exists [], m|exists rest, x].
    - rewrite Em. split_and!; [done|by intros y ?%not_elem_of_nil|done].
    - split_and!; [done|intros y Hy; apply Hq; by right|apply Hq; by left]. }
  cbn [default from_option id].
  assert (same_sequence q (dupdate (dset "format" (VStr audio_format) x) extra) = true) as Hu
    by (rewrite same_dupdate by done; by apply Hset).
  destruct i as [|a]; [|destruct (process_audio_chunk a)]; cbn [fst snd].
  all: split; [split; [exact Hrest|eexists; split; [reflexivity|]]|intros p Hp].
  all: try (injection Hp as <-; cbn [snd]); try discriminate Hp.
  all: clear - Hset Hu; repeat first [exact Hu | apply Hset; [discriminate|] | destruct (last_text_sent s)].
Qed.
Lemma pure_step q e s : pure q s -> of_turn q e ->
  pure q (take e s).1 /\ forall p, p ∈ (take e s).2 -> same_sequence q p.2 = true.
Proof.
  intros Hs He. pose proof Hs as [Hq (m & Em & Hm)].
  destruct e as [t x| | |err|mark i extra]; cbn [take of_turn] in *;
    try (split; [by split; [|exists m]|by intros p ?%not_elem_of_nil]).
  - split; [|by intros p ?%not_elem_of_nil]. unfold push_stream, stamp_turn_start. cbn [turn_started fst].
    split; [|destruct (turn_started s); by exists x]. intros y.
    destruct (turn_started s); cbn [text_queue]; (intros [Hy|Hy%list_elem_of_singleton]%elem_of_app; [|subst y; by rewrite same_dset]).
    + by apply Hq.
    + apply elem_of_lfilter in Hy as [Hy _]. by apply Hq.
  - destruct (generate_pure q mark i extra s Hs He) as [H1 H2].
    destruct (generate_item mark i extra s) as [s' [[p|]|err]]; cbn [fst snd] in *; (split; [done|]); intros y Hy;
      try by apply not_elem_of_nil in Hy. apply list_elem_of_singleton in Hy as ->. by apply H2.
Qed.

(** C11: When a turn is over (its stream ended, or a barge-in reset it) and the next one begins,
    every packet of the next one carries its own sequence, whatever texts the turn before left
    in the queue and however pushes, audio and barge-ins interleave. *)
Theorem turn_carries_its_sequence s t m es q : turn_started s = false -> sequence_of m = q -> val_eqb q q = true ->
  Forall (of_turn q) es -> forall p, p ∈ (run (Push t m :: es) s).2 -> same_sequence q p.2 = true.
Proof.
  intros Hs Em Hr He p Hp. cbn [run take] in Hp.
  assert (pure q (push_stream t m s)) as Hpure.
  { unfold push_stream, stamp_turn_start. cbn [turn_started]. rewrite Hs. cbn [text_queue meta_info].
    assert (same_sequence q m = true) as Hm by (unfold same_sequence; by rewrite Em). split; [|by exists m].
    intros y [Hy|Hy%list_elem_of_singleton]%elem_of_app; [|subst y; by rewrite same_dset].
    apply elem_of_lfilter in Hy as [_ Hy]. unfold sequence_of, get_item in Hy. rewrite dget_dset_ne in Hy by done.
    fold (get_item "sequence_id" m) in Hy. fold (sequence_of m) in Hy. by rewrite Em in Hy. }
  clear Hs. revert Hpure Hp. generalize (push_stream t m s) as s'. induction He as [|e es He Hes IH]; intros s' Hpure Hp.
  { by apply not_elem_of_nil in Hp. }
  cbn [run] in Hp. destruct (pure_step q e s' Hpure He) as [H1 H2]. destruct (take e s') as [s1 ps].
  cbn [fst snd] in *. destruct (run es s1) as [s2 ps2] eqn:Er. cbn [fst snd app] in *.
  apply elem_of_app in Hp as [Hp|Hp]; [by apply H2|]. apply (IH s1 H1). by rewrite Er.
Qed.
End loop.

(** ** Redialling ([monitor_connection]) *)
(** What one round of the loop meets: a live connection, a redial that succeeds or fails. *)
Inductive round : Type := Connected | Redialled | Refused.
(** [None]: the loop goes on after the rounds. *)
Fixpoint monitor_connection (rounds : list round) (consecutive_failures : Z) : option Z :=
  if negb (consecutive_failures <? MAX_CONNECTION_FAILURES) then Some consecutive_failures
  else match rounds with
       | [] => None
       | Connected :: rounds => monitor_connection rounds consecutive_failures
       | Redialled :: rounds => monitor_connection rounds 0
       | Refused :: rounds =>
           if MAX_CONNECTION_FAILURES <=? consecutive_failures + 1 then Some (consecutive_failures + 1)
           else monitor_connection rounds (consecutive_failures + 1)
       end.

(** Three refusals with no redial between them. *)
Fixpoint given_up (rounds : list round) (n : nat) : bool :=
  match rounds with
  | [] => false
  | Connected :: rounds => given_up rounds n
  | Redialled :: rounds => given_up rounds 0
  | Refused :: rounds => if (2 <=? n)%nat then true else given_up rounds (S n)
  end.
Lemma monitor_given_up rounds : forall n, (n < 3)%nat ->
  monitor_connection rounds (Z.of_nat n) = if given_up rounds n then Some MAX_CONNECTION_FAILURES else None.
Proof.
  unfold MAX_CONNECTION_FAILURES. induction rounds as [|[| |] rounds IH]; intros n Hn; cbn [monitor_connection given_up];
    unfold MAX_CONNECTION_FAILURES; rewrite (proj2 (Z.ltb_lt _ _)) by lia; cbn [negb]; [done|by apply IH|by apply (IH 0%nat); lia|].
  destruct (Nat.leb_spec 2 n).
  - rewrite (proj2 (Z.leb_le _ _)) by lia. f_equal. lia.
  - rewrite (proj2 (Z.leb_gt _ _)) by lia. replace (Z.of_nat n + 1) with (Z.of_nat (S n)) by lia. apply IH. lia.
Qed.
(** The monitor gives up exactly at three refusals in a row, and then for good. *)
Theorem monitor_stops rounds : monitor_connection rounds 0 = if given_up rounds 0 then Some MAX_CONNECTION_FAILURES else None.
Proof. apply (monitor_given_up rounds 0). lia. Qed.
End StreamSynthesizer.

(** ** The pool (pool.py) *)
Module SynthesizerPool.
Section pool.
Context {P : Type}.
(** A queued message, with the voice that made it; and the sentinel of a switch. *)
Inductive queued : Type := Message (label : string) (m : P) | SWITCH_SENTINEL.
Inductive status : Type := Running | Cancelling | Ended.
(** A task of [_run_generate]. *)
Record task := Task { voice : string; state : status }.
Record pool := Pool {
  labels : list string; active_label : string; output_queue : list queued;
  gen_task : option nat; gens : list task;
  (** The lock: the switch that holds it awaits the cancelled task; those that wait. *)
  holder : option string; waiting : list string;
  monitor_tasks : list string;
  (** What [generate] took from the queue so far. *)
  delivered : list queued }.

(** The constructor; [None]: it raises. *)
Definition create (labels : list string) (active : string) : option pool :=
  if bool_decide (active ∈ labels) then Some (Pool labels active [] None [] None [] [] []) else None.

Definition state_of (t : nat) (p : pool) : option status := state <$> gens p !! t.
Definition start_gen (label : string) (p : pool) : pool :=
  Pool (labels p) (active_label p) (output_queue p) (Some (length (gens p))) (gens p ++ [Task label Running]) (holder p)
    (waiting p) (monitor_tasks p) (delivered p).
Definition set_state (t : nat) (st : status) (p : pool) : pool :=
  Pool (labels p) (active_label p) (output_queue p) (gen_task p) (alter (fun g => Task (voice g) st) t (gens p)) (holder p)
    (waiting p) (monitor_tasks p) (delivered p).
Definition put (m : queued) (p : pool) : pool :=
  Pool (labels p) (active_label p) (output_queue p ++ [m]) (gen_task p) (gens p) (holder p) (waiting p) (monitor_tasks p) (delivered p).
Definition set_active (l : string) (p : pool) : pool :=
  Pool (labels p) l (output_queue p) (gen_task p) (gens p) (holder p) (waiting p) (monitor_tasks p) (delivered p).
Definition set_lock (h : option string) (w : list string) (p : pool) : pool :=
  Pool (labels p) (active_label p) (output_queue p) (gen_task p) (gens p) h w (monitor_tasks p) (delivered p).

Definition pool_monitor_connection (p : pool) : pool :=
  start_gen (active_label p)
    (Pool (labels p) (active_label p) (output_queue p) (gen_task p) (gens p) (holder p) (waiting p) (labels p) (delivered p)).

(** The end of [switch], once the old task is done with. *)
Definition complete_switch (label : string) (p : pool) : pool :=
  put SWITCH_SENTINEL (start_gen label (set_active label p)).
(** [switch] under the lock, up to its await; an unknown label raises. *)
Definition begin_switch (label : string) (p : pool) : pool :=
  if bool_decide (label = active_label p) then p
  else if bool_decide (label ∈ labels p) then
    match gen_task p with
    | Some t => match state_of t p with
                | Some Running => set_lock (Some label) (waiting p) (set_state t Cancelling p)
                | _ => complete_switch label p
                end
    | None => complete_switch label p
    end
  else p.

Inductive event : Type :=
| Forward (t : nat) (m : P)  (** the generator of task [t] yields *)
| GeneratorEnds (t : nat)  (** it is exhausted, raises, or meets its cancellation *)
| Switch (label : string)
| Acquire  (** the lock goes to the next that waits *)
| Resume  (** the cancelled task is done, its canceller goes on *)
| Take.  (** [generate] takes from the queue *)
Definition step (e : event) (p : pool) : pool :=
  match e with
  | Forward t m => match gens p !! t with
                   | Some (Task l Running) => put (Message l m) p
                   | _ => p
                   end
  | GeneratorEnds t => set_state t Ended p
  | Switch label => set_lock (holder p) (waiting p ++ [label]) p
  | Acquire => match holder p, waiting p with
               | None, label :: w => begin_switch label (set_lock None w p)
               | _, _ => p
               end
  | Resume => match holder p, gen_task p with
              | Some label, Some t => match state_of t p with
                                      | Some Ended => complete_switch label (set_lock None (waiting p) p)
                                      | _ => p
                                      end
              | _, _ => p
              end
  | Take => match output_queue p with
            | m :: q => Pool (labels p) (active_label p) q (gen_task p) (gens p) (holder p) (waiting p) (monitor_tasks p)
                          (delivered p ++ [m])
            | [] => p
            end
  end.
Definition steps (es : list event) (p : pool) : pool := foldl (fun p e => step e p) p es.

(** Everything that was queued, in order. *)
Definition puts (p : pool) : list queued := delivered p ++ output_queue p.
(** The rounds of [generate]: the messages between two sentinels. *)
Fixpoint rounds_from (h : list queued) (current : list (string * P)) : list (list (string * P)) :=
  match h with
  | [] => [current]
  | Message l m :: h => rounds_from h (current ++ [(l, m)])
  | SWITCH_SENTINEL :: h => current :: rounds_from h []
  end.
Definition rounds (h : list queued) : list (list (string * P)) := rounds_from h [].
Definition unended (p : pool) : list task := List.filter (fun g => match state g with Ended => false | _ => true end) (gens p).

(** *** Rounds *)
Lemma rounds_message l m h : forall cur, exists init last,
  rounds_from h cur = init ++ [last] /\ rounds_from (h ++ [Message l m]) cur = init ++ [last ++ [(l, m)]].
Proof.
  induction h as [|[l' m'|] h IH]; intros cur; cbn [rounds_from app]; [by exists [], cur|apply IH|].
  destruct (IH []) as (init & last & -> & ->). by exists (cur :: init), last.
Qed.
Lemma rounds_sentinel h : forall cur, rounds_from (h ++ [SWITCH_SENTINEL]) cur = rounds_from h cur ++ [[]].
Proof. induction h as [|[l' m'|] h IH]; intros cur; cbn [rounds_from app]; [done|apply IH|by rewrite IH]. Qed.

(** Each round is spoken by its voice. *)
Definition voiced (ls : list string) (h : list queued) : Prop :=
  Forall2 (fun l (r : list (string * P)) => forall x, x ∈ r -> x.1 = l) ls (rounds h).
Lemma voiced_message ls l m h : voiced ls h -> last ls = Some l -> voiced ls (h ++ [Message l m]).
Proof.
  unfold voiced, rounds. destruct (rounds_message l m h []) as (init & r & -> & ->).
  intros (ls' & ls2 & H1 & H2 & ->)%Forall2_app_inv_r Hl. apply Forall2_cons_inv_r in H2 as (x & ls3 & Hx & H3 & ->).
  apply Forall2_nil_inv_r in H3 as ->. rewrite last_snoc in Hl. injection Hl as ->. apply Forall2_app; [done|].
  constructor; [|constructor]. intros y [Hy|Hy%list_elem_of_singleton]%elem_of_app; [by apply Hx|by subst].
Qed.
Lemma voiced_sentinel ls l h : voiced ls h -> voiced (ls ++ [l]) (h ++ [SWITCH_SENTINEL]).
Proof.
  unfold voiced, rounds. intros H. rewrite rounds_sentinel. apply Forall2_app; [done|].
  constructor; [|constructor]. by intros x ?%not_elem_of_nil.
Qed.

(** *** The invariant *)
Record inv (first : string) (p : pool) : Prop := {
  inv_gens : forall i g, gens p !! i = Some g -> state g <> Ended -> gen_task p = Some i;
  inv_active : exists t g, gen_task p = Some t /\ gens p !! t = Some g /\
    match holder p with
    | None => voice g = active_label p /\ state g <> Cancelling
    | Some l => state g <> Running /\ l ∈ labels p
    end;
  inv_rounds : exists ls, head ls = Some first /\ last ls = Some (active_label p) /\ voiced ls (puts p) /\
    forall l, l ∈ ls -> l ∈ labels p }.

Lemma puts_put m p : puts (put m p) = puts p ++ [m].
Proof. unfold puts. cbn. by rewrite app_assoc. Qed.
Lemma gens_set t st p i g : gens (set_state t st p) !! i = Some g ->
  exists g', gens p !! i = Some g' /\ g = if decide (i = t) then Task (voice g') st else g'.
Proof.
  cbn. destruct (decide (i = t)) as [->|Hne].
  - rewrite list_lookup_alter_eq. destruct (gens p !! t) as [g'|]; [|done]. intros [= <-]. by exists g'.
  - rewrite list_lookup_alter_ne by done. intros H. by exists g.
Qed.

Lemma inv_start first p : first ∈ labels p -> p = Pool (labels p) first [] None [] None [] [] [] -> inv first (pool_monitor_connection p).
Proof.
  intros Hf ->. split; cbn.
  - intros [|i] g Hi; [done|]. by cbn in Hi; rewrite ?lookup_nil in Hi; destruct i.
  - exists 0%nat, (Task first Running). cbn. done.
  - exists [first]. cbn. split_and!; [done|done| |by intros l ->%list_elem_of_singleton].
    constructor; [by intros x ?%not_elem_of_nil|constructor].
Qed.

(** A switch completes when the task before has ended. *)
Lemma complete_inv first label p t g :
  (forall i g, gens p !! i = Some g -> state g = Ended) -> label ∈ labels p ->
  (exists ls, head ls = Some first /\ last ls = Some (active_label p) /\ voiced ls (puts p) /\ forall l, l ∈ ls -> l ∈ labels p) ->
  gen_task p = Some t -> gens p !! t = Some g -> holder p = None -> inv first (complete_switch label p).
Proof.
  intros Hall Hl (ls & Hh & _ & Hv & Hin) Ht Hg Hn. split; cbn.
  - intros i g' Hi Hs. apply lookup_app_Some in Hi as [Hi|[Hi Hj]]; [by destruct Hs; eapply Hall|].
    destruct (i - length (gens p))%nat as [|k] eqn:Ek; [f_equal; lia|apply lookup_lt_Some in Hj; cbn in Hj; lia].
  - exists (length (gens p)), (Task label Running). rewrite Hn. split_and!; [done| |done|done].
    by rewrite lookup_app_r, Nat.sub_diag by lia.
  - exists (ls ++ [label]). split_and!.
    + by destruct ls.
    + by rewrite last_snoc.
    + change (voiced (ls ++ [label]) (puts (complete_switch label p))). unfold complete_switch. rewrite puts_put. by apply voiced_sentinel.
    + intros l [?|?%list_elem_of_singleton]%elem_of_app; [by apply Hin|by subst].
Qed.

Lemma begin_inv first label p : inv first p -> holder p = None -> inv first (begin_switch label p).
Proof.
  intros [Hg (t & g & Ht & Hgt & Ha) Hr] Hn. rewrite Hn in Ha. destruct Ha as [Hv Hc]. unfold begin_switch.
  case_bool_decide as E1; [split; [done| |done]; exists t, g; by rewrite Hn|].
  case_bool_decide as E2; [|split; [done| |done]; exists t, g; by rewrite Hn].
  rewrite Ht. unfold state_of. rewrite Hgt. cbn [fmap option_fmap option_map]. destruct (state g) eqn:Es; [|done|].
  - split.
    + intros i g' (g0 & Hi & ->)%gens_set Hs'. change (gen_task p = Some i).
      destruct (decide (i = t)) as [->|Hne]; [done|]. by eapply Hg.
    + exists t, (Task (voice g) Cancelling). split_and!; [done| |done]. cbn. rewrite list_lookup_alter_eq, Hgt. done.
    + destruct Hr as (ls & ? & ? & ? & ?). by exists ls.
  - eapply complete_inv; try done. intros i g' Hi. destruct (state g') eqn:Es'; [..|done]; exfalso.
    all: assert (gen_task p = Some i) as Hx by (eapply Hg; [done|congruence]). all: rewrite Ht in Hx; injection Hx as ->; congruence.
Qed.

Lemma step_inv first e p : inv first p -> inv first (step e p).
Proof.
  intros Hi. pose proof Hi as [Hg (t & g & Ht & Hgt & Ha) (ls & Hh & Hl & Hv & Hin)]. destruct e as [i m|i|label| | |]; cbn [step].
  - destruct (gens p !! i) as [[l [| |]]|] eqn:Ei; try done. split; [done|by exists t, g|].
    assert (gen_task p = Some i) as Hx by (by eapply Hg). rewrite Ht in Hx. injection Hx as ->. rewrite Hgt in Ei. injection Ei as ->.
    destruct (holder p); [by destruct Ha|]. destruct Ha as [Ha _]. cbn in Ha. subst l.
    exists ls. rewrite puts_put. split_and!; [done|done|by apply voiced_message|done].
  - split; [|exists t|by exists ls].
    + intros j g' (g0 & Hj & ->)%gens_set Hs. destruct (decide (j = i)); [done|]. by eapply Hg.
    + cbn. exists (if decide (t = i) then Task (voice g) Ended else g). split_and!; [done| |].
      * destruct (decide (t = i)) as [->|]; [by rewrite list_lookup_alter_eq, Hgt|by rewrite list_lookup_alter_ne].
      * destruct (holder p); destruct (decide (t = i)); try done; by destruct Ha.
  - split; [done|by exists t, g|by exists ls].
  - destruct (holder p) eqn:Eh; [done|]. destruct (waiting p); [done|]. apply begin_inv; [|done].
    split; [done|by exists t, g|by exists ls].
  - destruct (holder p) as [label|] eqn:Eh; [|done]. rewrite Ht. unfold state_of. rewrite Hgt. cbn [fmap option_fmap option_map].
    destruct (state g) eqn:Es; try done. destruct Ha as [_ Hla].
    eapply complete_inv; try done; [|by exists ls]. intros j g' Hj. change (gens p !! j = Some g') in Hj.
    destruct (state g') eqn:Es'; [..|done]; exfalso.
    all: assert (gen_task p = Some j) as Hx by (eapply Hg; [done|congruence]). all: rewrite Ht in Hx; injection Hx as ->; congruence.
  - destruct (output_queue p) as [|m q] eqn:Eq; [done|]. split; [done|by exists t, g|]. exists ls.
    split_and!; [done|done| |done]. unfold puts in *. cbn. rewrite Eq in Hv. by rewrite <- app_assoc.
Qed.
Lemma steps_inv first es p : inv first p -> inv first (steps es p).
Proof. revert p. induction es as [|e es IH]; intros p Hp; [done|]. by apply IH, step_inv. Qed.

Lemma step_puts e p : puts p `prefix_of` puts (step e p).
Proof.
  assert (forall label q, puts q `prefix_of` puts (complete_switch label q)) as Hc
    by (intros label q; unfold complete_switch; rewrite puts_put; by apply prefix_app_r).
  destruct e as [i m|i|label| | |]; cbn [step]; try done.
  - destruct (gens p !! i) as [[l [| |]]|]; try done. rewrite puts_put. by apply prefix_app_r.
  - destruct (holder p); [done|]. destruct (waiting p) as [|label w]; [done|]. unfold begin_switch.
    repeat (case_bool_decide; [|try done]); try done.
    all: destruct (gen_task _) as [t|]; [destruct (state_of t _) as [[| |]|]|]; first [apply (Hc label (set_lock None w p)) | done].
  - destruct (holder p) as [label|]; [|done]. destruct (gen_task p) as [t|]; [|done]. destruct (state_of t p) as [[| |]|]; try done.
    exact (Hc label (set_lock None (waiting p) p)).
  - destruct (output_queue p) as [|m q] eqn:Eq; [done|]. unfold puts. cbn. rewrite Eq. by rewrite <- app_assoc.
Qed.
Lemma steps_puts es : forall p, puts p `prefix_of` puts (steps es p).
Proof. induction es as [|e es IH]; intros p; [done|]. etrans; [apply (step_puts e)|apply IH]. Qed.

Lemma unended_inv first p : inv first p -> (length (unended p) <= 1)%nat.
Proof.
  intros [Hg (t & g & Ht & Hgt & _) _]. unfold unended.
  assert (forall gs k, (forall i g, gs !! i = Some g -> state g <> Ended -> (k + i)%nat = t) ->
    (length (List.filter (fun g => match state g with Ended => false | _ => true end) gs) <= 1)%nat) as H.
  { induction gs as [|x gs IH]; intros k Hk; [cbn; lia|]. cbn [List.filter].
    assert ((length (List.filter (fun g => match state g with Ended => false | _ => true end) gs) <= 1)%nat) as Hgs.
    { apply (IH (S k)). intros i y Hi Hy. specialize (Hk (S i) y Hi Hy). lia. }
    destruct (state x) eqn:Ex; [..|done]; cbn [length].
    all: rewrite lfilter_none; [cbn; lia|]. all: intros y [i Hi]%list_elem_of_lookup.
    all: destruct (state y) eqn:Ey; [..|done]; exfalso.
    all: assert ((k + 0)%nat = t) by (apply (Hk 0%nat x); [done|congruence]).
    all: assert ((k + S i)%nat = t) by (apply (Hk (S i) y); [done|congruence]). all: lia. }
  apply (H (gens p) 0%nat). intros i y Hi Hy. assert (gen_task p = Some i) as E by (by eapply Hg). rewrite Ht in E. by injection E.
Qed.

(** C10: The pool speaks with one voice at a time: however audio, switches and the ends of tasks
    interleave, at most one generator is not done with, so no socket is read twice; what
    [generate] takes is what was queued, in order, nothing lost; and between two sentinels every
    message is of one voice, the first the initial one, the last the active one. *)
Theorem pool_routes_by_round ls first es es' p0 : create ls first = Some p0 ->
  let p := steps es (pool_monitor_connection p0) in
  (length (unended p) <= 1)%nat /\ puts p `prefix_of` puts (steps es' p) /\
  exists voices, head voices = Some first /\ last voices = Some (active_label p) /\ voiced voices (puts p) /\
    forall l, l ∈ voices -> l ∈ labels p.
Proof.
  intros E p.
  assert (inv first p) as Hp.
  { apply steps_inv, inv_start; unfold create in E; case_bool_decide as Hf; try discriminate; injection E as <-; done. }
  split; [by eapply unended_inv|]. split; [apply steps_puts|apply Hp].
Qed.

(** Nothing starts the generator of the active voice again. *)
Record silent (p0 p : pool) : Prop := {
  silent_free : holder p = None;
  silent_ended : forall g, g ∈ gens p -> state g = Ended;
  silent_waiting : forall l, l ∈ waiting p -> l = active_label p0 \/ l ∉ labels p0;
  silent_active : active_label p = active_label p0;
  silent_labels : labels p = labels p0;
  silent_puts : puts p = puts p0 }.
Definition no_other_voice (p : pool) (e : event) : Prop :=
  match e with Switch l => l = active_label p \/ l ∉ labels p | _ => True end.
Lemma silent_step p0 e p : silent p0 p -> no_other_voice p0 e -> silent p0 (step e p).
Proof.
  intros Hs He. pose proof Hs as [Hf Hg Hw Ha Hl Hp]. destruct e as [i m|i|label| | |]; cbn [step].
  - destruct (gens p !! i) as [[l st]|] eqn:Ei; [|done]. apply list_elem_of_lookup_2, Hg in Ei. cbn in Ei. by subst st.
  - split; try done. intros g [j Hj]%list_elem_of_lookup. apply gens_set in Hj as (g0 & Hj & ->).
    destruct (decide (j = i)); [done|]. by eapply Hg, list_elem_of_lookup_2.
  - split; try done. intros l [Hin| ->%list_elem_of_singleton]%elem_of_app; [by apply Hw|done].
  - rewrite Hf. destruct (waiting p) as [|label w] eqn:Ew; [done|].
    assert (begin_switch label (set_lock None w p) = set_lock None w p) as ->.
    { unfold begin_switch. cbn [active_label labels set_lock]. rewrite Ha, Hl. destruct (Hw label) as [->|Hn]; [by left| |].
      - by rewrite bool_decide_eq_true_2.
      - case_bool_decide; [done|]. by rewrite bool_decide_eq_false_2. }
    split; try done. intros l Hin. apply Hw. by right.
  - by rewrite Hf.
  - destruct (output_queue p) as [|m q] eqn:Eq; [done|]. split; try done. unfold puts in *. cbn. rewrite Eq in Hp. by rewrite <- app_assoc.
Qed.

(** A voice whose generator has ended, as it does when its connection closes, stays silent:
    nothing more is queued until a switch to another voice. *)
Theorem ended_voice_is_silent es p : holder p = None -> waiting p = [] -> (forall g, g ∈ gens p -> state g = Ended) ->
  Forall (no_other_voice p) es -> puts (steps es p) = puts p.
Proof.
  intros Hh Hw Hg Hes. assert (silent p p) as Hs by (split; try done; rewrite Hw; by intros l ?%not_elem_of_nil).
  assert (forall q, silent p q -> silent p (steps es q)) as H; [|by apply H].
  clear Hs. induction Hes as [|e es He Hes IH]; intros q Hq; [done|]. by apply IH, silent_step.
Qed.
End pool.
Arguments pool : clear implicits.
Arguments queued : clear implicits.
Arguments event : clear implicits.
End SynthesizerPool.

(** ** Runs *)
Module SynthRuns.
Import StreamSynthesizer.
Definition told (t : string) (n : Z) : @event string := Push t [("sequence_id", VInt n)].
Definition chunk : @event string := Received "m" (Audio "a") [].
Definition eos : @event string := Received "m" EndOfStream [].
Definition sequences (es : list (@event string)) : list val := map (fun p => sequence_of p.2) (run "wav" Some es synth0).2.

(** The audio of a whole turn, and of the next one after a barge-in that resets. *)
Example turns_follow : sequences [told "hello" 1; told "there" 1; chunk; Interrupted; told "what?" 2; chunk; eos] = [VInt 1; VInt 2; VInt 2].
Proof. by vm_compute. Qed.
(** A provider that clears its connection at a barge-in and does not reset the turn: the text
    of the answer that was cut off is popped by the audio of the next answer. *)
Example stale_sequence_after_clear : sequences [told "hello" 1; told "there" 1; chunk; told "what?" 2; chunk; eos] = [VInt 1; VInt 1; VInt 2].
Proof. by vm_compute. Qed.
(** One that does not clear: audio of the answer before comes under the next one's sequence. *)
Example old_audio_new_sequence : sequences [told "hello" 1; chunk; told "what?" 2; Received "m" (Audio "late, of 1") []] = [VInt 1; VInt 2].
Proof. by vm_compute. Qed.

Definition left_over : synth := (run "wav" (Some (A := string)) [told "hello" 1; told "there" 1; chunk; Interrupted] synth0).1.
Lemma turn_carries_its_sequence_witness : text_queue left_over <> [] /\
  forall p, p ∈ (run "wav" (Some (A := string)) [told "what?" 2; chunk; told "again?" 2; chunk; eos] left_over).2 -> same_sequence (VInt 2) p.2 = true.
Proof.
  split; [by vm_compute|].
  apply (turn_carries_its_sequence "wav" Some left_over "what?" [("sequence_id", VInt 2)] [chunk; told "again?" 2; chunk; eos] (VInt 2));
    [reflexivity|reflexivity|reflexivity|].
  repeat constructor; cbn; by intros ?%not_elem_of_nil.
Defined.
End SynthRuns.

Module PoolRuns.
Import SynthesizerPool.
Definition english_hindi : pool string := Pool ["en"; "hi"] "en" [] None [] None [] [] [].
Definition switching : list (event string) :=
  [Forward 0 "a"; Take; Forward 0 "b"; Switch "hi"; Switch "hi"; Acquire; GeneratorEnds 0; Resume; Acquire; Forward 0 "late"; Forward 1 "c"; Take; Take; Take].

Example switch_once : let p := steps switching (pool_monitor_connection english_hindi) in
  (delivered p, map (fun g => (voice g, state g)) (gens p), active_label p)
  = ([Message "en" "a"; Message "en" "b"; SWITCH_SENTINEL; Message "hi" "c"], [("en", Ended); ("hi", Running)], "hi").
Proof. by vm_compute. Qed.

Lemma pool_routes_by_round_witness : let p := steps switching (pool_monitor_connection english_hindi) in
  exists voices, head voices = Some "en" /\ last voices = Some (active_label p) /\ voiced voices (puts p) /\
    forall l, l ∈ voices -> l ∈ labels p.
Proof.
  apply (pool_routes_by_round ["en"; "hi"] "en" switching [] english_hindi). vm_compute. reflexivity.
Defined.

(** The connection of the voice closes; it is redialled, and nothing reads it. *)
Lemma ended_voice_is_silent_witness : let p := steps [Forward 0 "a"; GeneratorEnds 0] (pool_monitor_connection english_hindi) in
  puts (steps [Forward 0 "b"; Switch "en"; Acquire; Take] p) = [Message "en" "a"].
Proof.
  cbv zeta. rewrite (ended_voice_is_silent [Forward 0 "b"; Switch "en"; Acquire; Take]); [reflexivity|reflexivity|reflexivity| |].
  - intros g Hg. apply list_elem_of_singleton in Hg as ->. reflexivity.
  - repeat constructor.
Defined.
End PoolRuns.
